(* ===== verification/_CoqProject ===== *)
-Q . S2P
Prelude.v
PyDict.v
PyTime.v
Sha256.v
Json.v
JsonParse.v
JsonIndent.v
PyParse.v
Redaction.v
PyPath.v
NodeModels.v
NodeScopes.v
NodeScopesFacts.v
AgentFiles.v
AgentFilesFacts.v
NodeAudit.v
NodeStore.v
NodeCrypto.v
Authorization.v
AuthorityRepository.v
AuthorityFacts.v
AuthorityTypes.v
SqlAuthority.v
SqlAuthorityFacts.v
NodeApprovals.v
NodeRegistry.v
NodeRegistryFacts.v
NodeRegistryProps.v
NodeRegistryExamples.v
PgStore.v
PgStoreFacts.v
PgStoreProps.v
NodeChannel.v
NodeSession.v
NodeDispatch.v
NodeSessionFacts.v
NodeDispatchFacts.v
NodeDispatchProps.v
NodeAgent.v
SystemInspect.v
NodeAgentFacts.v
NodeAgentProps.v
GraphCompiler.v
GraphCompilerFacts.v
EffectLedger.v
RootBroker.v
WorkerAdmission.v
EmergencyLatch.v
ArtifactPlane.v
BurstCapacity.v
OperationsControl.v
HighAutonomy.v
PolicyKernel.v
AuditSigning.v
AuditExport.v
AuditExportFacts.v
AuditExportProps.v
AuditExportSigned.v
AuditBundle.v
S3Store.v
AuditExportJob.v
TemporalBackup.v
TemporalBackupFacts.v
OffhostBackup.v
OffhostBackupFacts.v
WebAuthn.v
WebAuthnFacts.v
WebAuthnProps.v
Commands.v
Discord.v
DiscordFacts.v
Workflows.v
WorkflowsFacts.v
OperatorAuth.v
NodesApi.v
NodesApiFacts.v
ProductionApp.v
ProductionAppFacts.v
AgentProcess.v
Settings.v
