(* ===== verification/Prelude.v ===== *)
(** * Verification of Olympus

    Olympus (src/src/olympus) is a personal control plane. A commander proves presence with a passkey and holds a
    short authority lease; commands are compiled into execution graphs; actions are authorized against taint,
    approvals, schedules and a hard budget; work runs on local workers, on rented burst capacity, or on a mesh of
    enrolled nodes reached over authenticated sessions; side effects, audit logs, backups and a root broker are kept
    beside it. This library translates the parts that carry this logic into executable definitions and proves what
    makes them correct.

    ** How the code is modelled

    - A method that raises or returns is a [result]; one that also assigns fields is a [St S E A], a function from the
      fields to a result and the fields afterwards. As in Python, what was assigned before an exception stays assigned.
    - A dictionary is an association list in insertion order ([PyDict]), a set of strings a [gset] or a list, a
      [datetime] a number of microseconds in UTC ([PyTime]), a string of code points below 256 a [string], bytes too.
    - SHA-256, canonical JSON and its parser, base64, hexadecimal and the ISO format are concrete functions, so that
      examples run. No property of SHA-256 is assumed: where the code relies on collisions being infeasible, the theorem
      says "or these messages collide" ([sha_collides]).
    - What is not in the repository (Ed25519, NaCl's SecretBox, the WebAuthn library, S3, tarfile, JSONB, the cloud
      provider, effect providers, the worker backend) is a parameter of the section that uses it, with its documented behaviour as a named hypothesis
      where a theorem needs it; a witness instantiates it. The clock, random identifiers and the answers of the file
      system are arguments.
    - An [async] method is cut into steps where another task can come between and it matters: the dispatch of a job at the
      wait for its node, a Discord interaction after it read the lease, a WebAuthn ceremony after each of its reads, a workflow
      at its waits. The theorems about interleaving are about sequences of these steps. Other methods run as one
      step: under a lock, in one transaction, or as one call of a store.

    ** The files

    Foundations: [Prelude] (results, the state monad, strings, sorting, tactics), [PyDict], [PyTime], [Sha256], [Json]
    and [JsonParse] (canonical JSON is injective up to key order and parses back), [JsonIndent] (so does indented JSON), [PyParse] (what Python reads from
    text), [PyPath].

    The node mesh (nodes/): [Redaction] (redaction.py), [NodeModels] (models.py, capabilities.py, errors.py),
    [NodeScopes] and [NodeScopesFacts] (scopes.py), [NodeAudit] (audit.py), [NodeStore] (store.py: transactions as a
    free monad, with the buffered interpreter refined against the contract), [PgStore] with [PgStoreFacts] and
    [PgStoreProps] (persistence/postgres_store.py and migrator.py: the interpreter over the tables of production),
    [NodeCrypto] (crypto.py), [NodeApprovals] (authority/node_approvals.py, behind the class [ApprovalVerifier]),
    [NodeRegistry] with [NodeRegistryFacts], [NodeRegistryProps] and [NodeRegistryExamples] (registry.py), [NodeChannel]
    (channel.py), [NodeSession] and [NodeSessionFacts] (session.py, protocol.py), [NodeDispatch] with [NodeDispatchFacts]
    and [NodeDispatchProps] (dispatch.py, activities/node_dispatch.py).

    The node agent (node_agent/): [AgentFiles] and [AgentFilesFacts] (file_read.py, file_write.py over a POSIX file
    tree), [SystemInspect] (capabilities.py, and integrations/shadow.py), [NodeAgent] with [NodeAgentFacts] and
    [NodeAgentProps] (agent.py: the result ledger, the handshake, the life of a job), [AgentProcess] (config.py, enroll.py
    and the commands of __main__.py, up to the enrollment over the gateway's routes).

    Authority and governance: [Authorization] (governance/authorization.py), [PolicyKernel] (governance/policy.py),
    [AuthorityRepository], [AuthorityFacts] and [AuthorityTypes] (authority/repository.py), [SqlAuthority] and
    [SqlAuthorityFacts] (authority/sqlalchemy.py over the tables of persistence/models.py), [EmergencyLatch]
    (authority/latch.py), [WebAuthn] with [WebAuthnFacts] and [WebAuthnProps] (webauthn/: the ceremonies over the
    repository), [HighAutonomy] (operations/autonomy.py, on top of [Authorization]).

    Commands: [Commands] (contracts/commands.py), [Discord] and [DiscordFacts] (discord/: from a signed request to a
    workflow), [Workflows] and [WorkflowsFacts] (workflows/, control/: Temporal workflows as step relations).

    The gateway (gateway/): [OperatorAuth] (auth.py: operator grants under a lease), [NodesApi] and [NodesApiFacts]
    (nodes_api.py), [ProductionApp] and [ProductionAppFacts] (production.py), [Settings] (settings.py,
    production_settings.py, settings_compat.py, and what runtime/production_gateway.py and node_edge.py build from them).

    Execution: [GraphCompiler] and [GraphCompilerFacts] (graphs/), [EffectLedger] (effects/ledger.py), [RootBroker]
    (broker/root.py), [WorkerAdmission] (workers/), [BurstCapacity] (capacity/burst.py), [OperationsControl]
    (operations/control_plane.py, capacity/models.py), [ArtifactPlane] (persistence/ownership.py).

    Off-host evidence: [AuditSigning] (audit_export/signing.py, trust.py), [AuditExport] with [AuditExportFacts],
    [AuditExportProps] and [AuditExportSigned] (exporter.py, models.py and the in-memory store of store.py), [S3Store]
    (the Object Lock store of store.py over the class [S3Client]), [AuditBundle] (offline_verify.py), [AuditExportJob]
    (runtime/audit_export_job.py), [TemporalBackup] and [TemporalBackupFacts]
    (backup/temporal.py), [OffhostBackup] and [OffhostBackupFacts] (runtime/temporal_offhost_backup.py).

    ** What the theorems show

    - The mesh: an invariant of every reachable store (the audit chain verifies, every node stands on the token that
      enrolled it, grants are dispatchable, revoked nodes have no session); admission, selection, enrollment, revocation,
      freezing and restart recovery do what they promise; audit chains cannot be rewritten under the same head. The
      in-memory store refines the transactional contract, and so does PostgreSQL, with the columns its upserts keep.
    - Sessions and the agent: both handshakes authenticate and complete together for honest peers; whatever a node sends
      stays within its bounds; teardown answers every waiting job; a job the agent finished is not run again.
    - Files on the node: reads and writes stay below the granted root without following links, and writes are all or
      nothing with the approved bytes only.
    - Authority: one lease per epoch, fencing after a freeze, recovery bound to its freeze, a latch that fails closed;
      the SQL repository refines the in-memory one; a live lease comes from an assertion the WebAuthn library verified against
      an open challenge and a stored credential, a challenge to a lease;
      authorization, policy releases and high autonomy admit only what was signed, approved, current and affordable.
    - Commands and the gateway: an admitted interaction starts its workflow once, a freeze stops them until a recovery,
      workflows end and report what their signals asked; every operator request that changes anything came under the one live lease, and
      what the lease route hands out opens the mesh; a token the gateway issued makes the agent's enroll command end with
      the identity both handshakes need; accepted settings give a gateway that starts and that browsers reach.
    - Execution: graphs compile exactly when acyclic and independently of their order, effects are applied once per key,
      root commands run once per signed nonce, workers and bursts keep within their limits and clean up, artifacts and
      backups read back.
    - Off-host evidence: what the exporter wrote restores, verifies as authentic when it was signed, and is accepted only
      as pinned keys attested it, offline from a bundle too, which loses nothing; the export job succeeds only over
      attested chains; an uploaded backup restores to the files it was made from, a restoration is of the
      attested archive, and one that fails leaves nothing but what the file system refuses to remove.
    - Where the code does not do what it means to, a theorem or an example says so: an agent job cancelled before it
      started, a freeze that misses a dispatch in flight, a duplicate submission that hides a running job, a revoked
      activation proof that activates again, burst instances left behind by a failed deletion, a pending effect that is
      never retried, a revocation that a concurrent heartbeat undoes in PostgreSQL, a truncated bundle that verifies, a
      node chain the export job does not look at, settings that are accepted and cannot work.

    ** Bounds and fuel

    Loops that are not structural take fuel, and the theorems show it suffices: [topological_loop] starts with one turn
    per node ([compile_orders_acyclic] excludes running out), [parse_value] with twice the length of its text
    ([loads_dumps]), the reading loop and the path walk of [AgentFiles] with the size of the file and the number of
    components, [list_pages] of [S3Store] with the number of pages ([lock_list_keys_complete]). SHA-256 works on 32-bit
    words with [mask32], columns of PostgreSQL have their width; all other integers are Python's, unbounded.

    ** Not modelled

    The start of servers and workers, transports, pages, the development application and the command lines, which are
    input and output through libraries, and the wiring of an in-process node; pydantic's parsing of requests, of
    received frames and of settings (the ranges of a dispatched frame and the validity of a result frame are modelled, where
    they are made). Transactions of PostgreSQL run one after the other, except where
    [interrupted] lets one commit between the reads of another. JSON numbers with a fraction, code points above 255, time
    zones other than UTC and decimals past 28 digits are outside the data model. *)

From stdpp Require Export base tactics list strings gmap sorting.
From Stdlib Require Export ZArith Lia.
From Stdlib Require Import Ascii.

(** * Results and the error monad

    A Python call either returns a value or raises; [result E A] keeps the two
    outcomes apart, [E] being the exception values the callee can raise. *)

Inductive result (E A : Type) : Type :=
  | Ok (a : A)
  | Err (e : E).
Arguments Ok {E A} _.
Arguments Err {E A} _.

Declare Scope olympus_scope.
Delimit Scope olympus_scope with olympus.

#[export] Instance result_ret {E} : MRet (result E) := λ A a, Ok a.
#[export] Instance result_bind {E} : MBind (result E) := λ A B k r,
  match r with Ok a => k a | Err e => Err e end.
#[export] Instance result_fmap {E} : FMap (result E) := λ A B f r,
  match r with Ok a => Ok (f a) | Err e => Err e end.

(** [if not b: raise e] *)
Definition ensure {E} (b : bool) (e : E) : result E () :=
  if b then Ok () else Err e.

(** [if x is None: raise e] *)
Definition require_some {E A} (o : option A) (e : E) : result E A :=
  match o with Some a => Ok a | None => Err e end.

Definition is_ok {E A} (r : result E A) : bool :=
  match r with Ok _ => true | Err _ => false end.

(** A [for] loop that may raise: the first error stops it. *)
Fixpoint mapM_r {E A B} (f : A → result E B) (l : list A) : result E (list B) :=
  match l with
  | [] => Ok []
  | a :: l => b ← f a; bs ← mapM_r f l; Ok (b :: bs)
  end.

(** * Stateful computations that can raise

    [St S E A] threads the mutable fields [S] of an object through a method.
    As in Python, what was assigned before an exception stays assigned: the
    state is returned next to the result, not inside it. *)

Definition St (S E A : Type) : Type := S → result E A * S.

#[export] Instance st_ret {S E} : MRet (St S E) := λ A a s, (Ok a, s).
#[export] Instance st_bind {S E} : MBind (St S E) := λ A B k m s,
  match m s with
  | (Ok a, s') => k a s'
  | (Err e, s') => (Err e, s')
  end.

Definition raise {S E A} (e : E) : St S E A := λ s, (Err e, s).
Definition read {S E} : St S E S := λ s, (Ok s, s).
Definition gets {S E A} (f : S → A) : St S E A := λ s, (Ok (f s), s).
Definition modify {S E} (f : S → S) : St S E () := λ s, (Ok (), f s).
Definition check {S E} (b : bool) (e : E) : St S E () := λ s, (ensure b e, s).
Definition liftR {S E A} (r : result E A) : St S E A := λ s, (r, s).
Definition some_or {S E A} (o : option A) (e : E) : St S E A := λ s, (require_some o e, s).

(** The state left behind, and the value or exception produced. *)
Definition final {S E A} (p : result E A * S) : S := p.2.
Definition outcome {S E A} (p : result E A * S) : result E A := p.1.

Lemma run_pair {S E A} (p : result E A * S) r : outcome p = r → p = (r, final p).
Proof. destruct p. by intros <-. Qed.

Lemma run_is_ok {S E A} (p : result E A * S) : is_ok (outcome p) = true → ∃ a, p = (Ok a, final p).
Proof. destruct p as [[a|] s]; [|done]. by exists a. Qed.

Lemma bind_run_Ok {S E A B} (m : St S E A) (k : A → St S E B) s a s' : m s = (Ok a, s') → (m ≫= k) s = k a s'.
Proof. intros H. unfold mbind, st_bind. by rewrite H. Qed.
Lemma bind_run_Err {S E A B} (m : St S E A) (k : A → St S E B) s e s' :
  m s = (Err e, s') → (m ≫= k) s = (Err e, s').
Proof. intros H. unfold mbind, st_bind. by rewrite H. Qed.
Lemma bind_run_inv {S E A B} (m : St S E A) (k : A → St S E B) s b s' :
  (m ≫= k) s = (Ok b, s') → ∃ a s1, m s = (Ok a, s1) ∧ k a s1 = (Ok b, s').
Proof. unfold mbind, st_bind. destruct (m s) as [[a|e] s1]; [eauto|done]. Qed.

(** ** Invariants of stateful computations

    [keeps I m]: running [m] in a state that satisfies [I] ends, normally or
    with an exception, in a state that satisfies [I]. *)
Definition keeps {S E A} (I : S → Prop) (m : St S E A) : Prop := ∀ s, I s → I (final (m s)).

Lemma keeps_bind {S E A B} (I : S → Prop) (m : St S E A) (k : A → St S E B) :
  keeps I m → (∀ a, keeps I (k a)) → keeps I (m ≫= k).
Proof.
  intros Hm Hk s Hs. specialize (Hm s Hs). unfold mbind, st_bind, final in *.
  destruct (m s) as [[a|e] s1]; simpl in *; [|done]. by apply Hk.
Qed.
(** After [x = self.state], the rest starts in the state that was read. *)
Lemma keeps_read {S E B} (I : S → Prop) (k : S → St S E B) :
  (∀ s, I s → I (final (k s s))) → keeps I (read ≫= k).
Proof. intros Hk s Hs. by apply Hk. Qed.
Lemma keeps_pure {S E A} (I : S → Prop) (m : St S E A) : (∀ s, final (m s) = s) → keeps I m.
Proof. intros Hm s Hs. by rewrite Hm. Qed.

(** * Python integers as truth values and comparisons *)

Definition zle (a b : Z) : bool := (a <=? b)%Z.
Definition zlt (a b : Z) : bool := (a <? b)%Z.

(** * Strings

    A Python [str] is a [string]; a character stands for the code point equal
    to its 8-bit code. *)

#[global] Arguments String.append !s1 s2 : simpl nomatch.

Definition ord (c : ascii) : nat := nat_of_ascii c.

(** [str.isspace] on one code point below 256. *)
Definition is_space (c : ascii) : bool :=
  let n := ord c in
  ((9 <=? n) && (n <=? 13)) || ((28 <=? n) && (n <=? 32)) || (n =? 133) || (n =? 160).

Fixpoint lstrip (s : string) : string :=
  match s with
  | EmptyString => EmptyString
  | String c s' => if is_space c then lstrip s' else s
  end.

(** Right strip: drop a character when only blanks follow it. *)
Fixpoint rstrip (s : string) : string :=
  match s with
  | EmptyString => EmptyString
  | String c s' =>
      match rstrip s' with
      | EmptyString => if is_space c then EmptyString else String c EmptyString
      | r => String c r
      end
  end.

(** [str.strip()] *)
Definition strip (s : string) : string := rstrip (lstrip s).

Definition is_empty (s : string) : bool :=
  match s with EmptyString => true | _ => false end.

(** [not s.strip()] *)
Definition is_blank (s : string) : bool := is_empty (strip s).

(** [str.lower()] below code point 256. *)
Definition lower_char (c : ascii) : ascii :=
  let n := ord c in
  if ((65 <=? n) && (n <=? 90)) || ((192 <=? n) && (n <=? 222) && negb (n =? 215))
  then ascii_of_nat (n + 32) else c.

Fixpoint lower (s : string) : string :=
  match s with
  | EmptyString => EmptyString
  | String c s' => String (lower_char c) (lower s')
  end.

(** [c in s] for a one-character [c]. *)
Fixpoint str_has (c : ascii) (s : string) : bool :=
  match s with
  | EmptyString => false
  | String d s' => bool_decide (d = c) || str_has c s'
  end.

(** [s.startswith(p)] *)
Fixpoint starts_with (p s : string) : bool :=
  match p, s with
  | EmptyString, _ => true
  | String a p', String b s' => bool_decide (a = b) && starts_with p' s'
  | String _ _, EmptyString => false
  end.

(** [s.split(c)] for a one-character separator. *)
Fixpoint split_char (c : ascii) (s : string) : list string :=
  match s with
  | EmptyString => [EmptyString]
  | String d s' =>
      if bool_decide (d = c) then EmptyString :: split_char c s'
      else match split_char c s' with
           | [] => [String d EmptyString]
           | w :: ws => String d w :: ws
           end
  end.

Lemma split_char_none c a : str_has c a = false → split_char c a = [a].
Proof. induction a as [|d a IH]; simpl; [done|]. intros [-> ?]%orb_false_iff. by rewrite IH. Qed.

Lemma append_nil_r s : s +:+ "" = s.
Proof. induction s as [|c s IH]; simpl; congruence. Qed.

(** [s.split(c, n)]: at most [n] splits, the rest kept whole. *)
Fixpoint split_char_n (c : ascii) (n : nat) (s : string) : list string :=
  match n with
  | 0 => [s]
  | S n' =>
      (fix go (acc s : string) {struct s} : list string :=
         match s with
         | EmptyString => [acc]
         | String d s' =>
             if bool_decide (d = c) then acc :: split_char_n c n' s'
             else go (acc +:+ String d EmptyString) s'
         end) EmptyString s
  end.

Definition str_len (s : string) : Z := Z.of_nat (String.length s).

(** ** Code-point order, as [sorted] uses it *)

Fixpoint str_leb (a b : string) : bool :=
  match a, b with
  | EmptyString, _ => true
  | String _ _, EmptyString => false
  | String c a', String d b' =>
      (ord c <? ord d) || ((ord c =? ord d) && str_leb a' b')
  end.

Definition str_le (a b : string) : Prop := str_leb a b = true.

#[export] Instance str_le_dec : RelDecision str_le := λ a b, decide (str_leb a b = true).

Lemma ord_inj c d : ord c = ord d → c = d.
Proof. intros H. rewrite <- (ascii_nat_embedding c), <- (ascii_nat_embedding d). unfold ord in H. by rewrite H. Qed.

#[export] Instance str_le_refl : Reflexive str_le.
Proof.
  intros a. unfold str_le. induction a as [|c a IH]; simpl; [done|].
  rewrite Nat.eqb_refl, IH. by rewrite orb_true_r.
Qed.

#[export] Instance str_le_trans : Transitive str_le.
Proof.
  intros a b. unfold str_le. revert b.
  induction a as [|c a IH]; intros [|d b] [|e f]; simpl; try done.
  rewrite !orb_true_iff, !andb_true_iff, !Nat.ltb_lt, !Nat.eqb_eq.
  intros [?|[? ?]] [?|[? ?]]; [left; lia..|right]. split; [lia|eauto].
Qed.

#[export] Instance str_le_total : Total str_le.
Proof.
  intros a. unfold str_le. induction a as [|c a IH]; intros [|d b]; simpl; [by left..|by right|].
  rewrite !orb_true_iff, !andb_true_iff, !Nat.ltb_lt, !Nat.eqb_eq.
  destruct (Nat.lt_total (ord c) (ord d)) as [?|[?|?]]; [by left; left| |by right; left].
  destruct (IH b); [left|right]; right; split; congruence.
Qed.

#[export] Instance str_le_antisym : AntiSymm (=) str_le.
Proof.
  intros a. unfold str_le. induction a as [|c a IH]; intros [|d b]; simpl; try done.
  rewrite !orb_true_iff, !andb_true_iff, !Nat.ltb_lt, !Nat.eqb_eq.
  intros [?|[Hc ?]] [?|[? ?]]; try lia. f_equal; [by apply ord_inj|auto].
Qed.

(** [sorted(l)] for a list of strings, and [sorted(set(l))]. *)
Definition sorted (l : list string) : list string := merge_sort str_le l.
Definition sorted_set (l : list string) : list string := merge_sort str_le (remove_dups l).

Lemma elem_of_sorted x l : x ∈ sorted l ↔ x ∈ l.
Proof. unfold sorted. by rewrite merge_sort_Permutation. Qed.

Lemma elem_of_sorted_set x l : x ∈ sorted_set l ↔ x ∈ l.
Proof. unfold sorted_set. rewrite merge_sort_Permutation. apply elem_of_remove_dups. Qed.

Lemma sorted_set_NoDup l : NoDup (sorted_set l).
Proof. unfold sorted_set. rewrite merge_sort_Permutation. apply NoDup_remove_dups. Qed.

Lemma sorted_set_StronglySorted l : StronglySorted str_le (sorted_set l).
Proof. apply StronglySorted_merge_sort; apply _. Qed.

(** * Booleans and automation *)

Lemma bool_decide_refl {A} `{EqDecision A} (x : A) : bool_decide (x = x) = true.
Proof. by apply bool_decide_eq_true. Qed.

(** Turn boolean tests of the code into propositions, everywhere. *)
Ltac bool_to_prop :=
  unfold zle, zlt in *;
  repeat match goal with
  | H : context [negb _ = true] |- _ => rewrite negb_true_iff in H
  | H : context [negb _ = false] |- _ => rewrite negb_false_iff in H
  | H : (_ && _) = true |- _ => apply andb_true_iff in H as [? ?]
  | H : (_ || _) = false |- _ => apply orb_false_iff in H as [? ?]
  | H : (_ || _) = true |- _ => apply orb_true_iff in H
  | H : (_ && _) = false |- _ => apply andb_false_iff in H
  | H : bool_decide _ = true |- _ => apply bool_decide_eq_true in H
  | H : bool_decide _ = false |- _ => apply bool_decide_eq_false in H
  | H : (_ <=? _)%Z = true |- _ => apply Z.leb_le in H
  | H : (_ <=? _)%Z = false |- _ => apply Z.leb_gt in H
  | H : (_ <? _)%Z = true |- _ => apply Z.ltb_lt in H
  | H : (_ <? _)%Z = false |- _ => apply Z.ltb_ge in H
  | H : (_ =? _)%Z = true |- _ => apply Z.eqb_eq in H
  | H : (_ =? _)%Z = false |- _ => apply Z.eqb_neq in H
  end.

(** Run a stateful computation symbolically: unfold the monad, then split on
    the first test the code performs, and keep what it tells. *)
Ltac py_step :=
  match goal with
  | H : context [match ?x with _ => _ end] |- _ =>
      lazymatch x with
      | context [match _ with _ => _ end] => fail
      | _ => let E := fresh "E" in destruct x eqn:E
      end
  | |- context [match ?x with _ => _ end] =>
      lazymatch x with
      | context [match _ with _ => _ end] => fail
      | _ => let E := fresh "E" in destruct x eqn:E
      end
  end.

Ltac py_unfold :=
  unfold mbind, mret, result_bind, result_ret, result_fmap, st_bind, st_ret, ensure,
    require_some, raise, read, gets, modify, check, liftR, some_or, final, outcome in *; simpl in *.

Ltac py := py_unfold; repeat (py_step; simplify_eq/=; py_unfold).

Create HintDb olympus discriminated.

Lemma bind_Ok {E A B} (r : result E A) (k : A → result E B) b :
  (r ≫= k) = Ok b → ∃ a, r = Ok a ∧ k a = Ok b.
Proof. destruct r; simpl; naive_solver. Qed.

Lemma require_some_Ok {E A} (o : option A) (e : E) a : require_some o e = Ok a → o = Some a.
Proof. by destruct o; intros [= ->]. Qed.
Lemma ensure_Ok {E} b (e : E) u : ensure b e = Ok u → b = true.
Proof. by destruct b. Qed.

Lemma mapM_r_length {E A B} (f : A → result E B) l l' :
  mapM_r f l = Ok l' → length l' = length l.
Proof.
  revert l'. induction l as [|a l IH]; intros l'; simpl; [naive_solver|].
  intros (b & Hb & (bs & Hbs & ?)%bind_Ok)%bind_Ok. simplify_eq/=. by rewrite (IH bs).
Qed.

Lemma mapM_r_lookup {E A B} (f : A → result E B) l l' b :
  mapM_r f l = Ok l' → b ∈ l' → ∃ a, a ∈ l ∧ f a = Ok b.
Proof.
  revert l'. induction l as [|a l IH]; intros l'; simpl.
  - intros ? Hin. simplify_eq/=. by apply not_elem_of_nil in Hin.
  - intros (b' & Hb & (bs & Hbs & ?)%bind_Ok)%bind_Ok Hin. simplify_eq/=.
    apply elem_of_cons in Hin as [->|Hin]; [exists a; set_solver|].
    destruct (IH _ Hbs Hin) as (a' & ? & ?). exists a'. set_solver.
Qed.

(** * Stable sorting with a key

    [sorted(l, key=f)] and [l.sort(key=f)]: a stable insertion sort for the
    order [leb] on elements. *)

Fixpoint insert_by {A} (leb : A → A → bool) (x : A) (l : list A) : list A :=
  match l with
  | [] => [x]
  | y :: l' => if leb x y then x :: y :: l' else y :: insert_by leb x l'
  end.

Fixpoint sort_by {A} (leb : A → A → bool) (l : list A) : list A :=
  match l with
  | [] => []
  | x :: l' => insert_by leb x (sort_by leb l')
  end.

Lemma insert_by_Permutation {A} (leb : A → A → bool) x l : insert_by leb x l ≡ₚ x :: l.
Proof.
  induction l as [|y l IH]; simpl; [done|]. case_match; [done|].
  rewrite IH. apply Permutation_swap.
Qed.

Lemma sort_by_Permutation {A} (leb : A → A → bool) l : sort_by leb l ≡ₚ l.
Proof. induction l as [|x l IH]; simpl; [done|]. by rewrite insert_by_Permutation, IH. Qed.

Lemma insert_by_map {A B} (f : A → B) (la : A → A → bool) (lb : B → B → bool) x l :
  (∀ x y, lb (f x) (f y) = la x y) → insert_by lb (f x) (map f l) = map f (insert_by la x l).
Proof.
  intros Hl. induction l as [|y l IH]; simpl; [done|]. rewrite Hl. case_match; simpl; [done|].
  by rewrite IH.
Qed.

Lemma sort_by_map {A B} (f : A → B) (la : A → A → bool) (lb : B → B → bool) l :
  (∀ x y, lb (f x) (f y) = la x y) → sort_by lb (map f l) = map f (sort_by la l).
Proof.
  intros Hl. induction l as [|x l IH]; simpl; [done|]. rewrite IH. by apply insert_by_map.
Qed.

Lemma insert_by_Sorted {A} (leb : A → A → bool) x l :
  (∀ x y, leb x y = false → leb y x = true) →
  Sorted (λ x y, leb x y = true) l → Sorted (λ x y, leb x y = true) (insert_by leb x l).
Proof.
  intros Htot. induction 1 as [|y l Hs IH Hhd]; simpl; [repeat constructor|].
  destruct (leb x y) eqn:E; [repeat (constructor; auto)|].
  constructor; [done|]. destruct l as [|z l]; simpl; [constructor; auto|].
  inversion Hhd; subst. destruct (leb x z); constructor; auto.
Qed.

Lemma sort_by_Sorted {A} (leb : A → A → bool) l :
  (∀ x y, leb x y = false → leb y x = true) → Sorted (λ x y, leb x y = true) (sort_by leb l).
Proof.
  intros Htot. induction l as [|x l IH]; simpl; [constructor|]. by apply insert_by_Sorted.
Qed.

(** A sorted list stays as it is. *)
Lemma sort_by_id {A} (leb : A → A → bool) l : Sorted (λ x y, leb x y = true) l → sort_by leb l = l.
Proof.
  induction 1 as [|x l Hs IH Hhd]; simpl; [done|]. rewrite IH. destruct Hhd as [|y l Hxy]; simpl; [done|]. by rewrite Hxy.
Qed.

(** The head of a sorted list is a least element. *)
Lemma sort_by_head {A} (leb : A → A → bool) l x l' :
  (∀ x y, leb x y = false → leb y x = true) →
  (∀ x y z, leb x y = true → leb y z = true → leb x z = true) →
  sort_by leb l = x :: l' → x ∈ l ∧ ∀ y, y ∈ l → y = x ∨ leb x y = true.
Proof.
  intros Htot Htr Hs. assert (Hp := sort_by_Permutation leb l). rewrite Hs in Hp.
  split; [rewrite <- Hp; left|]. intros y. rewrite <- Hp, elem_of_cons. intros [?|Hy]; [by left|].
  right. assert (Hso := sort_by_Sorted leb l Htot). rewrite Hs in Hso.
  apply Sorted_StronglySorted in Hso; [|intros ?; eauto].
  inversion Hso as [|? ? ? Hall]; subst. rewrite Forall_forall in Hall. eauto.
Qed.
