(* ===== verification/PyDict.v ===== *)
(** Python dictionaries: insertion-ordered finite maps.

    A [dict] is the association list of its items in insertion order, because
    [values()] and [items()] iterate in that order and the code relies on it.
    [dget], [dset], [ddel] and [dupdate] are [d.get(k)], [d[k] = v],
    [del d[k]] (or [d.pop(k)]) and [d.update(e)]. [to_gmap] forgets the order and
    gives the finite map a dictionary denotes. *)

From S2P Require Import Prelude.

Definition dict (K V : Type) : Type := list (K * V).

Section Dict.
Context {K V : Type} `{EqDecision K}.
Implicit Types (k : K) (v : V) (d e : dict K V).

Fixpoint dget k d : option V :=
  match d with
  | [] => None
  | (k', v) :: d' => if decide (k' = k) then Some v else dget k d'
  end.

Fixpoint dset k v d : dict K V :=
  match d with
  | [] => [(k, v)]
  | (k', v') :: d' => if decide (k' = k) then (k', v) :: d' else (k', v') :: dset k v d'
  end.

Fixpoint ddel k d : dict K V :=
  match d with
  | [] => []
  | (k', v') :: d' => if decide (k' = k) then d' else (k', v') :: ddel k d'
  end.

Definition dkeys d : list K := d.*1.
Definition dvalues d : list V := d.*2.
Definition dmem k d : bool := match dget k d with Some _ => true | None => false end.

(** [d.update(e)] *)
Fixpoint dupdate d e : dict K V :=
  match e with
  | [] => d
  | (k, v) :: e' => dupdate (dset k v d) e'
  end.

(** [OrderedDict.move_to_end] *)
Definition move_to_end k d : dict K V :=
  match dget k d with Some v => ddel k d ++ [(k, v)] | None => d end.

(** How many entries are newer than that of [k]. *)
Fixpoint rank k d : nat :=
  match d with
  | [] => 0
  | (k', _) :: d' => if decide (k' = k) then length d' else rank k d'
  end.

(** Keys are unique. *)
Definition dict_wf d : Prop := NoDup (dkeys d).

(** Every entry satisfies [P]. *)
Definition dall (P : K → V → Prop) d : Prop := ∀ k v, dget k d = Some v → P k v.

Lemma dget_dset_eq k v d : dget k (dset k v d) = Some v.
Proof. induction d as [|[k' v'] d IH]; simpl; repeat case_decide; simpl; by repeat case_decide. Qed.

Lemma dget_dset_ne k k' v d : k ≠ k' → dget k' (dset k v d) = dget k' d.
Proof.
  intros. induction d as [|[k0 v0] d IH]; simpl; repeat case_decide; simpl; subst;
    repeat case_decide; congruence.
Qed.

Lemma dget_dset k k' v d : dget k' (dset k v d) = if decide (k = k') then Some v else dget k' d.
Proof. case_decide; subst; [apply dget_dset_eq | by apply dget_dset_ne]. Qed.

Lemma dget_None k d : dget k d = None ↔ k ∉ dkeys d.
Proof.
  induction d as [|[k' v] d IH]; simpl; [set_solver|].
  case_decide; subst; [set_solver|]. rewrite IH. set_solver.
Qed.

Lemma dget_Some_key k v d : dget k d = Some v → k ∈ dkeys d.
Proof.
  intros H. destruct (decide (k ∈ dkeys d)) as [|Hn]; [done|].
  apply dget_None in Hn. congruence.
Qed.

Lemma dget_Some_elem k v d : dget k d = Some v → (k, v) ∈ d.
Proof.
  induction d as [|[k' v'] d IH]; simpl; [done|].
  case_decide; intros; simplify_eq; [set_solver|]. right. auto.
Qed.

Lemma dget_value k v d : dget k d = Some v → v ∈ dvalues d.
Proof. intros H%dget_Some_elem. apply list_elem_of_fmap. by exists (k, v). Qed.

Lemma dget_wf_elem k v d : dict_wf d → (k, v) ∈ d → dget k d = Some v.
Proof.
  unfold dict_wf. induction d as [|[k' v'] d IH]; simpl; [set_solver|].
  rewrite NoDup_cons. intros [Hk Hd] [?|?]%elem_of_cons; simplify_eq; case_decide; try done.
  - subst. exfalso. apply Hk. apply list_elem_of_fmap. by exists (k, v).
  - auto.
Qed.

Lemma dvalues_dget v d : dict_wf d → v ∈ dvalues d → ∃ k, dget k d = Some v.
Proof.
  intros Hwf ([k v'] & -> & Hin)%list_elem_of_fmap. exists k. by apply dget_wf_elem.
Qed.

Lemma dkeys_dset k v d : dkeys (dset k v d) = if dmem k d then dkeys d else dkeys d ++ [k].
Proof.
  unfold dmem. induction d as [|[k' v'] d IH]; simpl; [done|].
  case_decide; simpl; [done|]. rewrite IH. by destruct (dget k d).
Qed.

Lemma dict_wf_nil : dict_wf [].
Proof. constructor. Qed.

Lemma dict_wf_dset k v d : dict_wf d → dict_wf (dset k v d).
Proof.
  unfold dict_wf. rewrite dkeys_dset. unfold dmem. destruct (dget k d) eqn:E; [done|].
  apply dget_None in E. intros. apply NoDup_app. set_unfold. naive_solver (apply NoDup_singleton).
Qed.

Lemma dict_wf_dupdate d e : dict_wf d → dict_wf (dupdate d e).
Proof. revert d. induction e as [|[k v] e IH]; simpl; auto using dict_wf_dset. Qed.

Lemma dkeys_ddel_subset k d : dkeys (ddel k d) ⊆ dkeys d.
Proof. induction d as [|[k' v'] d IH]; simpl; [done|]. case_decide; set_solver. Qed.

Lemma dict_wf_ddel k d : dict_wf d → dict_wf (ddel k d).
Proof.
  unfold dict_wf. induction d as [|[k' v'] d IH]; simpl; [done|].
  rewrite NoDup_cons. intros [??]. case_decide; [done|]. simpl. rewrite NoDup_cons.
  split; [|auto]. intros ?%(dkeys_ddel_subset k d). done.
Qed.

Lemma dget_ddel_ne k k' d : k ≠ k' → dget k' (ddel k d) = dget k' d.
Proof.
  intros. induction d as [|[k0 v0] d IH]; simpl; [done|].
  repeat case_decide; simpl; repeat case_decide; subst; done.
Qed.

Lemma dget_ddel_eq k d : dict_wf d → dget k (ddel k d) = None.
Proof.
  unfold dict_wf. induction d as [|[k' v'] d IH]; simpl; [done|].
  rewrite NoDup_cons. intros [??]. case_decide; simpl.
  - subst. by apply dget_None.
  - case_decide; [done|auto].
Qed.

Lemma dget_dupdate k d e : dict_wf e →
  dget k (dupdate d e) = match dget k e with Some v => Some v | None => dget k d end.
Proof.
  unfold dict_wf. revert d. induction e as [|[k' v] e IH]; intros d; simpl; [done|].
  rewrite NoDup_cons. intros [Hk He]. rewrite IH by done.
  case_decide; subst.
  - apply dget_None in Hk. by rewrite Hk, dget_dset_eq.
  - destruct (dget k e); [done|]. by apply dget_dset_ne.
Qed.

Lemma dall_dset P k v d : P k v → dall P d → dall P (dset k v d).
Proof. intros Hv Hd k' v'. rewrite dget_dset. case_decide; [naive_solver|apply Hd]. Qed.

Lemma dall_dupdate P d e : dict_wf e → dall P d → dall P e → dall P (dupdate d e).
Proof. intros Hwf Hd He k v. rewrite dget_dupdate by done. case_match; naive_solver. Qed.

Lemma dall_ddel P k d : dict_wf d → dall P d → dall P (ddel k d).
Proof.
  intros Hwf Hd k' v'. destruct (decide (k = k')) as [<-|].
  - by rewrite dget_ddel_eq.
  - rewrite dget_ddel_ne by done. apply Hd.
Qed.

Lemma length_dset k v d : dget k d ≠ None → length (dset k v d) = length d.
Proof.
  induction d as [|[k' v'] d IH]; simpl; [done|]. case_decide; simpl; [done|].
  intros. by rewrite IH.
Qed.

Lemma length_dset_le k v d : length (dset k v d) ≤ S (length d).
Proof. induction d as [|[k' v'] d IH]; simpl; [done|]. case_decide; simpl; lia. Qed.

Lemma length_ddel k d : dget k d ≠ None → S (length (ddel k d)) = length d.
Proof. induction d as [|[k' v'] d IH]; simpl; [done|]. case_decide; simpl; [done|]. intros Hk. by rewrite IH. Qed.

Lemma length_ddel_le k d : length (ddel k d) ≤ length d.
Proof. induction d as [|[k' v'] d IH]; simpl; [done|]. case_decide; simpl; lia. Qed.

(** Changing every value in place. *)
Lemma dget_map (f : V → V) k d : dget k (map (λ kv, (kv.1, f kv.2)) d) = f <$> dget k d.
Proof. induction d as [|[k' v'] d IH]; simpl; [done|]. by case_decide. Qed.

Lemma dkeys_map (f : V → V) d : dkeys (map (λ kv, (kv.1, f kv.2)) d) = dkeys d.
Proof. induction d as [|[k' v'] d IH]; simpl; [done|]. by f_equal. Qed.

Lemma dset_same k v d : dget k d = Some v → dset k v d = d.
Proof.
  induction d as [|[k' v'] d IH]; simpl; [done|]. case_decide; intros; simplify_eq; [done|].
  by rewrite IH.
Qed.

Lemma ddel_absent k d : dget k d = None → ddel k d = d.
Proof.
  induction d as [|[k' v'] d IH]; simpl; [done|]. case_decide; [done|].
  intros. by rewrite IH.
Qed.

Lemma dset_comm k k' v v' d : k ≠ k' → dget k d ≠ None →
  dset k' v' (dset k v d) = dset k v (dset k' v' d).
Proof.
  intros Hne. induction d as [|[k0 v0] d IH]; simpl; [done|].
  repeat case_decide; simpl; repeat case_decide; try congruence. intros. by rewrite IH.
Qed.

Lemma dset_dset k v v' d : dset k v' (dset k v d) = dset k v' d.
Proof.
  induction d as [|[k0 v0] d IH]; simpl; repeat case_decide; simpl; repeat case_decide; congruence.
Qed.

Lemma dset_dupdate k v d e : dget k d ≠ None → dget k e = None →
  dupdate (dset k v d) e = dset k v (dupdate d e).
Proof.
  revert d. induction e as [|[k' v'] e IH]; intros d Hd; simpl; [done|].
  case_decide; [done|]. intros He. rewrite dset_comm by done. apply IH; [|done].
  rewrite dget_dset. by case_decide.
Qed.

(** Writing a present key changes its value in place. *)
Lemma dset_middle k v v0 d e : k ∉ dkeys d → dset k v (d ++ (k, v0) :: e) = d ++ (k, v) :: e.
Proof.
  induction d as [|[k' v'] d IH]; simpl; intros Hk; [by rewrite decide_True|].
  rewrite decide_False by set_solver. by rewrite IH by set_solver.
Qed.

(** Buffering a write and merging is merging and writing. *)
Lemma dupdate_dset k v d e : dict_wf e → dupdate d (dset k v e) = dset k v (dupdate d e).
Proof.
  unfold dict_wf. revert d. induction e as [|[k' v'] e IH]; intros d; simpl; [done|].
  rewrite NoDup_cons. intros [Hk He]. case_decide; simpl; [subst|by rewrite IH].
  rewrite <- dset_dupdate; [by rewrite dset_dset| |by apply dget_None].
  by rewrite dget_dset_eq.
Qed.

(** ** Order of use *)

Lemma dset_fresh k v d : k ∉ dkeys d → dset k v d = d ++ [(k, v)].
Proof.
  unfold dkeys. induction d as [|[k' v'] d IH]; simpl; [done|]. intros [Hne Hd]%not_elem_of_cons.
  case_decide; [congruence|]. by rewrite IH.
Qed.

Lemma dvalues_dset k v d x : x ∈ dvalues (dset k v d) → x = v ∨ x ∈ dvalues d.
Proof. unfold dvalues. induction d as [|[k' v'] d IH]; simpl; [set_solver|]. case_decide; simpl; set_solver. Qed.
Lemma dvalues_ddel k d x : x ∈ dvalues (ddel k d) → x ∈ dvalues d.
Proof. unfold dvalues. induction d as [|[k' v'] d IH]; simpl; [set_solver|]. case_decide; simpl; set_solver. Qed.

(** Values that differ in a feature still do after one with a new feature is set. *)
Lemma nodup_dset {W} (g : V → W) k v d :
  NoDup (g <$> dvalues d) → g v ∉ g <$> dvalues d → NoDup (g <$> dvalues (dset k v d)).
Proof.
  unfold dvalues. induction d as [|[k' v'] d IH]; simpl; [intros; by apply NoDup_singleton|].
  intros [Hn Hd]%NoDup_cons [Hv Hvd]%not_elem_of_cons. case_decide; simpl; apply NoDup_cons; [done|]. split; [|by apply IH].
  intros (x & Hx & [->|Hin]%dvalues_dset)%list_elem_of_fmap; [congruence|].
  apply Hn, list_elem_of_fmap. eauto.
Qed.
Lemma nodup_ddel {W} (g : V → W) k d : NoDup (g <$> dvalues d) → NoDup (g <$> dvalues (ddel k d)).
Proof.
  unfold dvalues. induction d as [|[k' v'] d IH]; simpl; [done|]. intros [Hn Hd]%NoDup_cons. case_decide; simpl; [done|].
  apply NoDup_cons. split; [|by apply IH]. intros (x & Hx & Hin%dvalues_ddel)%list_elem_of_fmap.
  apply Hn, list_elem_of_fmap. eauto.
Qed.

Lemma dget_app_ne k d e : dget k d = None → dget k (d ++ e) = dget k e.
Proof. induction d as [|[k' v] d IH]; simpl; [done|]. by case_decide. Qed.

Lemma dget_app_Some k d e v : dget k d = Some v → dget k (d ++ e) = Some v.
Proof. induction d as [|[k' v'] d IH]; simpl; [done|]. by case_decide. Qed.

Lemma ddel_dset k v d : ddel k (dset k v d) = ddel k d.
Proof.
  induction d as [|[k' v'] d IH]; simpl; [by rewrite decide_True|].
  case_decide; simpl; [by rewrite decide_True|]. rewrite decide_False by done. by rewrite IH.
Qed.

Lemma move_to_end_dset k v d : move_to_end k (dset k v d) = ddel k d ++ [(k, v)].
Proof. unfold move_to_end. by rewrite dget_dset_eq, ddel_dset. Qed.

Lemma dict_wf_snoc k v d : dict_wf d → dget k d = None → dict_wf (d ++ [(k, v)]).
Proof.
  intros Hw Hk%dget_None. unfold dict_wf, dkeys in *. rewrite fmap_app. apply NoDup_app. split_and!; [done| |].
  - by intros k' Hk' ->%list_elem_of_singleton.
  - apply NoDup_singleton.
Qed.

Lemma dict_wf_renew k v d : dict_wf d → dict_wf (ddel k d ++ [(k, v)]).
Proof. intros. apply dict_wf_snoc; [by apply dict_wf_ddel|by apply dget_ddel_eq]. Qed.

Lemma dget_renew k v d k' : dict_wf d → dget k' (ddel k d ++ [(k, v)]) = if decide (k = k') then Some v else dget k' d.
Proof.
  intros Hw. case_decide as Hk; subst.
  - rewrite dget_app_ne by by apply dget_ddel_eq. simpl. by rewrite decide_True.
  - destruct (dget k' d) as [i|] eqn:E.
    + apply dget_app_Some. by rewrite dget_ddel_ne.
    + rewrite dget_app_ne by by rewrite dget_ddel_ne. simpl. by rewrite decide_False.
Qed.

Lemma dict_wf_move_to_end k d : dict_wf d → dict_wf (move_to_end k d).
Proof. intros. unfold move_to_end. destruct (dget k d); [by apply dict_wf_renew|done]. Qed.

Lemma dget_move_to_end k d k' : dict_wf d → dget k' (move_to_end k d) = dget k' d.
Proof.
  intros. unfold move_to_end. destruct (dget k d) eqn:E; [|done]. rewrite dget_renew by done. case_decide; congruence.
Qed.

Lemma rank_lt k d v : dget k d = Some v → rank k d < length d.
Proof. induction d as [|[k' v'] d IH]; simpl; [done|]. case_decide; [lia|]. intros Hlt%IH. lia. Qed.

Lemma rank_ddel k k' d : k ≠ k' → rank k (ddel k' d) ≤ rank k d.
Proof.
  intros Hne. induction d as [|[a v] d IH]; simpl; [done|]. destruct (decide (a = k')) as [->|].
  - rewrite decide_False by congruence. done.
  - simpl. case_decide; [apply length_ddel_le|done].
Qed.

Lemma rank_snoc k k' v d : dget k d ≠ None → rank k (d ++ [(k', v)]) = S (rank k d).
Proof.
  induction d as [|[a w] d IH]; simpl; [done|]. case_decide; [|done]. rewrite length_app. simpl. lia.
Qed.

(** Using another entry moves [k] back by at most one place. *)
Lemma rank_renew k k' v d : k ≠ k' → dget k d ≠ None → rank k (ddel k' d ++ [(k', v)]) ≤ S (rank k d).
Proof. intros Hne Hk. rewrite rank_snoc by by rewrite dget_ddel_ne. assert (Hr := rank_ddel k k' d Hne). lia. Qed.

Lemma rank_renew_eq k v d : dict_wf d → rank k (ddel k d ++ [(k, v)]) = 0.
Proof.
  intros Hw. assert (Hn := dget_ddel_eq k d Hw). induction (ddel k d) as [|[a w] e IH]; simpl in *; [by rewrite decide_True|].
  case_decide; [done|]. by apply IH.
Qed.

(** ** The finite map a dictionary denotes *)

Context `{!Countable K}.

Fixpoint to_gmap d : gmap K V :=
  match d with
  | [] => ∅
  | (k, v) :: d' => <[k := v]> (to_gmap d')
  end.

Lemma lookup_to_gmap k d : to_gmap d !! k = dget k d.
Proof.
  induction d as [|[k' v] d IH]; simpl; [apply lookup_empty|].
  case_decide; subst; [apply lookup_insert_eq|]. by rewrite lookup_insert_ne.
Qed.

Lemma to_gmap_dset k v d : to_gmap (dset k v d) = <[k := v]> (to_gmap d).
Proof.
  apply map_eq. intros k'. rewrite lookup_insert, !lookup_to_gmap, dget_dset. done.
Qed.

Lemma to_gmap_ddel k d : dict_wf d → to_gmap (ddel k d) = delete k (to_gmap d).
Proof.
  intros. apply map_eq. intros k'. rewrite lookup_delete, !lookup_to_gmap.
  case_decide; subst; [by apply dget_ddel_eq|by apply dget_ddel_ne].
Qed.

Lemma to_gmap_dupdate d e : dict_wf e → to_gmap (dupdate d e) = to_gmap e ∪ to_gmap d.
Proof.
  intros. apply map_eq. intros k. rewrite lookup_union, !lookup_to_gmap, dget_dupdate by done.
  by destruct (dget k e), (dget k d).
Qed.
End Dict.

#[export] Hint Resolve dict_wf_nil dict_wf_dset dict_wf_ddel dict_wf_dupdate : olympus.
#[export] Hint Resolve dall_dset : olympus.

(** ** A dictionary seen through a function on its values *)

Section Map.
Context {K V W : Type} `{EqDecision K} (f : V → W).
Implicit Types (k : K) (v : V) (d : dict K V).

Definition dmap d : dict K W := map (λ kv, (kv.1, f kv.2)) d.

Lemma dget_dmap k d : dget k (dmap d) = f <$> dget k d.
Proof. induction d as [|[k' v'] d IH]; simpl; [done|]. by case_decide. Qed.

Lemma dmem_dmap k d : dmem k (dmap d) = dmem k d.
Proof. unfold dmem. rewrite dget_dmap. by destruct (dget k d). Qed.

Lemma dmap_dset k v d : dmap (dset k v d) = dset k (f v) (dmap d).
Proof. induction d as [|[k' v'] d IH]; simpl; [done|]. case_decide; simpl; [done|]. by rewrite IH. Qed.

Lemma dvalues_dmap d : dvalues (dmap d) = map f (dvalues d).
Proof. induction d as [|[k' v'] d IH]; [done|]. cbn. f_equal. exact IH. Qed.

Lemma dkeys_dmap d : dkeys (dmap d) = dkeys d.
Proof. induction d as [|[k' v'] d IH]; [done|]. cbn. f_equal. exact IH. Qed.
End Map.

Lemma dvalues_fresh {K V} `{EqDecision K} (k : K) (v : V) d : dget k d = None → dvalues (dset k v d) = dvalues d ++ [v].
Proof. intros H%dget_None. unfold dvalues. rewrite dset_fresh by done. by rewrite fmap_app. Qed.

(** The order of a dictionary decides nothing but its order. *)
Lemma dget_perm {V} (d e : dict string V) k : d ≡ₚ e → dict_wf d → dget k d = dget k e.
Proof.
  intros Hp Hd. assert (He : dict_wf e) by (unfold dict_wf, dkeys in *; by rewrite <- Hp).
  destruct (dget k d) as [v|] eqn:Hk.
  - symmetry. apply dget_wf_elem; [done|]. rewrite <- Hp. by apply dget_Some_elem.
  - symmetry. apply dget_None. apply dget_None in Hk. unfold dkeys in *. by rewrite <- Hp.
Qed.

(** [set(d) == {...}] for string keys *)
Definition keys_are {V} (ks : list string) (d : dict string V) : bool := bool_decide (sorted_set (dkeys d) = sorted_set ks).

Lemma keys_are_spec {V} ks (d : dict string V) : keys_are ks d = true ↔ ∀ k, k ∈ dkeys d ↔ k ∈ ks.
Proof.
  unfold keys_are. rewrite bool_decide_eq_true. split.
  - intros H k. by rewrite <- elem_of_sorted_set, H, elem_of_sorted_set.
  - intros H. unfold sorted_set. apply (StronglySorted_unique str_le);
      [apply StronglySorted_merge_sort; apply _..|].
    rewrite !merge_sort_Permutation. apply NoDup_Permutation; [apply NoDup_remove_dups..|].
    intros k. by rewrite !elem_of_remove_dups.
Qed.
