(* ===== verification/PyTime.v ===== *)
(** Timezone-aware UTC timestamps.

    A [datetime] is its instant in microseconds since 1970-01-01T00:00:00Z, a
    [timedelta] a number of microseconds. Naive datetimes are not values of the
    model, so the [_require_aware] guards of the code hold by construction.
    [isoformat] is [datetime.isoformat()] for the UTC offset. *)

From S2P Require Import Prelude.
From Stdlib Require Import Ascii.

Open Scope Z_scope.

Definition datetime : Type := Z.

(** [timedelta(seconds=s)], [timedelta(minutes=m)], [timedelta(hours=h)], [timedelta(days=d)] *)
Definition seconds (s : Z) : Z := s * 1000000.
Definition minutes (m : Z) : Z := seconds (60 * m).
Definition hours (h : Z) : Z := seconds (3600 * h).
Definition days (d : Z) : Z := hours (24 * d).

(** [int(t.timestamp())] for an instant at or after the epoch. *)
Definition timestamp (t : datetime) : Z := t / 1000000.

(** [n] decimal digits of [x], most significant first. *)
Fixpoint digits (n : nat) (x : Z) : string :=
  match n with
  | O => EmptyString
  | S n' => digits n' (x / 10) +:+ String (ascii_of_nat (Z.to_nat (48 + x mod 10))) EmptyString
  end.

(** Proleptic Gregorian calendar: days since the epoch to (year, month, day). *)
Definition civil_from_days (z0 : Z) : Z * Z * Z :=
  let z := z0 + 719468 in
  let era := z / 146097 in
  let doe := z mod 146097 in
  let yoe := (doe - doe / 1460 + doe / 36524 - doe / 146096) / 365 in
  let doy := doe - (365 * yoe + yoe / 4 - yoe / 100) in
  let mp := (5 * doy + 2) / 153 in
  let d := doy - (153 * mp + 2) / 5 + 1 in
  let m := if mp <? 10 then mp + 3 else mp - 9 in
  let y := yoe + era * 400 + (if m <=? 2 then 1 else 0) in
  (y, m, d).

Definition isoformat (t : datetime) : string :=
  let us := t mod 1000000 in
  let secs := t / 1000000 in
  let sod := secs mod 86400 in
  let '(y, m, d) := civil_from_days (secs / 86400) in
  digits 4 y +:+ "-" +:+ digits 2 m +:+ "-" +:+ digits 2 d +:+ "T" +:+
  digits 2 (sod / 3600) +:+ ":" +:+ digits 2 (sod / 60 mod 60) +:+ ":" +:+ digits 2 (sod mod 60) +:+
  (if us =? 0 then EmptyString else "." +:+ digits 6 us) +:+ "+00:00".

Example isoformat_epoch : isoformat 0 = "1970-01-01T00:00:00+00:00".
Proof. reflexivity. Qed.

Example isoformat_leap : isoformat (seconds 1709209830 + 45) = "2024-02-29T12:30:30.000045+00:00".
Proof. reflexivity. Qed.

#[global] Opaque isoformat.
