(* ===== verification/Sha256.v ===== *)
(** SHA-256 ([hashlib.sha256]) on byte strings, and UTF-8.

    Bytes are the characters of a [string]. The compression function works on
    32-bit words kept as [Z] in [0, 2^32), with the wrap-around written out
    ([add32]). [hexdigest] is the lowercase hexadecimal digest; no property of
    the function beyond its output length is assumed anywhere: theorems that
    rest on collision resistance name the hashed messages that would collide. *)

From S2P Require Import Prelude.
From Stdlib Require Import Ascii.

Open Scope Z_scope.

Definition mask32 (x : Z) : Z := Z.land x 4294967295.
Definition add32 (x y : Z) : Z := mask32 (x + y).
Definition rotr (n x : Z) : Z := mask32 (Z.lor (Z.shiftr x n) (Z.shiftl x (32 - n))).

(** The constants are those of the standard, from its own definition: the first
    32 bits of the fractional parts of the cube roots (round constants) and of the
    square roots (initial state) of the first primes. *)
Definition primes_upto (n : nat) : list Z :=
  List.filter (λ p, forallb (λ d, negb (p mod d =? 0)) (map Z.of_nat (seq 2 (Z.to_nat p - 2))))
    (map Z.of_nat (seq 2 (n - 1))).

(** The integer [k]-th root of [x], bit by bit from [2^(bits - 1)] down. *)
Fixpoint int_root (bits : nat) (k x acc : Z) : Z :=
  match bits with
  | O => acc
  | S b => let next := acc + 2 ^ Z.of_nat b in int_root b k x (if next ^ k <=? x then next else acc)
  end.
Definition root_fraction (k p : Z) : Z := mask32 (int_root 36 k (p * 2 ^ (32 * k)) 0).

Definition sha_k : list Z := Eval vm_compute in map (root_fraction 3) (primes_upto 311).

Record sha_state : Type := mkSha {
  sh_a : Z; sh_b : Z; sh_c : Z; sh_d : Z; sh_e : Z; sh_f : Z; sh_g : Z; sh_h : Z }.

Definition sha_init : sha_state := Eval vm_compute in
  let h i := root_fraction 2 (nth i (primes_upto 19) 0) in
  mkSha (h 0%nat) (h 1%nat) (h 2%nat) (h 3%nat) (h 4%nat) (h 5%nat) (h 6%nat) (h 7%nat).

(** The message schedule, newest word first. *)
Fixpoint schedule (n : nat) (ws : list Z) : list Z :=
  match n with
  | O => ws
  | S n' =>
      let w i := nth i ws 0 in
      let s0 := Z.lxor (rotr 7 (w 14%nat)) (Z.lxor (rotr 18 (w 14%nat)) (Z.shiftr (w 14%nat) 3)) in
      let s1 := Z.lxor (rotr 17 (w 1%nat)) (Z.lxor (rotr 19 (w 1%nat)) (Z.shiftr (w 1%nat) 10)) in
      schedule n' (mask32 (w 15%nat + s0 + w 6%nat + s1) :: ws)
  end.

Definition sha_round (st : sha_state) (kw : Z * Z) : sha_state :=
  let '(mkSha a b c d e f g h) := st in
  let s1 := Z.lxor (rotr 6 e) (Z.lxor (rotr 11 e) (rotr 25 e)) in
  let ch := Z.lxor (Z.land e f) (Z.land (Z.lxor e 4294967295) g) in
  let t1 := mask32 (h + s1 + ch + kw.1 + kw.2) in
  let s0 := Z.lxor (rotr 2 a) (Z.lxor (rotr 13 a) (rotr 22 a)) in
  let maj := Z.lxor (Z.land a b) (Z.lxor (Z.land a c) (Z.land b c)) in
  mkSha (add32 t1 (s0 + maj)) a b c (add32 d t1) e f g.

Definition sha_block (st : sha_state) (ws : list Z) : sha_state :=
  let w := rev (schedule 48 (rev ws)) in
  let r := foldl sha_round st (zip sha_k w) in
  mkSha (add32 (sh_a st) (sh_a r)) (add32 (sh_b st) (sh_b r)) (add32 (sh_c st) (sh_c r))
        (add32 (sh_d st) (sh_d r)) (add32 (sh_e st) (sh_e r)) (add32 (sh_f st) (sh_f r))
        (add32 (sh_g st) (sh_g r)) (add32 (sh_h st) (sh_h r)).

Definition byte_of (c : ascii) : Z := Z.of_nat (ord c).

Fixpoint bytes_of (s : string) : list Z :=
  match s with
  | EmptyString => []
  | String c s' => byte_of c :: bytes_of s'
  end.

(** [n] big-endian bytes of [x]. *)
Fixpoint be_bytes (n : nat) (x : Z) : list Z :=
  match n with
  | O => []
  | S n' => Z.land (Z.shiftr x (8 * Z.of_nat n')) 255 :: be_bytes n' x
  end.

Definition sha_pad (m : list Z) : list Z :=
  let len := length m in
  m ++ 128 :: replicate (Z.to_nat ((55 - Z.of_nat len) mod 64)) 0 ++ be_bytes 8 (8 * Z.of_nat len).

Fixpoint words_of (bs : list Z) : list Z :=
  match bs with
  | a :: b :: c :: d :: bs' =>
      (Z.shiftl a 24 + Z.shiftl b 16 + Z.shiftl c 8 + d) :: words_of bs'
  | _ => []
  end.

(** Run the compression over consecutive blocks of sixteen words; the fuel is
    the number of words, more than the number of blocks. *)
Fixpoint sha_blocks (fuel : nat) (st : sha_state) (ws : list Z) : sha_state :=
  match fuel, ws with
  | S fuel', _ :: _ => sha_blocks fuel' (sha_block st (take 16 ws)) (drop 16 ws)
  | _, _ => st
  end.

Definition sha_state_of (m : string) : sha_state :=
  let ws := words_of (sha_pad (bytes_of m)) in sha_blocks (length ws) sha_init ws.

Definition hex_digit (n : Z) : ascii :=
  ascii_of_nat (Z.to_nat (if n <? 10 then 48 + n else 87 + n)).

Fixpoint hex_of (n : nat) (x : Z) : string :=
  match n with
  | O => EmptyString
  | S n' => String (hex_digit (Z.land (Z.shiftr x (4 * Z.of_nat n')) 15)) (hex_of n' x)
  end.

(** [hashlib.sha256(m).hexdigest()] *)
Definition sha256_hex (m : string) : string :=
  let '(mkSha a b c d e f g h) := sha_state_of m in
  hex_of 8 a +:+ hex_of 8 b +:+ hex_of 8 c +:+ hex_of 8 d +:+
  hex_of 8 e +:+ hex_of 8 f +:+ hex_of 8 g +:+ hex_of 8 h.

Fixpoint be_string (n : nat) (x : Z) : string :=
  match n with
  | O => EmptyString
  | S n' => String (ascii_of_nat (Z.to_nat (Z.land (Z.shiftr x (8 * Z.of_nat n')) 255))) (be_string n' x)
  end.

(** [hashlib.sha256(m).digest()] *)
Definition sha256 (m : string) : string :=
  let '(mkSha a b c d e f g h) := sha_state_of m in
  be_string 4 a +:+ be_string 4 b +:+ be_string 4 c +:+ be_string 4 d +:+
  be_string 4 e +:+ be_string 4 f +:+ be_string 4 g +:+ be_string 4 h.

(** [bytes.hex()] *)
Fixpoint hex (s : string) : string :=
  match s with
  | EmptyString => EmptyString
  | String c s' => String (hex_digit (byte_of c / 16)) (String (hex_digit (byte_of c mod 16)) (hex s'))
  end.

(** [s.encode("utf-8")] for code points below 256. *)
Definition utf8_char (c : ascii) : string :=
  let n := ord c in
  if (n <? 128)%nat then String c EmptyString
  else String (ascii_of_nat (192 + n / 64)%nat) (String (ascii_of_nat (128 + n mod 64)%nat) EmptyString).

Fixpoint utf8 (s : string) : string :=
  match s with
  | EmptyString => EmptyString
  | String c s' => utf8_char c +:+ utf8 s'
  end.

(** Two different messages of [ms] share a digest. The list is always the
    messages the code hashed, so the statement is about those messages. *)
Definition sha_collides (ms : list string) : Prop :=
  ∃ x y, x ∈ ms ∧ y ∈ ms ∧ x ≠ y ∧ sha256_hex x = sha256_hex y.

Lemma length_append (a b : string) : String.length (a +:+ b) = (String.length a + String.length b)%nat.
Proof. induction a; simpl; congruence. Qed.

Lemma length_hex_of n x : String.length (hex_of n x) = n.
Proof. induction n; simpl; congruence. Qed.

Lemma length_be_string n x : String.length (be_string n x) = n.
Proof. induction n; simpl; congruence. Qed.

Lemma sha256_hex_length m : String.length (sha256_hex m) = 64%nat.
Proof.
  unfold sha256_hex. destruct (sha_state_of m). by rewrite !length_append, !length_hex_of.
Qed.

Lemma sha256_length m : String.length (sha256 m) = 32%nat.
Proof.
  unfold sha256. destruct (sha_state_of m). by rewrite !length_append, !length_be_string.
Qed.

(** Equal digests mean equal messages, or a collision between the two. *)
Lemma sha256_hex_inj x y : sha256_hex x = sha256_hex y → x = y ∨ sha_collides [x; y].
Proof. intros. destruct (decide (x = y)); [by left|right]. exists x, y. set_solver. Qed.

Lemma sha_collides_mono ms ms' : ms ⊆ ms' → sha_collides ms → sha_collides ms'.
Proof. intros Hsub (x & y & ? & ? & ? & ?). exists x, y. set_solver. Qed.

(** UTF-8 of a character followed by anything decodes back. *)
Definition utf8_next (s : string) : option (ascii * string) :=
  match s with
  | EmptyString => None
  | String c s' =>
      if (ord c <? 128)%nat then Some (c, s')
      else match s' with
           | String d r => Some (ascii_of_nat (64 * (ord c - 192) + (ord d - 128)), r)
           | EmptyString => None
           end
  end.

Lemma utf8_next_char c r : utf8_next (utf8_char c +:+ r) = Some (c, r).
Proof. destruct c as [[] [] [] [] [] [] [] []]; reflexivity. Qed.

Lemma utf8_append a b : utf8 (a +:+ b) = utf8 a +:+ utf8 b.
Proof.
  assert (Ha : ∀ x y z : string, x +:+ (y +:+ z) = (x +:+ y) +:+ z) by (intros x y z; induction x; simpl; congruence).
  induction a as [|c a IH]; [done|]. cbn [String.append utf8]. by rewrite IH, Ha.
Qed.

Lemma utf8_inj s t : utf8 s = utf8 t → s = t.
Proof.
  revert t. induction s as [|c s IH]; intros [|d t]; simpl; intros H; try done;
    apply (f_equal utf8_next) in H; rewrite ?utf8_next_char in H; simplify_eq/=; try done.
  f_equal. auto.
Qed.

(** Published test vectors. *)
Example sha256_abc :
  sha256_hex "abc" = "ba7816bf8f01cfea414140de5dae2223b00361a396177a9cb410ff61f20015ad".
Proof. vm_compute. reflexivity. Qed.

Example sha256_empty :
  sha256_hex "" = "e3b0c44298fc1c149afbf4c8996fb92427ae41e4649b934ca495991b7852b855".
Proof. vm_compute. reflexivity. Qed.

Example sha256_two_blocks :
  sha256_hex "abcdbcdecdefdefgefghfghighijhijkijkljklmklmnlmnomnopnopq"
  = "248d6a61d20638b8e5c026930c3e6039a33ce45964ff2167f6ecedd419db06c1".
Proof. vm_compute. reflexivity. Qed.

(** The hexadecimal digest spells the digest. *)
Lemma hex_append a b : hex (a +:+ b) = hex a +:+ hex b.
Proof. induction a as [|c a IH]; [done|]. cbn [hex String.append]. by rewrite IH. Qed.

Lemma byte_of_ascii n : 0 ≤ n < 256 → byte_of (ascii_of_nat (Z.to_nat n)) = n.
Proof. intros H. unfold byte_of, ord. rewrite nat_ascii_embedding by lia. lia. Qed.

Lemma land_255 x : 0 ≤ Z.land x 255 < 256.
Proof. change 255 with (Z.ones 8). rewrite Z.land_ones by lia. apply Z.mod_pos_bound. lia. Qed.

Lemma hex_be_string n x : hex (be_string n x) = hex_of (2 * n) x.
Proof.
  induction n as [|n IH]; [done|]. replace (2 * S n)%nat with (S (S (2 * n))) by lia. cbn [hex be_string hex_of].
  rewrite byte_of_ascii by apply land_255. rewrite IH. f_equal; [|f_equal]; f_equal.
  - change 255 with (Z.ones 8). change 15 with (Z.ones 4). change 16 with (2 ^ 4). rewrite <- Z.shiftr_div_pow2 by lia.
    apply Z.bits_inj'. intros k Hk. rewrite Z.shiftr_spec, !Z.land_spec, !Z.shiftr_spec, !Z.testbit_ones_nonneg by lia.
    replace (k + 4 + 8 * Z.of_nat n) with (k + 4 * Z.of_nat (S (2 * n))) by lia. f_equal. destruct (Z.ltb_spec (k + 4) 8), (Z.ltb_spec k 4); lia.
  - change 255 with (Z.ones 8). change 15 with (Z.ones 4). change 16 with (2 ^ 4). rewrite <- Z.land_ones by lia.
    apply Z.bits_inj'. intros k Hk. rewrite !Z.land_spec, !Z.shiftr_spec, !Z.testbit_ones_nonneg by lia.
    replace (k + 8 * Z.of_nat n) with (k + 4 * Z.of_nat (2 * n)) by lia. destruct (Z.ltb_spec k 8), (Z.ltb_spec k 4); try lia; by rewrite ?andb_true_r, ?andb_false_r.
Qed.

Lemma hex_sha256 m : hex (sha256 m) = sha256_hex m.
Proof. unfold sha256, sha256_hex. destruct (sha_state_of m). by rewrite !hex_append, !hex_be_string. Qed.

#[global] Opaque sha256_hex sha256.
#[global] Arguments utf8 : simpl never.
