(* ===== verification/Json.v ===== *)
(** JSON values and the canonical encoding every digest is taken over.

    [dumps] is [json.dumps(v, sort_keys=True, separators=(",", ":"))] on values
    built from dictionaries, lists, strings, integers, booleans and [None]: keys
    are sorted by code point at every level and non-ASCII characters are escaped
    ([ensure_ascii]). Two values have the same encoding exactly when they are
    equal up to the order of their keys, so a digest names one value. *)

From S2P Require Import Prelude.
From Stdlib Require Import Ascii.
From stdpp Require Import pretty.

Inductive json : Type :=
  | JNull
  | JBool (b : bool)
  | JInt (z : Z)
  | JStr (s : string)
  | JList (l : list json)
  | JObj (o : list (string * json)).

(** The induction principle that reaches the values inside lists and objects. *)
Fixpoint json_ind' (P : json → Prop)
    (Hnull : P JNull) (Hbool : ∀ b, P (JBool b)) (Hint : ∀ z, P (JInt z))
    (Hstr : ∀ s, P (JStr s)) (Hlist : ∀ l, Forall P l → P (JList l))
    (Hobj : ∀ o, Forall (λ kv, P kv.2) o → P (JObj o)) (j : json) {struct j} : P j :=
  let rec := json_ind' P Hnull Hbool Hint Hstr Hlist Hobj in
  match j with
  | JNull => Hnull
  | JBool b => Hbool b
  | JInt z => Hint z
  | JStr s => Hstr s
  | JList l => Hlist l ((fix go l := match l return Forall P l with
                         | [] => Forall_nil_2 _
                         | x :: l' => Forall_cons_2 _ _ _ (rec x) (go l')
                         end) l)
  | JObj o => Hobj o ((fix go o := match o return Forall (λ kv, P kv.2) o with
                       | [] => Forall_nil_2 _
                       | x :: o' => Forall_cons_2 _ _ _ (rec x.2) (go o')
                       end) o)
  end.

#[export] Instance json_eq_dec : EqDecision json.
Proof.
  refine (fix go (x y : json) {struct x} : Decision (x = y) :=
    match x, y with
    | JNull, JNull => left _
    | JBool a, JBool b => cast_if (decide (a = b))
    | JInt a, JInt b => cast_if (decide (a = b))
    | JStr a, JStr b => cast_if (decide (a = b))
    | JList a, JList b => cast_if (@decide (a = b) (@list_eq_dec _ go a b))
    | JObj a, JObj b => cast_if (@decide (a = b) (@list_eq_dec _ (λ p q, _) a b))
    | _, _ => right _
    end); try congruence.
  destruct p as [k v], q as [k' v'].
  destruct (decide (k = k')); [|right; congruence].
  destruct (go v v'); [left|right]; congruence.
Defined.

(** ** Encoding *)

(** The [ensure_ascii] argument of [json.dumps]: [True] unless a call says otherwise. *)
Class EnsureAscii := ensure_ascii : bool.
#[export] Instance ensure_ascii_default : EnsureAscii | 100 := true.

Definition dq : ascii := ascii_of_nat 34.
Definition bs : ascii := ascii_of_nat 92.
Definition one (c : ascii) : string := String c EmptyString.

Definition hex_char (n : nat) : ascii :=
  ascii_of_nat (if n <? 10 then 48 + n else 87 + n).

Section Encoding.
Context {EA : EnsureAscii}.

(** The escape of one character inside a JSON string. *)
Definition escape (c : ascii) : string :=
  let n := ord c in
  if n =? 34 then String bs (one dq)
  else if n =? 92 then String bs (one bs)
  else if n =? 10 then String bs "n"
  else if n =? 13 then String bs "r"
  else if n =? 9 then String bs "t"
  else if n =? 8 then String bs "b"
  else if n =? 12 then String bs "f"
  else if (n <? 32) || (ensure_ascii && (126 <? n))
       then String bs ("u00" +:+ String (hex_char (n / 16)) (one (hex_char (n mod 16))))
  else one c.

Fixpoint escape_all (s : string) : string :=
  match s with
  | EmptyString => EmptyString
  | String c s' => escape c +:+ escape_all s'
  end.

Definition quote (s : string) : string := String dq (escape_all s +:+ one dq).

Fixpoint joins (sep : string) (l : list string) : string :=
  match l with
  | [] => EmptyString
  | [x] => x
  | x :: l' => x +:+ sep +:+ joins sep l'
  end.

(** Order of the items of an object: by key. *)
Definition key_leb {A} (x y : string * A) : bool := str_leb x.1 y.1.
Definition sort_keys {A} (o : list (string * A)) : list (string * A) := sort_by key_leb o.

Definition item (kv : string * string) : string := quote kv.1 +:+ ":" +:+ kv.2.

Fixpoint dumps (j : json) : string :=
  match j with
  | JNull => "null"
  | JBool b => if b then "true" else "false"
  | JInt z => pretty z
  | JStr s => quote s
  | JList l => "[" +:+ joins "," (map dumps l) +:+ "]"
  | JObj o => "{" +:+ joins "," (map item (sort_keys (map (λ kv, (kv.1, dumps kv.2)) o))) +:+ "}"
  end.

(** The same value with its keys in canonical order. *)
Fixpoint jnorm (j : json) : json :=
  match j with
  | JList l => JList (map jnorm l)
  | JObj o => JObj (sort_keys (map (λ kv, (kv.1, jnorm kv.2)) o))
  | _ => j
  end.

(** Encoding without sorting: what is left of [dumps] on a canonical value. *)
Fixpoint print (j : json) : string :=
  match j with
  | JNull => "null"
  | JBool b => if b then "true" else "false"
  | JInt z => pretty z
  | JStr s => quote s
  | JList l => "[" +:+ joins "," (map print l) +:+ "]"
  | JObj o => "{" +:+ joins "," (map (λ kv, item (kv.1, print kv.2)) o) +:+ "}"
  end.

End Encoding.

#[global] Arguments quote : simpl never.
#[global] Arguments item : simpl never.

Section EncodingFacts.
Context {EA : EnsureAscii}.

(** ** [dumps] prints the canonical value *)

Lemma sort_keys_map {A B} (f : A → B) (o : list (string * A)) :
  sort_keys (map (λ kv, (kv.1, f kv.2)) o) = map (λ kv, (kv.1, f kv.2)) (sort_keys o).
Proof. by apply sort_by_map. Qed.

Lemma dumps_jnorm j : dumps j = print (jnorm j).
Proof.
  induction j as [| | | |l IH|o IH] using json_ind'; simpl; try done.
  - do 3 f_equal. rewrite map_map. apply map_ext_Forall. done.
  - do 3 f_equal. rewrite !sort_keys_map, !map_map.
    assert (Forall (λ kv, dumps kv.2 = print (jnorm kv.2)) (sort_keys o)) as H
      by (unfold sort_keys; by rewrite sort_by_Permutation).
    apply map_ext_Forall. eapply Forall_impl; [exact H|]. by intros ? ->.
Qed.

(** ** Unique decodability *)

Lemma append_assoc (a b c : string) : (a +:+ b) +:+ c = a +:+ (b +:+ c).
Proof. induction a; simpl; congruence. Qed.

(** Read one escaped character back. *)
Definition hex_val (c : ascii) : nat := let n := ord c in if n <? 58 then n - 48 else n - 87.

Definition unescape (s : string) : option (ascii * string) :=
  match s with
  | String c s' =>
      if ord c =? 92 then
        match s' with
        | String d r =>
            let n := ord d in
            if n =? 34 then Some (dq, r) else if n =? 92 then Some (bs, r)
            else if n =? 110 then Some (ascii_of_nat 10, r)
            else if n =? 114 then Some (ascii_of_nat 13, r)
            else if n =? 116 then Some (ascii_of_nat 9, r)
            else if n =? 98 then Some (ascii_of_nat 8, r)
            else if n =? 102 then Some (ascii_of_nat 12, r)
            else match r with
                 | String _ (String _ (String h (String l r'))) =>
                     Some (ascii_of_nat (16 * hex_val h + hex_val l), r')
                 | _ => None
                 end
        | EmptyString => None
        end
      else Some (c, s')
  | EmptyString => None
  end.

Lemma unescape_escape c r : unescape (escape c +:+ r) = Some (c, r).
Proof. destruct EA, c as [[] [] [] [] [] [] [] []]; reflexivity. Qed.

Lemma escape_not_dq c r : ∃ d r', escape c +:+ r = String d r' ∧ d ≠ dq.
Proof. destruct EA, c as [[] [] [] [] [] [] [] []]; do 2 eexists; (split; [reflexivity|done]). Qed.

Lemma escape_all_inj s t r1 r2 :
  escape_all s +:+ String dq r1 = escape_all t +:+ String dq r2 → s = t ∧ r1 = r2.
Proof.
  revert t. induction s as [|c s IH]; intros [|d t]; simpl; rewrite ?append_assoc.
  - naive_solver.
  - destruct (escape_not_dq d (escape_all t +:+ String dq r2)) as (? & ? & -> & ?). naive_solver.
  - destruct (escape_not_dq c (escape_all s +:+ String dq r1)) as (? & ? & -> & ?). naive_solver.
  - intros H. apply (f_equal unescape) in H. rewrite !unescape_escape in H.
    simplify_eq. naive_solver.
Qed.

Lemma quote_inj s t r1 r2 : quote s +:+ r1 = quote t +:+ r2 → s = t ∧ r1 = r2.
Proof.
  unfold quote. simpl. rewrite !append_assoc. simpl. intros H. simplify_eq.
  by apply escape_all_inj.
Qed.

(** Characters of a printed integer. *)
Definition int_char (c : ascii) : bool := let n := ord c in (n =? 45) || ((48 <=? n) && (n <=? 57)).

Fixpoint all_chars (P : ascii → bool) (s : string) : bool :=
  match s with
  | EmptyString => true
  | String c s' => P c && all_chars P s'
  end.

Lemma pretty_N_char_int x : int_char (pretty_N_char x) = true.
Proof. destruct x as [|p]; [done|]. do 4 (try (destruct p as [p|p|]; try reflexivity)). Qed.

Lemma pretty_N_go_int x s : all_chars int_char s = true → all_chars int_char (pretty_N_go x s) = true.
Proof.
  revert s. induction (N.lt_wf_0 x) as [x _ IH]; intros s Hs.
  destruct (decide (0 < x)%N).
  - rewrite pretty_N_go_step by done. apply IH; [by apply N.div_lt|].
    simpl. by rewrite pretty_N_char_int.
  - assert (x = 0%N) as -> by lia. by rewrite pretty_N_go_0.
Qed.

Lemma pretty_Z_int (z : Z) : all_chars int_char (pretty z) = true.
Proof.
  assert (∀ n : N, all_chars int_char (pretty n) = true) as HN.
  { intros n. unfold pretty, pretty_N. case_decide; [done|]. by apply pretty_N_go_int. }
  destruct z; simpl; [done|apply HN|]. unfold pretty, pretty_Z. simpl. apply HN.
Qed.

(** What may follow a value: nothing, or a character no integer contains. *)
Definition delim (r : string) : Prop :=
  match r with EmptyString => True | String c _ => int_char c = false end.

Lemma all_chars_app_inj P u v r1 r2 :
  all_chars P u = true → all_chars P v = true →
  match r1 with EmptyString => True | String c _ => P c = false end →
  match r2 with EmptyString => True | String c _ => P c = false end →
  u +:+ r1 = v +:+ r2 → u = v ∧ r1 = r2.
Proof.
  revert v. induction u as [|c u IH]; intros [|d v]; simpl; intros Hu Hv H1 H2 Heq; subst; try done.
  - bool_to_prop. congruence.
  - bool_to_prop. congruence.
  - bool_to_prop. simplify_eq. destruct (IH v) as [-> ->]; done.
Qed.

(** ** The encoding is injective up to key order *)

Lemma pretty_N_go_nonempty x c s : pretty_N_go x (String c s) ≠ "".
Proof.
  revert c s. induction (N.lt_wf_0 x) as [x _ IH]; intros c s.
  destruct (decide (0 < x)%N).
  - rewrite pretty_N_go_step by done. apply IH. by apply N.div_lt.
  - assert (x = 0%N) as -> by lia. by rewrite pretty_N_go_0.
Qed.

Lemma pretty_Z_nonempty (z : Z) : pretty z ≠ "".
Proof.
  assert (∀ p, pretty (N.pos p) ≠ "") as HN.
  { intros p. unfold pretty, pretty_N. case_decide; [done|].
    rewrite pretty_N_go_step by lia. apply pretty_N_go_nonempty. }
  destruct z; simpl; [done|apply HN|done].
Qed.

(** The first character of an encoding tells the shape of the value. *)
Definition head_ok (j : json) (c : ascii) : Prop :=
  match j with
  | JNull => ord c = 110
  | JBool b => ord c = if b then 116 else 102
  | JInt _ => int_char c = true
  | JStr _ => ord c = 34
  | JList _ => ord c = 91
  | JObj _ => ord c = 123
  end.

Lemma print_head j : ∃ c r, print j = String c r ∧ head_ok j c.
Proof.
  destruct j as [|[]|z|s|l|o]; simpl; try (do 2 eexists; split; [reflexivity|done]).
  assert (Hz := pretty_Z_int z). destruct (pretty z) as [|c r] eqn:E.
  - by apply pretty_Z_nonempty in E.
  - exists c, r. simpl in Hz. bool_to_prop. done.
Qed.

Lemma print_not_close j r c r' :
  print j +:+ r = String c r' → ord c ≠ 93 ∧ ord c ≠ 125 ∧ ord c ≠ 44.
Proof.
  destruct (print_head j) as (d & t & -> & Hd). simpl. intros. simplify_eq.
  destruct j as [|[]| | | |]; simpl in Hd; try lia.
  unfold int_char in Hd. destruct (ord c); simpl in Hd; [done|].
  repeat split; intros ?; simplify_eq; done.
Qed.

(** Elements between separators decode one by one. *)
Lemma join_inj {A} (e : A → string) (z : ascii) l l' r1 r2 :
  ord z ≠ 44 → int_char z = false →
  (∀ x r c r', e x +:+ r = String c r' → c ≠ z ∧ ord c ≠ 44) →
  Forall (λ x, ∀ y r1 r2, delim r1 → delim r2 → e x +:+ r1 = e y +:+ r2 → x = y ∧ r1 = r2) l →
  joins "," (map e l) +:+ String z r1 = joins "," (map e l') +:+ String z r2 → l = l' ∧ r1 = r2.
Proof.
  intros Hz Hdz Hne Hl. revert l'. induction Hl as [|x l Hx Hl IH]; intros l' Heq.
  - destruct l' as [|y [|y' l']]; simpl in Heq; [naive_solver| |];
      rewrite ?append_assoc in Heq; symmetry in Heq; by apply Hne in Heq as [? _].
  - destruct l' as [|y l'].
    + destruct l as [|x' l]; simpl in Heq; rewrite ?append_assoc in Heq;
        by apply Hne in Heq as [? _].
    + destruct l as [|x' l], l' as [|y' l']; simpl in Heq; rewrite ?append_assoc in Heq;
        apply Hx in Heq as [-> Heq]; try done; simpl in Heq; simplify_eq; try done.
      destruct (IH (y' :: l')) as [? ?]; [done|]. naive_solver.
Qed.

Lemma item_inj k v k' v' r1 r2 :
  (v +:+ r1 = v' +:+ r2 → v = v' ∧ r1 = r2) →
  item (k, v) +:+ r1 = item (k', v') +:+ r2 → k = k' ∧ v = v' ∧ r1 = r2.
Proof.
  unfold item. cbn [fst snd]. rewrite !append_assoc. intros Hv (-> & H)%quote_inj. simpl in H.
  simplify_eq. naive_solver.
Qed.

Definition shape (j : json) : nat :=
  match j with
  | JNull => 0 | JBool true => 1 | JBool false => 2 | JInt _ => 3
  | JStr _ => 4 | JList _ => 5 | JObj _ => 6
  end.

Lemma head_ok_shape j j' c : head_ok j c → head_ok j' c → shape j = shape j'.
Proof.
  intros Hj Hj'. destruct j as [|[]| | | |], j' as [|[]| | | |]; simpl in *;
    unfold int_char in *; try done; try congruence;
    repeat match goal with H : ord c = _ |- _ => rewrite H in *; clear H end; done.
Qed.

Lemma print_same_shape j j' r1 r2 : print j +:+ r1 = print j' +:+ r2 → shape j = shape j'.
Proof.
  destruct (print_head j) as (c & t & -> & Hc), (print_head j') as (c' & t' & -> & Hc').
  simpl. intros. simplify_eq. by eapply head_ok_shape.
Qed.

Lemma print_inj_app j j' r1 r2 :
  delim r1 → delim r2 → print j +:+ r1 = print j' +:+ r2 → j = j' ∧ r1 = r2.
Proof.
  revert j' r1 r2. induction j as [|b|z|s|l IH|o IH] using json_ind'; intros j' r1 r2 H1 H2 Heq;
    assert (Hs := print_same_shape _ _ _ _ Heq);
    try (destruct b); destruct j' as [|[]|z'|s'|l'|o']; simpl in Hs; try done; simpl in Heq.
  - by simplify_eq.
  - by simplify_eq.
  - by simplify_eq.
  - apply (all_chars_app_inj int_char) in Heq as [Hz ->]; auto using pretty_Z_int.
    by apply (inj pretty) in Hz as ->.
  - by apply quote_inj in Heq as [-> ->].
  - simplify_eq. rewrite !append_assoc in Heq.
    apply (join_inj print "]") in Heq as [-> ->]; try done.
    intros x r c r' (? & ? & ?)%print_not_close. split; [|done]. by intros ->.
  - simplify_eq. rewrite !append_assoc in Heq.
    apply (join_inj (λ kv, item (kv.1, print kv.2)) "}") in Heq as [-> ->]; try done.
    + intros x r c r' H. unfold item, quote in H. simpl in H. by simplify_eq.
    + eapply Forall_impl; [exact IH|]. intros [k v] Hv [k' v'] u1 u2 Hd1 Hd2 H. cbn [fst snd] in *.
      assert (print v +:+ u1 = print v' +:+ u2 → v = v' ∧ u1 = u2) as Hv' by auto.
      apply item_inj in H; [|naive_solver]. destruct H as (-> & Hp & ->).
      rewrite Hp in Hv'. naive_solver.
Qed.

(** Equal encodings come from equal values, up to key order. *)
Lemma dumps_inj_norm a b : dumps a = dumps b → jnorm a = jnorm b.
Proof.
  rewrite !dumps_jnorm. intros H.
  assert (H' : print (jnorm a) +:+ "" = print (jnorm b) +:+ "") by by rewrite H.
  by apply print_inj_app in H' as [? _].
Qed.

End EncodingFacts.

(** A canonical value is its own canonical form. *)
Lemma sort_keys_idem {A} (o : list (string * A)) : sort_keys (sort_keys o) = sort_keys o.
Proof.
  apply sort_by_id, sort_by_Sorted. intros x y Hxy. unfold key_leb in *.
  destruct (str_le_total x.1 y.1) as [H|H]; unfold str_le in H; congruence.
Qed.

Lemma jnorm_idem j : jnorm (jnorm j) = jnorm j.
Proof.
  induction j as [| | | |l IH|o IH] using json_ind'; simpl; try done; f_equal.
  - rewrite map_map. apply map_ext_Forall. done.
  - rewrite !sort_keys_map, sort_keys_idem. rewrite map_map. apply map_ext_Forall.
    unfold sort_keys. rewrite sort_by_Permutation. eapply Forall_impl; [exact IH|]. cbn. by intros x ->.
Qed.

Lemma dumps_norm {EA : EnsureAscii} j : dumps (jnorm j) = dumps j.
Proof. by rewrite !dumps_jnorm, jnorm_idem. Qed.

Lemma jnorm_strs l : map jnorm (map JStr l) = map JStr l.
Proof. rewrite map_map. by apply map_ext. Qed.

Lemma map_inj_eq {A B} (f : A → B) l l' : (∀ a b, f a = f b → a = b) → map f l = map f l' → l = l'.
Proof.
  intros Hf. revert l'. induction l as [|a l IH]; intros [|b l']; simpl; try done. intros [= Ha%Hf Hl%IH]. by subst.
Qed.

Lemma jnorm_strs_inj l l' : map jnorm (map JStr l) = map jnorm (map JStr l') → l = l'.
Proof. rewrite !jnorm_strs. apply map_inj_eq. by intros a b [=]. Qed.


(** ** Building dictionaries *)

(** A dict comprehension: a repeated key keeps its first position and takes
    the last value. *)
Fixpoint obj_set (k : string) (v : json) (o : list (string * json)) : list (string * json) :=
  match o with
  | [] => [(k, v)]
  | (k', v') :: o' => if decide (k' = k) then (k', v) :: o' else (k', v') :: obj_set k v o'
  end.
Definition obj_of (l : list (string * json)) : list (string * json) :=
  foldl (λ o kv, obj_set kv.1 kv.2 o) [] l.

#[global] Arguments dumps : simpl never.
