(* ===== verification/JsonParse.v ===== *)
(** [json.loads] on texts without fractions or exponents, and its round trip
    with [dumps].

    Strings accept the escapes of JSON with code points below 256; a number with
    a fraction or an exponent is outside the model and parses to nothing. *)

From S2P Require Import Prelude Json.
From Stdlib Require Import Ascii.
From stdpp Require Import pretty.

Definition is_ws (c : ascii) : bool := let n := ord c in (n =? 32) || (n =? 9) || (n =? 10) || (n =? 13).

Fixpoint skip_ws (s : string) : string :=
  match s with
  | String c s' => if is_ws c then skip_ws s' else s
  | EmptyString => EmptyString
  end.

Definition hex_of_char (c : ascii) : option nat :=
  let n := ord c in
  if (48 <=? n) && (n <=? 57) then Some (n - 48)
  else if (97 <=? n) && (n <=? 102) then Some (n - 87)
  else if (65 <=? n) && (n <=? 70) then Some (n - 55)
  else None.

(** The body of a string literal, up to the closing quote. *)
Fixpoint parse_str (s : string) : option (string * string) :=
  match s with
  | EmptyString => None
  | String c s' =>
      let n := ord c in
      if n =? 34 then Some (EmptyString, s')
      else if n <? 32 then None
      else if negb (n =? 92) then p ← parse_str s'; Some (String c p.1, p.2)
      else match s' with
           | String d r =>
               let m := ord d in
               let simple (k : nat) := p ← parse_str r; Some (String (ascii_of_nat k) p.1, p.2) in
               if m =? 34 then simple 34 else if m =? 92 then simple 92
               else if m =? 47 then simple 47
               else if m =? 110 then simple 10 else if m =? 114 then simple 13
               else if m =? 116 then simple 9 else if m =? 98 then simple 8
               else if m =? 102 then simple 12
               else if m =? 117 then
                 match r with
                 | String "0" (String "0" (String h (String l r'))) =>
                     hi ← hex_of_char h; lo ← hex_of_char l;
                     p ← parse_str r'; Some (String (ascii_of_nat (16 * hi + lo)) p.1, p.2)
                 | _ => None
                 end
               else None
           | EmptyString => None
           end
  end.

Definition digit_char (c : ascii) : bool := (48 <=? ord c) && (ord c <=? 57).
#[global] Arguments digit_char : simpl never.

(** The longest run of digits. *)
Fixpoint take_digits (s : string) : string * string :=
  match s with
  | String c s' =>
      if digit_char c then let p := take_digits s' in (String c p.1, p.2)
      else (EmptyString, s)
  | EmptyString => (EmptyString, EmptyString)
  end.

Fixpoint digits_val (acc : N) (s : string) : N :=
  match s with
  | EmptyString => acc
  | String c s' => digits_val (10 * acc + N.of_nat (ord c - 48)) s'
  end.

(** Digits without a leading zero, not followed by a fraction or an exponent. *)
Definition float_tail (r : string) : bool :=
  match r with
  | String c _ => (ord c =? 46) || (ord c =? 101) || (ord c =? 69)
  | EmptyString => false
  end.
#[global] Arguments float_tail : simpl never.

Definition parse_nat (s : string) : option (N * string) :=
  let p := take_digits s in
  if float_tail p.2 then None else
  match p.1 with
  | EmptyString => None
  | String c r => if (ord c =? 48) && negb (is_empty r) then None else Some (digits_val 0 p.1, p.2)
  end.

Definition parse_num (s : string) : option (json * string) :=
  match s with
  | String "-" s' => p ← parse_nat s'; Some (JInt (- Z.of_N p.1), p.2)
  | _ => p ← parse_nat s; Some (JInt (Z.of_N p.1), p.2)
  end.

Fixpoint strip_prefix (p s : string) : option string :=
  match p, s with
  | EmptyString, _ => Some s
  | String a p', String b s' => if bool_decide (a = b) then strip_prefix p' s' else None
  | _, EmptyString => None
  end.

Definition first_char (s : string) : nat := match s with String c _ => ord c | EmptyString => 0 end.
Definition rest_str (s : string) : string := match s with String _ r => r | EmptyString => EmptyString end.

(** The fuel bounds the nesting and the number of elements. *)
Fixpoint parse_value (fuel : nat) (s0 : string) {struct fuel} : option (json * string) :=
  match fuel with
  | O => None
  | S f =>
      let s := skip_ws s0 in
      let c := first_char s in
      let r := rest_str s in
      if c =? 34 then p ← parse_str r; Some (JStr p.1, p.2)
      else if c =? 91 then
        if first_char (skip_ws r) =? 93 then Some (JList [], rest_str (skip_ws r))
        else p ← parse_elems f r; Some (JList p.1, p.2)
      else if c =? 123 then
        if first_char (skip_ws r) =? 125 then Some (JObj [], rest_str (skip_ws r))
        else p ← parse_members f r; Some (JObj (obj_of p.1), p.2)
      else if c =? 110 then r' ← strip_prefix "null" s; Some (JNull, r')
      else if c =? 116 then r' ← strip_prefix "true" s; Some (JBool true, r')
      else if c =? 102 then r' ← strip_prefix "false" s; Some (JBool false, r')
      else parse_num s
  end
with parse_elems (fuel : nat) (s : string) {struct fuel} : option (list json * string) :=
  match fuel with
  | O => None
  | S f =>
      p ← parse_value f s;
      let r := skip_ws p.2 in
      if first_char r =? 44 then q ← parse_elems f (rest_str r); Some (p.1 :: q.1, q.2)
      else if first_char r =? 93 then Some ([p.1], rest_str r)
      else None
  end
with parse_members (fuel : nat) (s0 : string) {struct fuel} : option (list (string * json) * string) :=
  match fuel with
  | O => None
  | S f =>
      let s := skip_ws s0 in
      if negb (first_char s =? 34) then None else
      k ← parse_str (rest_str s);
      let r := skip_ws k.2 in
      if negb (first_char r =? 58) then None else
      p ← parse_value f (rest_str r);
      let r := skip_ws p.2 in
      if first_char r =? 44 then q ← parse_members f (rest_str r); Some ((k.1, p.1) :: q.1, q.2)
      else if first_char r =? 125 then Some ([(k.1, p.1)], rest_str r)
      else None
  end.

Definition loads (s : string) : option json :=
  p ← parse_value (S (2 * String.length s)) s;
  if is_empty (skip_ws p.2) then Some p.1 else None.

(** ** Well-formed values: dictionaries have distinct keys *)

Fixpoint json_wf (j : json) : Prop :=
  match j with
  | JList l => foldr (λ x P, json_wf x ∧ P) True l
  | JObj o => NoDup o.*1 ∧ foldr (λ kv P, json_wf kv.2 ∧ P) True o
  | _ => True
  end.

Fixpoint jsize (j : json) : nat :=
  match j with
  | JList l => S (foldr (λ x n, S (jsize x + n)) 0 l)
  | JObj o => S (foldr (λ kv n, S (jsize kv.2 + n)) 0 o)
  | _ => 1
  end.

(** ** Round trip *)

Section RoundTrip.
Context {EA : EnsureAscii}.

Lemma parse_str_escape c r p :
  parse_str r = Some p → parse_str (escape c +:+ r) = Some (String c p.1, p.2).
Proof.
  intros H. assert (parse_str (escape c +:+ r) = q ← parse_str r; Some (String c q.1, q.2)) as ->
    by (destruct EA, c as [[] [] [] [] [] [] [] []]; reflexivity).
  by rewrite H.
Qed.

Lemma parse_str_all s r : parse_str (escape_all s +:+ String dq r) = Some (s, r).
Proof.
  induction s as [|c s IH]; simpl; [done|]. rewrite append_assoc. by rewrite (parse_str_escape _ _ _ IH).
Qed.

Lemma obj_set_fresh k v o : k ∉ o.*1 → obj_set k v o = o ++ [(k, v)].
Proof.
  induction o as [|[k' v'] o IH]; simpl; [done|]. intros Hk.
  case_decide; [set_solver|]. rewrite IH; [done|set_solver].
Qed.

Lemma obj_of_NoDup o : NoDup o.*1 → obj_of o = o.
Proof.
  unfold obj_of. cut (∀ o acc : list (string * json), NoDup (acc ++ o).*1 →
    foldl (λ o kv, obj_set kv.1 kv.2 o) acc o = acc ++ o).
  { intros H. by apply (H o []). }
  clear o. intros o. induction o as [|[k v] o IH]; intros acc Hnd; simpl; [by rewrite app_nil_r|].
  rewrite fmap_app, NoDup_app in Hnd. simpl in Hnd. destruct Hnd as (? & Hd & Hno).
  rewrite obj_set_fresh; [|intros ?; eapply Hd; [done|]; set_solver].
  rewrite IH; rewrite <- app_assoc; [done|]. simpl. rewrite fmap_app, NoDup_app. simpl. done.
Qed.

(** Printed integers. *)
Lemma pretty_N_char_val x : (x < 10)%N → N.of_nat (ord (pretty_N_char x) - 48) = x.
Proof.
  intros. assert (x = 0 ∨ x = 1 ∨ x = 2 ∨ x = 3 ∨ x = 4 ∨ x = 5 ∨ x = 6 ∨ x = 7 ∨ x = 8 ∨ x = 9)%N
    as Hx by lia. by repeat destruct Hx as [-> | Hx]; subst.
Qed.

Lemma digits_val_go x s : digits_val 0 (pretty_N_go x s) = digits_val x s.
Proof.
  revert s. induction (N.lt_wf_0 x) as [x _ IH]; intros s. destruct (decide (0 < x)%N).
  - rewrite pretty_N_go_step by done. rewrite IH by by apply N.div_lt. simpl.
    rewrite pretty_N_char_val by by apply N.mod_lt.
    assert ((10 * (x / 10) + x mod 10)%N = x) as H by (symmetry; apply N.div_mod').
    by rewrite H.
  - assert (x = 0%N) as -> by lia. by rewrite pretty_N_go_0.
Qed.

Lemma pretty_N_char_digit x : digit_char (pretty_N_char x) = true.
Proof. destruct x as [|p]; [done|]. do 4 (try (destruct p as [p|p|]; try reflexivity)). Qed.

Lemma pretty_N_go_digit x s : all_chars digit_char s = true → all_chars digit_char (pretty_N_go x s) = true.
Proof.
  revert s. induction (N.lt_wf_0 x) as [x _ IH]; intros s Hs. destruct (decide (0 < x)%N).
  - rewrite pretty_N_go_step by done. apply IH; [by apply N.div_lt|].
    simpl. by rewrite pretty_N_char_digit.
  - assert (x = 0%N) as -> by lia. by rewrite pretty_N_go_0.
Qed.

Lemma pretty_N_go_head x s : (0 < x)%N → first_char (pretty_N_go x s) ≠ 48.
Proof.
  revert s. induction (N.lt_wf_0 x) as [x _ IH]; intros s Hx.
  rewrite pretty_N_go_step by done. destruct (decide (0 < x / 10)%N).
  - apply IH; [by apply N.div_lt|done].
  - assert (E : (x / 10 = 0)%N) by (apply N.le_0_r, N.nlt_ge; done).
    rewrite E, pretty_N_go_0. apply N.div_small_iff in E; [|done].
    rewrite N.mod_small by done.
    assert (x = 1 ∨ x = 2 ∨ x = 3 ∨ x = 4 ∨ x = 5 ∨ x = 6 ∨ x = 7 ∨ x = 8 ∨ x = 9)%N as Hc by lia.
    by repeat destruct Hc as [-> | Hc]; subst.
Qed.

Lemma take_digits_app u r :
  all_chars digit_char u = true →
  match r with EmptyString => True | String c _ => digit_char c = false end →
  take_digits (u +:+ r) = (u, r).
Proof.
  induction u as [|c u IH]; simpl; intros Hu Hr.
  - destruct r as [|c r]; [done|]. simpl. by rewrite Hr.
  - apply andb_true_iff in Hu as [Hc Hu]. rewrite Hc. by rewrite IH.
Qed.

(** What may follow a value: the punctuation of a document, or the end of a line. *)
Definition closing (r : string) : Prop :=
  match r with
  | EmptyString => True
  | String c _ => ord c = 44 ∨ ord c = 93 ∨ ord c = 125 ∨ ord c = 10
  end.

Lemma closing_digit r : closing r →
  match r with EmptyString => True | String c _ => digit_char c = false end.
Proof. destruct r as [|c r]; [done|]. unfold closing, digit_char. by intros [->|[->|[->| ->]]]. Qed.

Lemma closing_float r : closing r → float_tail r = false.
Proof.
  destruct r as [|c r]; [done|]. unfold closing, float_tail. by intros [->|[->|[->| ->]]].
Qed.

Lemma pretty_N_digits (n : N) : all_chars digit_char (pretty n) = true.
Proof. unfold pretty, pretty_N. case_decide; [done|]. by apply pretty_N_go_digit. Qed.

Lemma pretty_N_nonempty (n : N) : pretty n ≠ "".
Proof. destruct n as [|p]; [done|]. apply (pretty_Z_nonempty (Z.pos p)). Qed.

Lemma pretty_N_val (n : N) : digits_val 0 (pretty n) = n.
Proof. unfold pretty, pretty_N. case_decide; [by subst|]. apply digits_val_go. Qed.

(** No leading zero, except in [0] itself. *)
Lemma pretty_N_lead (n : N) c t : pretty n = String c t → (ord c =? 48) && negb (is_empty t) = false.
Proof.
  intros E. apply andb_false_iff. unfold pretty, pretty_N in E. case_decide.
  - simplify_eq. by right.
  - left. apply Nat.eqb_neq. intros Hc. eapply (pretty_N_go_head n ""); [lia|]. by rewrite E.
Qed.

Lemma parse_nat_pretty (n : N) r : closing r → parse_nat (pretty n +:+ r) = Some (n, r).
Proof.
  intros Hr. unfold parse_nat.
  rewrite (take_digits_app _ _ (pretty_N_digits n) (closing_digit _ Hr)). cbn [fst snd].
  rewrite closing_float by done. assert (Hval := pretty_N_val n). assert (Hne := pretty_N_nonempty n).
  destruct (pretty n) as [|c t] eqn:E; [done|]. by rewrite (pretty_N_lead _ _ _ E), Hval.
Qed.

Lemma parse_num_pretty (z : Z) r : closing r → parse_num (pretty z +:+ r) = Some (JInt z, r).
Proof.
  intros Hr. assert (HN : ∀ n : N, parse_num (pretty n +:+ r) = Some (JInt (Z.of_N n), r)).
  { intros n. assert (Hp := parse_nat_pretty n r Hr). assert (Hd := pretty_N_digits n).
    assert (Hne := pretty_N_nonempty n). unfold parse_num.
    destruct (pretty n) as [|c t]; [done|]. cbn [String.append all_chars] in *.
    rewrite Hp. apply andb_true_iff in Hd as [Hc _].
    destruct c as [[] [] [] [] [] [] [] []]; try reflexivity. done. }
  destruct z as [|p|p]; [apply (HN 0%N)|apply (HN (N.pos p))|].
  unfold parse_num. change (pretty (Z.neg p)) with ("-" +:+ pretty (N.pos p)). cbn [String.append].
  by rewrite parse_nat_pretty.
Qed.

(** A printed value never starts with a blank, and its first character tells
    which branch the parser takes. *)
Lemma skip_ws_print j r : skip_ws (print j +:+ r) = print j +:+ r.
Proof.
  destruct (print_head j) as (c & t & -> & Hc). simpl.
  assert (is_ws c = false) as ->; [|done].
  unfold is_ws. destruct j as [|[]| | | |]; simpl in Hc; try (by rewrite Hc).
  unfold int_char in Hc. destruct c as [[] [] [] [] [] [] [] []]; try done.
Qed.

Lemma skip_ws_closing r : match r with EmptyString => True | String c _ => ord c = 44 ∨ ord c = 93 ∨ ord c = 125 end → skip_ws r = r.
Proof.
  destruct r as [|c r]; [done|]. simpl. unfold is_ws. by intros [->|[->| ->]].
Qed.

Lemma print_first j r : first_char (print j +:+ r) ≠ 93 ∧ first_char (print j +:+ r) ≠ 125.
Proof.
  destruct (print j +:+ r) as [|c t] eqn:E; [done|].
  apply print_not_close in E as (? & ? & ?). done.
Qed.

(** [j] is read back whatever follows it. *)
Definition reads_back (j : json) : Prop := ∀ fuel r,
  json_wf j → jsize j ≤ fuel → closing r → parse_value fuel (print j +:+ r) = Some (j, r).

Lemma parse_elems_print l fuel r :
  l ≠ [] → Forall reads_back l → json_wf (JList l) → jsize (JList l) ≤ S fuel →
  parse_elems fuel (joins "," (map print l) +:+ String "]" r) = Some (l, r).
Proof.
  intros Hne Hl. revert fuel. induction Hl as [|j l Hj Hl IH]; intros fuel Hwf Hsz; [done|].
  cbn [json_wf jsize foldr] in Hwf, Hsz. destruct Hwf as [Hwj Hwl].
  destruct fuel as [|fuel]; [lia|]. cbn [parse_elems].
  destruct l as [|j' l]; cbn [map joins].
  - rewrite Hj by (done || (cbn; lia) || (right; by left)). done.
  - rewrite !append_assoc. rewrite Hj by (done || (cbn in *; lia) || by left).
    cbn [mbind option_bind fst snd]. change ("," +:+ ?x) with (String "," x).
    rewrite skip_ws_closing by by left. cbn [first_char rest_str].
    change (ord "," =? 44) with true. cbv iota.
    cbn [map joins] in IH. rewrite IH; [done|done|done|]. cbn [jsize foldr] in *. lia.
Qed.

Lemma parse_members_print o fuel r :
  o ≠ [] → Forall (λ kv, reads_back kv.2) o → foldr (λ kv P, json_wf kv.2 ∧ P) True o →
  jsize (JObj o) ≤ S fuel →
  parse_members fuel (joins "," (map (λ kv, item (kv.1, print kv.2)) o) +:+ String "}" r) = Some (o, r).
Proof.
  intros Hne Ho. revert fuel. induction Ho as [|[k j] o Hj Ho IH]; intros fuel Hwf Hsz; [done|].
  cbn [foldr snd] in Hwf. cbn [jsize foldr snd] in Hsz. destruct Hwf as [Hwj Hwo].
  destruct fuel as [|fuel]; [lia|]. cbn [parse_members map joins].
  assert (Hitem : ∀ t, skip_ws (item (k, print j) +:+ t) = item (k, print j) +:+ t) by done.
  assert (Hkey : ∀ t, item (k, print j) +:+ t
            = String dq (escape_all k +:+ String dq (String ":" (print j +:+ t)))).
  { intros t. unfold item, quote. cbn [fst snd String.append]. rewrite !append_assoc. done. }
  destruct o as [|kv o]; cbn [map joins fst snd].
  - rewrite Hitem, Hkey. cbn [first_char rest_str]. change (ord dq =? 34) with true. cbn [negb].
    rewrite parse_str_all. cbn [mbind option_bind fst snd skip_ws]. change (is_ws ":") with false.
    cbv iota. cbn [first_char rest_str]. change (ord ":" =? 58) with true. cbn [negb].
    rewrite Hj by (done || (cbn in *; lia) || (right; right; by left)). done.
  - rewrite !append_assoc.
    rewrite Hitem, Hkey. cbn [first_char rest_str]. change (ord dq =? 34) with true. cbn [negb].
    rewrite parse_str_all. cbn [mbind option_bind fst snd skip_ws]. change (is_ws ":") with false.
    cbv iota. cbn [first_char rest_str]. change (ord ":" =? 58) with true. cbn [negb].
    rewrite Hj by (done || (cbn in *; lia) || by left).
    cbn [mbind option_bind fst snd].
    rewrite skip_ws_closing by by left. cbn [String.append first_char rest_str].
    change (ord "," =? 44) with true. cbv iota.
    cbn [map joins] in IH. rewrite IH; [done|done|done|]. cbn [jsize foldr] in *. lia.
Qed.

Lemma parse_value_print j : reads_back j.
Proof.
  induction j as [|b|z|s|l IH|o IH] using json_ind';
    intros [|fuel] r Hwf Hsz Hr; try (simpl in Hsz; lia).
  - done.
  - by destruct b.
  - cbn [parse_value]. rewrite skip_ws_print.
    assert (Hn := parse_num_pretty z r Hr).
    destruct (print_head (JInt z)) as (c & t & Hp & Hc). cbn [print] in *. rewrite Hp in *.
    cbn [String.append first_char head_ok] in *. unfold int_char in Hc.
    destruct c as [[] [] [] [] [] [] [] []]; try done; apply Hn.
  - cbn [parse_value]. rewrite skip_ws_print. cbn [print]. unfold quote. cbn [String.append first_char rest_str].
    rewrite append_assoc. change (Json.one dq +:+ r) with (String dq r). by rewrite parse_str_all.
  - cbn [parse_value]. rewrite skip_ws_print. cbn [print String.append first_char rest_str].
    change (ord "[" =? 34) with false. change (ord "[" =? 91) with true. cbv iota.
    rewrite append_assoc. destruct l as [|j l]; [done|].
    assert (Hf : skip_ws (joins "," (map print (j :: l)) +:+ "]" +:+ r)
                 = joins "," (map print (j :: l)) +:+ "]" +:+ r
              ∧ first_char (joins "," (map print (j :: l)) +:+ "]" +:+ r) ≠ 93).
    { destruct l; cbn [map joins]; rewrite ?append_assoc; split; try apply skip_ws_print; apply print_first. }
    destruct Hf as [-> Hf]. apply Nat.eqb_neq in Hf. rewrite Hf.
    change ("]" +:+ r) with (String "]" r). rewrite parse_elems_print by (done || lia). done.
  - cbn [parse_value]. rewrite skip_ws_print. cbn [print String.append first_char rest_str].
    change (ord "{" =? 34) with false. change (ord "{" =? 91) with false.
    change (ord "{" =? 123) with true. cbv iota.
    rewrite append_assoc. destruct o as [|[k j] o]; [done|].
    assert (Hf : skip_ws (joins "," (map (λ kv, item (kv.1, print kv.2)) ((k, j) :: o)) +:+ "}" +:+ r)
                 = joins "," (map (λ kv, item (kv.1, print kv.2)) ((k, j) :: o)) +:+ "}" +:+ r
              ∧ first_char (joins "," (map (λ kv, item (kv.1, print kv.2)) ((k, j) :: o)) +:+ "}" +:+ r) ≠ 125)
      by by destruct o.
    destruct Hf as [-> Hf]. apply Nat.eqb_neq in Hf. rewrite Hf. cbn [json_wf] in Hwf.
    change ("}" +:+ r) with (String "}" r).
    rewrite parse_members_print by (done || lia || apply Hwf). cbn [mbind option_bind fst snd].
    by rewrite obj_of_NoDup by apply Hwf.
Qed.

(** ** Reading back a canonical document *)

Lemma foldr_mono {A} (f g : A → nat) l :
  Forall (λ x, f x ≤ g x) l →
  foldr (λ x n, S (f x + n)) 0 l ≤ foldr (λ x n, S (g x + n)) 0 l.
Proof. induction 1; simpl; lia. Qed.

Lemma length_app_str (a b : string) : String.length (a +:+ b) = String.length a + String.length b.
Proof. induction a; simpl; congruence. Qed.

Lemma length_join l :
  foldr (λ x n, S (String.length x + n)) 0 l ≤ S (String.length (joins "," l)).
Proof.
  induction l as [|x [|y l] IH]; [simpl; lia|simpl; lia|].
  cbn [foldr joins] in *. rewrite !length_app_str. cbn [String.length]. lia.
Qed.

Lemma foldr_map_len {A} (f : A → string) l :
  foldr (λ x n, S (String.length (f x) + n)) 0 l = foldr (λ x n, S (String.length x + n)) 0 (map f l).
Proof. induction l; simpl; congruence. Qed.

Lemma jsize_print j : jsize j ≤ String.length (print j).
Proof.
  induction j as [|b|z|s|l IH|o IH] using json_ind'; cbn [jsize print].
  - simpl. lia.
  - destruct b; simpl; lia.
  - assert (Hz := pretty_Z_nonempty z). destruct (pretty z); [done|simpl; lia].
  - unfold quote. simpl. lia.
  - cbn [String.append String.length]. rewrite length_app_str. simpl.
    assert (H := foldr_mono _ _ _ IH). assert (H' := length_join (map print l)).
    cbn beta in H. rewrite (foldr_map_len print) in H. lia.
  - cbn [String.append String.length]. rewrite length_app_str. simpl.
    assert (IH' : Forall (λ kv : string * json,
              jsize kv.2 ≤ String.length (item (kv.1, print kv.2))) o).
    { eapply Forall_impl; [exact IH|]. intros [k v] Hv. simpl in *. unfold item.
      rewrite !length_app_str. simpl. lia. }
    assert (H := foldr_mono _ _ _ IH').
    assert (H' := length_join (map (λ kv : string * json, item (kv.1, print kv.2)) o)).
    cbn beta in H. rewrite (foldr_map_len (λ kv : string * json, item (kv.1, print kv.2))) in H. lia.
Qed.

Lemma loads_print j : json_wf j → loads (print j) = Some j.
Proof.
  intros Hwf. unfold loads.
  assert (Hp := parse_value_print j (S (2 * String.length (print j))) "" Hwf).
  assert (print j +:+ "" = print j) as E by (clear; induction (print j); simpl; congruence).
  rewrite E in Hp. rewrite Hp; [done| |done]. assert (H := jsize_print j). lia.
Qed.

(** A line feed at the end of the document changes nothing. *)
Lemma loads_print_line j : json_wf j → loads (print j +:+ String (ascii_of_nat 10) EmptyString) = Some j.
Proof.
  intros Hwf. unfold loads. rewrite parse_value_print; [done|done| |by right; right; right].
  rewrite length_app_str. assert (H := jsize_print j). lia.
Qed.

Lemma foldr_and_Forall {A} (P : A → Prop) l : foldr (λ x Q, P x ∧ Q) True l ↔ Forall P l.
Proof. induction l; simpl; [naive_solver|]. rewrite Forall_cons. naive_solver. Qed.

Lemma json_wf_jnorm j : json_wf j → json_wf (jnorm j).
Proof.
  induction j as [| | | |l IH|o IH] using json_ind'; simpl; try done.
  - rewrite !(foldr_and_Forall json_wf). intros H. apply Forall_map, Forall_forall. intros x Hx.
    rewrite Forall_forall in IH, H. auto.
  - rewrite !(foldr_and_Forall (λ kv : string * json, json_wf kv.2)). intros [Hnd H]. split.
    + unfold sort_keys. rewrite sort_by_Permutation. 
      rewrite <- list_fmap_compose. exact Hnd.
    + unfold sort_keys. rewrite sort_by_Permutation. apply Forall_map, Forall_forall. intros x Hx.
      rewrite Forall_forall in IH, H. simpl. auto.
Qed.

(** Canonical JSON round trip: parsing the canonical encoding of a value
    whose dictionaries have distinct keys gives the value back with its keys in
    canonical order, so nothing a digest, signature or stored scope is taken
    over is lost or confused with another value. *)
Theorem loads_dumps j : json_wf j → loads (dumps j) = Some (jnorm j).
Proof. intros. rewrite dumps_jnorm. by apply loads_print, json_wf_jnorm. Qed.

Lemma loads_dumps_line j : json_wf j → loads (dumps j +:+ String (ascii_of_nat 10) EmptyString) = Some (jnorm j).
Proof. intros. rewrite dumps_jnorm. by apply loads_print_line, json_wf_jnorm. Qed.

End RoundTrip.

Lemma loads_dumps_witness :
  let j := JObj [("b", JList [JInt (-12); JStr "x y"; JNull]); ("a", JBool true)] in
  json_wf j ∧ loads (dumps j) = Some (jnorm j) ∧
  jnorm j = JObj [("a", JBool true); ("b", JList [JInt (-12); JStr "x y"; JNull])].
Proof.
  cbv zeta. split; [|split; [apply loads_dumps|reflexivity]];
    (cbn; split; [|tauto]); (repeat constructor; set_solver).
Defined.
