(* ===== verification/JsonIndent.v ===== *)
(** [json.dumps(v, indent=2, sort_keys=True)], and that [json.loads] reads it back. *)

From stdpp Require Import pretty.
From S2P Require Import Prelude Json JsonParse.
From Stdlib Require Import Ascii.

Fixpoint spaces (n : nat) : string := match n with O => "" | S n => String " " (spaces n) end.

(** The line feed and the blanks before an element *)
Definition line_feed : string := String (ascii_of_nat 10) "".
Definition indent (level : nat) : string := line_feed +:+ spaces (2 * level).

Section Encoding.
Context {EA : EnsureAscii}.

Definition indented_item (kv : string * string) : string := quote kv.1 +:+ ": " +:+ kv.2.

Fixpoint print_indent (level : nat) (j : json) : string :=
  match j with
  | JList ((_ :: _) as l) => "[" +:+ indent (S level) +:+ joins ("," +:+ indent (S level)) (map (print_indent (S level)) l) +:+ indent level +:+ "]"
  | JObj ((_ :: _) as o) =>
      "{" +:+ indent (S level) +:+ joins ("," +:+ indent (S level)) (map (λ kv, indented_item (kv.1, print_indent (S level) kv.2)) o) +:+ indent level +:+ "}"
  | _ => print j
  end.

Definition dumps_indent (j : json) : string := print_indent 0 (jnorm j).
End Encoding.

Example dumps_indent_1 : dumps_indent (JObj [("b", JList [JInt 1; JObj []]); ("a", JNull)]) =
  joins line_feed ["{"; "  " +:+ quote "a" +:+ ": null,"; "  " +:+ quote "b" +:+ ": ["; "    1,"; "    {}"; "  ]"; "}"].
Proof. vm_compute. reflexivity. Qed.

(** ** Reading back *)

Section RoundTrip.
Context {EA : EnsureAscii}.

Lemma skip_spaces n s : skip_ws (spaces n +:+ s) = skip_ws s.
Proof. induction n as [|n IH]; [done|]. cbn. exact IH. Qed.

Lemma skip_indent n s : skip_ws (indent n +:+ s) = skip_ws s.
Proof. unfold indent. rewrite append_assoc. change (line_feed +:+ ?x) with (String (ascii_of_nat 10) x). cbn [skip_ws]. change (is_ws (ascii_of_nat 10)) with true. cbv iota. apply skip_spaces. Qed.

Lemma parse_value_indent f n s : parse_value f (indent n +:+ s) = parse_value f s.
Proof. destruct f; [done|]. cbn [parse_value]. by rewrite skip_indent. Qed.

Lemma parse_members_indent f n s : parse_members f (indent n +:+ s) = parse_members f s.
Proof. destruct f; [done|]. cbn [parse_members]. by rewrite skip_indent. Qed.

Lemma parse_elems_indent f n s : parse_elems f (indent n +:+ s) = parse_elems f s.
Proof. destruct f; [done|]. cbn [parse_elems]. by rewrite parse_value_indent. Qed.

Lemma indent_closing n r : closing (indent n +:+ r).
Proof. by right; right; right. Qed.

(** [j] is read back whatever follows it. *)
Definition reads_indented (j : json) : Prop := ∀ level fuel r,
  json_wf j → jsize j ≤ fuel → closing r → parse_value fuel (print_indent level j +:+ r) = Some (j, r).

Lemma parse_elems_indented level l fuel r :
  l ≠ [] → Forall reads_indented l → json_wf (JList l) → jsize (JList l) ≤ S fuel →
  parse_elems fuel (joins ("," +:+ indent (S level)) (map (print_indent (S level)) l) +:+ indent level +:+ String "]" r) = Some (l, r).
Proof.
  intros Hne Hl. revert fuel. induction Hl as [|j l Hj Hl IH]; intros fuel Hwf Hsz; [done|].
  cbn [json_wf jsize foldr] in Hwf, Hsz. destruct Hwf as [Hwj Hwl]. destruct fuel as [|fuel]; [lia|]. cbn [parse_elems].
  destruct l as [|j' l]; cbn [map joins].
  - rewrite Hj by (done || (cbn; lia) || apply indent_closing). cbn [mbind option_bind fst snd]. by rewrite skip_indent.
  - rewrite !append_assoc. rewrite Hj by (done || (cbn in *; lia) || by left). cbn [mbind option_bind fst snd]. change ("," +:+ ?x) with (String "," x).
    rewrite skip_ws_closing by by left. cbn [first_char rest_str]. change (ord "," =? 44) with true. cbv iota. rewrite parse_elems_indent.
    cbn [map joins] in IH. rewrite IH; [done|done|done|]. cbn [jsize foldr] in *. lia.
Qed.

Lemma indented_item_reads k t r : indented_item (k, t) +:+ r = String dq (escape_all k +:+ String dq (String ":" (String " " (t +:+ r)))).
Proof. unfold indented_item, quote. cbn [fst snd String.append]. rewrite !append_assoc. done. Qed.

Lemma parse_value_space f s : parse_value f (String " " s) = parse_value f s.
Proof. by destruct f. Qed.

Lemma parse_members_indented level o fuel r :
  o ≠ [] → Forall (λ kv, reads_indented kv.2) o → foldr (λ kv P, json_wf kv.2 ∧ P) True o → jsize (JObj o) ≤ S fuel →
  parse_members fuel (joins ("," +:+ indent (S level)) (map (λ kv, indented_item (kv.1, print_indent (S level) kv.2)) o) +:+ indent level +:+ String "}" r) = Some (o, r).
Proof.
  intros Hne Ho. revert fuel. induction Ho as [|[k j] o Hj Ho IH]; intros fuel Hwf Hsz; [done|].
  cbn [foldr snd] in Hwf. cbn [jsize foldr snd] in Hsz. destruct Hwf as [Hwj Hwo]. destruct fuel as [|fuel]; [lia|]. cbn [parse_members map joins].
  destruct o as [|kv o]; cbn [map joins fst snd].
  - rewrite indented_item_reads. cbn [skip_ws]. change (is_ws dq) with false. cbv iota. cbn [first_char rest_str]. change (ord dq =? 34) with true. cbn [negb].
    rewrite parse_str_all. cbn [mbind option_bind fst snd skip_ws]. change (is_ws ":") with false. cbv iota. cbn [first_char rest_str].
    change (ord ":" =? 58) with true. cbn [negb]. rewrite parse_value_space, Hj by (done || (cbn in *; lia) || apply indent_closing).
    cbn [mbind option_bind fst snd]. by rewrite skip_indent.
  - rewrite !append_assoc, indented_item_reads. cbn [skip_ws]. change (is_ws dq) with false. cbv iota. cbn [first_char rest_str]. change (ord dq =? 34) with true. cbn [negb].
    rewrite parse_str_all. cbn [mbind option_bind fst snd skip_ws]. change (is_ws ":") with false. cbv iota. cbn [first_char rest_str].
    change (ord ":" =? 58) with true. cbn [negb]. rewrite parse_value_space, Hj by (done || (cbn in *; lia) || by left).
    cbn [mbind option_bind fst snd]. change ("," +:+ ?x) with (String "," x). rewrite skip_ws_closing by by left. cbn [first_char rest_str].
    change (ord "," =? 44) with true. cbv iota. rewrite parse_members_indent. cbn [map joins] in IH. rewrite IH; [done|done|done|]. cbn [jsize foldr] in *. lia.
Qed.

Lemma print_indent_first level j r : skip_ws (print_indent level j +:+ r) = print_indent level j +:+ r ∧
  first_char (print_indent level j +:+ r) ≠ 93 ∧ first_char (print_indent level j +:+ r) ≠ 125.
Proof.
  assert (Hp : skip_ws (print j +:+ r) = print j +:+ r ∧ first_char (print j +:+ r) ≠ 93 ∧ first_char (print j +:+ r) ≠ 125) by (split; [apply skip_ws_print|apply print_first]).
  destruct j as [| | | |[|j l]|[|kv o]]; try exact Hp; done.
Qed.

Lemma reads_indented_all j : reads_indented j.
Proof.
  induction j as [|b|z|s|l IH|o IH] using json_ind'; intros level fuel r Hwf Hsz Hr; try by apply parse_value_print.
  - destruct l as [|j l]; [by apply parse_value_print|]. destruct fuel as [|fuel]; [simpl in Hsz; lia|]. cbn [parse_value print_indent].
    set (body := joins _ _). cbn [String.append skip_ws]. change (is_ws "[") with false. cbv iota. cbn [first_char rest_str].
    change (ord "[" =? 34) with false. change (ord "[" =? 91) with true. cbv iota. rewrite !append_assoc, skip_indent, parse_elems_indent.
    assert (Hf : first_char (skip_ws (body +:+ indent level +:+ "]" +:+ r)) ≠ 93).
    { subst body. destruct l; cbn [map joins]; rewrite ?append_assoc; match goal with |- context [print_indent ?l j +:+ ?t] => destruct (print_indent_first l j t) as (-> & Hf & _) end; exact Hf. }
    apply Nat.eqb_neq in Hf. rewrite Hf. change ("]" +:+ r) with (String "]" r). subst body. rewrite parse_elems_indented by (done || lia). done.
  - destruct o as [|[k j] o]; [by apply parse_value_print|]. destruct fuel as [|fuel]; [simpl in Hsz; lia|]. cbn [parse_value print_indent].
    set (body := joins _ _). cbn [String.append skip_ws]. change (is_ws "{") with false. cbv iota. cbn [first_char rest_str].
    change (ord "{" =? 34) with false. change (ord "{" =? 91) with false. change (ord "{" =? 123) with true. cbv iota. rewrite !append_assoc, skip_indent, parse_members_indent.
    assert (Hf : first_char (skip_ws (body +:+ indent level +:+ "}" +:+ r)) ≠ 125) by (subst body; by destruct o).
    apply Nat.eqb_neq in Hf. rewrite Hf. change ("}" +:+ r) with (String "}" r). cbn [json_wf] in Hwf. subst body.
    rewrite parse_members_indented by (done || lia || apply Hwf). cbn [mbind option_bind fst snd]. by rewrite obj_of_NoDup by apply Hwf.
Qed.

Lemma length_joins sep l : 1 ≤ String.length sep → foldr (λ x n, S (String.length x + n)) 0 l ≤ S (String.length (joins sep l)).
Proof.
  intros Hs. induction l as [|x [|y l] IH]; [simpl; lia|simpl; lia|]. cbn [foldr joins] in *. rewrite !length_app_str. lia.
Qed.

Lemma jsize_indent level j : jsize j ≤ String.length (print_indent level j).
Proof.
  revert level. induction j as [|b|z|s|l IH|o IH] using json_ind'; intros level; try apply jsize_print.
  - destruct l as [|j l]; [apply jsize_print|]. cbn [print_indent jsize]. assert (IH' : Forall (λ x, jsize x ≤ String.length (print_indent (S level) x)) (j :: l)) by (eapply Forall_impl; [exact IH|]; auto).
    assert (H := foldr_mono _ _ _ IH'). cbn beta in H. rewrite (foldr_map_len (print_indent (S level))) in H.
    assert (H' := length_joins ("," +:+ indent (S level)) (map (print_indent (S level)) (j :: l)) ltac:(cbn; lia)). rewrite !length_app_str. cbn [String.length]. lia.
  - destruct o as [|kv o]; [apply jsize_print|]. cbn [print_indent jsize].
    assert (IH' : Forall (λ kv : string * json, jsize kv.2 ≤ String.length (indented_item (kv.1, print_indent (S level) kv.2))) (kv :: o)).
    { eapply Forall_impl; [exact IH|]. intros [k v] Hv. specialize (Hv (S level)). unfold indented_item. rewrite !length_app_str. cbn [fst snd] in *. lia. }
    assert (H := foldr_mono _ _ _ IH'). cbn beta in H. rewrite (foldr_map_len (λ kv : string * json, indented_item (kv.1, print_indent (S level) kv.2))) in H.
    assert (H' := length_joins ("," +:+ indent (S level)) (map (λ kv : string * json, indented_item (kv.1, print_indent (S level) kv.2)) (kv :: o)) ltac:(cbn; lia)).
    rewrite !length_app_str. cbn [String.length]. lia.
Qed.

(** What [dumps] with an indentation writes, with a line feed at the end or without, [loads] reads. *)
Lemma loads_indent j r : json_wf j → r = "" ∨ r = line_feed → loads (dumps_indent j +:+ r) = Some (jnorm j).
Proof.
  intros Hw Hr. unfold loads, dumps_indent. apply json_wf_jnorm in Hw. rewrite reads_indented_all; [by destruct Hr as [-> | ->]|done| |].
  - rewrite length_app_str. assert (H := jsize_indent 0 (jnorm j)). lia.
  - destruct Hr as [-> | ->]; [exact I|by right; right; right].
Qed.
End RoundTrip.
