(* ===== verification/PyParse.v ===== *)
(** What Python reads from text: [datetime.fromisoformat], [int], and [bytes.decode].

    A timestamp is an instant written in UTC, as everywhere in the development, so
    [fromisoformat] reads the spellings that [isoformat] writes; a code point is below
    256, so [utf8_decode] reads one- and two-byte sequences. *)

From stdpp Require Import pretty.
From S2P Require Import Prelude PyTime Sha256 Json JsonParse.
From Stdlib Require Import Ascii.

Open Scope Z_scope.

(** ** [datetime.fromisoformat] *)

Fixpoint number (acc : Z) (n : nat) (s : string) : option (Z * string) :=
  match n, s with
  | O, _ => Some (acc, s)
  | S n', String c s' =>
      let d := Z.of_nat (ord c) - 48 in if (0 <=? d) && (d <=? 9) then number (10 * acc + d) n' s' else None
  | S _, EmptyString => None
  end.
Definition field (n : nat) (before : string) (s : string) : option (Z * string) :=
  r ← strip_prefix before s; number 0 n r.

Definition leap (y : Z) : bool := (y mod 4 =? 0) && (negb (y mod 100 =? 0) || (y mod 400 =? 0)).
Definition month_days (y m : Z) : Z :=
  if m =? 2 then (if leap y then 29 else 28) else if (m =? 4) || (m =? 6) || (m =? 9) || (m =? 11) then 30 else 31.

Definition days_from_civil (y0 m d : Z) : Z :=
  let y := if m <=? 2 then y0 - 1 else y0 in
  let era := y / 400 in
  let yoe := y mod 400 in
  let doy := (153 * (if 2 <? m then m - 3 else m + 9) + 2) / 5 + d - 1 in
  era * 146097 + (yoe * 365 + yoe / 4 - yoe / 100 + doy) - 719468.

Definition fromisoformat (s : string) : option datetime :=
  y ← field 4 "" s; m ← field 2 "-" y.2; d ← field 2 "-" m.2;
  h ← field 2 "T" d.2; mi ← field 2 ":" h.2; se ← field 2 ":" mi.2;
  let us := match field 6 "." se.2 with Some u => u | None => (0, se.2) end in
  if bool_decide (us.2 = "+00:00") && (1 <=? y.1) && (1 <=? m.1) && (m.1 <=? 12) && (1 <=? d.1) &&
     (d.1 <=? month_days y.1 m.1) && (h.1 <=? 23) && (mi.1 <=? 59) && (se.1 <=? 59)
  then Some (seconds (86400 * days_from_civil y.1 m.1 d.1 + 3600 * h.1 + 60 * mi.1 + se.1) + us.1)
  else None.

Example fromisoformat_1 : map (λ t, fromisoformat (isoformat t)) [0; seconds 1709209830 + 45; seconds (-86400 * 800) + 999999] =
  [Some 0; Some (seconds 1709209830 + 45); Some (seconds (-86400 * 800) + 999999)].
Proof. by vm_compute. Qed.

(** [int(v)] of a JSON value *)
Fixpoint int_digits (acc : Z) (after_digit : bool) (s : string) : option Z :=
  match s with
  | EmptyString => if after_digit then Some acc else None
  | String c s' =>
      let d := Z.of_nat (ord c) - 48 in
      if (0 <=? d) && (d <=? 9) then int_digits (10 * acc + d) true s'
      else if (ord c =? 95)%nat && after_digit then int_digits acc false s' else None
  end.
Definition int_of_str (s : string) : option Z :=
  match strip s with
  | String c s' => if (ord c =? 45)%nat then Z.opp <$> int_digits 0 false s'
                   else if (ord c =? 43)%nat then int_digits 0 false s' else int_digits 0 false (String c s')
  | EmptyString => None
  end.
Definition py_int (v : json) : option Z :=
  match v with
  | JInt z => Some z | JBool b => Some (if b then 1 else 0) | JStr s => int_of_str s | _ => None
  end.

(** [raw.decode("utf-8")] *)
Fixpoint utf8_decode (s : string) : option string :=
  match s with
  | EmptyString => Some EmptyString
  | String c s' =>
      if (ord c <? 128)%nat then r ← utf8_decode s'; Some (String c r)
      else match s' with
           | String d s'' =>
               if ((194 <=? ord c) && (ord c <=? 195) && (128 <=? ord d) && (ord d <=? 191))%nat
               then r ← utf8_decode s''; Some (String (ascii_of_nat (64 * (ord c - 192) + (ord d - 128))) r)
               else None
           | EmptyString => None
           end
  end.

Lemma utf8_decode_encode s : utf8_decode (utf8 s) = Some s.
Proof.
  induction s as [|c s IH]; [done|]. change (utf8 (String c s)) with (utf8_char c +:+ utf8 s).
  assert (E : ∀ r, utf8_decode (utf8_char c +:+ r) = t ← utf8_decode r; Some (String c t))
    by (intros r; destruct c as [[] [] [] [] [] [] [] []]; reflexivity).
  rewrite E, IH. reflexivity.
Qed.

(** ** Round trips *)

Lemma number_split n m acc s : number acc (n + m) s = p ← number acc n s; number p.1 m p.2.
Proof.
  revert acc s. induction n as [|n IH]; intros acc s; [done|]. cbn [number Nat.add]. destruct s as [|c s]; [done|].
  destruct (_ && _); [|done]. apply IH.
Qed.

Lemma digit_of x : 0 ≤ x < 10 → Z.of_nat (ord (ascii_of_nat (Z.to_nat (48 + x)))) - 48 = x.
Proof. intros H. unfold ord. rewrite nat_ascii_embedding by lia. lia. Qed.

Lemma number_digits n x acc r : 0 ≤ x → number acc n (digits n x +:+ r) = Some (acc * 10 ^ Z.of_nat n + x mod 10 ^ Z.of_nat n, r).
Proof.
  revert x acc r. induction n as [|n IH]; intros x acc r Hx.
  { cbn. rewrite Z.mod_1_r. do 2 f_equal. lia. }
  cbn [digits]. rewrite append_assoc. cbn [String.append]. replace (S n) with (n + 1)%nat at 1 by lia.
  rewrite number_split, IH by (apply Z.div_pos; lia). cbn [mbind option_bind fst snd number].
  pose proof (Z.mod_pos_bound x 10 ltac:(lia)) as Hm. rewrite digit_of by lia.
  destruct ((0 <=? x mod 10) && (x mod 10 <=? 9)) eqn:E; [|lia].
  do 2 f_equal. rewrite Nat2Z.inj_succ, Z.pow_succ_r by lia.
  rewrite (Z.rem_mul_r x 10) by lia. lia.
Qed.

(** The year of an era, from the day of the era: every day falls within its year. *)
Lemma yoe_spec doe : 0 ≤ doe < 146097 →
  let yoe := (doe - doe / 1460 + doe / 36524 - doe / 146096) / 365 in
  let doy := doe - (365 * yoe + yoe / 4 - yoe / 100) in
  0 ≤ yoe ≤ 399 ∧ 0 ≤ doy ≤ 365 ∧ (doy = 365 → (yoe + 1) mod 4 = 0 ∧ ((yoe + 1) mod 100 ≠ 0 ∨ (yoe + 1) mod 400 = 0)).
Proof.
  intros H. cbv zeta.
  assert (Hb : doe / 36524 = 0 ∨ doe / 36524 = 1 ∨ doe / 36524 = 2 ∨ doe / 36524 = 3 ∨ doe = 146096)
    by (Z.to_euclidean_division_equations; lia).
  destruct Hb as [Hb|[Hb|[Hb|[Hb| ->]]]]; [rewrite Hb..|by vm_compute; repeat split; auto].
  all: assert (Hc : doe / 146096 = 0) by (Z.to_euclidean_division_equations; lia); rewrite Hc.
  all: split; [|split]; (Z.to_euclidean_division_equations; lia).
Qed.

Lemma leap_period y k : leap (y + k * 400) = leap y.
Proof.
  unfold leap. rewrite (Z.mod_add y k 400) by lia.
  replace (y + k * 400) with (y + (k * 100) * 4) at 1 by lia. replace (y + k * 400) with (y + (k * 4) * 100) by lia.
  by rewrite !Z.mod_add by lia.
Qed.

(** Days and dates correspond. *)
Lemma civil_roundtrip z :
  let '(y, m, d) := civil_from_days z in
  days_from_civil y m d = z ∧ 1 ≤ m ≤ 12 ∧ 1 ≤ d ≤ month_days y m.
Proof.
  unfold civil_from_days. pose proof (Z.mod_pos_bound (z + 719468) 146097 ltac:(lia)) as Hdoe.
  pose proof (Z.div_mod (z + 719468) 146097 ltac:(lia)) as Hz.
  destruct (yoe_spec _ Hdoe) as (Hy & Hd & Hl). cbv zeta in Hy, Hd, Hl.
  set (doe := (z + 719468) mod 146097) in *. set (era := (z + 719468) / 146097) in *.
  set (yoe := (doe - doe / 1460 + doe / 36524 - doe / 146096) / 365) in *.
  set (doy := doe - (365 * yoe + yoe / 4 - yoe / 100)) in *.
  set (mp := (5 * doy + 2) / 153).
  assert (Hmp : 0 ≤ mp ≤ 11) by (subst mp; clearbody doy; Z.to_euclidean_division_equations; lia).
  assert (Hera : (yoe + era * 400) / 400 = era ∧ (yoe + era * 400) mod 400 = yoe).
  { rewrite Z.div_add, Z.mod_add, Z.div_small, Z.mod_small by lia. lia. }
  destruct Hera as [E1 E2].
  assert (Hday : 1 ≤ doy - (153 * mp + 2) / 5 + 1 ∧
    (doy - (153 * mp + 2) / 5 + 1 ≤ if mp =? 11 then (if doy =? 365 then 29 else 28)
       else if (mp =? 1) || (mp =? 3) || (mp =? 6) || (mp =? 8) then 30 else 31)).
  { subst mp. clearbody doy. destruct (doy =? 365) eqn:E365; [apply Z.eqb_eq in E365; subst doy; vm_compute; split; discriminate|].
    assert (Hc : let mp := (5 * doy + 2) / 153 in mp = 0 ∨ mp = 1 ∨ mp = 2 ∨ mp = 3 ∨ mp = 4 ∨ mp = 5 ∨ mp = 6 ∨ mp = 7 ∨ mp = 8 ∨
      mp = 9 ∨ mp = 10 ∨ mp = 11) by (cbv zeta; lia).
    cbv zeta in Hc. repeat destruct Hc as [Hc|Hc]; rewrite Hc; cbn -[Z.div]; Z.to_euclidean_division_equations; lia. }
  clearbody mp. destruct (mp <? 10) eqn:Em; cbv beta iota zeta.
  - destruct (mp + 3 <=? 2) eqn:E3; [lia|]. unfold days_from_civil. rewrite E3, Z.add_0_r, E1, E2.
    destruct (2 <? mp + 3) eqn:E4; [|lia]. replace (mp + 3 - 3) with mp by lia. split; [subst doy; lia|]. split; [lia|].
    split; [lia|]. etrans; [apply Hday|]. unfold month_days.
    destruct (mp =? 11) eqn:?; [lia|]. destruct (mp + 3 =? 2) eqn:?; [lia|].
    replace ((mp =? 1) || (mp =? 3) || (mp =? 6) || (mp =? 8)) with
      ((mp + 3 =? 4) || (mp + 3 =? 6) || (mp + 3 =? 9) || (mp + 3 =? 11)) by lia. done.
  - destruct (mp - 9 <=? 2) eqn:E3; [|lia]. unfold days_from_civil. rewrite E3.
    replace (yoe + era * 400 + 1 - 1) with (yoe + era * 400) by lia. rewrite E1, E2.
    destruct (2 <? mp - 9) eqn:E4; [lia|]. replace (mp - 9 + 9) with mp by lia. split; [subst doy; lia|]. split; [lia|].
    split; [lia|]. etrans; [apply Hday|]. unfold month_days.
    destruct (mp =? 11) eqn:E11.
    + destruct (mp - 9 =? 2) eqn:?; [|lia]. destruct (doy =? 365) eqn:E365; [|destruct (leap _); lia].
      replace (yoe + era * 400 + 1) with (yoe + 1 + era * 400) by lia. rewrite leap_period.
      assert (leap (yoe + 1) = true) as ->; [|done]. unfold leap. destruct Hl as [Hl1 Hl2]; [lia|]. lia.
    + destruct (mp - 9 =? 2) eqn:?; [lia|]. destruct ((mp =? 1) || _ || _ || _) eqn:?; [lia|].
      destruct ((mp - 9 =? 4) || _ || _ || _) eqn:?; lia.
Qed.

(** Instants a [datetime] can name: from year 1 to year 9999. *)
Definition representable (t : datetime) : Prop :=
  let '(y, _, _) := civil_from_days (t / 1000000 / 86400) in 1 ≤ y ≤ 9999.

Lemma field_digits n b x r : 0 ≤ x < 10 ^ Z.of_nat n → field n b (b +:+ digits n x +:+ r) = Some (x, r).
Proof.
  intros Hx. unfold field.
  assert (E : ∀ t, strip_prefix b (b +:+ t) = Some t).
  { intros t. induction b as [|c b IH]; [done|]. cbn. by rewrite bool_decide_eq_true_2. }
  rewrite E. cbn [mbind option_bind]. rewrite number_digits by lia. by rewrite Z.mod_small.
Qed.

#[local] Transparent isoformat.

(** [datetime.fromisoformat(t.isoformat()) == t] *)
Lemma fromisoformat_isoformat t : representable t → fromisoformat (isoformat t) = Some t.
Proof.
  unfold representable, isoformat. pose proof (civil_roundtrip (t / 1000000 / 86400)) as Hc.
  destruct (civil_from_days _) as [[y m] d]. destruct Hc as (Hdays & Hm & Hd). intros Hy.
  assert (Hmd : month_days y m ≤ 31) by (unfold month_days, leap; repeat case_match; lia).
  set (secs := t / 1000000) in *. set (sod := secs mod 86400). set (us := t mod 1000000).
  assert (Hsod : 0 ≤ sod < 86400) by (apply Z.mod_pos_bound; lia).
  assert (Hus : 0 ≤ us < 1000000) by (apply Z.mod_pos_bound; lia).
  assert (H60 : 0 ≤ sod / 3600 ≤ 23 ∧ 0 ≤ sod / 60 mod 60 ≤ 59 ∧ 0 ≤ sod mod 60 ≤ 59) by (Z.to_euclidean_division_equations; lia).
  unfold fromisoformat.
  change (digits 4 y +:+ ?r) with ("" +:+ digits 4 y +:+ r). rewrite field_digits by (cbn; lia). cbn [mbind option_bind fst snd].
  rewrite field_digits by (cbn; lia). cbn [mbind option_bind fst snd]. rewrite field_digits by (cbn; lia). cbn [mbind option_bind fst snd].
  rewrite field_digits by (cbn; lia). cbn [mbind option_bind fst snd]. rewrite field_digits by (cbn; lia). cbn [mbind option_bind fst snd].
  rewrite field_digits by (cbn; lia). cbn [mbind option_bind fst snd].
  assert (Hdays' : seconds (86400 * (secs / 86400) + 3600 * (sod / 3600) + 60 * (sod / 60 mod 60) + sod mod 60) + us = t).
  { unfold seconds. subst sod us secs. clear. Z.to_euclidean_division_equations. lia. }
  destruct (us =? 0) eqn:Eus.
  - change (field 6 "." ("" +:+ "+00:00")) with (@None (Z * string)). cbn [fst snd].
    rewrite Hdays. replace ((_ && _)) with true; [f_equal; lia|]. symmetry. rewrite !andb_true_iff, !Z.leb_le. cbn. split_and!; try lia. done.
  - rewrite append_assoc, field_digits by (cbn; lia). cbn [fst snd].
    rewrite Hdays. replace ((_ && _)) with true; [f_equal; lia|]. symmetry. rewrite !andb_true_iff, !Z.leb_le. split_and!; try lia. done.
Qed.

(** ** Strings without blanks *)

Lemma all_chars_append P (a b : string) : all_chars P (a +:+ b) = all_chars P a && all_chars P b.
Proof. induction a as [|c a IH]; [done|]. cbn. rewrite IH. by destruct (P c). Qed.

Lemma rstrip_plain s : all_chars (λ c, negb (is_space c)) s = true → rstrip s = s.
Proof.
  induction s as [|c s IH]; [done|]. cbn [all_chars rstrip]. intros [Hc Hs]%andb_true_iff. rewrite (IH Hs).
  destruct s; [|done]. by destruct (is_space c).
Qed.

Lemma all_chars_impl (P Q : ascii → bool) s : (∀ c, P c = true → Q c = true) → all_chars P s = true → all_chars Q s = true.
Proof. intros HPQ. induction s as [|c s IH]; [done|]. cbn. intros [Hc%HPQ Hs%IH]%andb_true_iff. by rewrite Hc. Qed.

Lemma strip_plain s : all_chars (λ c, negb (is_space c)) s = true → strip s = s.
Proof.
  intros Hs. unfold strip. rewrite <- (rstrip_plain s Hs) at 2. f_equal. destruct s as [|c s]; [done|]. cbn [all_chars] in Hs. apply andb_true_iff in Hs as [Hc _].
  cbn [lstrip]. by destruct (is_space c).
Qed.
