(* ===== verification/Redaction.v ===== *)
(** Credential redaction (src/olympus/nodes/redaction.py).

    The patterns are written in a small regular-expression language with
    Python's backtracking semantics: alternatives are tried in order, greedy
    repetitions longest first, lazy ones shortest first. [sub] is
    [Pattern.sub]: leftmost matches, non-overlapping, left to right. *)

From S2P Require Import Prelude Json Sha256.
From Stdlib Require Import Ascii.

#[local] Open Scope nat_scope.

(** ** The regular expressions [re] is used with *)

Inductive regex : Type :=
  | RChar (p : ascii → bool)
  | REps
  | RSeq (r1 r2 : regex)
  | RAlt (r1 r2 : regex)
  | RRep (greedy : bool) (min : nat) (p : ascii → bool)
  | RBound.

Definition between (a b : nat) (c : ascii) : bool := (a <=? ord c) && (ord c <=? b).
Definition is_upper : ascii → bool := between 65 90.
Definition is_lower : ascii → bool := between 97 122.
Definition is_digit : ascii → bool := between 48 57.
Definition is_alnum (c : ascii) : bool := is_upper c || is_lower c || is_digit c.
Definition char_in (s : string) (c : ascii) : bool := str_has c s.

(** [\w] below code point 256. *)
Definition is_word (c : ascii) : bool :=
  is_alnum c || (ord c =? 95) || (ord c =? 170) || (ord c =? 178) || (ord c =? 179) || (ord c =? 181)
  || (ord c =? 185) || (ord c =? 186) || between 188 190 c || between 192 214 c
  || between 216 246 c || between 248 255 c.

Definition word_opt (o : option ascii) : bool := match o with Some c => is_word c | None => false end.
Definition head_opt (s : string) : option ascii :=
  match s with String c _ => Some c | EmptyString => None end.

(** Repetition of a character class with a continuation. *)
Fixpoint rep {X} (greedy : bool) (min : nat) (p : ascii → bool) (prev : option ascii) (s : string)
    (k : option ascii → string → option X) {struct s} : option X :=
  let more :=
    match s with
    | String c s' => if p c then rep greedy (min - 1) p (Some c) s' k else None
    | EmptyString => None
    end in
  let stop := match min with O => k prev s | S _ => None end in
  if greedy then match more with Some x => Some x | None => stop end
  else match stop with Some x => Some x | None => more end.

(** [prev] is the character before the current position, for [\b]. *)
Fixpoint rmatch {X} (r : regex) (prev : option ascii) (s : string)
    (k : option ascii → string → option X) : option X :=
  match r with
  | RChar p =>
      match s with
      | String c s' => if p c then k (Some c) s' else None
      | EmptyString => None
      end
  | REps => k prev s
  | RSeq r1 r2 => rmatch r1 prev s (λ pr s', rmatch r2 pr s' k)
  | RAlt r1 r2 =>
      match rmatch r1 prev s k with
      | Some x => Some x
      | None => rmatch r2 prev s k
      end
  | RRep g n p => rep g n p prev s k
  | RBound => if xorb (word_opt prev) (word_opt (head_opt s)) then k prev s else None
  end.

Definition eq_ci (c d : ascii) : bool := bool_decide (lower_char c = lower_char d).
Definition eq_cs (c d : ascii) : bool := bool_decide (c = d).

Fixpoint lit_with (eq : ascii → ascii → bool) (s : string) : regex :=
  match s with
  | EmptyString => REps
  | String c s' => RSeq (RChar (eq c)) (lit_with eq s')
  end.
Definition lit : string → regex := lit_with eq_cs.
Definition lit_ci : string → regex := lit_with eq_ci.
Definition opt (p : ascii → bool) : regex := RAlt (RChar p) REps.
Fixpoint alts (l : list regex) : regex :=
  match l with
  | [] => RChar (λ _, false)
  | [r] => r
  | r :: l' => RAlt r (alts l')
  end.
Fixpoint times (n : nat) (r : regex) : regex :=
  match n with O => REps | S n' => RSeq r (times n' r) end.
Infix "⋅" := RSeq (at level 60, right associativity) : olympus_scope.
Local Open Scope olympus_scope.

(** The text consumed between [s] and its suffix [s']. *)
Fixpoint consumed (s s' : string) (n : nat) : string :=
  match n, s with
  | S n', String c r => String c (consumed r s' n')
  | _, _ => EmptyString
  end.
Definition upto (s s' : string) : string := consumed s s' (String.length s - String.length s').

(** [pattern.sub(repl, s)]; [find] returns the replacement and what follows
    the match. The fuel bounds the number of positions visited. *)
Fixpoint sub_go (fuel : nat) (find : option ascii → string → option (string * option ascii * string))
    (prev : option ascii) (s : string) : string :=
  match fuel, s with
  | S fuel', String c s' =>
      match find prev s with
      | Some (out, prev', rest) => out +:+ sub_go fuel' find prev' rest
      | None => String c (sub_go fuel' find (Some c) s')
      end
  | _, _ => s
  end.
Definition sub (find : option ascii → string → option (string * option ascii * string)) (s : string) : string :=
  sub_go (S (String.length s)) find None s.

(** ** The patterns *)

Definition REDACTION_PLACEHOLDER : string := "[redacted]".

Definition key_body : ascii → bool := λ c, is_upper c || (ord c =? 32).
Definition b64url : ascii → bool := λ c, is_alnum c || char_in "_-" c.

Definition pem_key : regex :=
  lit "-----BEGIN " ⋅ RRep true 0 key_body ⋅ lit "PRIVATE KEY-----" ⋅
  RRep false 0 (λ _, true) ⋅
  lit "-----END " ⋅ RRep true 0 key_body ⋅ lit "PRIVATE KEY-----".

Definition PATTERNS : list regex := [
  pem_key;
  lit "olynode_" ⋅ RRep true 1 b64url;
  RBound ⋅ lit_ci "bearer" ⋅ RRep true 1 is_space ⋅
    RRep true 8 (λ c, is_alnum c || char_in "._~+/=-" c);
  RBound ⋅ lit "eyJ" ⋅ RRep true 8 b64url ⋅ lit "." ⋅ RRep true 8 b64url ⋅ lit "." ⋅ RRep true 8 b64url;
  RBound ⋅ RAlt (lit "AKIA") (lit "ASIA") ⋅
    times 16 (RChar (λ c, is_digit c || is_upper c)) ⋅ RBound;
  RBound ⋅ lit "gh" ⋅ RChar (char_in "pousr") ⋅ lit "_" ⋅ RRep true 20 is_alnum;
  RBound ⋅ lit "xox" ⋅ RChar (char_in "abprs") ⋅ lit "-" ⋅
    RRep true 10 (λ c, is_alnum c || char_in "-" c)].

Definition us_or_dash : regex := opt (char_in "_-").
Definition api_key : regex := lit_ci "api" ⋅ us_or_dash ⋅ lit_ci "key".
Definition access_key : regex := lit_ci "access" ⋅ us_or_dash ⋅ lit_ci "key".
Definition private_key : regex := lit_ci "private" ⋅ us_or_dash ⋅ lit_ci "key".

Definition quote_char (c : ascii) : bool := (ord c =? 34) || (ord c =? 39).

(** Groups 1 and 2 of [_ASSIGNMENT_PATTERN]: the keyword and the separator. *)
Definition assignment_head : regex :=
  RBound ⋅
  alts [lit_ci "pass"; lit_ci "passwd"; lit_ci "password"; lit_ci "secret"; lit_ci "token";
        api_key; lit_ci "apikey"; access_key; private_key; lit_ci "credential"; lit_ci "authorization"] ⋅
  RBound ⋅
  RRep true 0 is_space ⋅ opt quote_char ⋅ RRep true 0 is_space ⋅ RChar (char_in ":=") ⋅
  RRep true 0 is_space ⋅ opt quote_char.

(** Group 3: the value. *)
Definition assignment_value : regex :=
  RRep true 3 (λ c, negb (is_space c || quote_char c || char_in ",;}]" c)).

Definition find_pattern (r : regex) (prev : option ascii) (s : string) :
    option (string * option ascii * string) :=
  rmatch r prev s (λ pr rest, Some (REDACTION_PLACEHOLDER, pr, rest)).

Definition find_assignment (prev : option ascii) (s : string) : option (string * option ascii * string) :=
  rmatch assignment_head prev s (λ pr mid,
    rmatch assignment_value pr mid (λ pr' rest, Some (upto s mid +:+ REDACTION_PLACEHOLDER, pr', rest))).

Definition redact_text (value : string) : string :=
  sub find_assignment (foldl (λ s r, sub (find_pattern r) s) value PATTERNS).

(** [_CREDENTIAL_KEYS.match(key)]: the [$] also matches before a final newline. *)
Definition credential_keys : regex :=
  alts [lit_ci "pass"; lit_ci "passwd"; lit_ci "password"; lit_ci "secret"; lit_ci "token";
        api_key; lit_ci "apikey"; access_key; lit_ci "secret" ⋅ us_or_dash ⋅ lit_ci "key"; private_key;
        lit_ci "credential"; lit_ci "credentials"; lit_ci "authorization"; lit_ci "auth";
        lit_ci "session" ⋅ us_or_dash ⋅ lit_ci "key";
        lit_ci "refresh" ⋅ us_or_dash ⋅ lit_ci "token";
        lit_ci "client" ⋅ us_or_dash ⋅ lit_ci "secret"].

Definition at_end (s : string) : bool :=
  match s with
  | EmptyString => true
  | String c EmptyString => ord c =? 10
  | _ => false
  end.

Definition is_credential_key (key : string) : bool :=
  match rmatch credential_keys None (strip key) (λ _ rest, if at_end rest then Some () else None) with
  | Some _ => true
  | None => false
  end.

Definition MAX_REDACTION_DEPTH : nat := 8.

(** [redact_value(value, depth=8 - left)]; [left] counts down to the depth limit. *)
Fixpoint redact_value_go (left : nat) (value : json) : json :=
  match left with
  | O => JStr REDACTION_PLACEHOLDER
  | S left' =>
      match value with
      | JStr s => JStr (redact_text s)
      | JObj o =>
          JObj (obj_of (map (λ kv : string * json,
            (redact_text kv.1,
             if is_credential_key kv.1 then JStr REDACTION_PLACEHOLDER
             else redact_value_go left' kv.2)) (take 64 o)))
      | JList l => JList (map (redact_value_go left') (take 64 l))
      | _ => value
      end
  end.
Definition redact_value (value : json) : json := redact_value_go MAX_REDACTION_DEPTH value.

(** ** Bounds of a redacted value *)

Fixpoint json_depth (j : json) : nat :=
  match j with
  | JList l => S (list_max (map json_depth l))
  | JObj o => S (list_max (map (λ kv, json_depth kv.2) o))
  | _ => 0
  end.

(** Every list and object has at most [n] entries. *)
Fixpoint json_width (n : nat) (j : json) : bool :=
  match j with
  | JList l => (length l <=? n) && forallb (json_width n) l
  | JObj o => (length o <=? n) && forallb (λ kv, json_width n kv.2) o
  | _ => true
  end.

Lemma obj_set_length k v o : length (obj_set k v o) ≤ S (length o).
Proof. induction o as [|[k' v'] o IH]; simpl; [lia|]. case_decide; simpl; lia. Qed.

Lemma obj_set_Forall (P : json → Prop) k v o :
  P v → Forall (λ kv, P kv.2) o → Forall (λ kv, P kv.2) (obj_set k v o).
Proof.
  intros Hv. induction 1 as [|[k' v'] o H Ho IH]; simpl; [by repeat constructor|].
  case_decide; constructor; auto.
Qed.

Lemma obj_of_length l : length (obj_of l) ≤ length l.
Proof.
  unfold obj_of. cut (∀ o, length (foldl (λ o kv, obj_set kv.1 kv.2 o) o l) ≤ length o + length l).
  { intros H. apply (H []). }
  induction l as [|kv l IH]; simpl; intros o; [lia|].
  etrans; [apply IH|]. assert (Hl := obj_set_length kv.1 kv.2 o). lia.
Qed.

Lemma obj_of_Forall (P : json → Prop) l : Forall (λ kv, P kv.2) l → Forall (λ kv, P kv.2) (obj_of l).
Proof.
  unfold obj_of. intros Hl. generalize (Forall_nil_2 (λ kv : string * json, P kv.2)).
  generalize (@nil (string * json)). induction Hl as [|kv l Hkv Hl IH]; simpl; intros o Ho; [done|].
  apply IH. by apply obj_set_Forall.
Qed.

Lemma list_max_map_le {A} (f : A → nat) l n : Forall (λ x, f x ≤ n) l → list_max (map f l) ≤ n.
Proof. induction 1; simpl; lia. Qed.

Lemma redact_value_go_depth left j : json_depth (redact_value_go left j) ≤ left.
Proof.
  revert j. induction left as [|left IH]; intros j; simpl; [lia|].
  destruct j as [| | | |l|o]; simpl; try lia.
  - apply le_n_S, list_max_map_le, Forall_forall. intros x (y & -> & _)%list_elem_of_fmap. apply IH.
  - apply le_n_S, list_max_map_le. apply (obj_of_Forall (λ v, json_depth v ≤ left)).
    apply Forall_forall. intros x ([k v] & -> & _)%list_elem_of_fmap. simpl.
    case_match; [simpl; lia|apply IH].
Qed.

Lemma redact_value_go_width left j : json_width 64 (redact_value_go left j) = true.
Proof.
  revert j. induction left as [|left IH]; intros j; [done|].
  destruct j as [| | | |l|o]; try done; cbn [redact_value_go json_width].
  - apply andb_true_iff; split; [apply Nat.leb_le; rewrite length_map, length_take; lia|].
    apply forallb_forall. intros x (y & <- & _)%in_map_iff. apply IH.
  - apply andb_true_iff; split.
    + apply Nat.leb_le. etrans; [apply obj_of_length|]. rewrite length_map, length_take. lia.
    + apply forallb_forall. intros x Hx%list_elem_of_In. revert x Hx. apply Forall_forall.
      apply (obj_of_Forall (λ v, json_width 64 v = true)), Forall_forall.
      intros x ([k v] & -> & _)%list_elem_of_fmap. simpl. case_match; [done|apply IH].
Qed.

Lemma obj_set_keys k v o (P : string → json → Prop) :
  P k v → Forall (λ kv, P kv.1 kv.2) o → Forall (λ kv, P kv.1 kv.2) (obj_set k v o).
Proof.
  intros Hv. induction 1 as [|[k' v'] o H Ho IH]; simpl; [by repeat constructor|].
  case_decide; subst; constructor; auto.
Qed.

(** ** Bounding

    The truncation marker starts with U+2026, outside the model's characters: a
    bounded text is what was kept and whether the marker follows it. *)

Record BoundedText := mkBounded { bt_kept : string; bt_cut : bool }.

(** [encoded[:max_bytes].decode("utf-8", errors="ignore")]: whole characters
    while the bytes last. *)
Fixpoint utf8_take (budget : nat) (s : string) : string :=
  match s with
  | EmptyString => EmptyString
  | String c s' =>
      let n := String.length (utf8_char c) in
      if n <=? budget then String c (utf8_take (budget - n) s') else EmptyString
  end.

Definition bound_text (value : string) (max_bytes : nat) : BoundedText :=
  if String.length (utf8 value) <=? max_bytes then mkBounded value false
  else mkBounded (utf8_take max_bytes value) true.

Definition redact_and_bound (value : string) (max_bytes : nat) : BoundedText :=
  bound_text (redact_text value) max_bytes.

(** A structured result, or the preview that replaces it. *)
Inductive BoundedOutput := Whole (j : json) | Preview (t : BoundedText).

Definition bound_output (output : json) (max_bytes : nat) : BoundedOutput * bool :=
  let redacted := redact_value output in
  let encoded := dumps redacted in
  if String.length (utf8 encoded) <=? max_bytes then (Whole redacted, false)
  else (Preview (redact_and_bound encoded (Nat.max (max_bytes - 64) 128)), true).

(** Bytes of the output as the same encoder writes it: the marker takes the six
    of the escape of U+2026 and eleven of its text. *)
Definition bounded_size (o : BoundedOutput) : nat :=
  match o with
  | Whole j => String.length (utf8 (dumps j))
  | Preview t => String.length (utf8 (dumps (JObj [("preview", JStr (bt_kept t))]))) + (if bt_cut t then 17 else 0)
  end.

Lemma utf8_cons c s : utf8 (String c s) = utf8_char c +:+ utf8 s.
Proof. done. Qed.

Lemma utf8_take_length budget s : String.length (utf8 (utf8_take budget s)) ≤ budget.
Proof.
  revert budget. induction s as [|c s IH]; intros budget; cbn [utf8_take]; [simpl; lia|].
  destruct (_ <=? budget) eqn:E; [|simpl; lia]. apply Nat.leb_le in E.
  rewrite utf8_cons, length_append. specialize (IH (budget - String.length (utf8_char c))). lia.
Qed.

Lemma bound_text_length v n : String.length (utf8 (bt_kept (bound_text v n))) ≤ n.
Proof.
  unfold bound_text. destruct (_ <=? n) eqn:E; simpl; [by apply Nat.leb_le|]. apply utf8_take_length.
Qed.

(** A character is escaped in at most six bytes, and takes at least one. *)
Lemma escape_length c : String.length (utf8 (escape c)) ≤ 6.
Proof. destruct c as [[] [] [] [] [] [] [] []]; apply Nat.leb_le; vm_compute; reflexivity. Qed.

Lemma utf8_char_length c : 1 ≤ String.length (utf8_char c).
Proof. destruct c as [[] [] [] [] [] [] [] []]; apply Nat.leb_le; vm_compute; reflexivity. Qed.

Lemma escape_all_length s : String.length (utf8 (escape_all s)) ≤ 6 * String.length (utf8 s).
Proof.
  induction s as [|c s IH]; [simpl; lia|]. cbn [escape_all]. rewrite utf8_append, utf8_cons, !length_append.
  assert (H1 := escape_length c). assert (H2 := utf8_char_length c). lia.
Qed.

(** So a preview is encoded in at most six times what it keeps. *)
Lemma preview_size t : bounded_size (Preview t) ≤ 6 * String.length (utf8 (bt_kept t)) + 31.
Proof.
  unfold bounded_size. generalize (bt_kept t). intros k.
  assert (E : dumps (JObj [("preview", JStr k)]) =
    ("{" +:+ quote "preview" +:+ ":" +:+ Json.one dq) +:+ escape_all k +:+ (Json.one dq +:+ "}")).
  { change (dumps (JObj [("preview", JStr k)])) with
      ("{" +:+ (quote "preview" +:+ ":" +:+ (Json.one dq +:+ (escape_all k +:+ Json.one dq))) +:+ "}").
    by rewrite !append_assoc. }
  rewrite E, !utf8_append, !length_append. assert (H := escape_all_length k).
  change (String.length (utf8 "{")) with 1. replace (String.length (utf8 (quote "preview"))) with 9 by (vm_compute; reflexivity).
  change (String.length (utf8 ":")) with 1. change (String.length (utf8 "}")) with 1.
  replace (String.length (utf8 (Json.one dq))) with 1 by (vm_compute; reflexivity). destruct (bt_cut t); lia.
Qed.

Lemma bound_output_cases j n :
  (bound_output j n = (Whole (redact_value j), false) ∧ String.length (utf8 (dumps (redact_value j))) ≤ n) ∨
  (bound_output j n = (Preview (redact_and_bound (dumps (redact_value j)) (Nat.max (n - 64) 128)), true) ∧
   n < String.length (utf8 (dumps (redact_value j)))).
Proof.
  unfold bound_output. destruct (_ <=? n) eqn:E; [left|right].
  - apply Nat.leb_le in E. by split.
  - apply Nat.leb_gt in E. by split.
Qed.

(** What the output bound guarantees and what it does not: a result that is
    not reported truncated is the redacted result and fits in the bound; a
    preview keeps at most the larger of 128 and the bound less 64 bytes of the
    encoded result, but is encoded once more as a string, and for some results
    that encoding exceeds the bound. *)
Theorem bound_output_bounds :
  (∀ j n, match bound_output j n with
          | (o, false) => o = Whole (redact_value j) ∧ bounded_size o ≤ n
          | (o, true) => ∃ t, o = Preview t ∧ String.length (utf8 (bt_kept t)) ≤ Nat.max (n - 64) 128
          end) ∧
  ∃ j, (bound_output j 256).2 = true ∧ 256 < bounded_size (bound_output j 256).1.
Proof.
  split.
  - intros j n. unfold bound_output. destruct (_ <=? n) eqn:E.
    + split; [done|]. by apply Nat.leb_le.
    + eexists. split; [done|]. apply bound_text_length.
  - exists (JObj [("k", JList (replicate 60 (JList [JStr ""; JStr ""])))]).
    split; [vm_compute; reflexivity|]. apply Nat.ltb_lt. vm_compute. reflexivity.
Qed.

(** Spot checks of the patterns against the behaviour of [re]. *)
Example redact_enrollment :
  redact_text "join with olynode_0a1b_s3cret now" = "join with [redacted] now".
Proof. vm_compute. reflexivity. Qed.

Example redact_assignment : redact_text "db password=hunter2; ok" = "db password=[redacted]; ok".
Proof. vm_compute. reflexivity. Qed.

Example redact_bearer : redact_text "Authorization: Bearer abcdefgh1234" = "Authorization: [redacted]]".
Proof. vm_compute. reflexivity. Qed.

Example redact_plain : redact_text "pass" = "pass" ∧ redact_text "compass=abc" = "compass=abc".
Proof. vm_compute. done. Qed.

Example redact_keys :
  redact_value (JObj [("Api-Key", JInt 7); ("n", JList [JStr "token: abcd"])])
  = JObj [("Api-Key", JStr "[redacted]"); ("n", JList [JStr "token: [redacted]"])].
Proof. vm_compute. reflexivity. Qed.
