(* ===== verification/PyPath.v ===== *)
(** Lexical paths: [pathlib.PurePosixPath] and [pathlib.PureWindowsPath]
    (CPython 3.13), as far as the scope checks use them.

    A path is its drive, its root and its tail of components. Parsing drops
    empty and [.] components and keeps [..]. The Windows functions follow
    [ntpath.splitroot] and [ntpath.join], including the treatment of a drive
    letter inside a later component. *)

From S2P Require Import Prelude.
From Stdlib Require Import Ascii.

Definition slash : ascii := ascii_of_nat 47.
Definition bslash : ascii := ascii_of_nat 92.
Definition colon : ascii := ascii_of_nat 58.
Definition chr (c : ascii) : string := String c EmptyString.

Record PurePath := mkPath { pp_drive : string; pp_root : string; pp_tail : list string }.

#[export] Instance PurePath_eq : EqDecision PurePath.
Proof. solve_decision. Defined.

Definition anchor (p : PurePath) : string := pp_drive p +:+ pp_root p.
Definition parts (p : PurePath) : list string :=
  if is_empty (anchor p) then pp_tail p else anchor p :: pp_tail p.
Definition path_name (p : PurePath) : string := default EmptyString (last (pp_tail p)).

(** [[x for x in rel.split(sep) if x and x != '.']] *)
Definition components (sep : ascii) (rel : string) : list string :=
  filter (λ x, x ≠ "" ∧ x ≠ ".") (split_char sep rel).

(** ** POSIX *)

Definition posix_root (s : string) : string * string :=
  if starts_with "//" s && negb (starts_with "///" s) then ("//", String.substring 2 (String.length s - 2) s)
  else if starts_with "/" s then ("/", String.substring 1 (String.length s - 1) s)
  else ("", s).

Definition parse_posix (s : string) : PurePath :=
  let '(root, rel) := posix_root s in mkPath "" root (components slash rel).

Definition is_absolute_posix (p : PurePath) : bool := negb (is_empty (pp_root p)).

Definition joinpath_posix (p : PurePath) (segs : list string) : PurePath :=
  foldl (λ q s, if starts_with "/" s then parse_posix s
                else mkPath (pp_drive q) (pp_root q) (pp_tail q ++ components slash s)) p segs.

(** ** Windows *)

Fixpoint fix_seps (s : string) : string :=
  match s with
  | EmptyString => EmptyString
  | String c s' => String (if bool_decide (c = slash) then bslash else c) (fix_seps s')
  end.

Definition nth_char (n : nat) (s : string) : option ascii := String.get n s.
Definition str_take (n : nat) (s : string) : string := String.substring 0 n s.
Definition str_drop (n : nat) (s : string) : string := String.substring n (String.length s - n) s.

(** [s.find(c, start)] *)
Fixpoint find_char (c : ascii) (s : string) (i start : nat) : option nat :=
  match s with
  | EmptyString => None
  | String d s' =>
      if bool_decide (d = c) && (start <=? i) then Some i else find_char c s' (S i) start
  end.

(** [ntpath.splitroot] on a string whose separators are already backslashes. *)
Definition nt_splitroot (s : string) : string * string * string :=
  if bool_decide (nth_char 0 s = Some bslash) then
    if bool_decide (nth_char 1 s = Some bslash) then
      let start := if bool_decide (lower (str_take 8 s) = chr bslash +:+ chr bslash +:+ "?" +:+ chr bslash +:+ "unc" +:+ chr bslash)
                   then 8 else 2 in
      match find_char bslash s 0 start with
      | None => (s, "", "")
      | Some i =>
          match find_char bslash s 0 (S i) with
          | None => (s, "", "")
          | Some j => (str_take j s, chr bslash, str_drop (S j) s)
          end
      end
    else ("", chr bslash, str_drop 1 s)
  else if bool_decide (nth_char 1 s = Some colon) then
    if bool_decide (nth_char 2 s = Some bslash) then (str_take 2 s, chr bslash, str_drop 3 s)
    else (str_take 2 s, "", str_drop 2 s)
  else ("", "", s).

Definition ends_with_char (c : ascii) (s : string) : bool :=
  match String.length s with O => false | S n => bool_decide (nth_char n s = Some c) end.

(** [PureWindowsPath._parse_path] *)
Definition parse_windows (raw : string) : PurePath :=
  let s := fix_seps raw in
  let '(drv, root, rel) := nt_splitroot s in
  let unc := bool_decide (root = "") && starts_with (chr bslash) drv && negb (ends_with_char bslash drv) in
  let dp := split_char bslash drv in
  let root' :=
    if unc && ((bool_decide (length dp = 4) &&
                 negb (match nth_error dp 2 with
                       | Some x => bool_decide (x ∈ [""; "?"; "."; "?."]) | None => false end))
               || bool_decide (length dp = 6))
    then chr bslash else root in
  mkPath drv root' (components bslash rel).

(** [ntpath.isabs(str(p))] *)
Definition is_absolute_windows (p : PurePath) : bool :=
  if is_empty (anchor p) then false
  else let s := anchor p +:+ String.concat (chr bslash) (pp_tail p) in
       bool_decide (nth_char 1 s = Some colon ∧ nth_char 2 s = Some bslash)
       || starts_with (chr bslash +:+ chr bslash) s.

(** [ntpath.join(path, *paths)] for arguments without forward slashes. *)
Definition nt_join_step (acc : string * string * string) (p : string) : string * string * string :=
  let '(rd, rr, rp) := acc in
  let '(pd, pr, pp) := nt_splitroot p in
  if negb (is_empty pr) then
    ((if negb (is_empty pd) || is_empty rd then pd else rd), pr, pp)
  else if negb (is_empty pd) && negb (bool_decide (lower pd = lower rd)) then (pd, pr, pp)
  else
    ((if is_empty pd then rd else pd), rr,
     (if negb (is_empty rp) && negb (ends_with_char bslash rp) then rp +:+ chr bslash else rp) +:+ pp).

Definition nt_join (path : string) (segs : list string) : string :=
  let '(rd, rr, rp) := foldl nt_join_step (nt_splitroot path) segs in
  if negb (is_empty rp) && is_empty rr && negb (is_empty rd)
     && negb (ends_with_char colon rd) && negb (ends_with_char bslash rd)
  then rd +:+ chr bslash +:+ rp
  else rd +:+ rr +:+ rp.

Definition joinpath_windows (p : PurePath) (segs : list string) : PurePath :=
  parse_windows (nt_join (anchor p +:+ String.concat (chr bslash) (pp_tail p)) segs).

(** Behaviour of the library on concrete paths. *)
Example parse_posix_ex :
  parts (parse_posix "//a/b") = ["//"; "a"; "b"] ∧ parts (parse_posix "///a/./b/") = ["/"; "a"; "b"].
Proof. vm_compute. done. Qed.

Example parse_windows_ex :
  parts (parse_windows "C:/a/./b//c") = ["C:\"; "a"; "b"; "c"]
  ∧ parts (parse_windows "\/server/share/x") = ["\\server\share\"; "x"]
  ∧ is_absolute_windows (parse_windows "\a") = false
  ∧ is_absolute_windows (parse_windows "C:a") = false.
Proof. vm_compute. done. Qed.

Example nt_join_ex :
  nt_join "C:\" ["data"; "C:.."; "secret"] = "C:\data\..\secret"
  ∧ nt_join "C:\" ["x"; "D:"; "f"] = "D:f"
  ∧ nt_join "c:\" ["x"; "C:y"; "f"] = "C:\x\y\f".
Proof. vm_compute. done. Qed.
