(* ===== verification/NodeModels.v ===== *)
(** The node-mesh vocabulary: enumerations, records, refusal reasons and the
    capability catalog (src/olympus/nodes/models.py, errors.py, capabilities.py,
    and [TrustLabel] of contracts/commands.py). *)

From S2P Require Import Prelude PyTime Json PyDict Redaction.

Open Scope Z_scope.

(** ** Enumerations *)

Inductive TrustLabel := CONTROL | USER_AUTHORIZED | MODEL_DERIVED | EXTERNAL_UNTRUSTED.
Inductive NodePlatform := LINUX | WINDOWS | MACOS | UNKNOWN.
Inductive NodeKind := CONTROL_PLANE_HOST | WORKSTATION | CLOUD_WORKER.
Inductive NodeState := ST_PENDING | ST_ONLINE | ST_OFFLINE | ST_QUARANTINED | ST_REVOKED.
Inductive NodeJobStatus :=
  | PENDING | DISPATCHED | RUNNING | SUCCEEDED | FAILED | CANCELLED | REJECTED | TIMED_OUT.

#[export] Instance TrustLabel_eq : EqDecision TrustLabel.
Proof. solve_decision. Defined.
#[export] Instance NodePlatform_eq : EqDecision NodePlatform.
Proof. solve_decision. Defined.
#[export] Instance NodeKind_eq : EqDecision NodeKind.
Proof. solve_decision. Defined.
#[export] Instance NodeState_eq : EqDecision NodeState.
Proof. solve_decision. Defined.
#[export] Instance NodeJobStatus_eq : EqDecision NodeJobStatus.
Proof. solve_decision. Defined.

Definition trust_value (t : TrustLabel) : string :=
  match t with
  | CONTROL => "control" | USER_AUTHORIZED => "user-authorized"
  | MODEL_DERIVED => "model-derived" | EXTERNAL_UNTRUSTED => "external-untrusted"
  end.

Definition platform_value (p : NodePlatform) : string :=
  match p with LINUX => "linux" | WINDOWS => "windows" | MACOS => "macos" | UNKNOWN => "unknown" end.

Definition status_value (s : NodeJobStatus) : string :=
  match s with
  | PENDING => "pending" | DISPATCHED => "dispatched" | RUNNING => "running"
  | SUCCEEDED => "succeeded" | FAILED => "failed" | CANCELLED => "cancelled"
  | REJECTED => "rejected" | TIMED_OUT => "timed-out"
  end.

(** [status in TERMINAL_JOB_STATUSES] *)
Definition terminal (s : NodeJobStatus) : bool :=
  match s with
  | SUCCEEDED | FAILED | CANCELLED | REJECTED | TIMED_OUT => true
  | PENDING | DISPATCHED | RUNNING => false
  end.

(** ** Refusals *)

Inductive NodeReason :=
  | ENROLLMENT_MALFORMED | ENROLLMENT_UNKNOWN | ENROLLMENT_CREDENTIAL_MISMATCH
  | ENROLLMENT_EXPIRED | ENROLLMENT_CONSUMED | ENROLLMENT_REVOKED
  | ENROLLMENT_SCOPE_MISMATCH | ENROLLMENT_KEY_INVALID | ENROLLMENT_DESCRIPTION_INVALID
  | NODE_UNKNOWN | NODE_REVOKED | NODE_QUARANTINED | NODE_OFFLINE
  | NODE_SESSION_REPLACED | NODE_HEARTBEAT_EXPIRED
  | PROTOCOL_VERSION_UNSUPPORTED | HANDSHAKE_FRAME_UNEXPECTED | HANDSHAKE_MALFORMED
  | HANDSHAKE_TIMEOUT | NODE_PROOF_INVALID | SERVER_PROOF_INVALID | NONCE_INVALID | SESSION_CLOSED
  | CAPABILITY_UNKNOWN | CAPABILITY_RESERVED | CAPABILITY_NOT_GRANTED
  | CAPABILITY_NOT_DECLARED | CAPABILITY_PARAMETERS_INVALID
  | DISPATCH_FROZEN | DISPATCH_NO_ELIGIBLE_NODE | DISPATCH_CONCURRENCY_EXCEEDED | DISPATCH_DUPLICATE
  | JOB_UNKNOWN | JOB_CANCELLED | JOB_DEADLINE_EXCEEDED | JOB_FAILED | JOB_OUTPUT_TOO_LARGE
  | FRAME_TOO_LARGE | FRAME_MALFORMED | FRAME_UNEXPECTED
  | FREEZE_EPOCH_MISMATCH | NOT_FROZEN | UNAUTHORIZED.

#[export] Instance NodeReason_eq : EqDecision NodeReason.
Proof. solve_decision. Defined.

Definition reason_value (r : NodeReason) : string :=
  match r with
  | ENROLLMENT_MALFORMED => "enrollment-token-malformed"
  | ENROLLMENT_UNKNOWN => "enrollment-token-unknown"
  | ENROLLMENT_CREDENTIAL_MISMATCH => "enrollment-token-secret-mismatch"
  | ENROLLMENT_EXPIRED => "enrollment-token-expired"
  | ENROLLMENT_CONSUMED => "enrollment-token-consumed"
  | ENROLLMENT_REVOKED => "enrollment-token-revoked"
  | ENROLLMENT_SCOPE_MISMATCH => "enrollment-scope-mismatch"
  | ENROLLMENT_KEY_INVALID => "enrollment-key-invalid"
  | ENROLLMENT_DESCRIPTION_INVALID => "enrollment-description-invalid"
  | NODE_UNKNOWN => "node-unknown"
  | NODE_REVOKED => "node-revoked"
  | NODE_QUARANTINED => "node-quarantined"
  | NODE_OFFLINE => "node-offline"
  | NODE_SESSION_REPLACED => "node-session-replaced"
  | NODE_HEARTBEAT_EXPIRED => "node-heartbeat-expired"
  | PROTOCOL_VERSION_UNSUPPORTED => "protocol-version-unsupported"
  | HANDSHAKE_FRAME_UNEXPECTED => "handshake-frame-unexpected"
  | HANDSHAKE_MALFORMED => "handshake-malformed"
  | HANDSHAKE_TIMEOUT => "handshake-timeout"
  | NODE_PROOF_INVALID => "node-proof-invalid"
  | SERVER_PROOF_INVALID => "server-proof-invalid"
  | NONCE_INVALID => "nonce-invalid"
  | SESSION_CLOSED => "session-closed"
  | CAPABILITY_UNKNOWN => "capability-unknown"
  | CAPABILITY_RESERVED => "capability-reserved"
  | CAPABILITY_NOT_GRANTED => "capability-not-granted"
  | CAPABILITY_NOT_DECLARED => "capability-not-declared"
  | CAPABILITY_PARAMETERS_INVALID => "capability-parameters-invalid"
  | DISPATCH_FROZEN => "dispatch-frozen"
  | DISPATCH_NO_ELIGIBLE_NODE => "dispatch-no-eligible-node"
  | DISPATCH_CONCURRENCY_EXCEEDED => "dispatch-concurrency-exceeded"
  | DISPATCH_DUPLICATE => "dispatch-duplicate"
  | JOB_UNKNOWN => "job-unknown"
  | JOB_CANCELLED => "job-cancelled"
  | JOB_DEADLINE_EXCEEDED => "job-deadline-exceeded"
  | JOB_FAILED => "job-failed"
  | JOB_OUTPUT_TOO_LARGE => "job-output-too-large"
  | FRAME_TOO_LARGE => "frame-too-large"
  | FRAME_MALFORMED => "frame-malformed"
  | FRAME_UNEXPECTED => "frame-unexpected"
  | FREEZE_EPOCH_MISMATCH => "freeze-epoch-mismatch"
  | NOT_FROZEN => "not-frozen"
  | UNAUTHORIZED => "unauthorized"
  end.

(** [is_permanent_refusal] *)
Definition is_permanent_refusal (r : NodeReason) : bool :=
  match r with
  | CAPABILITY_UNKNOWN | CAPABILITY_RESERVED | CAPABILITY_NOT_GRANTED | NODE_UNKNOWN
  | NODE_REVOKED | DISPATCH_FROZEN | UNAUTHORIZED => true
  | _ => false
  end.

(** What a mesh operation can raise: [NodeMeshError] (of which [ScopeError] is
    a subclass), [ValueError] from a record constructor, the [ApprovalDenied]
    of the injected approval verifier, which is not a [NodeMeshError], and the
    [ChannelClosed] and [TimeoutError] a session's waits end with. A [NodeMeshError] is its reason; texts built from data are
    abbreviated to their fixed part. *)
Inductive exn :=
  | NodeMeshError (r : NodeReason)
  | ValueError (msg : string)
  | ApprovalDenied (msg : string)
  | ChannelClosed
  | TimeoutError.

#[export] Instance exn_eq : EqDecision exn.
Proof. solve_decision. Defined.

(** ** Records *)

Record DispatchAuthority := mkAuthority {
  da_commander_id : string;
  da_authority_lease_id : string;
  da_authority_epoch : option Z }.

(** [DispatchAuthority.__post_init__] *)
Definition make_authority (commander lease : string) (epoch : option Z) : result exn DispatchAuthority :=
  ensure (negb (is_blank commander || is_blank lease))
    (ValueError "dispatch authority contains empty fields");;
  ensure (match epoch with Some e => 1 <=? e | None => true end)
    (ValueError "authority_epoch must be strictly positive");;
  Ok (mkAuthority commander lease epoch).

(** Self-reported health; the load average, a float nothing computes with, is
    carried in thousandths. *)
Record NodeHealthSnapshot := mkHealth {
  h_reported_at : datetime;
  h_active_jobs : Z;
  h_cpu_count : option Z;
  h_load_average_1m : option Z;
  h_memory_total_mib : option Z;
  h_memory_available_mib : option Z;
  h_uptime_seconds : option Z;
  h_agent_uptime_seconds : option Z }.

(** [NodeHealthSnapshot.__post_init__] *)
Definition make_health (h : NodeHealthSnapshot) : result exn NodeHealthSnapshot :=
  ensure (0 <=? h_active_jobs h) (ValueError "active_jobs must not be negative");;
  Ok h.

(** Scopes bound to a grant, as stored: capability and canonical JSON. *)
Definition scope_pairs : Type := list (string * string).

Record EnrollmentTokenRecord := mkToken {
  t_token_id : string;
  t_secret_hash : string;
  t_node_name : string;
  t_kind : NodeKind;
  t_platform : NodePlatform;
  t_granted : list string;
  t_issued_at : datetime;
  t_expires_at : datetime;
  t_issued_by : string;
  t_scopes : scope_pairs;
  t_consumed_at : option datetime;
  t_consumed_by : option string;
  t_revoked_at : option datetime }.

(** [EnrollmentTokenRecord.__post_init__] *)
Definition make_token (t : EnrollmentTokenRecord) : result exn EnrollmentTokenRecord :=
  ensure (t_issued_at t <? t_expires_at t) (ValueError "expires_at must be after issued_at");;
  ensure (negb (is_blank (t_node_name t))) (ValueError "node_name must not be empty");;
  ensure (str_len (t_secret_hash t) =? 64) (ValueError "secret_hash must be a SHA-256 hex digest");;
  Ok t.

Definition is_some {A} (o : option A) : bool := match o with Some _ => true | None => false end.
Definition consumed_token (t : EnrollmentTokenRecord) : bool := is_some (t_consumed_at t).
Definition revoked_token (t : EnrollmentTokenRecord) : bool := is_some (t_revoked_at t).

Definition token_revoke (t : EnrollmentTokenRecord) (now : datetime) : EnrollmentTokenRecord :=
  mkToken (t_token_id t) (t_secret_hash t) (t_node_name t) (t_kind t) (t_platform t) (t_granted t)
    (t_issued_at t) (t_expires_at t) (t_issued_by t) (t_scopes t)
    (t_consumed_at t) (t_consumed_by t) (Some now).

Definition token_consume (t : EnrollmentTokenRecord) (now : datetime) (node_id : string) :
    EnrollmentTokenRecord :=
  mkToken (t_token_id t) (t_secret_hash t) (t_node_name t) (t_kind t) (t_platform t) (t_granted t)
    (t_issued_at t) (t_expires_at t) (t_issued_by t) (t_scopes t)
    (Some now) (Some node_id) (t_revoked_at t).

Record NodeRecord := mkNode {
  n_node_id : string;
  n_node_name : string;
  n_kind : NodeKind;
  n_platform : NodePlatform;
  n_architecture : string;
  n_agent_version : string;
  n_public_key : string;
  n_granted : list string;
  n_enrolled_at : datetime;
  n_enrollment_token_id : string;
  n_scopes : scope_pairs;
  n_declared : list string;
  n_labels : list (string * string);
  n_session_id : option string;
  n_session_started_at : option datetime;
  n_last_heartbeat_at : option datetime;
  n_last_health : option NodeHealthSnapshot;
  n_quarantined_at : option datetime;
  n_quarantine_reason : string;
  n_revoked_at : option datetime;
  n_revocation_reason : string }.

(** [NodeRecord.__post_init__] *)
Definition make_node (n : NodeRecord) : result exn NodeRecord :=
  ensure (negb (is_blank (n_node_id n))) (ValueError "node_id must not be empty");;
  ensure (negb (is_blank (n_public_key n))) (ValueError "public_key must not be empty");;
  Ok n.

Definition connected (n : NodeRecord) : bool := is_some (n_session_id n).

(** [dataclasses.replace] on the fields each registry operation changes. *)
Definition node_attach (n : NodeRecord) (sid : string) (now : datetime)
    (version arch : string) (declared : list string) : NodeRecord :=
  mkNode (n_node_id n) (n_node_name n) (n_kind n) (n_platform n) arch version (n_public_key n)
    (n_granted n) (n_enrolled_at n) (n_enrollment_token_id n) (n_scopes n) declared (n_labels n)
    (Some sid) (Some now) (Some now) (n_last_health n) (n_quarantined_at n) (n_quarantine_reason n)
    (n_revoked_at n) (n_revocation_reason n).

Definition node_detach (n : NodeRecord) : NodeRecord :=
  mkNode (n_node_id n) (n_node_name n) (n_kind n) (n_platform n) (n_architecture n)
    (n_agent_version n) (n_public_key n) (n_granted n) (n_enrolled_at n) (n_enrollment_token_id n)
    (n_scopes n) (n_declared n) (n_labels n) None None (n_last_heartbeat_at n) (n_last_health n)
    (n_quarantined_at n) (n_quarantine_reason n) (n_revoked_at n) (n_revocation_reason n).

Definition node_heartbeat (n : NodeRecord) (h : NodeHealthSnapshot) : NodeRecord :=
  mkNode (n_node_id n) (n_node_name n) (n_kind n) (n_platform n) (n_architecture n)
    (n_agent_version n) (n_public_key n) (n_granted n) (n_enrolled_at n) (n_enrollment_token_id n)
    (n_scopes n) (n_declared n) (n_labels n) (n_session_id n) (n_session_started_at n)
    (Some (h_reported_at h)) (Some h) (n_quarantined_at n) (n_quarantine_reason n)
    (n_revoked_at n) (n_revocation_reason n).

Definition node_set_quarantine (n : NodeRecord) (at_ : option datetime) (reason : string) : NodeRecord :=
  mkNode (n_node_id n) (n_node_name n) (n_kind n) (n_platform n) (n_architecture n)
    (n_agent_version n) (n_public_key n) (n_granted n) (n_enrolled_at n) (n_enrollment_token_id n)
    (n_scopes n) (n_declared n) (n_labels n) (n_session_id n) (n_session_started_at n)
    (n_last_heartbeat_at n) (n_last_health n) at_ reason (n_revoked_at n) (n_revocation_reason n).

Definition node_set_revoked (n : NodeRecord) (at_ : datetime) (reason : string) : NodeRecord :=
  mkNode (n_node_id n) (n_node_name n) (n_kind n) (n_platform n) (n_architecture n)
    (n_agent_version n) (n_public_key n) (n_granted n) (n_enrolled_at n) (n_enrollment_token_id n)
    (n_scopes n) (n_declared n) (n_labels n) None None (n_last_heartbeat_at n) (n_last_health n)
    (n_quarantined_at n) (n_quarantine_reason n) (Some at_) reason.

Record DispatchControlState := mkControl {
  c_frozen : bool;
  c_freeze_epoch : Z;
  c_changed_at : option datetime;
  c_reason : string }.

(** [DispatchControlState.__post_init__]: it holds in every reachable mesh,
    where the epoch only grows from zero. *)
Definition make_control (c : DispatchControlState) : result exn DispatchControlState :=
  ensure (0 <=? c_freeze_epoch c) (ValueError "freeze_epoch must not be negative");;
  Ok c.

Definition default_control : DispatchControlState := mkControl false 0 None "".

Record NodeJobRecord := mkJob {
  j_job_id : string;
  j_node_id : string;
  j_capability : string;
  j_dedupe_key : string;
  j_status : NodeJobStatus;
  j_attempt : Z;
  j_authority : DispatchAuthority;
  j_created_at : datetime;
  j_updated_at : datetime;
  j_progress_events : Z;
  j_last_message : string;
  j_reason : string }.

(** [NodeJobRecord.__post_init__] *)
Definition make_job (j : NodeJobRecord) : result exn NodeJobRecord :=
  ensure (1 <=? j_attempt j) (ValueError "attempt must be strictly positive");;
  Ok j.

(** The fields [replace] changes in [_update] and in restart recovery. *)
Definition job_set (j : NodeJobRecord) (status : NodeJobStatus) (reason message : string)
    (progress : Z) (now : datetime) : NodeJobRecord :=
  mkJob (j_job_id j) (j_node_id j) (j_capability j) (j_dedupe_key j) status (j_attempt j)
    (j_authority j) (j_created_at j) now progress message reason.

Record NodeJobOutcome := mkOutcome {
  o_job_id : string;
  o_node_id : string;
  o_capability : string;
  o_dedupe_key : string;
  o_status : NodeJobStatus;
  o_attempt : Z;
  o_output : BoundedOutput;
  o_output_truncated : bool;
  o_output_redacted : bool;
  o_artifact_ids : list string;
  o_reason : string;
  o_message : string;
  o_replayed : bool;
  o_trust_label : TrustLabel }.

(** [NodeJobOutcome.__post_init__] *)
Definition make_outcome (o : NodeJobOutcome) : result exn NodeJobOutcome :=
  ensure (1 <=? o_attempt o) (ValueError "attempt must be strictly positive");;
  ensure (negb (bool_decide (o_trust_label o = CONTROL)))
    (ValueError "node output may never carry the control trust label");;
  Ok o.

(** ** The capability catalog *)

Inductive CapabilityStatus := ENABLED | RESERVED.
Inductive CapabilityRisk := OBSERVE | MUTATE_LOCAL | MUTATE_EXTERNAL | PRIVILEGED.

#[export] Instance CapabilityStatus_eq : EqDecision CapabilityStatus.
Proof. solve_decision. Defined.

(** [CapabilityDescriptor], without its display texts; the version is part of
    the name, the variable cost is in cents and zero for every entry. *)
Record CapabilityDescriptor := mkCap {
  cap_name : string;
  cap_status : CapabilityStatus;
  cap_risk : CapabilityRisk;
  cap_mutating : bool;
  cap_requires_approval : bool;
  cap_output_trust_label : TrustLabel;
  cap_max_runtime_seconds : Z;
  cap_max_output_bytes : Z;
  cap_max_artifacts : Z;
  cap_max_artifact_bytes : Z;
  cap_variable_cost_usd : string }.

(** [_descriptor], with its defaults for runtime and output. *)
Definition descriptor (name : string) (st : CapabilityStatus) (risk : CapabilityRisk)
    (mutating approval : bool) (runtime output : Z) : CapabilityDescriptor :=
  mkCap name st risk mutating approval EXTERNAL_UNTRUSTED runtime output 0 0 "0.00".

Definition SYSTEM_INSPECT := descriptor "system.inspect@1" ENABLED OBSERVE false false 15 16384.
Definition CAP_FILE_READ := descriptor "fs.read@1" ENABLED OBSERVE false false 30 200000.
Definition CAP_FILE_LIST := descriptor "fs.list@1" ENABLED OBSERVE false false 15 131072.
Definition CAP_FILE_WRITE := descriptor "fs.write@1" ENABLED MUTATE_LOCAL true true 30 16384.

Definition RESERVED_CAPS : list CapabilityDescriptor := [
  descriptor "shell.powershell@1" RESERVED PRIVILEGED true true 60 65536;
  descriptor "agent.claude@1" RESERVED MUTATE_LOCAL true true 60 65536;
  descriptor "agent.codex@1" RESERVED MUTATE_LOCAL true true 60 65536;
  descriptor "browser.session@1" RESERVED MUTATE_EXTERNAL true true 60 65536;
  descriptor "desktop.stream@1" RESERVED OBSERVE false true 60 65536;
  descriptor "desktop.takeover@1" RESERVED PRIVILEGED true true 60 65536].

Definition CAPABILITY_CATALOG : dict string CapabilityDescriptor :=
  map (λ d, (cap_name d, d))
    ([SYSTEM_INSPECT; CAP_FILE_READ; CAP_FILE_LIST; CAP_FILE_WRITE] ++ RESERVED_CAPS).

Definition ENABLED_CAPABILITIES : list string :=
  sorted (map fst (filter (λ nd, cap_status nd.2 = ENABLED) CAPABILITY_CATALOG)).

Definition describe_capability (name : string) : result exn CapabilityDescriptor :=
  require_some (dget name CAPABILITY_CATALOG) (NodeMeshError CAPABILITY_UNKNOWN).

Definition require_dispatchable_capability (name : string) : result exn CapabilityDescriptor :=
  d ← describe_capability name;
  ensure (bool_decide (cap_status d = ENABLED)) (NodeMeshError CAPABILITY_RESERVED);;
  Ok d.

(** [_is_dispatchable] *)
Definition is_dispatchable (name : string) : bool := is_ok (require_dispatchable_capability name).

(** The set of known names, sorted; unknown names are dropped. *)
Definition normalize_capability_names (names : list string) : list string :=
  sorted_set (filter (λ n, dmem n CAPABILITY_CATALOG = true) names).

(** ** Facts about the catalog *)

Lemma catalog_elem name d : dget name CAPABILITY_CATALOG = Some d → d ∈ dvalues CAPABILITY_CATALOG.
Proof. apply dget_value. Qed.

Lemma catalog_forall (P : CapabilityDescriptor → Prop) name d :
  Forall P (dvalues CAPABILITY_CATALOG) → dget name CAPABILITY_CATALOG = Some d → P d.
Proof. intros HP Hd%catalog_elem. rewrite Forall_forall in HP. auto. Qed.

Lemma catalog_approval name d :
  dget name CAPABILITY_CATALOG = Some d → cap_mutating d = true → cap_requires_approval d = true.
Proof.
  apply (catalog_forall (λ d, cap_mutating d = true → cap_requires_approval d = true)).
  by repeat (constructor; [done|]).
Qed.

Lemma catalog_trust name d :
  dget name CAPABILITY_CATALOG = Some d → cap_output_trust_label d = EXTERNAL_UNTRUSTED.
Proof.
  apply (catalog_forall (λ d, cap_output_trust_label d = EXTERNAL_UNTRUSTED)).
  by repeat (constructor; [done|]).
Qed.

Lemma dispatchable_iff name : is_dispatchable name = true ↔
  name = "system.inspect@1" ∨ name = "fs.read@1" ∨ name = "fs.list@1" ∨ name = "fs.write@1".
Proof.
  split; [|by intros [->|[->|[->| ->]]]].
  unfold is_dispatchable, require_dispatchable_capability, describe_capability.
  destruct (dget name CAPABILITY_CATALOG) as [d|] eqn:E; [|done]. simpl.
  apply dget_Some_elem in E. revert E. unfold CAPABILITY_CATALOG. simpl.
  rewrite !elem_of_cons. intros E.
  do 10 (destruct E as [E|E]; [simplify_eq; by auto|]).
  by apply not_elem_of_nil in E.
Qed.

Lemma elem_of_normalize x names :
  x ∈ normalize_capability_names names ↔ x ∈ names ∧ dmem x CAPABILITY_CATALOG = true.
Proof. unfold normalize_capability_names. rewrite elem_of_sorted_set, list_elem_of_filter. tauto. Qed.
