(* ===== verification/NodeScopes.v ===== *)
(** Capability scopes (src/olympus/nodes/scopes.py): lexical path
    normalization, containment, read and write scopes, the scope check of a
    dispatch and the digest an approval for a write must carry. *)

From S2P Require Import Prelude PyDict Json Sha256 PyPath NodeModels.
From Stdlib Require Import Ascii.
From stdpp Require Import pretty.

Open Scope Z_scope.

Definition FILE_READ : string := "fs.read@1".
Definition FILE_LIST : string := "fs.list@1".
Definition FILE_WRITE : string := "fs.write@1".
Definition MAX_FILE_READ_BYTES : Z := 200000.
Definition MAX_FILE_WRITE_BYTES : Z := 262144.

(** [ScopeError(CAPABILITY_PARAMETERS_INVALID, ...)], [ScopeError(CAPABILITY_NOT_GRANTED, ...)] *)
Definition bad_parameters : exn := NodeMeshError CAPABILITY_PARAMETERS_INVALID.
Definition not_granted : exn := NodeMeshError CAPABILITY_NOT_GRANTED.

Definition WINDOWS_DEVICE_NAMES : list string :=
  ["con"; "prn"; "aux"; "nul"; "com1"; "com2"; "com3"; "com4"; "com5"; "com6"; "com7"; "com8"; "com9";
   "lpt1"; "lpt2"; "lpt3"; "lpt4"; "lpt5"; "lpt6"; "lpt7"; "lpt8"; "lpt9"].

Definition is_windows (p : NodePlatform) : bool := bool_decide (p = WINDOWS).
Definition pure (p : NodePlatform) (s : string) : PurePath :=
  if is_windows p then parse_windows s else parse_posix s.
Definition is_absolute (p : NodePlatform) (q : PurePath) : bool :=
  if is_windows p then is_absolute_windows q else is_absolute_posix q.
Definition joinpath (p : NodePlatform) (q : PurePath) (segs : list string) : PurePath :=
  if is_windows p then joinpath_windows q segs else joinpath_posix q segs.

(** [part.split(".", 1)[0].strip().lower() in _WINDOWS_DEVICE_NAMES] *)
Definition is_device (part : string) : bool :=
  bool_decide (lower (strip (default "" (head (split_char_n "." 1 part)))) ∈ WINDOWS_DEVICE_NAMES).

(** The loop that resolves [.] and [..]; [resolved] is the stack, last
    component first. *)
Fixpoint resolve_parts (p : NodePlatform) (resolved todo : list string) : result exn (list string) :=
  match todo with
  | [] => Ok (rev resolved)
  | part :: todo' =>
      if bool_decide (part = "" ∨ part = ".") then resolve_parts p resolved todo'
      else if bool_decide (part = "..") then
        match resolved with
        | [] => Err bad_parameters
        | _ :: resolved' => resolve_parts p resolved' todo'
        end
      else if is_windows p && is_device part then Err bad_parameters
      else resolve_parts p (part :: resolved) todo'
  end.

Definition normalize_path (raw : string) (platform : NodePlatform) : result exn PurePath :=
  ensure (negb (is_blank raw)) bad_parameters;;
  ensure (negb (str_has "000" raw)) bad_parameters;;
  let candidate := pure platform raw in
  ensure (is_absolute platform candidate) bad_parameters;;
  ensure (negb (is_windows platform &&
    (starts_with (chr bslash +:+ chr bslash) raw || starts_with "//" raw))) bad_parameters;;
  ensure (negb (is_windows platform && str_has colon (path_name candidate))) bad_parameters;;
  resolved ← resolve_parts platform []
    (if is_empty (anchor candidate) then parts candidate else tail (parts candidate));
  Ok (joinpath platform (pure platform (anchor candidate)) resolved).

Definition is_within (root candidate : PurePath) (platform : NodePlatform) : bool :=
  let fold l := if is_windows platform then map lower l else l in
  let rp := fold (parts root) in
  let cp := fold (parts candidate) in
  if (length cp <? length rp)%nat then false
  else bool_decide (take (length rp) cp = rp).

(** ** Scopes *)

Record FileReadScope := mkRead { rs_roots : list string; rs_max_bytes : Z; rs_platform : NodePlatform }.
Record FileWriteScope := mkWrite {
  ws_roots : list string; ws_max_bytes : Z; ws_allow_overwrite : bool; ws_platform : NodePlatform }.

Inductive Scope := ReadScope (s : FileReadScope) | WriteScope (s : FileWriteScope).

(** The loop over roots shared by both [__post_init__]s. *)
Definition check_root (platform : NodePlatform) (root : string) : result exn () :=
  n ← normalize_path root platform;
  ensure (1 <? Z.of_nat (length (parts n))) bad_parameters.

Definition read_scope (roots : list string) (max_bytes : Z) (platform : NodePlatform) :
    result exn FileReadScope :=
  ensure (negb (bool_decide (roots = []))) bad_parameters;;
  ensure (negb ((max_bytes <? 1) || (MAX_FILE_READ_BYTES <? max_bytes))) bad_parameters;;
  mapM_r (check_root platform) roots;;
  Ok (mkRead roots max_bytes platform).

Definition write_scope (roots : list string) (max_bytes : Z) (overwrite : bool) (platform : NodePlatform) :
    result exn FileWriteScope :=
  ensure (negb (bool_decide (roots = []))) bad_parameters;;
  ensure (negb ((max_bytes <? 1) || (MAX_FILE_WRITE_BYTES <? max_bytes))) bad_parameters;;
  mapM_r (check_root platform) roots;;
  Ok (mkWrite roots max_bytes overwrite platform).

Definition normalized_roots (roots : list string) (platform : NodePlatform) : result exn (list PurePath) :=
  mapM_r (λ r, normalize_path r platform) roots.

(** The first root containing the candidate. *)
Fixpoint first_root (roots : list PurePath) (c : PurePath) (platform : NodePlatform) : option PurePath :=
  match roots with
  | [] => None
  | r :: roots' => if is_within r c platform then Some r else first_root roots' c platform
  end.

(** [FileReadScope.resolve] *)
Definition resolve_read (s : FileReadScope) (raw_path : string) : result exn PurePath :=
  candidate ← normalize_path raw_path (rs_platform s);
  roots ← normalized_roots (rs_roots s) (rs_platform s);
  require_some (first_root roots candidate (rs_platform s)) not_granted;;
  Ok candidate.

(** [FileWriteScope.resolve] *)
Definition resolve_write (s : FileWriteScope) (raw_path : string) : result exn PurePath :=
  candidate ← normalize_path raw_path (ws_platform s);
  roots ← normalized_roots (ws_roots s) (ws_platform s);
  root ← require_some (first_root roots candidate (ws_platform s)) not_granted;
  ensure (negb (bool_decide (parts candidate = parts root))) bad_parameters;;
  Ok candidate.

Definition resolve (s : Scope) (raw_path : string) : result exn PurePath :=
  match s with ReadScope r => resolve_read r raw_path | WriteScope w => resolve_write w raw_path end.
Definition scope_max_bytes (s : Scope) : Z :=
  match s with ReadScope r => rs_max_bytes r | WriteScope w => ws_max_bytes w end.

(** ** Mappings *)

(** [int(s)] for a string: blanks around, a sign, digits with single
    underscores between them. *)
Fixpoint parse_digits (acc : Z) (after_digit : bool) (s : string) : option Z :=
  match s with
  | EmptyString => if after_digit then Some acc else None
  | String c s' =>
      if (48 <=? ord c)%nat && (ord c <=? 57)%nat
      then parse_digits (10 * acc + Z.of_nat (ord c - 48)) true s'
      else if bool_decide (c = "_"%char) && after_digit && negb (is_empty s')
      then parse_digits acc false s' else None
  end.
Definition parse_int (s0 : string) : option Z :=
  match strip s0 with
  | String "+" s => parse_digits 0 false s
  | String "-" s => Z.opp <$> parse_digits 0 false s
  | s => parse_digits 0 false s
  end.

(** [int(v)]; [None] stands for the [TypeError] or [ValueError] it raises. *)
Definition py_int (v : json) : option Z :=
  match v with
  | JInt z => Some z
  | JBool b => Some (if b then 1 else 0)
  | JStr s => parse_int s
  | _ => None
  end.

(** [str(v)] of a JSON value. Of the repr of a container only the opening
    bracket is kept: no such string is an absolute path or a write mode. *)
Definition py_str (v : json) : string :=
  match v with
  | JStr s => s
  | JInt z => pretty z
  | JBool b => if b then "True" else "False"
  | JNull => "None"
  | JList _ => "["
  | JObj _ => "{"
  end.

(** [bool(v)] *)
Definition truthy (v : json) : bool :=
  match v with
  | JNull => false
  | JBool b => b
  | JInt z => negb (z =? 0)
  | JStr s => negb (is_empty s)
  | JList l => negb (bool_decide (l = []))
  | JObj o => negb (bool_decide (o = []))
  end.

Definition obj := dict string json.

(** [to_mapping] and [from_mapping] *)
Definition read_to_mapping (s : FileReadScope) : obj :=
  [("roots", JList (map JStr (rs_roots s))); ("max_bytes", JInt (rs_max_bytes s))].

Definition write_to_mapping (s : FileWriteScope) : obj :=
  [("roots", JList (map JStr (ws_roots s))); ("max_bytes", JInt (ws_max_bytes s));
   ("allow_overwrite", JBool (ws_allow_overwrite s))].

Definition roots_of (payload : obj) : result exn (list string) :=
  match dget "roots" payload with
  | Some (JList (r :: rs)) => Ok (map py_str (r :: rs))
  | _ => Err bad_parameters
  end.

Definition read_from_mapping (payload : obj) (platform : NodePlatform) : result exn FileReadScope :=
  roots ← roots_of payload;
  max_bytes ← require_some (py_int (default (JInt MAX_FILE_READ_BYTES) (dget "max_bytes" payload))) bad_parameters;
  read_scope roots max_bytes platform.

Definition write_from_mapping (payload : obj) (platform : NodePlatform) : result exn FileWriteScope :=
  roots ← roots_of payload;
  max_bytes ← require_some (py_int (default (JInt MAX_FILE_WRITE_BYTES) (dget "max_bytes" payload))) bad_parameters;
  write_scope roots max_bytes (truthy (default (JBool false) (dget "allow_overwrite" payload))) platform.

(** [builder = FileWriteScope if capability == FILE_WRITE else FileReadScope] *)
Definition build_scope (capability : string) (payload : obj) (platform : NodePlatform) : result exn Scope :=
  if bool_decide (capability = FILE_WRITE)
  then WriteScope <$> write_from_mapping payload platform
  else ReadScope <$> read_from_mapping payload platform.

Definition scope_to_mapping (s : Scope) : obj :=
  match s with ReadScope r => read_to_mapping r | WriteScope w => write_to_mapping w end.

(** [capability in (FILE_READ, FILE_LIST, FILE_WRITE)] *)
Definition requires_scope (capability : string) : bool :=
  bool_decide (capability ∈ [FILE_READ; FILE_LIST; FILE_WRITE]).

Fixpoint parse_scopes_go (payload : dict string json) (platform : NodePlatform) (acc : dict string Scope) :
    result exn (dict string Scope) :=
  match payload with
  | [] => Ok acc
  | (capability, raw) :: payload' =>
      if requires_scope capability then
        match raw with
        | JObj o => s ← build_scope capability o platform;
                    parse_scopes_go payload' platform (dset capability s acc)
        | _ => Err bad_parameters
        end
      else parse_scopes_go payload' platform acc
  end.
Definition parse_scopes (payload : dict string json) (platform : NodePlatform) : result exn (dict string Scope) :=
  parse_scopes_go payload platform [].

Definition assert_scoped_dispatch (capability : string) (scopes : dict string Scope) (parameters : obj) :
    result exn () :=
  if negb (requires_scope capability) then Ok () else
  scope ← require_some (dget capability scopes) not_granted;
  match dget "path" parameters with
  | Some (JStr raw_path) =>
      resolve scope raw_path;;
      match dget "max_bytes" parameters with
      | None | Some JNull => Ok ()
      | Some requested =>
          value ← require_some (py_int requested) bad_parameters;
          ensure (negb ((value <? 1) || (scope_max_bytes scope <? value))) bad_parameters
      end
  | _ => Err bad_parameters
  end.

(** ** The digest a write approval carries *)

Inductive WriteMode := CREATE | OVERWRITE.
Definition mode_value (m : WriteMode) : string :=
  match m with CREATE => "create" | OVERWRITE => "overwrite" end.
Definition write_mode (s : string) : option WriteMode :=
  if bool_decide (s = "create") then Some CREATE
  else if bool_decide (s = "overwrite") then Some OVERWRITE else None.

(** The canonical body of the digest. *)
Definition write_action (node_id path content_sha256 : string) (content_length : Z) (mode : WriteMode) : json :=
  JObj [("capability", JStr FILE_WRITE); ("content_length", JInt content_length);
        ("content_sha256", JStr (lower content_sha256)); ("mode", JStr (mode_value mode));
        ("node_id", JStr node_id); ("path", JStr path)].

Definition file_write_action_digest (node_id path content_sha256 : string) (content_length : Z)
    (mode : WriteMode) : result exn string :=
  ensure (str_len content_sha256 =? 64) bad_parameters;;
  Ok (sha256_hex (utf8 (dumps (write_action node_id path content_sha256 content_length mode)))).

(** Read from the catalog. *)
Definition requires_approval (capability : string) : bool :=
  match dget capability CAPABILITY_CATALOG with Some d => cap_requires_approval d | None => false end.

Definition expected_action_digest (capability node_id : string) (parameters : obj) : result exn string :=
  ensure (bool_decide (capability = FILE_WRITE)) not_granted;;
  match dget "path" parameters, dget "content_sha256" parameters with
  | Some (JStr raw_path), Some (JStr content_sha256) =>
      mode ← require_some (write_mode (py_str (default (JStr "create") (dget "mode" parameters)))) bad_parameters;
      len ← require_some (v ← dget "content_length" parameters; py_int v) bad_parameters;
      file_write_action_digest node_id raw_path content_sha256 len mode
  | _, _ => Err bad_parameters
  end.
