(* ===== verification/NodeScopesFacts.v ===== *)
(** Theorems about capability scopes: lexical containment on POSIX nodes, where
    it fails on Windows, the storage round trip of a scope, and what an
    approval digest binds. *)

From S2P Require Import Prelude PyDict Json Sha256 PyPath NodeModels NodeScopes.
From Stdlib Require Import Ascii.

Open Scope Z_scope.

(** ** Splitting and components *)

Lemma split_char_nonempty c s : split_char c s ≠ [].
Proof. destruct s; simpl; [done|]. case_match; [done|]. by destruct (split_char c s). Qed.

Lemma split_char_free c s w : w ∈ split_char c s → str_has c w = false.
Proof.
  revert w. induction s as [|d s IH]; simpl; intros w.
  - intros ->%list_elem_of_singleton. done.
  - case_bool_decide as Hd.
    + intros [->|?]%elem_of_cons; auto.
    + destruct (split_char c s) as [|x xs]; intros [->|Hw]%elem_of_cons; simpl.
      * by rewrite bool_decide_eq_false_2.
      * by apply not_elem_of_nil in Hw.
      * rewrite bool_decide_eq_false_2 by done. apply IH. set_solver.
      * apply IH. set_solver.
Qed.

(** A component that names a real entry of a directory. *)
Definition clean (w : string) : Prop :=
  w ≠ "" ∧ w ≠ "." ∧ w ≠ ".." ∧ str_has slash w = false.

Lemma clean_components w : clean w → components slash w = [w].
Proof.
  intros (? & ? & ? & H). unfold components. rewrite split_char_none by done.
  rewrite filter_cons_True by done. done.
Qed.

Lemma clean_not_absolute w : clean w → starts_with "/" w = false.
Proof.
  intros (_ & _ & _ & H). destruct w as [|d w]; [done|]. simpl in *.
  apply orb_false_iff in H as [H _]. apply andb_false_iff. left.
  apply bool_decide_eq_false. apply bool_decide_eq_false in H. by intros <-.
Qed.

Lemma components_free sep rel w : w ∈ components sep rel → w ≠ "" ∧ w ≠ "." ∧ str_has sep w = false.
Proof.
  unfold components. rewrite list_elem_of_filter. intros [[??] Hw]. eauto using split_char_free.
Qed.

Lemma first_root_Some pf roots c r :
  first_root roots c pf = Some r → r ∈ roots ∧ is_within r c pf = true.
Proof.
  induction roots as [|x roots IH]; simpl; [done|]. case_match eqn:E; [|set_solver].
  intros. simplify_eq. set_solver.
Qed.

Lemma normalized_roots_elem pf roots ns n :
  normalized_roots roots pf = Ok ns → n ∈ ns → ∃ r, r ∈ roots ∧ normalize_path r pf = Ok n.
Proof. apply mapM_r_lookup. Qed.
(** ** Normalization on POSIX *)

Section Posix.
Context (pf : NodePlatform) (Hpf : pf ≠ WINDOWS).

Lemma not_windows : is_windows pf = false.
Proof. unfold is_windows. by apply bool_decide_eq_false. Qed.

Lemma resolve_parts_clean resolved todo out :
  Forall clean resolved → Forall (λ w, str_has slash w = false) todo →
  resolve_parts pf resolved todo = Ok out → Forall clean out.
Proof.
  revert resolved. induction todo as [|w todo IH]; intros resolved Hres Htodo; simpl.
  - intros. simplify_eq. by apply Forall_rev.
  - inversion Htodo as [|? ? Hw Hrest]; subst. rewrite not_windows.
    case_bool_decide as H1; [by apply IH|]. case_bool_decide as H2.
    + destruct resolved; [done|]. inversion Hres; subst. by apply IH.
    + simpl. apply IH; [|done]. constructor; [|done]. unfold clean. naive_solver.
Qed.

Lemma joinpath_posix_clean p segs :
  Forall clean segs → joinpath_posix p segs = mkPath (pp_drive p) (pp_root p) (pp_tail p ++ segs).
Proof.
  unfold joinpath_posix. intros Hs. revert p. induction Hs as [|s segs Hs _ IH]; intros p; cbn [foldl].
  - rewrite app_nil_r. by destruct p.
  - rewrite IH. rewrite clean_not_absolute, clean_components by done. simpl.
    by rewrite <- app_assoc.
Qed.

(** The root of a normalized path, and components only. *)
Definition normal (p : PurePath) : Prop :=
  pp_drive p = "" ∧ (pp_root p = "/" ∨ pp_root p = "//") ∧ Forall clean (pp_tail p).

Lemma posix_root_cases s :
  (posix_root s).1 = "" ∨ (posix_root s).1 = "/" ∨ (posix_root s).1 = "//".
Proof. unfold posix_root. repeat case_match; simpl; auto. Qed.

Lemma parse_posix_components s w : w ∈ pp_tail (parse_posix s) → str_has slash w = false.
Proof.
  unfold parse_posix. destruct (posix_root s) as [r rel]. simpl. by intros (?&?&?)%components_free.
Qed.

Lemma normalize_path_posix_spec raw p :
  normalize_path raw pf = Ok p →
  ∃ out, resolve_parts pf [] (pp_tail (parse_posix raw)) = Ok out ∧
    p = mkPath "" (pp_root (parse_posix raw)) out ∧ normal p ∧ is_blank raw = false.
Proof.
  unfold normalize_path, pure, is_absolute, joinpath. rewrite not_windows. simpl.
  intros (? & Hb%ensure_Ok & H)%bind_Ok. apply bind_Ok in H as (? & _ & H).
  apply bind_Ok in H as (? & Habs%ensure_Ok & H).
  apply bind_Ok in H as (out & Hout & H). simplify_eq/=.
  unfold is_absolute_posix in Habs.
  assert (Hdrv : pp_drive (parse_posix raw) = "")
    by (unfold parse_posix; by destruct (posix_root raw)).
  assert (Hroot : pp_root (parse_posix raw) = "/" ∨ pp_root (parse_posix raw) = "//").
  { unfold parse_posix in *. destruct (posix_root_cases raw) as [E|E];
      destruct (posix_root raw); simpl in *; subst; [done|done]. }
  set (q := parse_posix raw) in *.
  assert (Hanchor : anchor q = pp_root q) by (unfold anchor; by rewrite Hdrv).
  unfold parts in Hout. rewrite Hanchor in *.
  assert (Hne : is_empty (pp_root q) = false) by by destruct Hroot as [-> | ->].
  rewrite Hne in Hout. simpl in Hout.
  assert (Hclean : Forall clean out).
  { eapply resolve_parts_clean; [constructor| |exact Hout].
    apply Forall_forall. intros w. apply parse_posix_components. }
  exists out. rewrite joinpath_posix_clean by done.
  assert (Hp : parse_posix (pp_root q) = mkPath "" (pp_root q) [])
    by by destruct Hroot as [-> | ->].
  rewrite Hp. simpl. split_and!; try done.
  by apply negb_true_iff in Hb.
Qed.

Lemma normalize_path_normal raw p : normalize_path raw pf = Ok p → normal p.
Proof. intros (out & _ & -> & ? & _)%normalize_path_posix_spec. done. Qed.

Lemma normal_parts p : normal p → parts p = pp_root p :: pp_tail p.
Proof.
  intros (Hd & Hr & _). unfold parts, anchor. rewrite Hd. by destruct Hr as [-> | ->].
Qed.

(** Containment of parts is containment of the opened entries. *)
Lemma is_within_posix r c :
  normal r → normal c → is_within r c pf = true ↔
  pp_root c = pp_root r ∧ ∃ rest, pp_tail c = pp_tail r ++ rest.
Proof.
  intros Hr Hc. unfold is_within. rewrite not_windows, !normal_parts by done. simpl.
  case_match eqn:E.
  - split; [done|]. intros [? [rest Hrest]]. rewrite Hrest, length_app in E.
    apply Nat.ltb_lt in E. simpl in E. lia.
  - rewrite bool_decide_eq_true. split.
    + intros H. injection H as Hroot Htail. split; [done|].
      exists (drop (length (pp_tail r)) (pp_tail c)).
      rewrite <- Htail at 1. by rewrite take_drop.
    + intros [-> [rest ->]]. f_equal. by rewrite take_app_length.
Qed.

End Posix.

(** A POSIX path a read scope admits lies beneath a granted root: after its
    lexical resolution it has the same filesystem root as one normalized grant,
    its components are that grant's components followed by ordinary entry names,
    and none of them is empty, [.], [..] or contains a separator, so walking them
    from the granted directory never leaves it. *)
Theorem resolve_read_contained s raw p :
  rs_platform s ≠ WINDOWS → resolve_read s raw = Ok p →
  ∃ g r rest, g ∈ rs_roots s ∧ normalize_path g (rs_platform s) = Ok r ∧
    pp_root p = pp_root r ∧ pp_tail p = pp_tail r ++ rest ∧ Forall clean (pp_tail p).
Proof.
  intros Hpf. unfold resolve_read.
  intros (c & Hc & H)%bind_Ok. apply bind_Ok in H as (ns & Hns & H).
  apply bind_Ok in H as (r & Hr & H). simplify_eq.
  destruct (first_root ns p (rs_platform s)) as [r'|] eqn:E; simplify_eq/=.
  apply first_root_Some in E as [Hin Hw].
  destruct (normalized_roots_elem _ _ _ _ Hns Hin) as (g & Hg & Hn).
  assert (normal p) as Hp by eauto using normalize_path_normal.
  assert (normal r) as Hrn by eauto using normalize_path_normal.
  apply is_within_posix in Hw as [? [rest ?]]; [|done..].
  exists g, r, rest. destruct Hp as (_ & _ & ?). split_and!; done.
Qed.

Lemma resolve_read_contained_witness :
  let s := mkRead ["/srv/data/"; "/var/log"] 1000 LINUX in
  resolve_read s "/srv/./data/x/../y.txt" = Ok (mkPath "" "/" ["srv"; "data"; "y.txt"]) ∧
  ∃ g r rest, g ∈ rs_roots s ∧ normalize_path g (rs_platform s) = Ok r ∧
    "/" = pp_root r ∧ ["srv"; "data"; "y.txt"] = pp_tail r ++ rest ∧
    Forall clean ["srv"; "data"; "y.txt"].
Proof.
  simpl. split; [vm_compute; reflexivity|].
  apply (resolve_read_contained (mkRead ["/srv/data/"; "/var/log"] 1000 LINUX)
           "/srv/./data/x/../y.txt" (mkPath "" "/" ["srv"; "data"; "y.txt"])).
  - discriminate.
  - vm_compute. reflexivity.
Defined.

(** A POSIX path a write scope admits lies strictly beneath a granted root:
    at least one ordinary entry name follows the components of the grant, so a
    write never names the granted directory itself nor anything outside it. *)
Theorem resolve_write_contained s raw p :
  ws_platform s ≠ WINDOWS → resolve_write s raw = Ok p →
  ∃ g r w rest, g ∈ ws_roots s ∧ normalize_path g (ws_platform s) = Ok r ∧
    pp_root p = pp_root r ∧ pp_tail p = pp_tail r ++ w :: rest ∧ Forall clean (w :: rest).
Proof.
  intros Hpf. unfold resolve_write.
  intros (c & Hc & H)%bind_Ok. apply bind_Ok in H as (ns & Hns & H).
  apply bind_Ok in H as (r & Hr & H). apply bind_Ok in H as (? & Hne%ensure_Ok & H). simplify_eq.
  destruct (first_root ns p (ws_platform s)) as [r'|] eqn:E; simplify_eq/=.
  apply first_root_Some in E as [Hin Hw].
  destruct (normalized_roots_elem _ _ _ _ Hns Hin) as (g & Hg & Hn).
  assert (normal p) as Hp by eauto using normalize_path_normal.
  assert (normal r) as Hrn by eauto using normalize_path_normal.
  apply is_within_posix in Hw as [Hroot [rest Hrest]]; [|done..].
  destruct rest as [|w rest].
  - rewrite app_nil_r in Hrest. bool_to_prop. destruct Hne.
    rewrite !normal_parts by done. congruence.
  - exists g, r, w, rest. destruct Hp as (_ & _ & Hcl). rewrite Hrest, Forall_app in Hcl.
    destruct Hcl. split_and!; done.
Qed.

Lemma resolve_write_contained_witness :
  let s := mkWrite ["/srv/out"] 1000 false MACOS in
  resolve_write s "/srv/out/a/../report" = Ok (mkPath "" "/" ["srv"; "out"; "report"]) ∧
  ∃ g r w rest, g ∈ ws_roots s ∧ normalize_path g (ws_platform s) = Ok r ∧
    "/" = pp_root r ∧ ["srv"; "out"; "report"] = pp_tail r ++ w :: rest ∧ Forall clean (w :: rest).
Proof.
  simpl. split; [vm_compute; reflexivity|].
  apply (resolve_write_contained (mkWrite ["/srv/out"] 1000 false MACOS)
           "/srv/out/a/../report" (mkPath "" "/" ["srv"; "out"; "report"])).
  - discriminate.
  - vm_compute. reflexivity.
Defined.

(** On a Windows node the lexical check can admit a path that still climbs
    out of its grant. A drive letter inside a component ([C:..]) is not the
    component [..], so the loop keeps it; joining the components back then
    merges the repeated drive and leaves a real [..] in the normalized path,
    which is nevertheless accepted as lying under the granted root. *)
Theorem windows_drive_component_escapes :
  resolve_read (mkRead ["C:\data"] 1000 WINDOWS) "C:\data\C:..\secret.txt"
  = Ok (mkPath "C:" "\" ["data"; ".."; "secret.txt"]).
Proof. vm_compute. reflexivity. Qed.

(** The write check compares the candidate with the granted root by exact
    case while Windows containment ignores case, so a Windows grant's own
    directory is accepted as a file to write when its case differs. *)
Theorem windows_root_case_writable :
  resolve_write (mkWrite ["C:\data"] 1000 false WINDOWS) "C:\DATA" = Ok (mkPath "C:" "\" ["DATA"]) ∧
  resolve_write (mkWrite ["C:\data"] 1000 false WINDOWS) "C:\data" = Err bad_parameters.
Proof. vm_compute. done. Qed.

(** ** Storage round trip *)

Lemma map_py_str l : map py_str (map JStr l) = l.
Proof. induction l; simpl; congruence. Qed.

Lemma read_scope_inv roots mb pf s :
  read_scope roots mb pf = Ok s → s = mkRead roots mb pf ∧ roots ≠ [].
Proof.
  unfold read_scope. intros (? & H1%ensure_Ok & H)%bind_Ok. apply bind_Ok in H as (? & _ & H).
  apply bind_Ok in H as (? & _ & H). simplify_eq. bool_to_prop. done.
Qed.

Lemma write_scope_inv roots mb ow pf s :
  write_scope roots mb ow pf = Ok s → s = mkWrite roots mb ow pf ∧ roots ≠ [].
Proof.
  unfold write_scope. intros (? & H1%ensure_Ok & H)%bind_Ok. apply bind_Ok in H as (? & _ & H).
  apply bind_Ok in H as (? & _ & H). simplify_eq. bool_to_prop. done.
Qed.

Lemma read_mapping_roundtrip s :
  read_scope (rs_roots s) (rs_max_bytes s) (rs_platform s) = Ok s →
  read_from_mapping (read_to_mapping s) (rs_platform s) = Ok s.
Proof.
  intros Hs. destruct (read_scope_inv _ _ _ _ Hs) as [_ Hne].
  unfold read_from_mapping, roots_of, read_to_mapping. simpl.
  destruct (rs_roots s) as [|r rs] eqn:E; [done|]. simpl. by rewrite map_py_str.
Qed.

Lemma write_mapping_roundtrip s :
  write_scope (ws_roots s) (ws_max_bytes s) (ws_allow_overwrite s) (ws_platform s) = Ok s →
  write_from_mapping (write_to_mapping s) (ws_platform s) = Ok s.
Proof.
  intros Hs. destruct (write_scope_inv _ _ _ _ _ Hs) as [_ Hne].
  unfold write_from_mapping, roots_of, write_to_mapping. simpl.
  destruct (ws_roots s) as [|r rs] eqn:E; [done|]. simpl. by rewrite map_py_str.
Qed.

(** ** What an approval digest binds *)

Definition write_message (node_id path sha : string) (len : Z) (mode : WriteMode) : string :=
  utf8 (dumps (write_action node_id path sha len mode)).

Lemma mode_value_inj m m' : mode_value m = mode_value m' → m = m'.
Proof. by destruct m, m'. Qed.

Lemma write_action_inj n p h l m n' p' h' l' m' :
  dumps (write_action n p h l m) = dumps (write_action n' p' h' l' m') →
  n = n' ∧ p = p' ∧ lower h = lower h' ∧ l = l' ∧ m = m'.
Proof.
  intros H%dumps_inj_norm.
  change (write_action n p h l m = write_action n' p' h' l' m') in H.
  unfold write_action in H. injection H as ? ? Hm ? ?. apply mode_value_inj in Hm. done.
Qed.

(** An approval digest binds the literal write: two writes whose digests
    agree have the same node, path, content digest (up to hexadecimal case),
    length and mode, unless the two hashed messages are themselves a SHA-256
    collision. A captured approval therefore fits no other write. *)
Theorem write_digest_binds n p h l m n' p' h' l' m' d :
  file_write_action_digest n p h l m = Ok d →
  file_write_action_digest n' p' h' l' m' = Ok d →
  (n = n' ∧ p = p' ∧ lower h = lower h' ∧ l = l' ∧ m = m') ∨
  sha_collides [write_message n p h l m; write_message n' p' h' l' m'].
Proof.
  unfold file_write_action_digest.
  intros (? & _ & H1)%bind_Ok (? & _ & H2)%bind_Ok. injection H1 as <-. injection H2 as H2.
  symmetry in H2. destruct (sha256_hex_inj _ _ H2) as [Heq|Hc].
  - left. apply utf8_inj in Heq. by apply write_action_inj.
  - right. eapply sha_collides_mono; [|exact Hc]. set_solver.
Qed.

Lemma write_digest_binds_witness :
  let h := sha256_hex "hello" in
  ∃ d, file_write_action_digest "node-1" "/srv/out/a" h 5 CREATE = Ok d ∧
  (("node-1" = "node-1" ∧ "/srv/out/a" = "/srv/out/a" ∧ lower h = lower h ∧ 5%Z = 5%Z ∧ CREATE = CREATE) ∨
   sha_collides [write_message "node-1" "/srv/out/a" h 5 CREATE; write_message "node-1" "/srv/out/a" h 5 CREATE]).
Proof.
  cbv zeta.
  assert (H : file_write_action_digest "node-1" "/srv/out/a" (sha256_hex "hello") 5 CREATE
    = Ok (sha256_hex (write_message "node-1" "/srv/out/a" (sha256_hex "hello") 5 CREATE))).
  { unfold file_write_action_digest, str_len. rewrite sha256_hex_length. reflexivity. }
  eexists. split; [exact H|]. exact (write_digest_binds _ _ _ _ _ _ _ _ _ _ _ H H).
Defined.
