(* ===== verification/AgentFiles.v ===== *)
(** The file capabilities on the node (src/olympus/node_agent/file_read.py,
    src/olympus/node_agent/file_write.py) over a model of a POSIX file system.

    A file system is a tree of directories, regular files, symbolic links and
    other nodes; a directory handle is the physical path it was opened at. The
    walk below a granted root opens one component at a time and follows no link;
    only the root itself, which the operator configured, is resolved through
    links. What the process may open is an argument, and so is the point at which
    a write fails. Messages keep their fixed text only. *)

From S2P Require Import Prelude PyDict Json JsonParse Sha256 PyPath NodeModels NodeScopes.
From Stdlib Require Import Ascii.

Open Scope Z_scope.

(** ** The file system *)

Inductive entry :=
  | EFile (data : string)
  | EDir (children : list (string * entry))
  | ELink (target : string)
  | EOther.

Fixpoint fs_get (fs : entry) (p : list string) : option entry :=
  match p with
  | [] => Some fs
  | c :: p' =>
      match fs with
      | EDir ch => match dget c ch with Some e => fs_get e p' | None => None end
      | _ => None
      end
  end.

(** Rewrite the directory at [p]. *)
Fixpoint alter_dir (fs : entry) (p : list string) (f : dict string entry → dict string entry) : entry :=
  match p with
  | [] => match fs with EDir ch => EDir (f ch) | e => e end
  | c :: p' =>
      match fs with
      | EDir ch => match dget c ch with Some e => EDir (dset c (alter_dir e p' f) ch) | None => fs end
      | e => e
      end
  end.

Definition put_entry (fs : entry) (dir : list string) (name : string) (e : entry) : entry :=
  alter_dir fs dir (dset name e).
Definition unlink (fs : entry) (dir : list string) (name : string) : entry :=
  alter_dir fs dir (List.filter (λ kv, negb (bool_decide (kv.1 = name)))).

Definition is_dir (fs : entry) (p : list string) : bool :=
  match fs_get fs p with Some (EDir _) => true | _ => false end.

(** What [lstat] tells about a path, with the bytes of a file. *)
Inductive kind := KFile (data : string) | KDir | KLink (target : string) | KOther.
Definition kind_of (e : entry) : kind :=
  match e with EFile d => KFile d | EDir _ => KDir | ELink t => KLink t | EOther => KOther end.
Definition kind_at (fs : entry) (p : list string) : option kind := kind_of <$> fs_get fs p.

(** Resolution of an operator's path, links followed; the fuel stands for the
    kernel's bound on path length and link depth. *)
Definition PATH_FUEL : nat := 4096.
Fixpoint resolve_dir (fuel : nat) (fs : entry) (cur todo : list string) : option (list string) :=
  match fuel with
  | O => None
  | S fuel' =>
      match todo with
      | [] => Some cur
      | c :: todo' =>
          if bool_decide (c = "") || bool_decide (c = ".") then resolve_dir fuel' fs cur todo'
          else if bool_decide (c = "..") then resolve_dir fuel' fs (removelast cur) todo'
          else match fs_get fs (cur ++ [c]) with
               | Some (EDir _) => resolve_dir fuel' fs (cur ++ [c]) todo'
               | Some (ELink t) =>
                   resolve_dir fuel' fs (if starts_with "/" t then [] else cur) (split_char slash t ++ todo')
               | _ => None
               end
      end
  end.

(** ** Refusals *)

Inductive file_exn :=
  | FileReadRefused (reason message : string)
  | FileScope (e : exn)
  | FileOSError
  | FileAssertion.

Definition PARAMETERS_INVALID : string := "capability-parameters-invalid".
Definition refused (message : string) : file_exn := FileReadRefused PARAMETERS_INVALID message.

Definition lift_scope {A} (r : result exn A) : result file_exn A :=
  match r with Ok a => Ok a | Err e => Err (FileScope e) end.

(** [_containing_root] *)
Fixpoint containing_root (roots : list PurePath) (platform : NodePlatform) (target : PurePath) : result file_exn PurePath :=
  match roots with
  | [] => Err FileAssertion
  | r :: roots' =>
      let prefix := take (length (parts r)) (parts target) in
      if (if is_windows platform then bool_decide (map lower prefix = map lower (parts r))
          else bool_decide (prefix = parts r))
      then Ok r else containing_root roots' platform target
  end.

(** [_relative_parts] *)
Definition relative_parts (root target : PurePath) : list string := drop (length (parts root)) (parts target).

Section Files.
(** Whether the process may open this path. *)
Context (may_open : list string → bool).

(** [os.open(str(root), O_RDONLY | O_DIRECTORY)] *)
Definition open_root (fs : entry) (root : PurePath) : result file_exn (list string) :=
  match resolve_dir PATH_FUEL fs [] (pp_tail root) with
  | Some h => if may_open h then Ok h else Err FileOSError
  | None => Err FileOSError
  end.

(** One [os.open(part, flags, dir_fd=directory)] of the walk. *)
Definition open_at (fs : entry) (dir : list string) (part : string) (want_dir : bool) : result file_exn (list string) :=
  match fs_get fs (dir ++ [part]) with
  | Some (ELink _) => Err (refused "is a symbolic link; the granted root is not left by following one")
  | Some (EDir _) => if may_open (dir ++ [part]) then Ok (dir ++ [part]) else Err (refused "cannot open")
  | Some _ => if want_dir then Err (refused "cannot open")
              else if may_open (dir ++ [part]) then Ok (dir ++ [part]) else Err (refused "cannot open")
  | None => Err (refused "cannot open")
  end.

(** [_open_within_posix], from the directory handle on *)
Fixpoint open_within (fs : entry) (dir : list string) (ps : list string) : result file_exn (list string) :=
  match ps with
  | [] => Ok dir
  | part :: ps' =>
      h ← open_at fs dir part (negb (bool_decide (ps' = [])));
      open_within fs h ps'
  end.

(** ** Reading *)

Definition CHUNK : Z := 65536.

(** The read loop: what was collected and what is left in the stream. *)
Fixpoint read_loop (fuel : nat) (data : string) (remaining : Z) : string * string :=
  match fuel with
  | O => ("", data)
  | S fuel' =>
      if 0 <? remaining then
        let n := Z.to_nat (Z.min CHUNK remaining) in
        let chunk := str_take n data in
        if is_empty chunk then ("", data)
        else let r := read_loop fuel' (str_drop n data) (remaining - str_len chunk) in (chunk +:+ r.1, r.2)
      else ("", data)
  end.

(** Strict UTF-8, as [bytes.decode("utf-8")] accepts it. *)
Definition cont (c : ascii) : bool := (128 <=? ord c)%nat && (ord c <=? 191)%nat.
Fixpoint utf8_valid (s : string) : bool :=
  match s with
  | EmptyString => true
  | String a s1 =>
      let n := ord a in
      if (n <? 128)%nat then utf8_valid s1
      else match s1 with
      | String b s2 =>
          if ((194 <=? n) && (n <=? 223))%nat then cont b && utf8_valid s2
          else match s2 with
          | String c s3 =>
              if (n =? 224)%nat then ((160 <=? ord b) && (ord b <=? 191))%nat && cont c && utf8_valid s3
              else if (n =? 237)%nat then ((128 <=? ord b) && (ord b <=? 159))%nat && cont c && utf8_valid s3
              else if ((225 <=? n) && (n <=? 239))%nat then cont b && cont c && utf8_valid s3
              else match s3 with
              | String d s4 =>
                  if (n =? 240)%nat then ((144 <=? ord b) && (ord b <=? 191))%nat && cont c && cont d && utf8_valid s4
                  else if ((241 <=? n) && (n <=? 243))%nat then cont b && cont c && cont d && utf8_valid s4
                  else if (n =? 244)%nat then ((128 <=? ord b) && (ord b <=? 143))%nat && cont c && cont d && utf8_valid s4
                  else false
              | EmptyString => false
              end
          | EmptyString => false
          end
      | EmptyString => false
      end
  end.

(** [FileReadOutcome]; the content is kept as the bytes it encodes. *)
Record FileReadOutcome := mkReadOutcome {
  ro_path : PurePath;
  ro_size_bytes : Z;
  ro_returned_bytes : Z;
  ro_truncated : bool;
  ro_sha256 : string;
  ro_encoding : string;
  ro_data : string }.

Definition read_within_scope (fs : entry) (scope : FileReadScope) (raw_path : string) (max_bytes : Z) :
    result file_exn FileReadOutcome :=
  target ← lift_scope (resolve_read scope raw_path);
  roots ← lift_scope (normalized_roots (rs_roots scope) (rs_platform scope));
  root ← containing_root roots (rs_platform scope) target;
  let ps := relative_parts root target in
  ensure (negb (bool_decide (ps = []))) (refused "the granted root is a directory, not a file");;
  dir ← open_root fs root;
  h ← open_within fs dir ps;
  match fs_get fs h with
  | Some (EFile bytes) =>
      let r := read_loop (S (String.length bytes)) bytes max_bytes in
      Ok (mkReadOutcome target (str_len bytes) (str_len r.1) (negb (is_empty r.2)) (sha256_hex r.1)
            (if utf8_valid r.1 then "utf-8" else "base64") r.1)
  | _ => Err (refused "only regular files can be read; devices, directories, sockets, and FIFOs are refused")
  end.

(** ** Listing *)

Definition MAX_LIST_ENTRIES : Z := 1000.

(** [_describe] *)
Definition describe (ne : string * entry) : obj :=
  match ne.2 with
  | ELink _ => [("name", JStr ne.1); ("kind", JStr "symlink")]
  | EDir _ => [("name", JStr ne.1); ("kind", JStr "directory")]
  | EFile d => [("name", JStr ne.1); ("kind", JStr "file"); ("size_bytes", JInt (str_len d))]
  | EOther => [("name", JStr ne.1); ("kind", JStr "other")]
  end.

Record DirectoryListing := mkListing { dl_path : PurePath; dl_entries : list obj; dl_truncated : bool }.

Definition list_within_scope (fs : entry) (scope : FileReadScope) (raw_path : string) (max_entries : Z) :
    result file_exn DirectoryListing :=
  target ← lift_scope (resolve_read scope raw_path);
  roots ← lift_scope (normalized_roots (rs_roots scope) (rs_platform scope));
  root ← containing_root roots (rs_platform scope) target;
  dir ← open_root fs root;
  h ← open_within fs dir (relative_parts root target);
  match fs_get fs h with
  | Some (EDir ch) =>
      let kept := take (Z.to_nat max_entries) ch in
      Ok (mkListing target (map describe (sort_by (λ a b, str_leb a.1 b.1) kept)) (max_entries <? Z.of_nat (length ch)))
  | _ => Err (refused "only a directory can be listed")
  end.

(** ** Writing *)

(** [_open_parent_directory], from the root's handle on: every part but the last
    is opened as a directory. *)
Fixpoint open_dirs (fs : entry) (dir : list string) (ps : list string) : result file_exn (list string) :=
  match ps with
  | [] => Ok dir
  | part :: ps' => h ← open_at fs dir part true; open_dirs fs h ps'
  end.
Definition open_parent (fs : entry) (dir : list string) (ps : list string) : result file_exn (list string) :=
  open_dirs fs dir (removelast ps).

(** Where [_atomic_write] fails, if it does, with an [OSError]; [unlinked] is whether the handler removes the temporary file. *)
Inductive Fault := NoFault | FaultCreate | FaultWrite (done : nat) (unlinked : bool) | FaultReplace (unlinked : bool) | FaultSync.

(** [_atomic_write]: the temporary file is created, filled and flushed, renamed
    over the target, and the directory flushed; on an error it is unlinked, unless that fails too, which is ignored. *)
Definition atomic_write (fs : entry) (dir : list string) (name temporary content : string) (fault : Fault) :
    result file_exn () * entry :=
  if is_some (fs_get fs (dir ++ [temporary])) then (Err FileOSError, fs)
  else
  let written := put_entry fs dir temporary (EFile content) in
  let replaced := unlink (put_entry fs dir name (EFile content)) dir temporary in
  match fault with
  | FaultCreate => (Err FileOSError, fs)
  | FaultWrite k unlinked =>
      let partial := put_entry fs dir temporary (EFile (str_take k content)) in
      (Err FileOSError, if unlinked then unlink partial dir temporary else partial)
  | FaultReplace unlinked => (Err FileOSError, if unlinked then unlink written dir temporary else written)
  | FaultSync => (Err FileOSError, unlink replaced dir temporary)
  | NoFault => (Ok (), replaced)
  end.

(** The handler failed to unlink the temporary file. *)
Definition leaves_partial (fault : Fault) : bool := match fault with FaultWrite _ unlinked | FaultReplace unlinked => negb unlinked | _ => false end.

(** The states the file system goes through: what a crash can leave behind. *)
Definition write_states (fs : entry) (dir : list string) (name temporary content : string) : list entry :=
  fs :: map (λ k, put_entry fs dir temporary (EFile (str_take k content))) (seq 0 (S (String.length content)))
     ++ [unlink (put_entry fs dir name (EFile content)) dir temporary].

Definition temporary_name (name random : string) : string := "." +:+ name +:+ "." +:+ hex random +:+ ".partial".

Record FileWriteOutcome := mkWriteOutcome {
  wo_path : PurePath; wo_written_bytes : Z; wo_sha256 : string; wo_mode : WriteMode; wo_replaced : bool }.

(** The checks of [write_within_scope], up to the write itself: the target, the
    directory handle, the name, and whether a file is replaced. *)
Definition write_plan (fs : entry) (scope : FileWriteScope) (raw_path content : string) (mode : WriteMode)
    (expected_sha256 : string) : result file_exn (PurePath * list string * string * bool) :=
  ensure (bool_decide (sha256_hex content = lower expected_sha256))
    (refused "content does not match the approved digest");;
  ensure (negb (ws_max_bytes scope <? str_len content)) (refused "content exceeds the granted ceiling");;
  target ← lift_scope (resolve_write scope raw_path);
  roots ← lift_scope (normalized_roots (ws_roots scope) (ws_platform scope));
  root ← containing_root roots (ws_platform scope) target;
  let ps := relative_parts root target in
  name ← require_some (last ps) FileAssertion;
  dir ← open_root fs root;
  h ← open_parent fs dir ps;
  match fs_get fs (h ++ [name]) with
  | None => Ok (target, h, name, false)
  | Some (ELink _) => Err (refused "is a symbolic link; refusing to write through or over it")
  | Some (EFile _) =>
      ensure (match mode with CREATE => false | OVERWRITE => true end)
        (refused "already exists and this write was approved as create-only");;
      ensure (ws_allow_overwrite scope)
        (FileReadRefused "capability-not-granted" "this node's grant does not permit replacing an existing file");;
      Ok (target, h, name, true)
  | Some _ => Err (refused "exists and is not a regular file")
  end.

Definition write_within_scope (fs : entry) (scope : FileWriteScope) (raw_path content : string) (mode : WriteMode)
    (expected_sha256 random : string) (fault : Fault) : result file_exn FileWriteOutcome * entry :=
  match write_plan fs scope raw_path content mode expected_sha256 with
  | Err e => (Err e, fs)
  | Ok (target, h, name, replaced) =>
      let p := atomic_write fs h name (temporary_name name random) content fault in
      (match p.1 with
       | Err e => Err e
       | Ok _ => Ok (mkWriteOutcome target (str_len content) (sha256_hex content) mode replaced)
       end, p.2)
  end.

(** ** The providers *)

(** [base64.b64decode(s, validate=True)] *)
Definition b64_digit (c : ascii) : option Z :=
  let n := ord c in
  if ((65 <=? n) && (n <=? 90))%nat then Some (Z.of_nat (n - 65))
  else if ((97 <=? n) && (n <=? 122))%nat then Some (Z.of_nat (n - 71))
  else if ((48 <=? n) && (n <=? 57))%nat then Some (Z.of_nat (n + 4))
  else if (n =? 43)%nat then Some 62 else if (n =? 47)%nat then Some 63 else None.
Definition byte_char (z : Z) : ascii := ascii_of_nat (Z.to_nat (z mod 256)).
Definition pad_char (c : ascii) : bool := (ord c =? 61)%nat.

Fixpoint b64_strict (s : string) : option string :=
  match s with
  | EmptyString => Some EmptyString
  | String a (String b (String c (String d s'))) =>
      x ← b64_digit a; y ← b64_digit b;
      let first := byte_char (x * 4 + y / 16) in
      if pad_char d then
        if is_empty s' then
          if pad_char c then Some (String first EmptyString)
          else z ← b64_digit c; Some (String first (String (byte_char (y * 16 + z / 4)) EmptyString))
        else None
      else
        z ← b64_digit c; t ← b64_digit d; rest ← b64_strict s';
        Some (String first (String (byte_char (y * 16 + z / 4)) (String (byte_char (z * 64 + t)) rest)))
  | _ => None
  end.

(** [CapabilityResult]: its status and its output, or its reason. *)
Record CapabilityResult := mkCapResult { cr_status : string; cr_output : obj; cr_reason : string }.
Definition rejected (reason : string) : CapabilityResult := mkCapResult "rejected" [] reason.
Definition succeeded (output : obj) : CapabilityResult := mkCapResult "succeeded" output "".

(** [str(path)] *)
Definition path_str (p : PurePath) : string := anchor p +:+ String.concat "/" (pp_tail p).

(** The [except] clauses of [execute]; an [AssertionError] passes through. *)
Definition file_failure (e : file_exn) : option CapabilityResult :=
  match e with
  | FileReadRefused reason _ => Some (rejected reason)
  | FileScope (NodeMeshError r) => Some (rejected (reason_value r))
  | FileOSError => Some (mkCapResult "failed" [] "capability-failed")
  | FileScope _ | FileAssertion => None
  end.

(** [int(requested)] with the default the parameter has. *)
Definition int_parameter (parameters : obj) (key : string) (fallback : Z) : option Z :=
  py_int (default (JInt fallback) (dget key parameters)).

(** [FileReadProvider.execute]; the output keeps the bytes read next to their
    encoding. *)
Definition read_limit (scope : FileReadScope) (requested max_output_bytes : Z) : Z :=
  Z.max 1 (Z.min (Z.min requested (rs_max_bytes scope)) max_output_bytes).
Definition read_execute (fs : entry) (scope : FileReadScope) (parameters : obj) (max_output_bytes : Z) :
    option (CapabilityResult * option FileReadOutcome) :=
  match dget "path" parameters with
  | Some (JStr raw_path) =>
      match int_parameter parameters "max_bytes" (rs_max_bytes scope) with
      | None => Some (rejected PARAMETERS_INVALID, None)
      | Some requested =>
          match read_within_scope fs scope raw_path (read_limit scope requested max_output_bytes) with
          | Ok o => Some (succeeded [("path", JStr (path_str (ro_path o))); ("size_bytes", JInt (ro_size_bytes o)); ("returned_bytes", JInt (ro_returned_bytes o));
                                     ("truncated", JBool (ro_truncated o)); ("sha256", JStr (ro_sha256 o));
                                     ("encoding", JStr (ro_encoding o))], Some o)
          | Err e => r ← file_failure e; Some (r, None)
          end
      end
  | _ => Some (rejected PARAMETERS_INVALID, None)
  end.

(** [FileListProvider.execute] *)
Definition list_execute (fs : entry) (scope : FileReadScope) (parameters : obj) : option CapabilityResult :=
  match dget "path" parameters with
  | Some (JStr raw_path) =>
      match int_parameter parameters "max_entries" MAX_LIST_ENTRIES with
      | None => Some (rejected PARAMETERS_INVALID)
      | Some requested =>
          match list_within_scope fs scope raw_path (Z.max 1 (Z.min requested MAX_LIST_ENTRIES)) with
          | Ok l => Some (succeeded [("path", JStr (path_str (dl_path l))); ("entries", JList (map JObj (dl_entries l)));
                                     ("entry_count", JInt (Z.of_nat (length (dl_entries l))));
                                     ("truncated", JBool (dl_truncated l))])
          | Err e => file_failure e
          end
      end
  | _ => Some (rejected PARAMETERS_INVALID)
  end.

(** [FileWriteProvider.execute] *)
Definition write_execute (fs : entry) (scope : FileWriteScope) (parameters : obj) (random : string) (fault : Fault) :
    option CapabilityResult * entry :=
  let invalid := (Some (rejected PARAMETERS_INVALID), fs) in
  match dget "path" parameters, dget "content_base64" parameters, dget "content_sha256" parameters with
  | Some (JStr raw_path), Some (JStr encoded), Some (JStr expected) =>
      if negb (str_len expected =? 64) then invalid else
      match write_mode (py_str (default (JStr (mode_value CREATE)) (dget "mode" parameters))), b64_strict encoded with
      | Some mode, Some content =>
          let p := write_within_scope fs scope raw_path content mode expected random fault in
          (match p.1 with
           | Ok o => Some (succeeded [("path", JStr (path_str (wo_path o))); ("written_bytes", JInt (wo_written_bytes o)); ("sha256", JStr (wo_sha256 o));
                                      ("mode", JStr (mode_value (wo_mode o))); ("replaced", JBool (wo_replaced o))])
           | Err e => file_failure e
           end, p.2)
      | _, _ => invalid
      end
  | _, _, _ => invalid
  end.
End Files.
