(* ===== verification/AgentFilesFacts.v ===== *)
(** What the file capabilities of a node guarantee on the real file system:
    nothing outside the granted root is reached through a link, a write is all or
    nothing, and what is reported is what was there. *)

From S2P Require Import Prelude PyDict Json JsonParse Sha256 PyPath NodeModels NodeScopes NodeScopesFacts AgentFiles.
From Stdlib Require Import Ascii.

Open Scope Z_scope.

(** ** Paths in the tree *)

Lemma fs_get_app fs p q : fs_get fs (p ++ q) = e ← fs_get fs p; fs_get e q.
Proof.
  revert fs. induction p as [|c p IH]; intros fs; [done|]. simpl. destruct fs as [| ch| |]; try done.
  destruct (dget c ch); simpl; [apply IH|done].
Qed.

Lemma is_dir_Some fs p : is_dir fs p = true ↔ ∃ ch, fs_get fs p = Some (EDir ch).
Proof. unfold is_dir. split; [repeat case_match; naive_solver|]. by intros [ch ->]. Qed.

Lemma is_dir_kind fs p : is_dir fs p = true ↔ kind_at fs p = Some KDir.
Proof.
  unfold kind_at. rewrite is_dir_Some. split; [by intros [ch ->]|].
  destruct (fs_get fs p) as [[]|]; simpl; try done. by eexists.
Qed.

Lemma is_dir_prefix fs p q : is_dir fs (p ++ q) = true → is_dir fs p = true.
Proof.
  rewrite !is_dir_Some. intros [ch Hch]. rewrite fs_get_app in Hch.
  destruct (fs_get fs p) as [e|]; simpl in Hch; [|done].
  destruct q as [|c q]; simpl in Hch; [naive_solver|]. destruct e; try done. by eexists.
Qed.

Lemma removelast_dir fs p : is_dir fs p = true → is_dir fs (removelast p) = true.
Proof.
  intros H. destruct (decide (p = [])) as [->|Hne]; [done|].
  apply (is_dir_prefix fs _ [List.last p ""]). by rewrite <- app_removelast_last.
Qed.

Lemma dget_filter_ne {X} k k' (d : dict string X) :
  dget k' (List.filter (λ kv, negb (bool_decide (kv.1 = k))) d) = if decide (k' = k) then None else dget k' d.
Proof.
  induction d as [|[a v] d IH]; simpl; [by case_decide|].
  destruct (bool_decide (a = k)) eqn:E; bool_to_prop; simpl; rewrite IH; repeat case_decide; congruence.
Qed.

(** Rewriting one entry of a directory that is not itself a directory: what
    [lstat] sees changes there and nowhere else. *)
Lemma alter_kind fs dir f name new q :
  is_dir fs dir = true → kind_at fs (dir ++ [name]) ≠ Some KDir →
  (∀ ch c, dget c (f ch) = if decide (c = name) then new else dget c ch) →
  match new with Some (EDir _) => False | _ => True end →
  kind_at (alter_dir fs dir f) q =
    if decide (q = dir ++ [name]) then kind_of <$> new else kind_at fs q.
Proof.
  intros Hd Hn Hf Hnew. revert fs q Hd Hn. induction dir as [|a dir IH]; intros fs q Hd Hn.
  - apply is_dir_Some in Hd as [ch [= ->]]. unfold kind_at in *. simpl in Hn. simpl.
    destruct q as [|c q]; [by rewrite decide_False|]. simpl. rewrite Hf.
    destruct (decide (c = name)) as [->|Hc].
    + destruct q as [|x q].
      * rewrite decide_True by done. destruct new as [[]|]; done.
      * rewrite decide_False by congruence. destruct new as [[]|], (dget name ch) as [[]|]; done.
    + rewrite decide_False by congruence. done.
  - apply is_dir_Some in Hd as [ch Hd]. simpl in Hd. destruct fs as [|ch0| |]; try done.
    destruct (dget a ch0) as [e|] eqn:Ea; [|done]. unfold kind_at in *. simpl in Hn |- *. rewrite Ea in Hn |- *.
    destruct q as [|c q]; [by rewrite decide_False|]. simpl. rewrite dget_dset.
    destruct (decide (a = c)) as [->|Hc].
    + rewrite Ea, IH; [|by apply is_dir_Some; eexists|done]. by repeat case_decide; congruence.
    + rewrite decide_False by congruence. done.
Qed.

Lemma kind_put fs dir name d q :
  is_dir fs dir = true → kind_at fs (dir ++ [name]) ≠ Some KDir →
  kind_at (put_entry fs dir name (EFile d)) q = if decide (q = dir ++ [name]) then Some (KFile d) else kind_at fs q.
Proof.
  intros Hd Hn. unfold put_entry. rewrite (alter_kind fs dir _ name (Some (EFile d))); try done.
  intros. rewrite dget_dset. by repeat case_decide; congruence.
Qed.

Lemma kind_unlink fs dir name q :
  is_dir fs dir = true → kind_at fs (dir ++ [name]) ≠ Some KDir →
  kind_at (unlink fs dir name) q = if decide (q = dir ++ [name]) then None else kind_at fs q.
Proof. intros Hd Hn. unfold unlink. rewrite (alter_kind fs dir _ name None); try done. intros. apply dget_filter_ne. Qed.

(** ** Opening *)

Lemma resolve_dir_dir fuel fs cur todo h :
  is_dir fs [] = true → is_dir fs cur = true → resolve_dir fuel fs cur todo = Some h → is_dir fs h = true.
Proof.
  intros Hroot. revert cur todo. induction fuel as [|fuel IH]; intros cur todo Hc; simpl; [done|].
  destruct todo as [|c todo]; [by intros [= <-]|]. destruct (_ || _); [by apply IH|].
  destruct (bool_decide (c = "..")); [apply IH, removelast_dir, Hc|].
  destruct (fs_get fs (cur ++ [c])) as [[]|] eqn:E; try done.
  - apply IH. apply is_dir_Some. eauto.
  - apply IH. by case_match.
Qed.

Section Opening.
Context (may_open : list string → bool).
Notation open_at := (open_at may_open).
Notation open_within := (open_within may_open).
Notation open_dirs := (open_dirs may_open).
Notation open_root := (open_root may_open).

Lemma open_at_Ok fs dir part w h :
  open_at fs dir part w = Ok h →
  h = dir ++ [part] ∧ (∃ k, kind_at fs h = Some k ∧ ∀ t, k ≠ KLink t) ∧ (w = true → is_dir fs h = true).
Proof.
  unfold AgentFiles.open_at. destruct (fs_get fs (dir ++ [part])) as [e|] eqn:E; [|done].
  intros H. assert (h = dir ++ [part]) as -> by (destruct e, w; try destruct (may_open (dir ++ [part])); naive_solver).
  unfold is_dir, kind_at. rewrite E. destruct e; simpl; naive_solver.
Qed.

(** The walk reaches the path it was given through real directories only. *)
Definition real_dirs (fs : entry) (dir ps : list string) : Prop :=
  ∀ a b, ps = a ++ b → b ≠ [] → is_dir fs (dir ++ a) = true.

Lemma real_dirs_cons fs dir p ps :
  is_dir fs dir = true → real_dirs fs (dir ++ [p]) ps → real_dirs fs dir (p :: ps).
Proof.
  intros Hd H [|x a] b Hab Hb; simpl in *; simplify_eq; [by rewrite app_nil_r|].
  specialize (H a b eq_refl Hb). by rewrite <- app_assoc in H.
Qed.

Lemma open_within_Ok fs dir ps h :
  is_dir fs dir = true → open_within fs dir ps = Ok h → h = dir ++ ps ∧ real_dirs fs dir ps.
Proof.
  revert dir. induction ps as [|p ps IH]; intros dir Hd; simpl.
  - intros [= <-]. rewrite app_nil_r. split; [done|]. intros a b Hab Hb. by destruct a, b.
  - intros (h' & Ho & Hr)%bind_Ok. apply open_at_Ok in Ho as (-> & _ & Hw).
    destruct (decide (ps = [])) as [->|Hne].
    + simpl in Hr. injection Hr as <-. split; [done|]. intros [|x a] b Hab Hb; simplify_eq/=; [by rewrite app_nil_r|].
      by destruct a, b.
    + rewrite bool_decide_eq_false_2 in Hw by done. specialize (Hw eq_refl).
      destruct (IH _ Hw Hr) as [-> Hrd]. rewrite <- app_assoc. split; [done|]. by apply real_dirs_cons.
Qed.

Lemma open_dirs_Ok fs dir ps h :
  is_dir fs dir = true → open_dirs fs dir ps = Ok h →
  h = dir ++ ps ∧ is_dir fs h = true ∧ ∀ a b, ps = a ++ b → is_dir fs (dir ++ a) = true.
Proof.
  revert dir. induction ps as [|p ps IH]; intros dir Hd; simpl.
  - intros [= <-]. rewrite app_nil_r. split_and!; try done. intros a b Hab.
    destruct a; [by rewrite app_nil_r|done].
  - intros (h' & Ho & Hr)%bind_Ok. apply open_at_Ok in Ho as (-> & _ & Hw). specialize (Hw eq_refl).
    destruct (IH _ Hw Hr) as (-> & Hh & Hrd). rewrite <- app_assoc in Hh |- *. split_and!; try done.
    intros [|x a] b Hab; simplify_eq/=; [by rewrite app_nil_r|].
    specialize (Hrd a b eq_refl). by rewrite <- app_assoc in Hrd.
Qed.

Lemma open_root_Ok fs root h :
  is_dir fs [] = true → open_root fs root = Ok h →
  is_dir fs h = true ∧ resolve_dir PATH_FUEL fs [] (pp_tail root) = Some h.
Proof.
  intros Hr. unfold AgentFiles.open_root. destruct (resolve_dir _ _ _ _) as [h'|] eqn:E; [|done].
  destruct (may_open h'); [|done]. intros [= <-]. split; [|done]. by eapply resolve_dir_dir.
Qed.
End Opening.

Lemma containing_root_Ok roots platform target r :
  is_windows platform = false → containing_root roots platform target = Ok r →
  r ∈ roots ∧ parts target = parts r ++ relative_parts r target.
Proof.
  intros Hp. induction roots as [|x roots IH]; simpl; [done|]. rewrite Hp.
  destruct (bool_decide _) eqn:E; bool_to_prop.
  - intros [= <-]. split; [set_solver|]. unfold relative_parts. rewrite <- E at 1. by rewrite take_drop.
  - intros H. destruct (IH H). split; [set_solver|done].
Qed.

(** ** Reading *)

Lemma str_take_drop n s : str_take n s +:+ str_drop n s = s.
Proof.
  unfold str_take, str_drop. revert n. induction s as [|c s IH]; intros [|n]; simpl; try done.
  - f_equal. clear. induction s as [|c s IH]; simpl; [done|]. by f_equal.
  - f_equal. apply IH.
Qed.

Lemma str_take_length n s : String.length (str_take n s) = (n `min` String.length s)%nat.
Proof. unfold str_take. revert n. induction s as [|c s IH]; intros [|n]; simpl; try done. by rewrite IH. Qed.

Lemma str_drop_0 s : str_drop 0 s = s.
Proof. assert (H := str_take_drop 0 s). unfold str_take in H. by destruct s. Qed.

Lemma str_take_0 s : str_take 0 s = "".
Proof. by destruct s. Qed.

Lemma str_take_all n s : (String.length s ≤ n)%nat → str_take n s = s.
Proof.
  unfold str_take. revert n. induction s as [|c s IH]; intros [|n]; simpl; intros; try done; [lia|].
  rewrite IH by lia. done.
Qed.

Lemma str_drop_length n s : String.length (str_drop n s) = (String.length s - n)%nat.
Proof.
  assert (H := f_equal String.length (str_take_drop n s)). rewrite length_append, str_take_length in H. lia.
Qed.

Lemma str_drop_all n s : (String.length s ≤ n)%nat → str_drop n s = "".
Proof. intros H. assert (Hd := str_drop_length n s). destruct (str_drop n s); [done|]. simpl in Hd. lia. Qed.

Lemma str_take_add n m s : str_take (n + m) s = str_take n s +:+ str_take m (str_drop n s).
Proof.
  revert n. induction s as [|c s IH]; intros [|n].
  - by destruct m.
  - by destruct m.
  - rewrite str_take_0, str_drop_0. done.
  - change (str_take (S n + m) (String c s)) with (String c (str_take (n + m) s)). rewrite IH. done.
Qed.

Lemma str_drop_add n m s : str_drop (n + m) s = str_drop m (str_drop n s).
Proof.
  revert n. induction s as [|c s IH]; intros [|n].
  - by rewrite str_drop_0.
  - by destruct m.
  - by rewrite str_drop_0.
  - change (str_drop (S n + m) (String c s)) with (str_drop (n + m) s). rewrite IH. done.
Qed.

(** The chunked loop reads exactly the first bytes it is allowed, however large
    the file is, and leaves the rest in the stream. *)
Lemma read_loop_spec fuel data remaining :
  (String.length data < fuel)%nat →
  read_loop fuel data remaining = (str_take (Z.to_nat remaining) data, str_drop (Z.to_nat remaining) data).
Proof.
  revert data remaining. induction fuel as [|fuel IH]; intros data remaining Hf; [lia|]. cbn [read_loop].
  destruct (0 <? remaining) eqn:E; bool_to_prop.
  2: { replace (Z.to_nat remaining) with 0%nat by lia. by rewrite str_take_0, str_drop_0. }
  set (n := Z.to_nat (Z.min CHUNK remaining)). assert (Hn : (0 < n)%nat) by (unfold n, CHUNK; lia).
  destruct (is_empty (str_take n data)) eqn:Ee.
  - destruct data as [|c data]; [by destruct (Z.to_nat remaining)|].
    by destruct n; [lia|].
  - assert (Hl := str_take_length n data). assert (Hd := str_drop_length n data).
    assert (0 < String.length data)%nat by (destruct data; [by destruct n|simpl; lia]).
    rewrite IH by lia. cbn [fst snd]. unfold str_len. rewrite Hl.
    destruct (decide (String.length data ≤ n)%nat) as [Hle|Hgt].
    + rewrite Nat.min_r by lia. rewrite !(str_take_all n data) by lia.
      assert (Hk : (String.length data ≤ Z.to_nat remaining)%nat) by (unfold n in *; lia).
      rewrite (str_drop_all n), (str_drop_all (Z.to_nat remaining)), (str_take_all (Z.to_nat remaining) data) by done.
      rewrite (str_take_all _ "") by (simpl; lia). rewrite append_nil_r.
      by destruct (Z.to_nat (remaining - Z.of_nat (String.length data))).
    + rewrite Nat.min_l by lia. replace (Z.to_nat remaining) with (n + Z.to_nat (remaining - Z.of_nat n))%nat
        by (unfold n in *; lia).
      by rewrite str_take_add, str_drop_add.
Qed.

Lemma lift_scope_Ok {A} (r : result exn A) a : lift_scope r = Ok a → r = Ok a.
Proof. by destruct r; intros [= ->]. Qed.

Lemma is_empty_drop n s : is_empty (str_drop n s) = negb (n <? String.length s)%nat.
Proof.
  assert (H := str_drop_length n s). destruct (Nat.ltb_spec n (String.length s)); destruct (str_drop n s); simpl in *; try done; lia.
Qed.

Section Capabilities.
Context (may_open : list string → bool).

(** The granted root a resolved path was found under, and where it really is. *)
Definition granted_at (fs : entry) (grants : list string) (platform : NodePlatform) (root : PurePath) (dir : list string) : Prop :=
  (∃ g, g ∈ grants ∧ normalize_path g platform = Ok root) ∧
  resolve_dir PATH_FUEL fs [] (pp_tail root) = Some dir ∧ is_dir fs dir = true.

(** C20. A read never leaves the granted root, also when the file system is full
    of links: the bytes returned are the first of a regular file that lies below
    the directory of a granted root, every step from that directory to the file
    is a real directory, and the digest, sizes and the truncation flag reported
    are those of that file, whatever chunks it was read in. *)
Theorem read_contained fs scope raw_path max_bytes o :
  is_windows (rs_platform scope) = false → is_dir fs [] = true →
  read_within_scope may_open fs scope raw_path max_bytes = Ok o →
  ∃ root dir ps bytes,
    granted_at fs (rs_roots scope) (rs_platform scope) root dir ∧
    parts (ro_path o) = parts root ++ ps ∧ ps ≠ [] ∧ real_dirs fs dir ps ∧
    kind_at fs (dir ++ ps) = Some (KFile bytes) ∧
    ro_data o = str_take (Z.to_nat max_bytes) bytes ∧ ro_sha256 o = sha256_hex (ro_data o) ∧
    ro_size_bytes o = str_len bytes ∧ ro_returned_bytes o = str_len (ro_data o) ∧
    ro_truncated o = (Z.to_nat max_bytes <? String.length bytes)%nat.
Proof.
  intros Hw Hroot. unfold read_within_scope.
  intros (target & Ht & (roots & Hr & (root & Hc & H1)%bind_Ok)%bind_Ok)%bind_Ok.
  apply bind_Ok in H1 as (? & Hps%ensure_Ok & (dir & Hd & (h & Hh & H)%bind_Ok)%bind_Ok).
  apply lift_scope_Ok in Ht, Hr. bool_to_prop.
  apply containing_root_Ok in Hc as [Hin Hparts]; [|done].
  apply open_root_Ok in Hd as [Hdd Hres]; [|done]. apply open_within_Ok in Hh as [-> Hrd]; [|done].
  destruct (normalized_roots_elem _ _ _ _ Hr Hin) as (g & Hg & Hn).
  destruct (fs_get fs (dir ++ relative_parts root target)) as [[bytes| | |]|] eqn:Ef; [|done..].
  rewrite read_loop_spec in H by lia. injection H as <-. cbn [ro_path ro_data ro_sha256 ro_size_bytes ro_returned_bytes ro_truncated].
  exists root, dir, (relative_parts root target), bytes. unfold kind_at. rewrite Ef, is_empty_drop, negb_involutive.
  split_and!; try done. split_and!; eauto.
Qed.

(** What the checks before a write established. *)
Lemma write_plan_spec fs scope raw_path content mode sha target h name replaced :
  is_windows (ws_platform scope) = false → is_dir fs [] = true →
  write_plan may_open fs scope raw_path content mode sha = Ok (target, h, name, replaced) →
  ∃ root dir ps,
    granted_at fs (ws_roots scope) (ws_platform scope) root dir ∧ h = dir ++ ps ∧ is_dir fs h = true ∧
    parts target = parts root ++ ps ++ [name] ∧ (∀ a b, ps = a ++ b → is_dir fs (dir ++ a) = true) ∧
    sha256_hex content = lower sha ∧ str_len content ≤ ws_max_bytes scope ∧
    ((kind_at fs (h ++ [name]) = None ∧ replaced = false) ∨
     (∃ old, kind_at fs (h ++ [name]) = Some (KFile old)) ∧ replaced = true ∧ mode = OVERWRITE ∧
     ws_allow_overwrite scope = true).
Proof.
  intros Hw Hroot. unfold write_plan.
  intros (? & Hsha%ensure_Ok & (? & Hmax%ensure_Ok & (t & Ht & H)%bind_Ok)%bind_Ok)%bind_Ok.
  apply bind_Ok in H as (roots & Hr & (root & Hc & (nm & Hnm & H)%bind_Ok)%bind_Ok).
  apply bind_Ok in H as (dir & Hd & (h' & Hh & H)%bind_Ok).
  apply lift_scope_Ok in Ht, Hr. bool_to_prop.
  apply containing_root_Ok in Hc as [Hin Hparts]; [|done].
  apply open_root_Ok in Hd as [Hdd Hres]; [|done]. unfold open_parent in Hh.
  apply open_dirs_Ok in Hh as (-> & Hhd & Hrd); [|done].
  destruct (normalized_roots_elem _ _ _ _ Hr Hin) as (g & Hg & Hn).
  set (ps := relative_parts root t) in *.
  destruct (last ps) as [l|] eqn:El; [|done]. simpl in Hnm. injection Hnm as ->.
  apply last_Some in El as [ps' El]. rewrite El, removelast_last in *.
  assert (Hgr : granted_at fs (ws_roots scope) (ws_platform scope) root dir) by (split_and!; eauto).
  exists root, dir, ps'. unfold kind_at.
  destruct (fs_get fs ((dir ++ ps') ++ [nm])) as [[old| | |]|] eqn:Ef; [|done..|].
  - apply bind_Ok in H as (? & Hm%ensure_Ok & (? & Ha%ensure_Ok & [= <- <- <- <-])%bind_Ok).
    rewrite Ef. split_and!; try done. right. split_and!; eauto. by destruct mode.
  - injection H as <- <- <- <-. rewrite Ef. split_and!; try done. by left.
Qed.
(** Renaming the temporary file over the target: one change, at the target. *)
Lemma kind_replaced fs dir name tmp content q :
  is_dir fs dir = true → kind_at fs (dir ++ [name]) ≠ Some KDir → kind_at fs (dir ++ [tmp]) = None → name ≠ tmp →
  kind_at (unlink (put_entry fs dir name (EFile content)) dir tmp) q =
    if decide (q = dir ++ [name]) then Some (KFile content) else kind_at fs q.
Proof.
  intros Hd Hn Ht Hne. assert (Htn : dir ++ [tmp] ≠ dir ++ [name]) by (by intros [= ?]%app_inv_head).
  rewrite kind_unlink.
  - rewrite kind_put by done. case_decide as E; [|done]. subst q. by rewrite decide_False, Ht.
  - apply is_dir_kind. rewrite kind_put by done. rewrite decide_False; [by apply is_dir_kind|].
    rewrite <- (app_nil_r dir) at 1. by intros ?%app_inv_head.
  - rewrite kind_put, decide_False by done. by rewrite Ht.
Qed.

(** Creating a temporary file and unlinking it again changes nothing. *)
Lemma kind_undone fs dir tmp data q :
  is_dir fs dir = true → kind_at fs (dir ++ [tmp]) = None →
  kind_at (unlink (put_entry fs dir tmp (EFile data)) dir tmp) q = kind_at fs q.
Proof.
  intros Hd Ht. rewrite kind_unlink.
  - rewrite kind_put by (done || by rewrite Ht). case_decide; [by subst|done].
  - apply is_dir_kind. rewrite kind_put by (done || by rewrite Ht). rewrite decide_False; [by apply is_dir_kind|].
    rewrite <- (app_nil_r dir) at 1. by intros ?%app_inv_head.
  - rewrite kind_put by (done || by rewrite Ht). by rewrite decide_True.
Qed.

Lemma temporary_ne name random : name ≠ temporary_name name random.
Proof.
  intros H. apply (f_equal String.length) in H. unfold temporary_name in H.
  rewrite !length_app_str in H. simpl in H. lia.
Qed.

(** Nothing changed at [q], or [q] is the temporary file of a failed write whose clean-up failed too. *)
Definition kept_or_partial (fs fs' : entry) (temporary : list string) (content : string) (fault : Fault) (q : list string) : Prop :=
  kind_at fs' q = kind_at fs q ∨
  leaves_partial fault = true ∧ q = temporary ∧ kind_at fs q = None ∧ ∃ k, kind_at fs' q = Some (KFile (str_take k content)).

Lemma partial_left fs dir tmp content k fault q : is_dir fs dir = true → kind_at fs (dir ++ [tmp]) = None → leaves_partial fault = true →
  kept_or_partial fs (put_entry fs dir tmp (EFile (str_take k content))) (dir ++ [tmp]) content fault q.
Proof.
  intros Hd Ht Hl. unfold kept_or_partial. rewrite kind_put by (done || by rewrite Ht). case_decide; [subst; right|by left].
  split_and!; [done..|]. by exists k.
Qed.

(** What [_atomic_write] leaves behind, wherever it fails: the target with its
    old or its new content, and nothing else changed but a temporary file that could not be unlinked. *)
Lemma atomic_write_spec fs dir name random content fault r fs' :
  is_dir fs dir = true → kind_at fs (dir ++ [name]) ≠ Some KDir →
  atomic_write fs dir name (temporary_name name random) content fault = (r, fs') →
  (∀ q, q ≠ dir ++ [name] → kept_or_partial fs fs' (dir ++ [temporary_name name random]) content fault q) ∧
  (kind_at fs' (dir ++ [name]) = kind_at fs (dir ++ [name]) ∨ kind_at fs' (dir ++ [name]) = Some (KFile content)) ∧
  (r = Ok () → kind_at fs' (dir ++ [name]) = Some (KFile content) ∧ leaves_partial fault = false).
Proof.
  intros Hd Hn. unfold atomic_write. set (tmp := temporary_name name random).
  assert (Hne : name ≠ tmp) by apply temporary_ne.
  destruct (fs_get fs (dir ++ [tmp])) eqn:Et; simpl; [intros [= <- <-]; split_and!; [by left|by left|done]|].
  assert (Ht : kind_at fs (dir ++ [tmp]) = None) by (unfold kind_at; by rewrite Et).
  assert (Hrep := λ q, kind_replaced fs dir name tmp content q Hd Hn Ht Hne).
  assert (Htn : dir ++ [name] ≠ dir ++ [tmp]) by (intros [= ?]%app_inv_head; congruence).
  assert (Hk : ∀ data, kind_at (put_entry fs dir tmp (EFile data)) (dir ++ [name]) = kind_at fs (dir ++ [name])).
  { intros data. rewrite kind_put by (done || by rewrite Ht). by rewrite decide_False. }
  destruct fault as [| |k []|[]|]; intros [= <- <-].
  - split_and!; [intros q Hq; left; by rewrite Hrep, decide_False|right; by rewrite Hrep, decide_True|by rewrite Hrep, decide_True].
  - split_and!; [by left|by left|done].
  - split_and!; [intros q _; left|left|done]; by rewrite kind_undone.
  - split_and!; [intros q _; by apply partial_left|by left|done].
  - split_and!; [intros q _; left|left|done]; by rewrite kind_undone.
  - split_and!; [intros q _; rewrite <- (str_take_all (String.length content) content) at 1 by done; by apply partial_left|by left|done].
  - set (rep := unlink _ _ _) in *.
    assert (Hdr : is_dir rep dir = true).
    { apply is_dir_kind. rewrite Hrep, decide_False; [by apply is_dir_kind|].
      rewrite <- (app_nil_r dir) at 1. by intros ?%app_inv_head. }
    assert (Htr : kind_at rep (dir ++ [tmp]) = None).
    { rewrite Hrep, decide_False; [done|]. intros [= ?]%app_inv_head. congruence. }
    assert (Hu : ∀ q, kind_at (unlink rep dir tmp) q = kind_at rep q).
    { intros q. rewrite kind_unlink by (done || by rewrite Htr). case_decide; by subst. }
    split_and!; [intros q Hq; left|right|done]; rewrite Hu, Hrep; [by rewrite decide_False|by rewrite decide_True].
Qed.

(** C19. A write never leaves the granted root and is all or nothing, wherever it
    fails. Either it was refused and the file system is untouched, or the target
    lies below the directory of a granted root through real directories only,
    the bytes are the ones whose digest was approved and fit the ceiling, a file
    already there is replaced only when both the request and the grant allow it,
    no other path changes, except that a failed write whose clean-up fails too leaves its
    temporary file, which was not there before and holds approved bytes only, the target
    holds its old content or all of the new one, and a reported success means the new
    content is there and nothing else changed. *)
Theorem write_confined fs scope raw_path content mode sha random fault r fs' :
  is_windows (ws_platform scope) = false → is_dir fs [] = true →
  write_within_scope may_open fs scope raw_path content mode sha random fault = (r, fs') →
  (fs' = fs ∧ ∃ e, r = Err e) ∨
  (∃ root dir ps name,
    granted_at fs (ws_roots scope) (ws_platform scope) root dir ∧
    (∀ a b, ps = a ++ b → is_dir fs (dir ++ a) = true) ∧
    sha256_hex content = lower sha ∧ str_len content ≤ ws_max_bytes scope ∧
    let target := (dir ++ ps) ++ [name] in
    (kind_at fs target = None ∨
     (∃ old, kind_at fs target = Some (KFile old)) ∧ mode = OVERWRITE ∧ ws_allow_overwrite scope = true) ∧
    (∀ q, q ≠ target → kept_or_partial fs fs' ((dir ++ ps) ++ [temporary_name name random]) content fault q) ∧
    (kind_at fs' target = kind_at fs target ∨ kind_at fs' target = Some (KFile content)) ∧
    (∀ o, r = Ok o → kind_at fs' target = Some (KFile content) ∧ parts (wo_path o) = parts root ++ ps ++ [name] ∧
       leaves_partial fault = false ∧ wo_sha256 o = lower sha ∧ (wo_replaced o = true ↔ kind_at fs target ≠ None))).
Proof.
  intros Hw Hroot. unfold write_within_scope.
  destruct (write_plan may_open fs scope raw_path content mode sha) as [[[[target h] name] replaced]|e] eqn:Hp;
    [|intros [= <- <-]; by eauto].
  apply write_plan_spec in Hp as (root & dir & ps & Hg & -> & Hd & Hparts & Hdirs & Hsha & Hmax & Hk); [|done..].
  destruct (atomic_write _ _ _ _ _ _) as [r1 fs1] eqn:Ha. intros [= Hr <-]. simpl in Hr.
  assert (Hn : kind_at fs ((dir ++ ps) ++ [name]) ≠ Some KDir).
  { intros Hc. destruct Hk as [[H _]|[[old H] _]]; congruence. }
  apply atomic_write_spec in Ha as (Hother & Htarget & Hok); [|done..].
  right. exists root, dir, ps, name. split_and!; try done.
  - destruct Hk as [[? _]|(? & _ & ? & ?)]; eauto.
  - intros o ->. destruct r1 as [[]|]; [|done]. injection Hr as <-. destruct (Hok eq_refl) as [Hnew Hclean]. simpl. split_and!; auto.
    destruct Hk as [[-> ->]|([old ->] & -> & _)]; naive_solver.
Qed.

(** A crash at any moment of a write leaves the target either as it was or
    with the complete new content, and no other file touched but the temporary
    one, which did not exist before. *)
Theorem write_crash_atomic fs dir name random content fs' :
  is_dir fs dir = true → kind_at fs (dir ++ [name]) ≠ Some KDir →
  kind_at fs (dir ++ [temporary_name name random]) = None →
  fs' ∈ write_states fs dir name (temporary_name name random) content →
  (kind_at fs' (dir ++ [name]) = kind_at fs (dir ++ [name]) ∨ kind_at fs' (dir ++ [name]) = Some (KFile content)) ∧
  (∀ q, q ≠ dir ++ [name] → q ≠ dir ++ [temporary_name name random] → kind_at fs' q = kind_at fs q) ∧
  last (write_states fs dir name (temporary_name name random) content) =
    Some (atomic_write fs dir name (temporary_name name random) content NoFault).2.
Proof.
  intros Hd Hn Ht Hin. assert (Hne := temporary_ne name random).
  assert (Htn : dir ++ [name] ≠ dir ++ [temporary_name name random]) by (intros [= ?]%app_inv_head; congruence).
  assert (Hlast : last (write_states fs dir name (temporary_name name random) content) =
    Some (atomic_write fs dir name (temporary_name name random) content NoFault).2).
  { unfold write_states. rewrite app_comm_cons, last_snoc. unfold atomic_write.
    unfold kind_at in Ht. by destruct (fs_get fs (dir ++ [temporary_name name random])). }
  unfold write_states in Hin. apply elem_of_cons in Hin as [->|[Hin|Hin]%elem_of_app].
  - by eauto.
  - apply list_elem_of_fmap in Hin as (k & -> & _). split_and!; [|intros; rewrite kind_put by (done || by rewrite Ht)|done].
    + left. rewrite kind_put by (done || by rewrite Ht). by rewrite decide_False.
    + by rewrite decide_False.
  - apply list_elem_of_singleton in Hin as ->. split_and!; [right|intros|done]; rewrite kind_replaced by done.
    + by rewrite decide_True.
    + by rewrite decide_False.
Qed.
End Capabilities.

(** ** A node with one granted directory *)

Definition tree : entry :=
  EDir [("srv", EDir [("data", EDir [("report.txt", EFile "hello, world"); ("out", ELink "/etc")]);
                      ("link", ELink "/srv/data")]);
        ("etc", EDir [("passwd", EFile "root")])].
Definition open_all (_ : list string) : bool := true.
Definition reader : FileReadScope := mkRead ["/srv/link"] 4096 LINUX.
Definition writer : FileWriteScope := mkWrite ["/srv/link"] 4096 true LINUX.

Example read_follows_no_link :
  match read_within_scope open_all tree reader "/srv/link/out/passwd" 100 with
  | Err (FileReadRefused r _) => r = PARAMETERS_INVALID | _ => False end.
Proof. by vm_compute. Qed.

Lemma read_contained_witness :
  match read_within_scope open_all tree reader "/srv/link/report.txt" 5 with
  | Ok o => ro_data o = "hello" ∧ ro_truncated o = true ∧
      ∃ root dir ps bytes, granted_at tree (rs_roots reader) (rs_platform reader) root dir ∧
        parts (ro_path o) = parts root ++ ps ∧ ps ≠ [] ∧ real_dirs tree dir ps ∧
        kind_at tree (dir ++ ps) = Some (KFile bytes) ∧
        ro_data o = str_take (Z.to_nat 5) bytes ∧ ro_sha256 o = sha256_hex (ro_data o) ∧
        ro_size_bytes o = str_len bytes ∧ ro_returned_bytes o = str_len (ro_data o) ∧
        ro_truncated o = (Z.to_nat 5 <? String.length bytes)%nat
  | Err _ => False
  end.
Proof.
  destruct (read_within_scope open_all tree reader "/srv/link/report.txt" 5) as [o|e] eqn:E.
  - split; [|split].
    + vm_compute in E. by injection E as <-.
    + vm_compute in E. by injection E as <-.
    + by apply (read_contained open_all tree reader "/srv/link/report.txt" 5 o).
  - vm_compute in E. discriminate.
Defined.

(** The write replaces the report; nothing else changes. *)
Lemma write_confined_witness :
  let content := "new text" in
  let p := write_within_scope open_all tree writer "/srv/link/report.txt" content OVERWRITE (sha256_hex content) "r" NoFault in
  (∃ o, p.1 = Ok o ∧ wo_replaced o = true) ∧
  (∃ root dir ps name,
    granted_at tree (ws_roots writer) (ws_platform writer) root dir ∧
    (∀ a b, ps = a ++ b → is_dir tree (dir ++ a) = true) ∧
    (∀ q, q ≠ (dir ++ ps) ++ [name] → kind_at p.2 q = kind_at tree q) ∧
    kind_at p.2 ((dir ++ ps) ++ [name]) = Some (KFile content)).
Proof.
  intros content p. assert (Hp : ∃ o, p.1 = Ok o ∧ wo_replaced o = true) by (vm_compute; eexists; split; reflexivity).
  split; [exact Hp|]. destruct Hp as (o & Ho & _).
  destruct (write_confined open_all tree writer "/srv/link/report.txt" content OVERWRITE (sha256_hex content) "r" NoFault
    p.1 p.2) as [[_ [e He]]|(root & dir & ps & name & Hg & Hd & _ & _ & _ & Hq & _ & Hok)];
    [reflexivity|reflexivity|apply surjective_pairing|congruence|].
  exists root, dir, ps, name. split_and!; [exact Hg|exact Hd| |apply (Hok o Ho)]. intros q Hne. by destruct (Hq q Hne) as [|[? _]].
Defined.

(** A crash half way through writing the temporary file. *)
Lemma write_crash_atomic_witness :
  let tmp := temporary_name "report.txt" "r" in
  let crashed := put_entry tree ["srv"; "data"] tmp (EFile "new") in
  crashed ∈ write_states tree ["srv"; "data"] "report.txt" tmp "new text" ∧
  kind_at crashed ["srv"; "data"; "report.txt"] = Some (KFile "hello, world") ∧
  (∀ q, q ≠ ["srv"; "data"] ++ ["report.txt"] → q ≠ ["srv"; "data"] ++ [tmp] → kind_at crashed q = kind_at tree q).
Proof.
  intros tmp crashed.
  assert (Hin : crashed ∈ write_states tree ["srv"; "data"] "report.txt" tmp "new text").
  { unfold write_states. apply elem_of_cons. right. apply elem_of_app. left.
    apply list_elem_of_fmap. exists 3%nat. split; [reflexivity|]. apply elem_of_seq. vm_compute. lia. }
  split; [exact Hin|]. split; [reflexivity|].
  apply (write_crash_atomic tree ["srv"; "data"] "report.txt" "r" "new text"); [reflexivity|discriminate|reflexivity|exact Hin].
Defined.
