(* ===== verification/NodeAudit.v ===== *)
(** The tamper-evident audit chain of the node mesh
    (src/olympus/nodes/audit.py; [canonical_json], [digest_of] of crypto.py).

    Events are linked by hashing a canonical body that contains the previous
    event's hash. [verify_chain] recomputes every link. *)

From S2P Require Import Prelude PyTime Sha256 Json Redaction.

Open Scope Z_scope.

Definition canonical_json (payload : json) : string := utf8 (dumps payload).
Definition digest_of (payload : json) : string := sha256_hex (canonical_json payload).

Lemma canonical_json_inj a b : canonical_json a = canonical_json b → jnorm a = jnorm b.
Proof. intros H%utf8_inj. by apply dumps_inj_norm. Qed.

Definition AUDIT_EVENT_VERSION : Z := 1.
Definition GENESIS_HASH : string := "0000000000000000000000000000000000000000000000000000000000000000".

Inductive AuditDecision := AD_ALLOW | AD_DENY | AD_OBSERVE.
Inductive AuditAction :=
  | AA_ENROLLMENT_ISSUED | AA_ENROLLMENT_GRANT_REVOKED | AA_ENROLLMENT_REDEEMED
  | AA_ENROLLMENT_REJECTED | AA_SESSION_OPENED | AA_SESSION_REJECTED | AA_SESSION_CLOSED
  | AA_HEARTBEAT_EXPIRED | AA_NODE_QUARANTINED | AA_NODE_RESTORED | AA_NODE_REVOKED
  | AA_DISPATCH_ADMITTED | AA_DISPATCH_REFUSED | AA_DISPATCH_COMPLETED | AA_DISPATCH_CANCELLED
  | AA_DISPATCH_FROZEN | AA_DISPATCH_UNFROZEN | AA_JOB_RECONCILED.

#[export] Instance AuditDecision_eq : EqDecision AuditDecision.
Proof. solve_decision. Defined.
#[export] Instance AuditAction_eq : EqDecision AuditAction.
Proof. solve_decision. Defined.

Definition decision_value (d : AuditDecision) : string :=
  match d with AD_ALLOW => "allow" | AD_DENY => "deny" | AD_OBSERVE => "observe" end.

Definition action_value (a : AuditAction) : string :=
  match a with
  | AA_ENROLLMENT_ISSUED => "enrollment-token-issued"
  | AA_ENROLLMENT_GRANT_REVOKED => "enrollment-token-revoked"
  | AA_ENROLLMENT_REDEEMED => "enrollment-redeemed"
  | AA_ENROLLMENT_REJECTED => "enrollment-rejected"
  | AA_SESSION_OPENED => "session-opened"
  | AA_SESSION_REJECTED => "session-rejected"
  | AA_SESSION_CLOSED => "session-closed"
  | AA_HEARTBEAT_EXPIRED => "heartbeat-expired"
  | AA_NODE_QUARANTINED => "node-quarantined"
  | AA_NODE_RESTORED => "node-restored"
  | AA_NODE_REVOKED => "node-revoked"
  | AA_DISPATCH_ADMITTED => "dispatch-admitted"
  | AA_DISPATCH_REFUSED => "dispatch-refused"
  | AA_DISPATCH_COMPLETED => "dispatch-completed"
  | AA_DISPATCH_CANCELLED => "dispatch-cancelled"
  | AA_DISPATCH_FROZEN => "dispatch-frozen"
  | AA_DISPATCH_UNFROZEN => "dispatch-unfrozen"
  | AA_JOB_RECONCILED => "job-reconciled"
  end.

Record AuditDraft := mkDraft {
  d_actor : string;
  d_action : AuditAction;
  d_decision : AuditDecision;
  d_reason : string;
  d_node_id : option string;
  d_job_id : option string;
  d_payload : json }.

Definition redacted_payload (d : AuditDraft) : json := redact_value (d_payload d).

Record NodeAuditEvent := mkEvent {
  e_sequence : Z;
  e_event_id : string;
  e_version : Z;
  e_recorded_at : string;
  e_actor : string;
  e_action : AuditAction;
  e_decision : AuditDecision;
  e_reason : string;
  e_node_id : option string;
  e_job_id : option string;
  e_payload : json;
  e_payload_digest : string;
  e_previous_hash : string;
  e_event_hash : string }.

Definition opt_str (o : option string) : json := match o with Some s => JStr s | None => JNull end.

(** [NodeAuditEvent.body]: every field but the hash. *)
Definition body (e : NodeAuditEvent) : json :=
  JObj [("sequence", JInt (e_sequence e)); ("event_id", JStr (e_event_id e));
        ("version", JInt (e_version e)); ("recorded_at", JStr (e_recorded_at e));
        ("actor", JStr (e_actor e)); ("action", JStr (action_value (e_action e)));
        ("decision", JStr (decision_value (e_decision e))); ("reason", JStr (e_reason e));
        ("node_id", opt_str (e_node_id e)); ("job_id", opt_str (e_job_id e));
        ("payload", e_payload e); ("payload_digest", JStr (e_payload_digest e));
        ("previous_hash", JStr (e_previous_hash e))].

Definition compute_event_hash (b : json) : string := sha256_hex (canonical_json b).

(** [replace(event, event_hash=h)] *)
Definition with_hash (e : NodeAuditEvent) (h : string) : NodeAuditEvent :=
  mkEvent (e_sequence e) (e_event_id e) (e_version e) (e_recorded_at e) (e_actor e) (e_action e)
    (e_decision e) (e_reason e) (e_node_id e) (e_job_id e) (e_payload e) (e_payload_digest e)
    (e_previous_hash e) h.

Definition link_event (d : AuditDraft) (sequence : Z) (previous_hash : string) (recorded_at : datetime)
    (event_id : string) : NodeAuditEvent :=
  let safe_payload := redacted_payload d in
  let unlinked := mkEvent sequence event_id AUDIT_EVENT_VERSION (isoformat recorded_at) (d_actor d)
    (d_action d) (d_decision d) (d_reason d) (d_node_id d) (d_job_id d) safe_payload
    (digest_of safe_payload) previous_hash "" in
  with_hash unlinked (compute_event_hash (body unlinked)).

(** The loop of [verify_chain]: [index] and [previous_hash] are its variables. *)
Fixpoint verify_from (index : Z) (previous_hash : string) (events : list NodeAuditEvent) : bool :=
  match events with
  | [] => true
  | e :: events' =>
      if negb (e_sequence e =? index) || negb (bool_decide (e_previous_hash e = previous_hash)) then false
      else if negb (bool_decide (e_payload_digest e = digest_of (e_payload e))) then false
      else if negb (bool_decide (compute_event_hash (body e) = e_event_hash e)) then false
      else verify_from (index + 1) (e_event_hash e) events'
  end.
Definition verify_chain (events : list NodeAuditEvent) : bool := verify_from 1 GENESIS_HASH events.

(** ** [NodeAuditLog] *)

Definition head_from (h : string) (events : list NodeAuditEvent) : string :=
  match last events with Some e => e_event_hash e | None => h end.
Definition log_head (events : list NodeAuditEvent) : string := head_from GENESIS_HASH events.

(** [append_draft]; the clock reading and the fresh event id are arguments. *)
Definition append_draft (events : list NodeAuditEvent) (d : AuditDraft) (now : datetime) (event_id : string) :
    list NodeAuditEvent :=
  events ++ [link_event d (Z.of_nat (length events) + 1) (log_head events) now event_id].

Definition extend (events more : list NodeAuditEvent) : list NodeAuditEvent := events ++ more.

(** ** Verified chains *)

Definition link_ok (index : Z) (h : string) (e : NodeAuditEvent) : Prop :=
  e_sequence e = index ∧ e_previous_hash e = h ∧ e_payload_digest e = digest_of (e_payload e) ∧
  compute_event_hash (body e) = e_event_hash e.

Lemma verify_from_cons i h e l :
  verify_from i h (e :: l) = true ↔ link_ok i h e ∧ verify_from (i + 1) (e_event_hash e) l = true.
Proof.
  unfold link_ok. cbn [verify_from]. split.
  - repeat case_match; try done; bool_to_prop. intros. split_and!; done.
  - intros [(-> & -> & -> & ->) H]. rewrite Z.eqb_refl, !bool_decide_refl. done.
Qed.

Lemma verify_from_app i h l1 l2 :
  verify_from i h (l1 ++ l2) = true ↔
  verify_from i h l1 = true ∧ verify_from (i + Z.of_nat (length l1)) (head_from h l1) l2 = true.
Proof.
  revert i h. induction l1 as [|e l1 IH]; intros i h.
  - simpl. rewrite Z.add_0_r. naive_solver.
  - rewrite <- app_comm_cons, !verify_from_cons, IH.
    assert (head_from h (e :: l1) = head_from (e_event_hash e) l1) as ->
      by (unfold head_from; rewrite last_cons; by destruct (last l1)).
    replace (i + Z.of_nat (length (e :: l1))) with (i + 1 + Z.of_nat (length l1)) by (simpl length; lia).
    tauto.
Qed.

Lemma verify_from_snoc i h l e :
  verify_from i h (l ++ [e]) = true ↔
  verify_from i h l = true ∧ link_ok (i + Z.of_nat (length l)) (head_from h l) e.
Proof. rewrite verify_from_app, verify_from_cons. simpl. tauto. Qed.

Lemma link_event_ok d i h now id : link_ok i h (link_event d i h now id).
Proof. unfold link_ok, link_event. simpl. split_and!; reflexivity. Qed.

Lemma append_draft_verifies events d now id :
  verify_chain events = true → verify_chain (append_draft events d now id) = true.
Proof.
  intros H. apply verify_from_snoc. split; [done|].
  rewrite Z.add_comm. apply link_event_ok.
Qed.

(** ** Tamper evidence *)

(** Events equal up to the order of the keys of their payload. *)
Definition event_equiv (e e' : NodeAuditEvent) : Prop :=
  jnorm (body e) = jnorm (body e') ∧ e_event_hash e = e_event_hash e'.

#[export] Instance event_equiv_equiv : Equivalence event_equiv.
Proof.
  unfold event_equiv. split; [done|by intros ?? []|].
  intros ??? [] []. split; congruence.
Qed.

(** The canonical body: its fields in key order. *)
Lemma jnorm_body x : jnorm (body x) = JObj
  [("action", JStr (action_value (e_action x))); ("actor", JStr (e_actor x));
   ("decision", JStr (decision_value (e_decision x))); ("event_id", JStr (e_event_id x));
   ("job_id", jnorm (opt_str (e_job_id x))); ("node_id", jnorm (opt_str (e_node_id x)));
   ("payload", jnorm (e_payload x)); ("payload_digest", JStr (e_payload_digest x));
   ("previous_hash", JStr (e_previous_hash x)); ("reason", JStr (e_reason x));
   ("recorded_at", JStr (e_recorded_at x)); ("sequence", JInt (e_sequence x));
   ("version", JInt (e_version x))].
Proof. reflexivity. Qed.

Lemma body_jnorm_inj e e' :
  jnorm (body e) = jnorm (body e') →
  e_sequence e = e_sequence e' ∧ e_previous_hash e = e_previous_hash e'.
Proof. intros H. rewrite !jnorm_body in H. by simplify_eq. Qed.

(** What [verify_chain] reads of an event does not depend on the order of keys. *)
Lemma canonical_json_norm a b : jnorm a = jnorm b → canonical_json a = canonical_json b.
Proof. intros H. unfold canonical_json. by rewrite <- (dumps_norm a), H, dumps_norm. Qed.

Lemma verify_from_equiv i h l l' : Forall2 event_equiv l l' → verify_from i h l = verify_from i h l'.
Proof.
  intros Hl. revert i h. induction Hl as [|e e' l l' [Hb Hh] _ IH]; intros i h; [done|]. cbn [verify_from].
  assert (Hp : jnorm (e_payload e) = jnorm (e_payload e') ∧ e_payload_digest e = e_payload_digest e') by (rewrite !jnorm_body in Hb; by simplify_eq).
  destruct Hp as [Hp Hd]. destruct (body_jnorm_inj _ _ Hb) as [-> ->]. unfold digest_of, compute_event_hash.
  by rewrite Hd, Hh, (canonical_json_norm _ _ Hp), (canonical_json_norm _ _ Hb), IH.
Qed.

(** The messages a chain hashes. *)
Definition messages (l : list NodeAuditEvent) : list string := map (λ e, canonical_json (body e)) l.

Lemma messages_snoc l e : messages (l ++ [e]) = messages l ++ [canonical_json (body e)].
Proof. unfold messages. by rewrite map_app. Qed.

Lemma same_hash_equiv e e' i i' h h' :
  link_ok i h e → link_ok i' h' e' → e_event_hash e = e_event_hash e' →
  event_equiv e e' ∨ sha_collides [canonical_json (body e); canonical_json (body e')].
Proof.
  intros (_ & _ & _ & H) (_ & _ & _ & H') Heq. unfold compute_event_hash in *.
  rewrite <- Heq, <- H in H'. symmetry in H'.
  destruct (sha256_hex_inj _ _ H') as [E|?]; [left|by right].
  split; [by apply canonical_json_inj|done].
Qed.

Lemma chains_agree l l' :
  verify_chain l = true → verify_chain l' = true → length l = length l' → log_head l = log_head l' →
  Forall2 event_equiv l l' ∨ sha_collides (messages l ++ messages l').
Proof.
  unfold verify_chain, log_head. revert l'. induction l as [|e l IH] using rev_ind; intros l' Hv Hv' Hlen Hh.
  - destruct l'; [by left|done].
  - destruct l' as [|e' l' _] using rev_ind; [rewrite length_app in Hlen; simpl in Hlen; lia|].
    rewrite !length_app in Hlen. simpl in Hlen.
    apply verify_from_snoc in Hv as [Hv Hl], Hv' as [Hv' Hl'].
    unfold head_from in Hh at 1 2. rewrite !last_snoc in Hh.
    destruct (same_hash_equiv _ _ _ _ _ _ Hl Hl' Hh) as [He|Hc].
    + destruct (body_jnorm_inj _ _ (proj1 He)) as [_ Hp].
      destruct Hl as (_ & Hl & _), Hl' as (_ & Hl' & _).
      destruct (IH l') as [Hf|Hc]; [done|done|lia|congruence| |].
      * left. apply Forall2_app; [done|]. constructor; [done|constructor].
      * right. eapply sha_collides_mono; [|exact Hc]. rewrite !messages_snoc. set_solver.
    + right. eapply sha_collides_mono; [|exact Hc]. rewrite !messages_snoc. set_solver.
Qed.

Lemma verified_head_length l l' :
  verify_chain l = true → verify_chain l' = true → l ≠ [] → l' ≠ [] → log_head l = log_head l' →
  length l = length l' ∨ sha_collides (messages l ++ messages l').
Proof.
  unfold verify_chain, log_head. intros Hv Hv' Hn Hn' Hh.
  destruct l as [|e l _] using rev_ind; [done|]. destruct l' as [|e' l' _] using rev_ind; [done|].
  apply verify_from_snoc in Hv as [_ Hl], Hv' as [_ Hl'].
  unfold head_from in Hh at 1 2. rewrite !last_snoc in Hh.
  destruct (same_hash_equiv _ _ _ _ _ _ Hl Hl' Hh) as [He|Hc].
  - left. destruct (body_jnorm_inj _ _ (proj1 He)) as [Hs _].
    destruct Hl as (Hl & _), Hl' as (Hl' & _). rewrite !length_app. simpl. lia.
  - right. eapply sha_collides_mono; [|exact Hc]. rewrite !messages_snoc. set_solver.
Qed.

(** C10. Tamper evidence of the mesh audit chain: two non-empty chains that both
    verify and end in the same head hash have the same length and record the
    same events in the same order (payloads up to key order), unless two of the
    bodies the chains hashed are a SHA-256 collision. Publishing one head hash
    therefore commits to the whole history. *)
Theorem verified_chain_unique l l' :
  verify_chain l = true → verify_chain l' = true → l ≠ [] → l' ≠ [] → log_head l = log_head l' →
  Forall2 event_equiv l l' ∨ sha_collides (messages l ++ messages l').
Proof.
  intros. destruct (verified_head_length l l') as [?|?]; [done..| |by right].
  by apply chains_agree.
Qed.

Definition sample_draft : AuditDraft :=
  mkDraft "operator" AA_DISPATCH_FROZEN AD_ALLOW "drill" None None (JObj [("freeze_epoch", JInt 1)]).

Lemma verified_chain_unique_witness :
  let l := append_draft (append_draft [] sample_draft (seconds 5) "nae-1") sample_draft (seconds 6) "nae-2" in
  verify_chain l = true ∧ l ≠ [] ∧ (Forall2 event_equiv l l ∨ sha_collides (messages l ++ messages l)).
Proof.
  cbv zeta.
  assert (H : verify_chain (append_draft (append_draft [] sample_draft (seconds 5) "nae-1")
                              sample_draft (seconds 6) "nae-2") = true)
    by (apply append_draft_verifies, append_draft_verifies; reflexivity).
  split; [exact H|]. split; [discriminate|].
  apply verified_chain_unique; [exact H|exact H|discriminate|discriminate|reflexivity].
Defined.
