(* ===== verification/NodeStore.v ===== *)
(** The transactional store of the node mesh (src/olympus/nodes/store.py).

    A transaction body is a program over the operations of the
    [NodeMeshTransaction] protocol. [run_buffered] executes it the way
    [_InMemoryTransaction] does: reads see the buffered writes over the store,
    [commit] merges the buffers and links the audit drafts, and an exception
    discards everything. [run_atomic] is the abstract contract: each operation
    acts directly on the store, and an exception restores the store as it was.
    [transaction_refines] shows the buffered transaction implements the
    contract. *)

From S2P Require Import Prelude PyDict PyTime Json NodeModels NodeAudit.

Open Scope Z_scope.

(** ** State *)

Record MeshStore := mkStore {
  s_tokens : dict string EnrollmentTokenRecord;
  s_nodes : dict string NodeRecord;
  s_jobs : dict string NodeJobRecord;
  s_control : DispatchControlState;
  s_events : list NodeAuditEvent }.

Definition empty_store : MeshStore := mkStore [] [] [] default_control [].

(** ** Transaction programs: the [NodeMeshTransaction] protocol *)

Inductive Tx (A : Type) : Type :=
  | TxRet (a : A)
  | TxRaise (e : exn)
  | TxGetToken (token_id : string) (k : option EnrollmentTokenRecord → Tx A)
  | TxPutToken (t : EnrollmentTokenRecord) (k : Tx A)
  | TxListTokens (k : list EnrollmentTokenRecord → Tx A)
  | TxGetNode (node_id : string) (k : option NodeRecord → Tx A)
  | TxPutNode (n : NodeRecord) (k : Tx A)
  | TxListNodes (k : list NodeRecord → Tx A)
  | TxGetControl (k : DispatchControlState → Tx A)
  | TxPutControl (c : DispatchControlState) (k : Tx A)
  | TxGetJob (job_id : string) (k : option NodeJobRecord → Tx A)
  | TxPutJob (j : NodeJobRecord) (k : Tx A)
  | TxListJobs (k : list NodeJobRecord → Tx A)
  | TxAudit (d : AuditDraft) (k : Tx A).
Arguments TxRet {A} _.
Arguments TxRaise {A} _.
Arguments TxGetToken {A} _ _.
Arguments TxPutToken {A} _ _.
Arguments TxListTokens {A} _.
Arguments TxGetNode {A} _ _.
Arguments TxPutNode {A} _ _.
Arguments TxListNodes {A} _.
Arguments TxGetControl {A} _.
Arguments TxPutControl {A} _ _.
Arguments TxGetJob {A} _ _.
Arguments TxPutJob {A} _ _.
Arguments TxListJobs {A} _.
Arguments TxAudit {A} _ _.

Fixpoint tx_bind {A B} (f : A → Tx B) (p : Tx A) : Tx B :=
  match p with
  | TxRet a => f a
  | TxRaise e => TxRaise e
  | TxGetToken i k => TxGetToken i (λ r, tx_bind f (k r))
  | TxPutToken t k => TxPutToken t (tx_bind f k)
  | TxListTokens k => TxListTokens (λ r, tx_bind f (k r))
  | TxGetNode i k => TxGetNode i (λ r, tx_bind f (k r))
  | TxPutNode n k => TxPutNode n (tx_bind f k)
  | TxListNodes k => TxListNodes (λ r, tx_bind f (k r))
  | TxGetControl k => TxGetControl (λ r, tx_bind f (k r))
  | TxPutControl c k => TxPutControl c (tx_bind f k)
  | TxGetJob i k => TxGetJob i (λ r, tx_bind f (k r))
  | TxPutJob j k => TxPutJob j (tx_bind f k)
  | TxListJobs k => TxListJobs (λ r, tx_bind f (k r))
  | TxAudit d k => TxAudit d (tx_bind f k)
  end.

#[export] Instance tx_mret : MRet Tx := @TxRet.
#[export] Instance tx_mbind : MBind Tx := @tx_bind.

Definition get_enrollment_token (i : string) : Tx (option EnrollmentTokenRecord) := TxGetToken i TxRet.
Definition put_enrollment_token (t : EnrollmentTokenRecord) : Tx () := TxPutToken t (TxRet ()).
Definition list_enrollment_tokens : Tx (list EnrollmentTokenRecord) := TxListTokens TxRet.
Definition get_node (i : string) : Tx (option NodeRecord) := TxGetNode i TxRet.
Definition put_node (n : NodeRecord) : Tx () := TxPutNode n (TxRet ()).
Definition list_nodes : Tx (list NodeRecord) := TxListNodes TxRet.
Definition get_dispatch_control : Tx DispatchControlState := TxGetControl TxRet.
Definition put_dispatch_control (c : DispatchControlState) : Tx () := TxPutControl c (TxRet ()).
Definition get_job (i : string) : Tx (option NodeJobRecord) := TxGetJob i TxRet.
Definition put_job (j : NodeJobRecord) : Tx () := TxPutJob j (TxRet ()).
Definition list_jobs : Tx (list NodeJobRecord) := TxListJobs TxRet.
Definition append_audit (d : AuditDraft) : Tx () := TxAudit d (TxRet ()).
Definition tx_lift {A} (r : result exn A) : Tx A :=
  match r with Ok a => TxRet a | Err e => TxRaise e end.

(** ** The buffered transaction *)

Record Buffer := mkBuffer {
  b_tokens : dict string EnrollmentTokenRecord;
  b_nodes : dict string NodeRecord;
  b_jobs : dict string NodeJobRecord;
  b_control : option DispatchControlState;
  b_drafts : list AuditDraft }.

Definition empty_buffer : Buffer := mkBuffer [] [] [] None [].

Definition buf_put_token (t : EnrollmentTokenRecord) (b : Buffer) : Buffer :=
  mkBuffer (dset (t_token_id t) t (b_tokens b)) (b_nodes b) (b_jobs b) (b_control b) (b_drafts b).
Definition buf_put_node (n : NodeRecord) (b : Buffer) : Buffer :=
  mkBuffer (b_tokens b) (dset (n_node_id n) n (b_nodes b)) (b_jobs b) (b_control b) (b_drafts b).
Definition buf_put_job (j : NodeJobRecord) (b : Buffer) : Buffer :=
  mkBuffer (b_tokens b) (b_nodes b) (dset (j_job_id j) j (b_jobs b)) (b_control b) (b_drafts b).
Definition buf_put_control (c : DispatchControlState) (b : Buffer) : Buffer :=
  mkBuffer (b_tokens b) (b_nodes b) (b_jobs b) (Some c) (b_drafts b).
Definition buf_append (d : AuditDraft) (b : Buffer) : Buffer :=
  mkBuffer (b_tokens b) (b_nodes b) (b_jobs b) (b_control b) (b_drafts b ++ [d]).

(** [if k in buffer: return buffer[k]; return store.get(k)] *)
Definition overlay_get {V} (k : string) (buffer store : dict string V) : option V :=
  match dget k buffer with Some v => Some v | None => dget k store end.
(** [merged = dict(store); merged.update(buffer); tuple(merged.values())] *)
Definition overlay_values {V} (buffer store : dict string V) : list V := dvalues (dupdate store buffer).
Definition overlay_control (b : Buffer) (s : MeshStore) : DispatchControlState :=
  match b_control b with Some c => c | None => s_control s end.

Fixpoint run_buffered {A} (p : Tx A) (s : MeshStore) (b : Buffer) : result exn A * Buffer :=
  match p with
  | TxRet a => (Ok a, b)
  | TxRaise e => (Err e, b)
  | TxGetToken i k => run_buffered (k (overlay_get i (b_tokens b) (s_tokens s))) s b
  | TxPutToken t k => run_buffered k s (buf_put_token t b)
  | TxListTokens k => run_buffered (k (overlay_values (b_tokens b) (s_tokens s))) s b
  | TxGetNode i k => run_buffered (k (overlay_get i (b_nodes b) (s_nodes s))) s b
  | TxPutNode n k => run_buffered k s (buf_put_node n b)
  | TxListNodes k => run_buffered (k (overlay_values (b_nodes b) (s_nodes s))) s b
  | TxGetControl k => run_buffered (k (overlay_control b s)) s b
  | TxPutControl c k => run_buffered k s (buf_put_control c b)
  | TxGetJob i k => run_buffered (k (overlay_get i (b_jobs b) (s_jobs s))) s b
  | TxPutJob j k => run_buffered k s (buf_put_job j b)
  | TxListJobs k => run_buffered (k (overlay_values (b_jobs b) (s_jobs s))) s b
  | TxAudit d k => run_buffered k s (buf_append d b)
  end.

(** ** Direct operations on the store *)

Definition store_put_token (t : EnrollmentTokenRecord) (s : MeshStore) : MeshStore :=
  mkStore (dset (t_token_id t) t (s_tokens s)) (s_nodes s) (s_jobs s) (s_control s) (s_events s).
Definition store_put_node (n : NodeRecord) (s : MeshStore) : MeshStore :=
  mkStore (s_tokens s) (dset (n_node_id n) n (s_nodes s)) (s_jobs s) (s_control s) (s_events s).
Definition store_put_job (j : NodeJobRecord) (s : MeshStore) : MeshStore :=
  mkStore (s_tokens s) (s_nodes s) (dset (j_job_id j) j (s_jobs s)) (s_control s) (s_events s).
Definition store_put_control (c : DispatchControlState) (s : MeshStore) : MeshStore :=
  mkStore (s_tokens s) (s_nodes s) (s_jobs s) c (s_events s).

Section Store.

(** The clock reading and the fresh event id used for the event with a given
    sequence number. *)
Context (stamp : nat → datetime * string).

Definition link_one (events : list NodeAuditEvent) (d : AuditDraft) : list NodeAuditEvent :=
  let st := stamp (length events) in append_draft events d st.1 st.2.

Definition store_audit (d : AuditDraft) (s : MeshStore) : MeshStore :=
  mkStore (s_tokens s) (s_nodes s) (s_jobs s) (s_control s) (link_one (s_events s) d).

(** [_InMemoryTransaction.commit] *)
Definition commit (b : Buffer) (s : MeshStore) : MeshStore :=
  mkStore (dupdate (s_tokens s) (b_tokens b)) (dupdate (s_nodes s) (b_nodes b))
    (dupdate (s_jobs s) (b_jobs b)) (overlay_control b s)
    (foldl link_one (s_events s) (b_drafts b)).

(** [async with store.transaction() as tx: body] *)
Definition transaction {A} (body : Tx A) : St MeshStore exn A := λ s,
  match run_buffered body s empty_buffer with
  | (Ok a, b) => (Ok a, commit b s)
  | (Err e, _) => (Err e, s)
  end.

(** The contract: operations act on the store as they are performed. *)
Fixpoint run_direct {A} (p : Tx A) (s : MeshStore) : result exn A * MeshStore :=
  match p with
  | TxRet a => (Ok a, s)
  | TxRaise e => (Err e, s)
  | TxGetToken i k => run_direct (k (dget i (s_tokens s))) s
  | TxPutToken t k => run_direct k (store_put_token t s)
  | TxListTokens k => run_direct (k (dvalues (s_tokens s))) s
  | TxGetNode i k => run_direct (k (dget i (s_nodes s))) s
  | TxPutNode n k => run_direct k (store_put_node n s)
  | TxListNodes k => run_direct (k (dvalues (s_nodes s))) s
  | TxGetControl k => run_direct (k (s_control s)) s
  | TxPutControl c k => run_direct k (store_put_control c s)
  | TxGetJob i k => run_direct (k (dget i (s_jobs s))) s
  | TxPutJob j k => run_direct k (store_put_job j s)
  | TxListJobs k => run_direct (k (dvalues (s_jobs s))) s
  | TxAudit d k => run_direct k (store_audit d s)
  end.

(** All or nothing. *)
Definition run_atomic {A} (body : Tx A) : St MeshStore exn A := λ s,
  match run_direct body s with
  | (Ok a, s') => (Ok a, s')
  | (Err e, _) => (Err e, s)
  end.

(** [audit_events], [audit_head], [verify_audit_chain], [seed_audit] *)
Definition audit_events (s : MeshStore) : list NodeAuditEvent := s_events s.
Definition audit_head (s : MeshStore) : string := log_head (s_events s).
Definition verify_audit_chain (s : MeshStore) : bool := verify_chain (s_events s).
Definition seed_audit (events : list NodeAuditEvent) (s : MeshStore) : MeshStore :=
  mkStore (s_tokens s) (s_nodes s) (s_jobs s) (s_control s) (extend (s_events s) events).

(** ** The buffered transaction refines the contract *)

Definition buffer_wf (b : Buffer) : Prop :=
  dict_wf (b_tokens b) ∧ dict_wf (b_nodes b) ∧ dict_wf (b_jobs b).

Lemma commit_put_token t b s :
  buffer_wf b → commit (buf_put_token t b) s = store_put_token t (commit b s).
Proof. intros (?&?&?). unfold commit, store_put_token. simpl. by rewrite dupdate_dset. Qed.
Lemma commit_put_node n b s :
  buffer_wf b → commit (buf_put_node n b) s = store_put_node n (commit b s).
Proof. intros (?&?&?). unfold commit, store_put_node. simpl. by rewrite dupdate_dset. Qed.
Lemma commit_put_job j b s :
  buffer_wf b → commit (buf_put_job j b) s = store_put_job j (commit b s).
Proof. intros (?&?&?). unfold commit, store_put_job. simpl. by rewrite dupdate_dset. Qed.
Lemma commit_audit d b s : commit (buf_append d b) s = store_audit d (commit b s).
Proof. unfold commit, store_audit, overlay_control. simpl. by rewrite foldl_app. Qed.

(** Simulation: the committed image of the buffer is the direct state. *)
Lemma buffered_simulates {A} (p : Tx A) s b : buffer_wf b →
  run_direct p (commit b s) = let r := run_buffered p s b in (r.1, commit r.2 s).
Proof.
  revert b. induction p; intros b Hb; simpl; try done.
  - rewrite <- H by done. do 2 f_equal. unfold overlay_get. destruct Hb as (?&?&?). by rewrite dget_dupdate.
  - rewrite <- commit_put_token by done. apply IHp. destruct Hb as (?&?&?). split_and!; simpl; auto with olympus.
  - by rewrite <- H.
  - rewrite <- H by done. do 2 f_equal. unfold overlay_get. destruct Hb as (?&?&?). by rewrite dget_dupdate.
  - rewrite <- commit_put_node by done. apply IHp. destruct Hb as (?&?&?). split_and!; simpl; auto with olympus.
  - by rewrite <- H.
  - by rewrite <- H.
  - by apply (IHp (buf_put_control c b)).
  - rewrite <- H by done. do 2 f_equal. unfold overlay_get. destruct Hb as (?&?&?). by rewrite dget_dupdate.
  - rewrite <- commit_put_job by done. apply IHp. destruct Hb as (?&?&?). split_and!; simpl; auto with olympus.
  - by rewrite <- H.
  - rewrite <- commit_audit. by apply IHp.
Qed.

Lemma commit_empty s : commit empty_buffer s = s.
Proof. by destruct s. Qed.

Lemma transaction_atomic {A} (p : Tx A) s : transaction p s = run_atomic p s.
Proof.
  assert (H := buffered_simulates p s empty_buffer). rewrite commit_empty in H.
  unfold transaction, run_atomic. rewrite H by (split_and!; constructor).
  simpl. by destruct (run_buffered p s empty_buffer) as [[]].
Qed.

(** C5. The buffered in-memory transaction implements the transactional
    contract exactly, dictionary order included: for every transaction body and
    store, running it with buffered reads, writes and audit drafts and then
    committing gives the same result and the same store as performing its
    operations one by one on the store; and when the body raises, the store is
    the one it started from. *)
Theorem transaction_refines {A} (p : Tx A) s :
  transaction p s = match run_direct p s with
                    | (Ok a, s') => (Ok a, s')
                    | (Err e, _) => (Err e, s)
                    end.
Proof. apply transaction_atomic. Qed.

(** ** What every transaction preserves *)

(** Tables are dictionaries keyed by the identifier of their records. *)
Record store_wf (s : MeshStore) : Prop := {
  sw_tokens : dict_wf (s_tokens s);
  sw_nodes : dict_wf (s_nodes s);
  sw_jobs : dict_wf (s_jobs s);
  sw_token_key : dall (λ k t, t_token_id t = k) (s_tokens s);
  sw_node_key : dall (λ k n, n_node_id n = k) (s_nodes s);
  sw_job_key : dall (λ k j, j_job_id j = k) (s_jobs s) }.

Lemma empty_store_wf : store_wf empty_store.
Proof. split; try done; constructor. Qed.

(** The chain only grows, and keeps verifying. *)
Definition chain_extends (s s' : MeshStore) : Prop :=
  (∃ more, s_events s' = s_events s ++ more) ∧
  (verify_chain (s_events s) = true → verify_chain (s_events s') = true).

#[export] Instance chain_extends_refl : Reflexive chain_extends.
Proof. intros s. split; [|done]. exists []. by rewrite app_nil_r. Qed.
#[export] Instance chain_extends_trans : Transitive chain_extends.
Proof.
  intros s1 s2 s3 [[m1 E1] H1] [[m2 E2] H2]. split; [|auto].
  exists (m1 ++ m2). by rewrite E2, E1, app_assoc.
Qed.

Lemma store_audit_extends d s : chain_extends s (store_audit d s).
Proof.
  unfold store_audit, link_one, append_draft. split; [by eexists|]. simpl. apply append_draft_verifies.
Qed.

Lemma run_direct_preserves {A} (p : Tx A) s :
  store_wf s → store_wf (run_direct p s).2 ∧ chain_extends s (run_direct p s).2.
Proof.
  revert s. induction p; intros s Hs; simpl; try (by split); auto.
  - destruct (IHp (store_put_token t s)) as [? [? ?]].
    { destruct Hs. split; simpl; auto with olympus. }
    by split.
  - destruct (IHp (store_put_node n s)) as [? [? ?]].
    { destruct Hs. split; simpl; auto with olympus. }
    by split.
  - destruct (IHp (store_put_control c s)) as [? [? ?]]; [by destruct Hs; split|]. by split.
  - destruct (IHp (store_put_job j s)) as [? [? ?]].
    { destruct Hs. split; simpl; auto with olympus. }
    by split.
  - destruct (IHp (store_audit d s)) as [? ?]; [by destruct Hs; split|].
    split; [done|]. etransitivity; [apply store_audit_extends|done].
Qed.

Lemma transaction_preserves {A} (p : Tx A) s :
  store_wf s → store_wf (final (transaction p s)) ∧ chain_extends s (final (transaction p s)).
Proof.
  intros Hs. rewrite transaction_atomic. unfold run_atomic.
  destruct (run_direct_preserves p s Hs). destruct (run_direct p s) as [[] ?]; by split.
Qed.

(** Bodies that only read leave the store alone. *)
Lemma run_direct_bind {A B} (p : Tx A) (f : A → Tx B) s :
  run_direct (p ≫= f) s =
  match run_direct p s with (Ok a, s') => run_direct (f a) s' | (Err e, s') => (Err e, s') end.
Proof. revert s. induction p; intros s; simpl; try done; auto. Qed.
End Store.
