(* ===== verification/NodeCrypto.v ===== *)
(** Encodings and enrollment secrets (src/olympus/nodes/crypto.py).

    [binascii]'s base64 decoder is the Python standard library's and is modelled
    with its lenient rules. Ed25519 comes from third-party packages: signing,
    verification and key loading are parameters. Random bytes are arguments. *)

From S2P Require Import Prelude PyDict Json JsonParse Sha256 NodeModels NodeAudit.
From Stdlib Require Import Ascii.

Open Scope N_scope.

(** ** Base64url *)

Definition code (c : ascii) : N := N_of_ascii c.

(** The alphabet of [urlsafe_b64encode]. *)
Definition b64_char (n : N) : ascii :=
  ascii_of_N (if n <? 26 then n + 65 else if n <? 52 then n + 71
              else if n <? 62 then n - 4 else if n =? 62 then 45 else 95).

(** The table of the decoder after [-_] were translated to [+/]. *)
Definition b64_val (c : ascii) : option N :=
  let n := code c in
  if (65 <=? n) && (n <=? 90) then Some (n - 65)
  else if (97 <=? n) && (n <=? 122) then Some (n - 71)
  else if (48 <=? n) && (n <=? 57) then Some (n + 4)
  else if (n =? 43) || (n =? 45) then Some 62
  else if (n =? 47) || (n =? 95) then Some 63
  else None.

Definition is_pad (c : ascii) : bool := code c =? 61.

(** [base64.urlsafe_b64encode] *)
Fixpoint b64encode (s : string) : string :=
  match s with
  | String a (String b (String c s')) =>
      String (b64_char (code a / 4)) (String (b64_char ((code a mod 4) * 16 + code b / 16))
        (String (b64_char ((code b mod 16) * 4 + code c / 64)) (String (b64_char (code c mod 64)) (b64encode s'))))
  | String a (String b EmptyString) =>
      String (b64_char (code a / 4)) (String (b64_char ((code a mod 4) * 16 + code b / 16))
        (String (b64_char ((code b mod 16) * 4)) "="))
  | String a EmptyString => String (b64_char (code a / 4)) (String (b64_char ((code a mod 4) * 16)) "==")
  | EmptyString => EmptyString
  end.

(** [text.rstrip("=")] *)
Fixpoint rstrip_pad (s : string) : string :=
  match s with
  | EmptyString => EmptyString
  | String c s' =>
      match rstrip_pad s' with
      | EmptyString => if is_pad c then EmptyString else String c EmptyString
      | r => String c r
      end
  end.

Definition encode_bytes (raw : string) : string := rstrip_pad (b64encode raw).

(** [binascii.a2b_base64] in its default mode: characters outside the alphabet
    are skipped, enough padding ends the input. *)
Fixpoint a2b (s : string) (quad_pos left pads : N) : option string :=
  match s with
  | EmptyString => if quad_pos =? 0 then Some EmptyString else None
  | String c s' =>
      if is_pad c then
        if 2 <=? quad_pos then
          if 4 <=? quad_pos + (pads + 1) then Some EmptyString else a2b s' quad_pos left (pads + 1)
        else a2b s' quad_pos left pads
      else match b64_val c with
      | None => a2b s' quad_pos left pads
      | Some v =>
          if quad_pos =? 0 then a2b s' 1 v 0
          else if quad_pos =? 1 then String (ascii_of_N (left * 4 + v / 16)) <$> a2b s' 2 (v mod 16) 0
          else if quad_pos =? 2 then String (ascii_of_N (left * 16 + v / 4)) <$> a2b s' 3 (v mod 4) 0
          else String (ascii_of_N (left * 64 + v)) <$> a2b s' 0 0 0
      end
  end.

(** ["=" * (-len(text) % 4)] *)
Definition padding (text : string) : string :=
  match N.of_nat (String.length text) mod 4 with
  | 0 => "" | 1 => "===" | 2 => "==" | _ => "=" end.

Definition is_ascii (s : string) : bool := all_chars (λ c, code c <? 128) s.

Definition decode_bytes (text : string) : result exn string :=
  ensure (negb (is_empty text)) (NodeMeshError HANDSHAKE_MALFORMED);;
  let padded := text +:+ padding text in
  ensure (is_ascii padded) (NodeMeshError HANDSHAKE_MALFORMED);;
  require_some (a2b padded 0 0 0) (NodeMeshError HANDSHAKE_MALFORMED).

Example encode_hello : encode_bytes "hello?>" = "aGVsbG8_Pg". Proof. reflexivity. Qed.
Example decode_hello : decode_bytes "aGVsbG8_Pg" = Ok "hello?>". Proof. reflexivity. Qed.
Example decode_lenient : decode_bytes "aG!Vs" = decode_bytes "aGVs". Proof. reflexivity. Qed.

(** ** Enrollment secrets *)

Definition ENROLLMENT_PREFIX : string := "olynode".
Definition SIGNED_ENROLLMENT_PREFIX : string := "olynodev2".
Definition ENROLLMENT_HASH_DOMAIN : string := "olympus-node-enrollment-v1".

Record IssuedEnrollmentSecret := mkSecret { is_token_id : string; is_presented : string; is_secret_hash : string }.

Definition hash_enrollment_secret (token_id secret_value : string) : string :=
  sha256_hex (ENROLLMENT_HASH_DOMAIN +:+ ":" +:+ utf8 token_id +:+ ":" +:+ utf8 secret_value).

(** [token_hex] and [token_urlsafe] encode random bytes. *)
Definition new_enrollment_secret (id_bytes secret_bytes : string) : IssuedEnrollmentSecret :=
  let token_id := hex id_bytes in
  let secret_value := encode_bytes secret_bytes in
  mkSecret token_id (ENROLLMENT_PREFIX +:+ "_" +:+ token_id +:+ "_" +:+ secret_value)
    (hash_enrollment_secret token_id secret_value).

Definition split_enrollment_token (presented : string) : result exn (string * string) :=
  match split_char_n "_" 2 presented with
  | [prefix; token_id; secret_value] =>
      ensure (bool_decide (prefix = ENROLLMENT_PREFIX) && negb (is_empty token_id)
              && negb (is_empty secret_value)) (NodeMeshError ENROLLMENT_MALFORMED);;
      Ok (token_id, secret_value)
  | _ => Err (NodeMeshError ENROLLMENT_MALFORMED)
  end.

Definition enrollment_secret_matches (token_id secret_value expected_hash : string) : bool :=
  bool_decide (hash_enrollment_secret token_id secret_value = expected_hash).

(** The body hashed by [dedupe_key_for]. *)
Definition dedupe_body (job_id capability : string) (parameters : json) : json :=
  JObj [("domain", JStr "olympus-node-dedupe-v1"); ("job_id", JStr job_id);
        ("capability", JStr capability); ("parameters", parameters)].
Definition dedupe_key_for (job_id capability : string) (parameters : json) : string :=
  sha256_hex (canonical_json (dedupe_body job_id capability parameters)).

(** ** Ed25519 *)

Section Ed25519.
(** [from_public_bytes] accepts, [sign], [public_key] and [verify] of the
    Ed25519 implementation, on raw bytes. *)
Context (ed_key_ok : string → bool) (ed_public : string → string).
Context (ed_sign : string → string → string) (ed_verify : string → string → string → bool).

Definition load_private_key (private_key : string) : result exn string :=
  raw ← decode_bytes private_key;
  ensure (Nat.eqb (String.length raw) 32) (NodeMeshError ENROLLMENT_KEY_INVALID);;
  Ok raw.

Definition load_public_key (public_key : string) : result exn string :=
  raw ← decode_bytes public_key;
  ensure (Nat.eqb (String.length raw) 32) (NodeMeshError ENROLLMENT_KEY_INVALID);;
  ensure (ed_key_ok raw) (NodeMeshError ENROLLMENT_KEY_INVALID);;
  Ok raw.

Definition public_key_of (private_key : string) : result exn string :=
  raw ← load_private_key private_key; Ok (encode_bytes (ed_public raw)).

Definition sign_payload (private_key : string) (payload : json) : result exn string :=
  raw ← load_private_key private_key; Ok (encode_bytes (ed_sign raw (canonical_json payload))).

Definition verify_payload (public_key : string) (payload : json) (signature : string) (reason : NodeReason) :
    result exn () :=
  key ← load_public_key public_key;
  match decode_bytes signature with
  | Ok sig => ensure (ed_verify key (canonical_json payload) sig) (NodeMeshError reason)
  | Err _ => Err (NodeMeshError reason)
  end.

Definition SIGNED_DOMAIN : string := "olympus-signed-node-enrollment-v1".
Definition signed_payload (presented : string) : json :=
  JObj [("domain", JStr SIGNED_DOMAIN); ("token", JStr presented)].

Definition sign_enrollment_token (private_key presented : string) : result exn string :=
  split_enrollment_token presented;;
  let payload := signed_payload presented in
  signature ← sign_payload private_key payload;
  Ok (SIGNED_ENROLLMENT_PREFIX +:+ "." +:+ encode_bytes (canonical_json payload) +:+ "." +:+ signature).

(** The payload of a signed token, when it has exactly the two keys and the
    domain. A body that is not ASCII is not the canonical encoding of any
    payload and is refused here. *)
Definition signed_token_of (body : string) : option string :=
  match decode_bytes body with
  | Ok raw =>
      if is_ascii raw then
        match loads raw with
        | Some (JObj o) =>
            match dget "domain" o, dget "token" o with
            | Some (JStr d), Some (JStr t) =>
                if Nat.eqb (length o) 2 && bool_decide (d = SIGNED_DOMAIN)
                   && bool_decide (encode_bytes (canonical_json (JObj o)) = body)
                then Some t else None
            | _, _ => None
            end
        | _ => None
        end
      else None
  | Err _ => None
  end.

(** Every failure but a failed signature is reported as malformed. *)
Definition verify_signed_enrollment_token (public_key presented : string) : result exn string :=
  let malformed := NodeMeshError ENROLLMENT_MALFORMED in
  match split_char "." presented with
  | [prefix; body; signature] =>
      ensure (bool_decide (prefix = SIGNED_ENROLLMENT_PREFIX)) malformed;;
      token ← require_some (signed_token_of body) malformed;
      match verify_payload public_key (signed_payload token) signature ENROLLMENT_CREDENTIAL_MISMATCH with
      | Ok _ =>
          match split_enrollment_token token with Ok _ => Ok token | Err _ => Err malformed end
      | Err e => if bool_decide (e = NodeMeshError ENROLLMENT_CREDENTIAL_MISMATCH) then Err e else Err malformed
      end
  | _ => Err malformed
  end.
End Ed25519.

(** ** Base64 round trip *)

Lemma code_lt c : code c < 256.
Proof. apply N_ascii_bounded. Qed.

Lemma below_64 (P : N → bool) : forallb P (map N.of_nat (seq 0 64)) = true → ∀ n, n < 64 → P n = true.
Proof.
  rewrite forallb_forall. intros H n Hn. apply H, in_map_iff. exists (N.to_nat n).
  split; [lia|]. apply in_seq. lia.
Qed.

Lemma b64_char_not_pad n : n < 64 → is_pad (b64_char n) = false.
Proof. intros Hn. apply negb_true_iff. by apply (below_64 (λ n, negb (is_pad (b64_char n)))). Qed.

Lemma b64_val_char n : n < 64 → b64_val (b64_char n) = Some n.
Proof.
  intros Hn.
  set (P := λ m, bool_decide (b64_val (b64_char m) = Some m)).
  assert (H : P n = true) by by apply below_64.
  by apply bool_decide_eq_true in H.
Qed.

Lemma b64_char_ascii n : n < 64 → code (b64_char n) <? 128 = true.
Proof. intros. by apply (below_64 (λ n, code (b64_char n) <? 128)). Qed.

Lemma rstrip_pad_cons c s : is_pad c = false → rstrip_pad (String c s) = String c (rstrip_pad s).
Proof. intros H. simpl. rewrite H. by destruct (rstrip_pad s). Qed.

(** Induction three bytes at a time. *)
Lemma string_ind3 (P : string → Prop) :
  P "" → (∀ a, P (String a "")) → (∀ a b, P (String a (String b ""))) →
  (∀ a b c s, P s → P (String a (String b (String c s)))) → ∀ s, P s.
Proof.
  intros H0 H1 H2 H3 s. enough (P s ∧ (∀ a, P (String a s)) ∧ (∀ a b, P (String a (String b s)))) by tauto.
  induction s as [|c s (IH & IH1 & IH2)]; [done|]. split_and!; auto.
Qed.

(** The sextets of a group are below 64. *)
Lemma sextets a b c :
  code a / 4 < 64 ∧ (code a mod 4) * 16 + code b / 16 < 64 ∧
  (code b mod 16) * 4 + code c / 64 < 64 ∧ code c mod 64 < 64 ∧
  (code a mod 4) * 16 < 64 ∧ (code b mod 16) * 4 < 64.
Proof.
  assert (Ha := code_lt a). assert (Hb := code_lt b). assert (Hc := code_lt c).
  split_and!; try (apply N.Div0.div_lt_upper_bound; lia); try (apply N.mod_lt; lia).
  - assert (code a mod 4 < 4) by (apply N.mod_lt; lia).
    assert (code b / 16 < 16) by (apply N.Div0.div_lt_upper_bound; lia). lia.
  - assert (code b mod 16 < 16) by (apply N.mod_lt; lia).
    assert (code c / 64 < 4) by (apply N.Div0.div_lt_upper_bound; lia). lia.
  - assert (code a mod 4 < 4) by (apply N.mod_lt; lia). lia.
  - assert (code b mod 16 < 16) by (apply N.mod_lt; lia). lia.
Qed.

Ltac sextet_bounds a b c :=
  destruct (sextets a b c) as (?&?&?&?&?&?).

Lemma padding_cons4 a b c d s : padding (String a (String b (String c (String d s)))) = padding s.
Proof.
  unfold padding. simpl String.length.
  replace (N.of_nat (S (S (S (S (String.length s)))))) with (N.of_nat (String.length s) + 1 * 4) by lia.
  by rewrite N.Div0.mod_add.
Qed.

Lemma encode_pad s : encode_bytes s +:+ padding (encode_bytes s) = b64encode s.
Proof.
  unfold encode_bytes. induction s as [|a|a b|a b c s IH] using string_ind3; [done|..];
    cbn [b64encode].
  - sextet_bounds a a a. rewrite !rstrip_pad_cons by auto using b64_char_not_pad. done.
  - sextet_bounds a b b. rewrite !rstrip_pad_cons by auto using b64_char_not_pad. done.
  - sextet_bounds a b c. rewrite !rstrip_pad_cons, padding_cons4 by auto using b64_char_not_pad.
    simpl. by rewrite IH.
Qed.

Lemma byte_hi a b : code a / 4 * 4 + ((code a mod 4) * 16 + code b / 16) / 16 = code a.
Proof.
  rewrite N.div_add_l by lia.
  rewrite (N.div_small (code b / 16)), N.add_0_r; [by rewrite N.mul_comm, <- N.div_mod by lia|].
  apply N.Div0.div_lt_upper_bound. assert (Hb := code_lt b). lia.
Qed.

Lemma byte_mid b c x :
  (x * 16 + code b / 16) mod 16 * 16 + ((code b mod 16) * 4 + code c / 64) / 4 = code b.
Proof.
  assert (Hb := code_lt b). assert (Hc := code_lt c).
  rewrite (N.add_comm (x * 16)), N.Div0.mod_add.
  rewrite (N.mod_small (code b / 16)) by (apply N.Div0.div_lt_upper_bound; lia).
  rewrite N.div_add_l by lia.
  rewrite (N.div_small (code c / 64)), N.add_0_r by (apply N.Div0.div_lt_upper_bound; lia).
  rewrite (N.mul_comm (code b / 16)). symmetry. apply N.div_mod. lia.
Qed.

Lemma byte_lo c x : (x * 4 + code c / 64) mod 4 * 64 + code c mod 64 = code c.
Proof.
  assert (Hc := code_lt c).
  rewrite (N.add_comm (x * 4)), N.Div0.mod_add.
  rewrite (N.mod_small (code c / 64)) by (apply N.Div0.div_lt_upper_bound; lia).
  rewrite (N.mul_comm (code c / 64)). symmetry. apply N.div_mod. lia.
Qed.

(** One step of the decoder on an alphabet character. *)
Lemma a2b_char n s q l p : n < 64 → a2b (String (b64_char n) s) q l p =
  if q =? 0 then a2b s 1 n 0
  else if q =? 1 then String (ascii_of_N (l * 4 + n / 16)) <$> a2b s 2 (n mod 16) 0
  else if q =? 2 then String (ascii_of_N (l * 16 + n / 4)) <$> a2b s 3 (n mod 4) 0
  else String (ascii_of_N (l * 64 + n)) <$> a2b s 0 0 0.
Proof. intros Hn. cbn [a2b]. by rewrite b64_char_not_pad, b64_val_char. Qed.

Lemma a2b_encode s p : a2b (b64encode s) 0 0 p = Some s.
Proof.
  revert p. induction s as [|a|a b|a b c s IH] using string_ind3; intros p; [done|..]; cbn [b64encode].
  - sextet_bounds a a a. rewrite !a2b_char by done. simpl.
    rewrite N.div_mul by lia. f_equal. f_equal.
    rewrite N.mul_comm, <- N.div_mod by lia. apply ascii_N_embedding.
  - sextet_bounds a b b. rewrite !a2b_char by done. cbn [N.eqb Pos.eqb].
    rewrite byte_hi. rewrite <- (N.add_0_r (code b mod 16 * 4)) at 1.
    assert (Hm := byte_mid b zero (code a mod 4)). change (code zero / 64) with 0 in Hm. rewrite Hm.
    simpl. by rewrite !ascii_N_embedding.
  - sextet_bounds a b c. rewrite !a2b_char by done. cbn [N.eqb Pos.eqb].
    rewrite byte_hi, byte_mid, byte_lo, IH. simpl. by rewrite !ascii_N_embedding.
Qed.

Lemma b64encode_ascii s : is_ascii (b64encode s) = true.
Proof.
  unfold is_ascii. induction s as [|a|a b|a b c s IH] using string_ind3; [done|..]; cbn [b64encode all_chars].
  - sextet_bounds a a a. by rewrite !b64_char_ascii by done.
  - sextet_bounds a b b. by rewrite !b64_char_ascii by done.
  - sextet_bounds a b c. by rewrite !b64_char_ascii, IH by done.
Qed.

Lemma encode_nonempty s : is_empty s = false → is_empty (encode_bytes s) = false.
Proof.
  unfold encode_bytes. destruct s as [|a [|b [|c s]]]; [done|..]; intros _; cbn [b64encode].
  - sextet_bounds a a a. by rewrite rstrip_pad_cons by auto using b64_char_not_pad.
  - sextet_bounds a b b. by rewrite rstrip_pad_cons by auto using b64_char_not_pad.
  - sextet_bounds a b c. by rewrite rstrip_pad_cons by auto using b64_char_not_pad.
Qed.

Lemma decode_encode raw : is_empty raw = false → decode_bytes (encode_bytes raw) = Ok raw.
Proof.
  intros H. unfold decode_bytes. rewrite encode_nonempty by done. simpl.
  by rewrite encode_pad, b64encode_ascii, a2b_encode.
Qed.

Lemma encode_bytes_inj r r' :
  is_empty r = false → is_empty r' = false → encode_bytes r = encode_bytes r' → r = r'.
Proof.
  intros H H' He. apply decode_encode in H. apply decode_encode in H'. rewrite He in H. congruence.
Qed.

(** ** Canonical JSON is ASCII *)

Definition ascii_char (c : ascii) : bool := code c <? 128.

Lemma all_chars_app P a b : all_chars P (a +:+ b) = all_chars P a && all_chars P b.
Proof. induction a as [|c a IH]; simpl; [done|]. by rewrite IH, andb_assoc. Qed.

Lemma all_chars_mono (P Q : ascii → bool) s :
  (∀ c, P c = true → Q c = true) → all_chars P s = true → all_chars Q s = true.
Proof.
  intros H. induction s as [|c s IH]; simpl; [done|].
  rewrite !andb_true_iff. intros [??]. auto.
Qed.

Lemma escape_all_ascii s : all_chars ascii_char (escape_all s) = true.
Proof.
  induction s as [|c s IH]; [done|]. cbn [escape_all]. rewrite all_chars_app, IH, andb_true_r.
  by destruct c as [[] [] [] [] [] [] [] []].
Qed.

Lemma quote_ascii s : all_chars ascii_char (quote s) = true.
Proof.
  unfold quote. cbn [all_chars]. by rewrite all_chars_app, escape_all_ascii.
Qed.

Lemma joins_ascii l : Forall (λ x, all_chars ascii_char x = true) l → all_chars ascii_char (joins "," l) = true.
Proof.
  induction 1 as [|x l Hx Hl IH]; [done|]. destruct l; [done|].
  cbn [joins] in *. by rewrite !all_chars_app, Hx, IH.
Qed.

Lemma print_ascii j : all_chars ascii_char (print j) = true.
Proof.
  induction j as [|b|z|s|l IH|o IH] using json_ind'; cbn [print]; try done.
  - by destruct b.
  - eapply all_chars_mono; [|apply pretty_Z_int].
    intros c. by destruct c as [[] [] [] [] [] [] [] []].
  - apply quote_ascii.
  - rewrite !all_chars_app, joins_ascii; [done|]. by apply Forall_map.
  - rewrite !all_chars_app, joins_ascii; [done|]. apply Forall_map.
    eapply Forall_impl; [exact IH|]. intros [k v] Hv.
    unfold item. cbn [fst snd] in *. rewrite !all_chars_app, Hv. by rewrite quote_ascii.
Qed.

Lemma utf8_ascii s : all_chars ascii_char s = true → utf8 s = s.
Proof.
  induction s as [|c s IH]; [done|]. cbn [all_chars]. rewrite andb_true_iff. intros [Hc Hs].
  change (utf8 (String c s)) with (utf8_char c +:+ utf8 s).
  rewrite IH by done. unfold utf8_char, ascii_char, code in *.
  assert (ord c < 128)%nat as H%Nat.ltb_lt.
  { apply N.ltb_lt in Hc. unfold ord, nat_of_ascii. lia. }
  by rewrite H.
Qed.

Lemma canonical_json_print j : canonical_json j = print (jnorm j).
Proof. unfold canonical_json. rewrite dumps_jnorm. apply utf8_ascii, print_ascii. Qed.

Lemma loads_canonical j : json_wf j → loads (canonical_json j) = Some (jnorm j).
Proof. intros. rewrite canonical_json_print. by apply loads_print, json_wf_jnorm. Qed.

(** ** Splitting texts *)

Lemma str_has_app c a b : str_has c (a +:+ b) = str_has c a || str_has c b.
Proof. induction a as [|d a IH]; simpl; [done|]. by rewrite IH, orb_assoc. Qed.

Lemma split_char_n_app c n a r : str_has c a = false →
  split_char_n c (S n) (a +:+ String c r) = a :: split_char_n c n r.
Proof.
  intros Ha. cbn [split_char_n].
  set (go := fix go (acc s : string) {struct s} : list string := _).
  assert (∀ acc, go acc (a +:+ String c r) = (acc +:+ a) :: split_char_n c n r) as H; [|by rewrite H].
  induction a as [|d a IH]; intros acc; simpl in *.
  - rewrite bool_decide_refl, append_nil_r. done.
  - bool_to_prop. destruct (bool_decide (d = c)) eqn:E; [by bool_to_prop|].
    rewrite IH by done. f_equal. apply append_assoc.
Qed.

Lemma split_char_app c a r : str_has c a = false → split_char c (a +:+ String c r) = a :: split_char c r.
Proof.
  induction a as [|d a IH]; simpl; [by rewrite bool_decide_refl|].
  intros [-> ?]%orb_false_iff. by rewrite IH.
Qed.

Lemma b64_char_in n c : n < 64 → b64_val c = None → bool_decide (b64_char n = c) = false.
Proof.
  intros Hn Hc. apply bool_decide_eq_false. intros <-. by rewrite b64_val_char in Hc.
Qed.

Lemma encode_has_not c s : b64_val c = None → is_pad c = false → str_has c (encode_bytes s) = false.
Proof.
  intros Hc Hp. unfold encode_bytes. induction s as [|a|a b|a b d s IH] using string_ind3; [done|..];
    cbn [b64encode].
  - sextet_bounds a a a. rewrite !rstrip_pad_cons by auto using b64_char_not_pad. simpl.
    by rewrite !b64_char_in.
  - sextet_bounds a b b. rewrite !rstrip_pad_cons by auto using b64_char_not_pad. simpl.
    by rewrite !b64_char_in.
  - sextet_bounds a b d. rewrite !rstrip_pad_cons by auto using b64_char_not_pad. simpl.
    by rewrite !b64_char_in, IH.
Qed.

Lemma hex_has_not s : str_has "_" (hex s) = false.
Proof.
  induction s as [|c s IH]; [done|]. cbn [hex str_has]. rewrite IH.
  by destruct c as [[] [] [] [] [] [] [] []].
Qed.

(** ** Enrollment tokens *)

Lemma split_presented prefix id secret :
  str_has "_" prefix = false → str_has "_" id = false →
  split_char_n "_" 2 (prefix +:+ "_" +:+ id +:+ "_" +:+ secret) = [prefix; id; secret].
Proof.
  intros Hp Hi. change ("_" +:+ ?r) with (String "_" r).
  rewrite split_char_n_app by done. change ("_" +:+ ?r) with (String "_" r).
  by rewrite split_char_n_app by done.
Qed.

Lemma hash_enrollment_inj id v w :
  hash_enrollment_secret id v = hash_enrollment_secret id w →
  v = w ∨ sha_collides [ENROLLMENT_HASH_DOMAIN +:+ ":" +:+ utf8 id +:+ ":" +:+ utf8 v;
                        ENROLLMENT_HASH_DOMAIN +:+ ":" +:+ utf8 id +:+ ":" +:+ utf8 w].
Proof.
  intros [H|H]%sha256_hex_inj; [left|by right].
  do 4 apply (inj (String.append _)) in H. by apply utf8_inj.
Qed.

(** A freshly minted enrollment token splits back into its identifier and
    secret; the stored hash accepts that secret, and accepts another secret
    for the identifier only through a SHA-256 collision between the two hashed
    messages. *)
Theorem enrollment_secret_roundtrip id_bytes secret_bytes v :
  is_empty id_bytes = false → is_empty secret_bytes = false →
  let s := new_enrollment_secret id_bytes secret_bytes in
  let w := encode_bytes secret_bytes in
  split_enrollment_token (is_presented s) = Ok (is_token_id s, w) ∧
  enrollment_secret_matches (is_token_id s) w (is_secret_hash s) = true ∧
  (enrollment_secret_matches (is_token_id s) v (is_secret_hash s) = true →
   v = w ∨ sha_collides [ENROLLMENT_HASH_DOMAIN +:+ ":" +:+ utf8 (is_token_id s) +:+ ":" +:+ utf8 v;
                         ENROLLMENT_HASH_DOMAIN +:+ ":" +:+ utf8 (is_token_id s) +:+ ":" +:+ utf8 w]).
Proof.
  intros Hi Hs s w. unfold s, new_enrollment_secret, enrollment_secret_matches, split_enrollment_token.
  cbn [is_presented is_token_id is_secret_hash]. split_and!.
  - rewrite split_presented by (done || apply hex_has_not).
    rewrite bool_decide_refl, encode_nonempty by done. by destruct id_bytes.
  - apply bool_decide_refl.
  - intros H%bool_decide_eq_true. by apply hash_enrollment_inj.
Qed.

Lemma enrollment_secret_roundtrip_witness :
  split_enrollment_token (is_presented (new_enrollment_secret "k7" "secret-bytes")) =
    Ok ("6b37", encode_bytes "secret-bytes").
Proof.
  apply (enrollment_secret_roundtrip "k7" "secret-bytes" "x"); reflexivity.
Defined.

(** ** Signed enrollment tokens *)

Lemma split_signed p b s :
  str_has "." p = false → str_has "." b = false → str_has "." s = false →
  split_char "." (p +:+ "." +:+ b +:+ "." +:+ s) = [p; b; s].
Proof.
  intros. change (split_char "." (p +:+ String "." (b +:+ String "." s)) = [p; b; s]).
  by rewrite !split_char_app, split_char_none.
Qed.

Section Signed.
Context (ed_key_ok : string → bool) (ed_public : string → string).
Context (ed_sign : string → string → string) (ed_verify : string → string → string → bool).
(** What Ed25519 documents: public keys are 32 accepted bytes, signatures are
    non-empty and verify under the public key of the signing key. *)
Context (ed_public_ok : ∀ sk, String.length (ed_public sk) = 32%nat ∧ ed_key_ok (ed_public sk) = true).
Context (ed_sign_nonempty : ∀ sk m, is_empty (ed_sign sk m) = false).
Context (ed_sign_verify : ∀ sk m, ed_verify (ed_public sk) m (ed_sign sk m) = true).

Lemma verify_sign_payload priv pub payload sig reason :
  public_key_of ed_public priv = Ok pub → sign_payload ed_sign priv payload = Ok sig →
  verify_payload ed_key_ok ed_verify pub payload sig reason = Ok ().
Proof.
  unfold public_key_of, sign_payload.
  intros (raw & Hraw & [= <-])%bind_Ok (raw' & Hraw' & [= <-])%bind_Ok.
  assert (raw' = raw) as -> by congruence.
  destruct (ed_public_ok raw) as [Hlen Hok].
  unfold verify_payload, load_public_key.
  rewrite (decode_encode (ed_sign _ _)), (decode_encode (ed_public raw)) by (done || by destruct (ed_public raw)).
  cbn -[Nat.eqb]. rewrite Hlen, Hok. simpl. by rewrite ed_sign_verify.
Qed.

Lemma signed_token_of_payload t : signed_token_of (encode_bytes (canonical_json (signed_payload t))) = Some t.
Proof.
  unfold signed_token_of. rewrite decode_encode by by rewrite canonical_json_print.
  rewrite loads_canonical by (split; [|done]; simpl; repeat constructor; set_solver).
  rewrite canonical_json_print at 1. unfold is_ascii. rewrite (print_ascii _).
  change (jnorm (signed_payload t)) with (signed_payload t). unfold signed_payload at 1. simpl.
  by rewrite bool_decide_refl.
Qed.

Lemma sign_enrollment_ok priv raw presented r :
  split_enrollment_token presented = Ok r → load_private_key priv = Ok raw →
  sign_enrollment_token ed_sign priv presented =
    Ok (SIGNED_ENROLLMENT_PREFIX +:+ "." +:+ encode_bytes (canonical_json (signed_payload presented))
        +:+ "." +:+ encode_bytes (ed_sign raw (canonical_json (signed_payload presented)))).
Proof.
  clear. intros Hs Hr. unfold sign_enrollment_token, sign_payload. by rewrite Hs, Hr.
Qed.

Lemma public_key_ok priv raw :
  load_private_key priv = Ok raw → public_key_of ed_public priv = Ok (encode_bytes (ed_public raw)).
Proof. clear. intros Hr. unfold public_key_of. by rewrite Hr. Qed.

(** Signed enrollment tokens round-trip: when the control plane wraps an
    enrollment token with a private key, the holder of the matching public key
    unwraps exactly that token. *)
Theorem signed_enrollment_roundtrip priv pub presented tok :
  public_key_of ed_public priv = Ok pub → sign_enrollment_token ed_sign priv presented = Ok tok →
  verify_signed_enrollment_token ed_key_ok ed_verify pub tok = Ok presented.
Proof.
  intros Hpub. unfold sign_enrollment_token.
  intros ([id v] & Hsplit & (sig & Hsig & Htok)%bind_Ok)%bind_Ok.
  assert (tok = SIGNED_ENROLLMENT_PREFIX +:+ "." +:+ encode_bytes (canonical_json (signed_payload presented))
    +:+ "." +:+ sig) as -> by congruence.
  assert (Hsig' := Hsig). unfold sign_payload in Hsig'. apply bind_Ok in Hsig' as (raw & _ & [= Hs]).
  unfold verify_signed_enrollment_token.
  rewrite split_signed by (subst sig; (reflexivity || by apply encode_has_not)).
  rewrite bool_decide_refl, signed_token_of_payload. simpl.
  erewrite verify_sign_payload by done. by rewrite Hsplit.
Qed.
End Signed.

(** The hypotheses of the round trip hold for a toy scheme whose signature is
    the hash of key and message. *)
Lemma signed_enrollment_roundtrip_witness :
  let pubk := λ sk, sha256 ("p" +:+ sk) in
  let sgn := λ sk m, "s" +:+ sha256 (pubk sk +:+ m) in
  let vrf := λ pk m s, bool_decide (s = "s" +:+ sha256 (pk +:+ m)) in
  let raw := "0123456789abcdef0123456789abcdef" in
  let p := signed_payload "olynode_ab_cd" in
  let tok := SIGNED_ENROLLMENT_PREFIX +:+ "." +:+ encode_bytes (canonical_json p) +:+ "." +:+
             encode_bytes (sgn raw (canonical_json p)) in
  verify_signed_enrollment_token (λ _, true) vrf (encode_bytes (pubk raw)) tok = Ok "olynode_ab_cd".
Proof.
  intros pubk sgn vrf raw p tok.
  apply (signed_enrollment_roundtrip (λ _, true) pubk sgn vrf) with (priv := encode_bytes raw).
  - intros sk. split; [apply sha256_length|reflexivity].
  - reflexivity.
  - intros sk m. apply bool_decide_refl.
  - apply public_key_ok. reflexivity.
  - eapply sign_enrollment_ok; reflexivity.
Defined.
