(* ===== verification/Authorization.v ===== *)
(** The authorization engine (src/olympus/governance/authorization.py):
    taint, schedules, signed approvals, the hard budget and the hash-chained
    audit of every decision.

    [VerifyKey(key).verify] comes from a third-party package and is the
    parameter [ed_verify]. Amounts are decimals with a non-positive exponent;
    their sums are exact (Python rounds only past 28 digits). *)

From S2P Require Import Prelude PyDict PyTime Json Sha256.
From stdpp Require Import pretty gmap.

Open Scope Z_scope.

(** ** Decimals *)

(** [Decimal]: [dec_coef / 10 ^ dec_scale]. *)
Record Decimal := mkDec { dec_coef : Z; dec_scale : nat }.

Definition dec_at (n : nat) (d : Decimal) : Z := dec_coef d * 10 ^ (Z.of_nat n - Z.of_nat (dec_scale d)).
Definition dec_scale2 (a b : Decimal) : nat := Nat.max (dec_scale a) (dec_scale b).
Definition dec_add (a b : Decimal) : Decimal :=
  let n := dec_scale2 a b in mkDec (dec_at n a + dec_at n b) n.
Definition dec_ltb (a b : Decimal) : bool :=
  let n := dec_scale2 a b in dec_at n a <? dec_at n b.
Definition dec_zero : Decimal := mkDec 0 0.

Fixpoint zeros (n : nat) : string := match n with O => "" | S n' => "0" +:+ zeros n' end.

(** [str(d)] *)
Definition dec_str (d : Decimal) : string :=
  let int := pretty (Z.to_N (Z.abs (dec_coef d))) in
  let len := Z.of_nat (String.length int) in
  let left := len - Z.of_nat (dec_scale d) in
  let dot := if -6 <? left then left else 1 in
  let sign := if dec_coef d <? 0 then "-" else "" in
  let body :=
    if dot <=? 0 then "0." +:+ zeros (Z.to_nat (- dot)) +:+ int
    else if len <=? dot then int
    else String.substring 0 (Z.to_nat dot) int +:+ "." +:+ String.substring (Z.to_nat dot) (Z.to_nat (len - dot)) int in
  let exp := if left =? dot then "" else "E" +:+ pretty (left - dot) in
  sign +:+ body +:+ exp.

Example dec_str_1 : map dec_str [mkDec 1250 2; mkDec 0 2; mkDec (-5) 3; mkDec 7 0; mkDec 1 9] =
  ["12.50"; "0.00"; "-0.005"; "7"; "1E-9"].
Proof. reflexivity. Qed.

(** ** Data *)

Inductive TaintLabel := OPERATOR | VERIFIED_EXTERNAL | TL_EXTERNAL_UNTRUSTED | TL_MODEL_DERIVED.
Inductive ActionClass := AUTONOMOUS | PROTECTED | NEVER_AUTONOMOUS.

#[export] Instance TaintLabel_eq : EqDecision TaintLabel.
Proof. solve_decision. Defined.
#[export] Instance ActionClass_eq : EqDecision ActionClass.
Proof. solve_decision. Defined.

Definition taint_value (t : TaintLabel) : string :=
  match t with
  | OPERATOR => "operator-trusted" | VERIFIED_EXTERNAL => "verified-external"
  | TL_EXTERNAL_UNTRUSTED => "external-untrusted" | TL_MODEL_DERIVED => "model-derived"
  end.
Definition class_value (c : ActionClass) : string :=
  match c with
  | AUTONOMOUS => "autonomous" | PROTECTED => "protected" | NEVER_AUTONOMOUS => "never-autonomous"
  end.

Record TaintedValue := mkTainted { tv_value : json; tv_labels : list TaintLabel }.

(** [TaintedValue.derive] *)
Definition derive (value : json) (sources : list TaintedValue) (model_derived : bool) : TaintedValue :=
  mkTainted value (remove_dups ((sources ≫= tv_labels) ++ (if model_derived then [TL_MODEL_DERIVED] else []))).

Inductive auth_exn := AuthorizationDenied (msg : string) | AuthValueError (msg : string).

Record Action := mkAction {
  act_id : string;
  act_kind : string;
  act_class : ActionClass;
  act_payload : dict string json;
  act_cost : Decimal;
  act_inputs : list TaintedValue }.

(** [Action.__post_init__] *)
Definition make_action (a : Action) : result auth_exn Action :=
  ensure (negb (is_blank (act_id a) || is_blank (act_kind a)))
    (AuthValueError "action identity and kind are required");;
  ensure (negb (dec_ltb (act_cost a) dec_zero)) (AuthValueError "variable action cost cannot be negative");;
  Ok a.

(** The canonical body of [Action.digest]. *)
Definition action_body (a : Action) : json :=
  JObj [("action_id", JStr (act_id a)); ("classification", JStr (class_value (act_class a)));
        ("inputs", JList (map (λ i, JObj [("labels", JList (map JStr (sorted_set (map taint_value (tv_labels i)))));
                                          ("value", tv_value i)]) (act_inputs a)));
        ("kind", JStr (act_kind a)); ("payload", JObj (act_payload a));
        ("variable_cost_usd", JStr (dec_str (act_cost a)))].
Definition encode (j : json) : string := utf8 (dumps j).
Definition digest (a : Action) : string := sha256_hex (encode (action_body a)).

Record Approval := mkApproval {
  ap_id : string;
  ap_digest : string;
  ap_issued_at : datetime;
  ap_expires_at : datetime;
  ap_signer : string;
  ap_signature : string }.

(** [Approval.__post_init__] *)
Definition make_approval (a : Approval) : result auth_exn Approval :=
  ensure (negb (is_blank (ap_id a) || negb (str_len (ap_digest a) =? 64) || is_blank (ap_signer a)))
    (AuthValueError "approval identity and SHA-256 action digest are required");;
  ensure (ap_issued_at a <? ap_expires_at a) (AuthValueError "approval must expire after issuance");;
  Ok a.

(** [Approval.canonical_bytes] *)
Definition approval_body (a : Approval) : json :=
  JObj [("action_digest", JStr (ap_digest a)); ("approval_id", JStr (ap_id a));
        ("expires_at", JStr (isoformat (ap_expires_at a))); ("issued_at", JStr (isoformat (ap_issued_at a)));
        ("signer_id", JStr (ap_signer a))].
Definition approval_bytes (a : Approval) : string := encode (approval_body a).

Record ScheduleCapability := mkSchedule {
  sc_id : string;
  sc_kinds : list string;
  sc_scope : dict string json;
  sc_issued_at : datetime;
  sc_expires_at : datetime;
  sc_max_runs : Z;
  sc_signer : string;
  sc_signature : string }.

(** [ScheduleCapability.__post_init__] *)
Definition make_schedule (s : ScheduleCapability) : result auth_exn ScheduleCapability :=
  ensure (negb (is_blank (sc_id s) || bool_decide (sc_kinds s = []) || bool_decide (sc_scope s = [])
                || is_blank (sc_signer s)))
    (AuthValueError "schedule identity, action kinds, and scope are required");;
  ensure (1 <=? sc_max_runs s) (AuthValueError "schedule max_runs must be positive");;
  ensure (sc_issued_at s <? sc_expires_at s) (AuthValueError "schedule must expire after issuance");;
  Ok s.

(** [ScheduleCapability.canonical_bytes] *)
Definition schedule_bytes (s : ScheduleCapability) : string :=
  encode (JObj [("action_kinds", JList (map JStr (sorted_set (sc_kinds s)))); ("capability_id", JStr (sc_id s));
    ("expires_at", JStr (isoformat (sc_expires_at s))); ("issued_at", JStr (isoformat (sc_issued_at s)));
    ("max_runs", JInt (sc_max_runs s)); ("scope", JObj (sc_scope s)); ("signer_id", JStr (sc_signer s))]).

Record AuthorizationDecision := mkDecision {
  dn_action_id : string; dn_digest : string; dn_allowed : bool; dn_reason : string }.

Record AuthorizationAuditEvent := mkAuthEvent {
  ev_sequence : Z; ev_decision : AuthorizationDecision; ev_previous : string; ev_hash : string }.

(** ** Python equality of JSON values: numbers compare with booleans, objects
    regardless of order *)

Definition num_of (j : json) : option Z :=
  match j with JInt z => Some z | JBool b => Some (if b then 1 else 0) | _ => None end.

Fixpoint py_eq (a b : json) : bool :=
  match a, b with
  | JNull, JNull => true
  | JStr s, JStr t => bool_decide (s = t)
  | JList l, JList l' =>
      (fix go (l l' : list json) := match l, l' with
       | [], [] => true
       | x :: l, y :: l' => py_eq x y && go l l'
       | _, _ => false
       end) l l'
  | JObj o, JObj o' =>
      Nat.eqb (length o) (length o') &&
      forallb (λ kv, match dget kv.1 o' with Some v => py_eq kv.2 v | None => false end) o
  | _, _ => match num_of a, num_of b with Some x, Some y => x =? y | _, _ => false end
  end.

(** ** The audit chain *)

Definition AUTH_GENESIS : string := "0000000000000000000000000000000000000000000000000000000000000000".

Definition audit_body (sequence : Z) (d : AuthorizationDecision) (previous : string) : json :=
  JObj [("decision", JObj [("action_id", JStr (dn_action_id d)); ("action_digest", JStr (dn_digest d));
                           ("allowed", JBool (dn_allowed d)); ("reason", JStr (dn_reason d))]);
        ("previous_hash", JStr previous); ("sequence", JInt sequence)].
Definition audit_hash (sequence : Z) (d : AuthorizationDecision) (previous : string) : string :=
  sha256_hex (encode (audit_body sequence d previous)).

Definition audit_last (h : string) (events : list AuthorizationAuditEvent) : string :=
  match last events with Some e => ev_hash e | None => h end.

(** [AuthorizationAudit.append] *)
Definition audit_append (d : AuthorizationDecision) (events : list AuthorizationAuditEvent) :
    list AuthorizationAuditEvent :=
  let sequence := Z.of_nat (length events) + 1 in
  let previous := audit_last AUTH_GENESIS events in
  events ++ [mkAuthEvent sequence d previous (audit_hash sequence d previous)].

(** [AuthorizationAudit.verify] *)
Fixpoint audit_verify_from (sequence : Z) (previous : string) (events : list AuthorizationAuditEvent) : bool :=
  match events with
  | [] => true
  | e :: events' =>
      if negb (ev_sequence e =? sequence) || negb (bool_decide (ev_previous e = previous)) then false
      else if negb (bool_decide (ev_hash e = audit_hash sequence (ev_decision e) previous)) then false
      else audit_verify_from (sequence + 1) (ev_hash e) events'
  end.
Definition audit_verify (events : list AuthorizationAuditEvent) : bool := audit_verify_from 1 AUTH_GENESIS events.

(** ** The engine *)

Record Engine := mkEngine {
  en_ceiling : Decimal;
  en_spent : Decimal;
  en_audit : list AuthorizationAuditEvent;
  en_keys : dict string string;
  en_consumed : gset string;
  en_runs : dict string Z }.

(** [BudgetGovernor(monthly_ceiling_usd=...)] and [AuthorizationEngine(budget, ...)] *)
Definition make_engine (ceiling : Decimal) (keys : dict string string) : result auth_exn Engine :=
  ensure (dec_ltb dec_zero ceiling) (AuthValueError "monthly spending ceiling must be positive");;
  Ok (mkEngine ceiling dec_zero [] keys ∅ []).

Definition set_spent (d : Decimal) (e : Engine) : Engine :=
  mkEngine (en_ceiling e) d (en_audit e) (en_keys e) (en_consumed e) (en_runs e).
Definition add_audit (d : AuthorizationDecision) (e : Engine) : Engine :=
  mkEngine (en_ceiling e) (en_spent e) (audit_append d (en_audit e)) (en_keys e) (en_consumed e) (en_runs e).
Definition add_consumed (i : string) (e : Engine) : Engine :=
  mkEngine (en_ceiling e) (en_spent e) (en_audit e) (en_keys e) ({[i]} ∪ en_consumed e) (en_runs e).
Definition add_run (i : string) (e : Engine) : Engine :=
  mkEngine (en_ceiling e) (en_spent e) (en_audit e) (en_keys e) (en_consumed e)
    (dset i (default 0 (dget i (en_runs e)) + 1) (en_runs e)).

Notation AE := (St Engine auth_exn).

(** [BudgetGovernor.reserve] *)
Definition reserve (amount : Decimal) : AE () :=
  e ← read;
  check (negb (dec_ltb amount dec_zero)) (AuthValueError "budget reservation cannot be negative");;
  check (negb (dec_ltb (en_ceiling e) (dec_add (en_spent e) amount)))
    (AuthorizationDenied "hard monthly spending ceiling would be exceeded");;
  modify (set_spent (dec_add (en_spent e) amount)).

Definition forbidden_label (l : TaintLabel) : bool :=
  match l with TL_EXTERNAL_UNTRUSTED | TL_MODEL_DERIVED => true | _ => false end.
Definition tainted (a : Action) : bool := existsb (λ i, existsb forbidden_label (tv_labels i)) (act_inputs a).
Definition privileged (a : Action) : bool := negb (bool_decide (act_class a = AUTONOMOUS)).

Definition validate_taint (a : Action) : result auth_exn () :=
  ensure (negb (privileged a && tainted a)) (AuthorizationDenied "tainted input cannot control a privileged sink").

Section Engine.
Context (ed_verify : string → string → string → bool).

Definition verify_capability (keys : dict string string) (signer payload signature capability : string) :
    result auth_exn () :=
  match dget signer keys with
  | Some key =>
      ensure (negb (is_empty signature))
        (AuthorizationDenied ("signed " +:+ capability +:+ " verification root is unavailable"));;
      ensure (ed_verify key payload signature) (AuthorizationDenied ("signed " +:+ capability +:+ " is invalid"))
  | None => Err (AuthorizationDenied ("signed " +:+ capability +:+ " verification root is unavailable"))
  end.

Definition validate_approval (e : Engine) (action_digest : string) (approval : option Approval) (now : datetime) :
    result auth_exn () :=
  a ← require_some approval (AuthorizationDenied "literal action approval is required");
  ensure (bool_decide (ap_id a ∉ en_consumed e)) (AuthorizationDenied "approval was already consumed");;
  verify_capability (en_keys e) (ap_signer a) (approval_bytes a) (ap_signature a) "approval";;
  ensure (negb ((now <? ap_issued_at a) || (ap_expires_at a <=? now)))
    (AuthorizationDenied "approval is not currently valid");;
  ensure (bool_decide (ap_digest a = action_digest))
    (AuthorizationDenied "approval does not match the literal action").

Definition in_scope (a : Action) (s : ScheduleCapability) : bool :=
  forallb (λ kv, py_eq (default JNull (dget kv.1 (act_payload a))) kv.2) (sc_scope s).

Definition validate_schedule (e : Engine) (a : Action) (s : ScheduleCapability) (now : datetime) :
    result auth_exn () :=
  verify_capability (en_keys e) (sc_signer s) (schedule_bytes s) (sc_signature s) "schedule";;
  ensure (negb ((now <? sc_issued_at s) || (sc_expires_at s <=? now)))
    (AuthorizationDenied "schedule is not currently valid");;
  ensure (bool_decide (act_kind a ∈ sc_kinds s)) (AuthorizationDenied "action kind escapes schedule scope");;
  ensure (in_scope a s) (AuthorizationDenied "action payload escapes schedule scope");;
  ensure (default 0 (dget (sc_id s) (en_runs e)) <? sc_max_runs s)
    (AuthorizationDenied "schedule run limit was reached").

(** The body of the [try] block. *)
Definition authorize_checks (a : Action) (now : datetime) (approval : option Approval)
    (schedule : option ScheduleCapability) : AE () :=
  e ← read;
  liftR (validate_taint a);;
  liftR (match schedule with Some s => validate_schedule e a s now | None => Ok () end);;
  liftR (if privileged a then validate_approval e (digest a) approval now else Ok ());;
  reserve (act_cost a);;
  modify (λ e, match approval with
               | Some ap => if privileged a then add_consumed (ap_id ap) e else e
               | None => e end);;
  modify (λ e, match schedule with Some s => add_run (sc_id s) e | None => e end).

(** [AuthorizationEngine.authorize] *)
Definition authorize (a : Action) (now : datetime) (approval : option Approval)
    (schedule : option ScheduleCapability) : AE AuthorizationDecision := λ e,
  match authorize_checks a now approval schedule e with
  | (Ok _, e') =>
      let d := mkDecision (act_id a) (digest a) true "authorized" in (Ok d, add_audit d e')
  | (Err (AuthorizationDenied msg), e') =>
      (Err (AuthorizationDenied msg), add_audit (mkDecision (act_id a) (digest a) false msg) e')
  | (Err x, e') => (Err x, e')
  end.
End Engine.

(** ** What a successful authorization establishes *)

(** An approval honoured for this action at this instant. *)
Record approval_covers (ed_verify : string → string → string → bool) (e : Engine) (a : Action)
    (now : datetime) (ap : Approval) : Prop := mkCovers {
  cov_fresh : ap_id ap ∉ en_consumed e;
  cov_signed : ∃ key, dget (ap_signer ap) (en_keys e) = Some key ∧
                 ed_verify key (approval_bytes ap) (ap_signature ap) = true;
  cov_window : ap_issued_at ap ≤ now < ap_expires_at ap;
  cov_digest : ap_digest ap = digest a }.

(** A schedule honoured for this action at this instant. *)
Record schedule_covers (ed_verify : string → string → string → bool) (e : Engine) (a : Action)
    (now : datetime) (s : ScheduleCapability) : Prop := mkScheduled {
  sch_signed : ∃ key, dget (sc_signer s) (en_keys e) = Some key ∧
                 ed_verify key (schedule_bytes s) (sc_signature s) = true;
  sch_window : sc_issued_at s ≤ now < sc_expires_at s;
  sch_kind : act_kind a ∈ sc_kinds s;
  sch_scope : in_scope a s = true;
  sch_runs : default 0 (dget (sc_id s) (en_runs e)) < sc_max_runs s }.

(** The engine after an allowed action, but for the audit. *)
Definition charge (a : Action) (approval : option Approval) (schedule : option ScheduleCapability) (e : Engine) :
    Engine :=
  let e1 := set_spent (dec_add (en_spent e) (act_cost a)) e in
  let e2 := match approval with
            | Some ap => if privileged a then add_consumed (ap_id ap) e1 else e1
            | None => e1 end in
  match schedule with Some s => add_run (sc_id s) e2 | None => e2 end.

Section EngineFacts.
Context (ed_verify : string → string → string → bool).
Notation authorize := (authorize ed_verify).
Notation authorize_checks := (authorize_checks ed_verify).

Lemma verify_capability_Ok keys signer payload signature cap u :
  verify_capability ed_verify keys signer payload signature cap = Ok u →
  ∃ key, dget signer keys = Some key ∧ ed_verify key payload signature = true.
Proof.
  unfold verify_capability. destruct (dget signer keys) as [key|]; [|done].
  intros (? & _ & H%ensure_Ok)%bind_Ok. eauto.
Qed.

Lemma validate_approval_Ok e a approval now u :
  validate_approval ed_verify e (digest a) approval now = Ok u →
  ∃ ap, approval = Some ap ∧ approval_covers ed_verify e a now ap.
Proof.
  unfold validate_approval. intros (ap & Hap & H)%bind_Ok.
  destruct approval; simplify_eq/=. exists ap. split; [done|].
  apply bind_Ok in H as (? & H1%ensure_Ok & H). apply bind_Ok in H as (? & H2%verify_capability_Ok & H).
  apply bind_Ok in H as (? & H3%ensure_Ok & H4%ensure_Ok). bool_to_prop.
  split; auto; lia.
Qed.

Lemma validate_schedule_Ok e a s now u :
  validate_schedule ed_verify e a s now = Ok u → schedule_covers ed_verify e a now s.
Proof.
  unfold validate_schedule. intros (? & H1%verify_capability_Ok & H)%bind_Ok.
  apply bind_Ok in H as (? & H2%ensure_Ok & H). apply bind_Ok in H as (? & H3%ensure_Ok & H).
  apply bind_Ok in H as (? & H4%ensure_Ok & H5%ensure_Ok). bool_to_prop. split; auto; lia.
Qed.

(** The checks either fail without touching the engine or charge it once. *)
Lemma authorize_checks_cases a now approval schedule e :
  match authorize_checks a now approval schedule e with
  | (Err _, e') => e' = e
  | (Ok _, e') =>
      e' = charge a approval schedule e ∧
      validate_taint a = Ok () ∧
      (∀ s, schedule = Some s → schedule_covers ed_verify e a now s) ∧
      (privileged a = true → ∃ ap, approval = Some ap ∧ approval_covers ed_verify e a now ap) ∧
      dec_ltb (en_ceiling e) (dec_add (en_spent e) (act_cost a)) = false
  end.
Proof.
  unfold Authorization.authorize_checks, reserve, liftR, check, read, modify, mbind, st_bind. cbn.
  destruct (validate_taint a) as [[]|] eqn:E1; [|done].
  destruct (match schedule with Some s => _ | None => _ end) as [[]|] eqn:E2; [|done].
  destruct (if privileged a then _ else _) as [[]|] eqn:E3; [|done].
  unfold ensure. destruct (negb (dec_ltb (act_cost a) dec_zero)); [|done].
  destruct (negb (dec_ltb (en_ceiling e) _)) eqn:E4; [|done]. split_and!; [done|done|..].
  - intros s ->. by apply validate_schedule_Ok in E2.
  - intros Hp. rewrite Hp in E3. by apply validate_approval_Ok in E3.
  - by bool_to_prop.
Qed.

(** C4. Soundness of authorization. An allowed action was charged to the budget
    within its ceiling; a privileged one had no untrusted or model-derived input
    and came with an approval signed by a trusted key, valid at that instant,
    bound to the digest of this very action and never used before, which is
    now consumed; a schedule given with it was signed, current, covered the
    kind and payload, and had runs left. *)
Theorem authorize_sound a now approval schedule e d e' :
  authorize a now approval schedule e = (Ok d, e') →
  e' = add_audit d (charge a approval schedule e) ∧ dn_allowed d = true ∧ dn_digest d = digest a ∧
  dec_ltb (en_ceiling e) (en_spent e') = false ∧
  (privileged a = true → tainted a = false ∧
     ∃ ap, approval = Some ap ∧ approval_covers ed_verify e a now ap ∧ ap_id ap ∈ en_consumed e') ∧
  (∀ s, schedule = Some s → schedule_covers ed_verify e a now s ∧
     dget (sc_id s) (en_runs e') = Some (default 0 (dget (sc_id s) (en_runs e)) + 1)).
Proof.
  unfold Authorization.authorize. assert (H := authorize_checks_cases a now approval schedule e).
  destruct (authorize_checks a now approval schedule e) as [[[]|[]] e1]; intros; simplify_eq.
  destruct H as (-> & Ht & Hs & Ha & Hb). split_and!; try done.
  - unfold charge. destruct approval, schedule; simpl; try done; by destruct (privileged a).
  - intros Hp. split; [unfold validate_taint in Ht; rewrite Hp in Ht; by destruct (tainted a)|].
    destruct (Ha Hp) as (ap & -> & Hc). exists ap. split_and!; [done|done|].
    unfold charge. rewrite Hp. destruct schedule; simpl; set_solver.
  - intros s ->. split; [by apply Hs|]. unfold charge, add_audit, add_run. simpl.
    rewrite dget_dset_eq. destruct approval; [destruct (privileged a)|]; done.
Qed.

(** A refused action changes nothing but the audit. *)
Lemma authorize_denied a now approval schedule e x e' :
  authorize a now approval schedule e = (Err x, e') →
  e' = e ∨ ∃ msg, x = AuthorizationDenied msg ∧ e' = add_audit (mkDecision (act_id a) (digest a) false msg) e.
Proof.
  unfold Authorization.authorize. assert (H := authorize_checks_cases a now approval schedule e).
  destruct (authorize_checks a now approval schedule e) as [[[]|[]] e1]; intros; simplify_eq; eauto.
Qed.
End EngineFacts.

Lemma charge_fields a approval schedule e :
  en_ceiling (charge a approval schedule e) = en_ceiling e ∧
  en_spent (charge a approval schedule e) = dec_add (en_spent e) (act_cost a) ∧
  en_audit (charge a approval schedule e) = en_audit e ∧
  en_consumed (charge a approval schedule e) =
    (if privileged a then match approval with Some ap => {[ap_id ap]} | None => ∅ end else ∅) ∪ en_consumed e.
Proof.
  unfold charge. destruct approval, schedule, (privileged a); simpl; split_and!; try done; set_solver.
Qed.

(** ** Histories of requests *)

Record Request := mkRequest {
  rq_action : Action; rq_now : datetime; rq_approval : option Approval; rq_schedule : option ScheduleCapability }.

Section Histories.
Context (ed_verify : string → string → string → bool).

Definition serve (r : Request) : AE AuthorizationDecision :=
  authorize ed_verify (rq_action r) (rq_now r) (rq_approval r) (rq_schedule r).

(** Requests served in order; the list keeps each request with its outcome. *)
Fixpoint serve_all (rs : list Request) (e : Engine) :
    list (Request * result auth_exn AuthorizationDecision) * Engine :=
  match rs with
  | [] => ([], e)
  | r :: rs' =>
      let o := serve r e in
      let p := serve_all rs' o.2 in ((r, o.1) :: p.1, p.2)
  end.

Definition allowed (log : list (Request * result auth_exn AuthorizationDecision)) : list Request :=
  map fst (List.filter (λ p, is_ok p.2) log).

(** Approvals that a log of allowed requests spent. *)
Definition spent_approvals (rs : list Request) : list string :=
  omap (λ r, if privileged (rq_action r) then ap_id <$> rq_approval r else None) rs.

Lemma serve_cases r e :
  match serve r e with
  | (Ok d, e') => e' = add_audit d (charge (rq_action r) (rq_approval r) (rq_schedule r) e) ∧
      dec_ltb (en_ceiling e) (dec_add (en_spent e) (act_cost (rq_action r))) = false ∧
      (privileged (rq_action r) = true → ∃ ap, rq_approval r = Some ap ∧ ap_id ap ∉ en_consumed e)
  | (Err _, e') => e' = e ∨ ∃ d, e' = add_audit d e
  end.
Proof.
  unfold serve, authorize.
  assert (H := authorize_checks_cases ed_verify (rq_action r) (rq_now r) (rq_approval r) (rq_schedule r) e).
  destruct (authorize_checks _ _ _ _ _ e) as [[[]|[]] e1]; [|subst; eauto..].
  destruct H as (-> & _ & _ & Ha & Hb). split_and!; [done|done|].
  intros Hp. destruct (Ha Hp) as (ap & ? & [? _ _ _]). eauto.
Qed.

Lemma serve_ceiling r e : en_ceiling (serve r e).2 = en_ceiling e.
Proof.
  assert (H := serve_cases r e). destruct (serve r e) as [[d|x] e']; simpl.
  - destruct H as [-> _]. apply charge_fields.
  - by destruct H as [->|[d ->]].
Qed.

Lemma serve_all_budget rs e :
  dec_ltb (en_ceiling e) (en_spent e) = false →
  let p := serve_all rs e in
  en_ceiling p.2 = en_ceiling e ∧
  en_spent p.2 = foldl dec_add (en_spent e) (map (λ r, act_cost (rq_action r)) (allowed p.1)) ∧
  dec_ltb (en_ceiling e) (en_spent p.2) = false.
Proof.
  revert e. induction rs as [|r rs IH]; intros e He; [done|]. cbn [serve_all]. cbv zeta.
  assert (H := serve_cases r e). assert (Hc := serve_ceiling r e).
  destruct (serve r e) as [[d|x] e'] eqn:E; unfold allowed; simpl in *.
  - destruct H as (-> & Hb & _).
    destruct (charge_fields (rq_action r) (rq_approval r) (rq_schedule r) e) as (H1 & H2 & _ & _).
    destruct (IH (add_audit d (charge (rq_action r) (rq_approval r) (rq_schedule r) e)))
      as (IH1 & IH2 & IH3); [simpl; by rewrite H1, H2|].
    simpl in *. rewrite H1 in IH1, IH3. rewrite H2 in IH2. auto.
  - destruct (IH e') as (IH1 & IH2 & IH3).
    { rewrite Hc. by destruct H as [->|[d ->]]. }
    rewrite Hc in *. split_and!; try done. by destruct H as [->|[d ->]].
Qed.

Lemma serve_consumed r e :
  en_consumed (serve r e).2 =
    (if is_ok (serve r e).1 then list_to_set (spent_approvals [r]) else ∅) ∪ en_consumed e ∧
  (is_ok (serve r e).1 = true → NoDup (spent_approvals [r]) ∧ ∀ i, i ∈ spent_approvals [r] → i ∉ en_consumed e).
Proof.
  assert (H := serve_cases r e). destruct (serve r e) as [[d|x] e']; simpl.
  - destruct H as (-> & _ & Ha).
    destruct (charge_fields (rq_action r) (rq_approval r) (rq_schedule r) e) as (_ & _ & _ & H4).
    simpl. rewrite H4. destruct (privileged (rq_action r)); [|split; [set_solver|intros _; split; [constructor|set_solver]]].
    destruct (Ha eq_refl) as (ap & -> & ?). simpl. split; [set_solver|].
    intros _. split; [apply NoDup_singleton|set_solver].
  - destruct H as [->|[d ->]]; simpl; set_solver.
Qed.

Lemma spent_approvals_cons r rs : spent_approvals (r :: rs) = spent_approvals [r] ++ spent_approvals rs.
Proof. unfold spent_approvals. simpl. by destruct (if privileged _ then _ else _). Qed.

Lemma allowed_cons r o log :
  allowed ((r, o) :: log) = if is_ok o then r :: allowed log else allowed log.
Proof. unfold allowed. simpl. by destruct (is_ok o). Qed.

Lemma serve_all_consumed rs e :
  let used := spent_approvals (allowed (serve_all rs e).1) in
  NoDup used ∧ (∀ i, i ∈ used → i ∉ en_consumed e).
Proof.
  cbv zeta. revert e. induction rs as [|r rs IH]; intros e; [split; [constructor|set_solver]|].
  cbn [serve_all]. cbv zeta. destruct (serve_consumed r e) as [Hc Hn].
  cbn [fst]. rewrite allowed_cons. destruct (IH (serve r e).2) as [IH1 IH2]. rewrite Hc in IH2.
  destruct (is_ok (serve r e).1); [|set_solver].
  destruct (Hn eq_refl) as [Hn1 Hn2].
  rewrite spent_approvals_cons, NoDup_app. set_solver.
Qed.

(** Over any history of requests, what the engine spent is exactly the sum
    of the costs of the actions it allowed, and never more than the monthly
    ceiling; and no approval was spent on two privileged actions, nor one that
    had been consumed before. *)
Theorem engine_history rs ceiling keys e :
  make_engine ceiling keys = Ok e →
  let p := serve_all rs e in
  en_spent p.2 = foldl dec_add dec_zero (map (λ r, act_cost (rq_action r)) (allowed p.1)) ∧
  dec_ltb ceiling (en_spent p.2) = false ∧
  NoDup (spent_approvals (allowed p.1)).
Proof.
  unfold make_engine. intros (u & Hpos%ensure_Ok & [= <-])%bind_Ok. cbv zeta.
  destruct (serve_all_budget rs (mkEngine ceiling dec_zero [] keys ∅ [])) as (_ & H2 & H3).
  { simpl. unfold dec_ltb, dec_scale2 in *. rewrite Nat.max_comm. bool_to_prop. apply Z.ltb_ge. lia. }
  split_and!; [exact H2|exact H3|]. apply serve_all_consumed.
Qed.
End Histories.

(** ** The decision audit *)

Lemma audit_verify_snoc i h l e :
  audit_verify_from i h (l ++ [e]) = true ↔
  audit_verify_from i h l = true ∧
  ev_sequence e = i + Z.of_nat (length l) ∧ ev_previous e = audit_last h l ∧
  ev_hash e = audit_hash (i + Z.of_nat (length l)) (ev_decision e) (audit_last h l).
Proof.
  revert i h. induction l as [|x l IH]; intros i h.
  - simpl. rewrite Z.add_0_r. unfold audit_last. simpl. split.
    + repeat case_match; bool_to_prop; naive_solver.
    + intros (_ & -> & -> & ->). by rewrite Z.eqb_refl, !bool_decide_refl.
  - cbn [app audit_verify_from].
    assert (audit_last h (x :: l) = audit_last (ev_hash x) l) as ->
      by (unfold audit_last; rewrite last_cons; by destruct (last l)).
    replace (i + Z.of_nat (length (x :: l))) with (i + 1 + Z.of_nat (length l)) by (simpl length; lia).
    destruct (negb _ || negb _); [naive_solver|]. destruct (negb _); [naive_solver|]. apply IH.
Qed.

Lemma audit_append_verifies d l : audit_verify l = true → audit_verify (audit_append d l) = true.
Proof.
  intros H. apply audit_verify_snoc. cbn. rewrite Z.add_comm. done.
Qed.

(** Validation failures are denials. *)
Lemma validations_deny ed_verify e a approval schedule now msg :
  validate_taint a ≠ Err (AuthValueError msg) ∧
  validate_schedule ed_verify e a schedule now ≠ Err (AuthValueError msg) ∧
  validate_approval ed_verify e (digest a) approval now ≠ Err (AuthValueError msg).
Proof.
  unfold validate_taint, validate_schedule, validate_approval, verify_capability, require_some, ensure,
    mbind, result_bind.
  split_and!; intros H; repeat case_match; simplify_eq/=.
Qed.

Lemma authorize_checks_value_error ed_verify a now approval schedule e msg e' :
  dec_ltb (act_cost a) dec_zero = false →
  authorize_checks ed_verify a now approval schedule e ≠ (Err (AuthValueError msg), e').
Proof.
  intros Hc. unfold authorize_checks, reserve, liftR, check, read, modify, mbind, st_bind. cbn.
  destruct (validate_taint a) as [[]|x] eqn:E1.
  2: { intros H. injection H as -> _. by apply (validations_deny ed_verify e a approval (mkSchedule "" [] [] 0 0 0 "" "") now) in E1. }
  destruct (match schedule with Some s => _ | None => _ end) as [[]|x] eqn:E2.
  2: { destruct schedule; [|done]. intros H. injection H as -> _. by apply validations_deny in E2. }
  destruct (if privileged a then _ else _) as [[]|x] eqn:E3.
  2: { destruct (privileged a); [|done]. intros H. injection H as -> _.
       by apply (validations_deny ed_verify e a approval (mkSchedule "" [] [] 0 0 0 "" "") now) in E3. }
  rewrite Hc. simpl. unfold ensure. by destruct (negb _).
Qed.

Lemma serve_audits ed_verify r e :
  dec_ltb (act_cost (rq_action r)) dec_zero = false →
  ∃ d, en_audit (serve ed_verify r e).2 = audit_append d (en_audit e) ∧
    dn_digest d = digest (rq_action r) ∧ dn_action_id d = act_id (rq_action r) ∧
    dn_allowed d = is_ok (serve ed_verify r e).1.
Proof.
  intros Hc. unfold serve, authorize.
  assert (H := authorize_checks_cases ed_verify (rq_action r) (rq_now r) (rq_approval r) (rq_schedule r) e).
  destruct (authorize_checks _ _ _ _ _ e) as [[[]|[msg|msg]] e1] eqn:E.
  - destruct H as [-> _]. exists (mkDecision (act_id (rq_action r)) (digest (rq_action r)) true "authorized").
    destruct (charge_fields (rq_action r) (rq_approval r) (rq_schedule r) e) as (_ & _ & Ha & _).
    split_and!; [|reflexivity..]. cbn. by rewrite Ha.
  - subst. by exists (mkDecision (act_id (rq_action r)) (digest (rq_action r)) false msg).
  - by apply authorize_checks_value_error in E.
Qed.

(** Every decision is recorded: serving any requests whose costs are not
    negative appends exactly one event per request to the audit, in order, with
    the request's digest and whether it was allowed, and the hash chain keeps
    verifying. *)
Theorem engine_audited ed_verify rs e :
  audit_verify (en_audit e) = true →
  Forall (λ r, dec_ltb (act_cost (rq_action r)) dec_zero = false) rs →
  let p := serve_all ed_verify rs e in
  audit_verify (en_audit p.2) = true ∧
  ∃ more, en_audit p.2 = en_audit e ++ more ∧
    Forall2 (λ ev po, dn_digest (ev_decision ev) = digest (rq_action po.1) ∧
                      dn_action_id (ev_decision ev) = act_id (rq_action po.1) ∧
                      dn_allowed (ev_decision ev) = is_ok po.2) more p.1.
Proof.
  cbv zeta. intros He Hrs. revert e He. induction Hrs as [|r rs Hr Hrs IH]; intros e He.
  { split; [done|]. exists []. rewrite app_nil_r. split; [done|constructor]. }
  cbn [serve_all]. cbv zeta. cbn [fst snd].
  assert (∃ d, en_audit (serve ed_verify r e).2 = audit_append d (en_audit e) ∧
    dn_digest d = digest (rq_action r) ∧ dn_action_id d = act_id (rq_action r) ∧
    dn_allowed d = is_ok (serve ed_verify r e).1) as (d & Hd & Hdig & Hid & Hal).
  { apply serve_audits, Hr. }
  destruct (IH (serve ed_verify r e).2) as (IH1 & more & IH2 & IH3).
  { rewrite Hd. by apply audit_append_verifies. }
  split; [done|]. rewrite Hd in IH2. unfold audit_append in IH2.
  eexists (_ :: more). rewrite IH2, <- app_assoc. split; [done|]. simpl. constructor; [simpl; auto|done].
Qed.

(** ** A concrete engine *)

Definition toy_verify (key payload signature : string) : bool := bool_decide (key = signature).
Definition sample_action : Action := mkAction "act-1" "deploy" PROTECTED [] (mkDec 250 2) [].
Definition sample_approval : Approval :=
  mkApproval "ap-1" (digest sample_action) 0 (seconds 60) "commander" "k1".
Definition sample_engine : Engine := mkEngine (mkDec 20 0) dec_zero [] [("commander", "k1")] ∅ [].
Definition sample_request : Request := mkRequest sample_action (seconds 5) (Some sample_approval) None.
Definition sample_decision : AuthorizationDecision := mkDecision "act-1" (digest sample_action) true "authorized".

Lemma sample_authorized :
  authorize toy_verify sample_action (seconds 5) (Some sample_approval) None sample_engine =
  (Ok sample_decision, add_audit sample_decision (charge sample_action (Some sample_approval) None sample_engine)).
Proof.
  unfold authorize.
  assert (authorize_checks toy_verify sample_action (seconds 5) (Some sample_approval) None sample_engine =
          (Ok (), charge sample_action (Some sample_approval) None sample_engine)) as ->; [|done].
  unfold authorize_checks, validate_approval. py_unfold. by rewrite bool_decide_refl.
Qed.

Lemma authorize_sound_witness :
  dec_ltb (mkDec 20 0) (dec_add dec_zero (mkDec 250 2)) = false ∧
  ∃ ap, Some sample_approval = Some ap ∧
    approval_covers toy_verify sample_engine sample_action (seconds 5) ap.
Proof.
  split; [reflexivity|].
  destruct (authorize_sound toy_verify sample_action (seconds 5) (Some sample_approval) None sample_engine _ _
              sample_authorized) as (_ & _ & _ & _ & H & _).
  destruct (H eq_refl) as (_ & ap & Hap & Hc & _). exists ap. exact (conj Hap Hc).
Defined.

Lemma engine_history_witness :
  let p := serve_all toy_verify [sample_request; sample_request] sample_engine in
  map (λ x, is_ok x.2) p.1 = [true; false] ∧
  en_spent p.2 = foldl dec_add dec_zero (map (λ r, act_cost (rq_action r)) (allowed p.1)) ∧
  NoDup (spent_approvals (allowed p.1)).
Proof.
  intros p.
  destruct (engine_history toy_verify [sample_request; sample_request] (mkDec 20 0) [("commander", "k1")]
              sample_engine eq_refl) as (H1 & _ & H3).
  split; [|exact (conj H1 H3)].
  unfold p. cbn [serve_all]. assert (Hs := sample_authorized).
  change (authorize _ _ _ _ _) with (serve toy_verify sample_request) in Hs. rewrite Hs. reflexivity.
Defined.

Lemma engine_audited_witness :
  audit_verify (en_audit (serve_all toy_verify [sample_request; sample_request] sample_engine).2) = true.
Proof.
  apply (engine_audited toy_verify [sample_request; sample_request] sample_engine); [reflexivity|].
  repeat constructor.
Defined.
