(* ===== verification/AuthorityRepository.v ===== *)
(** The authority repository (src/olympus/authority/repository.py): WebAuthn
    challenges and credentials, authority leases fenced by an epoch, the
    emergency freeze, admission of interactions, and the hash-chained audit.

    [InMemoryAuthorityRepository] holds one lock for every method, so each
    method is one step. What a method assigned before it raises stays assigned,
    as in the code. *)

From S2P Require Import Prelude PyDict PyTime Json Sha256.

Open Scope Z_scope.

(** ** Data *)

(** The exception classes of the repository; [KeyError] is the [d[k]] of an
    absent key. *)
Inductive repo_exn :=
  | AuthorityRepositoryError (msg : string)
  | ChallengeConsumed (msg : string)
  | ChallengeInvalid (msg : string)
  | AdmissionDenied (msg : string)
  | RepoValueError (msg : string)
  | KeyError.

Definition is_digest (b : string) : bool := str_len b =? 32.

Record Credential := mkCredential {
  cr_id : string;
  cr_commander : string;
  cr_public_key : string;
  cr_sign_count : Z;
  cr_created_at : datetime;
  cr_revoked_at : option datetime }.

(** [Credential.__post_init__] *)
Definition make_credential (c : Credential) : result repo_exn Credential :=
  ensure (negb (is_empty (cr_id c) || is_empty (cr_public_key c)))
    (RepoValueError "credential identity and public key must not be empty");;
  ensure (0 <=? cr_sign_count c) (RepoValueError "credential sign_count cannot be negative");;
  Ok c.

Record Challenge := mkChallenge {
  ch_id : string;
  ch_value : string;
  ch_digest : string;
  ch_purpose : string;
  ch_commander : string;
  ch_payload_digest : string;
  ch_payload_json : option string;
  ch_issued_at : datetime;
  ch_expires_at : datetime;
  ch_consumed_at : option datetime }.

(** [Challenge.__post_init__] *)
Definition make_challenge (c : Challenge) : result repo_exn Challenge :=
  ensure (is_digest (ch_value c)) (RepoValueError "challenge_value must be exactly 32 bytes");;
  ensure (is_digest (ch_digest c)) (RepoValueError "challenge_digest must be exactly 32 bytes");;
  ensure (is_digest (ch_payload_digest c)) (RepoValueError "payload_digest must be exactly 32 bytes");;
  ensure (ch_issued_at c <? ch_expires_at c) (RepoValueError "challenge must expire after issuance");;
  ensure (ch_expires_at c - ch_issued_at c <=? minutes 5)
    (RepoValueError "challenge lifetime cannot exceed five minutes");;
  Ok c.

Definition consume (c : Challenge) (now : datetime) : Challenge :=
  mkChallenge (ch_id c) (ch_value c) (ch_digest c) (ch_purpose c) (ch_commander c) (ch_payload_digest c)
    (ch_payload_json c) (ch_issued_at c) (ch_expires_at c) (Some now).

Record LeaseRequest := mkLeaseRequest {
  lr_id : string;
  lr_commander : string;
  lr_guild : string;
  lr_channel : string;
  lr_credential : string;
  lr_issued_at : datetime;
  lr_expires_at : datetime }.

(** [LeaseRequest.__post_init__] *)
Definition make_lease_request (r : LeaseRequest) : result repo_exn LeaseRequest :=
  ensure (is_digest (lr_channel r)) (RepoValueError "channel_scope_digest must be exactly 32 bytes");;
  ensure (lr_issued_at r <? lr_expires_at r) (RepoValueError "lease must expire after issuance");;
  ensure (lr_expires_at r - lr_issued_at r <=? hours 24) (RepoValueError "lease lifetime cannot exceed 24 hours");;
  Ok r.

Record AuthorityLease := mkLease {
  l_id : string;
  l_epoch : Z;
  l_commander : string;
  l_guild : string;
  l_channel : string;
  l_credential : string;
  l_issued_at : datetime;
  l_expires_at : datetime;
  l_revoked_at : option datetime;
  l_revocation_reason : option string }.

Definition lease_revoke (l : AuthorityLease) (now : datetime) (reason : string) : AuthorityLease :=
  mkLease (l_id l) (l_epoch l) (l_commander l) (l_guild l) (l_channel l) (l_credential l)
    (l_issued_at l) (l_expires_at l) (Some now) (Some reason).

Record AdmissionRequest := mkAdmission {
  aq_interaction : string;
  aq_digest : string;
  aq_commander : string;
  aq_guild : string;
  aq_channel : string;
  aq_lease : string;
  aq_epoch : Z;
  aq_received_at : datetime }.

(** [AdmissionRequest.__post_init__] *)
Definition make_admission (q : AdmissionRequest) : result repo_exn AdmissionRequest :=
  ensure (is_digest (aq_digest q)) (RepoValueError "request_digest must be exactly 32 bytes");;
  ensure (is_digest (aq_channel q)) (RepoValueError "channel_scope_digest must be exactly 32 bytes");;
  Ok q.

Record AdmissionReceipt := mkReceipt {
  rc_interaction : string; rc_epoch : Z; rc_lease : string; rc_workflow : string; rc_duplicate : bool }.

Record FreezeReceipt := mkFreezeReceipt {
  fr_request : string; fr_authority_epoch : Z; fr_freeze_epoch : Z; fr_frozen_at : datetime }.
Record FreezeState := mkFreezeState { fs_frozen : bool; fs_freeze_epoch : Z; fs_authority_epoch : Z }.
Record RecoveryReceipt := mkRecovery { rr_lease : AuthorityLease; rr_freeze_epoch : Z; rr_proof : string }.

Record AuditEvent := mkAuditEvent {
  ae_sequence : Z; ae_type : string; ae_body : string; ae_previous : string; ae_hash : string }.

(** ** Audit *)

Fixpoint zero_bytes (n : nat) : string :=
  match n with O => EmptyString | S n' => String Ascii.zero (zero_bytes n') end.
Definition REPO_GENESIS : string := zero_bytes 32.

Definition repo_audit_hash (sequence : Z) (event_type body previous : string) : string :=
  sha256 (utf8 (dumps (JObj [("body", JStr body); ("event_type", JStr event_type);
                             ("previous_hash", JStr (hex previous)); ("sequence", JInt sequence)]))).

Definition repo_last (h : string) (events : list AuditEvent) : string :=
  match last events with Some e => ae_hash e | None => h end.

Definition audit_append_event (event_type : string) (body : json) (events : list AuditEvent) : list AuditEvent :=
  let sequence := Z.of_nat (length events) + 1 in
  let previous := repo_last REPO_GENESIS events in
  let canonical := dumps body in
  events ++ [mkAuditEvent sequence event_type canonical previous
               (repo_audit_hash sequence event_type canonical previous)].

(** [verify_audit_chain] *)
Fixpoint repo_verify_from (sequence : Z) (previous : string) (events : list AuditEvent) : bool :=
  match events with
  | [] => true
  | e :: events' =>
      if negb (ae_sequence e =? sequence) || negb (bool_decide (ae_previous e = previous)) then false
      else if negb (bool_decide
        (ae_hash e = repo_audit_hash (ae_sequence e) (ae_type e) (ae_body e) (ae_previous e))) then false
      else repo_verify_from (sequence + 1) (ae_hash e) events'
  end.
Definition repo_verify_audit_chain (events : list AuditEvent) : bool := repo_verify_from 1 REPO_GENESIS events.

(** ** State *)

Record Repo := mkRepo {
  r_authority_epoch : Z;
  r_freeze_epoch : Z;
  r_frozen : bool;
  r_challenges : dict string Challenge;
  r_credentials : dict string Credential;
  r_leases : dict string AuthorityLease;
  r_active : option string;
  r_interactions : dict string (string * AdmissionReceipt);
  r_audit : list AuditEvent }.

Definition empty_repo : Repo := mkRepo 1 1 false [] [] [] None [] [].

Definition set_challenges (d : dict string Challenge) (r : Repo) : Repo :=
  mkRepo (r_authority_epoch r) (r_freeze_epoch r) (r_frozen r) d (r_credentials r) (r_leases r)
    (r_active r) (r_interactions r) (r_audit r).
Definition set_credentials (d : dict string Credential) (r : Repo) : Repo :=
  mkRepo (r_authority_epoch r) (r_freeze_epoch r) (r_frozen r) (r_challenges r) d (r_leases r)
    (r_active r) (r_interactions r) (r_audit r).
Definition set_leases (d : dict string AuthorityLease) (active : option string) (r : Repo) : Repo :=
  mkRepo (r_authority_epoch r) (r_freeze_epoch r) (r_frozen r) (r_challenges r) (r_credentials r) d
    active (r_interactions r) (r_audit r).
Definition set_interactions (d : dict string (string * AdmissionReceipt)) (r : Repo) : Repo :=
  mkRepo (r_authority_epoch r) (r_freeze_epoch r) (r_frozen r) (r_challenges r) (r_credentials r) (r_leases r)
    (r_active r) d (r_audit r).
Definition set_epochs (authority freeze : Z) (frozen : bool) (r : Repo) : Repo :=
  mkRepo authority freeze frozen (r_challenges r) (r_credentials r) (r_leases r)
    (r_active r) (r_interactions r) (r_audit r).
Definition append_event (event_type : string) (body : json) (r : Repo) : Repo :=
  mkRepo (r_authority_epoch r) (r_freeze_epoch r) (r_frozen r) (r_challenges r) (r_credentials r) (r_leases r)
    (r_active r) (r_interactions r) (audit_append_event event_type body (r_audit r)).

Notation RM := (St Repo repo_exn).

(** ** Operations *)

Definition create_challenge (c : Challenge) : RM () :=
  r ← read;
  check (negb (dmem (ch_id c) (r_challenges r))) (ChallengeInvalid "challenge identity already exists");;
  check (negb (existsb (λ s, bool_decide (ch_digest s = ch_digest c)) (dvalues (r_challenges r))))
    (ChallengeInvalid "challenge digest already exists");;
  modify (set_challenges (dset (ch_id c) c (r_challenges r))).

(** [_consume_challenge_locked], also [consume_challenge] *)
Definition consume_challenge (challenge_id challenge_digest : string) (now : datetime) : RM Challenge :=
  r ← read;
  c ← some_or (dget challenge_id (r_challenges r)) (ChallengeInvalid "challenge does not match");
  check (bool_decide (ch_digest c = challenge_digest)) (ChallengeInvalid "challenge does not match");;
  check (bool_decide (ch_consumed_at c = None)) (ChallengeConsumed "challenge was already consumed");;
  check (negb (ch_expires_at c <? now)) (ChallengeInvalid "challenge has expired");;
  modify (set_challenges (dset challenge_id (consume c now) (r_challenges r)));;
  mret (consume c now).

Definition get_challenge (challenge_id : string) : RM Challenge :=
  r ← read; some_or (dget challenge_id (r_challenges r)) (ChallengeInvalid "challenge does not exist").

Definition live (c : Credential) : bool := bool_decide (cr_revoked_at c = None).

Definition list_credentials : RM (list Credential) := gets (λ r, List.filter live (dvalues (r_credentials r))).
Definition credential_count : RM Z := gets (λ r, Z.of_nat (length (List.filter live (dvalues (r_credentials r))))).

Definition get_credential (credential_id : string) : RM Credential :=
  r ← read;
  c ← some_or (dget credential_id (r_credentials r)) (AuthorityRepositoryError "credential is unavailable");
  check (live c) (AuthorityRepositoryError "credential is unavailable");;
  mret c.

Definition replace_credential (c : Credential) : RM () :=
  r ← read;
  check (dmem (cr_id c) (r_credentials r)) (AuthorityRepositoryError "credential does not exist");;
  modify (set_credentials (dset (cr_id c) c (r_credentials r))).

Definition enrolled_body (c : Credential) : json :=
  JObj [("commander_id", JStr (cr_commander c));
        ("credential_fingerprint", JStr (sha256_hex (cr_id c)));
        ("public_key_fingerprint", JStr (sha256_hex (cr_public_key c)));
        ("created_at", JStr (isoformat (cr_created_at c)))].

Definition complete_registration (challenge_id challenge_digest : string) (c : Credential) (now : datetime) :
    RM Credential :=
  consume_challenge challenge_id challenge_digest now;;
  r ← read;
  check (negb (dmem (cr_id c) (r_credentials r))) (AuthorityRepositoryError "credential identity already exists");;
  modify (set_credentials (dset (cr_id c) c (r_credentials r)));;
  modify (append_event "credential-enrolled" (enrolled_body c));;
  mret c.

(** [_revoke_active] *)
Definition revoke_active (now : datetime) (reason : string) : RM () :=
  r ← read;
  match r_active r with
  | None => mret ()
  | Some i =>
      a ← some_or (dget i (r_leases r)) KeyError;
      modify (set_leases
        (if bool_decide (l_revoked_at a = None) then dset (l_id a) (lease_revoke a now reason) (r_leases r)
         else r_leases r) None)
  end.

Definition new_lease (q : LeaseRequest) (epoch : Z) : AuthorityLease :=
  mkLease (lr_id q) epoch (lr_commander q) (lr_guild q) (lr_channel q) (lr_credential q)
    (lr_issued_at q) (lr_expires_at q) None None.

Definition issued_body (l : AuthorityLease) : json :=
  JObj [("authority_epoch", JInt (l_epoch l)); ("commander_id", JStr (l_commander l));
        ("guild_id", JStr (l_guild l)); ("lease_fingerprint", JStr (sha256_hex (utf8 (l_id l))))].

(** [_issue_lease_locked], also [issue_lease] *)
Definition issue_lease (q : LeaseRequest) : RM AuthorityLease :=
  r ← read;
  check (negb (r_frozen r)) (AdmissionDenied "authority is frozen");;
  check (negb (dmem (lr_id q) (r_leases r))) (AuthorityRepositoryError "lease identity already exists");;
  revoke_active (lr_issued_at q) "replaced";;
  modify (λ r, set_epochs (r_authority_epoch r + 1) (r_freeze_epoch r) (r_frozen r) r);;
  r' ← read;
  let lease := new_lease q (r_authority_epoch r') in
  modify (set_leases (dset (l_id lease) lease (r_leases r')) (Some (l_id lease)));;
  modify (append_event "lease-issued" (issued_body lease));;
  mret lease.

(** The credential checks and the counter update shared by authentication and
    recovery. *)
Definition use_credential (credential_id : string) (new_sign_count : Z) : RM () :=
  c ← get_credential credential_id;
  check (cr_sign_count c <=? new_sign_count) (AuthorityRepositoryError "credential counter regressed");;
  modify (λ r, set_credentials (dset credential_id
    (mkCredential (cr_id c) (cr_commander c) (cr_public_key c) new_sign_count (cr_created_at c) (cr_revoked_at c))
    (r_credentials r)) r).

Definition complete_authentication (challenge_id challenge_digest credential_id : string) (new_sign_count : Z)
    (q : LeaseRequest) (now : datetime) : RM AuthorityLease :=
  consume_challenge challenge_id challenge_digest now;;
  use_credential credential_id new_sign_count;;
  issue_lease q.

Definition freeze_state : RM FreezeState :=
  gets (λ r, mkFreezeState (r_frozen r) (r_freeze_epoch r) (r_authority_epoch r)).

Definition recovery_body (authority_epoch freeze_epoch : Z) (recovery_id : string) : json :=
  JObj [("authority_epoch", JInt authority_epoch); ("freeze_epoch", JInt freeze_epoch);
        ("recovery_id", JStr recovery_id)].

Definition complete_recovery (challenge_id challenge_digest : string) (expected_freeze_epoch : Z)
    (credential_id : string) (new_sign_count : Z) (q : LeaseRequest) (recovery_id : string) (now : datetime) :
    RM RecoveryReceipt :=
  challenge ← consume_challenge challenge_id challenge_digest now;
  check (bool_decide (ch_purpose challenge = "recovery"))
    (ChallengeInvalid "challenge purpose does not permit recovery");;
  r ← read;
  check (r_frozen r && (r_freeze_epoch r =? expected_freeze_epoch))
    (AdmissionDenied "freeze epoch changed before recovery");;
  use_credential credential_id new_sign_count;;
  modify (λ r, set_epochs (r_authority_epoch r) (r_freeze_epoch r) false r);;
  lease ← issue_lease q;
  let body := recovery_body (l_epoch lease) expected_freeze_epoch recovery_id in
  modify (append_event "authority-recovered" body);;
  mret (mkRecovery lease expected_freeze_epoch (sha256 (utf8 (dumps body)))).

Definition lease_authorizes (r : Repo) (q : AdmissionRequest) (l : AuthorityLease) : bool :=
  bool_decide (l_revoked_at l = None) && (l_epoch l =? r_authority_epoch r) && (l_epoch l =? aq_epoch q)
  && bool_decide (l_commander l = aq_commander q) && bool_decide (l_guild l = aq_guild q)
  && bool_decide (l_channel l = aq_channel q) && negb (l_expires_at l <=? aq_received_at q).

(** [admit] *)
Definition admit_interaction (q : AdmissionRequest) : RM AdmissionReceipt :=
  r ← read;
  match dget (aq_interaction q) (r_interactions r) with
  | Some (digest, receipt) =>
      check (bool_decide (digest = aq_digest q))
        (AdmissionDenied "interaction identity was reused with another payload");;
      mret (mkReceipt (rc_interaction receipt) (rc_epoch receipt) (rc_lease receipt) (rc_workflow receipt) true)
  | None =>
      check (negb (r_frozen r)) (AdmissionDenied "authority is frozen");;
      l ← some_or (dget (aq_lease q) (r_leases r)) (AdmissionDenied "lease does not authorize this interaction");
      check (lease_authorizes r q l) (AdmissionDenied "lease does not authorize this interaction");;
      let receipt := mkReceipt (aq_interaction q) (l_epoch l) (l_id l) ("discord-" +:+ aq_interaction q) false in
      modify (set_interactions (dset (aq_interaction q) (aq_digest q, receipt) (r_interactions r)));;
      mret receipt
  end.

Definition frozen_body (authority_epoch freeze_epoch : Z) (reason request_id : string) : json :=
  JObj [("authority_epoch", JInt authority_epoch); ("freeze_epoch", JInt freeze_epoch);
        ("reason", JStr reason); ("request_id", JStr request_id)].

Definition freeze (request_id reason : string) (now : datetime) : RM FreezeReceipt :=
  r ← read;
  (if r_frozen r then mret () else
     modify (λ r, set_epochs (r_authority_epoch r + 1) (r_freeze_epoch r + 1) true r);;
     revoke_active now reason;;
     modify (λ r, append_event "authority-frozen"
       (frozen_body (r_authority_epoch r) (r_freeze_epoch r) reason request_id) r));;
  r' ← read;
  mret (mkFreezeReceipt request_id (r_authority_epoch r') (r_freeze_epoch r') now).

Definition active_lease : RM (option AuthorityLease) :=
  r ← read;
  match r_active r with
  | None => mret None
  | Some i =>
      l ← some_or (dget i (r_leases r)) KeyError;
      mret (if bool_decide (l_revoked_at l = None) then Some l else None)
  end.

Definition lease_is_revoked (lease_id : string) : RM bool :=
  r ← read; l ← some_or (dget lease_id (r_leases r)) KeyError;
  mret (negb (bool_decide (l_revoked_at l = None))).

Definition is_frozen : RM bool := gets r_frozen.
