(* ===== verification/AuthorityFacts.v ===== *)
(** Invariants of the authority repository: at most one live lease, epoch
    fencing, irreversible revocation, single-use challenges, idempotent
    admission, and a verifying audit chain, over every reachable state. *)

From S2P Require Import Prelude PyDict PyTime Json Sha256 AuthorityRepository.

Open Scope Z_scope.

(** ** Steps and reachable states *)

(** One method call, whatever its outcome. *)
Inductive repo_step : Repo → Repo → Prop :=
  | step_create_challenge c r : repo_step r (final (create_challenge c r))
  | step_consume_challenge i d now r : repo_step r (final (consume_challenge i d now r))
  | step_replace_credential c r : repo_step r (final (replace_credential c r))
  | step_registration i d c now r : repo_step r (final (complete_registration i d c now r))
  | step_authentication i d cid n q now r : repo_step r (final (complete_authentication i d cid n q now r))
  | step_recovery i d f cid n q rid now r : repo_step r (final (complete_recovery i d f cid n q rid now r))
  | step_issue q r : repo_step r (final (issue_lease q r))
  | step_admit q r : repo_step r (final (admit_interaction q r))
  | step_freeze i reason now r : repo_step r (final (freeze i reason now r)).

Definition repo_steps : Repo → Repo → Prop := rtc repo_step.
Definition reachable (r : Repo) : Prop := repo_steps empty_repo r.

(** ** The invariant *)

(** The part about leases alone; it holds in the middle of a freeze too. *)
Record lease_inv (epoch : Z) (leases : dict string AuthorityLease) (active : option string) : Prop := {
  li_wf : dict_wf leases;
  li_key : dall (λ k l, l_id l = k) leases;
  li_epoch : dall (λ _ l, l_epoch l ≤ epoch) leases;
  li_distinct : ∀ i j l l', dget i leases = Some l → dget j leases = Some l' → l_epoch l = l_epoch l' → i = j;
  li_active : ∀ i, active = Some i → ∃ l, dget i leases = Some l ∧ l_revoked_at l = None;
  li_single : ∀ i l, dget i leases = Some l → l_revoked_at l = None → active = Some i }.

Record repo_inv (r : Repo) : Prop := {
  ri_lease : lease_inv (r_authority_epoch r) (r_leases r) (r_active r);
  ri_current : ∀ i l, r_active r = Some i → dget i (r_leases r) = Some l → l_epoch l = r_authority_epoch r;
  ri_frozen : r_frozen r = true → r_active r = None;
  ri_epochs : 1 ≤ r_authority_epoch r ∧ 1 ≤ r_freeze_epoch r;
  ri_receipts : dall (λ k p, rc_interaction p.2 = k ∧ rc_epoch p.2 ≤ r_authority_epoch r ∧
                             rc_duplicate p.2 = false) (r_interactions r);
  ri_audit : repo_verify_audit_chain (r_audit r) = true }.

(** ** Audit *)

Lemma repo_verify_snoc i h l e :
  repo_verify_from i h (l ++ [e]) = true ↔
  repo_verify_from i h l = true ∧
  ae_sequence e = i + Z.of_nat (length l) ∧ ae_previous e = repo_last h l ∧
  ae_hash e = repo_audit_hash (ae_sequence e) (ae_type e) (ae_body e) (ae_previous e).
Proof.
  revert i h. induction l as [|x l IH]; intros i h.
  - simpl. rewrite Z.add_0_r. unfold repo_last. simpl. split.
    + repeat case_match; bool_to_prop; naive_solver.
    + intros (_ & -> & -> & Hh). by rewrite Z.eqb_refl, bool_decide_refl, Hh, bool_decide_refl.
  - cbn [app repo_verify_from].
    assert (repo_last h (x :: l) = repo_last (ae_hash x) l) as ->
      by (unfold repo_last; rewrite last_cons; by destruct (last l)).
    replace (i + Z.of_nat (length (x :: l))) with (i + 1 + Z.of_nat (length l)) by (simpl length; lia).
    destruct (negb _ || negb _); [naive_solver|]. destruct (negb _); [naive_solver|]. apply IH.
Qed.

Lemma append_event_verifies t b l :
  repo_verify_audit_chain l = true → repo_verify_audit_chain (audit_append_event t b l) = true.
Proof. intros H. apply repo_verify_snoc. cbn. rewrite Z.add_comm. done. Qed.

Lemma repo_inv_append t b r : repo_inv r → repo_inv (append_event t b r).
Proof. intros []. split; simpl; auto using append_event_verifies. Qed.

(** ** Revocation of the active lease *)

(** What revoking the active lease does to the lease table. *)
Record leases_fenced (d d' : dict string AuthorityLease) : Prop := {
  lf_revoked : ∀ i l, dget i d' = Some l → l_revoked_at l ≠ None;
  lf_back : ∀ i l', dget i d' = Some l' → ∃ l, dget i d = Some l ∧ l_id l' = l_id l ∧ l_epoch l' = l_epoch l;
  lf_keep : ∀ i l, dget i d = Some l → l_revoked_at l ≠ None → dget i d' = Some l;
  lf_some : ∀ i, dget i d' = None → dget i d = None }.

Lemma revoke_active_spec r now reason :
  lease_inv (r_authority_epoch r) (r_leases r) (r_active r) →
  ∃ d', revoke_active now reason r = (Ok (), set_leases d' None r) ∧
        leases_fenced (r_leases r) d' ∧ dict_wf d'.
Proof.
  intros [Hwf Hkey _ _ Ha Hs]. unfold revoke_active. py_unfold.
  destruct (r_active r) as [i|] eqn:Ei.
  - destruct (Ha i eq_refl) as (l & Hl & Hr). rewrite Hl. simpl.
    rewrite bool_decide_true by done. eexists. split; [done|].
    assert (l_id l = i) as Hid by (by apply Hkey). rewrite Hid.
    split; [|by auto with olympus].
    split.
    + intros j l'. rewrite dget_dset. case_decide; [naive_solver|].
      intros Hj Hn. apply (Hs j) in Hn; [congruence|done].
    + intros j l'. rewrite dget_dset. case_decide; [|naive_solver]. subst j. intros. simplify_eq. eauto.
    + intros j l' Hj Hn. rewrite dget_dset. case_decide; [congruence|done].
    + intros j. rewrite dget_dset. by case_decide.
  - exists (r_leases r). split; [destruct r; simpl in *; by subst|]. split; [|done].
    split; eauto. intros j l Hj Hn. by apply (Hs j l Hj) in Hn.
Qed.

Lemma fenced_inv epoch d d' active :
  lease_inv epoch d active → leases_fenced d d' → dict_wf d' → lease_inv epoch d' None.
Proof.
  intros [Hwf Hkey Hep Hdi Ha Hs] [Hrev Hback _ _] Hwf'. split.
  - done.
  - intros i l' Hl'. destruct (Hback i l' Hl') as (l & Hl & -> & _). by apply Hkey.
  - intros i l' Hl'. destruct (Hback i l' Hl') as (l & Hl & _ & ->). by apply (Hep i).
  - intros i j l1 l2 H1 H2 He.
    destruct (Hback i l1 H1) as (l & Hl & _ & E1), (Hback j l2 H2) as (l' & Hl' & _ & E2).
    eapply Hdi; [done..|]. congruence.
  - done.
  - intros i l Hl Hn. by apply Hrev in Hl.
Qed.

Lemma lease_inv_epoch epoch epoch' d active :
  epoch ≤ epoch' → lease_inv epoch d active → lease_inv epoch' d active.
Proof. intros He []. split; auto. intros i l Hl. specialize (li_epoch0 i l Hl). simpl in *. lia. Qed.

(** ** Issuing a lease *)

Definition issue_result (r : Repo) (q : LeaseRequest) (d' : dict string AuthorityLease) : Repo :=
  let lease := new_lease q (r_authority_epoch r + 1) in
  append_event "lease-issued" (issued_body lease)
    (set_leases (dset (lr_id q) lease d') (Some (lr_id q))
       (set_epochs (r_authority_epoch r + 1) (r_freeze_epoch r) (r_frozen r) r)).

(** Issuing either refuses and changes nothing, or revokes what was active and
    installs the new lease at the next epoch. *)
Lemma issue_lease_cases q r :
  lease_inv (r_authority_epoch r) (r_leases r) (r_active r) →
  match issue_lease q r with
  | (Err _, r') => r' = r
  | (Ok l, r') =>
      r_frozen r = false ∧ dget (lr_id q) (r_leases r) = None ∧ l = new_lease q (r_authority_epoch r + 1) ∧
      ∃ d', leases_fenced (r_leases r) d' ∧ dict_wf d' ∧ r' = issue_result r q d'
  end.
Proof.
  intros Hinv. destruct (revoke_active_spec r (lr_issued_at q) "replaced" Hinv) as (d' & Hrev & Hf & Hwf).
  unfold issue_lease. py_unfold. destruct (r_frozen r) eqn:Ef; simpl; [done|].
  unfold dmem. destruct (dget (lr_id q) (r_leases r)) eqn:Ed; simpl; [done|].
  rewrite Hrev. simpl. split_and!; [done..|]. exists d'. split_and!; [done..|].
  unfold issue_result. simpl. by rewrite Ef.
Qed.

Lemma issue_result_inv r q d' :
  repo_inv r → r_frozen r = false → dget (lr_id q) (r_leases r) = None →
  leases_fenced (r_leases r) d' → dict_wf d' → repo_inv (issue_result r q d').
Proof.
  intros Hinv Hfr Hnone Hf Hwf. unfold issue_result. apply repo_inv_append.
  assert (Hl := fenced_inv _ _ _ _ (ri_lease r Hinv) Hf Hwf).
  apply lease_inv_epoch with (epoch' := r_authority_epoch r + 1) in Hl; [|lia].
  destruct Hinv as [Hli Hcur Hfz [He1 He2] Hrc Hau]. split; simpl; try done.
  - destruct Hl as [Hwf' Hk Hep Hdi Ha Hs]. split.
    + auto with olympus.
    + by apply dall_dset.
    + apply dall_dset; [simpl; lia|done].
    + intros i j l l'. rewrite !dget_dset.
      assert (∀ k x, dget k d' = Some x → l_epoch x ≠ r_authority_epoch r + 1) as Hlt.
      { intros k x Hx. destruct (lf_back _ _ Hf k x Hx) as (y & Hy & _ & ->).
        assert (l_epoch y ≤ r_authority_epoch r) by (by eapply (li_epoch _ _ _ Hli)). lia. }
      repeat case_decide; intros H1 H2 He; simplify_eq/=; try done.
      * exfalso. by eapply Hlt.
      * exfalso. by eapply Hlt.
      * by eapply Hdi.
    + intros i [= <-]. rewrite dget_dset_eq. eauto.
    + intros i l. rewrite dget_dset. case_decide; [naive_solver|].
      intros Hi Hn. by apply (lf_revoked _ _ Hf) in Hi.
  - intros i l [= <-]. rewrite dget_dset_eq. by intros [= <-].
  - congruence.
  - lia.
  - intros k p Hp. destruct (Hrc k p Hp) as (?&?&?). simpl in *. split_and!; auto; lia.
Qed.

(** ** What each operation does *)

(** Two states that differ in challenges and credentials only. *)
Definition same_authority (r r' : Repo) : Prop :=
  r_authority_epoch r' = r_authority_epoch r ∧ r_freeze_epoch r' = r_freeze_epoch r ∧
  r_frozen r' = r_frozen r ∧ r_leases r' = r_leases r ∧ r_active r' = r_active r ∧
  r_interactions r' = r_interactions r ∧ r_audit r' = r_audit r.

#[export] Instance same_authority_refl : Reflexive same_authority.
Proof. intros r. by split_and!. Qed.
#[export] Instance same_authority_trans : Transitive same_authority.
Proof. intros r1 r2 r3. unfold same_authority. intuition congruence. Qed.

Lemma same_authority_inv r r' : same_authority r r' → repo_inv r → repo_inv r'.
Proof.
  intros (E1 & E2 & E3 & E4 & E5 & E6 & E7) [].
  split; rewrite ?E1, ?E2, ?E3, ?E4, ?E5, ?E6, ?E7; auto.
Qed.

(** Challenges only ever become consumed. *)
Definition challenges_kept (r r' : Repo) : Prop :=
  ∀ i c t, dget i (r_challenges r) = Some c → ch_consumed_at c = Some t → dget i (r_challenges r') = Some c.

Lemma consume_challenge_cases i d now r :
  match consume_challenge i d now r with
  | (Err _, r') => r' = r
  | (Ok c', r') => ∃ c, dget i (r_challenges r) = Some c ∧ ch_digest c = d ∧ ch_consumed_at c = None ∧
      now ≤ ch_expires_at c ∧ c' = consume c now ∧
      r' = set_challenges (dset i (consume c now) (r_challenges r)) r
  end.
Proof.
  unfold consume_challenge. py_unfold. destruct (dget i (r_challenges r)) as [c|] eqn:E; simpl; [|done].
  destruct (bool_decide (ch_digest c = d)) eqn:E1; simpl; [|done].
  destruct (bool_decide (ch_consumed_at c = None)) eqn:E2; simpl; [|done].
  destruct (negb (ch_expires_at c <? now)) eqn:E3; simpl; [|done].
  bool_to_prop. exists c. split_and!; try done.
Qed.

Lemma consume_challenge_frame i d now r :
  same_authority r (final (consume_challenge i d now r)) ∧
  challenges_kept r (final (consume_challenge i d now r)).
Proof.
  assert (H := consume_challenge_cases i d now r). unfold final.
  destruct (consume_challenge i d now r) as [[c'|] r']; simpl in *; [|subst; split; [done|by intros ?]].
  destruct H as (c & Hc & _ & Hn & _ & _ & ->). split; [by split_and!|].
  intros j cj t Hj Ht. simpl. rewrite dget_dset. case_decide; [|done]. subst. congruence.
Qed.

Lemma use_credential_frame i n r :
  same_authority r (final (use_credential i n r)) ∧
  r_challenges (final (use_credential i n r)) = r_challenges r.
Proof.
  unfold use_credential, get_credential. py_unfold.
  destruct (dget i (r_credentials r)) as [c|]; simpl; [|done].
  destruct (live c); simpl; [|done]. destruct (cr_sign_count c <=? n); simpl; done.
Qed.

(** ** How a state may evolve

    Epochs never decrease, a revoked lease stays exactly as it is, a lease
    keeps its epoch, an admitted interaction keeps its receipt, a consumed
    challenge stays consumed, and the audit is only appended to. *)

Record evolves (r r' : Repo) : Prop := {
  ev_authority : r_authority_epoch r ≤ r_authority_epoch r';
  ev_freeze : r_freeze_epoch r ≤ r_freeze_epoch r';
  ev_revoked : ∀ i l, dget i (r_leases r) = Some l → l_revoked_at l ≠ None → dget i (r_leases r') = Some l;
  ev_new : ∀ i l', dget i (r_leases r') = Some l' →
    (∃ l, dget i (r_leases r) = Some l ∧ l_epoch l' = l_epoch l) ∨
    (dget i (r_leases r) = None ∧ r_authority_epoch r < l_epoch l');
  ev_kept : ∀ i, dget i (r_leases r') = None → dget i (r_leases r) = None;
  ev_receipts : ∀ i p, dget i (r_interactions r) = Some p → dget i (r_interactions r') = Some p;
  ev_challenges : challenges_kept r r';
  ev_audit : ∃ more, r_audit r' = r_audit r ++ more }.

#[export] Instance evolves_refl : Reflexive evolves.
Proof. intros r. split; try done; [naive_solver|by intros ?|]. exists []. by rewrite app_nil_r. Qed.

#[export] Instance evolves_trans : Transitive evolves.
Proof.
  intros r1 r2 r3 [] []. split; try lia; auto.
  - intros i l3 H3. destruct (ev_new1 i l3 H3) as [(l2 & H2 & E2)|[? ?]]; [|right; split; [auto|lia]].
    destruct (ev_new0 i l2 H2) as [(l1 & H1 & E1)|[? ?]]; [left; exists l1; split; congruence|right; split; [done|lia]].
  - intros i c t H1 H2. by eapply ev_challenges1; [eapply ev_challenges0|].
  - destruct ev_audit0 as [m1 E1], ev_audit1 as [m2 E2]. exists (m1 ++ m2). by rewrite E2, E1, app_assoc.
Qed.

Lemma same_authority_evolves r r' : same_authority r r' → challenges_kept r r' → evolves r r'.
Proof.
  intros (E1 & E2 & E3 & E4 & E5 & E6 & E7) Hc.
  split; rewrite ?E1, ?E2, ?E3, ?E4, ?E5, ?E6, ?E7; try done; [naive_solver|].
  exists []. by rewrite app_nil_r.
Qed.

Lemma append_event_evolves t b r : evolves r (append_event t b r).
Proof. split; try done; [naive_solver|by intros ?|]. by eexists. Qed.

Lemma issue_lease_step q r :
  repo_inv r → repo_inv (final (issue_lease q r)) ∧ evolves r (final (issue_lease q r)).
Proof.
  intros Hinv. assert (H := issue_lease_cases q r (ri_lease r Hinv)). unfold final.
  destruct (issue_lease q r) as [[l|] r']; simpl; [|by subst].
  destruct H as (Hfr & Hnone & -> & d' & Hf & Hwf & ->). split; [by apply issue_result_inv|].
  unfold issue_result. etransitivity; [|apply append_event_evolves].
  split; simpl; try done; try lia.
  - intros i l Hl Hn. rewrite dget_dset. case_decide; [congruence|]. by apply (lf_keep _ _ Hf).
  - intros i l'. rewrite dget_dset. case_decide; [intros [= <-]; right; subst; simpl; split; [done|lia]|].
    intros Hl'. destruct (lf_back _ _ Hf i l' Hl') as (l & ? & _ & ?). left. eauto.
  - intros i. rewrite dget_dset. case_decide; [done|]. apply (lf_some _ _ Hf).
  - by intros ?.
  - exists []. by rewrite app_nil_r.
Qed.

(** Running on after a call: what holds of the first final state and of the
    continuation holds of the sequence. *)
Lemma final_bind {A B} (P : Repo → Prop) (m : RM A) (k : A → RM B) r :
  P (final (m r)) → (∀ a r', m r = (Ok a, r') → P (final (k a r'))) → P (final ((m ≫= k) r)).
Proof.
  intros Hm Hk. unfold final, mbind, st_bind in *.
  destruct (m r) as [[a|e] r'] eqn:E; simpl in *; [by apply Hk|done].
Qed.

Definition good (r r' : Repo) : Prop := repo_inv r' ∧ evolves r r'.

Lemma good_frame r r' : repo_inv r → same_authority r r' → challenges_kept r r' → good r r'.
Proof. intros. split; [by eapply same_authority_inv|by apply same_authority_evolves]. Qed.

Lemma good_trans r1 r2 r3 : good r1 r2 → good r2 r3 → good r1 r3.
Proof. intros [_ E1] [? E2]. split; [done|]. by etransitivity. Qed.

Lemma consume_good i d now r : repo_inv r → good r (final (consume_challenge i d now r)).
Proof. intros Hr. destruct (consume_challenge_frame i d now r). by apply good_frame. Qed.

Lemma use_credential_good i n r : repo_inv r → good r (final (use_credential i n r)).
Proof.
  intros Hr. destruct (use_credential_frame i n r) as [? E]. apply good_frame; [done..|].
  intros j c t. by rewrite E.
Qed.

Lemma final_of {A} (m : RM A) r a r' : m r = (a, r') → final (m r) = r'.
Proof. by unfold final; intros ->. Qed.

Lemma authentication_good i d cid n q now r :
  repo_inv r → good r (final (complete_authentication i d cid n q now r)).
Proof.
  intros Hr. unfold complete_authentication. apply final_bind; [by apply consume_good|].
  intros c r1 E1%final_of. assert (H1 := consume_good i d now r Hr). rewrite E1 in H1.
  eapply good_trans; [exact H1|]. apply final_bind; [by apply use_credential_good, H1|].
  intros [] r2 E2%final_of. assert (H2 := use_credential_good cid n r1 (proj1 H1)). rewrite E2 in H2.
  eapply good_trans; [exact H2|]. apply issue_lease_step, H2.
Qed.

Lemma append_event_good t b r : repo_inv r → good r (append_event t b r).
Proof. intros. split; [by apply repo_inv_append|apply append_event_evolves]. Qed.

(** Unfreezing a repository without an active lease. *)
Lemma repo_unfreeze_good r :
  repo_inv r → good r (set_epochs (r_authority_epoch r) (r_freeze_epoch r) false r).
Proof.
  intros []. split; [by split; simpl|].
  split; simpl; try done; [naive_solver|by intros ?|]. exists []. by rewrite app_nil_r.
Qed.

(** Chain two calls that are good. *)
Lemma good_bind {A B} (m : RM A) (k : A → RM B) r :
  good r (final (m r)) → (∀ a r', repo_inv r' → good r' (final (k a r'))) → good r (final ((m ≫= k) r)).
Proof.
  intros Hm Hk. apply final_bind; [done|]. intros a r' E%final_of. rewrite E in Hm.
  eapply good_trans; [exact Hm|]. apply Hk, Hm.
Qed.

Lemma good_pure {A} (x : result repo_exn A) r : repo_inv r → good r (final (liftR x r)).
Proof. intros. by split. Qed.

Lemma recovery_good i d f cid n q rid now r :
  repo_inv r → good r (final (complete_recovery i d f cid n q rid now r)).
Proof.
  intros Hr. unfold complete_recovery. apply good_bind; [by apply consume_good|].
  intros c r1 H1. apply good_bind; [by apply good_pure|]. intros _ r2 H2.
  apply good_bind; [by split|]. intros r2' r3 H3. apply good_bind; [by apply good_pure|].
  intros _ r4 H4. apply good_bind; [by apply use_credential_good|]. intros _ r5 H5.
  apply good_bind; [by apply repo_unfreeze_good|]. intros _ r6 H6.
  apply good_bind; [by apply issue_lease_step|]. intros l r7 H7.
  apply good_bind; [by apply append_event_good|]. intros _ r8 H8. by split.
Qed.

Lemma registration_good i d c now r : repo_inv r → good r (final (complete_registration i d c now r)).
Proof.
  intros Hr. unfold complete_registration. apply good_bind; [by apply consume_good|].
  intros _ r1 H1. apply good_bind; [by split|]. intros r1' r2 H2.
  apply good_bind; [by apply good_pure|]. intros _ r3 H3.
  apply good_bind; [apply good_frame; [done|by split_and!|by intros ?]|]. intros _ r4 H4.
  apply good_bind; [by apply append_event_good|]. intros _ r5 H5. by split.
Qed.

(** What freezing an unfrozen repository leaves: both epochs advance and every lease is revoked. *)
Definition freeze_result (i reason : string) (r : Repo) (d' : dict string AuthorityLease) : Repo :=
  append_event "authority-frozen" (frozen_body (r_authority_epoch r + 1) (r_freeze_epoch r + 1) reason i)
    (set_leases d' None (set_epochs (r_authority_epoch r + 1) (r_freeze_epoch r + 1) true r)).

Lemma repo_freeze_run i reason now r : repo_inv r →
  let r' := final (freeze i reason now r) in
  is_ok (outcome (freeze i reason now r)) = true ∧ r_frozen r' = true ∧
  ((r_frozen r = true ∧ r' = r) ∨ ∃ d', leases_fenced (r_leases r) d' ∧ dict_wf d' ∧ r' = freeze_result i reason r d').
Proof.
  intros Hr. unfold freeze, final, outcome. py_unfold. destruct (r_frozen r) eqn:Ef; [split_and!; [done|done|by left]|].
  set (r1 := set_epochs _ _ true r).
  assert (Hl : lease_inv (r_authority_epoch r1) (r_leases r1) (r_active r1)).
  { apply lease_inv_epoch with (epoch := r_authority_epoch r); [simpl; lia|apply Hr]. }
  destruct (revoke_active_spec r1 now reason Hl) as (d' & -> & Hf & Hwf). simpl. split_and!; [done|done|]. right. by exists d'.
Qed.

Lemma freeze_good i reason now r : repo_inv r → good r (final (freeze i reason now r)).
Proof.
  intros Hr. destruct (repo_freeze_run i reason now r Hr) as (_ & _ & [[_ ->]|(d' & Hf & Hwf & ->)]); [by split|].
  assert (Hinv := fenced_inv _ _ _ _ (ri_lease _ Hr) Hf Hwf). apply lease_inv_epoch with (epoch' := r_authority_epoch r + 1) in Hinv; [|lia].
  unfold freeze_result. destruct Hr as [? ? ? [? ?] Hrc ?].
  assert (Hi : repo_inv (set_leases d' None (set_epochs (r_authority_epoch r + 1) (r_freeze_epoch r + 1) true r))).
  { split; simpl; try done; try lia. intros k p Hp. destruct (Hrc k p Hp) as (?&?&?). split_and!; auto. lia. }
  eapply good_trans; [|by apply append_event_good]. split; [exact Hi|]. split; simpl; try done; try lia.
  - intros j l Hj Hn. by apply (lf_keep _ _ Hf).
  - intros j l' Hj. destruct (lf_back _ _ Hf j l' Hj) as (l & ? & _ & ?). left. eauto.
  - apply (lf_some _ _ Hf).
  - by intros ?.
  - exists []. by rewrite app_nil_r.
Qed.

(** An admission refuses, replays the stored receipt, or records a new one
    under a lease that authorizes it. *)
Lemma admit_cases q r :
  match admit_interaction q r with
  | (Err _, r') => r' = r
  | (Ok p, r') =>
      (∃ p0, dget (aq_interaction q) (r_interactions r) = Some (aq_digest q, p0) ∧ r' = r ∧
             p = mkReceipt (rc_interaction p0) (rc_epoch p0) (rc_lease p0) (rc_workflow p0) true) ∨
      (dget (aq_interaction q) (r_interactions r) = None ∧ r_frozen r = false ∧
       ∃ l, dget (aq_lease q) (r_leases r) = Some l ∧ lease_authorizes r q l = true ∧
            p = mkReceipt (aq_interaction q) (l_epoch l) (l_id l) ("discord-" +:+ aq_interaction q) false ∧
            r' = set_interactions (dset (aq_interaction q) (aq_digest q, p) (r_interactions r)) r)
  end.
Proof.
  unfold admit_interaction. py_unfold. destruct (dget (aq_interaction q) (r_interactions r)) as [[d p0]|] eqn:E.
  - simpl. destruct (bool_decide (d = aq_digest q)) eqn:Ed; simpl; [|done]. bool_to_prop. subst. left. eauto.
  - destruct (r_frozen r) eqn:Ef; simpl; [done|].
    destruct (dget (aq_lease q) (r_leases r)) as [l|] eqn:El; simpl; [|done].
    destruct (lease_authorizes r q l) eqn:Ea; simpl; [|done]. right. split_and!; [done..|].
    exists l. by split_and!.
Qed.

Lemma lease_authorizes_spec r q l :
  lease_authorizes r q l = true →
  l_revoked_at l = None ∧ l_epoch l = r_authority_epoch r ∧ l_epoch l = aq_epoch q ∧
  l_commander l = aq_commander q ∧ l_guild l = aq_guild q ∧ l_channel l = aq_channel q ∧
  aq_received_at q < l_expires_at l.
Proof. unfold lease_authorizes. intros. bool_to_prop. split_and!; done. Qed.

Lemma admit_good q r : repo_inv r → good r (final (admit_interaction q r)).
Proof.
  intros Hr. assert (H := admit_cases q r). unfold final.
  destruct (admit_interaction q r) as [[p|] r']; simpl; [|by subst; split].
  destruct H as [(p0 & _ & -> & _)|(Hn & _ & l & Hl & Ha & -> & ->)]; [by split|].
  apply lease_authorizes_spec in Ha as (_ & He & _).
  split.
  - destruct Hr. split; simpl; try done. apply dall_dset; [simpl; split_and!; auto; lia|done].
  - split; simpl; try done; [naive_solver| |by intros ?|exists []; by rewrite app_nil_r].
    intros i p Hp. rewrite dget_dset. case_decide; [congruence|done].
Qed.

Lemma create_challenge_good c r : repo_inv r → good r (final (create_challenge c r)).
Proof.
  intros Hr. unfold create_challenge. py_unfold. unfold dmem.
  destruct (dget (ch_id c) (r_challenges r)) eqn:E; simpl; [by split|].
  destruct (existsb _ _); simpl; [by split|].
  apply good_frame; [done|by split_and!|]. intros i x t Hx _. simpl. rewrite dget_dset.
  case_decide; [congruence|done].
Qed.

Lemma replace_credential_good c r : repo_inv r → good r (final (replace_credential c r)).
Proof.
  intros Hr. unfold replace_credential. py_unfold. destruct (dmem _ _); simpl; [|by split].
  apply good_frame; [done|by split_and!|by intros ?].
Qed.

Lemma step_good r r' : repo_step r r' → repo_inv r → good r r'.
Proof.
  intros [] Hr; auto using create_challenge_good, consume_good, replace_credential_good, registration_good,
    authentication_good, recovery_good, admit_good, freeze_good. by apply issue_lease_step.
Qed.

Lemma steps_good r r' : repo_steps r r' → repo_inv r → good r r'.
Proof.
  induction 1 as [|r r1 r2 Hs _ IH]; intros Hr; [by split|].
  assert (H := step_good _ _ Hs Hr). eapply good_trans; [exact H|]. apply IH, H.
Qed.

Lemma empty_inv : repo_inv empty_repo.
Proof. split; simpl; try done. split; try done. constructor. Qed.

Lemma reachable_inv r : reachable r → repo_inv r.
Proof. intros H. apply (steps_good _ _ H), empty_inv. Qed.

(** Reading the active lease. *)
Lemma active_lease_run r :
  let '(x, r') := active_lease r in r' = r ∧ ∀ l, x = Ok (Some l) → ∃ i, r_active r = Some i ∧ dget i (r_leases r) = Some l ∧ l_revoked_at l = None.
Proof.
  unfold active_lease. py_unfold. destruct (r_active r) as [i|]; [|done]. destruct (dget i (r_leases r)) as [l|] eqn:El; [|done]. cbn.
  split; [done|]. intros l'. case_bool_decide; [|done]. intros [= <-]. by exists i.
Qed.

(** While the repository is frozen nothing is added to the record of interactions. *)
Lemma frozen_interactions r r' : repo_step r r' → r_frozen r = true → r_interactions r' = r_interactions r.
Proof.
  intros [] Hf.
  8: { pose proof (admit_cases q r0) as H. unfold final. destruct (admit_interaction q r0) as [[p|] r1]; simpl; [|by rewrite H].
       destruct H as [(? & _ & -> & _)|(_ & ? & _)]; [done|congruence]. }
  all: unfold create_challenge, complete_registration, complete_authentication, complete_recovery, consume_challenge, replace_credential,
    issue_lease, freeze, use_credential, get_credential, revoke_active, append_event, final.
  all: py_unfold; repeat (case_match; simplify_eq/=); done.
Qed.

(** ** Properties *)

(** C7. In every reachable state of the authority repository there is at most
    one unrevoked lease; it is the active one and carries the current epoch;
    while the system is frozen no lease is live at all; and the audit chain
    verifies. *)
Theorem authority_single_lease r :
  reachable r →
  (∀ i l, dget i (r_leases r) = Some l → l_revoked_at l = None →
     r_active r = Some i ∧ l_id l = i ∧ l_epoch l = r_authority_epoch r ∧ r_frozen r = false) ∧
  repo_verify_audit_chain (r_audit r) = true.
Proof.
  intros Hr%reachable_inv. split; [|apply Hr]. intros i l Hl Hn.
  assert (Ha := li_single _ _ _ (ri_lease r Hr) i l Hl Hn). split_and!.
  - done.
  - by apply (li_key _ _ _ (ri_lease r Hr)).
  - by apply (ri_current r Hr i).
  - destruct (r_frozen r) eqn:E; [|done]. by rewrite (ri_frozen r Hr E) in Ha.
Qed.

Lemma fresh_admission r q p r' :
  repo_inv r → admit_interaction q r = (Ok p, r') → rc_duplicate p = false →
  r_frozen r = false ∧ rc_epoch p = r_authority_epoch r ∧ aq_epoch q = rc_epoch p ∧
  ∃ l, r_active r = Some (rc_lease p) ∧ dget (aq_lease q) (r_leases r) = Some l ∧ aq_lease q = rc_lease p ∧
       l_revoked_at l = None ∧ l_commander l = aq_commander q ∧ l_guild l = aq_guild q ∧
       l_channel l = aq_channel q ∧ aq_received_at q < l_expires_at l.
Proof.
  intros Hr E Hd. assert (H := admit_cases q r). rewrite E in H.
  destruct H as [(p0 & _ & _ & ->)|(_ & Hf & l & Hl & Ha & -> & _)]; [done|].
  apply lease_authorizes_spec in Ha as (Hn & He & Hq & Hc & Hg & Hch & Hx). simpl in *.
  assert (l_id l = aq_lease q) as Hid by by apply (li_key _ _ _ (ri_lease r Hr)).
  split_and!; [done|done|done|]. exists l. rewrite Hid.
  assert (r_active r = Some (aq_lease q)) by by apply (li_single _ _ _ (ri_lease r Hr) _ l). by split_and!.
Qed.

(** Epoch fencing. After a freeze, and whatever calls follow it, every
    newly admitted interaction is admitted while unfrozen, at the current epoch,
    which is later than the one in force before the freeze, and under the single
    active lease, unrevoked, unexpired and matching commander, guild and channel.
    No lease issued before the freeze can admit anything again. *)
Theorem admission_fenced r request reason now r1 q p r2 :
  reachable r → r_frozen r = false → repo_steps (final (freeze request reason now r)) r1 →
  admit_interaction q r1 = (Ok p, r2) → rc_duplicate p = false →
  r_frozen r1 = false ∧ rc_epoch p = r_authority_epoch r1 ∧ r_authority_epoch r < rc_epoch p ∧
  dget (aq_lease q) (r_leases r) = None ∧
  ∃ l, r_active r1 = Some (rc_lease p) ∧ dget (aq_lease q) (r_leases r1) = Some l ∧ aq_lease q = rc_lease p ∧
       l_revoked_at l = None ∧ l_commander l = aq_commander q ∧ l_guild l = aq_guild q ∧
       l_channel l = aq_channel q ∧ aq_received_at q < l_expires_at l.
Proof.
  intros Hr%reachable_inv Hnf Hs Hadm Hd.
  assert (Hfg := freeze_good request reason now r Hr). destruct Hfg as [Hinv0 Hev0].
  destruct (steps_good _ _ Hs Hinv0) as [Hinv Hev].
  destruct (fresh_admission r1 q p r2 Hinv Hadm Hd) as (Hf & He & Hq & l & Hact & Hl & Hid & Hrest).
  assert (Hep : r_authority_epoch (final (freeze request reason now r)) = r_authority_epoch r + 1).
  { unfold freeze, final. py_unfold. rewrite Hnf. set (r0 := set_epochs _ _ true r).
    destruct (revoke_active_spec r0 now reason) as (d' & -> & _); [|done].
    apply lease_inv_epoch with (epoch := r_authority_epoch r); [simpl; lia|apply Hr]. }
  assert (Hmono := ev_authority _ _ Hev).
  assert (Hle : l_epoch l = r_authority_epoch r1).
  { eapply (ri_current r1 Hinv); [exact Hact|]. by rewrite <- Hid. }
  split_and!; [done|done|lia| |by exists l].
  destruct (dget (aq_lease q) (r_leases r)) as [l0|] eqn:E0; [exfalso|done].
  assert (Hev' : evolves r r1) by by etransitivity.
  destruct (ev_new _ _ Hev' _ _ Hl) as [(l1 & H1 & Ee)|[? ?]]; [|congruence].
  assert (l_epoch l1 ≤ r_authority_epoch r) by by eapply (li_epoch _ _ _ (ri_lease r Hr)). lia.
Qed.

(** Admission is idempotent and binds the payload: once an interaction was
    admitted, then after any further calls the same request is answered with
    the same receipt marked duplicate, a request that reuses the interaction
    with another payload digest is refused, and neither changes the state. *)
Theorem admission_idempotent r q p r1 r2 q' :
  reachable r → admit_interaction q r = (Ok p, r1) → repo_steps r1 r2 →
  aq_interaction q' = aq_interaction q →
  (aq_digest q' = aq_digest q → admit_interaction q' r2 =
     (Ok (mkReceipt (rc_interaction p) (rc_epoch p) (rc_lease p) (rc_workflow p) true), r2)) ∧
  (aq_digest q' ≠ aq_digest q → admit_interaction q' r2 =
     (Err (AdmissionDenied "interaction identity was reused with another payload"), r2)).
Proof.
  intros Hr%reachable_inv E Hs Hq. assert (Hg := admit_good q r Hr). assert (H := admit_cases q r).
  unfold final in Hg. rewrite E in H, Hg. simpl in Hg.
  assert (∃ p0, dget (aq_interaction q) (r_interactions r1) = Some (aq_digest q, p0) ∧
    mkReceipt (rc_interaction p0) (rc_epoch p0) (rc_lease p0) (rc_workflow p0) true =
    mkReceipt (rc_interaction p) (rc_epoch p) (rc_lease p) (rc_workflow p) true) as (p0 & Hp0 & Heq).
  { destruct H as [(p0 & Hp & -> & ->)|(_ & _ & l & _ & _ & -> & ->)]; [by exists p0|].
    eexists. simpl. rewrite dget_dset_eq. by split. }
  apply (ev_receipts _ _ (proj2 (steps_good _ _ Hs (proj1 Hg)))) in Hp0.
  unfold admit_interaction. py_unfold. rewrite Hq, Hp0. simpl. split; intros Hd.
  - by rewrite Hd, bool_decide_refl, Heq.
  - by rewrite bool_decide_false by congruence.
Qed.

(** Challenges are single-use: a challenge consumed once is refused as
    already consumed, or as not matching, by every later attempt, which leaves
    the state as it was. *)
Theorem challenge_single_use r i d now c r1 r2 d' now' :
  reachable r → consume_challenge i d now r = (Ok c, r1) → repo_steps r1 r2 →
  consume_challenge i d' now' r2 =
    (Err (if bool_decide (d' = d) then ChallengeConsumed "challenge was already consumed"
          else ChallengeInvalid "challenge does not match"), r2).
Proof.
  intros Hr%reachable_inv E Hs. assert (H := consume_challenge_cases i d now r).
  assert (Hg := consume_good i d now r Hr). unfold final in Hg. rewrite E in H, Hg. simpl in Hg.
  destruct H as (c0 & Hc0 & Hd & _ & _ & -> & ->).
  assert (Hk : dget i (r_challenges r2) = Some (consume c0 now)).
  { eapply (ev_challenges _ _ (proj2 (steps_good _ _ Hs (proj1 Hg)))); [simpl; apply dget_dset_eq|done]. }
  unfold consume_challenge. py_unfold. rewrite Hk. simpl. subst d.
  destruct (bool_decide (ch_digest c0 = d')) eqn:Ed; bool_to_prop; simpl.
  - by rewrite bool_decide_true.
  - by rewrite bool_decide_false by congruence.
Qed.

(** Recovery is the only way out of a freeze and is bound to it: a successful
    recovery happened while frozen, named exactly the current freeze epoch, used
    a recovery challenge that had not been consumed and a live credential whose
    counter did not regress; afterwards the system is unfrozen at the same freeze
    epoch, with one fresh lease at the next authority epoch. *)
Theorem recovery_sound r i d f cid n q rid now rec r' :
  reachable r → complete_recovery i d f cid n q rid now r = (Ok rec, r') →
  r_frozen r = true ∧ r_freeze_epoch r = f ∧
  (∃ c, dget i (r_challenges r) = Some c ∧ ch_digest c = d ∧ ch_purpose c = "recovery" ∧
        ch_consumed_at c = None ∧ now ≤ ch_expires_at c) ∧
  (∃ c, dget cid (r_credentials r) = Some c ∧ cr_revoked_at c = None ∧ cr_sign_count c ≤ n) ∧
  r_frozen r' = false ∧ r_freeze_epoch r' = f ∧ r_authority_epoch r' = r_authority_epoch r + 1 ∧
  rr_lease rec = new_lease q (r_authority_epoch r + 1) ∧ r_active r' = Some (lr_id q) ∧
  dget (lr_id q) (r_leases r') = Some (rr_lease rec).
Proof.
  intros Hr%reachable_inv. unfold complete_recovery. unfold mbind, st_bind, read, check, modify, mret, st_ret.
  assert (Hc := consume_challenge_cases i d now r).
  destruct (consume_challenge i d now r) as [[c'|] r1] eqn:E1; [|done].
  destruct Hc as (c & Hc & Hd & Hn & Hx & -> & ->). cbn.
  destruct (bool_decide (ch_purpose c = "recovery")) eqn:Ep; [|done]. cbn.
  destruct (r_frozen r && (r_freeze_epoch r =? f)) eqn:Ef; [|done]. cbn. bool_to_prop.
  unfold use_credential, get_credential. py_unfold.
  destruct (dget cid (r_credentials r)) as [cr|] eqn:Ecr; simpl; [|done].
  destruct (live cr) eqn:El; simpl; [|done].
  destruct (cr_sign_count cr <=? n) eqn:Es; simpl; [|done]. bool_to_prop.
  match goal with |- context [issue_lease q ?x] => set (r2 := x) end.
  assert (Hl : lease_inv (r_authority_epoch r2) (r_leases r2) (r_active r2)) by apply Hr.
  assert (Hi := issue_lease_cases q r2 Hl).
  destruct (issue_lease q r2) as [[l|] r3]; [|done]. intros [= <- <-].
  destruct Hi as (_ & _ & -> & d' & _ & _ & ->). simpl. unfold live in El. bool_to_prop.
  split_and!; eauto 10. by rewrite dget_dset_eq.
Qed.

(** A failed authentication is not rolled back: when the credential is
    unavailable or its counter regressed, or the system is frozen, the call
    raises and the challenge stays consumed. *)
Theorem failed_authentication_burns_challenge r i d cid n q now c :
  dget i (r_challenges r) = Some c → ch_digest c = d → ch_consumed_at c = None → now ≤ ch_expires_at c →
  dget cid (r_credentials r) = None →
  let p := complete_authentication i d cid n q now r in
  outcome p = Err (AuthorityRepositoryError "credential is unavailable") ∧
  dget i (r_challenges (final p)) = Some (consume c now) ∧ final p ≠ r.
Proof.
  intros Hc Hd Hn Hx Hcr. unfold complete_authentication, consume_challenge, use_credential, get_credential.
  py_unfold. rewrite Hc. simpl. rewrite (bool_decide_true (ch_digest c = d)) by done.
  rewrite bool_decide_true by done. replace (ch_expires_at c <? now) with false by (symmetry; apply Z.ltb_ge; lia).
  simpl. rewrite Hcr. simpl. rewrite dget_dset_eq. split_and!; [done|done|].
  intros Heq. apply (f_equal (λ r, ch_consumed_at <$> dget i (r_challenges r))) in Heq. simpl in Heq.
  rewrite dget_dset_eq, Hc in Heq. simpl in Heq. congruence.
Qed.

(** ** Concrete runs *)

Definition b32 : string := "0123456789abcdef0123456789abcdef".
Definition sample_challenge : Challenge :=
  mkChallenge "c1" b32 b32 "recovery" "jerry" b32 None 0 (minutes 5) None.
Definition sample_credential : Credential := mkCredential "cred" "jerry" "pk" 0 0 None.
Definition sample_lease_request (i : string) : LeaseRequest :=
  mkLeaseRequest i "jerry" "guild" b32 "cred" (seconds 1) (hours 12).
Definition sample_admission (i lease : string) (epoch : Z) : AdmissionRequest :=
  mkAdmission i b32 "jerry" "guild" b32 lease epoch (seconds 10).

(** A repository with a challenge, an enrolled credential and a lease. *)
Definition repo0 : Repo := final (create_challenge sample_challenge empty_repo).
Definition enroll_challenge : Challenge :=
  mkChallenge "c0" b32 "ffffffffffffffffffffffffffffffff" "registration" "jerry" b32 None 0 (minutes 5) None.
Definition repo1 : Repo := final (create_challenge enroll_challenge repo0).
Definition repo2 : Repo :=
  final (complete_registration "c0" "ffffffffffffffffffffffffffffffff" sample_credential (seconds 1) repo1).
Definition repo3 : Repo := final (issue_lease (sample_lease_request "lease-1") repo2).
Definition repo_frozen : Repo := final (freeze "req" "drill" (seconds 20) repo3).
Definition repo_recovered : Repo :=
  final (complete_recovery "c1" b32 2 "cred" 1 (sample_lease_request "lease-2") "rec-1" (seconds 30) repo_frozen).

Lemma reach_step r r' : reachable r → repo_step r r' → reachable r'.
Proof. intros H Hs. eapply rtc_r; eauto. Qed.

Lemma repo3_reachable : reachable repo3.
Proof.
  eapply reach_step; [|constructor]. eapply reach_step; [|constructor].
  eapply reach_step; [|constructor]. eapply reach_step; [|constructor]. constructor.
Qed.

Lemma authority_single_lease_witness :
  r_active repo3 = Some "lease-1" ∧ repo_verify_audit_chain (r_audit repo3) = true.
Proof. split; [reflexivity|]. apply (authority_single_lease repo3), repo3_reachable. Defined.

Definition receipt9 : AdmissionReceipt := mkReceipt "i9" 4 "lease-2" "discord-i9" false.
Definition receipt1 : AdmissionReceipt := mkReceipt "i1" 2 "lease-1" "discord-i1" false.

Lemma admission_fenced_witness :
  outcome (admit_interaction (sample_admission "i9" "lease-2" 4) repo_recovered) = Ok receipt9 ∧
  r_authority_epoch repo3 < rc_epoch receipt9.
Proof.
  assert (H : outcome (admit_interaction (sample_admission "i9" "lease-2" 4) repo_recovered) = Ok receipt9)
    by (vm_compute; reflexivity).
  split; [exact H|].
  refine (proj1 (proj2 (proj2 (admission_fenced repo3 "req" "drill" (seconds 20) repo_recovered
    (sample_admission "i9" "lease-2" 4) receipt9 _ repo3_reachable eq_refl _ (run_pair _ _ H) eq_refl)))).
  apply rtc_once. constructor.
Defined.

Lemma admission_idempotent_witness :
  let q := sample_admission "i1" "lease-1" 2 in
  let r1 := final (admit_interaction q repo3) in
  outcome (admit_interaction q repo3) = Ok receipt1 ∧
  outcome (admit_interaction q (final (freeze "req" "drill" (seconds 20) r1))) =
    Ok (mkReceipt "i1" 2 "lease-1" "discord-i1" true).
Proof.
  intros q r1. assert (H : outcome (admit_interaction q repo3) = Ok receipt1) by (vm_compute; reflexivity).
  split; [exact H|].
  refine (f_equal outcome (proj1 (admission_idempotent repo3 q receipt1 r1 _ q repo3_reachable
    (run_pair _ _ H) _ eq_refl) eq_refl)).
  apply rtc_once. constructor.
Defined.

Lemma challenge_single_use_witness :
  let r1 := final (consume_challenge "c1" b32 (seconds 2) repo3) in
  outcome (consume_challenge "c1" b32 (seconds 3) r1) = Err (ChallengeConsumed "challenge was already consumed").
Proof.
  intros r1.
  assert (H : outcome (consume_challenge "c1" b32 (seconds 2) repo3) = Ok (consume sample_challenge (seconds 2)))
    by (vm_compute; reflexivity).
  exact (f_equal outcome (challenge_single_use repo3 "c1" b32 (seconds 2) _ r1 r1 b32 (seconds 3)
    repo3_reachable (run_pair _ _ H) (rtc_refl _ _))).
Defined.

Lemma recovery_sound_witness : r_frozen repo_frozen = true ∧ r_frozen repo_recovered = false.
Proof.
  assert (Hr : reachable repo_frozen) by (eapply reach_step; [apply repo3_reachable|constructor]).
  assert (H : outcome (complete_recovery "c1" b32 2 "cred" 1 (sample_lease_request "lease-2") "rec-1"
      (seconds 30) repo_frozen) = Ok (mkRecovery (new_lease (sample_lease_request "lease-2") 4) 2
      (sha256 (utf8 (dumps (recovery_body 4 2 "rec-1")))))) by (vm_compute; reflexivity).
  destruct (recovery_sound repo_frozen "c1" b32 2 "cred" 1 (sample_lease_request "lease-2") "rec-1"
    (seconds 30) _ _ Hr (run_pair _ _ H)) as (H1 & _ & _ & _ & H2 & _).
  exact (conj H1 H2).
Defined.

Lemma failed_authentication_burns_challenge_witness :
  dget "c1" (r_challenges (final
    (complete_authentication "c1" b32 "stranger" 1 (sample_lease_request "lease-2") (seconds 2) repo3))) =
  Some (consume sample_challenge (seconds 2)).
Proof.
  apply (failed_authentication_burns_challenge repo3 "c1" b32 "stranger" 1 (sample_lease_request "lease-2")
    (seconds 2) sample_challenge); try reflexivity. discriminate.
Defined.
