(* ===== verification/AuthorityTypes.v ===== *)
(** Type safety of the authority repository: the records it holds satisfy the checks of their constructors, calls with
    well-formed arguments return well-formed values, and the dictionary lookups of its methods never miss. *)

From S2P Require Import Prelude PyDict PyTime Json Sha256 AuthorityRepository AuthorityFacts.

Open Scope Z_scope.

(** ** Calls, and what they take and return

    The methods of the protocol [AuthorityRepository], which both repositories implement. *)

Inductive Call : Type → Type :=
  | CreateChallenge (c : Challenge) : Call ()
  | ConsumeChallenge (i d : string) (now : datetime) : Call Challenge
  | GetChallenge (i : string) : Call Challenge
  | ListCredentials : Call (list Credential)
  | CredentialCount : Call Z
  | GetCredential (i : string) : Call Credential
  | CompleteRegistration (i d : string) (c : Credential) (now : datetime) : Call Credential
  | IssueLease (q : LeaseRequest) : Call AuthorityLease
  | CompleteAuthentication (i d cid : string) (n : Z) (q : LeaseRequest) (now : datetime) : Call AuthorityLease
  | CompleteRecovery (i d : string) (f : Z) (cid : string) (n : Z) (q : LeaseRequest) (rid : string) (now : datetime) : Call RecoveryReceipt
  | Admit (q : AdmissionRequest) : Call AdmissionReceipt
  | Freeze (i reason : string) (now : datetime) : Call FreezeReceipt
  | FreezeStateOf : Call FreezeState
  | ActiveLease : Call (option AuthorityLease).

Definition run {A} (c : Call A) : RM A :=
  match c with
  | CreateChallenge c => create_challenge c
  | ConsumeChallenge i d now => consume_challenge i d now
  | GetChallenge i => get_challenge i
  | ListCredentials => list_credentials
  | CredentialCount => credential_count
  | GetCredential i => get_credential i
  | CompleteRegistration i d c now => complete_registration i d c now
  | IssueLease q => issue_lease q
  | CompleteAuthentication i d cid n q now => complete_authentication i d cid n q now
  | CompleteRecovery i d f cid n q rid now => complete_recovery i d f cid n q rid now
  | Admit q => admit_interaction q
  | Freeze i reason now => freeze i reason now
  | FreezeStateOf => freeze_state
  | ActiveLease => active_lease
  end.

(** A record its constructor accepts. *)
Definition challenge_typed (c : Challenge) : Prop := make_challenge c = Ok c.
Definition credential_typed (c : Credential) : Prop := make_credential c = Ok c.
Definition request_typed (q : LeaseRequest) : Prop := make_lease_request q = Ok q.
(** A lease is a request with an epoch. *)
Definition request_of (l : AuthorityLease) : LeaseRequest :=
  mkLeaseRequest (l_id l) (l_commander l) (l_guild l) (l_channel l) (l_credential l) (l_issued_at l) (l_expires_at l).
Definition lease_typed (l : AuthorityLease) : Prop := request_typed (request_of l) ∧ 1 ≤ l_epoch l ∧ (l_revoked_at l = None ↔ l_revocation_reason l = None).
Definition receipt_typed (p : AdmissionReceipt) : Prop := rc_workflow p = "discord-" +:+ rc_interaction p ∧ 1 ≤ rc_epoch p.

Definition well_formed {A} (c : Call A) : Prop :=
  match c with
  | CreateChallenge c => challenge_typed c
  | CompleteRegistration _ _ c _ => credential_typed c
  | IssueLease q | CompleteAuthentication _ _ _ _ q _ | CompleteRecovery _ _ _ _ _ q _ _ => request_typed q
  | Admit q => make_admission q = Ok q
  | _ => True
  end.

Definition value_typed {A} (c : Call A) : A → Prop :=
  match c in Call A return A → Prop with
  | ConsumeChallenge _ _ now => λ x, challenge_typed x ∧ ch_consumed_at x = Some now
  | GetChallenge i => λ x, challenge_typed x ∧ ch_id x = i
  | ListCredentials => Forall (λ x, credential_typed x ∧ cr_revoked_at x = None)
  | CredentialCount => λ n, 0 ≤ n
  | GetCredential i => λ x, credential_typed x ∧ cr_revoked_at x = None ∧ cr_id x = i
  | CompleteRegistration _ _ _ _ => credential_typed
  | IssueLease _ | CompleteAuthentication _ _ _ _ _ _ => lease_typed
  | CompleteRecovery _ _ f _ _ _ _ _ => λ x, lease_typed (rr_lease x) ∧ rr_freeze_epoch x = f ∧ is_digest (rr_proof x) = true
  | Admit q => λ x, receipt_typed x ∧ rc_interaction x = aq_interaction q
  | Freeze _ _ _ => λ x, 1 ≤ fr_authority_epoch x ∧ 1 ≤ fr_freeze_epoch x
  | FreezeStateOf => λ x, 1 ≤ fs_authority_epoch x ∧ 1 ≤ fs_freeze_epoch x
  | ActiveLease => λ o, ∀ l, o = Some l → lease_typed l ∧ l_revoked_at l = None
  | CreateChallenge _ => λ _, True
  end.

(** ** Well-typed repositories *)

Record repo_typed (r : Repo) : Prop := {
  rt_epochs : 1 ≤ r_authority_epoch r ∧ 1 ≤ r_freeze_epoch r;
  rt_challenges : dall (λ k c, ch_id c = k ∧ challenge_typed c) (r_challenges r);
  rt_distinct : dict_wf (r_credentials r);
  rt_credentials : dall (λ k c, cr_id c = k ∧ credential_typed c) (r_credentials r);
  rt_leases : dall (λ k l, l_id l = k ∧ lease_typed l) (r_leases r);
  rt_active : ∀ i, r_active r = Some i → is_Some (dget i (r_leases r));
  rt_interactions : dall (λ k p, is_digest p.1 = true ∧ receipt_typed p.2 ∧ rc_interaction p.2 = k) (r_interactions r) }.

(** The outcome of a call that keeps the types: a well-typed repository behind it, a value in [Φ], or an exception that is
    not a [KeyError]. *)
Definition typed_run {A} (Φ : A → Prop) (p : result repo_exn A * Repo) : Prop :=
  repo_typed (final p) ∧ match outcome p with Ok a => Φ a | Err e => e ≠ KeyError end.
Definition typed_as {A} (Φ : A → Prop) (m : RM A) : Prop := ∀ r, repo_typed r → typed_run Φ (m r).

Section Rules.
Context {B : Type} (Ψ : B → Prop) (r : Repo).

Lemma run_bind {A} (Φ : A → Prop) (m : RM A) (k : A → RM B) :
  typed_run Φ (m r) → (∀ a r', m r = (Ok a, r') → Φ a → repo_typed r' → typed_run Ψ (k a r')) → typed_run Ψ ((m ≫= k) r).
Proof.
  unfold typed_run at 1. unfold mbind, st_bind. destruct (m r) as [[a|e] r1]; intros [H1 H2] Hk; [by apply Hk|by split].
Qed.
Lemma run_read (k : Repo → RM B) : typed_run Ψ (k r r) → typed_run Ψ ((read ≫= k) r).
Proof. done. Qed.
Lemma run_modify (f : Repo → Repo) (k : () → RM B) : typed_run Ψ (k () (f r)) → typed_run Ψ ((modify f ≫= k) r).
Proof. done. Qed.
Lemma run_check b e (k : () → RM B) : e ≠ KeyError → repo_typed r → (b = true → typed_run Ψ (k () r)) → typed_run Ψ ((check b e ≫= k) r).
Proof. intros He Hr Hk. destruct b; [by apply Hk|by split]. Qed.
Lemma run_some {A} (o : option A) e (k : A → RM B) :
  (o = None → e ≠ KeyError) → repo_typed r → (∀ a, o = Some a → typed_run Ψ (k a r)) → typed_run Ψ ((some_or o e ≫= k) r).
Proof. intros He Hr Hk. destruct o; [by apply Hk|]. split; [done|]. by apply He. Qed.
Lemma run_ret (b : B) : repo_typed r → Ψ b → typed_run Ψ (mret (M := RM) b r).
Proof. by split. Qed.
End Rules.

(** ** The updates *)

Lemma set_challenges_typed c r : challenge_typed c → repo_typed r → repo_typed (set_challenges (dset (ch_id c) c (r_challenges r)) r).
Proof. intros Hc []. split; cbn; auto with olympus. Qed.
Lemma set_credentials_typed c r : credential_typed c → repo_typed r → repo_typed (set_credentials (dset (cr_id c) c (r_credentials r)) r).
Proof. intros Hc []. split; cbn; auto with olympus. Qed.
Lemma append_event_typed t b r : repo_typed r → repo_typed (append_event t b r).
Proof. by intros []. Qed.
Lemma set_lease_typed l r : lease_typed l → repo_typed r → repo_typed (set_leases (dset (l_id l) l (r_leases r)) (Some (l_id l)) r).
Proof. intros Hl []. split; cbn; auto with olympus. intros i [= <-]. rewrite dget_dset_eq. by eexists. Qed.
Lemma clear_active_typed d r : dall (λ k l, l_id l = k ∧ lease_typed l) d → repo_typed r → repo_typed (set_leases d None r).
Proof. intros Hd []. by split. Qed.
Lemma set_epochs_typed a f z r : 1 ≤ a → 1 ≤ f → repo_typed r → repo_typed (set_epochs a f z r).
Proof. intros Ha Hf []. by split. Qed.

Lemma consume_typed c now : challenge_typed c → challenge_typed (consume c now).
Proof. unfold challenge_typed, make_challenge. cbn [ch_value ch_digest ch_payload_digest ch_issued_at ch_expires_at consume]. unfold ensure. by repeat case_match. Qed.
Lemma lease_revoke_typed l now reason : lease_typed l → lease_typed (lease_revoke l now reason).
Proof. intros (? & ? & ?). by split_and!. Qed.
Lemma new_lease_typed q epoch : request_typed q → 1 ≤ epoch → lease_typed (new_lease q epoch).
Proof. intros ??. split_and!; [by destruct q|done|done]. Qed.
Lemma counted_typed c n : credential_typed c → cr_sign_count c ≤ n →
  credential_typed (mkCredential (cr_id c) (cr_commander c) (cr_public_key c) n (cr_created_at c) (cr_revoked_at c)).
Proof.
  unfold credential_typed, make_credential. cbn. intros (? & H1%ensure_Ok & (? & H2%ensure_Ok & _)%bind_Ok)%bind_Ok Hn. rewrite H1. bool_to_prop.
  by rewrite (proj2 (Z.leb_le 0 n)) by lia.
Qed.

Create HintDb typed discriminated.
#[export] Hint Resolve set_challenges_typed set_credentials_typed append_event_typed set_lease_typed clear_active_typed set_epochs_typed
  consume_typed lease_revoke_typed new_lease_typed counted_typed : typed.

(** ** The methods *)

(** Steps through reads, checks and assignments. *)
Ltac typed_steps :=
  repeat first
    [ apply run_read | apply run_modify | apply run_check; [done|by auto with typed|intros ?]
    | apply run_ret; [by auto with typed|] ].

Lemma create_challenge_typed c : challenge_typed c → typed_as (λ _, True) (create_challenge c).
Proof. intros Hc r Hr. unfold create_challenge. typed_steps. split; cbn; auto with typed. Qed.

Lemma get_challenge_typed i : typed_as (λ x, challenge_typed x ∧ ch_id x = i) (get_challenge i).
Proof.
  intros r Hr. unfold get_challenge. typed_steps. unfold some_or, require_some. destruct (dget i (r_challenges r)) as [c|] eqn:E; [|by split].
  split; [done|]. by destruct (rt_challenges r Hr i c E).
Qed.

Lemma consume_challenge_typed i d now : typed_as (λ x, challenge_typed x ∧ ch_consumed_at x = Some now) (consume_challenge i d now).
Proof.
  intros r Hr. unfold consume_challenge. typed_steps. apply run_some; [done|done|intros c Hc]. destruct (rt_challenges r Hr i c Hc) as [<- Ht].
  typed_steps. apply run_ret; [apply (set_challenges_typed (consume c now)); auto with typed|]. split; [by apply consume_typed|done].
Qed.

Lemma get_credential_typed i : typed_as (λ x, credential_typed x ∧ cr_revoked_at x = None ∧ cr_id x = i) (get_credential i).
Proof.
  intros r Hr. unfold get_credential. typed_steps. apply run_some; [done|done|intros c Hc]. typed_steps. destruct (rt_credentials r Hr i c Hc) as [? Ht].
  split_and!; [done| |done]. unfold live in *. by bool_to_prop.
Qed.

Lemma list_credentials_typed : typed_as (Forall (λ x, credential_typed x ∧ cr_revoked_at x = None)) list_credentials.
Proof.
  intros r Hr. split; [done|]. apply Forall_forall. intros c. rewrite list_elem_of_In, filter_In, <- list_elem_of_In. intros [Hin Hl].
  unfold live in Hl. apply bool_decide_eq_true in Hl. split; [|done]. destruct (dvalues_dget c _ (rt_distinct r Hr) Hin) as [k Hk].
  by destruct (rt_credentials r Hr k c Hk).
Qed.

Lemma complete_registration_typed i d c now : credential_typed c → typed_as credential_typed (complete_registration i d c now).
Proof.
  intros Hc r Hr. unfold complete_registration. eapply run_bind; [by apply consume_challenge_typed|]. intros _ r1 _ _ Hr1. by typed_steps.
Qed.

Lemma use_credential_typed i n : typed_as (λ _, True) (use_credential i n).
Proof.
  intros r Hr. unfold use_credential. eapply run_bind; [by apply get_credential_typed|]. intros c r1 _ (Hc & _ & <-) Hr1. typed_steps. bool_to_prop.
  split; cbn; [|done]. apply (set_credentials_typed (mkCredential (cr_id c) _ _ _ _ _)); [by apply counted_typed|done].
Qed.

(** The lookup of the active lease does not miss. *)
Lemma revoke_active_typed now reason : typed_as (λ _, True) (revoke_active now reason).
Proof.
  intros r Hr. unfold revoke_active. typed_steps. destruct (r_active r) as [i|] eqn:Ei; [|by typed_steps].
  apply run_some; [|done|]. { destruct (rt_active r Hr i Ei) as [? ->]. done. }
  intros l Hl. split; [|done]. cbn. apply clear_active_typed; [|done]. destruct (rt_leases r Hr i l Hl). case_bool_decide; [|apply Hr].
  apply dall_dset; [|apply Hr]. auto with typed.
Qed.

Lemma issue_lease_typed q : request_typed q → typed_as lease_typed (issue_lease q).
Proof.
  intros Hq r Hr. unfold issue_lease. typed_steps. eapply run_bind; [by apply revoke_active_typed|]. intros _ r1 _ _ Hr1.
  assert (He := rt_epochs r1 Hr1). apply run_modify, run_read. set (r2 := set_epochs _ _ _ _).
  assert (Hr2 : repo_typed r2) by (apply set_epochs_typed; [lia..|done]).
  assert (Hl : lease_typed (new_lease q (r_authority_epoch r2))) by (apply new_lease_typed; [done|cbn; lia]). by typed_steps; auto with typed.
Qed.

Lemma complete_authentication_typed i d cid n q now : request_typed q → typed_as lease_typed (complete_authentication i d cid n q now).
Proof.
  intros Hq r Hr. unfold complete_authentication. eapply run_bind; [by apply consume_challenge_typed|]. intros _ r1 _ _ Hr1.
  eapply run_bind; [by apply use_credential_typed|]. intros _ r2 _ _ Hr2. by apply issue_lease_typed.
Qed.

Lemma complete_recovery_typed i d f cid n q rid now : request_typed q →
  typed_as (λ x, lease_typed (rr_lease x) ∧ rr_freeze_epoch x = f ∧ is_digest (rr_proof x) = true) (complete_recovery i d f cid n q rid now).
Proof.
  intros Hq r Hr. unfold complete_recovery. eapply run_bind; [by apply consume_challenge_typed|]. intros c r1 _ _ Hr1. typed_steps.
  eapply run_bind; [by apply use_credential_typed|]. intros _ r2 _ _ Hr2. assert (He := rt_epochs r2 Hr2).
  apply run_modify. eapply run_bind; [apply issue_lease_typed; [done|]; apply set_epochs_typed; [lia..|done]|].
  intros l r3 _ Hl Hr3. typed_steps. split_and!; [done|done|]. unfold is_digest, str_len. cbn [rr_proof]. by rewrite sha256_length.
Qed.

Lemma admit_interaction_typed q : make_admission q = Ok q → typed_as (λ x, receipt_typed x ∧ rc_interaction x = aq_interaction q) (admit_interaction q).
Proof.
  intros (? & Hd%ensure_Ok & _)%bind_Ok r Hr. unfold admit_interaction. typed_steps. destruct (dget (aq_interaction q) (r_interactions r)) as [[digest p]|] eqn:E.
  - destruct (rt_interactions r Hr _ _ E) as (Hd' & Hp & Hi). by typed_steps.
  - typed_steps. apply run_some; [done|done|]. intros l Hl. typed_steps. apply run_ret.
    + destruct Hr. split; try done. cbn. apply dall_dset; [|done]. cbn. destruct (rt_leases0 _ _ Hl) as (_ & _ & ? & _). by split_and!.
    + destruct (rt_leases r Hr _ _ Hl) as (_ & _ & ? & _). by split_and!.
Qed.

Lemma freeze_typed i reason now : typed_as (λ x, 1 ≤ fr_authority_epoch x ∧ 1 ≤ fr_freeze_epoch x) (freeze i reason now).
Proof.
  intros r Hr. unfold freeze. typed_steps. assert (He := rt_epochs r Hr).
  eapply (run_bind _ _ (λ _, True)).
  - destruct (r_frozen r); [by typed_steps|]. apply run_modify. eapply run_bind; [apply revoke_active_typed, set_epochs_typed; [lia..|done]|].
    intros _ r1 _ _ Hr1. split; cbn; auto with typed.
  - intros _ r1 _ _ Hr1. typed_steps. apply Hr1.
Qed.

Lemma active_lease_typed : typed_as (λ o, ∀ l, o = Some l → lease_typed l ∧ l_revoked_at l = None) active_lease.
Proof.
  intros r Hr. unfold active_lease. typed_steps. destruct (r_active r) as [i|] eqn:Ei; [|by typed_steps].
  apply run_some; [|done|]. { destruct (rt_active r Hr i Ei) as [? ->]. done. }
  intros l Hl. typed_steps. intros l'. case_bool_decide; [|done]. intros [= <-]. by destruct (rt_leases r Hr i l Hl).
Qed.

Lemma run_typed {A} (c : Call A) : well_formed c → typed_as (value_typed c) (run c).
Proof.
  destruct c; cbn [run value_typed well_formed]; intros Hc;
    eauto using create_challenge_typed, get_challenge_typed, consume_challenge_typed, get_credential_typed, list_credentials_typed,
      complete_registration_typed, issue_lease_typed, complete_authentication_typed, complete_recovery_typed, admit_interaction_typed, freeze_typed, active_lease_typed.
  - intros r Hr. split; [done|]. apply Nat2Z.is_nonneg.
  - intros r Hr. split; [done|]. apply Hr.
Qed.

(** ** Histories *)

(** The repository after a sequence of calls, whatever their outcomes. *)
Fixpoint history (h : list {A & Call A}) (r : Repo) : Repo :=
  match h with [] => r | existT _ c :: h => history h (final (run c r)) end.

Lemma history_typed h r : Forall (λ c, well_formed (projT2 c)) h → repo_typed r → repo_typed (history h r).
Proof.
  intros Hh. revert r. induction Hh as [|[A c] h Hc Hh IH]; intros r Hr; [done|]. apply IH. by apply run_typed.
Qed.

Lemma empty_typed : repo_typed empty_repo.
Proof. split; cbn; [lia|done|apply NoDup_nil; done|done..]. Qed.

(** C8. Type safety of the authority repository. After any sequence of calls with well-formed arguments, whatever their
    outcomes, every stored challenge, credential and lease passes its constructor's checks under its own key (32-byte
    digests, also of admitted payloads, challenges of at most five minutes, leases of at most a day, counters that are not negative); the active lease
    is stored. A further call keeps all this, returns a well-formed value, and none of its dictionary lookups misses. *)
Theorem repository_type_safe {A} (h : list {A & Call A}) (c : Call A) :
  Forall (λ c, well_formed (projT2 c)) h → well_formed c →
  let r := history h empty_repo in
  repo_typed r ∧ repo_typed (final (run c r)) ∧ match outcome (run c r) with Ok a => value_typed c a | Err e => e ≠ KeyError end.
Proof.
  intros Hh Hc r. assert (Hr : repo_typed r) by (apply history_typed; [done|apply empty_typed]). split; [done|]. by apply run_typed.
Qed.

Definition sample_history : list {A & Call A} :=
  [existT _ (CreateChallenge sample_challenge); existT _ (CreateChallenge enroll_challenge);
   existT _ (CompleteRegistration "c0" "ffffffffffffffffffffffffffffffff" sample_credential (seconds 1));
   existT _ (Freeze "req" "drill" (seconds 20))].

Definition sample_recovery : Call RecoveryReceipt :=
  CompleteRecovery "c1" b32 2 "cred" 1 (sample_lease_request "lease-2") "rec-1" (seconds 30).

Lemma repository_type_safe_witness :
  is_ok (outcome (run sample_recovery (history sample_history empty_repo))) = true ∧
  repo_typed (final (run sample_recovery (history sample_history empty_repo))).
Proof.
  assert (Hh : Forall (λ c, well_formed (projT2 c)) sample_history) by repeat constructor.
  split; [vm_compute; reflexivity|]. destruct (repository_type_safe sample_history sample_recovery Hh eq_refl) as (_ & H & _). exact H.
Defined.
