(* ===== verification/SqlAuthority.v ===== *)
(** The authority repository of production: src/olympus/authority/sqlalchemy.py over the tables of persistence/models.py.

    A table is a dictionary by primary key. [async with sessions.begin()] is [transaction]: what it wrote is kept when the
    body returns and dropped when it raises. The methods that change the authority lock its two singleton rows first and the
    others lock the rows they change, so a call is one step. A constraint of the schema that a statement violates raises
    [DatabaseError]; the statements are checked where the object is added or assigned, after which nothing but the database
    raises. Columns hold text without NUL up to their declared length and 64-bit integers, as PostgreSQL documents. *)

From S2P Require Import Prelude PyDict PyTime Json Sha256 AuthorityRepository.
From Stdlib Require Import Ascii.

Open Scope Z_scope.

Inductive sql_exn := SqlRepo (e : repo_exn) | DatabaseError.

(** ** Tables *)

Record WebAuthnCredentialRow := mkCredentialRow {
  wc_credential_id : string; wc_commander_id : string; wc_public_key : string; wc_sign_count : Z;
  wc_created_at : datetime; wc_revoked_at : option datetime }.
Record WebAuthnChallengeRow := mkChallengeRow {
  wh_challenge_id : string; wh_challenge_value : string; wh_challenge_digest : string; wh_purpose : string; wh_commander_id : string;
  wh_payload_digest : string; wh_payload_json : option string; wh_issued_at : datetime; wh_expires_at : datetime;
  wh_consumed_at : option datetime }.
Record AuthorityStateRow := mkStateRow { as_authority_epoch : Z; as_updated_at : datetime }.
Record AuthorityLeaseRow := mkLeaseRow {
  al_lease_id : string; al_authority_epoch : Z; al_commander_id : string; al_guild_id : string; al_channel_scope_digest : string;
  al_credential_id : string; al_issued_at : datetime; al_expires_at : datetime; al_revoked_at : option datetime;
  al_revocation_reason : option string }.
Record GlobalFreezeRow := mkFreezeRow {
  gf_freeze_epoch : Z; gf_frozen : bool; gf_request_id : option string; gf_reason_code : option string; gf_updated_at : datetime }.
Record DiscordInteractionRow := mkInteractionRow {
  dr_interaction_id : string; dr_request_digest : string; dr_decision : option string; dr_workflow_id : option string;
  dr_received_at : datetime; dr_completed_at : option datetime }.
Record SecurityAuditEventRow := mkEventRow {
  se_event_id : string; se_sequence : Z; se_occurred_at : datetime; se_event_type : string; se_body : string;
  se_previous_hash : string; se_event_hash : string }.

(** The singleton tables hold at most the row 1. *)
Record Database := mkDatabase {
  db_credentials : dict string WebAuthnCredentialRow;
  db_challenges : dict string WebAuthnChallengeRow;
  db_authority : option AuthorityStateRow;
  db_freeze : option GlobalFreezeRow;
  db_leases : dict string AuthorityLeaseRow;
  db_interactions : dict string DiscordInteractionRow;
  db_audit : dict string SecurityAuditEventRow }.

Definition empty_database : Database := mkDatabase [] [] None None [] [] [].

(** Columns. *)
Fixpoint no_nul (s : string) : bool := match s with EmptyString => true | String c s => negb (ord c =? 0)%nat && no_nul s end.
Definition varchar (n : Z) (s : string) : bool := (str_len s <=? n) && no_nul s.
Definition nullable {A} (ok : A → bool) (o : option A) : bool := match o with Some a => ok a | None => true end.
Definition bigint (z : Z) : bool := (- 2 ^ 63 <=? z) && (z <? 2 ^ 63).

(** The column types and check constraints of each table. *)
Definition credential_fits (r : WebAuthnCredentialRow) : bool := varchar 20 (wc_commander_id r) && bigint (wc_sign_count r) && (0 <=? wc_sign_count r).
Definition challenge_fits (r : WebAuthnChallengeRow) : bool :=
  varchar 64 (wh_challenge_id r) && varchar 32 (wh_purpose r) && varchar 20 (wh_commander_id r) && nullable no_nul (wh_payload_json r)
  && (wh_issued_at r <? wh_expires_at r).
Definition state_fits (r : AuthorityStateRow) : bool := bigint (as_authority_epoch r) && (0 <? as_authority_epoch r).
Definition lease_fits (r : AuthorityLeaseRow) : bool :=
  varchar 64 (al_lease_id r) && bigint (al_authority_epoch r) && varchar 20 (al_commander_id r) && varchar 20 (al_guild_id r)
  && nullable (varchar 64) (al_revocation_reason r) && (0 <? al_authority_epoch r) && (al_issued_at r <? al_expires_at r).
Definition freeze_fits (r : GlobalFreezeRow) : bool :=
  bigint (gf_freeze_epoch r) && (0 <? gf_freeze_epoch r) && nullable (varchar 64) (gf_request_id r) && nullable (varchar 64) (gf_reason_code r).
Definition interaction_fits (r : DiscordInteractionRow) : bool :=
  varchar 20 (dr_interaction_id r) && nullable (varchar 32) (dr_decision r) && nullable (varchar 64) (dr_workflow_id r).
Definition event_fits (r : SecurityAuditEventRow) : bool :=
  varchar 64 (se_event_id r) && bigint (se_sequence r) && varchar 64 (se_event_type r) && no_nul (se_body r) && (0 <? se_sequence r)
  && (str_len (se_event_hash r) =? 32) && (str_len (se_previous_hash r) =? 32).

(** ** Sessions *)

Notation Tx := (St Database sql_exn).

Definition transaction {A} (m : Tx A) : Tx A := λ db, match m db with (Ok a, db') => (Ok a, db') | (Err e, _) => (Err e, db) end.
Definition refuse {A} (e : repo_exn) : Tx A := raise (SqlRepo e).
Definition demand (b : bool) (e : repo_exn) : Tx () := check b (SqlRepo e).
Definition constraint (b : bool) : Tx () := check b DatabaseError.
Definition construct {A} (x : result repo_exn A) : Tx A := λ db, (match x with Ok a => Ok a | Err e => Err (SqlRepo e) end, db).

Definition set_credential_rows d (db : Database) := mkDatabase d (db_challenges db) (db_authority db) (db_freeze db) (db_leases db) (db_interactions db) (db_audit db).
Definition set_challenge_rows d (db : Database) := mkDatabase (db_credentials db) d (db_authority db) (db_freeze db) (db_leases db) (db_interactions db) (db_audit db).
Definition set_state_row r (db : Database) := mkDatabase (db_credentials db) (db_challenges db) (Some r) (db_freeze db) (db_leases db) (db_interactions db) (db_audit db).
Definition set_freeze_row r (db : Database) := mkDatabase (db_credentials db) (db_challenges db) (db_authority db) (Some r) (db_leases db) (db_interactions db) (db_audit db).
Definition set_lease_rows d (db : Database) := mkDatabase (db_credentials db) (db_challenges db) (db_authority db) (db_freeze db) d (db_interactions db) (db_audit db).
Definition set_interaction_rows d (db : Database) := mkDatabase (db_credentials db) (db_challenges db) (db_authority db) (db_freeze db) (db_leases db) d (db_audit db).
Definition set_event_rows d (db : Database) := mkDatabase (db_credentials db) (db_challenges db) (db_authority db) (db_freeze db) (db_leases db) (db_interactions db) d.

(** [session.add] of a new row, against primary key, unique and foreign keys. *)
Definition add_challenge_row (r : WebAuthnChallengeRow) : Tx () :=
  db ← read;
  constraint (negb (dmem (wh_challenge_id r) (db_challenges db))
    && negb (existsb (λ o, bool_decide (wh_challenge_digest o = wh_challenge_digest r)) (dvalues (db_challenges db))) && challenge_fits r);;
  modify (set_challenge_rows (dset (wh_challenge_id r) r (db_challenges db))).
Definition add_credential_row (r : WebAuthnCredentialRow) : Tx () :=
  db ← read;
  constraint (negb (dmem (wc_credential_id r) (db_credentials db)) && credential_fits r);;
  modify (set_credential_rows (dset (wc_credential_id r) r (db_credentials db))).
Definition add_lease_row (r : AuthorityLeaseRow) : Tx () :=
  db ← read;
  constraint (negb (dmem (al_lease_id r) (db_leases db))
    && negb (existsb (λ o, al_authority_epoch o =? al_authority_epoch r) (dvalues (db_leases db)))
    && dmem (al_credential_id r) (db_credentials db) && lease_fits r);;
  modify (set_lease_rows (dset (al_lease_id r) r (db_leases db))).
Definition add_interaction_row (r : DiscordInteractionRow) : Tx () :=
  db ← read;
  constraint (negb (dmem (dr_interaction_id r) (db_interactions db)) && interaction_fits r);;
  modify (set_interaction_rows (dset (dr_interaction_id r) r (db_interactions db))).
Definition add_event_row (r : SecurityAuditEventRow) : Tx () :=
  db ← read;
  constraint (negb (dmem (se_event_id r) (db_audit db))
    && negb (existsb (λ o, (se_sequence o =? se_sequence r) || bool_decide (se_event_hash o = se_event_hash r)) (dvalues (db_audit db)))
    && event_fits r);;
  modify (set_event_rows (dset (se_event_id r) r (db_audit db))).

(** ** Rows and records *)

Definition challenge_of (r : WebAuthnChallengeRow) : Challenge :=
  mkChallenge (wh_challenge_id r) (wh_challenge_value r) (wh_challenge_digest r) (wh_purpose r) (wh_commander_id r) (wh_payload_digest r)
    (wh_payload_json r) (wh_issued_at r) (wh_expires_at r) (wh_consumed_at r).
Definition credential_of (r : WebAuthnCredentialRow) : Credential :=
  mkCredential (wc_credential_id r) (wc_commander_id r) (wc_public_key r) (wc_sign_count r) (wc_created_at r) (wc_revoked_at r).
(** [_lease_from_row]; a lease has no checks of its own *)
Definition lease_from_row (r : AuthorityLeaseRow) : AuthorityLease :=
  mkLease (al_lease_id r) (al_authority_epoch r) (al_commander_id r) (al_guild_id r) (al_channel_scope_digest r) (al_credential_id r)
    (al_issued_at r) (al_expires_at r) (al_revoked_at r) (al_revocation_reason r).
Definition challenge_from_row (r : WebAuthnChallengeRow) : Tx Challenge := construct (make_challenge (challenge_of r)).
Definition credential_from_row (r : WebAuthnCredentialRow) : Tx Credential := construct (make_credential (credential_of r)).
Definition event_of (r : SecurityAuditEventRow) : AuditEvent :=
  mkAuditEvent (se_sequence r) (se_event_type r) (se_body r) (se_previous_hash r) (se_event_hash r).

Definition row_of_challenge (c : Challenge) : WebAuthnChallengeRow :=
  mkChallengeRow (ch_id c) (ch_value c) (ch_digest c) (ch_purpose c) (ch_commander c) (ch_payload_digest c) (ch_payload_json c)
    (ch_issued_at c) (ch_expires_at c) (ch_consumed_at c).
Definition row_of_credential (c : Credential) : WebAuthnCredentialRow :=
  mkCredentialRow (cr_id c) (cr_commander c) (cr_public_key c) (cr_sign_count c) (cr_created_at c) (cr_revoked_at c).

(** ** Shared steps *)

(** [_locked_state] *)
Definition locked_state : Tx (AuthorityStateRow * GlobalFreezeRow) :=
  db ← read;
  match db_authority db, db_freeze db with
  | Some a, Some f => mret (a, f)
  | _, _ => refuse (AuthorityRepositoryError "canonical authority state is not initialized")
  end.

(** [order_by(sequence.desc()).limit(1)], and [order_by(sequence)] *)
Definition latest_event (rows : list SecurityAuditEventRow) : option SecurityAuditEventRow := head (sort_by (λ a b, se_sequence b <=? se_sequence a) rows).

(** [_append_audit]; [uuid] is the [uuid4()] of the event *)
Definition append_audit (uuid event_type : string) (body : json) (occurred_at : datetime) : Tx () :=
  db ← read;
  let previous := latest_event (dvalues (db_audit db)) in
  let sequence := match previous with None => 1 | Some p => se_sequence p + 1 end in
  let previous_hash := match previous with None => REPO_GENESIS | Some p => se_event_hash p end in
  let canonical_body := dumps body in
  add_event_row (mkEventRow ("audit-" +:+ uuid) sequence occurred_at event_type canonical_body previous_hash
    (repo_audit_hash sequence event_type canonical_body previous_hash)).

Definition consumed_row (r : WebAuthnChallengeRow) (now : datetime) : WebAuthnChallengeRow :=
  mkChallengeRow (wh_challenge_id r) (wh_challenge_value r) (wh_challenge_digest r) (wh_purpose r) (wh_commander_id r) (wh_payload_digest r)
    (wh_payload_json r) (wh_issued_at r) (wh_expires_at r) (Some now).

(** [_consume_challenge_row] *)
Definition consume_challenge_row (challenge_id challenge_digest : string) (now : datetime) : Tx WebAuthnChallengeRow :=
  db ← read;
  match dget challenge_id (db_challenges db) with
  | None => refuse (ChallengeInvalid "challenge does not match")
  | Some row =>
      demand (bool_decide (wh_challenge_digest row = challenge_digest)) (ChallengeInvalid "challenge does not match");;
      demand (bool_decide (wh_consumed_at row = None)) (ChallengeConsumed "challenge was already consumed");;
      demand (negb (wh_expires_at row <? now)) (ChallengeInvalid "challenge has expired");;
      modify (set_challenge_rows (dset challenge_id (consumed_row row now) (db_challenges db)));;
      mret (consumed_row row now)
  end.

(** Setting [revoked_at] and [revocation_reason] of every lease row without a revocation *)
Definition row_live (r : AuthorityLeaseRow) : bool := bool_decide (al_revoked_at r = None).
Definition revoke_row (now : datetime) (reason : string) (r : AuthorityLeaseRow) : AuthorityLeaseRow :=
  if row_live r
  then mkLeaseRow (al_lease_id r) (al_authority_epoch r) (al_commander_id r) (al_guild_id r) (al_channel_scope_digest r) (al_credential_id r)
         (al_issued_at r) (al_expires_at r) (Some now) (Some reason)
  else r.
Definition revoke_leases (now : datetime) (reason : string) : Tx () :=
  db ← read;
  constraint (negb (existsb row_live (dvalues (db_leases db))) || varchar 64 reason);;
  modify (set_lease_rows (map (λ kv, (kv.1, revoke_row now reason kv.2)) (db_leases db))).

(** [authority.authority_epoch += 1] *)
Definition advance_epoch (a : AuthorityStateRow) (now : datetime) : Tx AuthorityStateRow :=
  let a' := mkStateRow (as_authority_epoch a + 1) now in
  constraint (state_fits a');; modify (set_state_row a');; mret a'.
Definition write_freeze (f : GlobalFreezeRow) : Tx () := constraint (freeze_fits f);; modify (set_freeze_row f).

(** The credential of an assertion: available, its counter not regressed, then written. *)
Definition use_credential_row (credential_id : string) (new_sign_count : Z) : Tx () :=
  db ← read;
  match dget credential_id (db_credentials db) with
  | None => refuse (AuthorityRepositoryError "credential is unavailable")
  | Some c =>
      demand (bool_decide (wc_revoked_at c = None)) (AuthorityRepositoryError "credential is unavailable");;
      demand (negb (new_sign_count <? wc_sign_count c)) (AuthorityRepositoryError "credential counter regressed");;
      let c' := mkCredentialRow (wc_credential_id c) (wc_commander_id c) (wc_public_key c) new_sign_count (wc_created_at c) (wc_revoked_at c) in
      constraint (credential_fits c');;
      modify (set_credential_rows (dset credential_id c' (db_credentials db)))
  end.

Definition new_lease_row (q : LeaseRequest) (credential_id : string) (epoch : Z) : AuthorityLeaseRow :=
  mkLeaseRow (lr_id q) epoch (lr_commander q) (lr_guild q) (lr_channel q) credential_id (lr_issued_at q) (lr_expires_at q) None None.

(** ** The methods *)

Definition initialize (now : datetime) : Tx () := transaction (
  db ← read;
  (if db_authority db is None then modify (set_state_row (mkStateRow 1 now)) else mret ());;
  (if db_freeze db is None then modify (set_freeze_row (mkFreezeRow 1 false None None now)) else mret ())).

Definition sql_create_challenge (c : Challenge) : Tx () := transaction (add_challenge_row (row_of_challenge c)).

Definition sql_consume_challenge (challenge_id challenge_digest : string) (now : datetime) : Tx Challenge := transaction (
  row ← consume_challenge_row challenge_id challenge_digest now;
  challenge_from_row row).

Definition sql_get_challenge (challenge_id : string) : Tx Challenge :=
  db ← read;
  match dget challenge_id (db_challenges db) with
  | None => refuse (ChallengeInvalid "challenge does not exist")
  | Some row => challenge_from_row row
  end.

Definition credential_live (r : WebAuthnCredentialRow) : bool := bool_decide (wc_revoked_at r = None).

Definition sql_credential_count : Tx Z := gets (λ db, Z.of_nat (length (List.filter credential_live (dvalues (db_credentials db))))).

Definition sql_get_credential (credential_id : string) : Tx Credential :=
  db ← read;
  match dget credential_id (db_credentials db) with
  | None => refuse (AuthorityRepositoryError "credential is unavailable")
  | Some row =>
      demand (credential_live row) (AuthorityRepositoryError "credential is unavailable");;
      credential_from_row row
  end.

(** A [for] over rows that constructs records *)
Fixpoint credentials_from_rows (rows : list WebAuthnCredentialRow) : Tx (list Credential) :=
  match rows with
  | [] => mret []
  | r :: rows => c ← credential_from_row r; cs ← credentials_from_rows rows; mret (c :: cs)
  end.

(** No [ORDER BY]: [scan] is the order in which the database returns rows. *)
Definition sql_list_credentials (scan : list WebAuthnCredentialRow → list WebAuthnCredentialRow) : Tx (list Credential) :=
  db ← read; credentials_from_rows (scan (List.filter credential_live (dvalues (db_credentials db)))).

Definition sql_complete_registration (uuid challenge_id challenge_digest : string) (c : Credential) (now : datetime) : Tx Credential := transaction (
  challenge ← consume_challenge_row challenge_id challenge_digest now;
  demand (bool_decide (wh_purpose challenge = "bootstrap-registration")) (ChallengeInvalid "challenge purpose does not permit registration");;
  db ← read;
  demand (negb (dmem (cr_id c) (db_credentials db))) (AuthorityRepositoryError "credential identity already exists");;
  add_credential_row (row_of_credential c);;
  append_audit uuid "credential-enrolled" (enrolled_body c) now;;
  mret c).

Definition sql_complete_authentication (uuid challenge_id challenge_digest credential_id : string) (new_sign_count : Z) (q : LeaseRequest)
    (now : datetime) : Tx AuthorityLease := transaction (
  '(authority, freeze) ← locked_state;
  demand (negb (gf_frozen freeze)) (AdmissionDenied "authority is frozen");;
  challenge ← consume_challenge_row challenge_id challenge_digest now;
  demand (bool_decide (wh_purpose challenge = "lease")) (ChallengeInvalid "challenge purpose does not permit a lease");;
  use_credential_row credential_id new_sign_count;;
  revoke_leases now "replaced";;
  authority' ← advance_epoch authority now;
  let row := new_lease_row q credential_id (as_authority_epoch authority') in
  add_lease_row row;;
  append_audit uuid "lease-issued" (issued_body (lease_from_row row)) now;;
  mret (lease_from_row row)).

Definition sql_issue_lease (uuid : string) (q : LeaseRequest) : Tx AuthorityLease := transaction (
  '(authority, freeze) ← locked_state;
  demand (negb (gf_frozen freeze)) (AdmissionDenied "authority is frozen");;
  db ← read;
  demand (negb (dmem (lr_id q) (db_leases db))) (AuthorityRepositoryError "lease identity already exists");;
  revoke_leases (lr_issued_at q) "replaced";;
  authority' ← advance_epoch authority (lr_issued_at q);
  let row := new_lease_row q (lr_credential q) (as_authority_epoch authority') in
  add_lease_row row;;
  append_audit uuid "lease-issued" (issued_body (lease_from_row row)) (lr_issued_at q);;
  mret (lease_from_row row)).

Definition row_authorizes (a : AuthorityStateRow) (q : AdmissionRequest) (l : AuthorityLeaseRow) : bool :=
  bool_decide (al_revoked_at l = None) && (al_authority_epoch l =? as_authority_epoch a) && (al_authority_epoch l =? aq_epoch q)
  && bool_decide (al_commander_id l = aq_commander q) && bool_decide (al_guild_id l = aq_guild q)
  && bool_decide (al_channel_scope_digest l = aq_channel q) && negb (al_expires_at l <=? aq_received_at q).

Definition sql_admit (q : AdmissionRequest) : Tx AdmissionReceipt := transaction (
  '(authority, freeze) ← locked_state;
  db ← read;
  match dget (aq_interaction q) (db_interactions db) with
  | Some duplicate =>
      demand (bool_decide (dr_request_digest duplicate = aq_digest q)) (AdmissionDenied "interaction identity was reused with another payload");;
      match dr_workflow_id duplicate with
      | None => refuse (AdmissionDenied "duplicate interaction has no accepted outcome")
      | Some workflow_id =>
          demand (bool_decide (dr_decision duplicate = Some "allow")) (AdmissionDenied "duplicate interaction has no accepted outcome");;
          mret (mkReceipt (dr_interaction_id duplicate) (aq_epoch q) (aq_lease q) workflow_id true)
      end
  | None =>
      demand (negb (gf_frozen freeze)) (AdmissionDenied "authority is frozen");;
      match dget (aq_lease q) (db_leases db) with
      | None => refuse (AdmissionDenied "lease does not authorize this interaction")
      | Some lease =>
          demand (row_authorizes authority q lease) (AdmissionDenied "lease does not authorize this interaction");;
          let workflow_id := "discord-" +:+ aq_interaction q in
          add_interaction_row (mkInteractionRow (aq_interaction q) (aq_digest q) (Some "allow") (Some workflow_id) (aq_received_at q) (Some (aq_received_at q)));;
          mret (mkReceipt (aq_interaction q) (al_authority_epoch lease) (al_lease_id lease) workflow_id false)
      end
  end).

Definition sql_freeze (uuid request_id reason : string) (now : datetime) : Tx FreezeReceipt := transaction (
  '(authority, freeze) ← locked_state;
  if gf_frozen freeze then mret (mkFreezeReceipt request_id (as_authority_epoch authority) (gf_freeze_epoch freeze) now)
  else
    authority' ← advance_epoch authority now;
    let freeze' := mkFreezeRow (gf_freeze_epoch freeze + 1) true (Some request_id) (Some reason) now in
    write_freeze freeze';;
    revoke_leases now reason;;
    append_audit uuid "authority-frozen" (frozen_body (as_authority_epoch authority') (gf_freeze_epoch freeze') reason request_id) now;;
    mret (mkFreezeReceipt request_id (as_authority_epoch authority') (gf_freeze_epoch freeze') now)).

Definition sql_lease_is_revoked (lease_id : string) : Tx bool :=
  db ← read;
  match dget lease_id (db_leases db) with
  | None => refuse (AuthorityRepositoryError "lease does not exist")
  | Some l => mret (negb (row_live l))
  end.

(** [order_by(authority_epoch.desc()).limit(2)] *)
Definition sql_active_lease : Tx (option AuthorityLease) :=
  db ← read;
  match take 2 (sort_by (λ a b, al_authority_epoch b <=? al_authority_epoch a) (List.filter row_live (dvalues (db_leases db)))) with
  | [] => mret None
  | [r] => mret (Some (lease_from_row r))
  | _ => refuse (AuthorityRepositoryError "multiple active leases violate authority state")
  end.

Definition sql_freeze_state : Tx FreezeState :=
  '(authority, freeze) ← locked_state;
  mret (mkFreezeState (gf_frozen freeze) (gf_freeze_epoch freeze) (as_authority_epoch authority)).

Definition sql_complete_recovery (uuid challenge_id challenge_digest : string) (expected_freeze_epoch : Z) (credential_id : string)
    (new_sign_count : Z) (q : LeaseRequest) (recovery_id : string) (now : datetime) : Tx RecoveryReceipt := transaction (
  '(authority, freeze) ← locked_state;
  challenge ← consume_challenge_row challenge_id challenge_digest now;
  demand (bool_decide (wh_purpose challenge = "recovery")) (ChallengeInvalid "challenge purpose does not permit recovery");;
  demand (gf_frozen freeze && (gf_freeze_epoch freeze =? expected_freeze_epoch)) (AdmissionDenied "freeze epoch changed before recovery");;
  use_credential_row credential_id new_sign_count;;
  revoke_leases now "recovery-replaced";;
  write_freeze (mkFreezeRow (gf_freeze_epoch freeze) false (Some recovery_id) (Some "face-id-recovery") now);;
  authority' ← advance_epoch authority now;
  let row := new_lease_row q credential_id (as_authority_epoch authority') in
  add_lease_row row;;
  let body := recovery_body (al_authority_epoch row) expected_freeze_epoch recovery_id in
  append_audit uuid "authority-recovered" body now;;
  mret (mkRecovery (lease_from_row row) expected_freeze_epoch (sha256 (utf8 (dumps body))))).

Definition sql_audit_events : Tx (list AuditEvent) :=
  gets (λ db, map event_of (sort_by (λ a b, se_sequence a <=? se_sequence b) (dvalues (db_audit db)))).
