(* ===== verification/SqlAuthorityFacts.v ===== *)
(** The SQL repository implements the in-memory one: a call that returns in the database returns the same in memory and
    leaves agreeing states, revocations and audit trail included; a call that raises leaves the database as it was. The three
    places where the two answer differently are part of the agreement: the order of listed credentials, the receipt of a
    repeated admission, and the second audit event that memory writes for a recovery. *)

From S2P Require Import Prelude PyDict PyTime Json Sha256 AuthorityRepository AuthorityFacts AuthorityTypes SqlAuthority.
From Stdlib Require Import Ascii.

Open Scope Z_scope.
#[local] Arguments dmap : simpl never.

(** ** The audit table *)

Definition audit_chained (d : dict string SecurityAuditEventRow) : Prop := repo_verify_audit_chain (map event_of (dvalues d)) = true.

(** A verified chain numbers its rows in order. *)
Lemma verified_sequence i h rows n r : repo_verify_from i h (map event_of rows) = true → rows !! n = Some r → se_sequence r = i + Z.of_nat n.
Proof.
  revert i h n. induction rows as [|r0 rows IH]; intros i h n; [done|]. cbn [map repo_verify_from event_of ae_sequence].
  repeat case_match; try done. bool_to_prop. intros H'. destruct n as [|n]; cbn; [intros [= ->]; lia|]. intros Hr.
  rewrite (IH _ _ _ H' Hr). lia.
Qed.

Lemma verified_ordered i h rows : repo_verify_from i h (map event_of rows) = true → Sorted (λ a b, (se_sequence a <=? se_sequence b) = true) rows.
Proof.
  revert i h. induction rows as [|r rows IH]; intros i h Hv; [by constructor|]. assert (Hr := verified_sequence _ _ _ 0 r Hv eq_refl).
  destruct rows as [|r' rows]; [by repeat constructor|]. assert (Hr' := verified_sequence _ _ _ 1 r' Hv eq_refl).
  constructor; [|constructor; lia]. change (map event_of (r :: r' :: rows)) with (event_of r :: map event_of (r' :: rows)) in Hv.
  cbn [repo_verify_from] in Hv. destruct (negb _ || _); [done|]. destruct (negb _); [done|]. eapply IH. exact Hv.
Qed.

(** The latest event is the last one written. *)
Lemma latest_last i h rows : repo_verify_from i h (map event_of rows) = true → latest_event rows = last rows.
Proof.
  intros Hv. unfold latest_event. destruct (last rows) as [z|] eqn:Ez; [|by apply last_None in Ez as ->].
  apply last_Some in Ez as (l & ->). set (leb := λ a b : SecurityAuditEventRow, se_sequence b <=? se_sequence a).
  destruct (sort_by leb (l ++ [z])) as [|x xs] eqn:Es.
  - assert (Hp := sort_by_Permutation leb (l ++ [z])). rewrite Es in Hp. apply Permutation_nil in Hp. by destruct l.
  - cbn. f_equal. apply sort_by_head in Es as [Hin Hmax]; [|subst leb; intros; bool_to_prop; lia..].
    destruct (Hmax z) as [->|Hle]; [set_solver|done|]. subst leb. cbn in Hle. bool_to_prop. apply list_elem_of_lookup in Hin as [n Hn].
    assert (Hz := verified_sequence _ _ _ (length l) z Hv ltac:(by rewrite lookup_app_r, Nat.sub_diag)).
    assert (Hx := verified_sequence _ _ _ _ _ Hv Hn). apply lookup_lt_Some in Hn as Hlt. rewrite length_app in Hlt. cbn in Hlt.
    assert (n = length l) as -> by lia. rewrite lookup_app_r, Nat.sub_diag in Hn by lia. by injection Hn.
Qed.

(** What the method adds to the table is what the in-memory repository appends to its list. *)
Lemma append_audit_run uuid t b now db x db' : audit_chained (db_audit db) → append_audit uuid t b now db = (Ok x, db') →
  ∃ d', db' = set_event_rows d' db ∧ map event_of (dvalues d') = audit_append_event t b (map event_of (dvalues (db_audit db))).
Proof.
  intros Hv. unfold append_audit, add_event_row.
  intros (? & ? & [= <- <-] & (? & ? & [= <- <-] & ([] & db1 & Hc & [= _ <-])%bind_run_inv)%bind_run_inv)%bind_run_inv. unfold constraint, check, ensure in Hc. destruct (_ && _) eqn:E; [|done]. injection Hc as <-.
  bool_to_prop. cbn [se_event_id] in *. eexists. split; [done|]. unfold dmem in *.
  destruct (dget _ (db_audit db)) eqn:Ed; [done|]. rewrite dvalues_fresh by done. rewrite map_app. unfold audit_append_event. f_equal. cbn [map].
  rewrite (latest_last _ _ _ Hv), length_map. unfold repo_last. replace (last (map event_of (dvalues (db_audit db)))) with (event_of <$> last (dvalues (db_audit db)))
    by (symmetry; apply fmap_last).
  destruct (last (dvalues (db_audit db))) as [z|] eqn:Ez; cbn.
  - rewrite last_lookup in Ez. assert (Hz := verified_sequence _ _ _ _ _ Hv Ez). apply lookup_lt_Some in Ez.
    replace (se_sequence z + 1) with (Z.of_nat (length (dvalues (db_audit db))) + 1) by lia. done.
  - by apply last_None in Ez as ->.
Qed.

(** ** Agreement *)

Definition receipt_agrees (p : string * AdmissionReceipt) (r : DiscordInteractionRow) : Prop :=
  dr_request_digest r = p.1 ∧ dr_interaction_id r = rc_interaction p.2 ∧ dr_decision r = Some "allow" ∧ dr_workflow_id r = Some (rc_workflow p.2) ∧
  rc_duplicate p.2 = false.

(** What the events say: their types and canonical bodies. Sequence numbers and hashes of a verified chain follow from these. *)
Definition trail (events : list AuditEvent) : list (string * string) := map (λ e, (ae_type e, ae_body e)) events.

(** A recovery writes "lease-issued" and "authority-recovered" in memory, and only the latter in the database. *)
Fixpoint recovery_once (l : list (string * string)) : list (string * string) :=
  match l with
  | a :: ((b :: _) as l) => if bool_decide (a.1 = "lease-issued") && bool_decide (b.1 = "authority-recovered") then recovery_once l else a :: recovery_once l
  | l => l
  end.

Record agree (db : Database) (r : Repo) : Prop := {
  ag_state : ∃ t, db_authority db = Some (mkStateRow (r_authority_epoch r) t);
  ag_freeze : ∃ f, db_freeze db = Some f ∧ gf_frozen f = r_frozen r ∧ gf_freeze_epoch f = r_freeze_epoch r;
  ag_challenges : r_challenges r = dmap challenge_of (db_challenges db);
  ag_credentials : r_credentials r = dmap credential_of (db_credentials db);
  ag_leases : ∀ k, dget k (r_leases r) = lease_from_row <$> dget k (db_leases db);
  ag_lease_keys : dict_wf (db_leases db);
  ag_interactions : ∀ k, option_Forall2 receipt_agrees (dget k (r_interactions r)) (dget k (db_interactions db));
  ag_audit : audit_chained (db_audit db);
  ag_trail : trail (map event_of (dvalues (db_audit db))) = recovery_once (trail (r_audit r)) }.

Lemma recovery_once_snoc l e : e.1 ≠ "authority-recovered" → recovery_once (l ++ [e]) = recovery_once l ++ [e].
Proof.
  intros He. induction l as [|a [|b l] IH]; [done| |].
  - cbn. rewrite (bool_decide_false (e.1 = _)) by done. by rewrite andb_false_r.
  - cbn [app recovery_once] in *. rewrite IH. by destruct (_ && _).
Qed.
Lemma recovery_once_recovered l body body' :
  recovery_once (l ++ [("lease-issued", body); ("authority-recovered", body')]) = recovery_once l ++ [("authority-recovered", body')].
Proof.
  induction l as [|a [|b l] IH]; [done| |].
  - cbn. by rewrite andb_false_r.
  - cbn [app recovery_once] in *. rewrite IH. by destruct (_ && _).
Qed.
Lemma trail_append t b events : trail (audit_append_event t b events) = trail events ++ [(t, dumps b)].
Proof. unfold trail, audit_append_event. by rewrite map_app. Qed.

(** The same event written on both sides, and the events of a recovery. *)
Lemma agree_event d db r t b : map event_of (dvalues d) = audit_append_event t b (map event_of (dvalues (db_audit db))) →
  t ≠ "authority-recovered" → agree db r → agree (set_event_rows d db) (append_event t b r).
Proof.
  intros Hd Ht []. split; try done; cbn [db_audit set_event_rows r_audit append_event]; [unfold audit_chained; rewrite Hd; by apply append_event_verifies|].
  by rewrite Hd, !trail_append, ag_trail0, recovery_once_snoc.
Qed.
Lemma agree_recovered d db r b b' : map event_of (dvalues d) = audit_append_event "authority-recovered" b' (map event_of (dvalues (db_audit db))) →
  agree db r → agree (set_event_rows d db) (append_event "authority-recovered" b' (append_event "lease-issued" b r)).
Proof.
  intros Hd []. split; try done; cbn [db_audit set_event_rows r_audit append_event]; [unfold audit_chained; rewrite Hd; by apply append_event_verifies|].
  rewrite Hd, !trail_append, ag_trail0, <- app_assoc. symmetry. apply recovery_once_recovered.
Qed.

(** ** Reading a run backwards *)

Lemma transaction_Ok {A} (m : Tx A) db a db' : transaction m db = (Ok a, db') → m db = (Ok a, db').
Proof. unfold transaction. destruct (m db) as [[|] ?]; naive_solver. Qed.
Lemma transaction_Err {A} (m : Tx A) db e db' : transaction m db = (Err e, db') → db' = db.
Proof. unfold transaction. destruct (m db) as [[|] ?]; naive_solver. Qed.
Lemma demand_Ok b e db x db' : demand b e db = (Ok x, db') → b = true ∧ db' = db.
Proof. unfold demand, check, ensure. destruct b; naive_solver. Qed.
Lemma constraint_Ok b db x db' : constraint b db = (Ok x, db') → b = true ∧ db' = db.
Proof. unfold constraint, check, ensure. destruct b; naive_solver. Qed.
Lemma construct_Ok {A} (x : result repo_exn A) db a db' : construct x db = (Ok a, db') → x = Ok a ∧ db' = db.
Proof. unfold construct. destruct x; naive_solver. Qed.

(** Takes the hypothesis [H], a run that returned, apart. *)
Ltac undo H :=
  match type of H with
  | transaction _ _ = _ => apply transaction_Ok in H; undo H
  | (_ ≫= _) _ = (Ok _, _) =>
      let x := fresh "x" in let db1 := fresh "db" in let H1 := fresh "H" in
      apply bind_run_inv in H as (x & db1 & H1 & H); undo H1; undo H
  | demand _ _ _ = _ => apply demand_Ok in H as [H ->]
  | constraint _ _ = _ => apply constraint_Ok in H as [H ->]
  | construct _ _ = _ => apply construct_Ok in H as [H ->]
  | read _ = _ => injection H as <- <-
  | gets _ _ = _ => first [injection H as <- <- | injection H as <-]
  | modify _ _ = _ => first [injection H as <- <- | injection H as <-]
  | mret _ _ = _ => first [injection H as <- <- | injection H as <-]
  | refuse _ _ = _ => discriminate H
  | match ?x with _ => _ end = _ => idtac
  | _ => idtac
  end.

(** Runs the in-memory counterpart: reads, assignments, and checks the hypotheses decide. *)
Ltac redo :=
  repeat (erewrite bind_run_Ok by
    (unfold check, some_or; cbn; first [done | match goal with H : ?b = true |- (ensure ?c _, _) = _ => change c with b; by rewrite H end])).

Lemma locked_state_run db r p db' : agree db r → locked_state db = (Ok p, db') →
  db' = db ∧ as_authority_epoch p.1 = r_authority_epoch r ∧ gf_frozen p.2 = r_frozen r ∧ gf_freeze_epoch p.2 = r_freeze_epoch r.
Proof.
  intros [[t Ht] (f & Hf & Hz & He) _ _ _ _ _ _ _] H. unfold locked_state in H. undo H. rewrite Ht, Hf in H. by injection H as <- <-.
Qed.

Lemma challenge_unchanged c x : make_challenge c = Ok x → x = c.
Proof. unfold make_challenge, ensure. cbn. repeat case_match; cbn; congruence. Qed.
Lemma credential_unchanged c x : make_credential c = Ok x → x = c.
Proof. unfold make_credential, ensure. cbn. repeat case_match; cbn; congruence. Qed.

Lemma challenge_of_row c : challenge_of (row_of_challenge c) = c.
Proof. by destruct c. Qed.
Lemma credential_of_row c : credential_of (row_of_credential c) = c.
Proof. by destruct c. Qed.

Lemma existsb_map {A B} (f : A → B) (p : B → bool) l : existsb p (map f l) = existsb (λ x, p (f x)) l.
Proof. induction l as [|x l IH]; cbn; [done|]. by rewrite IH. Qed.

(** ** Challenges and credentials *)

Lemma create_challenge_agrees c db r db' : agree db r → sql_create_challenge c db = (Ok (), db') →
  ∃ r', create_challenge c r = (Ok (), r') ∧ agree db' r'.
Proof.
  intros Ha H. unfold sql_create_challenge, add_challenge_row in H. undo H. bool_to_prop. cbn [row_of_challenge wh_challenge_id wh_challenge_digest] in *.
  unfold create_challenge. eexists. split.
  - erewrite bind_run_Ok by done. rewrite (ag_challenges _ _ Ha).
    erewrite bind_run_Ok by (unfold check; rewrite dmem_dmap; by rewrite H).
    erewrite bind_run_Ok by (unfold check; rewrite dvalues_dmap, existsb_map; cbn; by rewrite H1). done.
  - destruct Ha. split; try done. cbn. by rewrite dmap_dset, challenge_of_row.
Qed.

Lemma consume_agrees i d now db r row db' : agree db r → consume_challenge_row i d now db = (Ok row, db') →
  let r' := set_challenges (dset i (challenge_of row) (r_challenges r)) r in
  consume_challenge i d now r = (Ok (challenge_of row), r') ∧ agree db' r' ∧ db' = set_challenge_rows (dset i row (db_challenges db)) db.
Proof.
  intros Ha H. unfold consume_challenge_row in H. undo H. destruct (dget i (db_challenges db)) as [row0|] eqn:E; undo H. split_and!; [|destruct Ha; split; try done|done].
  - unfold consume_challenge. erewrite bind_run_Ok by done. rewrite (ag_challenges _ _ Ha), dget_dmap, E.
    erewrite bind_run_Ok by done. by redo.
  - cbn. by rewrite ag_challenges0, dmap_dset.
Qed.

Lemma get_challenge_agrees i db r c db' : agree db r → sql_get_challenge i db = (Ok c, db') → get_challenge i r = (Ok c, r) ∧ db' = db.
Proof.
  intros Ha H. unfold sql_get_challenge in H. undo H. destruct (dget i (db_challenges db)) as [row|] eqn:E; undo H. unfold challenge_from_row in H. undo H.
  apply challenge_unchanged in H as ->. split; [|done]. unfold get_challenge. redo. unfold some_or. by rewrite (ag_challenges _ _ Ha), dget_dmap, E.
Qed.

Lemma get_credential_agrees i db r c db' : agree db r → sql_get_credential i db = (Ok c, db') → get_credential i r = (Ok c, r) ∧ db' = db.
Proof.
  intros Ha H. unfold sql_get_credential in H. undo H. destruct (dget i (db_credentials db)) as [row|] eqn:E; undo H. unfold credential_from_row in H. undo H.
  apply credential_unchanged in H as ->. split; [|done]. unfold get_credential. redo. rewrite (ag_credentials _ _ Ha), dget_dmap, E. by redo.
Qed.

Lemma credentials_from_rows_Ok rows db l db' : credentials_from_rows rows db = (Ok l, db') → l = map credential_of rows ∧ db' = db.
Proof.
  revert l db db'. induction rows as [|row rows IH]; intros l db db' H; cbn in H; undo H; [done|]. unfold credential_from_row in H0. undo H0.
  apply credential_unchanged in H0 as ->. by apply IH in H1 as [-> ->].
Qed.

Lemma live_rows (d : dict string WebAuthnCredentialRow) : List.filter live (dvalues (dmap credential_of d)) = map credential_of (List.filter credential_live (dvalues d)).
Proof.
  rewrite dvalues_dmap. induction (dvalues d) as [|row rows IH]; cbn; [done|]. unfold live at 1, credential_live at 1. cbn. case_bool_decide; cbn; by rewrite IH.
Qed.

Lemma use_credential_agrees i n db r x db' : agree db r → use_credential_row i n db = (Ok x, db') →
  ∃ r', use_credential i n r = (Ok (), r') ∧ agree db' r' ∧ same_authority r r'.
Proof.
  intros Ha H. unfold use_credential_row in H. undo H. destruct (dget i (db_credentials db)) as [row|] eqn:E; undo H.
  assert (Hg : get_credential i r = (Ok (credential_of row), r)).
  { unfold get_credential. redo. rewrite (ag_credentials _ _ Ha), dget_dmap, E. by redo. }
  eexists. split; [|split].
  - unfold use_credential. erewrite bind_run_Ok by exact Hg. bool_to_prop. erewrite bind_run_Ok by (unfold check; cbn; by rewrite (proj2 (Z.leb_le _ _))). done.
  - destruct Ha. split; try done. cbn. by rewrite dmap_dset, ag_credentials0.
  - by split_and!.
Qed.

(** ** Leases *)

Definition revoke_one (now : datetime) (reason : string) (l : AuthorityLease) : AuthorityLease :=
  if bool_decide (l_revoked_at l = None) then lease_revoke l now reason else l.

(** Only the active lease is live, so revoking it revokes every live lease. *)
Lemma revoke_active_map epoch r now reason : lease_inv epoch (r_leases r) (r_active r) →
  ∃ d', revoke_active now reason r = (Ok (), set_leases d' None r) ∧ ∀ k, dget k d' = revoke_one now reason <$> dget k (r_leases r).
Proof.
  intros [_ Hkey _ _ Ha Hs]. unfold revoke_active. erewrite bind_run_Ok by done. destruct (r_active r) as [i|] eqn:Ei.
  - destruct (Ha i eq_refl) as (l & Hl & Hr). rewrite Hl. erewrite bind_run_Ok by done. rewrite bool_decide_true by done. eexists. split; [done|].
    intros k. rewrite (Hkey i l Hl), dget_dset. unfold revoke_one. case_decide; [subst; rewrite Hl; cbn; by rewrite bool_decide_true|].
    destruct (dget k (r_leases r)) as [x|] eqn:Ex; cbn; [|done]. case_bool_decide; [|done]. exfalso. apply Hs in Ex; congruence.
  - exists (r_leases r). split; [destruct r; cbn in *; by subst|]. intros k. destruct (dget k (r_leases r)) as [x|] eqn:Ex; cbn; [|done].
    unfold revoke_one. case_bool_decide; [|done]. exfalso. apply Hs in Ex; congruence.
Qed.

(** The repository after a lease was issued, before the event is written. *)
Definition issued (r : Repo) (q : LeaseRequest) (d' : dict string AuthorityLease) : Repo :=
  set_leases (dset (lr_id q) (new_lease q (r_authority_epoch r + 1)) d') (Some (lr_id q)) (set_epochs (r_authority_epoch r + 1) (r_freeze_epoch r) (r_frozen r) r).

Lemma issue_lease_run q r : repo_inv r → r_frozen r = false → dget (lr_id q) (r_leases r) = None →
  ∃ d', (let lease := new_lease q (r_authority_epoch r + 1) in
         issue_lease q r = (Ok lease, append_event "lease-issued" (issued_body lease) (issued r q d'))) ∧
    ∀ k, dget k d' = revoke_one (lr_issued_at q) "replaced" <$> dget k (r_leases r).
Proof.
  intros Hr Hf Hn. destruct (revoke_active_map _ r (lr_issued_at q) "replaced" (ri_lease r Hr)) as (d' & Hrev & Hd). exists d'. split; [|done].
  unfold issue_lease. erewrite bind_run_Ok by done. erewrite bind_run_Ok by (unfold check; by rewrite Hf).
  erewrite bind_run_Ok by (unfold check, dmem; by rewrite Hn). by erewrite bind_run_Ok by exact Hrev.
Qed.

Lemma revoke_row_lease t reason row : lease_from_row (revoke_row t reason row) = revoke_one t reason (lease_from_row row).
Proof. unfold revoke_one, revoke_row, row_live. cbn. by case_bool_decide. Qed.

(** While no lease is active, a revocation changes nothing. *)
Lemma revoke_none epoch r t reason k : lease_inv epoch (r_leases r) (r_active r) → r_active r = None →
  revoke_one t reason <$> dget k (r_leases r) = dget k (r_leases r).
Proof.
  intros [_ _ _ _ _ Hs] Hn. destruct (dget k (r_leases r)) as [l|] eqn:El; [|done]. cbn. unfold revoke_one. case_bool_decide; [|done].
  apply Hs in El; congruence.
Qed.

Lemma leases_revoked t reason d (rows : dict string AuthorityLeaseRow) : (∀ k, dget k d = lease_from_row <$> dget k rows) →
  ∀ k, revoke_one t reason <$> dget k d = lease_from_row <$> dget k (map (λ kv, (kv.1, revoke_row t reason kv.2)) rows).
Proof. intros Ha k. rewrite Ha, dget_map. destruct (dget k rows); cbn; [|done]. by rewrite revoke_row_lease. Qed.

Lemma revoked_keys t reason (rows : dict string AuthorityLeaseRow) : dict_wf rows → dict_wf (map (λ kv, (kv.1, revoke_row t reason kv.2)) rows).
Proof. unfold dict_wf. by rewrite dkeys_map. Qed.

(** The lease identity is free in the database, hence in memory. *)
Lemma lease_absent k db r : agree db r → dget k (db_leases db) = None → dget k (r_leases r) = None.
Proof. intros Ha Hk. by rewrite (ag_leases _ _ Ha k), Hk. Qed.
Lemma revoked_absent k t reason (rows : dict string AuthorityLeaseRow) :
  dmem k (map (λ kv, (kv.1, revoke_row t reason kv.2)) rows) = false → dget k rows = None.
Proof. unfold dmem. rewrite dget_map. by destruct (dget k rows). Qed.

(** Issuing, in the database the revocation, the epoch and the row, in memory [issue_lease]. *)
Lemma agree_issued db r q d' t reason t' : agree db r →
  (∀ k, dget k d' = revoke_one t reason <$> dget k (r_leases r)) →
  agree (set_lease_rows (dset (lr_id q) (new_lease_row q (lr_credential q) (r_authority_epoch r + 1)) (map (λ kv, (kv.1, revoke_row t reason kv.2)) (db_leases db)))
          (set_state_row (mkStateRow (r_authority_epoch r + 1) t') db)) (issued r q d').
Proof.
  intros Ha Hd. assert (Hl := leases_revoked t reason _ _ (ag_leases _ _ Ha)). destruct Ha. split; cbn; try done.
  - by eexists.
  - intros k. rewrite !dget_dset. case_decide; [done|]. by rewrite Hd, Hl.
  - by apply dict_wf_dset, revoked_keys.
Qed.

(** ** The statements of a transaction *)

Lemma add_credential_Ok row db x db' : add_credential_row row db = (Ok x, db') →
  db' = set_credential_rows (dset (wc_credential_id row) row (db_credentials db)) db.
Proof. intros H. unfold add_credential_row in H. by undo H. Qed.
Lemma add_lease_Ok row db x db' : add_lease_row row db = (Ok x, db') →
  dmem (al_lease_id row) (db_leases db) = false ∧ db' = set_lease_rows (dset (al_lease_id row) row (db_leases db)) db.
Proof. intros H. unfold add_lease_row in H. undo H. bool_to_prop. by split. Qed.
Lemma add_interaction_Ok row db x db' : add_interaction_row row db = (Ok x, db') →
  db' = set_interaction_rows (dset (dr_interaction_id row) row (db_interactions db)) db.
Proof. intros H. unfold add_interaction_row in H. by undo H. Qed.
Lemma revoke_leases_Ok now reason db x db' : revoke_leases now reason db = (Ok x, db') →
  db' = set_lease_rows (map (λ kv, (kv.1, revoke_row now reason kv.2)) (db_leases db)) db.
Proof. intros H. unfold revoke_leases in H. by undo H. Qed.
Lemma advance_epoch_Ok a now db a' db' : advance_epoch a now db = (Ok a', db') →
  a' = mkStateRow (as_authority_epoch a + 1) now ∧ db' = set_state_row a' db.
Proof. intros H. unfold advance_epoch in H. by undo H. Qed.
Lemma write_freeze_Ok f db x db' : write_freeze f db = (Ok x, db') → db' = set_freeze_row f db.
Proof. intros H. unfold write_freeze in H. by undo H. Qed.

(** ** The methods that change the authority *)

Lemma registration_agrees uuid i d c now db r x db' : agree db r → sql_complete_registration uuid i d c now db = (Ok x, db') →
  ∃ r', complete_registration i d c now r = (Ok x, r') ∧ agree db' r'.
Proof.
  intros Ha H. unfold sql_complete_registration in H. undo H. destruct (consume_agrees _ _ _ _ _ _ _ Ha H0) as (Hc & Ha1 & _).
  apply add_credential_Ok in H3 as ->. apply append_audit_run in H4 as (rows & -> & He); [|apply Ha1]. eexists. split.
  - unfold complete_registration. erewrite bind_run_Ok by exact Hc. erewrite bind_run_Ok by done.
    rewrite (ag_credentials _ _ Ha1), dmem_dmap. redo. done.
  - apply agree_event; [exact He|done|]. destruct Ha1. split; try done. cbn. by rewrite dmap_dset, credential_of_row, <- ag_credentials0.
Qed.

(** From the revocation to the new row: what [issue_lease] does in memory. The revocations are the same unless none is made. *)
Lemma issue_agrees q t reason t' db r a db1 db2 db3 a' x x' : repo_inv r → agree db r → as_authority_epoch a = r_authority_epoch r → r_frozen r = false →
  (t = lr_issued_at q ∧ reason = "replaced") ∨ r_active r = None →
  revoke_leases t reason db = (Ok x, db1) → advance_epoch a t' db1 = (Ok a', db2) →
  add_lease_row (new_lease_row q (lr_credential q) (as_authority_epoch a')) db2 = (Ok x', db3) →
  let lease := lease_from_row (new_lease_row q (lr_credential q) (as_authority_epoch a')) in
  ∃ r', issue_lease q r = (Ok lease, append_event "lease-issued" (issued_body lease) r') ∧ agree db3 r'.
Proof.
  intros Hr Ha He Hz Hsame ->%revoke_leases_Ok [-> ->]%advance_epoch_Ok [Hn ->]%add_lease_Ok. cbn in Hn.
  destruct (issue_lease_run q r Hr) as (d' & Hi & Hd); [done|apply (lease_absent _ db); [done|by eapply revoked_absent]|].
  exists (issued r q d'). split; [rewrite Hi; cbn; by rewrite He|]. cbn. rewrite He. apply (agree_issued db r q d' t reason t' Ha). intros k. rewrite Hd.
  destruct Hsame as [[-> ->]|Hact]; [done|]. by rewrite !(revoke_none _ _ _ _ _ (ri_lease r Hr) Hact).
Qed.

Lemma issue_lease_agrees uuid q db r x db' : repo_inv r → agree db r → sql_issue_lease uuid q db = (Ok x, db') →
  ∃ r', issue_lease q r = (Ok x, r') ∧ agree db' r'.
Proof.
  intros Hr Ha H. unfold sql_issue_lease in H. undo H. destruct x0 as [a f]. undo H. destruct (locked_state_run _ _ _ _ Ha H0) as (-> & He & Hf & _).
  cbn in He, Hf. bool_to_prop.
  destruct (issue_agrees _ _ _ _ _ _ _ _ _ _ _ _ _ Hr Ha He ltac:(congruence) (or_introl (conj eq_refl eq_refl)) H3 H4 H5) as (r' & Hi & Ha').
  apply append_audit_run in H6 as (rows & -> & Hrows); [|apply Ha']. eexists. split; [exact Hi|]. by apply agree_event.
Qed.

Lemma use_credential_inv i n r r' : use_credential i n r = (Ok (), r') → repo_inv r → repo_inv r'.
Proof. intros H Hr. assert (Hg := proj1 (use_credential_good i n r Hr)). by rewrite H in Hg. Qed.
Lemma consume_challenge_inv i d now r c r' : consume_challenge i d now r = (Ok c, r') → repo_inv r → repo_inv r'.
Proof. intros H Hr. assert (Hg := proj1 (consume_good i d now r Hr)). by rewrite H in Hg. Qed.

Lemma authentication_agrees uuid i d n q now db r x db' : repo_inv r → agree db r → lr_issued_at q = now →
  sql_complete_authentication uuid i d (lr_credential q) n q now db = (Ok x, db') →
  ∃ r', complete_authentication i d (lr_credential q) n q now r = (Ok x, r') ∧ agree db' r'.
Proof.
  intros Hr Ha Hnow H. unfold sql_complete_authentication in H. undo H. destruct x0 as [a f]. undo H. destruct (locked_state_run _ _ _ _ Ha H0) as (-> & He & Hf & _).
  cbn in He, Hf. bool_to_prop. destruct (consume_agrees _ _ _ _ _ _ _ Ha H2) as (Hc & Ha1 & _).
  destruct (use_credential_agrees _ _ _ _ _ _ Ha1 H4) as (r2 & Hu & Ha2 & (Se & _ & Sf & _)).
  apply (consume_challenge_inv _ _ _ _ _ _ Hc) in Hr as Hr1. apply (use_credential_inv _ _ _ _ Hu) in Hr1 as Hr2. cbn in Se, Sf.
  rewrite <- Se in He. rewrite <- Sf in Hf. rewrite H1 in Hf. symmetry in Hf.
  destruct (issue_agrees _ _ _ _ _ _ _ _ _ _ _ _ _ Hr2 Ha2 He Hf (or_introl (conj (eq_sym Hnow) eq_refl)) H5 H6 H7) as (r' & Hi & Ha').
  apply append_audit_run in H8 as (rows & -> & Hrows); [|apply Ha']. eexists. split; [|by apply agree_event].
  unfold complete_authentication. erewrite bind_run_Ok by exact Hc. by erewrite bind_run_Ok by exact Hu.
Qed.

(** Revoking the leases and lifting the freeze commute. *)
Lemma revoke_leases_freeze t reason db x db1 f : revoke_leases t reason db = (Ok x, db1) →
  revoke_leases t reason (set_freeze_row f db) = (Ok x, set_freeze_row f db1).
Proof. intros H. unfold revoke_leases in *. undo H. unfold constraint. by redo. Qed.

Lemma agree_unfrozen db r f : agree db r → gf_frozen f = false → gf_freeze_epoch f = r_freeze_epoch r →
  agree (set_freeze_row f db) (set_epochs (r_authority_epoch r) (r_freeze_epoch r) false r).
Proof. intros [] Hz He. split; try done. by exists f. Qed.

Lemma recovery_agrees uuid i d e n q rid now db r x db' : repo_inv r → agree db r →
  sql_complete_recovery uuid i d e (lr_credential q) n q rid now db = (Ok x, db') →
  ∃ r', complete_recovery i d e (lr_credential q) n q rid now r = (Ok x, r') ∧ agree db' r'.
Proof.
  intros Hr Ha H. unfold sql_complete_recovery in H. undo H. destruct x0 as [a f]. undo H. destruct (locked_state_run _ _ _ _ Ha H0) as (-> & He & Hf & Hfe).
  cbn in He, Hf, Hfe. destruct (consume_agrees _ _ _ _ _ _ _ Ha H1) as (Hc & Ha1 & _).
  destruct (use_credential_agrees _ _ _ _ _ _ Ha1 H4) as (r2 & Hu & Ha2 & (Se & Sfe & Sf & _)).
  apply (consume_challenge_inv _ _ _ _ _ _ Hc) in Hr as Hr1. apply (use_credential_inv _ _ _ _ Hu) in Hr1 as Hr2. cbn in Se, Sf, Sfe.
  apply write_freeze_Ok in H6 as ->. set (f' := mkFreezeRow _ _ _ _ _) in H7. apply (revoke_leases_freeze _ _ _ _ _ f') in H5.
  set (r3 := set_epochs (r_authority_epoch r2) (r_freeze_epoch r2) false r2).
  assert (Hr3 : repo_inv r3) by (apply (repo_unfreeze_good r2 Hr2)). assert (Ha3 : agree (set_freeze_row f' db2) r3) by (apply agree_unfrozen; [done|done|cbn; congruence]).
  assert (He3 : as_authority_epoch a = r_authority_epoch r3) by (cbn; congruence).
  assert (Hact : r_active r3 = None) by (apply (ri_frozen r2 Hr2); apply andb_true_iff in H3 as [H3 _]; cbn in H3; congruence).
  destruct (issue_agrees _ _ _ _ _ _ _ _ _ _ _ _ _ Hr3 Ha3 He3 eq_refl (or_intror Hact) H5 H7 H8) as (r' & Hi & Ha').
  apply append_audit_run in H9 as (rows & -> & Hrows); [|apply Ha']. eexists. split; [|apply agree_recovered; [exact Hrows|exact Ha']].
  unfold complete_recovery. erewrite bind_run_Ok by exact Hc. erewrite bind_run_Ok by (unfold check; cbn; by rewrite H2). erewrite bind_run_Ok by done.
  erewrite bind_run_Ok by (unfold check; cbn; by rewrite <- Hf, <- Hfe, H3). erewrite bind_run_Ok by exact Hu. erewrite bind_run_Ok by done.
  by erewrite bind_run_Ok by exact Hi.
Qed.

Lemma freeze_agrees uuid i reason now db r x db' : repo_inv r → agree db r → sql_freeze uuid i reason now db = (Ok x, db') →
  ∃ r', freeze i reason now r = (Ok x, r') ∧ agree db' r'.
Proof.
  intros Hr Ha H. unfold sql_freeze in H. undo H. destruct x0 as [a f]. destruct (locked_state_run _ _ _ _ Ha H0) as (-> & He & Hf & Hfe). cbn in He, Hf, Hfe.
  unfold freeze. erewrite bind_run_Ok by done. rewrite <- Hf. destruct (gf_frozen f) eqn:Ez; undo H.
  - exists r. split; [|done]. redo. by rewrite He, Hfe.
  - apply advance_epoch_Ok in H1 as [-> ->]. apply write_freeze_Ok in H2 as ->. apply revoke_leases_Ok in H3 as ->.
    apply append_audit_run in H4 as (rows & -> & Hrows); [|apply Ha]. cbn in Hrows. rewrite He, Hfe in *.
    set (r1 := set_epochs (r_authority_epoch r + 1) (r_freeze_epoch r + 1) true r).
    destruct (revoke_active_map _ r1 now reason (ri_lease r Hr)) as (d' & Hrev & Hd). eexists. split.
    + erewrite bind_run_Ok; [|erewrite bind_run_Ok by done; erewrite bind_run_Ok by exact Hrev; reflexivity]. done.
    + apply agree_event; [exact Hrows|done|].
      assert (Hl := leases_revoked now reason _ _ (ag_leases _ _ Ha)). destruct Ha. split; cbn; try done; [by eexists..| |by apply revoked_keys].
      intros k. by rewrite Hd, <- Hl.
Qed.

(** A repeated admission is answered with the identity and workflow of the first, under the lease and epoch the repetition
    names; in memory with the receipt of the first, marked as a duplicate. *)
Definition admission_agrees (q : AdmissionRequest) (p p' : AdmissionReceipt) : Prop :=
  p = if rc_duplicate p' then mkReceipt (rc_interaction p') (aq_epoch q) (aq_lease q) (rc_workflow p') true else p'.

Lemma admit_agrees q db r p db' : agree db r → sql_admit q db = (Ok p, db') →
  ∃ p' r', admit_interaction q r = (Ok p', r') ∧ admission_agrees q p p' ∧ agree db' r'.
Proof.
  intros Ha H. unfold sql_admit in H. undo H. destruct x as [a f]. destruct (locked_state_run _ _ _ _ Ha H0) as (-> & He & Hf & _). cbn in He, Hf. undo H.
  unfold admit_interaction. erewrite bind_run_Ok by done. pose proof (ag_interactions _ _ Ha (aq_interaction q)) as Hi.
  destruct (dget (aq_interaction q) (db_interactions db)) as [row|] eqn:Er; inversion Hi as [[digest p0] ? (Hd & Hid & Hdec & Hw & Hdup) E1 E2|E1]; subst.
  - cbn in Hd, Hid, Hw, Hdup. rewrite Hd in H. undo H. rewrite Hw in H. undo H. do 2 eexists. split; [redo; done|]. split; [|done]. unfold admission_agrees. cbn. by rewrite Hid.
  - undo H. pose proof (ag_leases _ _ Ha (aq_lease q)) as Hl. destruct (dget (aq_lease q) (db_leases db)) as [row|] eqn:El; [|undo H].
    cbn in Hl. undo H. apply add_interaction_Ok in H3 as ->. rewrite Hl.
    assert (Hauth : lease_authorizes r q (lease_from_row row) = true) by (unfold lease_authorizes; rewrite <- He; exact H2).
    do 2 eexists. split; [|split].
    + erewrite bind_run_Ok by (unfold check; by rewrite <- Hf, H1). erewrite bind_run_Ok by done. erewrite bind_run_Ok by (unfold check; by rewrite Hauth).
      by erewrite bind_run_Ok by done.
    + done.
    + destruct Ha. split; try done. intros k. cbn. rewrite !dget_dset. case_decide; [|done]. by constructor.
Qed.

Lemma active_lease_agrees db r x db' : repo_inv r → agree db r → sql_active_lease db = (Ok x, db') → active_lease r = (Ok x, r) ∧ db' = db.
Proof.
  intros Hr Ha H. unfold sql_active_lease in H. undo H.
  set (leb := λ a b : AuthorityLeaseRow, al_authority_epoch b <=? al_authority_epoch a) in H. set (rows := List.filter row_live (dvalues (db_leases db))) in H.
  assert (Hp := sort_by_Permutation leb rows).
  assert (Hin : ∀ k row, dget k (db_leases db) = Some row → al_revoked_at row = None → row ∈ rows).
  { intros k row Hk Hn. apply list_elem_of_In, filter_In. split; [by apply list_elem_of_In, (dget_value k)|]. unfold row_live. by rewrite bool_decide_true. }
  unfold active_lease. erewrite bind_run_Ok by done. destruct (sort_by leb rows) as [|row [|? ?]] eqn:Es; cbn in H; undo H.
  - split; [|done]. apply Permutation_nil in Hp. destruct (r_active r) as [i|] eqn:Ei; [|done].
    destruct (li_active _ _ _ (ri_lease r Hr) i Ei) as (l & Hl & Hn). pose proof (ag_leases _ _ Ha i) as Hag. rewrite Hl in Hag.
    destruct (dget i (db_leases db)) as [row|] eqn:E2; [|done]. injection Hag as ->.
    assert (Hbad := Hin i row E2 Hn). rewrite Hp in Hbad. by apply elem_of_nil in Hbad.
  - split; [|done]. assert (Hrow : row ∈ rows) by (rewrite <- Hp; set_solver). apply list_elem_of_In, filter_In in Hrow as [Hv Hlv]. apply list_elem_of_In in Hv.
    destruct (dvalues_dget row _ (ag_lease_keys _ _ Ha) Hv) as [k Hk]. unfold row_live in Hlv. apply bool_decide_eq_true in Hlv.
    pose proof (ag_leases _ _ Ha k) as Hag. rewrite Hk in Hag. cbn in Hag.
    rewrite (li_single _ _ _ (ri_lease r Hr) k _ Hag Hlv), Hag. erewrite bind_run_Ok by done. cbn. by rewrite bool_decide_true.
Qed.

Lemma live_row_current db r k row : agree db r → repo_inv r → dget k (db_leases db) = Some row → al_revoked_at row = None →
  r_active r = Some k ∧ al_authority_epoch row = r_authority_epoch r ∧ r_frozen r = false.
Proof.
  intros Ha Hr Hk Hn. pose proof (ag_leases _ _ Ha k) as Hag. rewrite Hk in Hag. cbn in Hag.
  assert (Hact := li_single _ _ _ (ri_lease r Hr) k _ Hag Hn). split_and!; [done| |].
  - exact (ri_current r Hr k _ Hact Hag).
  - destruct (r_frozen r) eqn:Ef; [|done]. apply (ri_frozen r Hr) in Ef. congruence.
Qed.

(** ** The refinement *)

Section Refinement.
Context (scan : list WebAuthnCredentialRow → list WebAuthnCredentialRow).

(** A call of the protocol on the database; [uuid] is drawn for the audit event it may write. *)
Definition sql_run {A} (uuid : string) (c : Call A) : Tx A :=
  match c with
  | CreateChallenge c => sql_create_challenge c
  | ConsumeChallenge i d now => sql_consume_challenge i d now
  | GetChallenge i => sql_get_challenge i
  | ListCredentials => sql_list_credentials scan
  | CredentialCount => sql_credential_count
  | GetCredential i => sql_get_credential i
  | CompleteRegistration i d c now => sql_complete_registration uuid i d c now
  | IssueLease q => sql_issue_lease uuid q
  | CompleteAuthentication i d cid n q now => sql_complete_authentication uuid i d cid n q now
  | CompleteRecovery i d f cid n q rid now => sql_complete_recovery uuid i d f cid n q rid now
  | Admit q => sql_admit q
  | Freeze i reason now => sql_freeze uuid i reason now
  | FreezeStateOf => sql_freeze_state
  | ActiveLease => sql_active_lease
  end.

(** The lease of an assertion is asked for the credential that was asserted and, when it replaces another, as issued at the
    time of the call: as the WebAuthn service does, which makes the request from the same [now] and verified credential. *)
Definition own_request {A} (c : Call A) : Prop :=
  match c with
  | CompleteAuthentication _ _ cid _ q now => lr_credential q = cid ∧ lr_issued_at q = now
  | CompleteRecovery _ _ _ cid _ q _ _ => lr_credential q = cid
  | _ => True
  end.

Definition answers_agree {A} (c : Call A) : A → A → Prop :=
  match c in Call A return A → A → Prop with
  | Admit q => admission_agrees q
  | ListCredentials => λ l l', l ≡ₚ l'
  | _ => eq
  end.

Lemma run_keeps {A} (c : Call A) r : repo_inv r → repo_inv (final (run c r)).
Proof.
  intros Hr.
  destruct c; cbn [run]; try done;
    try (eapply step_good; [|exact Hr]; constructor).
  - unfold get_credential. erewrite bind_run_Ok by done. unfold some_or, mbind, st_bind. destruct (require_some _ _); [|done]. unfold check. by destruct (ensure _ _).
  - pose proof (active_lease_run r) as H. unfold final. destruct (active_lease r) as [? ?]. by destruct H as [-> _].
Qed.

(** A call that raises leaves the database as it was. *)
Lemma sql_run_Err {A} uuid (c : Call A) db e db' : sql_run uuid c db = (Err e, db') → db' = db.
Proof.
  destruct c; cbn [sql_run]; try apply transaction_Err; intros H.
  - unfold sql_get_challenge, refuse in H. py_unfold. destruct (dget _ _); [|naive_solver]. unfold challenge_from_row, construct in H. by case_match; naive_solver.
  - unfold sql_list_credentials in H. py_unfold. revert e H. generalize (scan (List.filter credential_live (dvalues (db_credentials db)))) as rows.
    induction rows as [|row rows IH]; intros e H; cbn in H; [done|]. py_unfold. unfold credential_from_row, construct in H.
    destruct (make_credential _); [|naive_solver]. destruct (credentials_from_rows rows db) as [[|] ?]; [done|]. simplify_eq. by eapply IH.
  - done.
  - unfold sql_get_credential, refuse in H. py_unfold. destruct (dget _ _) as [row|]; [|naive_solver]. unfold demand, check, credential_from_row, construct in H.
    destruct (ensure _ _); [|naive_solver]. case_match; naive_solver.
  - unfold sql_freeze_state, locked_state, refuse in H. py_unfold. destruct (db_authority db); [|naive_solver]. destruct (db_freeze db); naive_solver.
  - unfold sql_active_lease, refuse in H. py_unfold. by repeat case_match; naive_solver.
Qed.

Context (scan_permutes : ∀ rows, scan rows ≡ₚ rows).

(** One call: what returns in the database returns in memory, and what raises changes nothing. *)
Lemma sql_step_agrees {A} uuid (c : Call A) db r : repo_inv r → agree db r → own_request c →
  match sql_run uuid c db with
  | (Ok a, db') => ∃ a' r', run c r = (Ok a', r') ∧ answers_agree c a a' ∧ agree db' r'
  | (Err _, db') => db' = db
  end.
Proof.
  intros Hr Ha Hown. destruct (sql_run uuid c db) as [[a|e] db'] eqn:H.
  - destruct c; cbn [sql_run run answers_agree own_request] in *.
    + destruct a. destruct (create_challenge_agrees _ _ _ _ Ha H) as (r' & Hr' & Ha'). by do 2 eexists.
    + unfold sql_consume_challenge in H. undo H. destruct (consume_agrees _ _ _ _ _ _ _ Ha H0) as (Hc & Ha' & _). unfold challenge_from_row in H. undo H.
      apply challenge_unchanged in H as ->. by do 2 eexists.
    + destruct (get_challenge_agrees _ _ _ _ _ Ha H) as [Hg ->]. by do 2 eexists.
    + unfold sql_list_credentials in H. undo H. apply credentials_from_rows_Ok in H as [-> ->]. do 2 eexists. split; [done|]. split; [|done].
      rewrite (ag_credentials _ _ Ha), live_rows. apply Permutation_map, scan_permutes.
    + unfold sql_credential_count in H. undo H. do 2 eexists. split; [done|]. split; [|done].
      rewrite (ag_credentials _ _ Ha), live_rows. by rewrite length_map.
    + destruct (get_credential_agrees _ _ _ _ _ Ha H) as [Hg ->]. by do 2 eexists.
    + destruct (registration_agrees _ _ _ _ _ _ _ _ _ Ha H) as (r' & Hr' & Ha'). by do 2 eexists.
    + destruct (issue_lease_agrees _ _ _ _ _ _ Hr Ha H) as (r' & Hr' & Ha'). by do 2 eexists.
    + destruct Hown as [<- Hnow]. destruct (authentication_agrees _ _ _ _ _ _ _ _ _ _ Hr Ha Hnow H) as (r' & Hr' & Ha'). by do 2 eexists.
    + subst. destruct (recovery_agrees _ _ _ _ _ _ _ _ _ _ _ _ Hr Ha H) as (r' & Hr' & Ha'). by do 2 eexists.
    + destruct (admit_agrees _ _ _ _ _ Ha H) as (p' & r' & Hr' & Hp & Ha'). by exists p', r'.
    + destruct (freeze_agrees _ _ _ _ _ _ _ _ Hr Ha H) as (r' & Hr' & Ha'). by do 2 eexists.
    + unfold sql_freeze_state in H. undo H. destruct x as [s f]. destruct (locked_state_run _ _ _ _ Ha H0) as (-> & He & Hf & Hfe). cbn in *. undo H.
      do 2 eexists. split; [done|]. split; [|done]. by rewrite He, Hf, Hfe.
    + destruct (active_lease_agrees _ _ _ _ Hr Ha H) as [Hg ->]. by do 2 eexists.
  - by eapply sql_run_Err.
Qed.

(** ** Histories *)

(** The database after calls with their audit identities, and the calls that returned. *)
Fixpoint sql_history (h : list (string * {A & Call A})) (db : Database) : Database * list {A & Call A} :=
  match h with
  | [] => (db, [])
  | (uuid, existT _ c) :: h =>
      let p := sql_run uuid c db in
      let q := sql_history h (final p) in
      (q.1, if is_ok (outcome p) then existT _ c :: q.2 else q.2)
  end.

Lemma history_agrees h db r : Forall (λ p, own_request (projT2 p.2)) h → repo_inv r → agree db r →
  let q := sql_history h db in repo_inv (history q.2 r) ∧ agree q.1 (history q.2 r).
Proof.
  intros Hh. revert db r. induction Hh as [|[uuid [A c]] h Hc Hh IH]; intros db r Hr Ha; [done|]. cbn [sql_history].
  pose proof (sql_step_agrees uuid c db r Hr Ha Hc) as Hs. unfold final, outcome. destruct (sql_run uuid c db) as [[a|e] db'] eqn:E; cbn [fst snd is_ok].
  - destruct Hs as (a' & r' & Hr' & _ & Ha'). cbn [history]. rewrite Hr'. apply IH; [|done]. assert (Hk := run_keeps c r Hr). by rewrite Hr' in Hk.
  - subst db'. by apply IH.
Qed.

Lemma initialize_agrees now : agree (final (initialize now empty_database)) empty_repo.
Proof. split; cbn; try done; [by eexists|by eexists|apply NoDup_nil; done|constructor]. Qed.

(** C9. The SQL authority repository of production refines the in-memory one, for callers that ask for the lease of an
    assertion as the WebAuthn service does (for the asserted credential, issued at the time of the call). After any calls on a
    freshly initialized database, its tables agree with the in-memory repository on which exactly the calls that returned were
    made: the same epochs and freeze, challenges, credentials, leases with their revocation times and reasons, and accepted
    interactions. At most one lease row is live, it carries the current epoch, and none is live while frozen. The exported audit
    events verify, and say what those in memory say but for the "lease-issued" of a recovery, which only memory writes. A further
    call that returns, returns the same in memory and leaves the two in agreement, except that credentials are listed in any
    order and that a repeated admission is answered under the lease and epoch it names. One that raises leaves the database as
    it was (in memory it may have spent a challenge). *)
Theorem sql_refines_memory {A} (h : list (string * {A & Call A})) now uuid (c : Call A) :
  Forall (λ p, own_request (projT2 p.2)) h → own_request c →
  let q := sql_history h (final (initialize now empty_database)) in
  let r := history q.2 empty_repo in
  agree q.1 r ∧
  (∀ k row, dget k (db_leases q.1) = Some row → al_revoked_at row = None → r_active r = Some k ∧ al_authority_epoch row = r_authority_epoch r ∧ r_frozen r = false) ∧
  (∃ events, sql_audit_events q.1 = (Ok events, q.1) ∧ repo_verify_audit_chain events = true ∧ trail events = recovery_once (trail (r_audit r))) ∧
  match sql_run uuid c q.1 with
  | (Ok a, db') => ∃ a' r', run c r = (Ok a', r') ∧ answers_agree c a a' ∧ agree db' r'
  | (Err _, db') => db' = q.1
  end.
Proof.
  intros Hh Hc q r. destruct (history_agrees h _ _ Hh empty_inv (initialize_agrees now)) as [Hr Ha]. fold q in Hr, Ha. fold r in Hr, Ha. split_and!.
  - done.
  - intros k row Hk Hn. by apply (live_row_current q.1).
  - eexists. split; [done|]. rewrite sort_by_id; [split; apply Ha|]. eapply verified_ordered, Ha.
  - by apply sql_step_agrees.
Qed.
End Refinement.

(** * The SQL repository on concrete calls: a run of the refinement theorem, and the places where it answers differently from the in-memory repository *)

Definition digest_of (c : ascii) : string := String.concat "" (repeat (String c "") 32).

Definition challenge (i purpose : string) (c : ascii) : Challenge :=
  mkChallenge i (digest_of c) (digest_of c) purpose "jerry" (digest_of c) None 0 (minutes 5) None.
Definition request (i : string) (now : datetime) : LeaseRequest := mkLeaseRequest i "jerry" "guild" (digest_of "x") "cred" now (hours 12).

(** Enrollment, a lease, an admission, a freeze. *)
Definition sql_calls : list (string * {A & Call A}) :=
  [("", existT _ (CreateChallenge (challenge "c0" "bootstrap-registration" "a")));
   ("", existT _ (CreateChallenge (challenge "c1" "lease" "b")));
   ("", existT _ (CreateChallenge (challenge "c2" "recovery" "c")));
   ("e1", existT _ (CompleteRegistration "c0" (digest_of "a") (mkCredential "cred" "jerry" "pk" 0 0 None) (seconds 1)));
   ("e2", existT _ (CompleteAuthentication "c1" (digest_of "b") "cred" 1 (request "lease-1" (seconds 2)) (seconds 2)));
   ("e3", existT _ (CompleteAuthentication "c1" (digest_of "b") "cred" 2 (request "lease-2" (seconds 3)) (seconds 3)));
   ("", existT _ (Admit (mkAdmission "i1" (digest_of "d") "jerry" "guild" (digest_of "x") "lease-1" 2 (seconds 4))));
   ("e4", existT _ (Freeze "req" "operator-request" (seconds 5)))].

(** A database that returns the newest rows first. *)
Definition newest_first (rows : list WebAuthnCredentialRow) : list WebAuthnCredentialRow := reverse rows.
Lemma newest_first_permutes rows : newest_first rows ≡ₚ rows.
Proof. apply reverse_Permutation. Qed.

Definition sql_recovery : Call RecoveryReceipt := CompleteRecovery "c2" (digest_of "c") 2 "cred" 2 (request "lease-3" (seconds 6)) "rec-1" (seconds 6).
Definition sql_db : Database := (sql_history newest_first sql_calls (final (initialize 0 empty_database))).1.
Definition sql_db2 : Database := final (sql_run newest_first "e5" sql_recovery sql_db).


(** Seven of the eight calls return, the repeated assertion is refused, and the recovery that follows returns in both. *)
Lemma sql_refines_memory_witness :
  length (sql_history newest_first sql_calls (final (initialize 0 empty_database))).2 = 7%nat ∧
  is_ok (outcome (sql_run newest_first "e5" sql_recovery sql_db)) = true ∧
  agree sql_db (history (sql_history newest_first sql_calls (final (initialize 0 empty_database))).2 empty_repo).
Proof.
  split; [vm_compute; reflexivity|]. split; [vm_compute; reflexivity|].
  assert (Hh : Forall (λ p, own_request (projT2 p.2)) sql_calls) by repeat constructor.
  exact (proj1 (sql_refines_memory newest_first newest_first_permutes sql_calls 0 "e5" sql_recovery Hh eq_refl)).
Defined.

(** A failed assertion leaves its challenge open in the database; in memory it is spent. *)
Example failed_assertion_keeps_challenge :
  let db := (sql_history newest_first (take 4 sql_calls) (final (initialize 0 empty_database))).1 in
  let r := history (sql_history newest_first (take 4 sql_calls) (final (initialize 0 empty_database))).2 empty_repo in
  let failed := CompleteAuthentication "c1" (digest_of "b") "other" 1 (request "lease-1" (seconds 2)) (seconds 2) in
  let next := CompleteAuthentication "c1" (digest_of "b") "cred" 1 (request "lease-1" (seconds 2)) (seconds 2) in
  is_ok (outcome (sql_run newest_first "e9" next (final (sql_run newest_first "e9" failed db)))) = true ∧
  outcome (run next (final (run failed r))) = Err (ChallengeConsumed "challenge was already consumed").
Proof. vm_compute. split; reflexivity. Qed.

(** A recovery writes one audit event in the database and two in memory. *)
Example recovery_audit_differs :
  let r := history (sql_history newest_first sql_calls (final (initialize 0 empty_database))).2 empty_repo in
  map ae_type <$> outcome (sql_audit_events sql_db2) = Ok ["credential-enrolled"; "lease-issued"; "authority-frozen"; "authority-recovered"] ∧
  map ae_type (r_audit (final (run sql_recovery r))) = ["credential-enrolled"; "lease-issued"; "authority-frozen"; "lease-issued"; "authority-recovered"].
Proof. vm_compute. split; reflexivity. Qed.

(** A repeated admission is answered with the epoch and lease the repetition names. *)
Example repeated_admission_names_its_lease :
  outcome (sql_admit (mkAdmission "i1" (digest_of "d") "jerry" "guild" (digest_of "x") "any" 9 (seconds 9)) sql_db2) = Ok (mkReceipt "i1" 9 "any" "discord-i1" true).
Proof. vm_compute. reflexivity. Qed.
