(* ===== verification/NodeApprovals.v ===== *)
(** Approvals for node mutations (src/olympus/authority/node_approvals.py) and
    the [ApprovalVerifier] protocol the node registry is given
    (src/olympus/nodes/scopes.py).

    Signing and verification come from a third-party package and are
    parameters; the fresh approval identifier is an argument. *)

From S2P Require Import Prelude PyDict PyTime Json Sha256 NodeModels NodeScopes Authorization AuthorityRepository.
From stdpp Require Import gmap.

Open Scope Z_scope.

(** ** The interface *)

(** What a caller passes as an approval: one, or any other object. *)
Inductive AnyApproval := AnApproval (a : Approval) | OtherObject.

(** [ApprovalVerifier.verify], on the mutable state [V] of the verifier. *)
Class ApprovalVerifier (V : Type) : Type :=
  av_verify : string → AnyApproval → datetime → St V exn ().

(** What the protocol promises: a refusal is an [ApprovalDenied] and leaves no
    trace; an acceptance means the approval names this digest, is within its
    window, is authentic and was not spent, and spends it for good. *)
Class ApprovalVerifierLaws (V : Type) `{ApprovalVerifier V} : Type := {
  av_spent : V → string → Prop;
  av_authentic : V → Approval → Prop;
  av_refuses : ∀ d x now v e v', av_verify d x now v = (Err e, v') → v' = v ∧ ∃ msg, e = ApprovalDenied msg;
  av_accepts : ∀ d x now v v', av_verify d x now v = (Ok (), v') →
    ∃ a, x = AnApproval a ∧ ap_digest a = d ∧ ap_issued_at a ≤ now < ap_expires_at a ∧
         av_authentic v a ∧ ¬ av_spent v (ap_id a) ∧ av_spent v' (ap_id a);
  av_spent_mono : ∀ d x now v i, av_spent v i → av_spent (final (av_verify d x now v)) i }.

(** ** Issuing *)

Definition DEFAULT_APPROVAL_TTL : Z := minutes 5.
Definition MAX_APPROVAL_TTL : Z := minutes 15.

Record IssuedApproval := mkIssued { ia_approval : Approval; ia_lease_id : string; ia_authority_epoch : Z }.

Record Issuer := mkIssuer { is_signing_key : string; is_signer_id : string; is_ttl : Z }.

(** [NodeApprovalIssuer.__init__] *)
Definition make_issuer (signing_key signer_id : string) (ttl : Z) : result exn Issuer :=
  ensure (negb ((ttl <=? 0) || (MAX_APPROVAL_TTL <? ttl)))
    (ValueError "approval ttl must be positive and at most 0:15:00");;
  Ok (mkIssuer signing_key signer_id ttl).

(** An [Approval(...)] call inside the mesh. *)
Definition approval_of (a : Approval) : result exn Approval :=
  match make_approval a with
  | Ok a => Ok a
  | Err (AuthValueError m) | Err (AuthorizationDenied m) => Err (ValueError m)
  end.

Section Signing.
Context (ed_sign : string → string → string).

(** [NodeApprovalIssuer.issue] *)
Definition issue (i : Issuer) (approval_id action_digest : string) (lease : option AuthorityLease)
    (now : datetime) (frozen : bool) : result exn IssuedApproval :=
  ensure (str_len action_digest =? 64) (ApprovalDenied "action_digest must be a SHA-256 hex digest");;
  ensure (negb frozen) (ApprovalDenied "the system is frozen; no node mutation may be approved");;
  l ← require_some lease (ApprovalDenied "a Face ID lease is required to approve a node mutation");
  ensure (bool_decide (l_revoked_at l = None)) (ApprovalDenied "the lease backing this approval was revoked");;
  ensure (negb ((now <? l_issued_at l) || (l_expires_at l <=? now)))
    (ApprovalDenied "the lease backing this approval is not currently valid");;
  let expires_at := Z.min (now + is_ttl i) (l_expires_at l) in
  unsigned ← approval_of (mkApproval approval_id action_digest now expires_at (is_signer_id i) (zero_bytes 1));
  let signature := ed_sign (is_signing_key i) (approval_bytes unsigned) in
  approval ← approval_of (mkApproval approval_id action_digest now expires_at (is_signer_id i) signature);
  Ok (mkIssued approval (l_id l) (l_epoch l)).
End Signing.

(** ** Verifying *)

Record Verifier := mkVerifier { v_keys : dict string string; v_spent : gset string }.

(** [NodeApprovalVerifier.__init__] *)
Definition make_verifier (keys : dict string string) : result exn Verifier :=
  ensure (negb (bool_decide (keys = []))) (ValueError "at least one approval verification key is required");;
  Ok (mkVerifier keys ∅).

Section Verifying.
Context (ed_verify : string → string → string → bool).

(** [NodeApprovalVerifier.verify] *)
Definition verify (action_digest : string) (approval : AnyApproval) (now : datetime) : St Verifier exn () :=
  match approval with
  | OtherObject => raise (ApprovalDenied "approval is not an approval")
  | AnApproval a =>
      check (bool_decide (ap_digest a = action_digest)) (ApprovalDenied "approval does not match this action");;
      v ← read;
      key ← some_or (dget (ap_signer a) (v_keys v))
              (ApprovalDenied (ap_signer a +:+ " is not a trusted approval signer"));
      check (ed_verify key (approval_bytes a) (ap_signature a)) (ApprovalDenied "approval signature is invalid");;
      check (negb ((now <? ap_issued_at a) || (ap_expires_at a <=? now)))
        (ApprovalDenied "approval is not currently valid");;
      check (bool_decide (ap_id a ∉ v_spent v)) (ApprovalDenied "approval was already used");;
      modify (λ v, mkVerifier (v_keys v) ({[ap_id a]} ∪ v_spent v))
  end.

#[local] Instance node_verifier : ApprovalVerifier Verifier := verify.

Lemma verify_cases d x now v :
  match verify d x now v with
  | (Err e, v') => v' = v ∧ ∃ msg, e = ApprovalDenied msg
  | (Ok _, v') => ∃ a key, x = AnApproval a ∧ ap_digest a = d ∧ dget (ap_signer a) (v_keys v) = Some key ∧
      ed_verify key (approval_bytes a) (ap_signature a) = true ∧ ap_issued_at a ≤ now < ap_expires_at a ∧
      ap_id a ∉ v_spent v ∧ v' = mkVerifier (v_keys v) ({[ap_id a]} ∪ v_spent v)
  end.
Proof.
  unfold verify. destruct x as [a|]; [|by py_unfold; eauto]. py_unfold.
  destruct (bool_decide (ap_digest a = d)) eqn:E1; simpl; [|by eauto].
  destruct (dget (ap_signer a) (v_keys v)) as [key|] eqn:E2; simpl; [|by eauto].
  destruct (ed_verify key _ _) eqn:E3; simpl; [|by eauto].
  destruct (negb _) eqn:E4; simpl; [|by eauto].
  destruct (bool_decide (ap_id a ∉ v_spent v)) eqn:E5; simpl; [|by eauto].
  bool_to_prop. exists a, key. split_and!; try done.
Qed.

(** The verifier keeps the promises of the protocol. *)
#[local] Instance node_verifier_laws : ApprovalVerifierLaws Verifier.
Proof.
  refine {| av_spent := λ v i, i ∈ v_spent v;
            av_authentic := λ v a, ∃ key, dget (ap_signer a) (v_keys v) = Some key ∧
                              ed_verify key (approval_bytes a) (ap_signature a) = true |}.
  - intros d x now v e v' E. assert (H := verify_cases d x now v).
    change (av_verify d x now v) with (verify d x now v) in E. rewrite E in H. done.
  - intros d x now v v' E. assert (H := verify_cases d x now v).
    change (av_verify d x now v) with (verify d x now v) in E. rewrite E in H.
    destruct H as (a & key & -> & Hd & Hk & Hv & Hw & Hn & ->). exists a. split_and!; eauto; simpl; set_solver.
  - intros d x now v i Hi. assert (H := verify_cases d x now v).
    change (av_verify d x now v) with (verify d x now v).
    destruct (verify d x now v) as [[[]|e] v']; simpl.
    + destruct H as (a & key & _ & _ & _ & _ & _ & _ & ->). simpl. set_solver.
    + destruct H as [-> _]. done.
Defined.
End Verifying.

(** [node_write_action_digest_from_content] *)
Definition node_write_action_digest_from_content (node_id path content : string) (overwrite : bool) :
    result exn string :=
  file_write_action_digest node_id path (sha256_hex content) (str_len content)
    (if overwrite then OVERWRITE else CREATE).

(** ** What an issued approval is worth *)

Lemma approval_of_Ok a a' : approval_of a = Ok a' → a' = a ∧ ap_issued_at a < ap_expires_at a.
Proof.
  unfold approval_of, make_approval, ensure, mbind, result_bind. intros H.
  repeat case_match; simplify_eq/=. bool_to_prop. done.
Qed.

Lemma issue_Ok ed_sign i aid d lease now frozen out :
  issue ed_sign i aid d lease now frozen = Ok out →
  frozen = false ∧ str_len d = 64 ∧
  ∃ l, lease = Some l ∧ l_revoked_at l = None ∧ l_issued_at l ≤ now < l_expires_at l ∧
    ia_lease_id out = l_id l ∧ ia_authority_epoch out = l_epoch l ∧
    let a := ia_approval out in
    ap_id a = aid ∧ ap_digest a = d ∧ ap_issued_at a = now ∧ ap_signer a = is_signer_id i ∧
    ap_expires_at a = Z.min (now + is_ttl i) (l_expires_at l) ∧ now < ap_expires_at a ∧
    ap_signature a = ed_sign (is_signing_key i) (approval_bytes a).
Proof.
  unfold issue. intros (? & H1%ensure_Ok & H)%bind_Ok. apply bind_Ok in H as (? & H2%ensure_Ok & H).
  apply bind_Ok in H as (l & Hl & H). destruct lease as [l0|]; simpl in Hl; simplify_eq.
  apply bind_Ok in H as (? & H3%ensure_Ok & H). apply bind_Ok in H as (? & H4%ensure_Ok & H).
  apply bind_Ok in H as (u & [-> _]%approval_of_Ok & H).
  apply bind_Ok in H as (a & [-> Hlt]%approval_of_Ok & H). simplify_eq/=. bool_to_prop.
  split_and!; [by destruct frozen|done|]. exists l. split_and!; done.
Qed.

(** From lease to receipt: an approval is issued only against a live lease
    while the system is not frozen; it names exactly the requested action digest,
    never outlives the lease nor fifteen minutes; and the verifier that trusts
    the issuer's public key accepts it for that digest throughout its window,
    once: afterwards the same approval is refused. *)
Theorem issued_approval_roundtrip ed_sign ed_verify ed_public key signer ttl i aid d lease now frozen out v t t' :
  (∀ sk m, ed_verify (ed_public sk) m (ed_sign sk m) = true) →
  make_issuer key signer ttl = Ok i →
  issue ed_sign i aid d lease now frozen = Ok out →
  dget signer (v_keys v) = Some (ed_public key) → aid ∉ v_spent v →
  let a := ia_approval out in
  now ≤ t < ap_expires_at a →
  frozen = false ∧
  (∃ l, lease = Some l ∧ l_revoked_at l = None ∧ l_issued_at l ≤ now < l_expires_at l ∧
        ap_expires_at a ≤ l_expires_at l ∧ ap_expires_at a ≤ now + MAX_APPROVAL_TTL) ∧
  outcome (verify ed_verify d (AnApproval a) t v) = Ok () ∧
  is_ok (outcome (verify ed_verify d (AnApproval a) t' (final (verify ed_verify d (AnApproval a) t v)))) = false.
Proof.
  intros Hsig Hi Ho Hk Hns a Ht. unfold make_issuer in Hi. apply bind_Ok in Hi as (? & Httl%ensure_Ok & [= <-]).
  apply issue_Ok in Ho as (Hf & Hlen & l & Hl & Hr & Hw & Hid & Hep & Ha & Hd & His & Hsi & Hex & Hlt & Hsg).
  fold a in Ha, Hd, His, Hsi, Hex, Hlt, Hsg. cbn [is_signer_id is_ttl is_signing_key] in *. bool_to_prop.
  clearbody a.
  assert (Hv : verify ed_verify d (AnApproval a) t v =
    (Ok (), mkVerifier (v_keys v) ({[ap_id a]} ∪ v_spent v))).
  { unfold verify. py_unfold. rewrite Hsi, Hk, Hsg. simpl. rewrite Hsig. simpl.
    rewrite (bool_decide_true (ap_digest a = d)) by done. simpl.
    replace ((t <? ap_issued_at a) || (ap_expires_at a <=? t)) with false
      by (symmetry; apply orb_false_iff; split; [apply Z.ltb_ge|apply Z.leb_gt]; lia).
    simpl. by rewrite bool_decide_true by (by rewrite Ha). }
  rewrite Hv. split_and!; [done| |done|].
  - exists l. split_and!; try done; lia.
  - unfold final. cbn [snd]. set (v1 := mkVerifier _ _).
    assert (Hc := verify_cases ed_verify d (AnApproval a) t' v1).
    destruct (verify ed_verify d (AnApproval a) t' v1) as [[[]|e] v'] eqn:E; [exfalso|done].
    destruct Hc as (a0 & k & [= <-] & _ & _ & _ & _ & Hn & _). simpl in Hn. set_solver.
Qed.

Definition sample_lease : AuthorityLease :=
  mkLease "lease-1" 2 "jerry" "guild" "scope" "cred" 0 (hours 1) None None.
Definition sample_digest : string := "0123456789abcdef0123456789abcdef0123456789abcdef0123456789abcdef".

Lemma issued_approval_roundtrip_witness :
  let sgn := λ sk (m : string), "s" +:+ sk in
  let vrf := λ pk (m s : string), bool_decide (s = "s" +:+ pk) in
  let v := mkVerifier [("signer", "k")] ∅ in
  ∃ out, issue sgn (mkIssuer "k" "signer" (minutes 5)) "ap-1" sample_digest (Some sample_lease) (seconds 9) false =
           Ok out ∧
         outcome (verify vrf sample_digest (AnApproval (ia_approval out)) (seconds 10) v) = Ok ().
Proof.
  intros sgn vrf v. eexists. split; [reflexivity|].
  apply (issued_approval_roundtrip sgn vrf (λ k, k) "k" "signer" (minutes 5) (mkIssuer "k" "signer" (minutes 5))
    "ap-1" sample_digest (Some sample_lease) (seconds 9) false _ v (seconds 10) (seconds 11));
    [|reflexivity|reflexivity|reflexivity|set_solver|].
  - intros sk m. apply bool_decide_refl.
  - vm_compute. split; congruence.
Defined.
