(* ===== verification/NodeRegistry.v ===== *)
(** The node registry (src/olympus/nodes/registry.py): enrollment, sessions and
    heartbeats, restart recovery, node lifecycle, the dispatch kill switch and
    dispatch admission.

    Clock readings, the bytes of fresh secrets and fresh identifiers are
    arguments; [stamp] gives the clock reading and identifier of each audit
    event; [ed_key_ok] is the key check of the Ed25519 package. *)

From S2P Require Import Prelude PyDict PyTime Json JsonParse Sha256 NodeModels NodeScopes NodeAudit NodeStore.
From S2P Require Import NodeCrypto Authorization NodeApprovals.

Open Scope Z_scope.

Definition DEFAULT_ENROLLMENT_TTL_SECONDS : Z := 900.
Definition MAX_ENROLLMENT_TTL_SECONDS : Z := 3600.
Definition MIN_ENROLLMENT_TTL_SECONDS : Z := 60.
Definition MAX_LABELS : nat := 16.
Definition RESTART_REASON : string := "control-plane-restart".

(** ** Data *)

Record NodeDescription := mkDescription {
  nd_node_name : string;
  nd_kind : NodeKind;
  nd_platform : NodePlatform;
  nd_architecture : string;
  nd_agent_version : string;
  nd_declared : list string;
  nd_labels : list (string * string) }.

(** [NodeDescription.__post_init__] *)
Definition make_description (d : NodeDescription) : result exn NodeDescription :=
  ensure (negb (is_blank (nd_node_name d) || is_blank (nd_architecture d) || is_blank (nd_agent_version d)))
    (NodeMeshError ENROLLMENT_DESCRIPTION_INVALID);;
  ensure (length (nd_labels d) <=? MAX_LABELS)%nat (NodeMeshError ENROLLMENT_DESCRIPTION_INVALID);;
  Ok d.

Record IssuedEnrollment := mkIssuedEnrollment {
  ie_token_id : string;
  ie_presented : string;
  ie_node_name : string;
  ie_kind : NodeKind;
  ie_platform : NodePlatform;
  ie_granted : list string;
  ie_issued_at : datetime;
  ie_expires_at : datetime;
  ie_scopes : scope_pairs }.

Record RecoveryReport := mkReport {
  rp_sessions_cleared : list string;
  rp_jobs_reconciled : list string;
  rp_frozen : bool;
  rp_freeze_epoch : Z }.

Definition report_changed (r : RecoveryReport) : bool :=
  negb (bool_decide (rp_sessions_cleared r = [] ∧ rp_jobs_reconciled r = [])).

Record NodeView := mkView {
  nv_record : NodeRecord;
  nv_state : NodeState;
  nv_connected : bool;
  nv_effective : list string;
  nv_heartbeat_age : option Z }.

(** [NodeRegistry.__init__]'s intervals, in seconds. *)
Record Config := mkConfig { cfg_interval : Z; cfg_expiry : Z; cfg_enrollment_ttl : Z }.
Definition make_config (interval expiry ttl : Z) : result exn Config :=
  ensure (interval <? expiry) (ValueError "heartbeat expiry must exceed the heartbeat interval");;
  Ok (mkConfig interval expiry ttl).

(** ** Scopes as stored *)

(** [_encode_scopes] *)
Fixpoint encode_scope_items (scopes : dict string obj) (platform : NodePlatform) : result exn scope_pairs :=
  match scopes with
  | [] => Ok []
  | (capability, payload) :: scopes' =>
      if requires_scope capability then
        s ← build_scope capability payload platform;
        rest ← encode_scope_items scopes' platform;
        Ok ((capability, dumps (JObj (scope_to_mapping s))) :: rest)
      else Err (NodeMeshError CAPABILITY_NOT_GRANTED)
  end.
Definition encode_scopes (scopes : dict string obj) (platform : NodePlatform) : result exn scope_pairs :=
  sort_keys <$> encode_scope_items scopes platform.

(** [_decode_scopes] *)
Fixpoint decode_scopes (pairs : scope_pairs) (acc : dict string json) : result exn (dict string json) :=
  match pairs with
  | [] => Ok acc
  | (capability, body) :: pairs' =>
      j ← require_some (loads body) (ValueError "scope is not JSON");
      decode_scopes pairs' (dset capability j acc)
  end.

(** [scopes_of] *)
Definition scopes_of (n : NodeRecord) : result exn (dict string Scope) :=
  d ← decode_scopes (n_scopes n) []; parse_scopes d (n_platform n).

(** [labels_from_mapping] *)
Definition labels_from_mapping (labels : dict string string) : list (string * string) := sort_keys labels.

(** ** Derived views *)

Definition strs (l : list string) : json := JList (map JStr l).

Definition effective_capabilities (n : NodeRecord) : list string :=
  sorted_set (filter (λ c, c ∈ n_declared n ∧ is_dispatchable c = true) (n_granted n)).

Definition active_jobs (n : NodeRecord) : Z :=
  match n_last_health n with Some h => h_active_jobs h | None => 0 end.

Definition state_of (cfg : Config) (n : NodeRecord) (now : datetime) : NodeState :=
  if is_some (n_revoked_at n) then ST_REVOKED
  else if is_some (n_quarantined_at n) then ST_QUARANTINED
  else match n_session_id n, n_last_heartbeat_at n with
       | Some _, Some hb => if now - hb <=? seconds (cfg_expiry cfg) then ST_ONLINE else ST_OFFLINE
       | _, Some _ => ST_OFFLINE
       | _, None => ST_PENDING
       end.

Definition view_of (cfg : Config) (n : NodeRecord) (now : datetime) : NodeView :=
  mkView n (state_of cfg n now) (connected n) (effective_capabilities n)
    ((λ hb, now - hb) <$> n_last_heartbeat_at n).

(** ** Audit drafts *)

Definition draft (actor : string) (a : AuditAction) (d : AuditDecision) (reason : string) (node job : option string)
    (payload : list (string * json)) : AuditDraft :=
  mkDraft actor a d reason node job (JObj payload).

(** [_reject_in] *)
Definition reject_in (reason : NodeReason) (node_name : string) : Tx () :=
  append_audit (draft (if is_empty node_name then "unknown" else node_name) AA_ENROLLMENT_REJECTED AD_DENY
    (reason_value reason) None None [("node_name", JStr node_name)]).

Section Registry.
Context (stamp : nat → datetime * string).
Context (ed_key_ok : string → bool).
Context (cfg : Config).

Notation M := (St MeshStore exn).
Notation transaction := (transaction stamp).

(** ** Audit and job metadata *)

Definition record_audit (d : AuditDraft) : M () := transaction (append_audit d).
Definition verify_audit : M bool := gets verify_audit_chain.
Definition upsert_job (j : NodeJobRecord) : M () := transaction (put_job j).
Definition registry_jobs : M (list NodeJobRecord) := transaction list_jobs.
Definition enrollment_tokens : M (list EnrollmentTokenRecord) := transaction list_enrollment_tokens.

(** ** Enrollment *)

(** The checks before the secret is minted: the grants and the stored scopes. *)
Definition enrollment_grants (node_name : string) (platform : NodePlatform) (granted : list string)
    (ttl : Z) (scopes : dict string obj) : result exn (list string * scope_pairs) :=
  ensure (negb (is_blank node_name)) (NodeMeshError ENROLLMENT_SCOPE_MISMATCH);;
  ensure ((MIN_ENROLLMENT_TTL_SECONDS <=? ttl) && (ttl <=? MAX_ENROLLMENT_TTL_SECONDS))
    (NodeMeshError ENROLLMENT_SCOPE_MISMATCH);;
  let grants := sorted_set granted in
  mapM_r require_dispatchable_capability grants;;
  encoded ← encode_scopes scopes platform;
  ensure (forallb (λ name, negb (requires_scope name && negb (dmem name encoded))) grants)
    (NodeMeshError CAPABILITY_NOT_GRANTED);;
  Ok (grants, encoded).

Definition issue_enrollment_token (node_name : string) (kind : NodeKind) (platform : NodePlatform)
    (granted : list string) (issued_by : string) (ttl_seconds : option Z) (scopes : dict string obj)
    (issued_at : datetime) (id_bytes secret_bytes : string) : M IssuedEnrollment :=
  let ttl := default (cfg_enrollment_ttl cfg) ttl_seconds in
  gs ← liftR (enrollment_grants node_name platform granted ttl scopes);
  let secret := new_enrollment_secret id_bytes secret_bytes in
  record ← liftR (make_token (mkToken (is_token_id secret) (is_secret_hash secret) (strip node_name) kind platform
    gs.1 issued_at (issued_at + seconds ttl) issued_by gs.2 None None None));
  frozen ← transaction (
    control ← get_dispatch_control;
    if c_frozen control then
      append_audit (draft issued_by AA_ENROLLMENT_ISSUED AD_DENY (reason_value DISPATCH_FROZEN) None None
        [("node_name", JStr node_name)]);;
      mret true
    else
      put_enrollment_token record;;
      append_audit (draft issued_by AA_ENROLLMENT_ISSUED AD_ALLOW "" None None
        [("token_id", JStr (t_token_id record)); ("node_name", JStr (t_node_name record));
         ("granted_capabilities", strs gs.1); ("expires_at", JStr (isoformat (t_expires_at record)))]);;
      mret false);
  check (negb frozen) (NodeMeshError DISPATCH_FROZEN);;
  mret (mkIssuedEnrollment (t_token_id record) (is_presented secret) (t_node_name record) kind platform gs.1
    issued_at (t_expires_at record) (t_scopes record)).

Definition revoke_enrollment_token (token_id actor reason : string) (now : datetime) : M () :=
  missing ← transaction (
    record ← get_enrollment_token token_id;
    match record with
    | None => mret true
    | Some r =>
        if revoked_token r then mret false
        else put_enrollment_token (token_revoke r now);;
             append_audit (draft actor AA_ENROLLMENT_GRANT_REVOKED AD_ALLOW reason None None
               [("token_id", JStr token_id)]);;
             mret false
    end);
  check (negb missing) (NodeMeshError ENROLLMENT_UNKNOWN).

(** [_enrollment_failure] *)
Definition enrollment_failure (r : EnrollmentTokenRecord) (d : NodeDescription) (now : datetime) : option NodeReason :=
  if revoked_token r then Some ENROLLMENT_REVOKED
  else if consumed_token r then Some ENROLLMENT_CONSUMED
  else if t_expires_at r <=? now then Some ENROLLMENT_EXPIRED
  else if negb (bool_decide (strip (nd_node_name d) = t_node_name r)) then Some ENROLLMENT_SCOPE_MISMATCH
  else if negb (bool_decide (nd_platform d = t_platform r)) || negb (bool_decide (nd_kind d = t_kind r))
  then Some ENROLLMENT_SCOPE_MISMATCH
  else None.

Definition enrolled_node (node_id : string) (r : EnrollmentTokenRecord) (d : NodeDescription) (public_key : string)
    (now : datetime) : NodeRecord :=
  mkNode node_id (t_node_name r) (t_kind r) (t_platform r) (nd_architecture d) (nd_agent_version d) public_key
    (t_granted r) now (t_token_id r) (t_scopes r) (normalize_capability_names (nd_declared d)) (nd_labels d)
    None None None None None "" None "".

(** The transaction of [redeem_enrollment_token]: the node to return, or the
    refusal recorded. *)
Definition redeem_body (token_id secret_value : string) (d : NodeDescription) (public_key : string) (now : datetime)
    (uuid : string) : Tx (result NodeReason NodeRecord) :=
  record ← get_enrollment_token token_id;
  match record with
  | Some r =>
      if enrollment_secret_matches token_id secret_value (t_secret_hash r) then
        match enrollment_failure r d now with
        | Some failure =>
            existing ← match consumed_token r, t_consumed_by r with
                       | true, Some node_id => get_node node_id
                       | _, _ => mret None
                       end;
            match existing with
            | Some n => if bool_decide (n_public_key n = public_key) then mret (Ok n)
                        else reject_in failure (nd_node_name d);; mret (Err failure)
            | None => reject_in failure (nd_node_name d);; mret (Err failure)
            end
        | None =>
            node ← tx_lift (make_node (enrolled_node ("node-" +:+ uuid) r d public_key now));
            put_node node;;
            put_enrollment_token (token_consume r now (n_node_id node));;
            append_audit (draft (nd_node_name d) AA_ENROLLMENT_REDEEMED AD_ALLOW "" (Some (n_node_id node)) None
              [("token_id", JStr token_id); ("platform", JStr (platform_value (n_platform node)));
               ("granted_capabilities", strs (n_granted node)); ("declared_capabilities", strs (n_declared node))]);;
            mret (Ok node)
        end
      else reject_in ENROLLMENT_UNKNOWN (nd_node_name d);; mret (Err ENROLLMENT_UNKNOWN)
  | None => reject_in ENROLLMENT_UNKNOWN (nd_node_name d);; mret (Err ENROLLMENT_UNKNOWN)
  end.

Definition redeem_enrollment_token (presented : string) (d : NodeDescription) (public_key : string) (now : datetime)
    (uuid : string) : M NodeRecord :=
  match (p ← split_enrollment_token presented; load_public_key ed_key_ok public_key;; Ok p) with
  | Err (NodeMeshError reason) =>
      transaction (reject_in reason (nd_node_name d));; raise (NodeMeshError reason)
  | Err e => raise e
  | Ok (token_id, secret_value) =>
      r ← transaction (redeem_body token_id secret_value d public_key now uuid);
      match r with Ok n => mret n | Err failure => raise (NodeMeshError failure) end
  end.

(** ** Sessions and heartbeats *)

(** [get_node] *)
Definition find_node (node_id : string) : M NodeRecord :=
  r ← transaction (get_node node_id); some_or r (NodeMeshError NODE_UNKNOWN).

Definition known_node (node_id : string) : Tx NodeRecord :=
  r ← get_node node_id; tx_lift (require_some r (NodeMeshError NODE_UNKNOWN)).

Definition attach_session (node_id session_id : string) (declared : list string) (agent_version architecture : string)
    (now : datetime) : M NodeRecord :=
  transaction (
    record ← known_node node_id;
    tx_lift (ensure (negb (is_some (n_revoked_at record))) (NodeMeshError NODE_REVOKED));;
    let attached := node_attach record session_id now agent_version architecture
                      (normalize_capability_names declared) in
    put_node attached;;
    append_audit (draft (n_node_name record) AA_SESSION_OPENED AD_ALLOW "" (Some node_id) None
      [("session_id", JStr session_id); ("declared_capabilities", strs (n_declared attached));
       ("effective_capabilities", strs (effective_capabilities attached))]);;
    mret attached).

Definition detach_session (node_id session_id reason : string) : M () :=
  transaction (
    record ← get_node node_id;
    match record with
    | Some r =>
        if bool_decide (n_session_id r = Some session_id) then
          put_node (node_detach r);;
          append_audit (draft (n_node_name r) AA_SESSION_CLOSED AD_OBSERVE reason (Some node_id) None
            [("session_id", JStr session_id)])
        else mret ()
    | None => mret ()
    end).

Definition record_heartbeat (node_id session_id : string) (health : NodeHealthSnapshot) : M NodeRecord :=
  transaction (
    record ← known_node node_id;
    tx_lift (ensure (bool_decide (n_session_id record = Some session_id)) (NodeMeshError NODE_SESSION_REPLACED));;
    let updated := node_heartbeat record health in
    put_node updated;;
    mret updated).

(** The session of this record has outlived its heartbeats. *)
Definition heartbeat_expired (n : NodeRecord) (now : datetime) : bool :=
  match n_session_id n, n_last_heartbeat_at n with
  | Some _, Some hb => negb (now - hb <=? seconds (cfg_expiry cfg))
  | _, _ => false
  end.

Definition sid_json (n : NodeRecord) : json := opt_str (n_session_id n).

Fixpoint sweep_loop (records : list NodeRecord) (now : datetime) : Tx (list string) :=
  match records with
  | [] => mret []
  | r :: records' =>
      if heartbeat_expired r now then
        put_node (node_detach r);;
        append_audit (draft "control-plane" AA_HEARTBEAT_EXPIRED AD_OBSERVE "" (Some (n_node_id r)) None
          [("session_id", sid_json r)]);;
        rest ← sweep_loop records' now;
        mret (n_node_id r :: rest)
      else sweep_loop records' now
  end.

Definition sweep_expired_heartbeats (now : datetime) : M (list string) :=
  transaction (records ← list_nodes; sweep_loop records now).

(** ** Restart recovery *)

Fixpoint clear_sessions (records : list NodeRecord) : Tx (list string) :=
  match records with
  | [] => mret []
  | r :: records' =>
      match n_session_id r with
      | None => clear_sessions records'
      | Some _ =>
          put_node (node_detach r);;
          append_audit (draft "control-plane" AA_SESSION_CLOSED AD_OBSERVE RESTART_REASON (Some (n_node_id r)) None
            [("session_id", sid_json r)]);;
          rest ← clear_sessions records';
          mret (n_node_id r :: rest)
      end
  end.

Definition timed_out (j : NodeJobRecord) (now : datetime) : NodeJobRecord :=
  job_set j TIMED_OUT RESTART_REASON (j_last_message j) (j_progress_events j) now.

Fixpoint reconcile_jobs (jobs : list NodeJobRecord) (now : datetime) : Tx (list string) :=
  match jobs with
  | [] => mret []
  | j :: jobs' =>
      if terminal (j_status j) then reconcile_jobs jobs' now
      else
        put_job (timed_out j now);;
        append_audit (draft "control-plane" AA_JOB_RECONCILED AD_OBSERVE RESTART_REASON (Some (j_node_id j))
          (Some (j_job_id j)) [("previous_status", JStr (status_value (j_status j)))]);;
        rest ← reconcile_jobs jobs' now;
        mret (j_job_id j :: rest)
  end.

Definition recover_after_restart (now : datetime) : M RecoveryReport :=
  transaction (
    records ← list_nodes;
    cleared ← clear_sessions records;
    jobs ← list_jobs;
    reconciled ← reconcile_jobs jobs now;
    control ← get_dispatch_control;
    mret (mkReport cleared reconciled (c_frozen control) (c_freeze_epoch control))).

(** ** Lifecycle *)

(** [_lifecycle_change] *)
Definition lifecycle_change (node_id actor reason : string) (action : AuditAction)
    (mutate : NodeRecord → NodeRecord) (refuse_revoked : bool) : M NodeRecord :=
  transaction (
    record ← known_node node_id;
    tx_lift (ensure (negb (refuse_revoked && is_some (n_revoked_at record))) (NodeMeshError NODE_REVOKED));;
    let updated := mutate record in
    put_node updated;;
    append_audit (draft actor action AD_ALLOW reason (Some node_id) None []);;
    mret updated).

Definition quarantine_node (node_id actor reason : string) (now : datetime) : M NodeRecord :=
  lifecycle_change node_id actor reason AA_NODE_QUARANTINED (λ n, node_set_quarantine n (Some now) reason) false.

Definition restore_node (node_id actor reason : string) : M NodeRecord :=
  lifecycle_change node_id actor reason AA_NODE_RESTORED (λ n, node_set_quarantine n None "") true.

(** [record.revoked_at or clock()], [record.revocation_reason or reason] *)
Definition revoke_node (node_id actor reason : string) (now : datetime) : M NodeRecord :=
  lifecycle_change node_id actor reason AA_NODE_REVOKED
    (λ n, node_set_revoked n (default now (n_revoked_at n))
            (if is_empty (n_revocation_reason n) then reason else n_revocation_reason n)) false.

(** ** Dispatch kill switch *)

Definition dispatch_control : M DispatchControlState := transaction get_dispatch_control.

Definition freeze_dispatch (actor reason : string) (now : datetime) : M DispatchControlState :=
  transaction (
    control ← get_dispatch_control;
    if c_frozen control then mret control
    else
      let frozen := mkControl true (c_freeze_epoch control + 1) (Some now) reason in
      put_dispatch_control frozen;;
      append_audit (draft actor AA_DISPATCH_FROZEN AD_ALLOW reason None None
        [("freeze_epoch", JInt (c_freeze_epoch frozen))]);;
      mret frozen).

Definition unfreeze_dispatch (actor : string) (expected_freeze_epoch : Z) (reason : string) (now : datetime) :
    M DispatchControlState :=
  r ← transaction (
    control ← get_dispatch_control;
    if negb (c_frozen control) then mret (Err (NodeMeshError NOT_FROZEN))
    else if negb (expected_freeze_epoch =? c_freeze_epoch control) then
      append_audit (draft actor AA_DISPATCH_UNFROZEN AD_DENY (reason_value FREEZE_EPOCH_MISMATCH) None None
        [("expected", JInt expected_freeze_epoch); ("actual", JInt (c_freeze_epoch control))]);;
      mret (Err (NodeMeshError FREEZE_EPOCH_MISMATCH))
    else
      let thawed := mkControl false (c_freeze_epoch control) (Some now) reason in
      put_dispatch_control thawed;;
      append_audit (draft actor AA_DISPATCH_UNFROZEN AD_ALLOW reason None None
        [("freeze_epoch", JInt (c_freeze_epoch thawed))]);;
      mret (Ok thawed));
  liftR r.

Definition list_views (now : datetime) : M (list NodeView) :=
  records ← transaction list_nodes;
  mret (map (λ r, view_of cfg r now) (sort_by (λ a b, str_leb (n_node_name a) (n_node_name b)) records)).

(** ** Admission *)

Section Admission.
Context {V : Type} `{ApprovalVerifier V}.

(** The registry's own state: the store and the injected verifier. *)
Record Reg := mkReg { rg_store : MeshStore; rg_approvals : option V }.

Notation R := (St Reg exn).

Definition on_store {A} (m : M A) : R A := λ g,
  let p := m (rg_store g) in (p.1, mkReg p.2 (rg_approvals g)).

(** [self._approvals.verify(...)]: the verifier keeps what it recorded. *)
Definition spend (v : V) (digest : string) (a : AnyApproval) (now : datetime) : R () := λ g,
  let p := av_verify digest a now v in (p.1, mkReg (rg_store g) (Some p.2)).

(** [_assert_approved] *)
Definition assert_approved (capability node_id : string) (parameters : obj) (approval : option AnyApproval)
    (now : datetime) : R () :=
  a ← some_or approval (NodeMeshError CAPABILITY_NOT_GRANTED);
  g ← read;
  match rg_approvals g with
  | None => raise (NodeMeshError CAPABILITY_NOT_GRANTED)
  | Some v =>
      digest ← liftR (expected_action_digest capability node_id parameters);
      spend v digest a now
  end.

(** [assert_dispatchable]; [now] and [now'] are its two clock readings. *)
Definition assert_dispatchable (node_id capability : string) (parameters : obj) (approval : option AnyApproval)
    (now now' : datetime) : R NodeRecord :=
  liftR (require_dispatchable_capability capability);;
  p ← on_store (transaction (control ← get_dispatch_control; record ← get_node node_id; mret (control, record)));
  check (negb (c_frozen p.1)) (NodeMeshError DISPATCH_FROZEN);;
  record ← some_or p.2 (NodeMeshError NODE_UNKNOWN);
  let state := state_of cfg record now in
  check (negb (bool_decide (state = ST_REVOKED))) (NodeMeshError NODE_REVOKED);;
  check (negb (bool_decide (state = ST_QUARANTINED))) (NodeMeshError NODE_QUARANTINED);;
  check (bool_decide (capability ∈ n_granted record)) (NodeMeshError CAPABILITY_NOT_GRANTED);;
  check (bool_decide (capability ∈ n_declared record)) (NodeMeshError CAPABILITY_NOT_DECLARED);;
  liftR (scopes ← scopes_of record; assert_scoped_dispatch capability scopes parameters);;
  (if requires_approval capability then assert_approved capability node_id parameters approval now' else mret ());;
  check (bool_decide (state = ST_ONLINE)) (NodeMeshError NODE_OFFLINE);;
  mret record.

(** [except NodeMeshError: continue]: other exceptions escape the loop. *)
Fixpoint scoped_nodes (capability : string) (parameters : obj) (records : list NodeRecord) :
    result exn (list NodeRecord) :=
  match records with
  | [] => Ok []
  | r :: records' =>
      match (scopes ← scopes_of r; assert_scoped_dispatch capability scopes parameters) with
      | Ok _ => rest ← scoped_nodes capability parameters records'; Ok (r :: rest)
      | Err (NodeMeshError _) => scoped_nodes capability parameters records'
      | Err e => Err e
      end
  end.

(** [key=lambda record: (_active_jobs(record), record.node_id)] *)
Definition load_leb (a b : NodeRecord) : bool :=
  (active_jobs a <? active_jobs b) || ((active_jobs a =? active_jobs b) && str_leb (n_node_id a) (n_node_id b)).

Definition select_node (capability : string) (node_id : option string) (parameters : obj)
    (approval : option AnyApproval) (now now' : datetime) : R NodeRecord :=
  match node_id with
  | Some i => assert_dispatchable i capability parameters approval now now'
  | None =>
      liftR (require_dispatchable_capability capability);;
      p ← on_store (transaction (control ← get_dispatch_control; records ← list_nodes; mret (control, records)));
      check (negb (c_frozen p.1)) (NodeMeshError DISPATCH_FROZEN);;
      let eligible := filter (λ r, state_of cfg r now = ST_ONLINE ∧ capability ∈ effective_capabilities r) p.2 in
      check (negb (bool_decide (eligible = []))) (NodeMeshError DISPATCH_NO_ELIGIBLE_NODE);;
      eligible' ← liftR (if requires_scope capability then
                           scoped ← scoped_nodes capability parameters eligible;
                           ensure (negb (bool_decide (scoped = []))) (NodeMeshError CAPABILITY_NOT_GRANTED);;
                           Ok scoped
                         else Ok eligible);
      chosen ← some_or (head (sort_by load_leb eligible')) (NodeMeshError DISPATCH_NO_ELIGIBLE_NODE);
      (if requires_approval capability then assert_approved capability (n_node_id chosen) parameters approval now'
       else mret ());;
      mret chosen
  end.
End Admission.
End Registry.
