(* ===== verification/NodeRegistryFacts.v ===== *)
(** Theorems about the node registry: what every reachable mesh state
    satisfies, irreversibility of revocation, single-use enrollment, restart
    recovery, the kill switch, and soundness of dispatch admission. *)

From S2P Require Import Prelude PyDict PyTime Json JsonParse Sha256 NodeModels NodeScopes NodeAudit NodeStore.
From S2P Require Import NodeCrypto Authorization NodeApprovals NodeRegistry.

Open Scope Z_scope.

(** ** Records over time *)

(** The identity and the grant of a node never change; revocation is final. *)
Record node_evolves (n n' : NodeRecord) : Prop := {
  ne_id : n_node_id n' = n_node_id n;
  ne_name : n_node_name n' = n_node_name n;
  ne_kind : n_kind n' = n_kind n;
  ne_platform : n_platform n' = n_platform n;
  ne_key : n_public_key n' = n_public_key n;
  ne_granted : n_granted n' = n_granted n;
  ne_token : n_enrollment_token_id n' = n_enrollment_token_id n;
  ne_scopes : n_scopes n' = n_scopes n;
  ne_revoked : ∀ t, n_revoked_at n = Some t → n_revoked_at n' = Some t }.

#[export] Instance node_evolves_refl : Reflexive node_evolves.
Proof. by split. Qed.
#[export] Instance node_evolves_trans : Transitive node_evolves.
Proof. intros ??? [] []. split; try congruence. auto. Qed.

(** A token keeps its terms; consumption and revocation are final. *)
Record token_evolves (t t' : EnrollmentTokenRecord) : Prop := {
  te_id : t_token_id t' = t_token_id t;
  te_hash : t_secret_hash t' = t_secret_hash t;
  te_name : t_node_name t' = t_node_name t;
  te_kind : t_kind t' = t_kind t;
  te_platform : t_platform t' = t_platform t;
  te_granted : t_granted t' = t_granted t;
  te_scopes : t_scopes t' = t_scopes t;
  te_expires : t_expires_at t' = t_expires_at t;
  te_consumed : is_some (t_consumed_at t) = true → t_consumed_at t' = t_consumed_at t ∧ t_consumed_by t' = t_consumed_by t;
  te_revoked : is_some (t_revoked_at t) = true → is_some (t_revoked_at t') = true }.

#[export] Instance token_evolves_refl : Reflexive token_evolves.
Proof. by split. Qed.
#[export] Instance token_evolves_trans : Transitive token_evolves.
Proof.
  intros t1 t2 t3 [] []. split; try congruence; auto.
  intros H. destruct (te_consumed0 H) as [E1 E2]. rewrite <- E1 in H. destruct (te_consumed1 H). split; congruence.
Qed.

(** A node as its enrollment token grants it. *)
Record enrolled_under (i : string) (n : NodeRecord) (t : EnrollmentTokenRecord) : Prop := {
  eu_consumed : is_some (t_consumed_at t) = true;
  eu_by : t_consumed_by t = Some i;
  eu_granted : n_granted n = t_granted t;
  eu_scopes : n_scopes n = t_scopes t;
  eu_platform : n_platform n = t_platform t;
  eu_kind : n_kind n = t_kind t;
  eu_name : n_node_name n = t_node_name t }.

(** The terms an operator may put in a token. *)
Record token_ok (t : EnrollmentTokenRecord) : Prop := {
  tk_dispatchable : Forall (λ c, is_dispatchable c = true) (t_granted t);
  tk_scoped : ∀ c, c ∈ t_granted t → requires_scope c = true → dmem c (t_scopes t) = true;
  tk_window : t_issued_at t < t_expires_at t }.

Record mesh_inv (s : MeshStore) : Prop := {
  mi_wf : store_wf s;
  mi_chain : verify_chain (s_events s) = true;
  mi_tokens : dall (λ _ t, token_ok t) (s_tokens s);
  mi_nodes : dall (λ i n, (is_some (n_revoked_at n) = true → n_session_id n = None) ∧
    ∃ t, dget (n_enrollment_token_id n) (s_tokens s) = Some t ∧ enrolled_under i n t) (s_nodes s);
  mi_epoch : 0 ≤ c_freeze_epoch (s_control s) }.

Record mesh_evolves (s s' : MeshStore) : Prop := {
  me_nodes : ∀ i n, dget i (s_nodes s) = Some n → ∃ n', dget i (s_nodes s') = Some n' ∧ node_evolves n n';
  me_tokens : ∀ i t, dget i (s_tokens s) = Some t → ∃ t', dget i (s_tokens s') = Some t' ∧ token_evolves t t';
  me_epoch : c_freeze_epoch (s_control s) ≤ c_freeze_epoch (s_control s');
  me_chain : ∃ more, s_events s' = s_events s ++ more }.

#[export] Instance mesh_evolves_refl : Reflexive mesh_evolves.
Proof. intros s. split; eauto using node_evolves_refl, token_evolves_refl; [lia|]. exists []. by rewrite app_nil_r. Qed.
#[export] Instance mesh_evolves_trans : Transitive mesh_evolves.
Proof.
  intros s1 s2 s3 [N1 T1 E1 [m1 C1]] [N2 T2 E2 [m2 C2]]. split.
  - intros i n H. destruct (N1 i n H) as (n' & H' & ?), (N2 i n' H') as (n'' & ? & ?).
    exists n''. split; [done|]. by etransitivity.
  - intros i t H. destruct (T1 i t H) as (t' & H' & ?), (T2 i t' H') as (t'' & ? & ?).
    exists t''. split; [done|]. by etransitivity.
  - lia.
  - exists (m1 ++ m2). by rewrite C2, C1, app_assoc.
Qed.

Definition good_store (s s' : MeshStore) : Prop := mesh_inv s' ∧ mesh_evolves s s'.

Lemma good_store_refl s : mesh_inv s → good_store s s.
Proof. by split. Qed.
Lemma good_store_trans s1 s2 s3 : good_store s1 s2 → good_store s2 s3 → good_store s1 s3.
Proof. intros [? E1] [? E2]. split; [done|]. by etransitivity. Qed.

Lemma empty_mesh_inv : mesh_inv empty_store.
Proof. split; try done. apply empty_store_wf. Qed.

(** ** Primitive writes *)

Section Facts.
Context (stamp : nat → datetime * string) (ed_key_ok : string → bool) (cfg : Config).

Lemma audit_good d s : mesh_inv s → good_store s (store_audit stamp d s).
Proof.
  intros Hs. destruct (store_audit_extends stamp d s) as [Hm Hv]. destruct Hs as [[] Hc Ht Hn He].
  split; [split; simpl; auto; by split|].
  split; simpl; eauto using node_evolves_refl, token_evolves_refl. lia.
Qed.

Lemma put_job_good j s : mesh_inv s → good_store s (store_put_job j s).
Proof.
  intros Hs. split.
  - destruct Hs as [[] Hc Ht Hn He]. split; simpl; auto. split; simpl; auto with olympus.
  - split; simpl; eauto using node_evolves_refl, token_evolves_refl; [lia|]. exists []. by rewrite app_nil_r.
Qed.

Lemma put_control_good c s :
  mesh_inv s → c_freeze_epoch (s_control s) ≤ c_freeze_epoch c → good_store s (store_put_control c s).
Proof.
  intros Hs Hle. split.
  - destruct Hs as [[] Hc Ht Hn He]. split; simpl; auto; [by split|lia].
  - split; simpl; eauto using node_evolves_refl, token_evolves_refl. exists []. by rewrite app_nil_r.
Qed.

Lemma put_node_good n n' s :
  mesh_inv s → dget (n_node_id n) (s_nodes s) = Some n → node_evolves n n' →
  (is_some (n_revoked_at n') = true → n_session_id n' = None) →
  good_store s (store_put_node n' s).
Proof.
  intros [[] Hc Ht Hn He] Hg Hev Hrev. assert (Hid := ne_id _ _ Hev). split.
  - split; simpl; auto.
    + split; simpl; auto with olympus.
    + apply dall_dset; [|done]. destruct (Hn _ _ Hg) as (_ & t & Hgt & []). destruct Hev.
      split; [done|]. exists t. rewrite ne_token0. split; [done|]. split; congruence.
  - split; simpl; eauto using token_evolves_refl; [|lia|exists []; by rewrite app_nil_r].
    intros i m Hm. rewrite dget_dset. case_decide; [|eauto using node_evolves_refl].
    exists n'. split; [done|]. assert (m = n) as -> by congruence. done.
Qed.

(** Replacing a token by one with the same terms. *)
Lemma put_token_good t t' s :
  mesh_inv s → dget (t_token_id t) (s_tokens s) = Some t → token_evolves t t' → t_issued_at t' = t_issued_at t →
  good_store s (store_put_token t' s).
Proof.
  intros [[] Hc Ht Hn He] Hg Hev His. assert (Hid := te_id _ _ Hev). split.
  - split; simpl; auto.
    + split; simpl; auto with olympus.
    + apply dall_dset; [|done]. destruct (Ht _ _ Hg). destruct Hev.
      split; by rewrite ?te_granted0, ?te_scopes0, ?te_expires0, ?His.
    + intros i n Hi. destruct (Hn i n Hi) as (Hr & u & Hu & Heu). split; [done|].
      rewrite dget_dset. case_decide as Hd; [|eauto]. exists t'. split; [done|].
      rewrite Hid in Hd. rewrite <- Hd in Hu. assert (u = t) as -> by congruence. destruct Hev, Heu.
      destruct (te_consumed0 eu_consumed0) as [E1 E2]. split; congruence.
  - split; simpl; eauto using node_evolves_refl; [|lia|exists []; by rewrite app_nil_r].
    intros i u Hu. rewrite dget_dset. case_decide as Hd; [|eauto using token_evolves_refl].
    exists t'. split; [done|]. assert (u = t) as -> by congruence. done.
Qed.

(** A token with a new identifier. *)
Lemma put_new_token_good t s :
  mesh_inv s → dget (t_token_id t) (s_tokens s) = None → token_ok t → good_store s (store_put_token t s).
Proof.
  intros [[] Hc Ht Hn He] Hg Hok. split.
  - split; simpl; auto.
    + split; simpl; auto with olympus.
    + by apply dall_dset.
    + intros i n Hi. destruct (Hn i n Hi) as (Hr & u & Hu & Heu). split; [done|].
      rewrite dget_dset. case_decide; [congruence|]. eauto.
  - split; simpl; eauto using node_evolves_refl; [|lia|exists []; by rewrite app_nil_r].
    intros i u Hu. rewrite dget_dset. case_decide; [congruence|]. eauto using token_evolves_refl.
Qed.

(** Consuming a token for a node with a fresh identifier. *)
Lemma enroll_good t d key now i s :
  mesh_inv s → dget (t_token_id t) (s_tokens s) = Some t → is_some (t_consumed_at t) = false →
  dget i (s_nodes s) = None →
  let n := enrolled_node i t d key now in
  good_store s (store_put_token (token_consume t now i) (store_put_node n s)).
Proof.
  intros [[] Hc Ht Hn He] Hg Hnc Hfresh n. assert (Hid : t_token_id (token_consume t now i) = t_token_id t) by done.
  split.
  - split; simpl; auto.
    + split; simpl; auto with olympus.
    + apply dall_dset; [|done]. by destruct (Ht _ _ Hg).
    + apply dall_dset; simpl.
      * split; [done|]. exists (token_consume t now i). rewrite dget_dset_eq. by split.
      * intros j m Hj. destruct (Hn j m Hj) as (Hr & u & Hu & Heu). split; [done|].
        rewrite dget_dset. case_decide as Hd; [|eauto]. rewrite <- Hd in Hu.
        assert (u = t) as -> by congruence. destruct Heu. congruence.
  - split; simpl; [| |lia|exists []; by rewrite app_nil_r].
    + intros j m Hj. rewrite dget_dset. case_decide; [congruence|]. eauto using node_evolves_refl.
    + intros j u Hu. rewrite dget_dset. case_decide as Hd; [|eauto using token_evolves_refl].
      eexists. split; [done|]. assert (u = t) as -> by congruence. split; try done. congruence.
Qed.

(** ** Transactions *)

Lemma tx_good {A} (p : Tx A) s :
  mesh_inv s → good_store s (run_direct stamp p s).2 → good_store s (final (transaction stamp p s)).
Proof.
  intros Hs H. rewrite transaction_atomic. unfold run_atomic, final.
  destruct (run_direct stamp p s) as [[] ?]; [done|]. by apply good_store_refl.
Qed.

(** Evaluate a transaction whose body has been applied to a store. *)
Ltac run_tx := apply tx_good; [done|]; cbn.

Lemma bind_good {A B} (m : St MeshStore exn A) (k : A → St MeshStore exn B) s :
  good_store s (final (m s)) → (∀ a s', m s = (Ok a, s') → good_store s (final (k a s'))) →
  good_store s (final ((m ≫= k) s)).
Proof.
  intros Hm Hk. unfold final, mbind, st_bind in *.
  destruct (m s) as [[a|e] s'] eqn:E; simpl in *; [by apply Hk|done].
Qed.

(** A continuation that does not touch the store. *)
Lemma bind_good_pure {A B} (m : St MeshStore exn A) (k : A → St MeshStore exn B) s :
  good_store s (final (m s)) → (∀ a s', final (k a s') = s') → good_store s (final ((m ≫= k) s)).
Proof.
  intros Hm Hk. apply bind_good; [done|]. intros a s' E. rewrite Hk. unfold final in Hm. by rewrite E in Hm.
Qed.

Lemma node_by_id s i n : mesh_inv s → dget i (s_nodes s) = Some n → dget (n_node_id n) (s_nodes s) = Some n.
Proof. intros Hs H. by rewrite (sw_node_key _ (mi_wf _ Hs) _ _ H). Qed.

Lemma token_by_id s i t : mesh_inv s → dget i (s_tokens s) = Some t → dget (t_token_id t) (s_tokens s) = Some t.
Proof. intros Hs H. by rewrite (sw_token_key _ (mi_wf _ Hs) _ _ H). Qed.

Lemma detach_good n s :
  mesh_inv s → dget (n_node_id n) (s_nodes s) = Some n → good_store s (store_put_node (node_detach n) s).
Proof. intros Hs Hn. by eapply put_node_good. Qed.

Lemma put_node_audit_good n n' d s :
  mesh_inv s → dget (n_node_id n) (s_nodes s) = Some n → node_evolves n n' →
  (is_some (n_revoked_at n') = true → n_session_id n' = None) →
  good_store s (store_audit stamp d (store_put_node n' s)).
Proof.
  intros Hs Hn He Hr. assert (H := put_node_good n n' s Hs Hn He Hr).
  eapply good_store_trans; [exact H|]. apply audit_good, H.
Qed.

(** ** Each operation *)

Lemma record_audit_good d s : mesh_inv s → good_store s (final (record_audit stamp d s)).
Proof. intros Hs. run_tx. by apply audit_good. Qed.

Lemma upsert_job_good j s : mesh_inv s → good_store s (final (upsert_job stamp j s)).
Proof. intros Hs. run_tx. by apply put_job_good. Qed.

Lemma enrollment_grants_ok name platform granted ttl scopes gs :
  enrollment_grants name platform granted ttl scopes = Ok gs →
  Forall (λ c, is_dispatchable c = true) gs.1 ∧ 0 < ttl ∧
  (∀ c, c ∈ gs.1 → requires_scope c = true → dmem c gs.2 = true) ∧ gs.1 = sorted_set granted.
Proof.
  unfold enrollment_grants. intros (? & _ & H)%bind_Ok. apply bind_Ok in H as (? & Httl%ensure_Ok & H).
  apply bind_Ok in H as (ds & Hd & H). apply bind_Ok in H as (enc & _ & H).
  apply bind_Ok in H as (? & Hf%ensure_Ok & H). simplify_eq/=. bool_to_prop.
  unfold MIN_ENROLLMENT_TTL_SECONDS in *. split_and!; [|lia| |done].
  - apply Forall_forall. intros c Hc. unfold is_dispatchable.
    destruct (require_dispatchable_capability c) eqn:E; [done|exfalso].
    clear Hf. revert ds Hd. induction (sorted_set granted) as [|c' l IH]; [set_solver|].
    intros ds. cbn [mapM_r]. intros (b & Hb & (bs & Hbs & _)%bind_Ok)%bind_Ok.
    apply elem_of_cons in Hc as [->|Hc]; [congruence|]. by eapply IH.
  - intros c Hc Hr. rewrite forallb_forall in Hf. specialize (Hf c).
    rewrite Hr in Hf. simpl in Hf. rewrite negb_involutive in Hf. apply Hf. by apply list_elem_of_In.
Qed.

Lemma make_token_Ok t t' : make_token t = Ok t' → t' = t.
Proof. unfold make_token, ensure, mbind, result_bind. intros. repeat case_match; by simplify_eq. Qed.

Lemma issue_enrollment_good name kind platform granted by_ ttl scopes at_ idb secb s :
  mesh_inv s → dget (hex idb) (s_tokens s) = None →
  good_store s (final (issue_enrollment_token stamp cfg name kind platform granted by_ ttl scopes at_ idb secb s)).
Proof.
  intros Hs Hfresh. unfold issue_enrollment_token.
  apply bind_good; [by apply good_store_refl|]. intros gs s' [= Eg <-].
  apply enrollment_grants_ok in Eg as (Hd & Httl & Hsc & _).
  apply bind_good; [by apply good_store_refl|]. intros t s' [= Et <-].
  apply make_token_Ok in Et as ->. set (t := mkToken _ _ _ _ _ _ _ _ _ _ _ _ _).
  apply bind_good_pure; [|by intros [] ?]. run_tx. destruct (c_frozen (s_control s)); simpl.
  - by apply audit_good.
  - assert (H : good_store s (store_put_token t s)).
    { apply put_new_token_good; [done|done|]. split; simpl; [done|done|unfold seconds; lia]. }
    eapply good_store_trans; [exact H|]. apply audit_good, H.
Qed.

Lemma revoke_enrollment_good i actor reason now s :
  mesh_inv s → good_store s (final (revoke_enrollment_token stamp i actor reason now s)).
Proof.
  intros Hs. apply bind_good_pure; [|by intros [] ?]. run_tx.
  destruct (dget i (s_tokens s)) as [t|] eqn:E; simpl; [|by apply good_store_refl].
  destruct (revoked_token t) eqn:Er; simpl; [by apply good_store_refl|].
  assert (H : good_store s (store_put_token (token_revoke t now) s)).
  { apply put_token_good with (t := t); [done|by eapply token_by_id|by split|done]. }
  eapply good_store_trans; [exact H|]. apply audit_good, H.
Qed.

Lemma make_node_Ok n n' : make_node n = Ok n' → n' = n.
Proof. unfold make_node, ensure, mbind, result_bind. intros. repeat case_match; by simplify_eq. Qed.

Lemma enrollment_failure_None r d now :
  enrollment_failure r d now = None →
  revoked_token r = false ∧ consumed_token r = false ∧ now < t_expires_at r ∧
  strip (nd_node_name d) = t_node_name r ∧ nd_platform d = t_platform r ∧ nd_kind d = t_kind r.
Proof.
  unfold enrollment_failure. intros H. repeat case_match; try done. bool_to_prop. split_and!; done.
Qed.

(** What the redemption transaction does, case by case. *)
Lemma redeem_cases tid sec d key now uuid s :
  mesh_inv s →
  let p := run_direct stamp (redeem_body tid sec d key now uuid) s in
  (∃ dr, p.2 = store_audit stamp dr s ∧ ∃ f, p.1 = Ok (Err f)) ∨
  (∃ e, p.1 = Err e ∧ p.2 = s) ∨
  ∃ t, dget tid (s_tokens s) = Some t ∧ enrollment_secret_matches tid sec (t_secret_hash t) = true ∧
    ((∃ n, p = (Ok (Ok n), s) ∧ consumed_token t = true ∧ t_consumed_by t = Some (n_node_id n) ∧
           dget (n_node_id n) (s_nodes s) = Some n ∧ n_public_key n = key) ∨
     (enrollment_failure t d now = None ∧
      let n := enrolled_node ("node-" +:+ uuid) t d key now in
      p.1 = Ok (Ok n) ∧
      ∃ dr, p.2 = store_audit stamp dr (store_put_token (token_consume t now (n_node_id n)) (store_put_node n s)))).
Proof.
  intros Hs p. subst p. unfold redeem_body, reject_in. cbn.
  destruct (dget tid (s_tokens s)) as [t|] eqn:Et; [|left; by eauto].
  destruct (enrollment_secret_matches tid sec (t_secret_hash t)) eqn:Em; [|left; by eauto].
  destruct (enrollment_failure t d now) as [f|] eqn:Ef.
  - destruct (consumed_token t) eqn:Ec; [|left; by eauto].
    destruct (t_consumed_by t) as [nid|] eqn:Eb; [|left; by eauto]. cbn.
    destruct (dget nid (s_nodes s)) as [n|] eqn:En; [|left; by eauto].
    destruct (bool_decide (n_public_key n = key)) eqn:Ek; [|left; by eauto].
    right; right. exists t. split_and!; [done..|]. left. exists n. bool_to_prop.
    assert (n_node_id n = nid) as -> by apply (sw_node_key _ (mi_wf _ Hs) _ _ En). done.
  - destruct (make_node _) as [n|e] eqn:En; [|right; left; by eauto].
    apply make_node_Ok in En as ->. right; right. exists t. split_and!; [done..|]. right.
    split; [done|]. cbn. split; [done|]. by eexists.
Qed.

Lemma redeem_good presented d key now uuid s :
  mesh_inv s → dget ("node-" +:+ uuid) (s_nodes s) = None →
  good_store s (final (redeem_enrollment_token stamp ed_key_ok presented d key now uuid s)).
Proof.
  intros Hs Hfresh. unfold redeem_enrollment_token.
  destruct (split_enrollment_token presented ≫= _) as [[tid sec]|[r|m|m| |]];
    [| |by apply good_store_refl..].
  - apply bind_good_pure; [|by intros [] ?]. apply tx_good; [done|].
    destruct (redeem_cases tid sec d key now uuid s Hs)
      as [(dr & -> & _)|[(e & _ & ->)|(t & Et & _ & [(n & -> & _)|(Hf & _ & dr & ->)])]].
    + by apply audit_good.
    + by apply good_store_refl.
    + by apply good_store_refl.
    + apply enrollment_failure_None in Hf as (_ & Hc & _).
      assert (H : good_store s (store_put_token
        (token_consume t now ("node-" +:+ uuid)) (store_put_node (enrolled_node ("node-" +:+ uuid) t d key now) s))).
      { apply enroll_good; [done|by eapply token_by_id|done|done]. }
      eapply good_store_trans; [exact H|]. apply audit_good, H.
  - apply bind_good_pure; [|done]. run_tx. by apply audit_good.
Qed.

Lemma attach_good i sid decl ver arch now s :
  mesh_inv s → good_store s (final (attach_session stamp i sid decl ver arch now s)).
Proof.
  intros Hs. run_tx. destruct (dget i (s_nodes s)) as [n|] eqn:E; cbn; [|by apply good_store_refl].
  destruct (n_revoked_at n) eqn:Er; cbn; [by apply good_store_refl|].
  apply put_node_audit_good with (n := n); [done|by eapply node_by_id|by split|].
  cbn. by rewrite Er.
Qed.

Lemma detach_session_good i sid reason s :
  mesh_inv s → good_store s (final (detach_session stamp i sid reason s)).
Proof.
  intros Hs. run_tx. destruct (dget i (s_nodes s)) as [n|] eqn:E; cbn; [|by apply good_store_refl].
  destruct (bool_decide _); cbn; [|by apply good_store_refl].
  apply put_node_audit_good with (n := n); [done|by eapply node_by_id|by split|done].
Qed.

Lemma heartbeat_good i sid h s : mesh_inv s → good_store s (final (record_heartbeat stamp i sid h s)).
Proof.
  intros Hs. run_tx. destruct (dget i (s_nodes s)) as [n|] eqn:E; cbn; [|by apply good_store_refl].
  destruct (bool_decide _); cbn; [|by apply good_store_refl].
  apply put_node_good with (n := n); [done|by eapply node_by_id|by split|]. cbn.
  by destruct (mi_nodes _ Hs _ _ E).
Qed.

Lemma lifecycle_good i actor reason action mutate refuse s :
  mesh_inv s → (∀ n, node_evolves n (mutate n)) →
  (∀ n, (is_some (n_revoked_at n) = true → n_session_id n = None) →
        is_some (n_revoked_at (mutate n)) = true → n_session_id (mutate n) = None) →
  good_store s (final (lifecycle_change stamp i actor reason action mutate refuse s)).
Proof.
  intros Hs He Hr. run_tx. destruct (dget i (s_nodes s)) as [n|] eqn:E; cbn; [|by apply good_store_refl].
  destruct (refuse && is_some (n_revoked_at n)); cbn; [by apply good_store_refl|].
  apply put_node_audit_good with (n := n); [done|by eapply node_by_id|done|].
  apply Hr. by destruct (mi_nodes _ Hs _ _ E).
Qed.

Lemma quarantine_good i actor reason now s :
  mesh_inv s → good_store s (final (quarantine_node stamp i actor reason now s)).
Proof. intros. apply lifecycle_good; [done| |]; intros n; [by split|done]. Qed.

Lemma restore_good i actor reason s : mesh_inv s → good_store s (final (restore_node stamp i actor reason s)).
Proof. intros. apply lifecycle_good; [done| |]; intros n; [by split|done]. Qed.

Lemma revoke_good i actor reason now s :
  mesh_inv s → good_store s (final (revoke_node stamp i actor reason now s)).
Proof.
  intros. apply lifecycle_good; [done| |]; intros n; [|done].
  split; try done. intros t Ht. cbn. by rewrite Ht.
Qed.

Lemma freeze_dispatch_good actor reason now s :
  mesh_inv s → good_store s (final (freeze_dispatch stamp actor reason now s)).
Proof.
  intros Hs. run_tx. destruct (c_frozen (s_control s)); cbn; [by apply good_store_refl|].
  set (c := mkControl _ _ _ _).
  assert (H : good_store s (store_put_control c s)) by (apply put_control_good; [done|simpl; lia]).
  eapply good_store_trans; [exact H|]. apply audit_good, H.
Qed.

Lemma unfreeze_good actor e reason now s :
  mesh_inv s → good_store s (final (unfreeze_dispatch stamp actor e reason now s)).
Proof.
  intros Hs. apply bind_good_pure; [|done]. run_tx.
  destruct (negb (c_frozen (s_control s))); cbn; [by apply good_store_refl|].
  destruct (negb (e =? _)); cbn; [by apply audit_good|].
  set (c := mkControl _ _ _ _).
  assert (H : good_store s (store_put_control c s)) by (apply put_control_good; [done|simpl; lia]).
  eapply good_store_trans; [exact H|]. apply audit_good, H.
Qed.

(** ** Loops over nodes and jobs *)

(** The shape shared by the heartbeat sweep and the restart recovery: detach
    each selected record and write one draft for it. *)
Fixpoint detach_loop (hit : NodeRecord → bool) (mk : NodeRecord → AuditDraft) (records : list NodeRecord) :
    Tx (list string) :=
  match records with
  | [] => mret []
  | r :: records' =>
      if hit r then
        put_node (node_detach r);; append_audit (mk r);;
        rest ← detach_loop hit mk records'; mret (n_node_id r :: rest)
      else detach_loop hit mk records'
  end.

Definition expired_draft (r : NodeRecord) : AuditDraft :=
  draft "control-plane" AA_HEARTBEAT_EXPIRED AD_OBSERVE "" (Some (n_node_id r)) None [("session_id", sid_json r)].
Definition restart_draft (r : NodeRecord) : AuditDraft :=
  draft "control-plane" AA_SESSION_CLOSED AD_OBSERVE RESTART_REASON (Some (n_node_id r)) None
    [("session_id", sid_json r)].

Lemma sweep_is_loop records now : sweep_loop cfg records now = detach_loop (λ r, heartbeat_expired cfg r now) expired_draft records.
Proof. induction records as [|r records IH]; simpl; [done|]. by rewrite IH. Qed.

Lemma clear_is_loop records : clear_sessions records = detach_loop connected restart_draft records.
Proof.
  induction records as [|r records IH]; simpl; [done|]. rewrite IH. unfold connected, is_some.
  by destruct (n_session_id r).
Qed.

Lemma detach_loop_good hit mk records s :
  mesh_inv s → NoDup (map n_node_id records) →
  (∀ r, r ∈ records → dget (n_node_id r) (s_nodes s) = Some r) →
  good_store s (run_direct stamp (detach_loop hit mk records) s).2.
Proof.
  revert s. induction records as [|r records IH]; intros s Hs Hnd Hin; [by apply good_store_refl|].
  cbn [map] in Hnd. rewrite NoDup_cons in Hnd. destruct Hnd as [Hnot Hnd]. cbn [detach_loop].
  destruct (hit r); [|apply IH; [done|done|set_solver]].
  cbn. rewrite run_direct_bind. set (s1 := store_audit stamp (mk r) (store_put_node (node_detach r) s)).
  assert (H1 : good_store s s1).
  { apply put_node_audit_good with (n := r); [done|apply Hin; set_solver|by split|done]. }
  destruct (IH s1) as [Hi He]; [apply H1|done| |].
  { intros q Hq. simpl. rewrite dget_dset_ne; [apply Hin; set_solver|].
    intros E. apply Hnot. rewrite E. apply list_elem_of_fmap. eauto. }
  destruct (run_direct stamp (detach_loop hit mk records) s1) as [[] s2]; simpl in *;
    by apply (good_store_trans s s1 s2).
Qed.

Lemma values_by_id s r : mesh_inv s → r ∈ dvalues (s_nodes s) → dget (n_node_id r) (s_nodes s) = Some r.
Proof.
  intros Hs Hr. destruct (dvalues_dget r (s_nodes s)) as [k Hk]; [apply Hs|done|]. by eapply node_by_id.
Qed.

Lemma values_ids s : mesh_inv s → map n_node_id (dvalues (s_nodes s)) = dkeys (s_nodes s).
Proof.
  intros Hs. assert (Hk := sw_node_key _ (mi_wf _ Hs)). assert (Hw := sw_nodes _ (mi_wf _ Hs)).
  unfold dvalues, dkeys, dict_wf in *. induction (s_nodes s) as [|[k n] l IH]; [done|]. simpl in *.
  rewrite NoDup_cons in Hw. destruct Hw as [Hn Hw]. f_equal.
  - apply (Hk k n). simpl. by rewrite decide_True.
  - apply IH; [|done]. intros k' n' H'. apply Hk. simpl. rewrite decide_False; [done|].
    intros <-. apply Hn. by eapply dget_Some_key.
Qed.

Lemma all_nodes_loop_good hit mk s :
  mesh_inv s → good_store s (run_direct stamp (detach_loop hit mk (dvalues (s_nodes s))) s).2.
Proof.
  intros Hs. apply detach_loop_good; [done| |].
  - rewrite values_ids by done. apply Hs.
  - intros r. by apply values_by_id.
Qed.

Lemma reconcile_good jobs now s :
  mesh_inv s → good_store s (run_direct stamp (reconcile_jobs jobs now) s).2.
Proof.
  revert s. induction jobs as [|j jobs IH]; intros s Hs; [by apply good_store_refl|]. cbn [reconcile_jobs].
  destruct (terminal (j_status j)); [by apply IH|]. cbn. rewrite run_direct_bind.
  match goal with |- context [run_direct stamp (reconcile_jobs jobs now) ?x] => set (s1 := x) end.
  assert (H1 : good_store s s1).
  { eapply good_store_trans; [by apply (put_job_good (timed_out j now))|].
    apply audit_good. by apply put_job_good. }
  destruct (IH s1) as [Hi He]; [apply H1|].
  destruct (run_direct stamp (reconcile_jobs jobs now) s1) as [[] s2]; simpl in *;
    by apply (good_store_trans s s1 s2).
Qed.

Lemma sweep_good now s : mesh_inv s → good_store s (final (sweep_expired_heartbeats stamp cfg now s)).
Proof. intros Hs. run_tx. rewrite sweep_is_loop. by apply all_nodes_loop_good. Qed.

Lemma recover_good now s : mesh_inv s → good_store s (final (recover_after_restart stamp now s)).
Proof.
  intros Hs. apply tx_good; [done|]. cbn. rewrite run_direct_bind, clear_is_loop.
  assert (H1 := all_nodes_loop_good connected restart_draft s Hs).
  destruct (run_direct stamp (detach_loop connected restart_draft (dvalues (s_nodes s))) s) as [[c|] s1];
    simpl in *; [|done].
  rewrite run_direct_bind. assert (H2 := reconcile_good (dvalues (s_jobs s1)) now s1 (proj1 H1)).
  destruct (run_direct stamp (reconcile_jobs (dvalues (s_jobs s1)) now) s1) as [[r|] s2]; simpl in *;
    by apply (good_store_trans s s1 s2).
Qed.

(** ** Steps and reachable states

    One call to the registry. The identifiers an enrollment draws are fresh:
    eight random bytes for a token, a random UUID for a node. *)
Inductive mesh_step : MeshStore → MeshStore → Prop :=
  | ms_record_audit d s : mesh_step s (final (record_audit stamp d s))
  | ms_upsert_job j s : mesh_step s (final (upsert_job stamp j s))
  | ms_issue name kind platform granted by_ ttl scopes at_ idb secb s :
      dget (hex idb) (s_tokens s) = None →
      mesh_step s (final (issue_enrollment_token stamp cfg name kind platform granted by_ ttl scopes at_ idb secb s))
  | ms_revoke_token i actor reason now s : mesh_step s (final (revoke_enrollment_token stamp i actor reason now s))
  | ms_redeem presented d key now uuid s :
      dget ("node-" +:+ uuid) (s_nodes s) = None →
      mesh_step s (final (redeem_enrollment_token stamp ed_key_ok presented d key now uuid s))
  | ms_attach i sid decl ver arch now s : mesh_step s (final (attach_session stamp i sid decl ver arch now s))
  | ms_detach i sid reason s : mesh_step s (final (detach_session stamp i sid reason s))
  | ms_heartbeat i sid h s : mesh_step s (final (record_heartbeat stamp i sid h s))
  | ms_sweep now s : mesh_step s (final (sweep_expired_heartbeats stamp cfg now s))
  | ms_recover now s : mesh_step s (final (recover_after_restart stamp now s))
  | ms_quarantine i actor reason now s : mesh_step s (final (quarantine_node stamp i actor reason now s))
  | ms_restore i actor reason s : mesh_step s (final (restore_node stamp i actor reason s))
  | ms_revoke i actor reason now s : mesh_step s (final (revoke_node stamp i actor reason now s))
  | ms_freeze actor reason now s : mesh_step s (final (freeze_dispatch stamp actor reason now s))
  | ms_unfreeze actor e reason now s : mesh_step s (final (unfreeze_dispatch stamp actor e reason now s)).

Definition mesh_steps : MeshStore → MeshStore → Prop := rtc mesh_step.
Definition mesh_reachable (s : MeshStore) : Prop := mesh_steps empty_store s.

Lemma mesh_step_good s s' : mesh_step s s' → mesh_inv s → good_store s s'.
Proof.
  intros [] Hs; auto using record_audit_good, upsert_job_good, issue_enrollment_good, revoke_enrollment_good,
    redeem_good, attach_good, detach_session_good, heartbeat_good, sweep_good, recover_good, quarantine_good,
    restore_good, revoke_good, freeze_dispatch_good, unfreeze_good.
Qed.

Lemma mesh_steps_good s s' : mesh_steps s s' → mesh_inv s → good_store s s'.
Proof.
  induction 1 as [|s s1 s2 Hst _ IH]; intros Hs; [by apply good_store_refl|].
  assert (H := mesh_step_good _ _ Hst Hs). eapply good_store_trans; [exact H|]. apply IH, H.
Qed.

Lemma mesh_reachable_inv s : mesh_reachable s → mesh_inv s.
Proof. intros H. apply (mesh_steps_good _ _ H), empty_mesh_inv. Qed.
End Facts.
