(* ===== verification/NodeRegistryProps.v ===== *)
(** The registry's properties: the invariant of every reachable mesh, final
    revocation, single-use enrollment, restart recovery, the kill switch and
    sound dispatch admission. *)

From S2P Require Import Prelude PyDict PyTime Json JsonParse Sha256 NodeModels NodeScopes NodeAudit NodeStore.
From S2P Require Import NodeScopesFacts NodeCrypto Authorization NodeApprovals NodeRegistry NodeRegistryFacts.

Open Scope Z_scope.

Section Mesh.
Context (stamp : nat → datetime * string) (ed_key_ok : string → bool) (cfg : Config).

(** C1. In every reachable state of the mesh the audit chain verifies, and every
    node was enrolled with a token that names it as its only consumer and whose
    platform, kind, name, grant and scopes it has, unchanged; the grant holds
    only dispatchable capabilities, and each capability that needs a scope has
    one; a revoked node has no session. *)
Theorem mesh_invariant s :
  mesh_reachable stamp ed_key_ok cfg s →
  verify_audit_chain s = true ∧
  ∀ i n, dget i (s_nodes s) = Some n →
    n_node_id n = i ∧ (is_some (n_revoked_at n) = true → n_session_id n = None) ∧
    Forall (λ c, is_dispatchable c = true) (n_granted n) ∧
    (∀ c, c ∈ n_granted n → requires_scope c = true → dmem c (n_scopes n) = true) ∧
    ∃ t, dget (n_enrollment_token_id n) (s_tokens s) = Some t ∧ enrolled_under i n t.
Proof.
  intros Hs%mesh_reachable_inv. split; [apply Hs|]. intros i n Hn.
  destruct (mi_nodes _ Hs i n Hn) as (Hr & t & Ht & Heu). destruct (mi_tokens _ Hs _ _ Ht) as [Hd Hsc _].
  split_and!; [by apply (sw_node_key _ (mi_wf _ Hs))|done| | |eauto].
  - by rewrite (eu_granted _ _ _ Heu).
  - rewrite (eu_granted _ _ _ Heu), (eu_scopes _ _ _ Heu). apply Hsc.
Qed.

(** ** Dispatch admission *)

Section Admission.
Context {V : Type} `{ApprovalVerifierLaws V}.

(** The approval the gate accepted for this action, and what it did to the
    verifier. *)
Definition approved (capability node_id : string) (parameters : obj) (approval : option AnyApproval)
    (now : datetime) (before after : option V) : Prop :=
  ∃ a v v' d, approval = Some (AnApproval a) ∧ before = Some v ∧ after = Some v' ∧
    expected_action_digest capability node_id parameters = Ok d ∧ ap_digest a = d ∧
    ap_issued_at a ≤ now < ap_expires_at a ∧ av_authentic v a ∧ ¬ av_spent v (ap_id a) ∧ av_spent v' (ap_id a).

Lemma assert_approved_cases capability node_id parameters approval now g :
  match assert_approved capability node_id parameters approval now g with
  | (Err _, g') => g' = g
  | (Ok _, g') => rg_store g' = rg_store g ∧
                  approved capability node_id parameters approval now (rg_approvals g) (rg_approvals g')
  end.
Proof.
  unfold assert_approved, spend. py_unfold. destruct approval as [x|]; [|done]. simpl.
  destruct (rg_approvals g) as [v|] eqn:Ev; [|done]. simpl.
  destruct (expected_action_digest capability node_id parameters) as [d|e] eqn:Ed; [|done]. simpl.
  destruct (av_verify d x now v) as [[[]|e] v'] eqn:E; simpl.
  - split; [done|]. apply av_accepts in E as (a & -> & Hd & Hw & Ha & Hn & Hs).
    exists a, v, v', d. split_and!; try done; apply Hw.
  - apply av_refuses in E as [-> _]. destruct g. simpl in *. congruence.
Qed.

Lemma read_only_tx {A} (m : Tx A) (g : Reg (V := V)) a :
  run_direct stamp m (rg_store g) = (Ok a, rg_store g) →
  on_store (transaction stamp m) g = (Ok a, g).
Proof.
  intros E. unfold on_store. rewrite transaction_atomic. unfold run_atomic. rewrite E. by destruct g.
Qed.

(** The capability check behind an admission. *)
Definition scope_allows (n : NodeRecord) (capability : string) (parameters : obj) : Prop :=
  requires_scope capability = true →
  ∃ scopes sc path p, scopes_of n = Ok scopes ∧ dget capability scopes = Some sc ∧
    dget "path" parameters = Some (JStr path) ∧ resolve sc path = Ok p ∧
    (∀ z, dget "max_bytes" parameters = Some (JInt z) → 1 ≤ z ≤ scope_max_bytes sc).

Lemma scoped_dispatch_Ok n capability parameters u :
  (scopes ← scopes_of n; assert_scoped_dispatch capability scopes parameters) = Ok u →
  scope_allows n capability parameters.
Proof.
  intros (scopes & Hsc & Ha)%bind_Ok Hr. unfold assert_scoped_dispatch in Ha. rewrite Hr in Ha. simpl in Ha.
  apply bind_Ok in Ha as (sc & Hg & Ha).
  destruct (dget capability scopes) as [sc'|] eqn:Eg; simpl in Hg; simplify_eq.
  destruct (dget "path" parameters) as [[| | |path| |]|] eqn:Ep; simplify_eq.
  apply bind_Ok in Ha as (p & Hp & Ha). exists scopes, sc, path, p. split_and!; try done.
  intros z Hz. rewrite Hz in Ha. simpl in Ha. apply ensure_Ok in Ha. bool_to_prop. lia.
Qed.

(** Everything an admitted dispatch established about the node. *)
Record admitted (s : MeshStore) (n : NodeRecord) (capability : string) (parameters : obj) (now : datetime) : Prop := {
  ad_thawed : c_frozen (s_control s) = false;
  ad_dispatchable : is_dispatchable capability = true;
  ad_granted : capability ∈ n_granted n;
  ad_declared : capability ∈ n_declared n;
  ad_revoked : n_revoked_at n = None;
  ad_quarantined : n_quarantined_at n = None;
  ad_alive : ∃ sid hb, n_session_id n = Some sid ∧ n_last_heartbeat_at n = Some hb ∧ now - hb ≤ seconds (cfg_expiry cfg);
  ad_scope : scope_allows n capability parameters }.

Lemma state_online n now :
  state_of cfg n now = ST_ONLINE →
  n_revoked_at n = None ∧ n_quarantined_at n = None ∧
  ∃ sid hb, n_session_id n = Some sid ∧ n_last_heartbeat_at n = Some hb ∧ now - hb ≤ seconds (cfg_expiry cfg).
Proof.
  unfold state_of. intros E. destruct (n_revoked_at n); [done|]. destruct (n_quarantined_at n); [done|].
  simpl in E. destruct (n_session_id n) as [sid|], (n_last_heartbeat_at n) as [hb|]; try done.
  destruct (now - hb <=? _) eqn:El; [|done]. bool_to_prop. split_and!; try done. eauto.
Qed.

Lemma assert_dispatchable_spec node_id capability parameters approval now now' g n g' :
  assert_dispatchable stamp cfg node_id capability parameters approval now now' g = (Ok n, g') →
  rg_store g' = rg_store g ∧ dget node_id (s_nodes (rg_store g)) = Some n ∧
  admitted (rg_store g) n capability parameters now ∧
  (if requires_approval capability
   then approved capability node_id parameters approval now' (rg_approvals g) (rg_approvals g')
   else rg_approvals g' = rg_approvals g).
Proof.
  unfold assert_dispatchable. unfold mbind at 1, st_bind at 1, liftR at 1.
  destruct (require_dispatchable_capability capability) as [cd|] eqn:Ecd; [|done].
  unfold mbind at 1, st_bind at 1. erewrite read_only_tx by reflexivity. py_unfold.
  destruct (c_frozen (s_control (rg_store g))) eqn:Ef; simpl; [done|].
  destruct (dget node_id (s_nodes (rg_store g))) as [r|] eqn:En; simpl; [|done].
  destruct (bool_decide (state_of cfg r now = ST_REVOKED)) eqn:E1; simpl; [done|].
  destruct (bool_decide (state_of cfg r now = ST_QUARANTINED)) eqn:E2; simpl; [done|].
  destruct (bool_decide (capability ∈ n_granted r)) eqn:E3; simpl; [|done].
  destruct (bool_decide (capability ∈ n_declared r)) eqn:E4; simpl; [|done].
  match goal with |- context [match ?x with Ok a => assert_scoped_dispatch _ a _ | Err e => Err e end] =>
    change (match x with Ok a => assert_scoped_dispatch capability a parameters | Err e => Err e end)
      with (x ≫= λ a, assert_scoped_dispatch capability a parameters) end.
  destruct (scopes_of r ≫= _) as [u|] eqn:Es; [|done].
  apply scoped_dispatch_Ok in Es.
  destruct (bool_decide (state_of cfg r now = ST_ONLINE)) eqn:E5.
  2: { repeat case_match; by intros. }
  bool_to_prop. destruct (state_online r now E5) as (Hr & Hq & Hal).
  assert (Had : admitted (rg_store g) r capability parameters now).
  { split; try done. unfold is_dispatchable. by rewrite Ecd. }
  destruct (requires_approval capability) eqn:Era.
  - assert (Hc := assert_approved_cases capability node_id parameters approval now' g).
    destruct (assert_approved _ _ _ _ _ g) as [[[]|] g1]; [|done].
    intros [= <- <-]. destruct Hc. by split_and!.
  - intros [= <- <-]. by split_and!.
Qed.

Lemma describe_requires capability d :
  describe_capability capability = Ok d → cap_mutating d = true ∨ cap_requires_approval d = true →
  requires_approval capability = true.
Proof.
  unfold describe_capability, requires_approval.
  destruct (dget capability CAPABILITY_CATALOG) as [d'|] eqn:E; [|done]. intros [= ->] [Hm|Hm]; [|done].
  by eapply catalog_approval.
Qed.

(** C3. Sound admission of a dispatch. The registry admits a job for a node
    only if dispatch is not frozen, the node is known, neither revoked nor
    quarantined, holds a session with a fresh heartbeat, was granted and
    declares the capability, and the requested path and size are inside the
    node's own scope for it. A capability that changes the node or requires
    approval was presented with an authentic approval, current and never spent, naming the digest of
    this very action on this very node, and that approval is spent by the call.
    Nothing else changes. *)
Theorem dispatch_admission_sound node_id capability parameters approval now now' g n g' :
  assert_dispatchable stamp cfg node_id capability parameters approval now now' g = (Ok n, g') →
  rg_store g' = rg_store g ∧ dget node_id (s_nodes (rg_store g)) = Some n ∧
  admitted (rg_store g) n capability parameters now ∧
  (∀ d, describe_capability capability = Ok d → cap_mutating d = true ∨ cap_requires_approval d = true →
     approved capability node_id parameters approval now' (rg_approvals g) (rg_approvals g')) ∧
  (requires_approval capability = false → g' = g).
Proof.
  intros E. apply assert_dispatchable_spec in E as (Hs & Hn & Ha & Happ). split_and!; [done..| |].
  - intros d Hd Hm. rewrite (describe_requires capability d Hd Hm) in Happ. done.
  - intros Hr. rewrite Hr in Happ. destruct g, g'. simpl in *. congruence.
Qed.

(** ** Node selection *)

(** A node that can serve the request. *)
Definition serves (n : NodeRecord) (capability : string) (parameters : obj) (now : datetime) : Prop :=
  state_of cfg n now = ST_ONLINE ∧ capability ∈ effective_capabilities n ∧
  (requires_scope capability = true →
   is_ok (scopes ← scopes_of n; assert_scoped_dispatch capability scopes parameters) = true).

Lemma load_leb_total a b : load_leb a b = false → load_leb b a = true.
Proof.
  unfold load_leb. rewrite orb_false_iff, andb_false_iff, orb_true_iff, andb_true_iff.
  rewrite Z.ltb_ge, Z.eqb_neq, Z.ltb_lt, Z.eqb_eq. intros [? [?|Hs]]; [left; lia|].
  destruct (Z.eq_dec (active_jobs b) (active_jobs a)); [right|left; lia]. split; [done|].
  destruct (str_le_total (n_node_id a) (n_node_id b)) as [Hab|Hab]; unfold str_le in Hab; congruence.
Qed.

Lemma load_leb_trans a b c : load_leb a b = true → load_leb b c = true → load_leb a c = true.
Proof.
  unfold load_leb. rewrite !orb_true_iff, !andb_true_iff, !Z.ltb_lt, !Z.eqb_eq.
  intros [?|[? Hab]] [?|[? Hbc]]; [left; lia..|]. right. split; [lia|]. exact (str_le_trans _ _ _ Hab Hbc).
Qed.

Lemma elem_of_effective c n :
  c ∈ effective_capabilities n ↔ c ∈ n_granted n ∧ c ∈ n_declared n ∧ is_dispatchable c = true.
Proof. unfold effective_capabilities. rewrite elem_of_sorted_set, list_elem_of_filter. tauto. Qed.

Lemma elem_of_scoped capability parameters l l' :
  scoped_nodes capability parameters l = Ok l' →
  ∀ n, n ∈ l' ↔ n ∈ l ∧ is_ok (scopes ← scopes_of n; assert_scoped_dispatch capability scopes parameters) = true.
Proof.
  revert l'. induction l as [|r l IH]; intros l'; cbn [scoped_nodes]; [intros [= <-]; set_solver|].
  destruct (scopes_of r ≫= _) as [u|[]] eqn:E; [| |done..].
  - intros (rest & Hr & [= <-])%bind_Ok n. rewrite !elem_of_cons, (IH rest Hr). split; [|tauto].
    intros [->|?]; [|tauto]. rewrite E. auto.
  - intros Hr n. rewrite elem_of_cons, (IH l' Hr). split; [tauto|].
    intros [[->|?] Hok]; [|tauto]. by rewrite E in Hok.
Qed.

Lemma select_node_spec capability parameters approval now now' g n g' :
  select_node stamp cfg capability None parameters approval now now' g = (Ok n, g') →
  rg_store g' = rg_store g ∧ c_frozen (s_control (rg_store g)) = false ∧
  n ∈ dvalues (s_nodes (rg_store g)) ∧ serves n capability parameters now ∧
  (∀ m, m ∈ dvalues (s_nodes (rg_store g)) → serves m capability parameters now →
        m = n ∨ load_leb n m = true) ∧
  (if requires_approval capability
   then approved capability (n_node_id n) parameters approval now' (rg_approvals g) (rg_approvals g')
   else rg_approvals g' = rg_approvals g).
Proof.
  unfold select_node. unfold mbind at 1, st_bind at 1, liftR at 1.
  destruct (require_dispatchable_capability capability) as [cd|] eqn:Ecd; [|done].
  unfold mbind at 1, st_bind at 1. erewrite read_only_tx by reflexivity. py_unfold.
  destruct (c_frozen (s_control (rg_store g))) eqn:Ef; simpl; [done|].
  set (eligible := filter _ (dvalues (s_nodes (rg_store g)))).
  destruct (bool_decide (eligible = [])) eqn:Ee; simpl; [done|].
  destruct (if requires_scope capability then _ else _) as [el|] eqn:Eel; [|done].
  assert (Hel : ∀ m, m ∈ el ↔ m ∈ dvalues (s_nodes (rg_store g)) ∧ serves m capability parameters now).
  { intros m. unfold serves. transitivity (m ∈ eligible ∧ (requires_scope capability = true →
      is_ok (scopes ← scopes_of m; assert_scoped_dispatch capability scopes parameters) = true)).
    - destruct (requires_scope capability); [|simplify_eq; naive_solver].
      destruct (scoped_nodes capability parameters eligible) as [l'|] eqn:Esc; [|done].
      destruct (negb _); [|done]. simplify_eq. rewrite (elem_of_scoped _ _ _ _ Esc m). naive_solver.
    - unfold eligible. rewrite list_elem_of_filter. tauto. }
  destruct (sort_by load_leb el) as [|x rest] eqn:Eso; simpl; [done|].
  destruct (sort_by_head _ _ _ _ load_leb_total load_leb_trans Eso) as [Hx Hmin]. apply Hel in Hx as [Hx Hsv].
  assert (Hopt : ∀ m, m ∈ dvalues (s_nodes (rg_store g)) → serves m capability parameters now →
                 m = x ∨ load_leb x m = true) by (intros m ? ?; apply Hmin, Hel; auto).
  destruct (requires_approval capability) eqn:Era.
  - assert (Hc := assert_approved_cases capability (n_node_id x) parameters approval now' g).
    destruct (assert_approved _ _ _ _ _ g) as [[[]|] g1]; [|done].
    intros [= <- <-]. destruct Hc. by split_and!.
  - intros [= <- <-]. by split_and!.
Qed.

Lemma select_node_admitted capability parameters approval now now' g n g' :
  select_node stamp cfg capability None parameters approval now now' g = (Ok n, g') →
  rg_store g' = rg_store g ∧ n ∈ dvalues (s_nodes (rg_store g)) ∧
  admitted (rg_store g) n capability parameters now ∧
  (requires_approval capability = true →
   approved capability (n_node_id n) parameters approval now' (rg_approvals g) (rg_approvals g')).
Proof.
  intros E. apply select_node_spec in E as (Hst & Hf & Hn & (Hon & Hc & Hsc) & _ & Happ).
  split_and!; [done|done| |by intros Hr; rewrite Hr in Happ].
  apply elem_of_effective in Hc as (? & ? & ?). destruct (state_online _ _ Hon) as (? & ? & ?).
  split; try done. intros Hr. apply (scoped_dispatch_Ok n capability parameters ()); [|done].
  specialize (Hsc Hr). by destruct (scopes_of n ≫= _) as [[]|].
Qed.

(** Selection picks the least loaded node that can serve the request: the
    chosen node is online, effectively holds the capability and admits the
    parameters within its scope; every other node that could serve has at least
    as many active jobs, ties broken by node id; dispatch is not frozen; and a
    capability that requires approval had one, bound to the chosen node. *)
Theorem select_least_loaded capability parameters approval now now' g n g' :
  select_node stamp cfg capability None parameters approval now now' g = (Ok n, g') →
  rg_store g' = rg_store g ∧ n ∈ dvalues (s_nodes (rg_store g)) ∧
  admitted (rg_store g) n capability parameters now ∧
  (∀ m, m ∈ dvalues (s_nodes (rg_store g)) → serves m capability parameters now →
        m = n ∨ active_jobs n < active_jobs m ∨
        (active_jobs n = active_jobs m ∧ str_le (n_node_id n) (n_node_id m))) ∧
  (requires_approval capability = true →
   approved capability (n_node_id n) parameters approval now' (rg_approvals g) (rg_approvals g')).
Proof.
  intros E. destruct (select_node_admitted _ _ _ _ _ _ _ _ E) as (? & ? & ? & ?).
  apply select_node_spec in E as (_ & _ & _ & _ & Hopt & _). split_and!; try done.
  intros m Hm Hsv. destruct (Hopt m Hm Hsv) as [|Hl]; [by left|right]. unfold load_leb in Hl. bool_to_prop.
  destruct Hl as [Hl|Hl]; bool_to_prop; auto.
Qed.
End Admission.

(** ** Revocation *)

(** Revocation is final. Once a node is revoked, then after any calls it is
    still revoked, at the same instant, without a session and with the same key
    and grant; it can not attach a session or be restored, and no dispatch to it
    is admitted and no selection returns it. *)
Theorem revocation_final {V} `{ApprovalVerifierLaws V} s s' i n at_ :
  mesh_reachable stamp ed_key_ok cfg s → dget i (s_nodes s) = Some n → n_revoked_at n = Some at_ →
  mesh_steps stamp ed_key_ok cfg s s' →
  (∃ n', dget i (s_nodes s') = Some n' ∧ n_revoked_at n' = Some at_ ∧ n_session_id n' = None ∧
         n_public_key n' = n_public_key n ∧ n_granted n' = n_granted n) ∧
  (∀ sid decl ver arch now, attach_session stamp i sid decl ver arch now s' = (Err (NodeMeshError NODE_REVOKED), s')) ∧
  (∀ actor reason, restore_node stamp i actor reason s' = (Err (NodeMeshError NODE_REVOKED), s')) ∧
  (∀ cap params approval now now' (v : option V),
     is_ok (outcome (assert_dispatchable stamp cfg i cap params approval now now' (mkReg s' v))) = false) ∧
  (∀ cap params approval now now' (v : option V) m,
     outcome (select_node stamp cfg cap None params approval now now' (mkReg s' v)) = Ok m → n_node_id m ≠ i).
Proof.
  intros Hs%mesh_reachable_inv Hn Hr Hst. destruct (mesh_steps_good _ _ _ _ _ Hst Hs) as [Hs' He].
  destruct (me_nodes _ _ He i n Hn) as (n' & Hn' & Hev). assert (Hr' := ne_revoked _ _ Hev _ Hr).
  split_and!.
  - exists n'. split_and!; [done|done| |apply Hev|apply Hev].
    apply (mi_nodes _ Hs' i n' Hn'). by rewrite Hr'.
  - intros. unfold attach_session. rewrite transaction_atomic. unfold run_atomic. cbn. rewrite Hn'. cbn. by rewrite Hr'.
  - intros. unfold restore_node, lifecycle_change. rewrite transaction_atomic. unfold run_atomic. cbn.
    rewrite Hn'. cbn. by rewrite Hr'.
  - intros. destruct (assert_dispatchable _ _ _ _ _ _ _ _ _) as [[m|] g'] eqn:E; [exfalso|done].
    apply assert_dispatchable_spec in E as (_ & Hm & Ha & _). simpl in Hm. assert (m = n') as -> by congruence.
    rewrite (ad_revoked _ _ _ _ _ Ha) in Hr'. done.
  - intros cap params approval now now' v m E Hid.
    destruct (select_node _ _ _ _ _ _ _ _ _) as [r g'] eqn:Es. unfold outcome in E. simpl in E. subst r.
    apply select_node_spec in Es as (_ & _ & Hm & (Hon & _) & _). simpl in Hm.
    apply (values_by_id s' m Hs') in Hm. rewrite Hid in Hm. assert (m = n') as -> by congruence.
    destruct (state_online _ _ Hon) as [? _]. congruence.
Qed.

(** ** Enrollment *)

Lemma redeem_Ok presented d key now uuid s n s' :
  mesh_inv s → redeem_enrollment_token stamp ed_key_ok presented d key now uuid s = (Ok n, s') →
  ∃ tid sec t, split_enrollment_token presented = Ok (tid, sec) ∧ dget tid (s_tokens s) = Some t ∧
    enrollment_secret_matches tid sec (t_secret_hash t) = true ∧
    ((s' = s ∧ t_consumed_by t = Some (n_node_id n) ∧ is_some (t_consumed_at t) = true ∧
      dget (n_node_id n) (s_nodes s) = Some n ∧ n_public_key n = key) ∨
     (enrollment_failure t d now = None ∧ n = enrolled_node ("node-" +:+ uuid) t d key now ∧
      dget tid (s_tokens s') = Some (token_consume t now (n_node_id n)) ∧ dget (n_node_id n) (s_nodes s') = Some n)).
Proof.
  intros Hs. unfold redeem_enrollment_token.
  destruct (split_enrollment_token presented) as [[tid sec]|e] eqn:Esp; cbn [mbind result_bind].
  2: { by destruct e. }
  destruct (load_public_key ed_key_ok key) as [raw|e] eqn:Ek; cbn [mbind result_bind].
  2: { by destruct e. }
  unfold mbind, st_bind. rewrite transaction_atomic. unfold run_atomic.
  destruct (redeem_cases stamp tid sec d key now uuid s Hs)
    as [(dr & E2 & f & E1)|[(e & E1 & E2)|(t & Et & Em & [(n0 & E & Hc & Hb & Hg & Hk)|(Hf & E1 & dr & E2)])]];
    destruct (run_direct stamp (redeem_body tid sec d key now uuid) s) as [x s1]; simpl in *; simplify_eq; try (by intros; simplify_eq).
  - intros [= <- <-]. exists tid, sec, t. split_and!; try done. left. by split_and!.
  - intros [= <- <-]. exists tid, sec, t. split_and!; try done. right. split_and!; try done; simpl.
    + assert (t_token_id t = tid) as -> by by apply (sw_token_key _ (mi_wf _ Hs)). by rewrite dget_dset_eq.
    + by rewrite dget_dset_eq.
Qed.

(** Enrollment tokens are single-use: when presenting a token enrolled a
    node, then after any calls a further successful presentation of that token
    returns the same node, only to the holder of the same public key, and
    changes nothing; so one token never yields two nodes. *)
Theorem enrollment_single_use presented d key now uuid s n s1 s2 d' key' now' uuid' n' s3 :
  mesh_reachable stamp ed_key_ok cfg s → dget ("node-" +:+ uuid) (s_nodes s) = None →
  redeem_enrollment_token stamp ed_key_ok presented d key now uuid s = (Ok n, s1) →
  mesh_steps stamp ed_key_ok cfg s1 s2 →
  redeem_enrollment_token stamp ed_key_ok presented d' key' now' uuid' s2 = (Ok n', s3) →
  n_node_id n' = n_node_id n ∧ key' = key ∧ s3 = s2 ∧ n_granted n' = n_granted n.
Proof.
  intros Hs%mesh_reachable_inv Hfresh E1 Hst E2.
  assert (Hs1 : mesh_inv s1).
  { assert (H := redeem_good stamp ed_key_ok presented d key now uuid s Hs Hfresh). unfold final in H.
    rewrite E1 in H. apply H. }
  destruct (mesh_steps_good _ _ _ _ _ Hst Hs1) as [Hs2 He].
  apply redeem_Ok in E1 as (tid & sec & t & Hsp & Ht & _ & Hcase); [|done].
  apply redeem_Ok in E2 as (tid' & sec' & t' & Hsp' & Ht' & _ & Hcase'); [|done].
  assert (tid' = tid) as -> by congruence.
  assert (∃ t1, dget tid (s_tokens s1) = Some t1 ∧ is_some (t_consumed_at t1) = true ∧
    t_consumed_by t1 = Some (n_node_id n) ∧ dget (n_node_id n) (s_nodes s1) = Some n ∧ n_public_key n = key)
    as (t1 & Ht1 & Hc1 & Hb1 & Hg1 & Hk1).
  { destruct Hcase as [(-> & ? & ? & ? & ?)|(_ & -> & Ht1 & Hg1)]; [by exists t|].
    eexists. split_and!; [exact Ht1|done..]. }
  destruct (me_tokens _ _ He _ _ Ht1) as (t2 & Ht2 & Htev). destruct (te_consumed _ _ Htev Hc1) as [Ec Eb].
  assert (t' = t2) as -> by congruence.
  destruct (me_nodes _ _ He _ _ Hg1) as (n2 & Hg2 & Hnev).
  destruct Hcase' as [(-> & Hb & _ & Hg' & Hk')|(Hf & _)].
  - assert (n_node_id n' = n_node_id n) as Hid by congruence. rewrite Hid in Hg'.
    assert (n' = n2) as -> by congruence. split_and!; [done| |done|apply Hnev].
    rewrite <- Hk', <- Hk1. apply Hnev.
  - apply enrollment_failure_None in Hf as (_ & Hf & _). unfold consumed_token in Hf. congruence.
Qed.

(** ** Sweeps and restart recovery *)

Definition detach_if (hit : NodeRecord → bool) (kn : string * NodeRecord) : string * NodeRecord :=
  (kn.1, if hit kn.2 then node_detach kn.2 else kn.2).

Lemma detach_if_eq hit k n : detach_if hit (k, n) = (k, if hit n then node_detach n else n).
Proof. done. Qed.

(** The loop detaches exactly the selected records, in place. *)
Lemma detach_loop_run hit mk pre post s :
  s_nodes s = pre ++ post → NoDup (dkeys (pre ++ post)) → Forall (λ kn, n_node_id kn.2 = kn.1) post →
  run_direct stamp (detach_loop hit mk (dvalues post)) s =
    (Ok (map n_node_id (List.filter hit (dvalues post))),
     mkStore (s_tokens s) (pre ++ map (detach_if hit) post) (s_jobs s) (s_control s)
       (foldl (link_one stamp) (s_events s) (map mk (List.filter hit (dvalues post))))).
Proof.
  revert pre s. induction post as [|[k n] post IH]; intros pre s Hs Hnd Hk.
  - simpl. rewrite <- Hs. by destruct s.
  - apply Forall_cons in Hk as [Hk Hks]. simpl in Hk.
    assert (Hkp : k ∉ dkeys pre).
    { unfold dkeys in *. rewrite fmap_app in Hnd. apply NoDup_app in Hnd as (_ & Hd & _). set_solver. }
    change (dvalues ((k, n) :: post)) with (n :: dvalues post). remember (dvalues post) as vs eqn:Evs. clear Evs.
    cbn [detach_loop List.filter]. destruct (hit n) eqn:Eh.
    + cbn. rewrite run_direct_bind.
      match goal with |- context [run_direct stamp _ ?x] => set (s1 := x) end.
      rewrite (IH (pre ++ [(k, node_detach n)]) s1).
      * cbn [map]. rewrite detach_if_eq, Eh, <- app_assoc. done.
      * cbn. rewrite Hs, Hk, dset_middle by done. by rewrite <- app_assoc.
      * unfold dkeys in *. rewrite !fmap_app in *. by rewrite <- app_assoc.
      * done.
    + rewrite (IH (pre ++ [(k, n)]) s).
      * cbn [map]. by rewrite detach_if_eq, Eh, <- app_assoc.
      * by rewrite Hs, <- app_assoc.
      * by rewrite <- app_assoc.
      * done.
Qed.

Definition reconcile_if (now : datetime) (kj : string * NodeJobRecord) : string * NodeJobRecord :=
  (kj.1, if terminal (j_status kj.2) then kj.2 else timed_out kj.2 now).

Lemma reconcile_if_eq now k j :
  reconcile_if now (k, j) = (k, if terminal (j_status j) then j else timed_out j now).
Proof. done. Qed.

Definition reconcile_draft (j : NodeJobRecord) : AuditDraft :=
  draft "control-plane" AA_JOB_RECONCILED AD_OBSERVE RESTART_REASON (Some (j_node_id j)) (Some (j_job_id j))
    [("previous_status", JStr (status_value (j_status j)))].

Definition unfinished (jobs : dict string NodeJobRecord) : list NodeJobRecord :=
  List.filter (λ j, negb (terminal (j_status j))) (dvalues jobs).

Lemma reconcile_run now pre post s :
  s_jobs s = pre ++ post → NoDup (dkeys (pre ++ post)) → Forall (λ kj, j_job_id kj.2 = kj.1) post →
  run_direct stamp (reconcile_jobs (dvalues post) now) s =
    (Ok (map j_job_id (unfinished post)),
     mkStore (s_tokens s) (s_nodes s) (pre ++ map (reconcile_if now) post) (s_control s)
       (foldl (link_one stamp) (s_events s) (map reconcile_draft (unfinished post)))).
Proof.
  unfold unfinished. revert pre s. induction post as [|[k j] post IH]; intros pre s Hs Hnd Hk.
  - simpl. rewrite <- Hs. by destruct s.
  - apply Forall_cons in Hk as [Hk Hks]. simpl in Hk.
    assert (Hkp : k ∉ dkeys pre).
    { unfold dkeys in *. rewrite fmap_app in Hnd. apply NoDup_app in Hnd as (_ & Hd & _). set_solver. }
    change (dvalues ((k, j) :: post)) with (j :: dvalues post). remember (dvalues post) as vs eqn:Evs. clear Evs.
    cbn [reconcile_jobs List.filter]. rewrite ?negb_true_iff. destruct (terminal (j_status j)) eqn:Et; cbn [negb].
    + rewrite (IH (pre ++ [(k, j)]) s).
      * cbn [map]. by rewrite reconcile_if_eq, Et, <- app_assoc.
      * by rewrite Hs, <- app_assoc.
      * by rewrite <- app_assoc.
      * done.
    + cbn. rewrite run_direct_bind.
      match goal with |- context [run_direct stamp _ ?x] => set (s1 := x) end.
      rewrite (IH (pre ++ [(k, timed_out j now)]) s1).
      * cbn [map]. rewrite reconcile_if_eq, Et, <- app_assoc. done.
      * cbn. rewrite Hs, Hk, dset_middle by done. by rewrite <- app_assoc.
      * unfold dkeys in *. rewrite !fmap_app in *. by rewrite <- app_assoc.
      * done.
Qed.

(** Every entry of a well-formed table is keyed by its identifier. *)
Lemma keyed_entries {A} (f : A → string) (d : dict string A) :
  dict_wf d → dall (λ k v, f v = k) d → Forall (λ kv, f kv.2 = kv.1) d.
Proof.
  intros Hw Hk. apply Forall_forall. intros [k v] Hin. simpl. apply Hk. by apply dget_wf_elem.
Qed.

Lemma sweep_spec now s :
  mesh_inv s →
  sweep_expired_heartbeats stamp cfg now s =
    (Ok (map n_node_id (List.filter (λ n, heartbeat_expired cfg n now) (dvalues (s_nodes s)))),
     mkStore (s_tokens s) (map (detach_if (λ n, heartbeat_expired cfg n now)) (s_nodes s)) (s_jobs s) (s_control s)
       (foldl (link_one stamp) (s_events s)
          (map expired_draft (List.filter (λ n, heartbeat_expired cfg n now) (dvalues (s_nodes s)))))).
Proof.
  intros Hs. destruct (mi_wf _ Hs) as [_ Hw _ _ Hk _]. unfold sweep_expired_heartbeats. rewrite transaction_atomic. unfold run_atomic. cbn.
  rewrite sweep_is_loop, (detach_loop_run _ _ [] (s_nodes s)); [done..|]. by apply keyed_entries.
Qed.

Lemma recover_spec now s :
  mesh_inv s →
  recover_after_restart stamp now s =
    (Ok (mkReport (map n_node_id (List.filter connected (dvalues (s_nodes s)))) (map j_job_id (unfinished (s_jobs s)))
           (c_frozen (s_control s)) (c_freeze_epoch (s_control s))),
     mkStore (s_tokens s) (map (detach_if connected) (s_nodes s)) (map (reconcile_if now) (s_jobs s)) (s_control s)
       (foldl (link_one stamp) (s_events s)
          (map restart_draft (List.filter connected (dvalues (s_nodes s))) ++ map reconcile_draft (unfinished (s_jobs s))))).
Proof.
  intros Hs. destruct (mi_wf _ Hs) as [_ Hw Hwj _ Hk Hkj]. unfold recover_after_restart.
  rewrite transaction_atomic. unfold run_atomic. cbn. rewrite run_direct_bind, clear_is_loop.
  rewrite (detach_loop_run _ _ [] (s_nodes s)); [|done|done|by apply keyed_entries]. cbn.
  rewrite run_direct_bind, (reconcile_run now [] (s_jobs s)); [|done|done|by apply keyed_entries]. cbn.
  by rewrite foldl_app.
Qed.

Lemma filter_map_none {A B} (f : A → B) (hit : B → bool) l :
  (∀ x, hit (f x) = false) → List.filter hit (map f l) = [].
Proof. intros H. induction l as [|x l IH]; simpl; [done|]. by rewrite H. Qed.

Lemma dget_map_values {A B} (g : string * A → string * B) (f : A → B) (d : dict string A) k :
  (∀ kv, g kv = (kv.1, f kv.2)) → dget k (map g d) = f <$> dget k d.
Proof. intros Hg. induction d as [|[k' v] d IH]; simpl; [done|]. rewrite Hg. simpl. by case_decide. Qed.

Lemma map_idem {A} (f : A → A) l : (∀ x, f (f x) = f x) → map f (map f l) = map f l.
Proof. intros H. rewrite map_map. apply map_ext, H. Qed.

(** Restart recovery: no session survives, every unfinished job becomes
    timed-out with the restart reason, finished jobs, tokens and the kill switch
    are untouched and the rest of each node record is kept; the report lists
    exactly what changed. Running it again, at any time, reports no change and
    leaves the store, audit included, as it is. *)
Theorem restart_recovery now now' s :
  mesh_reachable stamp ed_key_ok cfg s →
  let p := recover_after_restart stamp now s in
  (∀ i n, dget i (s_nodes s) = Some n →
     dget i (s_nodes (final p)) = Some (if connected n then node_detach n else n)) ∧
  (∀ i n, dget i (s_nodes (final p)) = Some n → n_session_id n = None) ∧
  (∀ i j, dget i (s_jobs s) = Some j →
     dget i (s_jobs (final p)) = Some (if terminal (j_status j) then j else timed_out j now)) ∧
  (∀ i j, dget i (s_jobs (final p)) = Some j → terminal (j_status j) = true) ∧
  s_tokens (final p) = s_tokens s ∧ s_control (final p) = s_control s ∧
  (∃ r, outcome p = Ok r ∧ rp_sessions_cleared r = map n_node_id (List.filter connected (dvalues (s_nodes s))) ∧
        rp_jobs_reconciled r = map j_job_id (unfinished (s_jobs s))) ∧
  (∃ r, recover_after_restart stamp now' (final p) = (Ok r, final p) ∧ report_changed r = false).
Proof.
  intros Hs%mesh_reachable_inv p.
  assert (Hs' : mesh_inv (final p)) by by apply recover_good.
  assert (E := recover_spec now s Hs). fold p in E.
  assert (En : s_nodes (final p) = map (detach_if connected) (s_nodes s)) by by rewrite E.
  assert (Ej : s_jobs (final p) = map (reconcile_if now) (s_jobs s)) by by rewrite E.
  assert (Gn : ∀ i, dget i (s_nodes (final p)) =
    (λ n, if connected n then node_detach n else n) <$> dget i (s_nodes s)).
  { intros i. rewrite En. by apply dget_map_values. }
  assert (Gj : ∀ i, dget i (s_jobs (final p)) =
    (λ j, if terminal (j_status j) then j else timed_out j now) <$> dget i (s_jobs s)).
  { intros i. rewrite Ej. by apply dget_map_values. }
  assert (Hfn : ∀ n : NodeRecord, connected (if connected n then node_detach n else n) = false).
  { intros n. by destruct (connected n) eqn:Ec. }
  assert (Hfj : ∀ j, terminal (j_status (if terminal (j_status j) then j else timed_out j now)) = true).
  { intros j. by destruct (terminal (j_status j)) eqn:Et. }
  split_and!; [| | | |by rewrite E..| |].
  - intros i n Hi. by rewrite Gn, Hi.
  - intros i n. rewrite Gn. destruct (dget i (s_nodes s)) as [m|]; [|done]. intros [= <-]. specialize (Hfn m).
    unfold connected in Hfn at 1. by destruct (n_session_id _).
  - intros i j Hi. by rewrite Gj, Hi.
  - intros i j. rewrite Gj. destruct (dget i (s_jobs s)) as [m|]; [|done]. intros [= <-]. apply Hfj.
  - rewrite E. by eexists.
  - rewrite (recover_spec now' (final p) Hs'). rewrite En, Ej. unfold unfinished, dvalues.
    change (?d.*2) with (map snd d). rewrite !map_map.
    rewrite (filter_map_none (λ x, (detach_if connected x).2)) by (intros []; apply Hfn).
    rewrite (filter_map_none (λ x, (reconcile_if now x).2)) by (intros []; simpl; by rewrite Hfj).
    exists (mkReport [] [] (c_frozen (s_control (final p))) (c_freeze_epoch (s_control (final p)))).
    split; [|done]. cbn [map app foldl]. f_equal.
    rewrite (map_ext (λ x, detach_if connected (detach_if connected x)) (detach_if connected)).
    2: { intros [k n]. rewrite !detach_if_eq. by rewrite Hfn. }
    rewrite (map_ext (λ x, reconcile_if now' (reconcile_if now x)) (reconcile_if now)).
    2: { intros [k j]. rewrite !reconcile_if_eq. by rewrite Hfj. }
    rewrite <- En, <- Ej. by destruct (final p).
Qed.

Lemma foldl_link_length l ds : length (foldl (link_one stamp) l ds) = (length l + length ds)%nat.
Proof.
  revert l. induction ds as [|d ds IH]; intros l; simpl; [lia|].
  rewrite IH. unfold link_one, append_draft. rewrite length_app. simpl. lia.
Qed.

(** The heartbeat sweep closes exactly the sessions whose last heartbeat is
    older than the expiry: it returns their node ids, leaves no such session
    behind, keeps every other record as it is, and records one audit event per
    closed session. *)
Theorem sweep_exact now s :
  mesh_reachable stamp ed_key_ok cfg s →
  let p := sweep_expired_heartbeats stamp cfg now s in
  let hit n := heartbeat_expired cfg n now in
  outcome p = Ok (map n_node_id (List.filter hit (dvalues (s_nodes s)))) ∧
  (∀ i n, dget i (s_nodes s) = Some n → dget i (s_nodes (final p)) = Some (if hit n then node_detach n else n)) ∧
  (∀ i n, dget i (s_nodes (final p)) = Some n → hit n = false) ∧
  length (s_events (final p)) = (length (s_events s) + length (List.filter hit (dvalues (s_nodes s))))%nat ∧
  verify_audit_chain (final p) = true.
Proof.
  intros Hs%mesh_reachable_inv p hit. assert (E := sweep_spec now s Hs). fold p in E.
  assert (G : ∀ i, dget i (s_nodes (final p)) = (λ n, if hit n then node_detach n else n) <$> dget i (s_nodes s)).
  { intros i. rewrite E. by apply dget_map_values. }
  split_and!.
  - by rewrite E.
  - intros i n Hi. by rewrite G, Hi.
  - intros i n. rewrite G. destruct (dget i (s_nodes s)) as [m|]; [|done]. intros [= <-].
    by destruct (hit m) eqn:Eh.
  - rewrite E. cbn [final snd s_events]. fold hit. by rewrite foldl_link_length, length_map.
  - apply sweep_good with (cfg := cfg) (now := now) (stamp := stamp) in Hs. apply Hs.
Qed.

(** ** The kill switch *)

Lemma freeze_run actor reason now s :
  freeze_dispatch stamp actor reason now s =
  if c_frozen (s_control s) then (Ok (s_control s), s)
  else let c := mkControl true (c_freeze_epoch (s_control s) + 1) (Some now) reason in
       (Ok c, store_audit stamp (draft actor AA_DISPATCH_FROZEN AD_ALLOW reason None None
                [("freeze_epoch", JInt (c_freeze_epoch c))]) (store_put_control c s)).
Proof.
  unfold freeze_dispatch. rewrite transaction_atomic. unfold run_atomic. cbn. by destruct (c_frozen (s_control s)).
Qed.

Lemma issue_frozen name kind platform granted by_ ttl scopes at_ idb secb s :
  c_frozen (s_control s) = true →
  let q := issue_enrollment_token stamp cfg name kind platform granted by_ ttl scopes at_ idb secb s in
  is_ok (outcome q) = false ∧ s_tokens (final q) = s_tokens s.
Proof.
  intros Hf. cbv zeta. unfold issue_enrollment_token, liftR, check, mbind, st_bind. cbv zeta.
  destruct (enrollment_grants _ _ _ _ _) as [gs|]; [|done].
  destruct (make_token (mkToken _ _ _ _ _ _ _ _ _ _ _ _ _)) as [tk|]; [|done].
  rewrite transaction_atomic. unfold run_atomic. cbn. by rewrite Hf.
Qed.

(** The dispatch kill switch. Freezing takes effect at once and starts a new
    freeze epoch, or changes nothing if already frozen; while frozen no dispatch
    is admitted, no node is selected and no enrollment token is stored; only an
    unfreeze that names the current epoch lifts it, keeping the epoch, so an
    unfreeze meant for an earlier freeze can not lift a later one. *)
Theorem kill_switch {V} `{ApprovalVerifierLaws V} actor reason now s :
  let p := freeze_dispatch stamp actor reason now s in
  let c := s_control (final p) in
  c_frozen c = true ∧ outcome p = Ok c ∧
  c_freeze_epoch c = (if c_frozen (s_control s) then c_freeze_epoch (s_control s) else c_freeze_epoch (s_control s) + 1) ∧
  (c_frozen (s_control s) = true → final p = s) ∧
  (∀ i cap params approval t t' (v : option V),
     is_ok (outcome (assert_dispatchable stamp cfg i cap params approval t t' (mkReg (final p) v))) = false) ∧
  (∀ cap params approval t t' (v : option V),
     is_ok (outcome (select_node stamp cfg cap None params approval t t' (mkReg (final p) v))) = false) ∧
  (∀ name kind platform granted by_ ttl scopes at_ idb secb,
     let q := issue_enrollment_token stamp cfg name kind platform granted by_ ttl scopes at_ idb secb (final p) in
     is_ok (outcome q) = false ∧ s_tokens (final q) = s_tokens s) ∧
  (∀ actor' e reason' t, let q := unfreeze_dispatch stamp actor' e reason' t (final p) in
     if e =? c_freeze_epoch c
     then c_frozen (s_control (final q)) = false ∧ c_freeze_epoch (s_control (final q)) = c_freeze_epoch c
     else outcome q = Err (NodeMeshError FREEZE_EPOCH_MISMATCH) ∧ s_control (final q) = c).
Proof.
  intros p c. assert (Hp := freeze_run actor reason now s). fold p in Hp.
  assert (Hf : c_frozen c = true ∧ outcome p = Ok c ∧ s_tokens (final p) = s_tokens s ∧
    c_freeze_epoch c = (if c_frozen (s_control s) then c_freeze_epoch (s_control s)
                        else c_freeze_epoch (s_control s) + 1) ∧ (c_frozen (s_control s) = true → final p = s)).
  { unfold c. rewrite Hp. destruct (c_frozen (s_control s)) eqn:Ef; by split_and!. }
  destruct Hf as (Hf & Ho & Ht & He & Hsame). split_and!; try done.
  - intros. destruct (assert_dispatchable _ _ _ _ _ _ _ _ _) as [[m|] g'] eqn:E; [exfalso|done].
    apply assert_dispatchable_spec in E as (_ & _ & Ha & _). assert (Hb := ad_thawed _ _ _ _ _ Ha).
    simpl in Hb. unfold c in Hf. congruence.
  - intros. destruct (select_node _ _ _ _ _ _ _ _ _) as [[m|] g'] eqn:E; [exfalso|done].
    apply select_node_spec in E as (_ & Hb & _). simpl in Hb. unfold c in Hf. congruence.
  - intros. subst q. rewrite <- Ht. by apply issue_frozen.
  - intros. subst q. unfold unfreeze_dispatch, outcome, final, mbind, st_bind. rewrite transaction_atomic. unfold run_atomic. cbn.
    change (s_control p.2) with c. rewrite Hf. simpl. destruct (e =? c_freeze_epoch c); done.
Qed.
End Mesh.
