(* ===== verification/NodeRegistryExamples.v ===== *)
(** A concrete mesh: an operator enrolls a workstation with a read and a write
    scope, the node attaches, and the registry's theorems are applied to it. *)

From S2P Require Import Prelude PyDict PyTime Json JsonParse Sha256 NodeModels NodeScopes NodeAudit NodeStore.
From S2P Require Import NodeCrypto Authorization AuthorityRepository NodeApprovals NodeRegistry NodeRegistryFacts.
From S2P Require Import NodeRegistryProps.

Open Scope Z_scope.

(** * Scopes from an operator's enrollment request to the dispatch check: what [_encode_scopes] stores in the token, and the node keeps, parses back to the same typed scopes (src/olympus/nodes/registry.py) *)

From S2P Require Import NodeScopesFacts.

(** A scope as the constructor for its capability returns it. *)
Definition built (platform : NodePlatform) (cs : string * Scope) : Prop :=
  requires_scope cs.1 = true ∧ ∃ payload, build_scope cs.1 payload platform = Ok cs.2.

(** The stored form. *)
Definition stored (cs : string * Scope) : string * string := (cs.1, dumps (JObj (scope_to_mapping cs.2))).

Lemma read_from_mapping_inv payload pf s :
  read_from_mapping payload pf = Ok s → read_scope (rs_roots s) (rs_max_bytes s) pf = Ok s ∧ rs_platform s = pf.
Proof.
  unfold read_from_mapping. intros (roots & _ & (mb & _ & H)%bind_Ok)%bind_Ok.
  assert (H' := H). apply read_scope_inv in H' as [-> _]. done.
Qed.

Lemma write_from_mapping_inv payload pf s :
  write_from_mapping payload pf = Ok s →
  write_scope (ws_roots s) (ws_max_bytes s) (ws_allow_overwrite s) pf = Ok s ∧ ws_platform s = pf.
Proof.
  unfold write_from_mapping. intros (roots & _ & (mb & _ & H)%bind_Ok)%bind_Ok.
  assert (H' := H). apply write_scope_inv in H' as [-> _]. done.
Qed.

(** The mapping with its keys in the order [json.dumps] writes them. *)
Definition canonical_mapping (s : Scope) : obj :=
  match s with
  | ReadScope r => [("max_bytes", JInt (rs_max_bytes r)); ("roots", JList (map JStr (rs_roots r)))]
  | WriteScope w => [("allow_overwrite", JBool (ws_allow_overwrite w)); ("max_bytes", JInt (ws_max_bytes w));
                     ("roots", JList (map JStr (ws_roots w)))]
  end.

Lemma strs_wf l : foldr (λ x P, json_wf x ∧ P) True (map JStr l).
Proof. by induction l. Qed.

Lemma loads_stored s : loads (dumps (JObj (scope_to_mapping s))) = Some (JObj (canonical_mapping s)).
Proof.
  rewrite dumps_jnorm, loads_print.
  - destruct s; cbn; by rewrite jnorm_strs.
  - apply json_wf_jnorm. destruct s; cbn; split_and!; try done; try apply strs_wf;
      repeat (apply NoDup_cons; split; [set_solver|]); apply NoDup_nil_2.
Qed.

Lemma rebuild cs pf :
  built pf cs → build_scope cs.1 (canonical_mapping cs.2) pf = Ok cs.2.
Proof.
  destruct cs as [c s]. intros [Hr [payload Hb]]. simpl in *. unfold build_scope in *.
  destruct (bool_decide (c = FILE_WRITE)).
  - destruct (write_from_mapping payload pf) as [w|] eqn:E; [|done]. cbn in Hb. simplify_eq/=.
    apply write_from_mapping_inv in E as [E <-]. apply write_mapping_roundtrip in E.
    change (WriteScope <$> write_from_mapping (write_to_mapping w) (ws_platform w) = Ok (WriteScope w)). by rewrite E.
  - destruct (read_from_mapping payload pf) as [w|] eqn:E; [|done]. cbn in Hb. simplify_eq/=.
    apply read_from_mapping_inv in E as [E <-]. apply read_mapping_roundtrip in E.
    change (ReadScope <$> read_from_mapping (read_to_mapping w) (rs_platform w) = Ok (ReadScope w)). by rewrite E.
Qed.

Lemma encode_items scopes pf enc :
  encode_scope_items scopes pf = Ok enc →
  ∃ l, enc = map stored l ∧ Forall (built pf) l ∧ dkeys l = dkeys scopes ∧
       Forall2 (λ cp cs, cp.1 = cs.1 ∧ build_scope cp.1 cp.2 pf = Ok cs.2) scopes l.
Proof.
  revert enc. induction scopes as [|[c p] scopes IH]; intros enc; cbn [encode_scope_items].
  - intros [= <-]. by exists [].
  - destruct (requires_scope c) eqn:Er; [|done].
    intros (s & Hs & (rest & Hrest & [= <-])%bind_Ok)%bind_Ok.
    destruct (IH rest Hrest) as (l & -> & Hl & Hk & H2). exists ((c, s) :: l).
    split_and!; [done| | |].
    + constructor; [|done]. split; [done|]. by exists p.
    + change (c :: dkeys l = c :: dkeys scopes). by rewrite Hk.
    + by constructor.
Qed.

Definition parsed_json (cs : string * Scope) : string * json := (cs.1, JObj (canonical_mapping cs.2)).

Lemma decode_stored l acc :
  NoDup (dkeys acc ++ dkeys l) → decode_scopes (map stored l) acc = Ok (acc ++ map parsed_json l).
Proof.
  revert acc. induction l as [|[c s] l IH]; intros acc Hnd; cbn [map decode_scopes stored].
  - by rewrite app_nil_r.
  - unfold stored at 1. cbn [fst snd]. rewrite loads_stored. cbn.
    apply NoDup_app in Hnd as (Ha & Hd & Hl). simpl in Hl. apply NoDup_cons in Hl as [Hc Hl].
    rewrite dset_fresh by (intros Hin; apply (Hd c Hin); simpl; by left).
    rewrite IH; [by rewrite <- app_assoc|]. unfold dkeys. rewrite fmap_app. simpl.
    apply NoDup_app. split_and!; [|set_solver|done].
    apply NoDup_app. split_and!; [done|set_solver|apply NoDup_singleton].
Qed.

Lemma parse_built pf l acc :
  Forall (built pf) l → NoDup (dkeys acc ++ dkeys l) →
  parse_scopes_go (map parsed_json l) pf acc = Ok (acc ++ l).
Proof.
  revert acc. induction l as [|[c s] l IH]; intros acc Hb Hnd; cbn [map parse_scopes_go parsed_json].
  - by rewrite app_nil_r.
  - apply Forall_cons in Hb as [Hc Hb]. unfold parsed_json at 1. cbn [fst snd].
    assert (Hr : requires_scope c = true) by apply Hc. assert (Hrb := rebuild (c, s) pf Hc).
    cbn [fst snd] in Hrb. rewrite Hr, Hrb. cbn.
    apply NoDup_app in Hnd as (Ha & Hd & Hl). simpl in Hl. apply NoDup_cons in Hl as [Hcn Hl].
    rewrite dset_fresh by (intros Hin; apply (Hd c Hin); simpl; by left).
    rewrite IH; [by rewrite <- app_assoc|done|]. unfold dkeys. rewrite fmap_app. simpl.
    apply NoDup_app. split_and!; [|set_solver|done].
    apply NoDup_app. split_and!; [done|set_solver|apply NoDup_singleton].
Qed.

(** Scopes survive storage: whatever scopes an enrollment request carries,
    once the registry accepted them and the node stores their canonical JSON,
    the scopes used at dispatch for that node are exactly the typed scopes the
    request named, one per capability. *)
Theorem scope_storage_roundtrip scopes enc n :
  dict_wf scopes → encode_scopes scopes (n_platform n) = Ok enc → n_scopes n = enc →
  ∃ parsed, scopes_of n = Ok parsed ∧
    ∀ c payload, dget c scopes = Some payload →
      ∃ sc, build_scope c payload (n_platform n) = Ok sc ∧ dget c parsed = Some sc.
Proof.
  intros Hwf Henc Hn. unfold encode_scopes in Henc.
  destruct (encode_scope_items scopes (n_platform n)) as [items|] eqn:E; [|done]. cbn in Henc.
  injection Henc as <-.
  apply encode_items in E as (l & -> & Hb & Hk & H2).
  assert (Hsort : sort_keys (map stored l) = map stored (sort_keys l)).
  { unfold sort_keys. by apply sort_by_map. }
  assert (Hperm : sort_keys l ≡ₚ l) by apply sort_by_Permutation.
  assert (Hnd : NoDup (dkeys (sort_keys l))).
  { unfold dkeys in *. rewrite Hperm. by rewrite Hk. }
  exists (sort_keys l). split.
  - unfold scopes_of. rewrite Hn, Hsort, decode_stored by done. cbn. unfold parse_scopes.
    rewrite parse_built; [done| |done]. by rewrite Hperm.
  - intros c payload Hc. apply dget_Some_elem in Hc. apply list_elem_of_lookup in Hc as [i Hi].
    destruct (Forall2_lookup_l _ _ _ _ _ H2 Hi) as ([c' sc] & Hl & Hc' & Hbd). simpl in *. subst c'.
    exists sc. split; [done|]. apply dget_wf_elem; [done|]. rewrite Hperm. by eapply list_elem_of_lookup_2.
Qed.

(** * The mesh *)

Definition demo_stamp (n : nat) : datetime * string := (seconds (Z.of_nat n), "nae-demo").
Definition demo_cfg : Config := mkConfig 30 90 900.
Definition any_key (_ : string) : bool := true.
Definition demo_key : string := encode_bytes "0123456789abcdef0123456789abcdef".
Definition demo_scopes : dict string obj :=
  [("fs.write@1", [("roots", JList [JStr "/srv/drop"])]);
   ("fs.read@1", [("roots", JList [JStr "/srv/data"]); ("max_bytes", JInt 5000)])].
Definition demo_desc : NodeDescription :=
  mkDescription "desk" WORKSTATION LINUX "x86_64" "1.0" ["fs.read@1"; "fs.write@1"] [].

#[local] Instance demo_verifier : ApprovalVerifier Verifier := node_verifier toy_verify.
#[local] Instance demo_verifier_laws : ApprovalVerifierLaws Verifier := node_verifier_laws toy_verify.

Definition issue_demo : MeshStore → result exn IssuedEnrollment * MeshStore :=
  issue_enrollment_token demo_stamp demo_cfg "desk" WORKSTATION LINUX ["fs.read@1"; "fs.write@1"] "op" None
    demo_scopes (seconds 10) "abcdefgh" "secret-secret".
Definition demo_presented : string := is_presented (new_enrollment_secret "abcdefgh" "secret-secret").
Definition redeem_demo (uuid : string) (now : datetime) : MeshStore → result exn NodeRecord * MeshStore :=
  redeem_enrollment_token demo_stamp any_key demo_presented demo_desc demo_key now uuid.

Definition mesh1 : MeshStore := Eval vm_compute in final (issue_demo empty_store).
Definition mesh2 : MeshStore := Eval vm_compute in final (redeem_demo "u1" (seconds 20) mesh1).
Definition mesh3 : MeshStore := Eval vm_compute in
  final (attach_session demo_stamp "node-u1" "sess-1" ["fs.read@1"; "fs.write@1"] "1.0" "x86_64" (seconds 30) mesh2).

Notation demo_reachable := (mesh_reachable demo_stamp any_key demo_cfg).
Notation demo_step := (mesh_step demo_stamp any_key demo_cfg).

Lemma demo_reach_step s s' : demo_reachable s → demo_step s s' → demo_reachable s'.
Proof. intros H Hs. eapply rtc_r; eauto. Qed.

Lemma mesh1_reachable : demo_reachable mesh1.
Proof.
  eapply demo_reach_step; [apply rtc_refl|].
  assert (mesh1 = final (issue_demo empty_store)) as -> by (vm_compute; reflexivity).
  apply ms_issue. reflexivity.
Qed.

Lemma mesh2_reachable : demo_reachable mesh2.
Proof.
  eapply demo_reach_step; [apply mesh1_reachable|].
  assert (mesh2 = final (redeem_demo "u1" (seconds 20) mesh1)) as -> by (vm_compute; reflexivity).
  apply ms_redeem. reflexivity.
Qed.

Lemma mesh3_reachable : demo_reachable mesh3.
Proof.
  eapply demo_reach_step; [apply mesh2_reachable|].
  assert (mesh3 = final (attach_session demo_stamp "node-u1" "sess-1" ["fs.read@1"; "fs.write@1"] "1.0" "x86_64"
    (seconds 30) mesh2)) as -> by (vm_compute; reflexivity).
  apply ms_attach.
Qed.

Lemma mesh_invariant_witness : verify_audit_chain mesh3 = true ∧ dmem "node-u1" (s_nodes mesh3) = true.
Proof. split; [|reflexivity]. exact (proj1 (mesh_invariant demo_stamp any_key demo_cfg mesh3 mesh3_reachable)). Defined.

(** An approved write. *)
Definition write_params : obj :=
  [("path", JStr "/srv/drop/a.txt"); ("content_sha256", JStr (sha256_hex "hello")); ("content_length", JInt 5)].
Definition write_digest : string := Eval vm_compute in
  match expected_action_digest "fs.write@1" "node-u1" write_params with Ok d => d | Err _ => "" end.
Definition write_approval : Approval := mkApproval "ap-9" write_digest (seconds 30) (seconds 90) "commander" "k1".
Definition demo_reg : Reg (V := Verifier) := mkReg mesh3 (Some (mkVerifier [("commander", "k1")] ∅)).

Lemma dispatch_admission_sound_witness :
  ∃ n g', assert_dispatchable demo_stamp demo_cfg "node-u1" "fs.write@1" write_params (Some (AnApproval write_approval))
            (seconds 40) (seconds 41) demo_reg = (Ok n, g') ∧
    admitted demo_cfg mesh3 n "fs.write@1" write_params (seconds 40) ∧
    approved "fs.write@1" "node-u1" write_params (Some (AnApproval write_approval)) (seconds 41)
      (rg_approvals demo_reg) (rg_approvals g').
Proof.
  destruct (run_is_ok (assert_dispatchable demo_stamp demo_cfg "node-u1" "fs.write@1" write_params
    (Some (AnApproval write_approval)) (seconds 40) (seconds 41) demo_reg)) as [n E]; [vm_compute; reflexivity|].
  eexists _, _. split; [exact E|].
  destruct (dispatch_admission_sound demo_stamp demo_cfg _ _ _ _ _ _ _ _ _ E) as (_ & _ & Ha & Hap & _).
  split; [exact Ha|]. apply (Hap CAP_FILE_WRITE eq_refl). left. reflexivity.
Defined.

Definition read_params : obj := [("path", JStr "/srv/data/x/../a.txt"); ("max_bytes", JInt 4096)].

Lemma select_least_loaded_witness :
  ∃ n g', select_node demo_stamp demo_cfg "fs.read@1" None read_params None (seconds 40) (seconds 41) demo_reg = (Ok n, g') ∧
    admitted demo_cfg mesh3 n "fs.read@1" read_params (seconds 40).
Proof.
  destruct (run_is_ok (select_node demo_stamp demo_cfg "fs.read@1" None read_params None (seconds 40) (seconds 41)
    demo_reg)) as [n E]; [vm_compute; reflexivity|].
  eexists _, _. split; [exact E|].
  exact (proj1 (proj2 (proj2 (select_least_loaded demo_stamp any_key demo_cfg _ _ _ _ _ _ _ _ E)))).
Defined.

Definition mesh_revoked : MeshStore := final (revoke_node demo_stamp "node-u1" "op" "lost" (seconds 50) mesh3).

Lemma revocation_final_witness :
  restore_node demo_stamp "node-u1" "op" "" mesh_revoked = (Err (NodeMeshError NODE_REVOKED), mesh_revoked).
Proof.
  assert (Hr : demo_reachable mesh_revoked) by (eapply demo_reach_step; [apply mesh3_reachable|apply ms_revoke]).
  assert (∃ n, dget "node-u1" (s_nodes mesh_revoked) = Some n ∧ n_revoked_at n = Some (seconds 50)) as (n & Hn & Ht)
    by (eexists; split; reflexivity).
  destruct (revocation_final (V := Verifier) demo_stamp any_key demo_cfg _ mesh_revoked _ n (seconds 50) Hr Hn Ht
    (rtc_refl _ _)) as (_ & _ & H & _).
  exact (H "op" "").
Defined.

Lemma enrollment_single_use_witness :
  is_ok (outcome (redeem_demo "u1" (seconds 20) mesh1)) = true ∧
  final (redeem_demo "u2" (seconds 60) mesh3) = mesh3.
Proof.
  assert (Ha : is_ok (outcome (redeem_demo "u1" (seconds 20) mesh1)) = true) by (vm_compute; reflexivity).
  split; [exact Ha|].
  destruct (run_is_ok (redeem_demo "u1" (seconds 20) mesh1) Ha) as [n E1].
  destruct (run_is_ok (redeem_demo "u2" (seconds 60) mesh3)) as [n' E2]; [vm_compute; reflexivity|].
  refine (proj1 (proj2 (proj2 (enrollment_single_use demo_stamp any_key demo_cfg demo_presented demo_desc demo_key (seconds 20) "u1"
    mesh1 n _ mesh3 demo_desc demo_key (seconds 60) "u2" n' _ mesh1_reachable eq_refl E1 _ E2)))).
  apply rtc_once.
  assert (final (redeem_demo "u1" (seconds 20) mesh1) = mesh2) as -> by (vm_compute; reflexivity).
  assert (mesh3 = final (attach_session demo_stamp "node-u1" "sess-1" ["fs.read@1"; "fs.write@1"] "1.0" "x86_64"
    (seconds 30) mesh2)) as -> by (vm_compute; reflexivity).
  apply ms_attach.
Defined.

Lemma restart_recovery_witness :
  dget "node-u1" (s_nodes (final (recover_after_restart demo_stamp (seconds 70) mesh3))) ≠ None ∧
  ∃ r, recover_after_restart demo_stamp (seconds 80) (final (recover_after_restart demo_stamp (seconds 70) mesh3)) =
         (Ok r, final (recover_after_restart demo_stamp (seconds 70) mesh3)) ∧ report_changed r = false.
Proof.
  destruct (restart_recovery demo_stamp any_key demo_cfg (seconds 70) (seconds 80) mesh3 mesh3_reachable)
    as (_ & _ & _ & _ & _ & _ & _ & H).
  split; [discriminate|exact H].
Defined.

Lemma sweep_exact_witness :
  outcome (sweep_expired_heartbeats demo_stamp demo_cfg (seconds 500) mesh3) = Ok ["node-u1"] ∧
  verify_audit_chain (final (sweep_expired_heartbeats demo_stamp demo_cfg (seconds 500) mesh3)) = true.
Proof.
  destruct (sweep_exact demo_stamp any_key demo_cfg (seconds 500) mesh3 mesh3_reachable) as (H1 & _ & _ & _ & H2).
  split; [exact H1|exact H2].
Defined.

Lemma scope_storage_roundtrip_witness :
  ∃ n, dget "node-u1" (s_nodes mesh3) = Some n ∧ is_ok (scopes_of n) = true.
Proof.
  assert (∃ n, dget "node-u1" (s_nodes mesh3) = Some n ∧ n_platform n = LINUX) as (n & Hn & Hp)
    by (eexists; split; reflexivity).
  exists n. split; [exact Hn|].
  destruct (scope_storage_roundtrip demo_scopes (n_scopes n) n) as (parsed & Hs & _).
  - repeat (apply NoDup_cons; split; [set_solver|]). apply NoDup_nil_2.
  - rewrite Hp. vm_compute in Hn. injection Hn as <-. vm_compute. reflexivity.
  - reflexivity.
  - rewrite Hs. reflexivity.
Defined.
