(* ===== verification/PgStore.v ===== *)
(** The node mesh in PostgreSQL: src/olympus/persistence/postgres_store.py over the tables of
    persistence/migrations/, and the migrator of persistence/migrator.py.

    A table is a dictionary by primary key, in the order of insertion. A statement that violates a constraint, a column type
    or a unique key raises [PgDatabaseError]; [connection.transaction()] keeps what the body wrote when it returns and drops
    it when it raises. [run_pg] executes a body of NodeStore.v one statement after the other, as in a transaction that no
    other one interrupts; [read_prefix] stops after some plain reads, where READ COMMITTED lets another transaction commit.

    Parameters: [jsonb], what a JSONB column gives back for a value, or its refusal; [scan], the order in which a table is
    read, which decides between equal sort keys; [collate], the collation of text; [stamp], the clock and the event ids. *)

From S2P Require Import Prelude PyDict PyTime Json JsonParse PyParse NodeModels NodeScopes NodeAudit NodeStore.
From Stdlib Require Import Ascii.

Open Scope Z_scope.

(** ** Rows *)

(** [PgRowError] is the [ValueError], [TypeError] or [KeyError] of a value that does not convert. *)
Inductive pg_exn := PgMesh (e : exn) | PgDatabaseError | PgRowError.

Record TokenRow := mkTokenRow {
  tr_token_id : string; tr_secret_hash : string; tr_node_name : string; tr_kind : string; tr_platform : string;
  tr_granted : list string; tr_scopes : json; tr_issued_at : datetime; tr_expires_at : datetime; tr_issued_by : string;
  tr_consumed_at : option datetime; tr_consumed_by : option string; tr_revoked_at : option datetime }.
Record NodeRow := mkNodeRow {
  nr_node_id : string; nr_node_name : string; nr_kind : string; nr_platform : string; nr_architecture : string; nr_agent_version : string;
  nr_public_key : string; nr_granted : list string; nr_declared : list string; nr_labels : json; nr_enrolled_at : datetime;
  nr_enrollment_token_id : string; nr_session_id : option string; nr_session_started_at : option datetime;
  nr_last_heartbeat_at : option datetime; nr_last_health : option json; nr_quarantined_at : option datetime; nr_quarantine_reason : string;
  nr_revoked_at : option datetime; nr_revocation_reason : string; nr_scopes : json }.
Record JobRow := mkJobRow {
  jr_job_id : string; jr_node_id : string; jr_capability : string; jr_dedupe_key : string; jr_status : string; jr_attempt : Z;
  jr_commander_id : string; jr_authority_lease_id : string; jr_authority_epoch : option Z; jr_created_at : datetime; jr_updated_at : datetime;
  jr_progress_events : Z; jr_last_message : string; jr_reason : string }.
Record ControlRow := mkControlRow { cr_frozen : bool; cr_freeze_epoch : Z; cr_changed_at : option datetime; cr_reason : string }.
Record AuditRow := mkAuditRow {
  ar_sequence : Z; ar_event_id : string; ar_version : Z; ar_recorded_at : string; ar_actor : string; ar_action : string; ar_decision : string;
  ar_reason : string; ar_node_id : option string; ar_job_id : option string; ar_payload : json; ar_payload_digest : string;
  ar_previous_hash : string; ar_event_hash : string }.

Record Pg := mkPg {
  pg_tokens : dict string TokenRow;
  pg_nodes : dict string NodeRow;
  pg_jobs : dict string JobRow;
  pg_control : option ControlRow;
  pg_events : list AuditRow }.

(** The schema as the migrations leave it. *)
Definition migrated : Pg := mkPg [] [] [] (Some (mkControlRow false 0 None "")) [].

(** Columns and check constraints *)
Definition text (s : string) : bool := all_chars (λ c, negb (ord c =? 0)%nat) s.
Definition nullable {A} (ok : A → bool) (o : option A) : bool := match o with Some a => ok a | None => true end.
Definition integer (z : Z) : bool := (- 2 ^ 31 <=? z) && (z <? 2 ^ 31).
Definition not_spaces (s : string) : bool := negb (all_chars (λ c, (ord c =? 32)%nat) s).
Definition token_fits (r : TokenRow) : bool :=
  forallb text ([tr_token_id r; tr_secret_hash r; tr_node_name r; tr_kind r; tr_platform r; tr_issued_by r] ++ tr_granted r)
  && nullable text (tr_consumed_by r) && (str_len (tr_secret_hash r) =? 64) && not_spaces (tr_node_name r)
  && (tr_issued_at r <? tr_expires_at r) && Bool.eqb (is_some (tr_consumed_at r)) (is_some (tr_consumed_by r)).
Definition node_fits (r : NodeRow) : bool :=
  forallb text ([nr_node_id r; nr_node_name r; nr_kind r; nr_platform r; nr_architecture r; nr_agent_version r; nr_public_key r;
                 nr_enrollment_token_id r; nr_quarantine_reason r; nr_revocation_reason r] ++ nr_granted r ++ nr_declared r)
  && nullable text (nr_session_id r) && not_spaces (nr_public_key r).
Definition job_fits (r : JobRow) : bool :=
  forallb text [jr_job_id r; jr_node_id r; jr_capability r; jr_dedupe_key r; jr_status r; jr_commander_id r; jr_authority_lease_id r; jr_last_message r; jr_reason r]
  && integer (jr_attempt r) && (1 <=? jr_attempt r) && nullable integer (jr_authority_epoch r) && integer (jr_progress_events r).
Definition control_fits (r : ControlRow) : bool := integer (cr_freeze_epoch r) && (0 <=? cr_freeze_epoch r) && text (cr_reason r).
Definition audit_fits (r : AuditRow) : bool :=
  forallb text [ar_event_id r; ar_recorded_at r; ar_actor r; ar_action r; ar_decision r; ar_reason r; ar_payload_digest r; ar_previous_hash r; ar_event_hash r]
  && nullable text (ar_node_id r) && nullable text (ar_job_id r) && integer (ar_version r) && (1 <=? ar_sequence r) && (ar_sequence r <? 2 ^ 63).

(** ** Conversions *)

(** [Enum(value)] *)
Definition member_with {A} (all : list A) (value : A → string) (s : string) : result pg_exn A :=
  require_some (List.find (λ a, bool_decide (value a = s)) all) PgRowError.

Definition kind_value (k : NodeKind) : string :=
  match k with CONTROL_PLANE_HOST => "control-plane-host" | WORKSTATION => "workstation" | CLOUD_WORKER => "cloud-worker" end.
Definition kind_of : string → result pg_exn NodeKind := member_with [CONTROL_PLANE_HOST; WORKSTATION; CLOUD_WORKER] kind_value.
Definition platform_of : string → result pg_exn NodePlatform := member_with [LINUX; WINDOWS; MACOS; UNKNOWN] platform_value.
Definition status_of : string → result pg_exn NodeJobStatus :=
  member_with [PENDING; DISPATCHED; RUNNING; SUCCEEDED; FAILED; CANCELLED; REJECTED; TIMED_OUT] status_value.
Definition decision_of : string → result pg_exn AuditDecision := member_with [AD_ALLOW; AD_DENY; AD_OBSERVE] decision_value.
Definition action_of : string → result pg_exn AuditAction :=
  member_with [AA_ENROLLMENT_ISSUED; AA_ENROLLMENT_GRANT_REVOKED; AA_ENROLLMENT_REDEEMED; AA_ENROLLMENT_REJECTED; AA_SESSION_OPENED;
    AA_SESSION_REJECTED; AA_SESSION_CLOSED; AA_HEARTBEAT_EXPIRED; AA_NODE_QUARANTINED; AA_NODE_RESTORED; AA_NODE_REVOKED;
    AA_DISPATCH_ADMITTED; AA_DISPATCH_REFUSED; AA_DISPATCH_COMPLETED; AA_DISPATCH_CANCELLED; AA_DISPATCH_FROZEN; AA_DISPATCH_UNFROZEN;
    AA_JOB_RECONCILED] action_value.

Definition construct {A} (r : result exn A) : result pg_exn A := match r with Ok a => Ok a | Err e => Err PgRowError end.

(** [_scopes_to_json] *)
Fixpoint scopes_to_json (scopes : scope_pairs) (acc : dict string json) : result pg_exn (dict string json) :=
  match scopes with
  | [] => Ok acc
  | (capability, body) :: scopes => j ← require_some (loads body) PgRowError; scopes_to_json scopes (dset capability j acc)
  end.

(** [_scopes_from_json] *)
Definition scopes_from_json (value : json) : result pg_exn scope_pairs :=
  match value with
  | JObj o => Ok (sort_keys (map (λ cb, (cb.1, dumps cb.2)) o))
  | _ => if truthy value then Err PgRowError else Ok []
  end.

(** [_labels_to_json], [_labels_from_json] *)
Definition labels_to_json (labels : list (string * string)) : json := JList (map (λ kv, JList [JStr kv.1; JStr kv.2]) labels).
Definition label_of (pair : json) : result pg_exn (string * string) :=
  match pair with JList (JStr k :: JStr v :: _) => Ok (k, v) | _ => Err PgRowError end.
Definition labels_from_json (value : json) : result pg_exn (list (string * string)) :=
  match value with
  | JList l => mapM label_of l
  | _ => if truthy value then Err PgRowError else Ok []
  end.

(** [_health_to_json], [_health_from_json] *)
Definition opt_int (o : option Z) : json := match o with Some z => JInt z | None => JNull end.
Definition health_to_json (h : NodeHealthSnapshot) : json :=
  JObj [("reported_at", JStr (isoformat (h_reported_at h))); ("active_jobs", JInt (h_active_jobs h)); ("cpu_count", opt_int (h_cpu_count h));
        ("load_average_1m", opt_int (h_load_average_1m h)); ("memory_total_mib", opt_int (h_memory_total_mib h));
        ("memory_available_mib", opt_int (h_memory_available_mib h)); ("uptime_seconds", opt_int (h_uptime_seconds h));
        ("agent_uptime_seconds", opt_int (h_agent_uptime_seconds h))].
Definition health_fields : list string :=
  ["reported_at"; "active_jobs"; "cpu_count"; "load_average_1m"; "memory_total_mib"; "memory_available_mib"; "uptime_seconds"; "agent_uptime_seconds"].
Definition int_of (o : dict string json) (k : string) : result pg_exn Z := match dget k o with Some (JInt z) => Ok z | _ => Err PgRowError end.
Definition opt_int_of (o : dict string json) (k : string) : result pg_exn (option Z) :=
  match dget k o with Some (JInt z) => Ok (Some z) | Some JNull => Ok None | _ => Err PgRowError end.
Definition health_from_json (value : json) : result pg_exn (option NodeHealthSnapshot) :=
  match value with
  | JObj [] => Ok None
  | JObj o =>
      ensure (keys_are health_fields o) PgRowError;;
      reported ← require_some (match dget "reported_at" o with Some (JStr s) => fromisoformat s | _ => None end) PgRowError;
      active ← int_of o "active_jobs"; cpu ← opt_int_of o "cpu_count"; load ← opt_int_of o "load_average_1m";
      total ← opt_int_of o "memory_total_mib"; available ← opt_int_of o "memory_available_mib"; uptime ← opt_int_of o "uptime_seconds";
      agent ← opt_int_of o "agent_uptime_seconds";
      h ← construct (make_health (mkHealth reported active cpu load total available uptime agent));
      Ok (Some h)
  | _ => if truthy value then Err PgRowError else Ok None
  end.

(** [_token_from_row] *)
Definition token_from_row (r : TokenRow) : result pg_exn EnrollmentTokenRecord :=
  kind ← kind_of (tr_kind r); platform ← platform_of (tr_platform r); scopes ← scopes_from_json (tr_scopes r);
  construct (make_token (mkToken (tr_token_id r) (tr_secret_hash r) (tr_node_name r) kind platform (tr_granted r) (tr_issued_at r) (tr_expires_at r)
    (tr_issued_by r) scopes (tr_consumed_at r) (tr_consumed_by r) (tr_revoked_at r))).

(** [_node_from_row] *)
Definition health_column (v : option json) : result pg_exn (option NodeHealthSnapshot) :=
  match v with None => Ok None | Some j => health_from_json j end.
Definition node_from_row (r : NodeRow) : result pg_exn NodeRecord :=
  kind ← kind_of (nr_kind r); platform ← platform_of (nr_platform r); scopes ← scopes_from_json (nr_scopes r);
  labels ← labels_from_json (nr_labels r); health ← health_column (nr_last_health r);
  construct (make_node (mkNode (nr_node_id r) (nr_node_name r) kind platform (nr_architecture r) (nr_agent_version r) (nr_public_key r)
    (nr_granted r) (nr_enrolled_at r) (nr_enrollment_token_id r) scopes (nr_declared r) labels (nr_session_id r) (nr_session_started_at r)
    (nr_last_heartbeat_at r) health (nr_quarantined_at r) (nr_quarantine_reason r) (nr_revoked_at r) (nr_revocation_reason r))).

(** [_job_from_row] *)
Definition job_from_row (r : JobRow) : result pg_exn NodeJobRecord :=
  status ← status_of (jr_status r);
  authority ← construct (make_authority (jr_commander_id r) (jr_authority_lease_id r) (jr_authority_epoch r));
  construct (make_job (mkJob (jr_job_id r) (jr_node_id r) (jr_capability r) (jr_dedupe_key r) status (jr_attempt r) authority (jr_created_at r)
    (jr_updated_at r) (jr_progress_events r) (jr_last_message r) (jr_reason r))).

(** [_event_from_row] *)
Definition event_from_row (r : AuditRow) : result pg_exn NodeAuditEvent :=
  action ← action_of (ar_action r); decision ← decision_of (ar_decision r);
  Ok (mkEvent (ar_sequence r) (ar_event_id r) (ar_version r) (ar_recorded_at r) (ar_actor r) action decision (ar_reason r) (ar_node_id r) (ar_job_id r)
    (ar_payload r) (ar_payload_digest r) (ar_previous_hash r) (ar_event_hash r)).

(** ** Statements *)

(** What a JSONB column gives back: PostgreSQL keeps neither the order of keys nor white space, and refuses U+0000. *)
Class Jsonb := jsonb : json → option json.
Class JsonbLaws `{Jsonb} : Prop := jsonb_same : ∀ j j', json_wf j → jsonb j = Some j' → jnorm j' = jnorm j.

Section Statements.
Context `{Jsonb} (scan : ∀ R, list R → list R) (collate : string → string → bool) (stamp : nat → datetime * string).

Definition jsonb_column (j : json) : result pg_exn json := require_some (jsonb j) PgDatabaseError.

(** The values of the INSERT statements *)
Definition token_row (t : EnrollmentTokenRecord) : result pg_exn TokenRow :=
  o ← scopes_to_json (t_scopes t) []; scopes ← jsonb_column (JObj o);
  Ok (mkTokenRow (t_token_id t) (t_secret_hash t) (t_node_name t) (kind_value (t_kind t)) (platform_value (t_platform t)) (t_granted t) scopes
    (t_issued_at t) (t_expires_at t) (t_issued_by t) (t_consumed_at t) (t_consumed_by t) (t_revoked_at t)).
Definition health_row (h : option NodeHealthSnapshot) : result pg_exn (option json) :=
  match h with None => Ok None | Some h => Some <$> jsonb_column (health_to_json h) end.
Definition node_row (n : NodeRecord) : result pg_exn NodeRow :=
  labels ← jsonb_column (labels_to_json (n_labels n)); health ← health_row (n_last_health n);
  o ← scopes_to_json (n_scopes n) []; scopes ← jsonb_column (JObj o);
  Ok (mkNodeRow (n_node_id n) (n_node_name n) (kind_value (n_kind n)) (platform_value (n_platform n)) (n_architecture n) (n_agent_version n)
    (n_public_key n) (n_granted n) (n_declared n) labels (n_enrolled_at n) (n_enrollment_token_id n) (n_session_id n) (n_session_started_at n)
    (n_last_heartbeat_at n) health (n_quarantined_at n) (n_quarantine_reason n) (n_revoked_at n) (n_revocation_reason n) scopes).
Definition job_row (j : NodeJobRecord) : result pg_exn JobRow :=
  Ok (mkJobRow (j_job_id j) (j_node_id j) (j_capability j) (j_dedupe_key j) (status_value (j_status j)) (j_attempt j) (da_commander_id (j_authority j))
    (da_authority_lease_id (j_authority j)) (da_authority_epoch (j_authority j)) (j_created_at j) (j_updated_at j) (j_progress_events j)
    (j_last_message j) (j_reason j)).
Definition audit_row (e : NodeAuditEvent) : result pg_exn AuditRow :=
  payload ← jsonb_column (e_payload e);
  Ok (mkAuditRow (e_sequence e) (e_event_id e) (e_version e) (e_recorded_at e) (e_actor e) (action_value (e_action e)) (decision_value (e_decision e))
    (e_reason e) (e_node_id e) (e_job_id e) payload (e_payload_digest e) (e_previous_hash e) (e_event_hash e)).

(** [ON CONFLICT ... DO UPDATE SET]: the columns that are set come from the new row, the others stay. *)
Definition update_token (old new : TokenRow) : TokenRow :=
  mkTokenRow (tr_token_id old) (tr_secret_hash old) (tr_node_name old) (tr_kind old) (tr_platform old) (tr_granted old) (tr_scopes old)
    (tr_issued_at old) (tr_expires_at old) (tr_issued_by old) (tr_consumed_at new) (tr_consumed_by new) (tr_revoked_at new).
Definition update_node (old new : NodeRow) : NodeRow :=
  mkNodeRow (nr_node_id old) (nr_node_name new) (nr_kind old) (nr_platform old) (nr_architecture new) (nr_agent_version new) (nr_public_key old)
    (nr_granted new) (nr_declared new) (nr_labels new) (nr_enrolled_at old) (nr_enrollment_token_id old) (nr_session_id new)
    (nr_session_started_at new) (nr_last_heartbeat_at new) (nr_last_health new) (nr_quarantined_at new) (nr_quarantine_reason new)
    (nr_revoked_at new) (nr_revocation_reason new) (nr_scopes new).
Definition update_job (old new : JobRow) : JobRow :=
  mkJobRow (jr_job_id old) (jr_node_id old) (jr_capability old) (jr_dedupe_key old) (jr_status new) (jr_attempt new) (jr_commander_id old)
    (jr_authority_lease_id old) (jr_authority_epoch old) (jr_created_at old) (jr_updated_at new) (jr_progress_events new) (jr_last_message new)
    (jr_reason new).

(** An upsert checks the row it would insert, and the row it leaves. *)
Definition upsert {R} (fits : R → bool) (update : R → R → R) (k : string) (row : R) (table : dict string R) : result pg_exn (dict string R) :=
  ensure (fits row) PgDatabaseError;;
  match dget k table with
  | None => Ok (dset k row table)
  | Some old => ensure (fits (update old row)) PgDatabaseError;; Ok (dset k (update old row) table)
  end.

(** A row or nothing, converted *)
Definition fetch {R A} (from_row : R → result pg_exn A) (row : option R) : result pg_exn (option A) :=
  match row with None => Ok None | Some r => Some <$> from_row r end.

Definition pg_get_token (i : string) (d : Pg) : result pg_exn (option EnrollmentTokenRecord) := fetch token_from_row (dget i (pg_tokens d)).
Definition pg_put_token (t : EnrollmentTokenRecord) (d : Pg) : result pg_exn Pg :=
  row ← token_row t; rows ← upsert token_fits update_token (t_token_id t) row (pg_tokens d);
  Ok (mkPg rows (pg_nodes d) (pg_jobs d) (pg_control d) (pg_events d)).
Definition pg_list_tokens (d : Pg) : result pg_exn (list EnrollmentTokenRecord) :=
  mapM token_from_row (sort_by (λ a b, tr_issued_at a <=? tr_issued_at b) (scan _ (dvalues (pg_tokens d)))).
Definition pg_get_node (i : string) (d : Pg) : result pg_exn (option NodeRecord) := fetch node_from_row (dget i (pg_nodes d)).
Definition pg_put_node (n : NodeRecord) (d : Pg) : result pg_exn Pg :=
  row ← node_row n; rows ← upsert node_fits update_node (n_node_id n) row (pg_nodes d);
  Ok (mkPg (pg_tokens d) rows (pg_jobs d) (pg_control d) (pg_events d)).
Definition pg_list_nodes (d : Pg) : result pg_exn (list NodeRecord) :=
  mapM node_from_row (sort_by (λ a b, collate (nr_node_name a) (nr_node_name b)) (scan _ (dvalues (pg_nodes d)))).
Definition pg_get_job (i : string) (d : Pg) : result pg_exn (option NodeJobRecord) := fetch job_from_row (dget i (pg_jobs d)).
Definition pg_put_job (j : NodeJobRecord) (d : Pg) : result pg_exn Pg :=
  row ← job_row j; rows ← upsert job_fits update_job (j_job_id j) row (pg_jobs d);
  Ok (mkPg (pg_tokens d) (pg_nodes d) rows (pg_control d) (pg_events d)).
Definition pg_list_jobs (d : Pg) : result pg_exn (list NodeJobRecord) :=
  mapM job_from_row (sort_by (λ a b, jr_created_at a <=? jr_created_at b) (scan _ (dvalues (pg_jobs d)))).

Definition control_from_row (r : ControlRow) : result pg_exn DispatchControlState :=
  construct (make_control (mkControl (cr_frozen r) (cr_freeze_epoch r) (cr_changed_at r) (cr_reason r))).
Definition pg_get_control (d : Pg) : result pg_exn DispatchControlState :=
  match pg_control d with None => Ok default_control | Some r => control_from_row r end.
(** The UPDATE changes nothing when the row is missing. *)
Definition pg_put_control (c : DispatchControlState) (d : Pg) : result pg_exn Pg :=
  match pg_control d with
  | None => Ok d
  | Some _ =>
      let row := mkControlRow (c_frozen c) (c_freeze_epoch c) (c_changed_at c) (c_reason c) in
      ensure (control_fits row) PgDatabaseError;; Ok (mkPg (pg_tokens d) (pg_nodes d) (pg_jobs d) (Some row) (pg_events d))
  end.

(** [ORDER BY sequence], and the head: [ORDER BY sequence DESC LIMIT 1] *)
Definition by_sequence (rows : list AuditRow) : list AuditRow := sort_by (λ a b, ar_sequence a <=? ar_sequence b) (scan _ rows).
Definition audit_head_row (d : Pg) : option AuditRow := last (by_sequence (pg_events d)).

(** [append_audit]: the advisory lock is held to the end of the transaction *)
Definition pg_append_audit (draft : AuditDraft) (d : Pg) : result pg_exn Pg :=
  let head := audit_head_row d in
  let sequence := match head with Some r => ar_sequence r + 1 | None => 1 end in
  let previous_hash := match head with Some r => ar_event_hash r | None => GENESIS_HASH end in
  let st := stamp (length (pg_events d)) in
  row ← audit_row (link_event draft sequence previous_hash st.1 st.2);
  ensure (audit_fits row && negb (existsb (λ r, (ar_sequence r =? ar_sequence row) || bool_decide (ar_event_id r = ar_event_id row)
    || bool_decide (ar_event_hash r = ar_event_hash row)) (pg_events d))) PgDatabaseError;;
  Ok (mkPg (pg_tokens d) (pg_nodes d) (pg_jobs d) (pg_control d) (pg_events d ++ [row])).

(** ** Transactions *)

Fixpoint run_pg {A} (p : Tx A) (d : Pg) : result pg_exn A * Pg :=
  let query {B} (r : result pg_exn B) (k : B → result pg_exn A * Pg) := match r with Ok b => k b | Err e => (Err e, d) end in
  match p with
  | TxRet a => (Ok a, d)
  | TxRaise e => (Err (PgMesh e), d)
  | TxGetToken i k => query (pg_get_token i d) (λ r, run_pg (k r) d)
  | TxPutToken t k => query (pg_put_token t d) (run_pg k)
  | TxListTokens k => query (pg_list_tokens d) (λ r, run_pg (k r) d)
  | TxGetNode i k => query (pg_get_node i d) (λ r, run_pg (k r) d)
  | TxPutNode n k => query (pg_put_node n d) (run_pg k)
  | TxListNodes k => query (pg_list_nodes d) (λ r, run_pg (k r) d)
  | TxGetControl k => query (pg_get_control d) (λ r, run_pg (k r) d)
  | TxPutControl c k => query (pg_put_control c d) (run_pg k)
  | TxGetJob i k => query (pg_get_job i d) (λ r, run_pg (k r) d)
  | TxPutJob j k => query (pg_put_job j d) (run_pg k)
  | TxListJobs k => query (pg_list_jobs d) (λ r, run_pg (k r) d)
  | TxAudit a k => query (pg_append_audit a d) (run_pg k)
  end.

(** [async with store.transaction() as tx: body] *)
Definition pg_transaction {A} (body : Tx A) : St Pg pg_exn A := λ d,
  match run_pg body d with
  | (Ok a, d') => (Ok a, d')
  | (Err e, _) => (Err e, d)
  end.

(** What is left of a body after [n] reads that take no lock: [get_node], [get_job] and the listings do not say FOR UPDATE. *)
Fixpoint read_prefix {A} (n : nat) (p : Tx A) (d : Pg) : option (Tx A) :=
  match n, p with
  | O, _ => Some p
  | S n, TxGetNode i k => match pg_get_node i d with Ok r => read_prefix n (k r) d | Err _ => None end
  | S n, TxGetJob i k => match pg_get_job i d with Ok r => read_prefix n (k r) d | Err _ => None end
  | S n, TxListNodes k => match pg_list_nodes d with Ok r => read_prefix n (k r) d | Err _ => None end
  | S n, TxListJobs k => match pg_list_jobs d with Ok r => read_prefix n (k r) d | Err _ => None end
  | S n, TxListTokens k => match pg_list_tokens d with Ok r => read_prefix n (k r) d | Err _ => None end
  | S _, _ => None
  end.

(** READ COMMITTED: [q] commits after the first [n] reads of [p]. *)
Definition interrupted {A B} (n : nat) (p : Tx A) (q : Tx B) : St Pg pg_exn (A * B) := λ d,
  match read_prefix n p d with
  | None => (Err PgRowError, d)
  | Some rest => (b ← pg_transaction q; a ← pg_transaction rest; mret (a, b)) d
  end.

(** [audit_events], [audit_head], [verify_audit_chain] *)
Definition pg_audit_events (d : Pg) : result pg_exn (list NodeAuditEvent) := mapM event_from_row (by_sequence (pg_events d)).
Definition pg_audit_head (d : Pg) : string := match audit_head_row d with Some r => ar_event_hash r | None => GENESIS_HASH end.
Definition pg_verify_audit_chain (d : Pg) : result pg_exn bool := verify_chain <$> pg_audit_events d.
End Statements.

(** ** Migrations *)

Record Migration := mkMigration { mg_version : Z; mg_name : string; mg_statements : string }.

(** [load_migrations] of the files of the package whose names match; a [RuntimeError] otherwise *)
Definition load_migrations (found : list Migration) : option (list Migration) :=
  let sorted := sort_by (λ a b, mg_version a <=? mg_version b) found in
  if bool_decide (NoDup (map mg_version sorted)) then Some sorted else None.

Section Migrate.
Context {S : Type} (execute : string → S → option S).

(** The schema and its ledger; executing a migration and recording it commit together *)
Record Schema := mkSchema { sc_state : S; sc_ledger : list (Z * string) }.

Fixpoint apply_each (ms : list Migration) (done applied : list Z) : St Schema () (list Z) :=
  match ms with
  | [] => mret applied
  | m :: ms =>
      if bool_decide (mg_version m ∈ done) then apply_each ms done applied
      else
        sc ← read;
        state ← some_or (execute (mg_statements m) (sc_state sc)) ();
        modify (λ sc, mkSchema state (sc_ledger sc ++ [(mg_version m, mg_name m)]));;
        apply_each ms done (applied ++ [mg_version m])
  end.

(** [apply_migrations], under the advisory lock *)
Definition apply_migrations (found : list Migration) : St Schema () (list Z) :=
  sc ← read;
  ms ← some_or (load_migrations found) ();
  apply_each ms (map fst (sc_ledger sc)) [].
End Migrate.
