(* ===== verification/PgStoreFacts.v ===== *)
(** PostgreSQL as the mesh store: what is written reads back, and a transaction does what the contract of NodeStore.v says,
    with the identity columns of a record kept and listings in the order of their columns. *)

From S2P Require Import Prelude PyDict PyTime Sha256 Json JsonParse PyParse Redaction NodeModels NodeScopes NodeAudit NodeStore PgStore.
From Stdlib Require Import Ascii.

Open Scope Z_scope.

(** ** JSONB columns *)

Definition normed (o : dict string json) : dict string json := map (λ kv, (kv.1, jnorm kv.2)) o.

Lemma dkeys_normed o : dkeys (normed o) = dkeys o.
Proof. unfold dkeys, normed. by induction o as [|[k v] o IH]; [|cbn; f_equal]. Qed.

Lemma dget_normed k o : dget k (normed o) = jnorm <$> dget k o.
Proof. induction o as [|[k' v] o IH]; [done|]. cbn in *. by case_decide. Qed.

Section Columns.
Context `{JsonbLaws}.

Lemma jsonb_obj o j : json_wf (JObj o) → jsonb (JObj o) = Some j → ∃ o', j = JObj o' ∧ sort_keys (normed o') = sort_keys (normed o).
Proof. intros Hw Hj. apply jsonb_same in Hj; [|done]. destruct j as [| | | | |o']; try done. injection Hj as Hj. by exists o'. Qed.

(** A column reads as the mapping that was written, key by key. *)
Lemma jsonb_dget o o' k : NoDup (dkeys o) → sort_keys (normed o') = sort_keys (normed o) → jnorm <$> dget k o' = jnorm <$> dget k o.
Proof.
  intros Hn Hs. assert (Hp : normed o' ≡ₚ normed o).
  { transitivity (sort_keys (normed o')); [symmetry; apply sort_by_Permutation|]. rewrite Hs. apply sort_by_Permutation. }
  rewrite <- !dget_normed. symmetry. apply dget_perm; [done|]. unfold dict_wf. by rewrite dkeys_normed.
Qed.

Lemma jsonb_keys o o' k : sort_keys (normed o') = sort_keys (normed o) → k ∈ dkeys o' ↔ k ∈ dkeys o.
Proof.
  intros Hs. assert (Hp : normed o' ≡ₚ normed o).
  { transitivity (sort_keys (normed o')); [symmetry; apply sort_by_Permutation|]. rewrite Hs. apply sort_by_Permutation. }
  rewrite <- (dkeys_normed o'), <- (dkeys_normed o). unfold dkeys. by rewrite Hp.
Qed.

(** Scopes as the registry stores them: sorted, one per capability, in canonical JSON. *)
Definition canonical_scopes (l : scope_pairs) : Prop :=
  ∃ items : dict string json, NoDup (dkeys items) ∧ Forall (λ kv, json_wf kv.2) items ∧ l = sort_keys (map (λ kv, (kv.1, dumps kv.2)) items).

Lemma scopes_to_json_items (items acc : dict string json) : Forall (λ kv, json_wf kv.2) items → NoDup (dkeys acc ++ dkeys items) →
  scopes_to_json (map (λ kv, (kv.1, dumps kv.2)) items) acc = Ok (acc ++ normed items).
Proof.
  revert acc. induction items as [|[k v] items IH]; intros acc Hw Hn; cbn [map scopes_to_json normed]; [by rewrite app_nil_r|].
  apply Forall_cons in Hw as [Hv Hw]. cbn [fst snd] in *. rewrite loads_dumps by done. cbn [require_some]. unfold mbind, result_bind.
  apply NoDup_app in Hn as (Ha & Hd & Hl). cbn in Hl. apply NoDup_cons in Hl as [Hk Hl].
  rewrite dset_fresh by (intros Hin; apply (Hd k Hin); left). rewrite IH; [by rewrite <- app_assoc|done|].
  unfold dkeys in *. rewrite fmap_app. cbn. apply NoDup_app. split_and!; [|set_solver|done].
  apply NoDup_app. split_and!; [done|set_solver|apply NoDup_singleton].
Qed.

Lemma json_wf_obj o : json_wf (JObj o) ↔ NoDup (dkeys o) ∧ Forall (λ kv, json_wf kv.2) o.
Proof. cbn [json_wf]. unfold dkeys. apply and_iff_compat_l. induction o as [|kv o IH]; cbn; [by split|]. rewrite Forall_cons. tauto. Qed.

Lemma scopes_roundtrip l : canonical_scopes l →
  ∃ o, scopes_to_json l [] = Ok o ∧ ∀ j, jsonb (JObj o) = Some j → scopes_from_json j = Ok l.
Proof.
  intros (items & Hn & Hw & ->). rewrite sort_keys_map. set (its := sort_keys items).
  assert (Hp : its ≡ₚ items) by apply sort_by_Permutation. assert (Hn' : NoDup (dkeys its)) by (unfold dkeys; by rewrite Hp).
  assert (Hw' : Forall (λ kv, json_wf kv.2) its) by (by rewrite Hp). exists (normed its). rewrite scopes_to_json_items by done. split; [done|].
  intros j Hj. apply jsonb_obj in Hj as (o' & -> & Hs).
  - cbn [scopes_from_json]. f_equal. assert (Hd : ∀ o, map (λ kv : string * json, (kv.1, dumps kv.2)) o = map (λ kv, (kv.1, print kv.2)) (normed o)).
    { intros o. unfold normed. rewrite map_map. apply map_ext. intros [k v]. cbn. by rewrite dumps_jnorm. }
    assert (Hi : normed (normed its) = normed its) by (unfold normed; rewrite map_map; apply map_ext; intros [k v]; cbn; by rewrite jnorm_idem).
    rewrite Hd, sort_keys_map, Hs, Hi, Hd. f_equal. unfold normed. rewrite sort_keys_map. f_equal. apply sort_keys_idem.
  - apply json_wf_obj. rewrite dkeys_normed. split; [done|]. unfold normed. apply Forall_map. eapply Forall_impl; [exact Hw'|]. cbn. intros [k v]. apply json_wf_jnorm.
Qed.

Lemma jnorm_label x a b : jnorm x = JList [JStr a; JStr b] → x = JList [JStr a; JStr b].
Proof.
  destruct x as [| | | |l|]; try done. intros [= Hl]. destruct l as [|x [|y [|]]]; try done. injection Hl as Hx Hy.
  destruct x; try done. destruct y; try done. cbn in *. congruence.
Qed.

Lemma labels_roundtrip l j : jsonb (labels_to_json l) = Some j → labels_from_json j = Ok l.
Proof.
  intros Hj. apply jsonb_same in Hj; [|unfold labels_to_json; cbn; clear; by induction l].
  assert (Hl : map jnorm (map (λ kv : string * string, JList [JStr kv.1; JStr kv.2]) l) = map (λ kv, JList [JStr kv.1; JStr kv.2]) l).
  { rewrite map_map. by apply map_ext. }
  destruct j as [| | | |js|]; try done. injection Hj as Hj. unfold labels_to_json in Hj. rewrite Hl in Hj. clear Hl. cbn [labels_from_json].
  revert l Hj. induction js as [|x js IH]; intros [|[a b] l] Hj; try done. cbn in Hj. injection Hj as Hx Hj. apply jnorm_label in Hx as ->.
  cbn. rewrite (IH l) by done. done.
Qed.

Lemma health_roundtrip h j : make_health h = Ok h → representable (h_reported_at h) → jsonb (health_to_json h) = Some j →
  health_from_json j = Ok (Some h).
Proof.
  intros Hm Ht Hj. unfold health_to_json in Hj. set (o := _ :: _) in Hj. assert (Hn : NoDup (dkeys o)) by (apply (bool_decide_unpack _); by vm_compute).
  apply jsonb_obj in Hj as (o' & -> & Hs).
  2: { apply json_wf_obj. split; [done|]. subst o. repeat constructor; cbn; unfold opt_int; by repeat case_match. }
  assert (Hg : ∀ k v, dget k o = Some v → jnorm v = v → (∀ v', jnorm v' = v → v' = v) → dget k o' = Some v).
  { intros k v Hk Hv Hinj. pose proof (jsonb_dget o o' k Hn Hs) as He. rewrite Hk in He. destruct (dget k o') as [v'|]; [|done]. injection He as He.
    f_equal. apply Hinj. congruence. }
  assert (Hint : ∀ z v', jnorm v' = JInt z → v' = JInt z) by (intros z []; done). assert (Hstr : ∀ z v', jnorm v' = JStr z → v' = JStr z) by (intros z []; done).
  assert (Hopt : ∀ z v', jnorm v' = opt_int z → v' = opt_int z) by (intros [z|] []; done).
  assert (Hnn : ∀ z, jnorm (opt_int z) = opt_int z) by (by intros []).
  assert (Hio : ∀ k z, dget k o = Some (opt_int z) → opt_int_of o' k = Ok z).
  { intros k z Hk. unfold opt_int_of. rewrite (Hg k _ Hk (Hnn z) (Hopt z)). by destruct z. }
  assert (Ha : int_of o' "active_jobs" = Ok (h_active_jobs h)) by (unfold int_of; by rewrite (Hg "active_jobs" (JInt (h_active_jobs h)) eq_refl eq_refl (Hint _))).
  assert (Hr : dget "reported_at" o' = Some (JStr (isoformat (h_reported_at h)))) by (apply Hg; [reflexivity|reflexivity|apply Hstr]).
  assert (Hk : keys_are health_fields o' = true).
  { apply keys_are_spec. intros k. rewrite (jsonb_keys o o' k Hs). done. }
  unfold health_from_json. destruct o' as [|kv o'']; [done|]. set (o1 := kv :: o'') in *. rewrite Hk, Hr, fromisoformat_isoformat by done. cbn [ensure require_some].
  unfold mbind, result_bind. rewrite Ha, (Hio "cpu_count" (h_cpu_count h) eq_refl), (Hio "load_average_1m" (h_load_average_1m h) eq_refl),
    (Hio "memory_total_mib" (h_memory_total_mib h) eq_refl), (Hio "memory_available_mib" (h_memory_available_mib h) eq_refl),
    (Hio "uptime_seconds" (h_uptime_seconds h) eq_refl), (Hio "agent_uptime_seconds" (h_agent_uptime_seconds h) eq_refl).
  destruct h. cbn in *. by rewrite Hm.
Qed.
End Columns.

(** ** Tables *)

(** What PostgreSQL documents of reading a table: every row once, in an order of its own. *)
Class ScanLaws (scan : ∀ R, list R → list R) : Prop := {
  scan_perm : ∀ R (l : list R), scan R l ≡ₚ l;
  scan_map : ∀ R S (f : R → S) (l : list R), scan S (map f l) = map f (scan R l) }.

Section Table.
Context {R A : Type} (from_row : R → result pg_exn A).

(** The table holds these records. *)
Definition holds (rows : dict string R) (recs : dict string A) : Prop := Forall2 (λ kr ka, kr.1 = ka.1 ∧ from_row kr.2 = Ok ka.2) rows recs.

Lemma holds_get rows recs k : holds rows recs → fetch from_row (dget k rows) = Ok (dget k recs).
Proof.
  induction 1 as [|[k1 r] [k2 a] rows recs [Hk Ha] _ IH]; [done|]. cbn in *. subst k2. case_decide; [|done]. cbn. by rewrite Ha.
Qed.

Lemma holds_dget rows recs k r : holds rows recs → dget k rows = Some r → ∃ a, dget k recs = Some a ∧ from_row r = Ok a.
Proof.
  intros Hh Hr. apply (holds_get _ _ k) in Hh. rewrite Hr in Hh. cbn in Hh. destruct (from_row r) as [a|]; [|done]. injection Hh as Hh. by exists a.
Qed.

Lemma holds_dget_None rows recs k : holds rows recs → dget k rows = None → dget k recs = None.
Proof. intros Hh Hr. apply (holds_get _ _ k) in Hh. rewrite Hr in Hh. by injection Hh as <-. Qed.

Lemma holds_dset rows recs k r a : from_row r = Ok a → holds rows recs → holds (dset k r rows) (dset k a recs).
Proof.
  intros Ha. induction 1 as [|[k1 r1] [k2 a1] rows recs [Hk Hr] Hh IH]; cbn in *; [by repeat constructor|]. subst k2.
  case_decide; constructor; cbn; auto; by subst.
Qed.

Lemma mapM_reads (rs : list R) (recs : list A) : Forall2 (λ r a, from_row r = Ok a) rs recs → mapM from_row rs = Ok recs.
Proof. induction 1 as [|r a rs recs Hr _ IH]; [done|]. cbn. by rewrite Hr, IH. Qed.

Context (scan : ∀ R, list R → list R) `{!ScanLaws scan} (lr : R → R → bool) (la : A → A → bool).
Hypothesis same_order : ∀ r r' a a', from_row r = Ok a → from_row r' = Ok a' → lr r r' = la a a'.

(** Rows and records that belong together *)
Let entry : Type := { ra : R * A | from_row ra.1 = Ok ra.2 }.

Lemma entries rs recs : Forall2 (λ r a, from_row r = Ok a) rs recs → ∃ l : list entry, rs = map (λ e, (`e).1) l ∧ recs = map (λ e, (`e).2) l.
Proof.
  induction 1 as [|r a rs recs Hr _ (l & -> & ->)]; [by exists []|]. by exists (exist (λ ra : R * A, from_row ra.1 = Ok ra.2) (r, a) Hr :: l).
Qed.

Lemma entries_read (es : list entry) : Forall2 (λ r a, from_row r = Ok a) (map (λ e, (`e).1) es) (map (λ e, (`e).2) es).
Proof. induction es as [|[ra Hra] es IH]; constructor; done. Qed.

Lemma holds_values rows recs : holds rows recs → Forall2 (λ r a, from_row r = Ok a) (dvalues rows) (dvalues recs).
Proof. unfold dvalues. induction 1 as [|[k1 r] [k2 a] rows recs [_ Ha] _ IH]; constructor; done. Qed.

Lemma holds_list rows recs : holds rows recs →
  mapM from_row (sort_by lr (scan R (dvalues rows))) = Ok (sort_by la (scan A (dvalues recs))).
Proof.
  intros Hh. destruct (entries _ _ (holds_values _ _ Hh)) as (l & -> & ->). rewrite !scan_map.
  rewrite (sort_by_map _ (λ x y : entry, la (`x).2 (`y).2)) by (intros [x Hx] [y Hy]; by apply same_order).
  rewrite (sort_by_map _ (λ x y : entry, la (`x).2 (`y).2)) by done. apply mapM_reads. apply entries_read.
Qed.
End Table.

(** ** Records *)

Lemma kind_of_value k : kind_of (kind_value k) = Ok k. Proof. by destruct k. Qed.
Lemma platform_of_value k : platform_of (platform_value k) = Ok k. Proof. by destruct k. Qed.
Lemma status_of_value k : status_of (status_value k) = Ok k. Proof. by destruct k. Qed.
Lemma decision_of_value k : decision_of (decision_value k) = Ok k. Proof. by destruct k. Qed.
Lemma action_of_value k : action_of (action_value k) = Ok k. Proof. by destruct k. Qed.
Lemma row_made {A} (r : result exn A) a : construct r = Ok a ↔ r = Ok a. Proof. destruct r; cbn; naive_solver. Qed.

(** A record its constructor accepts, with its JSON in the form the code writes. *)
Record token_valid (t : EnrollmentTokenRecord) : Prop := { tv_made : make_token t = Ok t; tv_scopes : canonical_scopes (t_scopes t) }.
Record node_valid (n : NodeRecord) : Prop := {
  nv_made : make_node n = Ok n;
  nv_scopes : canonical_scopes (n_scopes n);
  nv_health : ∀ h, n_last_health n = Some h → make_health h = Ok h ∧ representable (h_reported_at h) }.
Record job_valid (j : NodeJobRecord) : Prop := {
  jv_made : make_job j = Ok j;
  jv_authority : make_authority (da_commander_id (j_authority j)) (da_authority_lease_id (j_authority j)) (da_authority_epoch (j_authority j)) = Ok (j_authority j) }.

(** What an upsert leaves of two records. *)
Definition kept_token (old new : EnrollmentTokenRecord) : EnrollmentTokenRecord :=
  mkToken (t_token_id old) (t_secret_hash old) (t_node_name old) (t_kind old) (t_platform old) (t_granted old) (t_issued_at old) (t_expires_at old)
    (t_issued_by old) (t_scopes old) (t_consumed_at new) (t_consumed_by new) (t_revoked_at new).
Definition kept_node (old new : NodeRecord) : NodeRecord :=
  mkNode (n_node_id old) (n_node_name new) (n_kind old) (n_platform old) (n_architecture new) (n_agent_version new) (n_public_key old) (n_granted new)
    (n_enrolled_at old) (n_enrollment_token_id old) (n_scopes new) (n_declared new) (n_labels new) (n_session_id new) (n_session_started_at new)
    (n_last_heartbeat_at new) (n_last_health new) (n_quarantined_at new) (n_quarantine_reason new) (n_revoked_at new) (n_revocation_reason new).
Definition kept_job (old new : NodeJobRecord) : NodeJobRecord :=
  mkJob (j_job_id old) (j_node_id old) (j_capability old) (j_dedupe_key old) (j_status new) (j_attempt new) (j_authority old) (j_created_at old)
    (j_updated_at new) (j_progress_events new) (j_last_message new) (j_reason new).

Section Records.
Context `{JsonbLaws}.

Lemma jsonb_column_Ok j j' : jsonb_column j = Ok j' → jsonb j = Some j'.
Proof. unfold jsonb_column. apply require_some_Ok. Qed.

Lemma token_row_reads t row : token_valid t → token_row t = Ok row → token_from_row row = Ok t.
Proof.
  intros [Hm Hs] Hr. unfold token_row in Hr. destruct (scopes_roundtrip _ Hs) as (o & Ho & Hback). rewrite Ho in Hr.
  apply bind_Ok in Hr as (? & [= <-] & Hr). apply bind_Ok in Hr as (j & Hj%jsonb_column_Ok & [= <-]). unfold token_from_row. cbn.
  rewrite kind_of_value, platform_of_value, (Hback _ Hj). cbn. apply row_made. by destruct t.
Qed.

Lemma node_row_reads n row : node_valid n → node_row n = Ok row → node_from_row row = Ok n.
Proof.
  intros [Hm Hs Hh] Hr. unfold node_row in Hr. destruct (scopes_roundtrip _ Hs) as (o & Ho & Hback). rewrite Ho in Hr.
  apply bind_Ok in Hr as (lj & Hl%jsonb_column_Ok & Hr). apply bind_Ok in Hr as (hj & Hhj & Hr). apply bind_Ok in Hr as (? & [= <-] & Hr).
  apply bind_Ok in Hr as (j & Hj%jsonb_column_Ok & [= <-]). unfold node_from_row. cbn [nr_kind nr_platform nr_scopes nr_labels nr_last_health].
  rewrite kind_of_value, platform_of_value, (Hback _ Hj), (labels_roundtrip _ _ Hl).
  assert (health_column hj = Ok (n_last_health n)) as ->.
  { unfold health_row in Hhj. destruct (n_last_health n) as [h|]; [|by injection Hhj as <-]. destruct (Hh h eq_refl) as [Hmh Ht].
    destruct (jsonb_column (health_to_json h)) as [k|] eqn:Ek; [|done]. injection Hhj as <-. apply jsonb_column_Ok in Ek. by apply health_roundtrip. }
  cbn. apply row_made. by destruct n.
Qed.

Lemma job_row_reads j row : job_valid j → job_row j = Ok row → job_from_row row = Ok j.
Proof.
  intros [Hm Ha] [= <-]. unfold job_from_row. cbn [jr_status jr_commander_id jr_authority_lease_id jr_authority_epoch]. rewrite status_of_value, Ha.
  cbn. apply row_made. by destruct j.
Qed.

(** Writing a valid record fails in the database only. *)
Lemma token_row_Err t e : token_valid t → token_row t = Err e → e = PgDatabaseError.
Proof.
  intros [_ Hs] Hr. unfold token_row in Hr. destruct (scopes_roundtrip _ Hs) as (o & Ho & _). rewrite Ho in Hr. unfold jsonb_column in Hr.
  cbn in Hr. by destruct (jsonb (JObj o)); simplify_eq/=.
Qed.

Lemma node_row_Err n e : node_valid n → node_row n = Err e → e = PgDatabaseError.
Proof.
  intros [_ Hs _] Hr. unfold node_row, health_row, jsonb_column in Hr. destruct (scopes_roundtrip _ Hs) as (o & Ho & _). rewrite Ho in Hr.
  destruct (jsonb (labels_to_json _)); cbn in Hr; [|by simplify_eq]. destruct (n_last_health n) as [h|]; cbn in Hr.
  - destruct (jsonb (health_to_json h)); cbn in Hr; [|by simplify_eq]. by destruct (jsonb (JObj o)); simplify_eq/=.
  - by destruct (jsonb (JObj o)); simplify_eq/=.
Qed.
End Records.

(** An update of rows is the update of the records they hold. *)
Lemma update_token_reads ro rn o n : token_from_row ro = Ok o → token_from_row rn = Ok n → token_from_row (update_token ro rn) = Ok (kept_token o n).
Proof.
  unfold token_from_row. intros (k & Hk & (p & Hp & (s & Hs & Ho%row_made)%bind_Ok)%bind_Ok)%bind_Ok.
  intros (k' & _ & (p' & _ & (s' & _ & Hn%row_made)%bind_Ok)%bind_Ok)%bind_Ok. cbn. rewrite Hk, Hp, Hs. cbn. apply row_made.
  unfold make_token in *. apply bind_Ok in Ho as ([] & He & Ho). apply bind_Ok in Ho as ([] & Hb & Ho). apply bind_Ok in Ho as ([] & Hl & [= <-]).
  apply bind_Ok in Hn as (? & _ & Hn). apply bind_Ok in Hn as (? & _ & Hn). apply bind_Ok in Hn as (? & _ & [= <-]). cbn in *. by rewrite He, Hb, Hl.
Qed.

Lemma update_node_reads ro rn o n : node_from_row ro = Ok o → node_from_row rn = Ok n → node_from_row (update_node ro rn) = Ok (kept_node o n).
Proof.
  unfold node_from_row. intros (k & Hk & (p & Hp & (s & _ & (l & _ & (h & _ & Ho%row_made)%bind_Ok)%bind_Ok)%bind_Ok)%bind_Ok)%bind_Ok.
  intros (k' & _ & (p' & _ & (s' & Hs & (l' & Hl & (h' & Hh & Hn%row_made)%bind_Ok)%bind_Ok)%bind_Ok)%bind_Ok)%bind_Ok.
  cbn [update_node nr_kind nr_platform nr_scopes nr_labels nr_last_health]. rewrite Hk, Hp, Hs, Hl, Hh. cbn [mbind result_bind]. apply row_made.
  unfold make_node in *. apply bind_Ok in Ho as ([] & Hi & Ho). apply bind_Ok in Ho as ([] & Hb & [= <-]).
  apply bind_Ok in Hn as (? & _ & Hn). apply bind_Ok in Hn as (? & _ & [= <-]). cbn in *. by rewrite Hi, Hb.
Qed.

Lemma update_job_reads ro rn o n : job_from_row ro = Ok o → job_from_row rn = Ok n → job_from_row (update_job ro rn) = Ok (kept_job o n).
Proof.
  unfold job_from_row. intros (st & _ & (a & Ha & Ho%row_made)%bind_Ok)%bind_Ok (st' & Hst & (a' & _ & Hn%row_made)%bind_Ok)%bind_Ok.
  cbn [update_job jr_status jr_commander_id jr_authority_lease_id jr_authority_epoch]. rewrite Hst, Ha. cbn [mbind result_bind]. apply row_made.
  unfold make_job in *. apply bind_Ok in Ho as (? & _ & [= <-]). apply bind_Ok in Hn as ([] & Hat & [= <-]). cbn in *. by rewrite Hat.
Qed.

(** Validity survives an update. *)
Lemma kept_token_valid o n : token_valid o → token_valid (kept_token o n).
Proof.
  intros [Hm Hs]. split; [|done]. unfold make_token in *. apply bind_Ok in Hm as ([] & He & Hm). apply bind_Ok in Hm as ([] & Hb & Hm).
  apply bind_Ok in Hm as ([] & Hl & _). cbn. by rewrite He, Hb, Hl.
Qed.
Lemma kept_node_valid o n : node_valid o → node_valid n → node_valid (kept_node o n).
Proof.
  intros [Hm _ _] [_ Hs Hh]. split; [|done|done]. unfold make_node in *. apply bind_Ok in Hm as ([] & Hi & Hm). apply bind_Ok in Hm as ([] & Hb & _).
  cbn. by rewrite Hi, Hb.
Qed.
Lemma kept_job_valid o n : job_valid o → job_valid n → job_valid (kept_job o n).
Proof. intros [_ Ha] [Hm _]. split; [|done]. unfold make_job in *. apply bind_Ok in Hm as ([] & Hi & _). cbn. by rewrite Hi. Qed.

(** ** The audit table *)

Lemma obj_set_dset k v o : obj_set k v o = dset k v o.
Proof. induction o as [|[k' v'] o IH]; [done|]. cbn. rewrite IH. repeat case_decide; congruence. Qed.

Lemma obj_of_keys l : NoDup (dkeys (obj_of l)).
Proof.
  unfold obj_of. assert (Ho : dict_wf (@nil (string * json))) by constructor. revert Ho. generalize (@nil (string * json)).
  induction l as [|[k v] l IH]; intros o Ho; [done|]. cbn. apply IH. rewrite obj_set_dset. by apply dict_wf_dset.
Qed.

(** A redacted payload is a JSON value without repeated keys. *)
Lemma redacted_wf left j : json_wf (redact_value_go left j).
Proof.
  revert j. induction left as [|left IH]; intros j; [done|]. destruct j as [| | | |l|o]; try done; cbn [redact_value_go].
  - cbn [json_wf]. generalize (take 64 l). intros l'. induction l' as [|x l' IHl]; cbn; [done|]. by split.
  - apply json_wf_obj. split; [apply obj_of_keys|]. apply obj_of_Forall, Forall_map, Forall_true. intros [k v]. cbn. by destruct (is_credential_key k).
Qed.

Section Audit.
Context `{JsonbLaws} (scan : ∀ R, list R → list R) `{!ScanLaws scan}.

(** The row reads as the event, up to the order of keys in its payload. *)
Definition event_in (r : AuditRow) (e : NodeAuditEvent) : Prop := ∃ e', event_from_row r = Ok e' ∧ event_equiv e' e.

Definition numbered (rows : list AuditRow) : Prop := ∀ i r, rows !! i = Some r → ar_sequence r = Z.of_nat i + 1.

Lemma event_row_fields r e : event_from_row r = Ok e → e_sequence e = ar_sequence r ∧ e_event_hash e = ar_event_hash r.
Proof. unfold event_from_row. by intros (? & _ & (? & _ & [= <-])%bind_Ok)%bind_Ok. Qed.

Lemma event_in_hash r e : event_in r e → ar_event_hash r = e_event_hash e.
Proof. intros (e' & He & [_ Hh]). apply event_row_fields in He as [_ He]. congruence. Qed.

Lemma numbered_le rows : numbered rows → StronglySorted Z.le (map ar_sequence rows).
Proof.
  intros Hn. assert (Hs : ∀ rows k, (∀ i r, rows !! i = Some r → ar_sequence r = Z.of_nat i + k) → StronglySorted Z.le (map ar_sequence rows)).
  { clear. induction rows as [|r rows IH]; intros k Hn; cbn; constructor.
    - apply (IH (k + 1)). intros i r' Hi. rewrite (Hn (S i) r' Hi). lia.
    - apply Forall_map, Forall_lookup_2. intros i r' Hi. rewrite (Hn (S i) r' Hi), (Hn 0%nat r eq_refl). lia. }
  by apply (Hs rows 1).
Qed.

(** Whatever order the table is read in, ORDER BY gives back the order of insertion. *)
Lemma by_sequence_id rows : numbered rows → by_sequence scan rows = rows.
Proof.
  intros Hn. unfold by_sequence. set (leb := λ a b, ar_sequence a <=? ar_sequence b). set (l := sort_by leb (scan _ rows)).
  assert (Hp : l ≡ₚ rows) by (subst l; by rewrite sort_by_Permutation, scan_perm).
  assert (Hl : StronglySorted Z.le (map ar_sequence l)).
  { apply Sorted_StronglySorted; [by intros ???; lia|]. subst l. assert (Hs := sort_by_Sorted leb (scan _ rows) ltac:(unfold leb; lia)).
    clear Hp. revert Hs. generalize (sort_by leb (scan _ rows)). induction 1 as [|a l _ IH Hh]; cbn; [constructor|]. constructor; [done|].
    destruct Hh as [|b l Hb]; cbn; constructor. unfold leb in Hb. lia. }
  assert (Hseq : map ar_sequence l = map ar_sequence rows) by (apply (StronglySorted_unique Z.le); [done|by apply numbered_le|by rewrite Hp]).
  assert (Hback : ∀ l', (∀ r, r ∈ l' → r ∈ rows) → Some <$> l' = (λ z, rows !! Z.to_nat (z - 1)) <$> map ar_sequence l').
  { intros l' Hin. rewrite <- list_fmap_compose. apply list_fmap_ext. intros i r Hi. cbn. assert (Hr : r ∈ rows) by (apply Hin; by eapply list_elem_of_lookup_2).
    apply list_elem_of_lookup in Hr as [k Hk]. rewrite (Hn k r Hk). replace (Z.to_nat (Z.of_nat k + 1 - 1)) with k by lia. done. }
  assert (Hsome : Some <$> l = Some <$> rows) by (rewrite !Hback, Hseq; [done|done|intros r; by rewrite Hp]).
  apply (inj (fmap Some)) in Hsome. done.
Qed.
End Audit.

(** ** Migrations *)

Section Migrations.
Context {S : Type} (execute : string → S → option S).

Lemma apply_each_ledger ms ran applied sc r sc' : apply_each execute ms ran applied sc = (r, sc') →
  ∃ more, sc_ledger sc' = sc_ledger sc ++ more ∧ (∀ l, r = Ok l → l = applied ++ map fst more ∧ ∀ m, m ∈ ms → mg_version m ∈ ran ∨ mg_version m ∈ map fst more).
Proof.
  revert applied sc. induction ms as [|m ms IH]; intros applied sc Hr; cbn in Hr.
  - injection Hr as <- <-. exists []. rewrite app_nil_r. split; [done|]. intros l [= <-]. rewrite app_nil_r. split; [done|set_solver].
  - case_bool_decide as Hd.
    + destruct (IH _ _ Hr) as (more & Hl & Hk). exists more. split; [done|]. intros l Hrl. destruct (Hk l Hrl) as [-> Hall]. split; [done|].
      intros m' [->|Hm]%elem_of_cons; auto.
    + unfold mbind, st_bind, read, some_or, modify in Hr. destruct (execute (mg_statements m) (sc_state sc)) as [state|]; cbn in Hr.
      * destruct (IH _ _ Hr) as (more & Hl & Hk). exists ((mg_version m, mg_name m) :: more). split; [by rewrite Hl; cbn; rewrite <- app_assoc|].
        intros l Hrl. destruct (Hk l Hrl) as [-> Hall]. split; [by cbn; rewrite <- app_assoc|]. intros m' [->|Hm]%elem_of_cons; [right; cbn; left|].
        destruct (Hall m' Hm); [by left|right; cbn; by right].
      * injection Hr as <- <-. exists []. rewrite app_nil_r. by split.
Qed.

Lemma apply_each_done ms ran applied sc : (∀ m, m ∈ ms → mg_version m ∈ ran) → apply_each execute ms ran applied sc = (Ok applied, sc).
Proof.
  induction ms as [|m ms IH]; intros Hd; [done|]. cbn. rewrite bool_decide_eq_true_2 by (apply Hd; left). apply IH. intros m' Hm. apply Hd. by right.
Qed.

(** The ledger only grows, records exactly what was applied, also when a migration fails, and a schema that was brought up
    to date is left alone. *)
Lemma migrations_idempotent found sc r sc' : apply_migrations execute found sc = (r, sc') →
  (∃ more, sc_ledger sc' = sc_ledger sc ++ more ∧ ∀ l, r = Ok l → l = map fst more) ∧
  (is_ok r = true → apply_migrations execute found sc' = (Ok [], sc')).
Proof.
  unfold apply_migrations, mbind, st_bind, read, some_or. cbn. destruct (load_migrations found) as [ms|] eqn:El; cbn.
  - intros Hr. destruct (apply_each_ledger _ _ _ _ _ _ Hr) as (more & Hl & Hk). split; [exists more; split; [done|]; intros l Hrl; by destruct (Hk l Hrl) as [-> _]|].
    intros Hok. destruct r as [l|]; [|done]. destruct (Hk l eq_refl) as [_ Hall]. apply apply_each_done. intros m Hm. rewrite Hl, map_app. apply elem_of_app. by apply Hall.
  - intros [= <- <-]. split; [|done]. exists []. rewrite app_nil_r. by split.
Qed.
End Migrations.
