(* ===== verification/PgStoreProps.v ===== *)
(** A transaction on PostgreSQL refines the contract of the mesh store. *)

From stdpp Require Import pretty.
From S2P Require Import Prelude PyDict PyTime Sha256 Json JsonParse PyParse Redaction NodeModels NodeScopes NodeAudit NodeStore PgStore PgStoreFacts.
From Stdlib Require Import Ascii.

Open Scope Z_scope.

(** [d[k] = v], keeping of the old value what [kept] keeps. *)
Definition put_kept {V} (kept : V → V → V) (k : string) (v : V) (d : dict string V) : dict string V :=
  dset k (match dget k d with Some old => kept old v | None => v end) d.

Lemma upsert_holds {R A} (from_row : R → result pg_exn A) fits update kept k row a rows recs :
  (∀ ro rn o n, from_row ro = Ok o → from_row rn = Ok n → from_row (update ro rn) = Ok (kept o n)) →
  holds from_row rows recs → from_row row = Ok a →
  match upsert fits update k row rows with Ok rows' => holds from_row rows' (put_kept kept k a recs) | Err e => e = PgDatabaseError end.
Proof.
  intros Hu Hh Ha. unfold upsert, put_kept. destruct (fits row); [|done]. cbn. destruct (dget k rows) as [old|] eqn:Ek.
  - destruct (fits (update old row)); [|done]. cbn. destruct (holds_dget _ _ _ _ _ Hh Ek) as (o & -> & Ho). apply holds_dset; [|done]. by apply Hu.
  - rewrite (holds_dget_None _ _ _ _ Hh Ek). by apply holds_dset.
Qed.

Definition all_of {V} (P : V → Prop) (d : dict string V) : Prop := Forall (λ kv, P kv.2) d.

Lemma all_of_get {V} (P : V → Prop) d k v : all_of P d → dget k d = Some v → P v.
Proof. unfold all_of. rewrite Forall_forall. intros Hd Hk%dget_Some_elem. by apply (Hd (k, v)). Qed.

Lemma all_of_dset {V} (P : V → Prop) d k v : all_of P d → P v → all_of P (dset k v d).
Proof. unfold all_of. intros Hd Hv. induction Hd as [|[k' v'] d Hv' Hd IH]; cbn; [by repeat constructor|]. case_decide; constructor; done. Qed.

Lemma all_of_kept {V} (P : V → Prop) kept d k v : all_of P d → P v → (∀ old, P old → P (kept old v)) → all_of P (put_kept kept k v d).
Proof. intros Hd Hv Hk. apply all_of_dset; [done|]. destruct (dget k d) as [old|] eqn:E; [|done]. eapply Hk, all_of_get; [exact Hd|exact E]. Qed.

Lemma all_of_list {V} (P : V → Prop) d (scan : ∀ R, list R → list R) `{!ScanLaws scan} leb : all_of P d → Forall P (sort_by leb (scan V (dvalues d))).
Proof. intros Hd. rewrite sort_by_Permutation, scan_perm. unfold dvalues. by apply Forall_fmap. Qed.

Section Refine.
Context `{JsonbLaws} (scan : ∀ R, list R → list R) `{!ScanLaws scan} (collate : string → string → bool) (stamp : nat → datetime * string).

Notation kept_put_token t s := (mkStore (put_kept kept_token (t_token_id t) t (s_tokens s)) (s_nodes s) (s_jobs s) (s_control s) (s_events s)).
Notation kept_put_node n s := (mkStore (s_tokens s) (put_kept kept_node (n_node_id n) n (s_nodes s)) (s_jobs s) (s_control s) (s_events s)).
Notation kept_put_job j s := (mkStore (s_tokens s) (s_nodes s) (put_kept kept_job (j_job_id j) j (s_jobs s)) (s_control s) (s_events s)).

Definition tokens_listed (s : MeshStore) : list EnrollmentTokenRecord :=
  sort_by (λ a b, t_issued_at a <=? t_issued_at b) (scan _ (dvalues (s_tokens s))).
Definition nodes_listed (s : MeshStore) : list NodeRecord := sort_by (λ a b, collate (n_node_name a) (n_node_name b)) (scan _ (dvalues (s_nodes s))).
Definition jobs_listed (s : MeshStore) : list NodeJobRecord := sort_by (λ a b, j_created_at a <=? j_created_at b) (scan _ (dvalues (s_jobs s))).

(** The contract as the tables give it: an existing record keeps its identity, listings are ordered by a column. *)
Fixpoint run_kept {A} (p : Tx A) (s : MeshStore) : result exn A * MeshStore :=
  match p with
  | TxRet a => (Ok a, s)
  | TxRaise e => (Err e, s)
  | TxGetToken i k => run_kept (k (dget i (s_tokens s))) s
  | TxPutToken t k => run_kept k (kept_put_token t s)
  | TxListTokens k => run_kept (k (tokens_listed s)) s
  | TxGetNode i k => run_kept (k (dget i (s_nodes s))) s
  | TxPutNode n k => run_kept k (kept_put_node n s)
  | TxListNodes k => run_kept (k (nodes_listed s)) s
  | TxGetControl k => run_kept (k (s_control s)) s
  | TxPutControl c k => run_kept k (store_put_control c s)
  | TxGetJob i k => run_kept (k (dget i (s_jobs s))) s
  | TxPutJob j k => run_kept k (kept_put_job j s)
  | TxListJobs k => run_kept (k (jobs_listed s)) s
  | TxAudit d k => run_kept k (store_audit stamp d s)
  end.

(** A body that puts valid records when it is given valid ones. *)
Fixpoint puts_valid {A} (p : Tx A) : Prop :=
  match p with
  | TxRet _ | TxRaise _ => True
  | TxGetToken _ k => ∀ o, (∀ t, o = Some t → token_valid t) → puts_valid (k o)
  | TxPutToken t k => token_valid t ∧ puts_valid k
  | TxListTokens k => ∀ l, Forall token_valid l → puts_valid (k l)
  | TxGetNode _ k => ∀ o, (∀ n, o = Some n → node_valid n) → puts_valid (k o)
  | TxPutNode n k => node_valid n ∧ puts_valid k
  | TxListNodes k => ∀ l, Forall node_valid l → puts_valid (k l)
  | TxGetControl k => ∀ c, make_control c = Ok c → puts_valid (k c)
  | TxPutControl c k => make_control c = Ok c ∧ puts_valid k
  | TxGetJob _ k => ∀ o, (∀ j, o = Some j → job_valid j) → puts_valid (k o)
  | TxPutJob j k => job_valid j ∧ puts_valid k
  | TxListJobs k => ∀ l, Forall job_valid l → puts_valid (k l)
  | TxAudit _ k => puts_valid k
  end.

(** The database holds this mesh. *)
Record mesh_in (d : Pg) (s : MeshStore) : Prop := {
  mi_tokens : holds token_from_row (pg_tokens d) (s_tokens s);
  mi_nodes : holds node_from_row (pg_nodes d) (s_nodes s);
  mi_jobs : holds job_from_row (pg_jobs d) (s_jobs s);
  mi_control : ∃ r, pg_control d = Some r ∧ control_from_row r = Ok (s_control s);
  mi_events : Forall2 event_in (pg_events d) (s_events s);
  mi_numbered : numbered (pg_events d);
  mi_valid : all_of token_valid (s_tokens s) ∧ all_of node_valid (s_nodes s) ∧ all_of job_valid (s_jobs s) }.

Lemma migrated_empty : mesh_in migrated empty_store.
Proof. split; [constructor|constructor|constructor|by eexists|constructor|by intros [|i] r|by repeat constructor]. Qed.

(** *** Statements *)

Lemma put_token_sim t d s : mesh_in d s → token_valid t →
  match pg_put_token t d with Ok d' => mesh_in d' (kept_put_token t s) | Err e => e = PgDatabaseError end.
Proof.
  intros [Ht Hn Hj Hc He Hnum (Vt & Vn & Vj)] Hv. unfold pg_put_token. destruct (token_row t) as [row|e] eqn:Er; [|by eapply token_row_Err].
  pose proof (upsert_holds token_from_row token_fits update_token kept_token (t_token_id t) row t _ _ update_token_reads Ht (token_row_reads _ _ Hv Er)) as Hu.
  unfold mbind at 1, result_bind at 1. destruct (upsert _ _ _ _ _) as [rows|e]; [|done]. split; try done. cbn. split_and!; [|done|done].
  apply all_of_kept; [done|done|]. intros old. apply kept_token_valid.
Qed.

Lemma put_node_sim n d s : mesh_in d s → node_valid n →
  match pg_put_node n d with Ok d' => mesh_in d' (kept_put_node n s) | Err e => e = PgDatabaseError end.
Proof.
  intros [Ht Hn Hj Hc He Hnum (Vt & Vn & Vj)] Hv. unfold pg_put_node. destruct (node_row n) as [row|e] eqn:Er; [|by eapply node_row_Err].
  pose proof (upsert_holds node_from_row node_fits update_node kept_node (n_node_id n) row n _ _ update_node_reads Hn (node_row_reads _ _ Hv Er)) as Hu.
  unfold mbind at 1, result_bind at 1. destruct (upsert _ _ _ _ _) as [rows|e]; [|done]. split; try done. cbn. split_and!; [done| |done].
  apply all_of_kept; [done|done|]. intros old Ho. by apply kept_node_valid.
Qed.

Lemma put_job_sim j d s : mesh_in d s → job_valid j →
  match pg_put_job j d with Ok d' => mesh_in d' (kept_put_job j s) | Err e => e = PgDatabaseError end.
Proof.
  intros [Ht Hn Hj Hc He Hnum (Vt & Vn & Vj)] Hv. unfold pg_put_job. destruct (job_row j) as [row|e] eqn:Er; [|done].
  pose proof (upsert_holds job_from_row job_fits update_job kept_job (j_job_id j) row j _ _ update_job_reads Hj (job_row_reads _ _ Hv Er)) as Hu.
  unfold mbind at 1, result_bind at 1. destruct (upsert _ _ _ _ _) as [rows|e]; [|done]. split; try done. cbn. split_and!; [done|done|].
  apply all_of_kept; [done|done|]. intros old Ho. by apply kept_job_valid.
Qed.

Lemma put_control_sim c d s : mesh_in d s → make_control c = Ok c →
  match pg_put_control c d with Ok d' => mesh_in d' (store_put_control c s) | Err e => e = PgDatabaseError end.
Proof.
  intros [Ht Hn Hj (r & Hr & _) He Hnum Hv] Hc. unfold pg_put_control. rewrite Hr. destruct (control_fits _); [|done]. cbn. split; try done.
  eexists. split; [reflexivity|]. unfold control_from_row. cbn. apply row_made. by destruct c.
Qed.

Lemma get_control_sim d s : mesh_in d s → pg_get_control d = Ok (s_control s) ∧ make_control (s_control s) = Ok (s_control s).
Proof.
  intros [_ _ _ (r & Hr & Hc) _ _ _]. unfold pg_get_control. rewrite Hr. split; [done|]. apply row_made in Hc. unfold make_control in *.
  apply bind_Ok in Hc as ([] & Hz & [= <-]). cbn in *. by rewrite Hz.
Qed.

(** *** Listings *)

Lemma token_row_issued r t : token_from_row r = Ok t → tr_issued_at r = t_issued_at t.
Proof.
  intros (? & _ & (? & _ & (? & _ & Hm%row_made)%bind_Ok)%bind_Ok)%bind_Ok. unfold make_token in Hm. apply bind_Ok in Hm as (? & _ & Hm).
  apply bind_Ok in Hm as (? & _ & Hm). by apply bind_Ok in Hm as (? & _ & [= <-]).
Qed.
Lemma node_row_name r n : node_from_row r = Ok n → nr_node_name r = n_node_name n.
Proof.
  intros (? & _ & (? & _ & (? & _ & (? & _ & (? & _ & Hm%row_made)%bind_Ok)%bind_Ok)%bind_Ok)%bind_Ok)%bind_Ok. unfold make_node in Hm.
  apply bind_Ok in Hm as (? & _ & Hm). by apply bind_Ok in Hm as (? & _ & [= <-]).
Qed.
Lemma job_row_created r j : job_from_row r = Ok j → jr_created_at r = j_created_at j.
Proof. intros (? & _ & (? & _ & Hm%row_made)%bind_Ok)%bind_Ok. unfold make_job in Hm. by apply bind_Ok in Hm as (? & _ & [= <-]). Qed.

Lemma list_tokens_sim d s : mesh_in d s → pg_list_tokens scan d = Ok (tokens_listed s) ∧ Forall token_valid (tokens_listed s).
Proof.
  intros Hm. split; [|apply all_of_list; [done|apply Hm]]. apply (holds_list token_from_row scan); [|apply Hm].
  by intros r r' a a' ->%token_row_issued ->%token_row_issued.
Qed.
Lemma list_nodes_sim d s : mesh_in d s → pg_list_nodes scan collate d = Ok (nodes_listed s) ∧ Forall node_valid (nodes_listed s).
Proof.
  intros Hm. split; [|apply all_of_list; [done|apply Hm]]. apply (holds_list node_from_row scan); [|apply Hm].
  by intros r r' a a' ->%node_row_name ->%node_row_name.
Qed.
Lemma list_jobs_sim d s : mesh_in d s → pg_list_jobs scan d = Ok (jobs_listed s) ∧ Forall job_valid (jobs_listed s).
Proof.
  intros Hm. split; [|apply all_of_list; [done|apply Hm]]. apply (holds_list job_from_row scan); [|apply Hm].
  by intros r r' a a' ->%job_row_created ->%job_row_created.
Qed.

(** *** The chain *)

Lemma head_row d s : mesh_in d s → audit_head_row scan d = last (pg_events d).
Proof. intros Hm. unfold audit_head_row. by rewrite (by_sequence_id scan) by apply (mi_numbered _ _ Hm). Qed.

Lemma head_sequence d s : mesh_in d s → match last (pg_events d) with Some r => ar_sequence r + 1 | None => 1 end = Z.of_nat (length (s_events s)) + 1.
Proof.
  intros Hm. rewrite <- (Forall2_length _ _ _ (mi_events _ _ Hm)). pose proof (mi_numbered _ _ Hm) as Hn. rewrite last_lookup.
  destruct (pg_events d !! pred (length (pg_events d))) as [r|] eqn:El.
  - rewrite (Hn _ _ El). apply lookup_lt_Some in El. lia.
  - apply lookup_ge_None in El. lia.
Qed.

Lemma head_hash d s : mesh_in d s → match last (pg_events d) with Some r => ar_event_hash r | None => GENESIS_HASH end = log_head (s_events s).
Proof.
  intros Hm. pose proof (mi_events _ _ Hm) as He. unfold log_head, head_from. rewrite !last_lookup, <- (Forall2_length _ _ _ He).
  destruct (pg_events d !! _) as [r|] eqn:El.
  - destruct (Forall2_lookup_l _ _ _ _ _ He El) as (e & -> & Hin). by apply event_in_hash.
  - apply lookup_ge_None in El. rewrite lookup_ge_None_2; [done|]. by rewrite <- (Forall2_length _ _ _ He).
Qed.

Lemma audit_row_reads e row : json_wf (e_payload e) → audit_row e = Ok row → event_in row e ∧ ar_sequence row = e_sequence e.
Proof.
  intros Hw (payload & Hp%jsonb_column_Ok & [= <-])%bind_Ok. apply jsonb_same in Hp; [|done]. split; [|done]. eexists. unfold event_from_row.
  cbn [ar_action ar_decision]. rewrite action_of_value, decision_of_value. split; [reflexivity|]. split; [|done]. rewrite !jnorm_body. cbn -[jnorm]. by rewrite Hp.
Qed.

Lemma append_audit_sim a d s : mesh_in d s →
  match pg_append_audit scan stamp a d with Ok d' => mesh_in d' (store_audit stamp a s) | Err e => e = PgDatabaseError end.
Proof.
  intros Hm. unfold pg_append_audit. rewrite (head_row _ _ Hm), (head_sequence _ _ Hm), (head_hash _ _ Hm), (Forall2_length _ _ _ (mi_events _ _ Hm)).
  set (st := stamp (length (s_events s))). set (e := link_event _ _ _ _ _). destruct (audit_row e) as [row|err] eqn:Er; unfold mbind at 1, result_bind at 1.
  2: { unfold audit_row, jsonb_column in Er. by destruct (jsonb (e_payload e)); simplify_eq/=. }
  assert (Hw : json_wf (e_payload e)) by apply redacted_wf. destruct (audit_row_reads _ _ Hw Er) as [Hin Hs].
  destruct (_ && _); [|done]. cbn. destruct Hm as [Ht Hn Hj Hc He Hnum Hv]. split; try done.
  - cbn. unfold link_one, append_draft. apply Forall2_app; [done|]. by constructor.
  - cbn. intros i r Hi. apply lookup_app_Some in Hi as [Hi|[Hi Hr]]; [by apply Hnum|]. apply list_lookup_singleton_Some in Hr as [Hz <-].
    rewrite Hs. cbn. rewrite <- (Forall2_length _ _ _ He). lia.
Qed.

(** *** Transactions *)

Lemma run_pg_sim {A} (p : Tx A) d s : mesh_in d s → puts_valid p →
  match run_pg scan collate stamp p d with
  | (Ok a, d') => ∃ s', run_kept p s = (Ok a, s') ∧ mesh_in d' s'
  | (Err (PgMesh e), _) => (run_kept p s).1 = Err e
  | (Err PgDatabaseError, _) => True
  | (Err PgRowError, _) => False
  end.
Proof.
  revert d s. induction p as [a|e|i k IH|t k IH|k IH|i k IH|n k IH|k IH|k IH|c k IH|i k IH|j k IH|k IH|a k IH]; intros d s Hm Hv; cbn [run_pg run_kept puts_valid] in *.
  - by exists s.
  - done.
  - unfold pg_get_token. rewrite (holds_get _ _ _ i (mi_tokens _ _ Hm)). apply IH; [done|]. apply Hv. intros t. destruct (mi_valid _ _ Hm) as (Vt & _ & _). by apply all_of_get.
  - destruct Hv as [Hv Hk]. pose proof (put_token_sim t d s Hm Hv) as Hp. destruct (pg_put_token t d); [by apply IH|by subst].
  - destruct (list_tokens_sim _ _ Hm) as [-> Hl]. apply IH; [done|]. by apply Hv.
  - unfold pg_get_node. rewrite (holds_get _ _ _ i (mi_nodes _ _ Hm)). apply IH; [done|]. apply Hv. intros n. destruct (mi_valid _ _ Hm) as (_ & Vn & _). by apply all_of_get.
  - destruct Hv as [Hv Hk]. pose proof (put_node_sim n d s Hm Hv) as Hp. destruct (pg_put_node n d); [by apply IH|by subst].
  - destruct (list_nodes_sim _ _ Hm) as [-> Hl]. apply IH; [done|]. by apply Hv.
  - destruct (get_control_sim _ _ Hm) as [-> Hc]. apply IH; [done|]. by apply Hv.
  - destruct Hv as [Hv Hk]. pose proof (put_control_sim c d s Hm Hv) as Hp. destruct (pg_put_control c d); [by apply IH|by subst].
  - unfold pg_get_job. rewrite (holds_get _ _ _ i (mi_jobs _ _ Hm)). apply IH; [done|]. apply Hv. intros j. destruct (mi_valid _ _ Hm) as (_ & _ & Vj). by apply all_of_get.
  - destruct Hv as [Hv Hk]. pose proof (put_job_sim j d s Hm Hv) as Hp. destruct (pg_put_job j d); [by apply IH|by subst].
  - destruct (list_jobs_sim _ _ Hm) as [-> Hl]. apply IH; [done|]. by apply Hv.
  - pose proof (append_audit_sim a d s Hm) as Hp. destruct (pg_append_audit _ _ a d); [by apply IH|by subst].
Qed.

(** A body that never changes the identity of a stored record, and reads listings that come in the order of the dictionary. *)
Fixpoint steady {A} (p : Tx A) (s : MeshStore) : Prop :=
  match p with
  | TxRet _ | TxRaise _ => True
  | TxGetToken i k => steady (k (dget i (s_tokens s))) s
  | TxPutToken t k => (∀ old, dget (t_token_id t) (s_tokens s) = Some old → kept_token old t = t) ∧ steady k (store_put_token t s)
  | TxListTokens k => tokens_listed s = dvalues (s_tokens s) ∧ steady (k (dvalues (s_tokens s))) s
  | TxGetNode i k => steady (k (dget i (s_nodes s))) s
  | TxPutNode n k => (∀ old, dget (n_node_id n) (s_nodes s) = Some old → kept_node old n = n) ∧ steady k (store_put_node n s)
  | TxListNodes k => nodes_listed s = dvalues (s_nodes s) ∧ steady (k (dvalues (s_nodes s))) s
  | TxGetControl k => steady (k (s_control s)) s
  | TxPutControl c k => steady k (store_put_control c s)
  | TxGetJob i k => steady (k (dget i (s_jobs s))) s
  | TxPutJob j k => (∀ old, dget (j_job_id j) (s_jobs s) = Some old → kept_job old j = j) ∧ steady k (store_put_job j s)
  | TxListJobs k => jobs_listed s = dvalues (s_jobs s) ∧ steady (k (dvalues (s_jobs s))) s
  | TxAudit d k => steady k (store_audit stamp d s)
  end.

Lemma put_kept_same {V} (kept : V → V → V) k v d : (∀ old, dget k d = Some old → kept old v = v) → put_kept kept k v d = dset k v d.
Proof. unfold put_kept. destruct (dget k d) as [old|]; [|done]. intros Hk. by rewrite (Hk old eq_refl). Qed.

Lemma steady_direct {A} (p : Tx A) s : steady p s → run_kept p s = run_direct stamp p s.
Proof.
  revert s. induction p as [a|e|i k IH|t k IH|k IH|i k IH|n k IH|k IH|k IH|c k IH|i k IH|j k IH|k IH|a k IH]; intros s Hs; cbn [run_kept run_direct steady] in *; auto.
  - destruct Hs as [Ht Hs]. rewrite put_kept_same by done. by apply IH.
  - destruct Hs as [-> Hs]. by apply IH.
  - destruct Hs as [Ht Hs]. rewrite put_kept_same by done. by apply IH.
  - destruct Hs as [-> Hs]. by apply IH.
  - destruct Hs as [Ht Hs]. rewrite put_kept_same by done. by apply IH.
  - destruct Hs as [-> Hs]. by apply IH.
Qed.

(** The chain read back is the chain of the mesh, up to the order of keys. *)
Lemma audit_events_sim d s : mesh_in d s → ∃ l, pg_audit_events scan d = Ok l ∧ Forall2 event_equiv l (s_events s).
Proof.
  intros Hm. unfold pg_audit_events. rewrite (by_sequence_id scan) by apply (mi_numbered _ _ Hm). induction (mi_events _ _ Hm) as [|r e rows es (e' & He & Hq) _ (l & Hl & Hf)].
  - by exists [].
  - exists (e' :: l). cbn. rewrite He. cbn. rewrite Hl. split; [done|]. by constructor.
Qed.

Lemma verify_sim d s : mesh_in d s → pg_verify_audit_chain scan d = Ok (verify_audit_chain s) ∧ pg_audit_head scan d = audit_head s.
Proof.
  intros Hm. split.
  - destruct (audit_events_sim d s Hm) as (l & Hl & Hf). unfold pg_verify_audit_chain. rewrite Hl. cbn. f_equal. by apply verify_from_equiv.
  - unfold pg_audit_head. rewrite (head_row _ _ Hm). by apply head_hash.
Qed.

(** C6. PostgreSQL implements the contract of the mesh store. For every body that puts valid records, run without
    interruption on a database that holds a mesh: if it returns, it returned what the contract returns on that mesh and the
    database holds the mesh the contract leaves, where an existing record keeps its identity columns and listings come in
    the order of a column; its audit chain verifies exactly when the mesh's does and ends in the same hash. If the body
    never changes an identity and its listings come in dictionary order, that is the in-memory transaction. If it raises,
    the contract raises the same or the database refused a statement, and in every case nothing is changed; a stored row
    never fails to read. *)
Theorem pg_refines {A} (p : Tx A) d s : mesh_in d s → puts_valid p →
  match pg_transaction scan collate stamp p d with
  | (Ok a, d') => ∃ s', run_kept p s = (Ok a, s') ∧ mesh_in d' s' ∧ (steady p s → transaction stamp p s = (Ok a, s')) ∧
      pg_verify_audit_chain scan d' = Ok (verify_audit_chain s') ∧ pg_audit_head scan d' = audit_head s'
  | (Err (PgMesh e), d') => d' = d ∧ (run_kept p s).1 = Err e ∧ (steady p s → transaction stamp p s = (Err e, s))
  | (Err PgDatabaseError, d') => d' = d
  | (Err PgRowError, _) => False
  end.
Proof.
  intros Hm Hv. pose proof (run_pg_sim p d s Hm Hv) as Hs. unfold pg_transaction. destruct (run_pg _ _ _ p d) as [[a|[e| |]] d'].
  - destruct Hs as (s' & Hr & Hm'). exists s'. split_and!; [done|done| |apply (verify_sim _ _ Hm')..]. intros Hst.
    rewrite transaction_atomic. unfold run_atomic. by rewrite <- steady_direct, Hr.
  - split_and!; [done|done|]. intros Hst. rewrite transaction_atomic. unfold run_atomic. rewrite <- steady_direct by done.
    destruct (run_kept p s) as [[|e'] s']; cbn in Hs; [done|]. by injection Hs as ->.
  - done.
  - done.
Qed.
End Refine.

(** * The mesh on PostgreSQL at work: an enrollment, a revocation that a concurrent heartbeat undoes, and a job dispatched again under its id *)

From S2P Require Import NodeCrypto NodeRegistry NodeRegistryExamples.

(** ** A database *)

#[export] Instance sorting_jsonb : Jsonb := λ j, Some (jnorm j).
#[export] Instance sorting_jsonb_laws : JsonbLaws.
Proof. intros j j' _ [= <-]. apply jnorm_idem. Qed.

Definition backwards (R : Type) (l : list R) : list R := reverse l.
#[export] Instance backwards_laws : ScanLaws backwards.
Proof.
  split; intros; unfold backwards; [apply reverse_Permutation|]. symmetry. apply fmap_reverse.
Qed.

Definition by_code (a b : string) : bool := bool_decide (str_le a b).
Definition pg_stamp (n : nat) : datetime * string := (seconds (Z.of_nat n), "nae-" +:+ pretty n).
Notation on_pg := (pg_transaction backwards by_code pg_stamp).

(** ** The bodies of the registry *)

Definition demo_token : EnrollmentTokenRecord :=
  let secret := new_enrollment_secret "abcdefgh" "secret-secret" in
  mkToken (is_token_id secret) (is_secret_hash secret) "desk" WORKSTATION LINUX ["system.inspect@1"] (seconds 10) (seconds 1000) "op" [] None None None.
Definition heartbeat_body (node_id session_id : string) (health : NodeHealthSnapshot) : Tx NodeRecord :=
  record ← known_node node_id;
  tx_lift (ensure (bool_decide (n_session_id record = Some session_id)) (NodeMeshError NODE_SESSION_REPLACED));;
  let updated := node_heartbeat record health in
  put_node updated;;
  mret updated.
Lemma heartbeat_is node_id session_id health : record_heartbeat pg_stamp node_id session_id health = transaction pg_stamp (heartbeat_body node_id session_id health).
Proof. reflexivity. Qed.

(** ** Every redemption puts valid records *)

Lemma no_scopes_canonical : canonical_scopes [].
Proof. exists []. split; [constructor|]. by split. Qed.

Lemma reject_valid {A} reason name (k : Tx A) : puts_valid k → puts_valid (reject_in reason name ;; k).
Proof. done. Qed.

Lemma redeem_valid token_id secret d key now uuid : puts_valid (redeem_body token_id secret d key now uuid).
Proof.
  intros o Ho. cbn. destruct o as [r|]; [|done]. destruct (enrollment_secret_matches _ _ _); [|done]. specialize (Ho r eq_refl) as [Hm Hs].
  destruct (enrollment_failure r d now) as [failure|].
  - destruct (consumed_token r), (t_consumed_by r) as [node_id|]; try done. intros [n|] Hn; [|done]. cbn. by destruct (bool_decide _).
  - destruct (make_node _) as [n|e] eqn:En; [|done]. assert (n = enrolled_node ("node-" +:+ uuid) r d key now) as ->.
    { unfold make_node in En. apply bind_Ok in En as (? & _ & En). by apply bind_Ok in En as (? & _ & [= <-]). }
    cbn. split; [|split; [|done]].
    + split; [done|done|done].
    + split; [|done]. unfold make_token in *. apply bind_Ok in Hm as ([] & He & Hm). apply bind_Ok in Hm as ([] & Hb & Hm).
      apply bind_Ok in Hm as ([] & Hl & _). cbn. by rewrite He, Hb, Hl.
Qed.

(** ** A redemption on the database *)

Definition issued : Pg := final (on_pg (put_enrollment_token demo_token) migrated).
Definition issued_mesh : MeshStore := store_put_token demo_token empty_store.

Lemma issued_holds : mesh_in issued issued_mesh.
Proof.
  pose proof (put_token_sim demo_token migrated empty_store migrated_empty) as Hp.
  assert (Hv : token_valid demo_token) by (split; [by vm_compute|apply no_scopes_canonical]). specialize (Hp Hv).
  assert (Hi : pg_put_token demo_token migrated = Ok issued) by (vm_compute; reflexivity). by rewrite Hi in Hp.
Qed.

Definition redeem_demo_body : Tx (result NodeReason NodeRecord) :=
  redeem_body (t_token_id demo_token) (encode_bytes "secret-secret") (mkDescription "desk" WORKSTATION LINUX "x86_64" "1.0" ["system.inspect@1"] []) demo_key (seconds 20) "u1".
Definition enrolled : Pg := final (on_pg redeem_demo_body issued).

Definition demo_node : NodeRecord :=
  enrolled_node "node-u1" demo_token (mkDescription "desk" WORKSTATION LINUX "x86_64" "1.0" ["system.inspect@1"] []) demo_key (seconds 20).

Lemma enrolled_ok : on_pg redeem_demo_body issued = (Ok (Ok demo_node), enrolled).
Proof. vm_compute. reflexivity. Qed.

Lemma redeem_steady : steady backwards by_code pg_stamp redeem_demo_body issued_mesh.
Proof. vm_compute. split; [by intros old|]. split; [|exact I]. intros old [= <-]. reflexivity. Qed.

Lemma pg_refines_witness :
  mesh_in issued issued_mesh ∧ puts_valid redeem_demo_body ∧
  ∃ s', transaction pg_stamp redeem_demo_body issued_mesh = (Ok (Ok demo_node), s') ∧ mesh_in enrolled s' ∧
    pg_verify_audit_chain backwards enrolled = Ok (verify_audit_chain s').
Proof.
  split; [exact issued_holds|]. split; [apply redeem_valid|].
  pose proof (pg_refines backwards by_code pg_stamp redeem_demo_body issued issued_mesh issued_holds (redeem_valid _ _ _ _ _ _)) as Hp.
  rewrite enrolled_ok in Hp. destruct Hp as (s' & _ & Hm & Hs & Hv & _). exists s'. split; [exact (Hs redeem_steady)|]. split; [exact Hm|exact Hv].
Defined.

(** ** A revocation that a heartbeat undoes *)

Definition attach_body (node_id session_id : string) (declared : list string) (agent_version architecture : string) (now : datetime) : Tx NodeRecord :=
  record ← known_node node_id;
  tx_lift (ensure (negb (is_some (n_revoked_at record))) (NodeMeshError NODE_REVOKED));;
  let attached := node_attach record session_id now agent_version architecture (normalize_capability_names declared) in
  put_node attached;;
  append_audit (draft (n_node_name record) AA_SESSION_OPENED AD_ALLOW "" (Some node_id) None
    [("session_id", JStr session_id); ("declared_capabilities", strs (n_declared attached));
     ("effective_capabilities", strs (effective_capabilities attached))]);;
  mret attached.
Lemma attach_is node_id sid declared v a now : attach_session pg_stamp node_id sid declared v a now = transaction pg_stamp (attach_body node_id sid declared v a now).
Proof. reflexivity. Qed.

Definition revoke_body (node_id actor reason : string) (now : datetime) : Tx NodeRecord :=
  record ← known_node node_id;
  tx_lift (ensure (negb (false && is_some (n_revoked_at record))) (NodeMeshError NODE_REVOKED));;
  let updated := node_set_revoked record (default now (n_revoked_at record)) (if is_empty (n_revocation_reason record) then reason else n_revocation_reason record) in
  put_node updated;;
  append_audit (draft actor AA_NODE_REVOKED AD_ALLOW reason (Some node_id) None []);;
  mret updated.
Lemma revoke_is node_id actor reason now : revoke_node pg_stamp node_id actor reason now = transaction pg_stamp (revoke_body node_id actor reason now).
Proof. reflexivity. Qed.

Definition attached : Pg := final (on_pg (attach_body "node-u1" "sess-1" ["system.inspect@1"] "1.0" "x86_64" (seconds 30)) enrolled).
Definition beat : NodeHealthSnapshot := mkHealth (seconds 40) 0 None None None None None None.
Definition revoke_then (d : Pg) : result pg_exn NodeRecord * Pg := on_pg (revoke_body "node-u1" "op" "lost laptop" (seconds 41)) d.
Definition revoked_column (d : Pg) : option (option datetime * option string) := (λ r, (nr_revoked_at r, nr_session_id r)) <$> dget "node-u1" (pg_nodes d).

(** One after the other, the heartbeat is refused and the node stays revoked. When the revocation commits between the
    heartbeat's read and its write, the node is neither revoked nor detached afterwards, though both transactions returned. *)
Example heartbeat_undoes_revocation :
  let alone := final (revoke_then attached) in
  let raced := interrupted backwards by_code pg_stamp 1 (heartbeat_body "node-u1" "sess-1" beat) (revoke_body "node-u1" "op" "lost laptop" (seconds 41)) attached in
  (revoked_column alone, outcome (on_pg (heartbeat_body "node-u1" "sess-1" beat) alone)) =
    (Some (Some (seconds 41), None), Err (PgMesh (NodeMeshError NODE_SESSION_REPLACED))) ∧
  (is_ok (outcome raced), revoked_column (final raced)) = (true, Some (None, Some "sess-1")).
Proof. vm_compute. split; reflexivity. Qed.

(** ** A job dispatched again under its id *)

Definition job_on (node : string) (now : datetime) : NodeJobRecord :=
  mkJob "job-1" node "system.inspect@1" ("dedupe-" +:+ node) DISPATCHED 1 (mkAuthority "op" "lease-1" (Some 1)) now now 0 "" "".

Definition dispatched_twice : Tx (option NodeJobRecord) := put_job (job_on "node-a" 0) ;; put_job (job_on "node-b" 5) ;; get_job "job-1".
Definition node_named {E} (r : result E (option NodeJobRecord)) : option string := match r with Ok (Some j) => Some (j_node_id j) | _ => None end.

(** The table keeps the node of the first dispatch, the in-memory store takes the second. *)
Example redispatched_job_differs :
  (node_named (outcome (on_pg dispatched_twice migrated)), node_named (outcome (transaction pg_stamp dispatched_twice empty_store))) = (Some "node-a", Some "node-b").
Proof. vm_compute. reflexivity. Qed.

(** Two events cannot share an id: the transaction is rolled back. *)
Definition frozen_twice : Tx () :=
  append_audit (draft "op" AA_DISPATCH_FROZEN AD_ALLOW "" None None []) ;; append_audit (draft "op" AA_DISPATCH_FROZEN AD_ALLOW "" None None []).
Example duplicate_event_id_is_refused : pg_transaction backwards by_code (λ _, (0, "nae-1")) frozen_twice migrated = (Err PgDatabaseError, migrated).
Proof. vm_compute. reflexivity. Qed.
