(* ===== verification/NodeChannel.v ===== *)
(** The in-memory channel between an agent and a session of one process (src/olympus/nodes/channel.py).

    A pair of halves and two bounded queues, as a step relation cut at the awaits: a call first checks, then waits for room or for
    an item. Waiting puts enter in any order, as [asyncio.Queue] allows. [entered] and [received] record the history. *)

From S2P Require Import Prelude.

(** The halves; a half's outbox is the queue it writes, the other half's outbox is the one it reads. *)
Inductive half := Left | Right.
#[export] Instance half_eq : EqDecision half.
Proof. solve_decision. Defined.
Definition peer (h : half) : half := match h with Left => Right | Right => Left end.

(** A half: closed or not, its outbox, the payloads its senders wait to put, whether a receive waits, and how far its [close] is *)
Inductive closing := NotClosing | PutsOutbox | PutsInbox.
Record Half := mkHalf {
  hf_closed : bool;
  hf_outbox : list (option string);
  hf_waiting : list string;
  hf_getting : bool;
  hf_closing : closing;
  hf_entered : list (option string);
  hf_received : list (option string) }.

Definition Pair : Type := half → Half.
Definition set_half (p : Pair) (h : half) (x : Half) : Pair := λ h', if decide (h' = h) then x else p h'.

(** [create_channel_pair] *)
Definition fresh_half : Half := mkHalf false [] [] false NotClosing [] [].
Definition create_channel_pair : Pair := λ _, fresh_half.

Definition begin_send (payload : string) (x : Half) : Half :=
  mkHalf (hf_closed x) (hf_outbox x) (hf_waiting x ++ [payload]) (hf_getting x) (hf_closing x) (hf_entered x) (hf_received x).
Definition put (waiting : list string) (a : option string) (x : Half) : Half :=
  mkHalf (hf_closed x) (hf_outbox x ++ [a]) waiting (hf_getting x) (hf_closing x) (hf_entered x ++ [a]) (hf_received x).
Definition begin_receive (x : Half) : Half := mkHalf (hf_closed x) (hf_outbox x) (hf_waiting x) true (hf_closing x) (hf_entered x) (hf_received x).
(** the receiver's side of a get: the end marker closes it *)
Definition got (a : option string) (x : Half) : Half :=
  mkHalf (match a with Some _ => hf_closed x | None => true end) (hf_outbox x) (hf_waiting x) false (hf_closing x) (hf_entered x) (hf_received x ++ [a]).
Definition taken (rest : list (option string)) (x : Half) : Half := mkHalf (hf_closed x) rest (hf_waiting x) (hf_getting x) (hf_closing x) (hf_entered x) (hf_received x).
Definition set_closing (c : closing) (x : Half) : Half := mkHalf (hf_closed x) (hf_outbox x) (hf_waiting x) (hf_getting x) c (hf_entered x) (hf_received x).
Definition begin_close (x : Half) : Half := mkHalf true (hf_outbox x) (hf_waiting x) (hf_getting x) PutsOutbox (hf_entered x) (hf_received x).

Section Steps.
Context (maxsize : nat).

Definition room (x : Half) : Prop := length (hf_outbox x) < maxsize.

Inductive channel_step : Pair → Pair → Prop :=
  | step_send p h payload : hf_closed (p h) = false → hf_closed (p (peer h)) = false → channel_step p (set_half p h (begin_send payload (p h)))
  | step_put p h before payload after : hf_waiting (p h) = before ++ payload :: after → room (p h) →
      channel_step p (set_half p h (put (before ++ after) (Some payload) (p h)))
  | step_receive p h : hf_closed (p h) = false → hf_getting (p h) = false → channel_step p (set_half p h (begin_receive (p h)))
  | step_get p h a rest : hf_getting (p h) = true → hf_outbox (p (peer h)) = a :: rest →
      channel_step p (set_half (set_half p h (got a (p h))) (peer h) (taken rest (p (peer h))))
  | step_close p h : hf_closed (p h) = false → channel_step p (set_half p h (begin_close (p h)))
  | step_close_outbox p h : hf_closing (p h) = PutsOutbox → room (p h) →
      channel_step p (set_half p h (set_closing PutsInbox (put (hf_waiting (p h)) None (p h))))
  | step_close_inbox p h : hf_closing (p h) = PutsInbox → room (p (peer h)) →
      channel_step p (set_half (set_half p (peer h) (put (hf_waiting (p (peer h))) None (p (peer h)))) h (set_closing NotClosing (p h))).

Definition channel_reachable (p : Pair) : Prop := rtc channel_step create_channel_pair p.

(** What entered a queue is what the reader took from it and what is still in it, in order; the queue is within its bound. *)
Definition channel_inv (p : Pair) : Prop := ∀ h, hf_entered (p h) = hf_received (p (peer h)) ++ hf_outbox (p h) ∧ length (hf_outbox (p h)) ≤ maxsize.

Lemma peer_peer h : peer (peer h) = h.
Proof. by destruct h. Qed.
Lemma peer_ne h : peer h ≠ h.
Proof. by destruct h. Qed.

Lemma set_half_eq p h x : set_half p h x h = x.
Proof. unfold set_half. by rewrite decide_True. Qed.
Lemma set_half_ne p h h' x : h' ≠ h → set_half p h x h' = p h'.
Proof. unfold set_half. intros. by rewrite decide_False. Qed.

(** A change of one half that keeps the queue and both histories *)
Lemma quiet_inv p h x : hf_outbox x = hf_outbox (p h) → hf_entered x = hf_entered (p h) → hf_received x = hf_received (p h) → channel_inv p → channel_inv (set_half p h x).
Proof.
  intros Ho He Hr Hi k. destruct (Hi k) as [H1 H2]. destruct (decide (k = h)) as [->|Hk].
  - rewrite set_half_eq, set_half_ne by apply peer_ne. by rewrite Ho, He.
  - rewrite (set_half_ne _ _ k) by done. destruct (decide (peer k = h)) as [<-|Hp]; [rewrite set_half_eq, Hr|rewrite set_half_ne by done]; done.
Qed.

(** An item put where there is room *)
Lemma put_inv p h waiting a : room (p h) → channel_inv p → channel_inv (set_half p h (put waiting a (p h))).
Proof.
  unfold room. intros Hroom Hi k. destruct (Hi k) as [H1 H2]. destruct (decide (k = h)) as [->|Hk].
  - rewrite set_half_eq, set_half_ne by apply peer_ne. cbn. rewrite H1, length_app, app_assoc. cbn. split; [done|lia].
  - rewrite (set_half_ne _ _ k) by done. destruct (decide (peer k = h)) as [<-|Hp]; [rewrite set_half_eq|rewrite set_half_ne by done]; done.
Qed.

Lemma get_inv p h a rest : hf_outbox (p (peer h)) = a :: rest → channel_inv p → channel_inv (set_half (set_half p h (got a (p h))) (peer h) (taken rest (p (peer h)))).
Proof.
  intros Ho Hi k. destruct (Hi k) as [H1 H2]. pose proof (peer_ne h). destruct (decide (k = peer h)) as [->|Hk].
  - rewrite peer_peer in *. rewrite set_half_eq, (set_half_ne _ (peer h) h), set_half_eq by done. cbn. rewrite H1, Ho, <- app_assoc. rewrite Ho in H2. cbn in H2. split; [done|lia].
  - assert (k = h) as -> by (destruct k, h; done). rewrite set_half_eq, (set_half_ne _ (peer h) h), set_half_eq by done. done.
Qed.

Lemma channel_step_inv p p' : channel_step p p' → channel_inv p → channel_inv p'.
Proof.
  intros Hs Hi. destruct Hs as [p h payload|p h before payload after|p h|p h a rest Hg Ho|p h|p h Hc Hr|p h Hc Hr].
  - by apply quiet_inv.
  - by apply put_inv.
  - by apply quiet_inv.
  - by apply get_inv.
  - by apply quiet_inv.
  - pose proof (put_inv p h (hf_waiting (p h)) None Hr Hi) as Hi'. set (p' := set_half p h (put (hf_waiting (p h)) None (p h))) in Hi'.
    pose proof (quiet_inv p' h (set_closing PutsInbox (p' h)) eq_refl eq_refl eq_refl Hi') as Hi''. intros k. specialize (Hi'' k). unfold p', set_half in *. by repeat case_decide.
  - pose proof (put_inv p (peer h) (hf_waiting (p (peer h))) None Hr Hi) as Hi'. set (p' := set_half p (peer h) _) in Hi' |- *.
    assert (p' h = p h) as <- by (apply set_half_ne; intros Hh; by apply (peer_ne h)). by apply quiet_inv.
Qed.

(** Whatever is sent, received and closed on both sides and however these calls interleave, a half receives what entered the
    other half's outbox, in that order, without loss, repetition or invention, and no queue outgrows its bound. *)
Theorem channel_in_order p h : channel_reachable p → hf_received (p (peer h)) `prefix_of` hf_entered (p h) ∧ length (hf_outbox (p h)) ≤ maxsize.
Proof.
  intros Hr. assert (Hi : channel_inv p).
  { assert (H0 : channel_inv create_channel_pair) by (intros k; cbn; split; [done|lia]). revert H0. induction Hr; [done|]. eauto using channel_step_inv. }
  destruct (Hi h) as [H1 H2]. split; [|done]. rewrite H1. by eexists.
Qed.

(** A close that has come to its end leaves the marker in the queue its own receiver reads: a receive that waits is woken. *)
Lemma close_wakes p h : hf_outbox (set_half (set_half p (peer h) (put (hf_waiting (p (peer h))) None (p (peer h)))) h (set_closing NotClosing (p h)) (peer h)) =
  hf_outbox (p (peer h)) ++ [None].
Proof. rewrite set_half_ne, set_half_eq by apply peer_ne. done. Qed.

(** A close whose outbox is full waits until the other half reads. *)
Lemma full_outbox_blocks_close p h p' : hf_closing (p h) = PutsOutbox → length (hf_outbox (p h)) = maxsize → channel_step p p' →
  hf_closing (p' h) = PutsOutbox ∧ (length (hf_outbox (p' h)) = maxsize ∨ hf_getting (p (peer h)) = true).
Proof.
  intros Hc Hl Hs. pose proof (peer_ne h) as Hne. destruct Hs as [p k payload|p k before payload after Hw Hr|p k|p k a rest Hg Ho|p k Hk|p k Hk Hr|p k Hk Hr]; unfold room in *.
  all: destruct (decide (k = h)) as [->|Hkh]; [|assert (k = peer h) as -> by (by destruct k, h)]; rewrite ?peer_peer in *.
  all: unfold set_half; repeat case_decide; try done; cbn; rewrite ?Hc, ?Hl; try lia; try (by split; [|left]); try congruence.
  by split; [|right].
Qed.
End Steps.
