(* ===== verification/NodeSession.v ===== *)
(** The control-plane end of a node connection (src/olympus/nodes/session.py and
    the frames of src/olympus/nodes/protocol.py).

    A session is driven by frames from the node, by the tasks waiting on its
    jobs, and by shutdown; each is one step on the session and the mesh store.
    [dispatch_job] is split where it waits: [dispatch_start] runs to the first
    wait, [dispatch_end] resumes a waiting task for the reason it woke up. Frame
    encoding and validation are pydantic's: a frame is a value, and how a send
    ended is an argument. *)

From S2P Require Import Prelude PyDict PyTime Json Sha256 Redaction NodeModels NodeScopes NodeAudit NodeStore.
From S2P Require Import NodeCrypto NodeRegistry.

Open Scope Z_scope.

Definition PROTOCOL_ID : string := "olympus-node/1".
Definition MAX_ARTIFACTS_PER_JOB : Z := 8.
Definition MAX_CONCURRENT_JOBS_PER_NODE : nat := 4.
Definition MAX_FRAME_BYTES : Z := 262144.
Definition MAX_PROGRESS_EVENTS_PER_JOB : Z := 200.

(** ** Frames *)

Record JobResultFrame := mkResult {
  rf_job_id : string;
  rf_attempt : Z;
  rf_dedupe_key : string;
  rf_status : NodeJobStatus;
  rf_output : json;
  rf_output_truncated : bool;
  rf_output_redacted : bool;
  rf_artifact_ids : list string;
  rf_reason : string;
  rf_message : string;
  rf_started_at : string;
  rf_finished_at : string;
  rf_replayed : bool }.

Inductive ClientFrame :=
  | HelloFrame (protocol node_id agent_version architecture : string) (declared : list string) (node_nonce : string)
  | AttestFrame (session_id node_proof : string)
  | HeartbeatFrame (health : NodeHealthSnapshot)
  | JobAckFrame (job_id : string) (attempt : Z) (accepted duplicate : bool)
  | JobProgressFrame (job_id : string) (attempt : Z) (message : string)
  | JobArtifactFrame (job_id : string) (attempt : Z) (artifact_id data : string)
  | ResultFrame (f : JobResultFrame).

(** What the session sends, with the fields a receiver uses; [HeartbeatAckFrame] is declared and never sent. *)
Inductive ServerFrame :=
  | ChallengeFrame (protocol session_id server_nonce key_id server_proof : string)
  | SessionReadyFrame (session_id : string) (granted : list string) (scopes : dict string obj)
  | JobDispatchFrame (job_id : string) (attempt : Z) (dedupe_key capability : string) (parameters : obj)
      (deadline_seconds max_output_bytes max_progress_events : Z)
  | JobCancelFrame (job_id : string) (attempt : Z) (reason : string)
  | SessionCloseFrame (reason : string).

(** How a send ended: delivered, the channel was closed, or the frame exceeded
    the size bound. *)
Inductive SendResult := Sent | PeerGone | TooLarge.

(** ** State *)

(** [_PendingJob]; the future is [None] until it is resolved. *)
Record PendingJob := mkPending {
  p_job_id : string;
  p_attempt : Z;
  p_dedupe_key : string;
  p_capability : string;
  p_deadline_seconds : Z;
  p_max_output_bytes : Z;
  p_max_progress_events : Z;
  p_acknowledged : bool;
  p_result : option (result exn JobResultFrame);
  p_duplicate : bool;
  p_progress_events : Z;
  p_progress_dropped : Z;
  p_delivery_failures : Z;
  p_artifact_ids : list string;
  p_artifacts_refused : Z;
  p_artifact_bytes : Z;
  p_has_callback : bool }.

Definition new_pending (job_id : string) (attempt : Z) (dedupe_key capability : string)
    (deadline_seconds max_output_bytes max_progress_events : Z) (has_callback : bool) : PendingJob :=
  mkPending job_id attempt dedupe_key capability deadline_seconds max_output_bytes max_progress_events false None false
    0 0 0 [] 0 0 has_callback.

Definition p_ack (p : PendingJob) (acknowledged duplicate : bool) : PendingJob :=
  mkPending (p_job_id p) (p_attempt p) (p_dedupe_key p) (p_capability p) (p_deadline_seconds p) (p_max_output_bytes p)
    (p_max_progress_events p) acknowledged (p_result p) duplicate (p_progress_events p) (p_progress_dropped p)
    (p_delivery_failures p) (p_artifact_ids p) (p_artifacts_refused p) (p_artifact_bytes p) (p_has_callback p).
Definition p_resolve (p : PendingJob) (r : result exn JobResultFrame) : PendingJob :=
  mkPending (p_job_id p) (p_attempt p) (p_dedupe_key p) (p_capability p) (p_deadline_seconds p) (p_max_output_bytes p)
    (p_max_progress_events p) true (Some r) (p_duplicate p) (p_progress_events p) (p_progress_dropped p)
    (p_delivery_failures p) (p_artifact_ids p) (p_artifacts_refused p) (p_artifact_bytes p) (p_has_callback p).
Definition p_progress (p : PendingJob) (events dropped failures : Z) : PendingJob :=
  mkPending (p_job_id p) (p_attempt p) (p_dedupe_key p) (p_capability p) (p_deadline_seconds p) (p_max_output_bytes p)
    (p_max_progress_events p) (p_acknowledged p) (p_result p) (p_duplicate p) events dropped
    failures (p_artifact_ids p) (p_artifacts_refused p) (p_artifact_bytes p) (p_has_callback p).
Definition p_artifacts (p : PendingJob) (ids : list string) (refused bytes : Z) : PendingJob :=
  mkPending (p_job_id p) (p_attempt p) (p_dedupe_key p) (p_capability p) (p_deadline_seconds p) (p_max_output_bytes p)
    (p_max_progress_events p) (p_acknowledged p) (p_result p) (p_duplicate p) (p_progress_events p)
    (p_progress_dropped p) (p_delivery_failures p) ids refused bytes (p_has_callback p).

(** The session object, and what it has sent. *)
Record Session := mkSession {
  ss_id : string;
  ss_key_id : string;
  ss_node : option NodeRecord;
  ss_pending : dict string PendingJob;
  ss_closed : bool;
  ss_heartbeats : Z;
  ss_outbox : list ServerFrame }.

Definition set_pending (d : dict string PendingJob) (s : Session) : Session :=
  mkSession (ss_id s) (ss_key_id s) (ss_node s) d (ss_closed s) (ss_heartbeats s) (ss_outbox s).
Definition push (f : ServerFrame) (s : Session) : Session :=
  mkSession (ss_id s) (ss_key_id s) (ss_node s) (ss_pending s) (ss_closed s) (ss_heartbeats s) (ss_outbox s ++ [f]).

(** A session at work on the mesh store. *)
Record World := mkWorld { w_session : Session; w_store : MeshStore }.
Notation W := (St World exn).

Definition on_session (f : Session → Session) : W () := modify (λ w, mkWorld (f (w_session w)) (w_store w)).
Definition on_registry {A} (m : St MeshStore exn A) : W A := λ w,
  let r := m (w_store w) in (r.1, mkWorld (w_session w) r.2).
Definition get_session : W Session := gets w_session.

(** [self.node_id] *)
Definition node_id_of (s : Session) : result exn string :=
  n ← require_some (ss_node s) (NodeMeshError SESSION_CLOSED); Ok (n_node_id n).

(** [await self._send(frame)], the channel's errors aside *)
Definition deliver (f : ServerFrame) (sr : SendResult) : W () :=
  match sr with Sent => on_session (push f) | _ => mret () end.

Section Session.
Context (stamp : nat → datetime * string).

(** ** Shutdown *)

(** What shutdown does to one waiting job. *)
Definition fail_pending (p : PendingJob) : PendingJob :=
  match p_result p with
  | None => p_resolve p (Err (NodeMeshError SESSION_CLOSED))
  | Some _ => p_ack p true (p_duplicate p)
  end.

Definition shutdown (reason : string) : W () :=
  s ← get_session;
  if ss_closed s then mret () else
  on_session (λ s, mkSession (ss_id s) (ss_key_id s) (ss_node s)
    (map (λ kp, (kp.1, fail_pending kp.2)) (ss_pending s)) true (ss_heartbeats s) (ss_outbox s));;
  match ss_node s with
  | Some n => on_registry (detach_session stamp (n_node_id n) (ss_id s) reason)
  | None => mret ()
  end.

(** [_refuse] *)
Definition refuse (reason : NodeReason) (sr : SendResult) : W () :=
  deliver (SessionCloseFrame (reason_value reason)) sr;;
  shutdown (reason_value reason).

(** ** Inbound frames *)

(** [self._pending.get(job_id)], when it is the attempt named *)
Definition pending_attempt (s : Session) (job_id : string) (attempt : Z) : option PendingJob :=
  match dget job_id (ss_pending s) with
  | Some p => if p_attempt p =? attempt then Some p else None
  | None => None
  end.

Definition put_pending (job_id : string) (p : PendingJob) : W () :=
  on_session (λ s, set_pending (dset job_id p (ss_pending s)) s).

Definition allowed_count (capability : string) : Z :=
  match dget capability CAPABILITY_CATALOG with
  | None => MAX_ARTIFACTS_PER_JOB
  | Some d => cap_max_artifacts d
  end.
Definition allowed_bytes (capability : string) : Z :=
  match dget capability CAPABILITY_CATALOG with None => 0 | Some d => cap_max_artifact_bytes d end.

(** [_handle_artifact] on the pending job *)
Definition take_artifact (p : PendingJob) (artifact_id data : string) : PendingJob :=
  if Z.min (allowed_count (p_capability p)) MAX_ARTIFACTS_PER_JOB <=? Z.of_nat (length (p_artifact_ids p))
  then p_artifacts p (p_artifact_ids p) (p_artifacts_refused p + 1) (p_artifact_bytes p)
  else
    let size := str_len data in
    if allowed_bytes (p_capability p) <? p_artifact_bytes p + size
    then p_artifacts p (p_artifact_ids p) (p_artifacts_refused p + 1) (p_artifact_bytes p)
    else p_artifacts p (p_artifact_ids p ++ [artifact_id]) (p_artifacts_refused p) (p_artifact_bytes p + size).

(** [_handle_progress] on the pending job; [delivered] tells whether the
    callback returned. *)
Definition take_progress (p : PendingJob) (delivered : bool) : PendingJob :=
  if p_max_progress_events p <=? p_progress_events p
  then p_progress p (p_progress_events p) (p_progress_dropped p + 1) (p_delivery_failures p)
  else if p_has_callback p && negb delivered
  then p_progress p (p_progress_events p + 1) (p_progress_dropped p) (p_delivery_failures p + 1)
  else p_progress p (p_progress_events p + 1) (p_progress_dropped p) (p_delivery_failures p).

(** [_handle] *)
Definition handle (frame : ClientFrame) (now : datetime) (delivered : bool) : W () :=
  match frame with
  | HeartbeatFrame h =>
      on_session (λ s, mkSession (ss_id s) (ss_key_id s) (ss_node s) (ss_pending s) (ss_closed s) (ss_heartbeats s + 1) (ss_outbox s));;
      s ← get_session;
      node_id ← liftR (node_id_of s);
      health ← liftR (make_health (mkHealth now (h_active_jobs h) (h_cpu_count h) (h_load_average_1m h)
        (h_memory_total_mib h) (h_memory_available_mib h) (h_uptime_seconds h) (h_agent_uptime_seconds h)));
      on_registry (record_heartbeat stamp node_id (ss_id s) health);;
      mret ()
  | JobAckFrame job_id attempt _ duplicate =>
      s ← get_session;
      match pending_attempt s job_id attempt with
      | Some p => put_pending job_id (p_ack p true duplicate)
      | None => mret ()
      end
  | JobProgressFrame job_id attempt message =>
      s ← get_session;
      match pending_attempt s job_id attempt with
      | Some p => put_pending job_id (take_progress p delivered)
      | None => mret ()
      end
  | JobArtifactFrame job_id attempt artifact_id data =>
      s ← get_session;
      match pending_attempt s job_id attempt with
      | Some p => put_pending job_id (take_artifact p artifact_id data)
      | None => mret ()
      end
  | ResultFrame f =>
      s ← get_session;
      match pending_attempt s (rf_job_id f) (rf_attempt f) with
      | Some p =>
          if bool_decide (p_dedupe_key p = rf_dedupe_key f) && negb (is_some (p_result p))
          then put_pending (rf_job_id f) (p_resolve p (Ok f))
          else mret ()
      | None => mret ()
      end
  | HelloFrame _ _ _ _ _ _ | AttestFrame _ _ => raise (NodeMeshError FRAME_UNEXPECTED)
  end.

(** What the channel yields to [pump]: a frame with the clock reading and the
    callback's outcome, a frame that fails parsing, or the end. *)
Inductive Inbound := InFrame (f : ClientFrame) (now : datetime) (delivered : bool) | InMalformed (r : NodeReason).

(** [pump], over what arrives before the channel closes. *)
Fixpoint pump_loop (inbound : list Inbound) (sr : SendResult) : W () :=
  match inbound with
  | [] => mret ()
  | i :: inbound' =>
      s ← get_session;
      if ss_closed s then mret () else λ w,
      match (match i with
             | InFrame f now delivered => handle f now delivered w
             | InMalformed r => (Err (NodeMeshError r), w)
             end) with
      | (Ok _, w') => pump_loop inbound' sr w'
      | (Err (NodeMeshError r), w') => refuse r sr w'
      | (Err e, w') => (Err e, w')
      end
  end.
Definition pump (inbound : list Inbound) (sr : SendResult) : W () := λ w,
  let p := pump_loop inbound sr w in
  let q := shutdown (reason_value SESSION_CLOSED) p.2 in
  (match q.1 with Ok _ => p.1 | Err e => Err e end, q.2).

(** ** Jobs *)

(** The ranges [JobDispatchFrame] declares for its numbers *)
Definition dispatch_numbers_ok (attempt deadline_seconds max_output_bytes max_progress_events : Z) : bool :=
  (1 <=? attempt) && (attempt <=? 64) && (1 <=? deadline_seconds) && (deadline_seconds <=? 3600)
  && (256 <=? max_output_bytes) && (max_output_bytes <=? MAX_FRAME_BYTES) && (1 <=? max_progress_events) && (max_progress_events <=? 10000).

(** [dispatch_job] up to the first wait. *)
Definition dispatch_start (job_id : string) (attempt : Z) (dedupe_key capability : string)
    (parameters : obj) (deadline_seconds max_output_bytes max_progress_events : Z) (has_callback : bool) (sr : SendResult) : W () :=
  s ← get_session;
  check (negb (ss_closed s)) (NodeMeshError SESSION_CLOSED);;
  check (negb (dmem job_id (ss_pending s))) (NodeMeshError DISPATCH_DUPLICATE);;
  check (length (ss_pending s) <? MAX_CONCURRENT_JOBS_PER_NODE)%nat (NodeMeshError DISPATCH_CONCURRENCY_EXCEEDED);;
  check (dispatch_numbers_ok attempt deadline_seconds max_output_bytes max_progress_events) (ValueError "job-dispatch frame is invalid");;
  match sr with
  | Sent =>
      put_pending job_id (new_pending job_id attempt dedupe_key capability deadline_seconds max_output_bytes max_progress_events has_callback);;
      on_session (push (JobDispatchFrame job_id attempt dedupe_key capability parameters deadline_seconds max_output_bytes max_progress_events))
  | PeerGone => raise (NodeMeshError SESSION_CLOSED)
  | TooLarge => raise (NodeMeshError FRAME_TOO_LARGE)
  end.

(** Why a waiting task woke up. *)
Inductive Wake := AckTimeout | ResultReady | DeadlineTimeout | TaskCancelled.

(** How a dispatch ended: an outcome, an exception, or the task's own
    cancellation. *)
Inductive JobEnd := JobDone (o : NodeJobOutcome) | JobRaised (e : exn) | JobCancelledEnd.

(** [_outcome_of] *)
Definition outcome_of (node_id : string) (f : JobResultFrame) (p : PendingJob) : result exn NodeJobOutcome :=
  let b := bound_output (rf_output f) (Z.to_nat (p_max_output_bytes p)) in
  let was_redacted := rf_output_redacted f ||
    (negb b.2 && negb (bool_decide (redact_value (rf_output f) = rf_output f))) in
  make_outcome (mkOutcome (p_job_id p) node_id (p_capability p) (p_dedupe_key p) (rf_status f) (p_attempt p)
    b.1 (rf_output_truncated f || b.2) was_redacted (p_artifact_ids p) (rf_reason f) (redact_text (rf_message f))
    (rf_replayed f) EXTERNAL_UNTRUSTED).

(** The value of the awaits of [_await_ack] and [_await_result], when the task
    may wake up this way. *)
Definition wake_end (s : Session) (p : PendingJob) (w : Wake) : option JobEnd :=
  match w with
  | AckTimeout => if p_acknowledged p then None else Some (JobRaised (NodeMeshError NODE_OFFLINE))
  | ResultReady =>
      match p_acknowledged p, p_result p with
      | true, Some (Ok f) =>
          Some (match (node_id ← node_id_of s; outcome_of node_id f p) with Ok o => JobDone o | Err e => JobRaised e end)
      | true, Some (Err e) => Some (JobRaised e)
      | _, _ => None
      end
  | DeadlineTimeout =>
      match p_acknowledged p, p_result p with
      | true, None => Some (JobRaised (NodeMeshError JOB_DEADLINE_EXCEEDED))
      | _, _ => None
      end
  | TaskCancelled => Some JobCancelledEnd
  end.

(** The cancel frame sent on the way out, if any. *)
Definition wake_frame (p : PendingJob) (w : Wake) : option ServerFrame :=
  match w with
  | DeadlineTimeout => Some (JobCancelFrame (p_job_id p) (p_attempt p) (reason_value JOB_DEADLINE_EXCEEDED))
  | TaskCancelled =>
      if p_acknowledged p then Some (JobCancelFrame (p_job_id p) (p_attempt p) (reason_value JOB_CANCELLED)) else None
  | _ => None
  end.

(** [dispatch_job] from its wake-up to the end: the job is popped whatever
    happened. [None]: no task waits on this job, or it can not wake this way. *)
Definition dispatch_end (job_id : string) (wake : Wake) (sr : SendResult) (w : World) : option (JobEnd * World) :=
  let s := w_session w in
  p ← dget job_id (ss_pending s);
  e ← wake_end s p wake;
  let s1 := match wake_frame p wake, sr with Some f, Sent => push f s | _, _ => s end in
  Some (e, mkWorld (set_pending (ddel job_id (ss_pending s1)) s1) (w_store w)).

(** [cancel_job] *)
Definition cancel_job (job_id reason : string) (sr : SendResult) : W bool :=
  s ← get_session;
  match dget job_id (ss_pending s) with
  | None => mret false
  | Some p => deliver (JobCancelFrame job_id (p_attempt p) reason) sr;; mret true
  end.

(** ** Handshake *)

Context (ed_key_ok : string → bool) (ed_sign : string → string → string)
        (ed_verify : string → string → string → bool).

Definition server_proof_payload (protocol session_id node_id node_nonce : string) : json :=
  JObj [("purpose", JStr "olympus-node/server-proof"); ("protocol", JStr protocol); ("session_id", JStr session_id);
        ("node_id", JStr node_id); ("node_nonce", JStr node_nonce)].

Definition node_proof_payload (protocol session_id node_id server_nonce capabilities_digest : string) : json :=
  JObj [("purpose", JStr "olympus-node/node-proof"); ("protocol", JStr protocol); ("session_id", JStr session_id);
        ("node_id", JStr node_id); ("server_nonce", JStr server_nonce);
        ("capabilities_digest", JStr capabilities_digest)].

(** How a wait for the next frame ended. *)
Inductive Received := GotFrame (f : ClientFrame) | GotMalformed (r : NodeReason) | GotClosed | GotTimeout.

(** [await self._receive()] *)
Definition receive (r : Received) : W ClientFrame :=
  match r with
  | GotFrame f => mret f
  | GotMalformed reason => raise (NodeMeshError reason)
  | GotClosed => raise ChannelClosed
  | GotTimeout => raise TimeoutError
  end.

(** [await self._send(frame)], its errors included *)
Definition send (f : ServerFrame) (sr : SendResult) : W () :=
  match sr with
  | Sent => on_session (push f)
  | PeerGone => raise ChannelClosed
  | TooLarge => raise (NodeMeshError FRAME_TOO_LARGE)
  end.

(** What the node is told about its scopes. *)
Definition ready_scopes (effective : list string) (scopes : dict string Scope) : dict string obj :=
  map (λ ns, (ns.1, scope_to_mapping ns.2)) (List.filter (λ ns, bool_decide (ns.1 ∈ effective)) scopes).

(** [_handshake]: [r1] and [r2] are what was received, [s1] and [s2] how the two
    sends ended. *)
Definition handshake_body (private_key server_nonce : string) (now : datetime)
    (r1 : Received) (s1 : SendResult) (r2 : Received) (s2 : SendResult) : W NodeRecord :=
  hello ← receive r1;
  match hello with
  | HelloFrame protocol node_id agent_version architecture declared node_nonce =>
      check (bool_decide (protocol = PROTOCOL_ID)) (NodeMeshError PROTOCOL_VERSION_UNSUPPORTED);;
      record ← on_registry (find_node stamp node_id);
      check (negb (is_some (n_revoked_at record))) (NodeMeshError NODE_REVOKED);;
      s ← get_session;
      proof ← liftR (sign_payload ed_sign private_key
        (server_proof_payload PROTOCOL_ID (ss_id s) (n_node_id record) node_nonce));
      send (ChallengeFrame PROTOCOL_ID (ss_id s) server_nonce (ss_key_id s) proof) s1;;
      attest ← receive r2;
      match attest with
      | AttestFrame session_id node_proof =>
          check (bool_decide (session_id = ss_id s)) (NodeMeshError NONCE_INVALID);;
          liftR (verify_payload ed_key_ok ed_verify (n_public_key record)
            (node_proof_payload PROTOCOL_ID (ss_id s) (n_node_id record) server_nonce
               (digest_of (JList (map JStr declared)))) node_proof NODE_PROOF_INVALID);;
          attached ← on_registry (attach_session stamp (n_node_id record) (ss_id s) declared agent_version architecture now);
          on_session (λ s, mkSession (ss_id s) (ss_key_id s) (Some attached) (ss_pending s) (ss_closed s) (ss_heartbeats s) (ss_outbox s));;
          scopes ← liftR (scopes_of attached);
          let effective := effective_capabilities attached in
          send (SessionReadyFrame (ss_id s) effective (ready_scopes effective scopes)) s2;;
          mret attached
      | _ => raise (NodeMeshError HANDSHAKE_FRAME_UNEXPECTED)
      end
  | _ => raise (NodeMeshError HANDSHAKE_FRAME_UNEXPECTED)
  end.

(** [handshake]: whatever goes wrong, the session is torn down. *)
Definition handshake (private_key server_nonce : string) (now : datetime)
    (r1 : Received) (s1 : SendResult) (r2 : Received) (s2 close : SendResult) : W NodeRecord := λ w,
  match handshake_body private_key server_nonce now r1 s1 r2 s2 w with
  | (Ok n, w') => (Ok n, w')
  | (Err TimeoutError, w') => (refuse HANDSHAKE_TIMEOUT close;; raise (NodeMeshError HANDSHAKE_TIMEOUT)) w'
  | (Err (NodeMeshError r), w') => (refuse r close;; raise (NodeMeshError r)) w'
  | (Err e, w') => (shutdown (reason_value SESSION_CLOSED);; raise e) w'
  end.
End Session.
