(* ===== verification/NodeDispatch.v ===== *)
(** The dispatch service (src/olympus/nodes/dispatch.py) and the activities and
    workflow that call it (src/olympus/activities/node_dispatch.py,
    src/olympus/workflows/node_job.py).

    Session objects live in a store of their own, by session id, because a
    displaced session is still referenced by the tasks waiting on it;
    [d_sessions] is the service's own table from node id to session. [run_job] is
    cut at the points where it awaits something that can take time: other calls
    may run between the parts, and [run_job] itself is their sequence. *)

From S2P Require Import Prelude PyDict PyTime Json Sha256 Redaction NodeModels NodeScopes NodeAudit NodeStore.
From S2P Require Import NodeCrypto Authorization AuthorityRepository NodeApprovals NodeRegistry NodeSession.

Open Scope Z_scope.

Definition MAX_RETAINED_JOB_RECORDS : nat := 200.

(** [NodeJobRequest] *)
Record NodeJobRequest := mkRequest {
  rq_job_id : string;
  rq_capability : string;
  rq_authority : DispatchAuthority;
  rq_parameters : obj;
  rq_node_id : option string;
  rq_approval : option AnyApproval;
  rq_attempt : Z;
  rq_deadline_seconds : option Z;
  rq_max_output_bytes : option Z }.

Definition make_request (r : NodeJobRequest) : result exn NodeJobRequest :=
  ensure (negb (is_blank (rq_job_id r))) (ValueError "job_id must not be empty");;
  ensure (1 <=? rq_attempt r) (ValueError "attempt must be strictly positive");;
  Ok r.

(** [NodeJobRequest.dedupe_key] *)
Definition dedupe_key (r : NodeJobRequest) : string :=
  dedupe_key_for (rq_job_id r) (rq_capability r) (JObj (rq_parameters r)).

(** ** The job table *)

(** [while len(self._jobs) > MAX: ...]: the oldest record goes when it is
    terminal, and the loop stops when it is not. *)
Fixpoint evict (jobs : dict string NodeJobRecord) : dict string NodeJobRecord :=
  match jobs with
  | [] => []
  | (k, j) :: rest =>
      if (MAX_RETAINED_JOB_RECORDS <? length jobs)%nat
      then if terminal (j_status j) then evict rest else jobs
      else jobs
  end.

(** The table after [_remember]. *)
Definition remembered (j : NodeJobRecord) (jobs : dict string NodeJobRecord) : dict string NodeJobRecord :=
  evict (move_to_end (j_job_id j) (dset (j_job_id j) j jobs)).

(** The record after [_update]. *)
Definition job_update (j : NodeJobRecord) (status : option NodeJobStatus) (reason : string) (message : option string)
    (bump : bool) (now : datetime) : NodeJobRecord :=
  job_set j (default (j_status j) status) (if is_empty reason then j_reason j else reason)
    (default (j_last_message j) message) (j_progress_events j + (if bump then 1 else 0)) now.

(** ** The service *)

Section Dispatch.
Context (stamp : nat → datetime * string) (cfg : Config).
Context {V : Type} `{ApprovalVerifier V}.

Record Disp := mkDisp {
  d_reg : Reg (V := V);
  d_objs : dict string Session;
  d_sessions : dict string string;
  d_jobs : dict string NodeJobRecord }.

Notation D := (St Disp exn).

Definition on_reg {A} (m : St (Reg (V := V)) exn A) : D A := λ d,
  let p := m (d_reg d) in (p.1, mkDisp p.2 (d_objs d) (d_sessions d) (d_jobs d)).
Definition on_mesh {A} (m : St MeshStore exn A) : D A := on_reg (on_store m).

(** A method call on a session object. *)
Definition on_sess {A} (sid : string) (m : St World exn A) : D A := λ d,
  match dget sid (d_objs d) with
  | None => (Err (NodeMeshError SESSION_CLOSED), d)
  | Some s =>
      let p := m (mkWorld s (rg_store (d_reg d))) in
      (p.1, mkDisp (mkReg (w_store p.2) (rg_approvals (d_reg d))) (dset sid (w_session p.2) (d_objs d))
              (d_sessions d) (d_jobs d))
  end.

Definition set_sessions (t : dict string string) : D () :=
  modify (λ d, mkDisp (d_reg d) (d_objs d) t (d_jobs d)).
Definition set_jobs (t : dict string NodeJobRecord) : D () :=
  modify (λ d, mkDisp (d_reg d) (d_objs d) (d_sessions d) t).

(** ** Session ownership *)

Definition attach_session (sid : string) : D () :=
  node_id ← on_sess sid (s ← get_session; liftR (node_id_of s));
  d ← read;
  set_sessions (dset node_id sid (d_sessions d));;
  match dget node_id (d_sessions d) with
  | Some previous =>
      if bool_decide (previous = sid) then mret ()
      else on_sess previous (shutdown stamp (reason_value NODE_SESSION_REPLACED))
  | None => mret ()
  end.

Definition detach_session (sid : string) : D () :=
  node_id ← on_sess sid (s ← get_session; liftR (node_id_of s));
  d ← read;
  if bool_decide (dget node_id (d_sessions d) = Some sid)
  then set_sessions (ddel node_id (d_sessions d)) else mret ().

Definition session_for (d : Disp) (node_id : string) : option string :=
  sid ← dget node_id (d_sessions d);
  s ← dget sid (d_objs d);
  if ss_closed s then None else Some sid.

Definition connected_node_ids (d : Disp) : list string :=
  sorted (List.filter (λ i, is_some (session_for d i)) (dkeys (d_sessions d))).

(** ** Job bookkeeping *)

Definition remember (j : NodeJobRecord) : D () :=
  on_mesh (upsert_job stamp j);;
  d ← read;
  set_jobs (remembered j (d_jobs d)).

Definition update (job_id : string) (status : option NodeJobStatus) (reason : string) (message : option string)
    (bump : bool) (now : datetime) : D () :=
  d ← read;
  match dget job_id (d_jobs d) with
  | None => mret ()
  | Some j =>
      let updated := job_update j status reason message bump now in
      set_jobs (dset job_id updated (d_jobs d));;
      on_mesh (upsert_job stamp updated)
  end.

Definition jobs (d : Disp) : list NodeJobRecord := rev (dvalues (d_jobs d)).

Definition active_job_ids (d : Disp) (node_id : option string) : list string :=
  map j_job_id (List.filter (λ j, negb (terminal (j_status j)) &&
    match node_id with None => true | Some i => bool_decide (j_node_id j = i) end) (dvalues (d_jobs d))).

(** ** Running a job *)

Definition audit (draft_ : AuditDraft) : D () := on_mesh (record_audit stamp draft_).

(** [_refuse] *)
Definition refuse_job (r : NodeJobRequest) (reason : NodeReason) (node_id : string) : D () :=
  audit (draft (da_commander_id (rq_authority r)) AA_DISPATCH_REFUSED AD_DENY (reason_value reason) (Some node_id)
    (Some (rq_job_id r)) [("capability", JStr (rq_capability r))]).

(** Admission: the capability and the node. *)
Definition run_admit (r : NodeJobRequest) (now now' : datetime) : D (CapabilityDescriptor * NodeRecord) :=
  descriptor ← liftR (require_dispatchable_capability (rq_capability r));
  record ← on_reg (select_node stamp cfg (rq_capability r) (rq_node_id r) (rq_parameters r) (rq_approval r) now now');
  mret (descriptor, record).

(** The kill switch again, and the live session. *)
Definition run_check (r : NodeJobRequest) (record : NodeRecord) : D string :=
  control ← on_mesh (dispatch_control stamp);
  if c_frozen control then
    refuse_job r DISPATCH_FROZEN (n_node_id record);; raise (NodeMeshError DISPATCH_FROZEN)
  else
    d ← read;
    match session_for d (n_node_id record) with
    | None => refuse_job r NODE_OFFLINE (n_node_id record);; raise (NodeMeshError NODE_OFFLINE)
    | Some sid => mret sid
    end.

Definition new_job (r : NodeJobRequest) (node_id : string) (now : datetime) : NodeJobRecord :=
  mkJob (rq_job_id r) node_id (rq_capability r) (dedupe_key r) DISPATCHED (rq_attempt r) (rq_authority r) now now 0 "" "".

(** The job record and the audit event of the admission. *)
Definition run_record (r : NodeJobRequest) (descriptor : CapabilityDescriptor) (record : NodeRecord) (now : datetime) : D () :=
  job ← liftR (make_job (new_job r (n_node_id record) now));
  remember job;;
  audit (draft (da_commander_id (rq_authority r)) AA_DISPATCH_ADMITTED AD_ALLOW "" (Some (n_node_id record))
    (Some (rq_job_id r))
    [("capability", JStr (rq_capability r)); ("dedupe_key", JStr (dedupe_key r)); ("attempt", JInt (rq_attempt r));
     ("authority_lease_id", JStr (da_authority_lease_id (rq_authority r)));
     ("variable_cost_usd", JStr (cap_variable_cost_usd descriptor)); ("cost_basis", JStr "catalog-declared")]).

(** [except NodeMeshError as exc] and [except asyncio.CancelledError] *)
Definition run_failed (r : NodeJobRequest) (node_id : string) (reason : NodeReason) (now : datetime) : D () :=
  update (rq_job_id r) (Some FAILED) (reason_value reason) None false now;;
  audit (draft (da_commander_id (rq_authority r)) AA_DISPATCH_COMPLETED AD_DENY (reason_value reason) (Some node_id)
    (Some (rq_job_id r)) []).
Definition run_cancelled (r : NodeJobRequest) (node_id : string) (now : datetime) : D () :=
  update (rq_job_id r) (Some CANCELLED) (reason_value JOB_CANCELLED) None false now;;
  audit (draft (da_commander_id (rq_authority r)) AA_DISPATCH_CANCELLED AD_OBSERVE "" (Some node_id)
    (Some (rq_job_id r)) []).

(** [a or b] on an optional number *)
Definition or_else (a : option Z) (b : Z) : Z := match a with Some z => if z =? 0 then b else z | None => b end.
(** [request.deadline_seconds or descriptor.max_runtime_seconds], and the same of the output bound *)
Definition job_deadline (r : NodeJobRequest) (descriptor : CapabilityDescriptor) : Z := or_else (rq_deadline_seconds r) (cap_max_runtime_seconds descriptor).
Definition output_limit (r : NodeJobRequest) (descriptor : CapabilityDescriptor) : Z := or_else (rq_max_output_bytes r) (cap_max_output_bytes descriptor).

(** [session.dispatch_job(...)] up to its first wait. *)
Definition run_send (r : NodeJobRequest) (descriptor : CapabilityDescriptor) (record : NodeRecord) (sid : string)
    (sr : SendResult) (now : datetime) : D () := λ d,
  match on_sess sid (dispatch_start (rq_job_id r) (rq_attempt r) (dedupe_key r) (rq_capability r)
          (rq_parameters r) (job_deadline r descriptor) (output_limit r descriptor) MAX_PROGRESS_EVENTS_PER_JOB true sr) d with
  | (Err (NodeMeshError reason), d') => (run_failed r (n_node_id record) reason now;; raise (NodeMeshError reason)) d'
  | p => p
  end.

(** [run_job] up to the wait for the node; the answer is the session waited on. *)
Definition run_job (r : NodeJobRequest) (sr : SendResult) (now now' at_ : datetime) : D (NodeRecord * string) :=
  p ← run_admit r now now';
  sid ← run_check r p.2;
  run_record r p.1 p.2 at_;;
  run_send r p.1 p.2 sid sr at_;;
  mret (p.2, sid).

(** [run_job] from the moment the waiting task wakes up. *)
Definition run_finish (r : NodeJobRequest) (descriptor : CapabilityDescriptor) (node_id sid : string) (wake : Wake)
    (sr : SendResult) (now : datetime) (d : Disp) : option (JobEnd * Disp) :=
  s ← dget sid (d_objs d);
  p ← dispatch_end (rq_job_id r) wake sr (mkWorld s (rg_store (d_reg d)));
  let d1 := mkDisp (mkReg (w_store p.2) (rg_approvals (d_reg d))) (dset sid (w_session p.2) (d_objs d))
              (d_sessions d) (d_jobs d) in
  Some (p.1, final (match p.1 with
    | JobDone o =>
        update (rq_job_id r) (Some (o_status o)) (o_reason o) None false now;;
        audit (draft (da_commander_id (rq_authority r)) AA_DISPATCH_COMPLETED
          (if bool_decide (o_status o = SUCCEEDED) then AD_ALLOW else AD_OBSERVE) (o_reason o) (Some node_id)
          (Some (rq_job_id r))
          [("status", JStr (status_value (o_status o))); ("replayed", JBool (o_replayed o));
           ("output_truncated", JBool (o_output_truncated o)); ("trust_label", JStr (trust_value (o_trust_label o)));
           ("variable_cost_usd", JStr (cap_variable_cost_usd descriptor)); ("cost_basis", JStr "catalog-declared")])
    | JobRaised (NodeMeshError reason) => run_failed r node_id reason now
    | JobRaised _ => mret ()
    | JobCancelledEnd => run_cancelled r node_id now
    end d1)).

(** A frame from the node, and the progress recorder of [run_job]. *)
Definition on_frame (sid : string) (f : ClientFrame) (now : datetime) (delivered : bool) : D () :=
  d ← read;
  on_sess sid (handle stamp f now delivered);;
  match f, dget sid (d_objs d) with
  | JobProgressFrame job_id attempt message, Some s =>
      match pending_attempt s job_id attempt with
      | Some p =>
          if (p_progress_events p <? p_max_progress_events p) && p_has_callback p
          then update job_id (Some RUNNING) "" (Some (redact_text message)) true now else mret ()
      | None => mret ()
      end
  | _, _ => mret ()
  end.

(** ** Cancellation and the kill switch; [srs] tells how each send ends. *)

Fixpoint cancel_each (sids : list string) (job_id reason : string) (srs : string → SendResult) : D bool :=
  match sids with
  | [] => mret false
  | sid :: sids' =>
      hit ← on_sess sid (cancel_job job_id reason (srs sid));
      rest ← cancel_each sids' job_id reason srs;
      mret (hit || rest)
  end.

Definition cancel_job (job_id reason actor : string) (srs : string → SendResult) : D bool :=
  d ← read;
  cancelled ← cancel_each (dvalues (d_sessions d)) job_id reason srs;
  (if cancelled : bool then audit (draft actor AA_DISPATCH_CANCELLED AD_ALLOW reason None (Some job_id) []) else mret ());;
  mret cancelled.

Fixpoint cancel_all (job_ids : list string) (reason actor : string) (srs : string → SendResult) : D () :=
  match job_ids with
  | [] => mret ()
  | j :: job_ids' => cancel_job j reason actor srs;; cancel_all job_ids' reason actor srs
  end.

Definition freeze (actor reason : string) (now : datetime) (srs : string → SendResult) : D DispatchControlState :=
  control ← on_mesh (freeze_dispatch stamp actor reason now);
  d ← read;
  cancel_all (active_job_ids d None) (reason_value DISPATCH_FROZEN) actor srs;;
  mret control.

(** [_terminate] *)
Definition terminate (node_id actor reason : string) (srs : string → SendResult) : D () :=
  d ← read;
  cancel_all (active_job_ids d (Some node_id)) reason actor srs;;
  d' ← read;
  match session_for d' node_id with
  | Some sid => on_sess sid (shutdown stamp reason)
  | None => mret ()
  end.

Definition revoke_node (node_id actor reason : string) (now : datetime) (srs : string → SendResult) : D NodeRecord :=
  record ← on_mesh (NodeRegistry.revoke_node stamp node_id actor reason now);
  terminate node_id actor (reason_value NODE_REVOKED) srs;;
  mret record.

Definition quarantine_node (node_id actor reason : string) (now : datetime) (srs : string → SendResult) : D NodeRecord :=
  record ← on_mesh (NodeRegistry.quarantine_node stamp node_id actor reason now);
  terminate node_id actor (reason_value NODE_QUARANTINED) srs;;
  mret record.

Definition unfreeze (actor : string) (expected : Z) (reason : string) (now : datetime) : D DispatchControlState :=
  on_mesh (unfreeze_dispatch stamp actor expected reason now).

(** ** Activities *)

(** What a Temporal activity fails with: an [ApplicationError] of this type, and
    whether it may be retried; other exceptions pass through. *)
Inductive ActivityFailure := ApplicationError (type : string) (non_retryable : bool) | OtherFailure (e : exn).

Definition as_failure (e : exn) : ActivityFailure :=
  match e with
  | NodeMeshError r => ApplicationError (reason_value r) (is_permanent_refusal r)
  | e => OtherFailure e
  end.

(** The [select-node] activity: [registry.select_node(capability=..., node_id=...)]
    with the defaults for the parameters and the approval. *)
Definition activity_select_node (r : NodeJobRequest) (now now' : datetime) (d : Disp) :
    result ActivityFailure string * Disp :=
  let p := on_reg (select_node stamp cfg (rq_capability r) (rq_node_id r) [] None now now') d in
  (match p.1 with Ok record => Ok (n_node_id record) | Err e => Err (as_failure e) end, p.2).
End Dispatch.
