(* ===== verification/NodeSessionFacts.v ===== *)
(** What a node session guarantees, whatever the node sends and however frames,
    waiting tasks and shutdown interleave. *)

From S2P Require Import Prelude PyDict PyTime Json Sha256 Redaction NodeModels NodeScopes NodeAudit NodeStore.
From S2P Require Import NodeCrypto NodeRegistry NodeRegistryFacts NodeSession.

Open Scope Z_scope.

Definition fresh_session (sid key_id : string) : Session := mkSession sid key_id None [] false 0 [].

(** ** The session invariant *)

Record pending_ok (p : PendingJob) : Prop := {
  po_count : Z.of_nat (length (p_artifact_ids p)) ≤ Z.min (allowed_count (p_capability p)) MAX_ARTIFACTS_PER_JOB;
  po_bytes : 0 ≤ p_artifact_bytes p ≤ allowed_bytes (p_capability p);
  po_progress : p_progress_events p ≤ Z.max 0 (p_max_progress_events p);
  po_result : ∀ f, p_result p = Some (Ok f) →
    rf_job_id f = p_job_id p ∧ rf_attempt f = p_attempt p ∧ rf_dedupe_key f = p_dedupe_key p;
  po_failed : ∀ e, p_result p = Some (Err e) → e = NodeMeshError SESSION_CLOSED;
  po_acked : is_some (p_result p) = true → p_acknowledged p = true }.

Record session_inv (s : Session) : Prop := {
  si_wf : dict_wf (ss_pending s);
  si_size : (length (ss_pending s) ≤ MAX_CONCURRENT_JOBS_PER_NODE)%nat;
  si_jobs : dall (λ k p, p_job_id p = k ∧ pending_ok p) (ss_pending s);
  si_closed : ss_closed s = true → dall (λ _ p, is_some (p_result p) = true) (ss_pending s) }.

Lemma allowed_nonneg c : 0 ≤ allowed_count c ∧ 0 ≤ allowed_bytes c.
Proof.
  unfold allowed_count, allowed_bytes. destruct (dget c CAPABILITY_CATALOG) as [d|] eqn:E; [|done].
  revert E. apply (catalog_forall (λ d, 0 ≤ cap_max_artifacts d ∧ 0 ≤ cap_max_artifact_bytes d)).
  by repeat (constructor; [done|]).
Qed.

Lemma new_pending_ok j a k c dl mo mp cb : pending_ok (new_pending j a k c dl mo mp cb).
Proof. destruct (allowed_nonneg c). split; simpl; try done; unfold MAX_ARTIFACTS_PER_JOB; lia. Qed.

Lemma ack_ok p d : pending_ok p → pending_ok (p_ack p true d).
Proof. by intros []; split. Qed.

Lemma take_progress_ok p d : pending_ok p → pending_ok (take_progress p d).
Proof.
  intros []. unfold take_progress. destruct (_ <=? _) eqn:E; [by split|]. bool_to_prop.
  destruct (_ && _); split; simpl; try done; lia.
Qed.

Lemma take_artifact_ok p i d : pending_ok p → pending_ok (take_artifact p i d).
Proof.
  intros []. unfold take_artifact. destruct (_ <=? Z.of_nat _) eqn:E; [by split|].
  destruct (_ <? _) eqn:E2; [by split|]. bool_to_prop.
  assert (0 ≤ str_len d) by (unfold str_len; lia).
  split; simpl; try done; [rewrite length_app; simpl; lia|lia].
Qed.

Lemma resolve_ok p r :
  pending_ok p →
  (∀ f, r = Ok f → rf_job_id f = p_job_id p ∧ rf_attempt f = p_attempt p ∧ rf_dedupe_key f = p_dedupe_key p) →
  (∀ e, r = Err e → e = NodeMeshError SESSION_CLOSED) → pending_ok (p_resolve p r).
Proof. intros [] Hr He. split; simpl; try done; [intros f [= ->]; by apply Hr|intros e [= ->]; by apply He]. Qed.

Lemma fail_pending_ok p : pending_ok p → pending_ok (fail_pending p).
Proof. intros. unfold fail_pending. case_match; [by apply ack_ok|]. apply resolve_ok; [done..|]. by intros e [= <-]. Qed.

(** ** Each step preserves it *)

(** Replacing one waiting job. *)
Lemma set_pending_inv s k p :
  session_inv s → (ss_closed s = true → is_some (p_result p) = true) → p_job_id p = k → pending_ok p →
  (dget k (ss_pending s) ≠ None ∨ (length (ss_pending s) < MAX_CONCURRENT_JOBS_PER_NODE)%nat) →
  session_inv (set_pending (dset k p (ss_pending s)) s).
Proof.
  intros [Hw Hl Hj Hc] Hr Hk Hp Hroom. split; simpl.
  - by apply dict_wf_dset.
  - destruct Hroom; [by rewrite length_dset|]. assert (H1 := length_dset_le k p (ss_pending s)). lia.
  - by apply dall_dset.
  - intros Hcl. apply dall_dset; auto.
Qed.

Lemma del_pending_inv s k : session_inv s → session_inv (set_pending (ddel k (ss_pending s)) s).
Proof.
  intros [Hw Hl Hj Hc]. split; simpl; auto using dict_wf_ddel, dall_ddel.
  assert (H1 := length_ddel_le k (ss_pending s)). lia.
Qed.

(** The invariant reads only the waiting jobs and the closed flag. *)
Lemma session_inv_same s s' :
  ss_pending s' = ss_pending s → ss_closed s' = ss_closed s → session_inv s → session_inv s'.
Proof. intros Hp Hc []. split; rewrite ?Hp, ?Hc; done. Qed.

Lemma push_inv f s : session_inv s → session_inv (push f s).
Proof. by apply session_inv_same. Qed.

Lemma pending_attempt_Some s j a p :
  pending_attempt s j a = Some p → dget j (ss_pending s) = Some p ∧ p_attempt p = a.
Proof. unfold pending_attempt. intros. repeat case_match; simplify_eq. bool_to_prop. done. Qed.

Lemma update_inv s k p p' :
  session_inv s → dget k (ss_pending s) = Some p → p_job_id p' = p_job_id p →
  (is_some (p_result p) = true → is_some (p_result p') = true) → (pending_ok p → pending_ok p') →
  session_inv (set_pending (dset k p' (ss_pending s)) s).
Proof.
  intros Hs Hk Hid Hr Hok. destruct (si_jobs _ Hs k p Hk) as [Hj Hp].
  apply set_pending_inv; [done| |congruence|auto|left; by rewrite Hk].
  intros Hc. by eapply Hr, si_closed.
Qed.

Lemma take_progress_same p d :
  p_job_id (take_progress p d) = p_job_id p ∧ p_result (take_progress p d) = p_result p.
Proof. unfold take_progress. by repeat case_match. Qed.

Lemma take_artifact_same p i d :
  p_job_id (take_artifact p i d) = p_job_id p ∧ p_result (take_artifact p i d) = p_result p.
Proof. unfold take_artifact. by repeat case_match. Qed.

Section Steps.
Context (stamp : nat → datetime * string).

Notation detach_session := (detach_session stamp).
Notation handle := (handle stamp).
Notation shutdown := (shutdown stamp).
Notation refuse := (refuse stamp).
Notation pump := (pump stamp).

(** A store call leaves the session alone. *)
Lemma on_registry_session {A} (m : St MeshStore exn A) w : w_session (final (on_registry m w)) = w_session w.
Proof. done. Qed.

Lemma shutdown_run reason w :
  w_session (final (shutdown reason w)) =
    (if ss_closed (w_session w) then w_session w
     else mkSession (ss_id (w_session w)) (ss_key_id (w_session w)) (ss_node (w_session w))
            (map (λ kp, (kp.1, fail_pending kp.2)) (ss_pending (w_session w))) true
            (ss_heartbeats (w_session w)) (ss_outbox (w_session w))).
Proof. unfold NodeSession.shutdown. py_unfold. destruct (ss_closed _) eqn:E; [done|]. simpl. by case_match. Qed.

Lemma shutdown_store reason w :
  ss_closed (w_session w) = false →
  w_store (final (shutdown reason w)) =
    match ss_node (w_session w) with
    | Some n => final (detach_session (n_node_id n) (ss_id (w_session w)) reason (w_store w))
    | None => w_store w
    end.
Proof. intros Hc. unfold NodeSession.shutdown. py_unfold. rewrite Hc. simpl. by case_match. Qed.

Lemma shutdown_inv reason w :
  session_inv (w_session w) → session_inv (w_session (final (shutdown reason w))).
Proof.
  intros Hs. rewrite shutdown_run. destruct (ss_closed _) eqn:E; [done|].
  destruct Hs as [Hw Hl Hj Hc]. split; simpl.
  - unfold dict_wf. by rewrite dkeys_map.
  - by rewrite length_map.
  - intros k p. rewrite dget_map. intros (q & Hq & ->)%fmap_Some.
    destruct (Hj k q Hq). split; [|by apply fail_pending_ok]. unfold fail_pending. by case_match.
  - intros _ k p. rewrite dget_map. intros (q & Hq & ->)%fmap_Some.
    unfold fail_pending. case_match eqn:Eq; [|done]. simpl. by rewrite Eq.
Qed.

Lemma shutdown_closed reason w : ss_closed (w_session (final (shutdown reason w))) = true.
Proof. rewrite shutdown_run. by destruct (ss_closed (w_session w)) eqn:E. Qed.

Lemma deliver_run f sr w : ∃ s', final (deliver f sr w) = mkWorld s' (w_store w) ∧
  outcome (deliver f sr w) = Ok () ∧
  (s' = w_session w ∨ s' = push f (w_session w)).
Proof. destruct w as [s st], sr; simpl; eauto. Qed.

Lemma refuse_run reason sr w : ∃ s', (s' = w_session w ∨ s' = push (SessionCloseFrame (reason_value reason)) (w_session w)) ∧
  refuse reason sr w = shutdown (reason_value reason) (mkWorld s' (w_store w)).
Proof. unfold NodeSession.refuse, deliver. py_unfold. destruct w as [s st], sr; eauto. Qed.

Lemma refuse_inv reason sr w :
  session_inv (w_session w) → session_inv (w_session (final (refuse reason sr w))).
Proof.
  intros Hs. destruct (refuse_run reason sr w) as (s' & Hs' & ->). apply shutdown_inv.
  destruct Hs' as [->| ->]; [done|by apply push_inv].
Qed.

Lemma handle_inv f now d w :
  session_inv (w_session w) → session_inv (w_session (final (handle f now d w))).
Proof.
  intros Hs. destruct w as [s st]. destruct f; simpl in *; try done.
  - unfold NodeSession.handle. py_unfold.
    repeat case_match; simplify_eq/=; try done; by eapply session_inv_same, Hs.
  - py_unfold. destruct (pending_attempt s job_id attempt) as [p|] eqn:E; simpl; [|done].
    apply pending_attempt_Some in E as [E _]. by eapply update_inv; eauto using ack_ok.
  - py_unfold. destruct (pending_attempt s job_id attempt) as [p|] eqn:E; simpl; [|done].
    apply pending_attempt_Some in E as [E _]. destruct (take_progress_same p d) as [? Hr].
    eapply update_inv; eauto using take_progress_ok. by rewrite Hr.
  - py_unfold. destruct (pending_attempt s job_id attempt) as [p|] eqn:E; simpl; [|done].
    apply pending_attempt_Some in E as [E _]. destruct (take_artifact_same p artifact_id data) as [? Hr].
    eapply update_inv; eauto using take_artifact_ok. by rewrite Hr.
  - py_unfold. destruct (pending_attempt s _ _) as [p|] eqn:E; simpl; [|done].
    apply pending_attempt_Some in E as [E Ha]. destruct (_ && _) eqn:Eb; simpl; [|done]. bool_to_prop.
    destruct (si_jobs _ Hs _ _ E) as [Hj _].
    eapply update_inv; eauto. intros Hp. apply resolve_ok; [done| |done]. by intros ? [= <-].
Qed.

Lemma dispatch_start_cases j a k c ps dl mo mp cb sr w :
  let r := dispatch_start j a k c ps dl mo mp cb sr w in
  let s := w_session w in
  (∃ e, r = (Err e, w)) ∨
  (outcome r = Ok () ∧ ss_closed s = false ∧ dget j (ss_pending s) = None ∧
   (length (ss_pending s) < MAX_CONCURRENT_JOBS_PER_NODE)%nat ∧ dispatch_numbers_ok a dl mo mp = true ∧
   final r = mkWorld (push (JobDispatchFrame j a k c ps dl mo mp)
                        (set_pending (dset j (new_pending j a k c dl mo mp cb) (ss_pending s)) s)) (w_store w)).
Proof.
  unfold dispatch_start, dmem. py_unfold. destruct w as [s st]; simpl.
  destruct (ss_closed s); simpl; [eauto|]. destruct (dget j (ss_pending s)); simpl; [eauto|].
  destruct (_ <? _)%nat eqn:El; simpl; [|eauto]. apply Nat.ltb_lt in El.
  destruct (dispatch_numbers_ok a dl mo mp); simpl; [|eauto]. destruct sr; simpl; eauto. right. done.
Qed.

Lemma dispatch_start_inv j a k c ps dl mo mp cb sr w :
  session_inv (w_session w) → session_inv (w_session (final (dispatch_start j a k c ps dl mo mp cb sr w))).
Proof.
  intros Hs. destruct (dispatch_start_cases j a k c ps dl mo mp cb sr w) as [(e & ->)|(_ & Hc & _ & Hl & _ & ->)]; [done|].
  apply push_inv, set_pending_inv; [done|congruence|done|apply new_pending_ok|by right].
Qed.

Lemma dispatch_end_inv j wake sr w e w' :
  dispatch_end j wake sr w = Some (e, w') → session_inv (w_session w) → session_inv (w_session w').
Proof.
  unfold dispatch_end. intros (p & Hp & (e' & He & [= <- <-])%bind_Some)%bind_Some Hs. simpl.
  apply del_pending_inv. repeat case_match; auto using push_inv.
Qed.

Lemma cancel_job_inv j reason sr w :
  session_inv (w_session w) → session_inv (w_session (final (cancel_job j reason sr w))).
Proof.
  intros Hs. unfold cancel_job, deliver. destruct w as [s st]. py_unfold. simpl in Hs.
  destruct (dget j (ss_pending s)); [|done]. destruct sr; [|done..]. by apply push_inv.
Qed.

(** Computations that leave the waiting jobs, the closed flag and the session id
    alone. *)
Definition same_jobs (s s' : Session) : Prop :=
  ss_pending s' = ss_pending s ∧ ss_closed s' = ss_closed s ∧ ss_id s' = ss_id s.
Definition quiet {A} (m : W A) : Prop := ∀ w, same_jobs (w_session w) (w_session (final (m w))).

Lemma quiet_bind {A B} (m : W A) (k : A → W B) : quiet m → (∀ a, quiet (k a)) → quiet (m ≫= k).
Proof.
  intros Hm Hk w. specialize (Hm w). unfold mbind, st_bind, final in *.
  destruct (m w) as [[a|e] w1]; simpl in *; [|done].
  specialize (Hk a w1). unfold same_jobs, final in *. naive_solver congruence.
Qed.
Lemma quiet_id {A} (m : W A) : (∀ w, final (m w) = w) → quiet m.
Proof. intros Hm w. by rewrite Hm. Qed.
Lemma quiet_registry {A} (m : St MeshStore exn A) : quiet (on_registry m).
Proof. done. Qed.
Lemma quiet_session f : (∀ s, same_jobs s (f s)) → quiet (on_session f).
Proof. intros Hf [s st]. apply Hf. Qed.
Lemma quiet_send f sr : quiet (send f sr).
Proof. by intros [s st]; destruct sr. Qed.
Lemma quiet_receive r : quiet (receive r).
Proof. by destruct r. Qed.

Ltac quiet_tac :=
  repeat first [ done | apply quiet_bind; [|intros ?] | apply quiet_registry | apply quiet_send
               | apply quiet_receive | by apply quiet_id | by apply quiet_session | case_match ].

(** ** Teardown *)

(** No record of this node carries the session. *)
Definition detached (i sid : string) (st : MeshStore) : Prop :=
  ∀ r, dget i (s_nodes st) = Some r → n_session_id r ≠ Some sid.

Lemma detach_session_run i sid reason st :
  mesh_inv st → let p := detach_session i sid reason st in
  outcome p = Ok () ∧ detached i sid (final p) ∧ (∀ j, j ≠ i → dget j (s_nodes (final p)) = dget j (s_nodes st)).
Proof.
  intros Hs. simpl. unfold NodeRegistry.detach_session. rewrite transaction_atomic. unfold run_atomic, detached. cbn.
  destruct (dget i (s_nodes st)) as [n|] eqn:E; cbn; [|by rewrite E].
  destruct (bool_decide _) eqn:Eb; cbn; bool_to_prop.
  - assert (n_node_id n = i) as Hi by (eapply (sw_node_key _ (mi_wf _ Hs)); eauto).
    rewrite Hi. split_and!; [done| |intros; by rewrite dget_dset_ne].
    intros r. rewrite dget_dset_eq. by intros [= <-].
  - rewrite E. naive_solver.
Qed.

Lemma shutdown_ok reason w : mesh_inv (w_store w) → outcome (shutdown reason w) = Ok ().
Proof.
  intros Hm. unfold NodeSession.shutdown. py_unfold. destruct (ss_closed _); [done|].
  destruct (ss_node (w_session w)) as [n|]; [|done].
  by destruct (detach_session_run (n_node_id n) (ss_id (w_session w)) reason (w_store w) Hm).
Qed.

(** A live session of node [n] with waiting jobs [ks], and the same session
    after its teardown. *)
Record live (n : NodeRecord) (sid : string) (ks : list string) (w : World) : Prop := {
  lv_closed : ss_closed (w_session w) = false;
  lv_node : ss_node (w_session w) = Some n;
  lv_id : ss_id (w_session w) = sid;
  lv_jobs : dkeys (ss_pending (w_session w)) = ks;
  lv_inv : session_inv (w_session w);
  lv_mesh : mesh_inv (w_store w) }.

Record torn (n : NodeRecord) (sid : string) (ks : list string) (w : World) : Prop := {
  tn_closed : ss_closed (w_session w) = true;
  tn_jobs : dkeys (ss_pending (w_session w)) = ks;
  tn_inv : session_inv (w_session w);
  tn_detached : detached (n_node_id n) sid (w_store w) }.

Lemma shutdown_live n sid ks reason w : live n sid ks w → torn n sid ks (final (shutdown reason w)).
Proof.
  intros [Hc Hn Hi Hk Hs Hm]. split.
  - apply shutdown_closed.
  - rewrite shutdown_run, Hc. simpl. by rewrite dkeys_map.
  - by apply shutdown_inv.
  - rewrite shutdown_store, Hn, Hi by done. by apply detach_session_run.
Qed.

Lemma shutdown_torn n sid ks reason w : torn n sid ks w → shutdown reason w = (Ok (), w).
Proof. intros []. unfold NodeSession.shutdown. py_unfold. by rewrite tn_closed0. Qed.

Lemma refuse_live n sid ks reason sr w : live n sid ks w → torn n sid ks (final (refuse reason sr w)).
Proof.
  intros Hl. destruct (refuse_run reason sr w) as (s' & Hs' & ->). apply shutdown_live.
  destruct Hl, Hs' as [->| ->]; split; simpl; auto using push_inv.
Qed.

Lemma handle_same f now d w :
  let s' := w_session (final (handle f now d w)) in
  ss_closed s' = ss_closed (w_session w) ∧ ss_node s' = ss_node (w_session w) ∧ ss_id s' = ss_id (w_session w) ∧
  dkeys (ss_pending s') = dkeys (ss_pending (w_session w)).
Proof.
  assert (Hset : ∀ s k p p', dget k (ss_pending s) = Some p → dkeys (dset k p' (ss_pending s)) = dkeys (ss_pending s)).
  { intros s k p p' E. rewrite dkeys_dset. unfold dmem. by rewrite E. }
  destruct w as [s st]. destruct f; simpl; try done.
  - unfold NodeSession.handle. py_unfold. by repeat case_match; simplify_eq/=.
  - py_unfold. destruct (pending_attempt s job_id attempt) as [p|] eqn:E; simpl; [|done].
    apply pending_attempt_Some in E as [E _]. split_and!; eauto.
  - py_unfold. destruct (pending_attempt s job_id attempt) as [p|] eqn:E; simpl; [|done].
    apply pending_attempt_Some in E as [E _]. split_and!; eauto.
  - py_unfold. destruct (pending_attempt s job_id attempt) as [p|] eqn:E; simpl; [|done].
    apply pending_attempt_Some in E as [E _]. split_and!; eauto.
  - py_unfold. destruct (pending_attempt s _ _) as [p|] eqn:E; simpl; [|done].
    apply pending_attempt_Some in E as [E _]. destruct (_ && _); simpl; [|done]. split_and!; eauto.
Qed.

Lemma handle_mesh f now d w : mesh_inv (w_store w) → mesh_inv (w_store (final (handle f now d w))).
Proof.
  intros Hm. destruct w as [s st]. destruct f; simpl in *; try done;
    try by (py_unfold; repeat case_match).
  unfold NodeSession.handle. py_unfold. unfold on_registry. repeat case_match; simplify_eq/=; try done;
    match goal with |- mesh_inv (record_heartbeat _ ?a ?b ?c ?d).2 =>
      by apply (heartbeat_good stamp a b c d) end.
Qed.

Lemma handle_live n sid ks f now d w : live n sid ks w → live n sid ks (final (handle f now d w)).
Proof.
  intros []. destruct (handle_same f now d w) as (E1 & E2 & E3 & E4).
  split; rewrite ?E1, ?E2, ?E3, ?E4; auto using handle_inv, handle_mesh.
Qed.

Lemma pump_loop_live n sid ks inbound sr w :
  live n sid ks w →
  let w' := final (pump_loop stamp inbound sr w) in live n sid ks w' ∨ torn n sid ks w'.
Proof.
  revert w. induction inbound as [|i inbound IH]; intros w Hl; [by left|]. simpl.
  unfold mbind, st_bind, get_session, gets. rewrite (lv_closed _ _ _ _ Hl).
  destruct i as [f now d|r]; [|right; by apply refuse_live].
  assert (Hh := handle_live _ _ _ f now d w Hl). unfold final in *.
  destruct (handle f now d w) as [[[]|[r|m|m| |]] w1]; simpl in *; auto.
  right. by apply refuse_live.
Qed.

Lemma pump_live n sid ks inbound sr w : live n sid ks w → torn n sid ks (final (pump inbound sr w)).
Proof.
  intros Hl. unfold NodeSession.pump. destruct (pump_loop_live _ _ _ inbound sr w Hl) as [H|H]; unfold final in *; simpl.
  - by apply shutdown_live.
  - by rewrite (shutdown_torn _ _ _ _ _ H).
Qed.

(** ** Handshake and steps *)

Context (ed_key_ok : string → bool) (ed_sign : string → string → string)
        (ed_verify : string → string → string → bool).
Notation handshake := (handshake stamp ed_key_ok ed_sign ed_verify).

Lemma handshake_body_quiet pk nonce now r1 s1 r2 s2 :
  quiet (handshake_body stamp ed_key_ok ed_sign ed_verify pk nonce now r1 s1 r2 s2).
Proof. unfold handshake_body. quiet_tac. Qed.

(** A failing handshake ends in one shutdown. *)
Lemma handshake_cases pk nonce now r1 s1 r2 s2 cl w :
  let b := handshake_body stamp ed_key_ok ed_sign ed_verify pk nonce now r1 s1 r2 s2 w in
  let h := handshake pk nonce now r1 s1 r2 s2 cl w in
  (∃ n, outcome b = Ok n ∧ h = b) ∨
  (∃ s' reason, (s' = w_session (final b) ∨ ∃ f, s' = push f (w_session (final b))) ∧
     final h = final (shutdown reason (mkWorld s' (w_store (final b)))) ∧ is_ok (outcome h) = false).
Proof.
  simpl. unfold NodeSession.handshake. destruct (handshake_body _ _ _ _ _ _ _ _ _ _ _ _) as [[n|e] [s' st']]; [eauto|].
  right. destruct e as [r|m|m| |];
    try (exists s', (reason_value SESSION_CLOSED); split; [by left|];
         py_unfold; by destruct (shutdown _ _) as [[]]).
  - destruct (refuse_run r cl (mkWorld s' st')) as (s2' & Hs2 & E). exists s2', (reason_value r).
    split; [naive_solver|]. py_unfold. rewrite E. by destruct (shutdown _ _) as [[]].
  - destruct (refuse_run HANDSHAKE_TIMEOUT cl (mkWorld s' st')) as (s2' & Hs2 & E).
    exists s2', (reason_value HANDSHAKE_TIMEOUT).
    split; [naive_solver|]. py_unfold. rewrite E. by destruct (shutdown _ _) as [[]].
Qed.

Lemma handshake_inv pk nonce now r1 s1 r2 s2 cl w :
  session_inv (w_session w) → session_inv (w_session (final (handshake pk nonce now r1 s1 r2 s2 cl w))).
Proof.
  intros Hs. destruct (handshake_body_quiet pk nonce now r1 s1 r2 s2 w) as (Hp & Hc & _).
  assert (Hb := session_inv_same _ _ Hp Hc Hs).
  destruct (handshake_cases pk nonce now r1 s1 r2 s2 cl w) as [(n & _ & ->)|(s' & reason & Hs' & -> & _)]; [done|].
  apply shutdown_inv. destruct Hs' as [->|[f ->]]; [done|by apply push_inv].
Qed.

(** ** Steps *)

(** One step of a session: the handshake, a frame, a job submitted, a waiting
    task waking up, a cancellation, a shutdown, or the rest of the system
    changing the store. *)
Inductive session_step : World → World → Prop :=
  | ss_handshake pk nonce now r1 s1 r2 s2 cl w : session_step w (final (handshake pk nonce now r1 s1 r2 s2 cl w))
  | ss_handle f now d w : session_step w (final (handle f now d w))
  | ss_refuse reason sr w : session_step w (final (refuse reason sr w))
  | ss_shutdown reason w : session_step w (final (shutdown reason w))
  | ss_submit j a k c ps dl mo mp cb sr w : session_step w (final (dispatch_start j a k c ps dl mo mp cb sr w))
  | ss_finish j wake sr w e w' : dispatch_end j wake sr w = Some (e, w') → session_step w w'
  | ss_cancel j reason sr w : session_step w (final (cancel_job j reason sr w))
  | ss_environment st w : session_step w (mkWorld (w_session w) st).

Definition session_reachable (w : World) : Prop :=
  ∃ sid kid st, rtc session_step (mkWorld (fresh_session sid kid) st) w.

Lemma session_step_inv w w' : session_step w w' → session_inv (w_session w) → session_inv (w_session w').
Proof.
  intros []; eauto using handshake_inv, handle_inv, refuse_inv, shutdown_inv, dispatch_start_inv,
    dispatch_end_inv, cancel_job_inv.
Qed.

Lemma session_reachable_inv w : session_reachable w → session_inv (w_session w).
Proof.
  intros (sid & kid & st & H). remember (mkWorld (fresh_session sid kid) st) as w0 eqn:E.
  assert (session_inv (w_session w0)) as H0.
  { subst. split; simpl; [apply dict_wf_nil|unfold MAX_CONCURRENT_JOBS_PER_NODE; lia|done|done]. }
  clear E. induction H; eauto using session_step_inv.
Qed.

Lemma dispatch_start_closed j a k c ps dl mo mp cb sr w :
  ss_closed (w_session w) = true →
  dispatch_start j a k c ps dl mo mp cb sr w = (Err (NodeMeshError SESSION_CLOSED), w).
Proof. intros H. unfold dispatch_start. py_unfold. by rewrite H. Qed.

(** A closed session answers each job still waiting. *)
Lemma closed_wakes w j p sr :
  session_inv (w_session w) → ss_closed (w_session w) = true → dget j (ss_pending (w_session w)) = Some p →
  ∃ e, dispatch_end j ResultReady sr w =
         Some (e, mkWorld (set_pending (ddel j (ss_pending (w_session w))) (w_session w)) (w_store w)) ∧
       ((∀ f, p_result p ≠ Some (Ok f)) → e = JobRaised (NodeMeshError SESSION_CLOSED)).
Proof.
  intros Hs Hc Hj. destruct (si_jobs _ Hs _ _ Hj) as [_ Hp]. assert (Hr := si_closed _ Hs Hc _ _ Hj).
  simpl in Hr. assert (Ha := po_acked _ Hp Hr). unfold dispatch_end. rewrite Hj. simpl. rewrite Ha.
  destruct (p_result p) as [[f|e]|] eqn:E; [| |done]; simpl.
  - eexists. split; [done|]. intros Hn. by destruct (Hn f).
  - rewrite (po_failed _ Hp e E). eauto.
Qed.

(** C13. The bounds of a session hold whatever the node sends: at most four jobs
    wait at once; the artifacts accepted for a job stay within the count and the
    bytes its capability declares and within the global ceiling; progress events
    stay within the job's bound; and a result is kept only if it names the job,
    the attempt and the dedupe key that were dispatched. *)
Theorem session_bounds w :
  session_reachable w →
  (length (ss_pending (w_session w)) ≤ MAX_CONCURRENT_JOBS_PER_NODE)%nat ∧
  ∀ j p, dget j (ss_pending (w_session w)) = Some p →
    p_job_id p = j ∧
    Z.of_nat (length (p_artifact_ids p)) ≤ Z.min (allowed_count (p_capability p)) MAX_ARTIFACTS_PER_JOB ∧
    p_artifact_bytes p ≤ allowed_bytes (p_capability p) ∧
    p_progress_events p ≤ Z.max 0 (p_max_progress_events p) ∧
    ∀ f, p_result p = Some (Ok f) →
      rf_job_id f = j ∧ rf_attempt f = p_attempt p ∧ rf_dedupe_key f = p_dedupe_key p.
Proof.
  intros Hs%session_reachable_inv. split; [apply Hs|]. intros j p Hp.
  destruct (si_jobs _ Hs _ _ Hp) as [<- []]. split_and!; try done; lia.
Qed.

(** The output of an outcome: the redacted output whole when it fits in the limit,
    and otherwise, flagged as truncated, a preview of its redacted encoding. The
    preview keeps at most [max (limit - 64) 128] bytes of that encoding and is
    encoded once more as a string, in at most six times as many bytes. *)
Definition output_of (reported : json) (limit : nat) (flagged : bool) (o : NodeJobOutcome) : Prop :=
  let kept := Nat.max (limit - 64) 128 in
  (o_output o = Whole (redact_value reported) ∧ (bounded_size (o_output o) ≤ limit)%nat ∧
   o_output_truncated o = flagged) ∨
  (limit < String.length (utf8 (dumps (redact_value reported))))%nat ∧ o_output_truncated o = true ∧
  ∃ t, o_output o = Preview t ∧ t = redact_and_bound (dumps (redact_value reported)) kept ∧
    (String.length (utf8 (bt_kept t)) ≤ kept)%nat ∧ (bounded_size (o_output o) ≤ 6 * kept + 31)%nat.

Lemma outcome_output node f p o :
  outcome_of node f p = Ok o → output_of (rf_output f) (Z.to_nat (p_max_output_bytes p)) (rf_output_truncated f) o.
Proof.
  unfold outcome_of, make_outcome, output_of. intros Ho.
  apply bind_Ok in Ho as (? & _ & Ho). apply bind_Ok in Ho as (? & _ & Ho). injection Ho as <-.
  cbn [o_output o_output_truncated].
  destruct (bound_output_cases (rf_output f) (Z.to_nat (p_max_output_bytes p))) as [[-> E]|[-> E]]; cbn [fst snd]; [left|right].
  - rewrite orb_false_r. by split_and!.
  - rewrite orb_true_r. split_and!; [done|done|]. eexists. split_and!; [reflexivity|reflexivity|apply bound_text_length|].
    etrans; [apply preview_size|]. apply Nat.add_le_mono_r, Nat.mul_le_mono_l, bound_text_length.
Qed.

(** C14. A job that completes carries the identity it was dispatched with and is
    labelled external and untrusted: the node id is the session's, the job,
    attempt, capability and dedupe key are the dispatched ones, the artifacts
    are those this session accepted, and the message is redacted. The output is
    the redacted form of what the node reported: whole and within the output
    limit of the capability, or else flagged truncated and replaced by a preview
    of at most [max (limit - 64) 128] bytes, which encoded again may exceed the
    limit but not six times that number and 31. *)
Theorem job_outcome_faithful w j wake sr o w' :
  session_reachable w → dispatch_end j wake sr w = Some (JobDone o, w') →
  ∃ p f n, dget j (ss_pending (w_session w)) = Some p ∧ p_result p = Some (Ok f) ∧
    ss_node (w_session w) = Some n ∧
    rf_job_id f = j ∧ rf_attempt f = p_attempt p ∧ rf_dedupe_key f = p_dedupe_key p ∧
    o_job_id o = j ∧ o_node_id o = n_node_id n ∧ o_attempt o = p_attempt p ∧
    o_capability o = p_capability p ∧ o_dedupe_key o = p_dedupe_key p ∧ o_status o = rf_status f ∧
    o_trust_label o = EXTERNAL_UNTRUSTED ∧ o_artifact_ids o = p_artifact_ids p ∧
    o_message o = redact_text (rf_message f) ∧
    o_reason o = rf_reason f ∧ o_replayed o = rf_replayed f ∧
    output_of (rf_output f) (Z.to_nat (p_max_output_bytes p)) (rf_output_truncated f) o ∧
    dget j (ss_pending (w_session w')) = None.
Proof.
  intros Hs%session_reachable_inv. unfold dispatch_end.
  intros (p & Hp & (e & He & Heq)%bind_Some)%bind_Some. injection Heq as -> <-.
  destruct (si_jobs _ Hs _ _ Hp) as [Hid Hok].
  destruct wake; unfold wake_end in He.
  1: by destruct (p_acknowledged p). 2: by destruct (p_acknowledged p), (p_result p) as [[]|]. 2: done.
  destruct (p_acknowledged p), (p_result p) as [[f|]|] eqn:Er; simplify_eq.
  destruct (node_id_of (w_session w) ≫= _) as [o'|] eqn:Eo; simplify_eq.
  apply bind_Ok in Eo as (nid & Hn & Ho). unfold node_id_of in Hn.
  destruct (ss_node (w_session w)) as [n|] eqn:En; simpl in Hn; simplify_eq.
  assert (Hout := outcome_output _ _ _ _ Ho). unfold outcome_of, make_outcome in Ho.
  apply bind_Ok in Ho as (? & _ & Ho). apply bind_Ok in Ho as (? & _ & Ho). injection Ho as <-. simpl in *.
  destruct (po_result _ Hok f Er) as (? & ? & ?).
  exists p, f, n. split_and!; try done. rewrite dget_ddel_eq; [done|apply Hs].
Qed.

(** C12. No job is orphaned by a dying session. However the node's frames end,
    [pump] leaves the session closed with the same jobs waiting; each of them can
    return at once, with the result the node reported or with SESSION_CLOSED;
    nothing more can be dispatched; and the node's record no longer carries the
    session. *)
Theorem session_teardown w n inbound sr :
  session_reachable w → mesh_inv (w_store w) →
  ss_closed (w_session w) = false → ss_node (w_session w) = Some n →
  let w' := final (pump inbound sr w) in
  ss_closed (w_session w') = true ∧
  dkeys (ss_pending (w_session w')) = dkeys (ss_pending (w_session w)) ∧
  (∀ j p sr', dget j (ss_pending (w_session w')) = Some p →
     ∃ e w'', dispatch_end j ResultReady sr' w' = Some (e, w'') ∧ dget j (ss_pending (w_session w'')) = None ∧
       ((∀ f, p_result p ≠ Some (Ok f)) → e = JobRaised (NodeMeshError SESSION_CLOSED))) ∧
  (∀ j a k c ps dl mo mp cb sr',
     outcome (dispatch_start j a k c ps dl mo mp cb sr' w') = Err (NodeMeshError SESSION_CLOSED)) ∧
  ∀ r, dget (n_node_id n) (s_nodes (w_store w')) = Some r → n_session_id r ≠ Some (ss_id (w_session w)).
Proof.
  intros Hs%session_reachable_inv Hm Hc Hn.
  destruct (pump_live n (ss_id (w_session w)) _ inbound sr w ltac:(by split)) as [Hcl Hk Hi Hd].
  simpl. split_and!; try done.
  - intros j p sr' Hj. destruct (closed_wakes _ j p sr' Hi Hcl Hj) as (e & Heq & He).
    eexists e, _. split; [exact Heq|]. split; [|done]. simpl. apply dget_ddel_eq, Hi.
  - intros. by rewrite dispatch_start_closed.
Qed.

(** ** Handshake *)

Lemma find_node_run i s st :
  on_registry (find_node stamp i) (mkWorld s st) =
    (require_some (dget i (s_nodes st)) (NodeMeshError NODE_UNKNOWN), mkWorld s st).
Proof.
  unfold on_registry, find_node, mbind, st_bind. rewrite transaction_atomic. unfold run_atomic. cbn.
  by destruct (dget i (s_nodes st)).
Qed.

Lemma attach_session_cases i sid decl ver arch now st :
  mesh_inv st → let p := attach_session stamp i sid decl ver arch now st in
  (is_ok (outcome p) = false ∧ final p = st) ∨
  ∃ r0, let n := node_attach r0 sid now ver arch (normalize_capability_names decl) in
    dget i (s_nodes st) = Some r0 ∧ n_revoked_at r0 = None ∧ n_node_id r0 = i ∧ outcome p = Ok n ∧
    dget i (s_nodes (final p)) = Some n ∧ ∀ j, j ≠ i → dget j (s_nodes (final p)) = dget j (s_nodes st).
Proof.
  intros Hs. simpl. unfold attach_session. rewrite transaction_atomic. unfold run_atomic. cbn.
  destruct (dget i (s_nodes st)) as [r0|] eqn:E; cbn; [|by left].
  destruct (n_revoked_at r0) eqn:Er; cbn; [by left|]. right. exists r0.
  assert (n_node_id r0 = i) as Hi by (eapply (sw_node_key _ (mi_wf _ Hs)); eauto). rewrite Hi.
  split_and!; try done; [by rewrite dget_dset_eq|intros; by rewrite dget_dset_ne].
Qed.

(** What a handshake that attached the node has checked. *)
Record attested (s : Session) (st : MeshStore) (nonce : string) (r1 r2 : Received) (n r0 : NodeRecord) : Prop :=
  mkAttested {
  at_node : dget (n_node_id n) (s_nodes st) = Some r0;
  at_revoked : n_revoked_at r0 = None;
  at_key : n_public_key n = n_public_key r0;
  at_session : n_session_id n = Some (ss_id s);
  at_proof : ∃ ver arch declared node_nonce proof key sig,
    r1 = GotFrame (HelloFrame PROTOCOL_ID (n_node_id n) ver arch declared node_nonce) ∧
    r2 = GotFrame (AttestFrame (ss_id s) proof) ∧
    n_declared n = normalize_capability_names declared ∧
    load_public_key ed_key_ok (n_public_key r0) = Ok key ∧ decode_bytes proof = Ok sig ∧
    ed_verify key (canonical_json (node_proof_payload PROTOCOL_ID (ss_id s) (n_node_id n) nonce
      (digest_of (JList (map JStr declared))))) sig = true }.

Lemma verify_payload_Ok pub payload sig reason u :
  verify_payload ed_key_ok ed_verify pub payload sig reason = Ok u →
  ∃ key raw, load_public_key ed_key_ok pub = Ok key ∧ decode_bytes sig = Ok raw ∧
    ed_verify key (canonical_json payload) raw = true.
Proof.
  unfold verify_payload. intros (key & Hk & Hv)%bind_Ok. destruct (decode_bytes sig) as [raw|]; [|done].
  apply ensure_Ok in Hv. eauto.
Qed.

Lemma handshake_body_cases pk nonce now r1 s1 r2 s2 s st :
  mesh_inv st →
  let b := handshake_body stamp ed_key_ok ed_sign ed_verify pk nonce now r1 s1 r2 s2 (mkWorld s st) in
  let s' := w_session (final b) in let st' := w_store (final b) in
  (is_ok (outcome b) = false ∧ st' = st ∧ ss_node s' = ss_node s) ∨
  ∃ n r0, attested s st nonce r1 r2 n r0 ∧ ss_node s' = Some n ∧ mesh_inv st' ∧
    dget (n_node_id n) (s_nodes st') = Some n ∧
    (∀ j, j ≠ n_node_id n → dget j (s_nodes st') = dget j (s_nodes st)) ∧
    (outcome b = Ok n ∨ is_ok (outcome b) = false).
Proof.
  intros Hs. cbv zeta. unfold handshake_body.
  destruct r1 as [f|r| |]; [|by left..]. erewrite bind_run_Ok by done.
  destruct f as [protocol node_id ver arch declared node_nonce| | | | | |]; [|by left..].
  destruct (bool_decide (protocol = PROTOCOL_ID)) eqn:Epr; [|by left]. erewrite bind_run_Ok by done.
  apply bool_decide_eq_true in Epr as ->.
  destruct (dget node_id (s_nodes st)) as [r0|] eqn:Er0.
  2: { erewrite bind_run_Err by (by rewrite find_node_run, Er0). by left. }
  erewrite bind_run_Ok by (by rewrite find_node_run, Er0).
  destruct (n_revoked_at r0) eqn:Erv; [by left|].
  do 2 erewrite bind_run_Ok by done.
  destruct (sign_payload _ _ _) as [proof|e] eqn:Esg; [|by left]. erewrite bind_run_Ok by done.
  destruct s1; [|by left..]. erewrite bind_run_Ok by done.
  destruct r2 as [f|r| |]; [|by left..]. erewrite bind_run_Ok by done.
  destruct f as [|session_id node_proof| | | | |]; [by left| |by left..]. simpl ss_id.
  destruct (bool_decide (session_id = ss_id s)) eqn:Esid; [|by left]. erewrite bind_run_Ok by done.
  apply bool_decide_eq_true in Esid as ->.
  destruct (verify_payload _ _ _ _ _ _) as [[]|e] eqn:Ev; [|by left]. erewrite bind_run_Ok by done.
  apply verify_payload_Ok in Ev as (key & raw & Hkey & Hraw & Hver).
  assert (n_node_id r0 = node_id) as Hid by (eapply (sw_node_key _ (mi_wf _ Hs)); eauto). rewrite Hid in *.
  assert (Hg := attach_good stamp node_id (ss_id s) declared ver arch now st Hs).
  destruct (attach_session_cases node_id (ss_id s) declared ver arch now st Hs)
    as [[Hf Hsame]|(r & Hr & Hrr & Hri & Ho & Hn & Hj)].
  - left. destruct (attach_session _ _ _ _ _ _ _ st) as [[n|e] st2] eqn:Ea; [done|].
    simpl in Hsame. subst st2. erewrite bind_run_Err by (unfold on_registry; simpl w_store; by rewrite Ea). done.
  - right. simplify_eq. set (n := node_attach _ _ _ _ _ _) in *.
    destruct (attach_session _ _ _ _ _ _ _ st) as [o st2] eqn:Ea. simpl in Ho, Hn, Hj, Hg. subst o.
    erewrite bind_run_Ok by (unfold on_registry; simpl w_store; by rewrite Ea). erewrite bind_run_Ok by done.
    exists n, r0. split; [by split; [..|by eauto 15]|].
    destruct Hg. destruct (scopes_of n) as [scopes|e] eqn:Esc.
    + erewrite bind_run_Ok by done.
      destruct s2; [erewrite bind_run_Ok by done|erewrite bind_run_Err by done..]; split_and!; auto.
    + erewrite bind_run_Err by done. split_and!; auto.
Qed.

(** The message a node signs determines the session, the node, the nonce and
    the declared capabilities, and is never one the control plane signs. *)
Lemma node_proof_binds p sid i nonce d p' sid' i' nonce' d' :
  canonical_json (node_proof_payload p sid i nonce d) = canonical_json (node_proof_payload p' sid' i' nonce' d') →
  p = p' ∧ sid = sid' ∧ i = i' ∧ nonce = nonce' ∧ d = d'.
Proof.
  intros H%canonical_json_inj. unfold node_proof_payload in H. vm_compute in H. by injection H.
Qed.

Lemma node_proof_not_server p sid i nonce d p' sid' i' nonce' :
  canonical_json (node_proof_payload p sid i nonce d) ≠ canonical_json (server_proof_payload p' sid' i' nonce').
Proof. intros H%canonical_json_inj. vm_compute in H. discriminate H. Qed.

(** C11. Authenticity of the handshake. A handshake succeeds only for a known,
    unrevoked node that signed, with its registered key, a message made of this
    session's id, its own id, this handshake's nonce and the digest of the
    capabilities it declared; the node's record then carries the session. That
    message differs for any other session, node, nonce or declaration, and from
    every message the control plane itself signs, so neither replaying nor
    reflecting a proof passes. *)
Theorem handshake_authentic pk nonce now r1 s1 r2 s2 cl w n w' :
  mesh_inv (w_store w) →
  handshake pk nonce now r1 s1 r2 s2 cl w = (Ok n, w') →
  (∃ r0, attested (w_session w) (w_store w) nonce r1 r2 n r0) ∧
  ss_node (w_session w') = Some n ∧ dget (n_node_id n) (s_nodes (w_store w')) = Some n ∧
  (∀ sid i nonce' d sid' i' nonce2 d',
     canonical_json (node_proof_payload PROTOCOL_ID sid i nonce' d)
       = canonical_json (node_proof_payload PROTOCOL_ID sid' i' nonce2 d') →
     sid = sid' ∧ i = i' ∧ nonce' = nonce2 ∧ d = d') ∧
  (∀ sid i nonce' d p' sid' i' nonce2,
     canonical_json (node_proof_payload PROTOCOL_ID sid i nonce' d)
       ≠ canonical_json (server_proof_payload p' sid' i' nonce2)).
Proof.
  intros Hm Hh. destruct w as [s st].
  destruct (handshake_cases pk nonce now r1 s1 r2 s2 cl (mkWorld s st)) as [(n' & Ho & E)|(? & ? & _ & _ & Hf)].
  2: by rewrite Hh in Hf.
  rewrite Hh in E. destruct (handshake_body_cases pk nonce now r1 s1 r2 s2 s st Hm) as [(Hf & _)|H].
  { by rewrite Ho in Hf. }
  rewrite <- E in H. destruct H as (n1 & r0 & Hat & Hn & _ & Hd & _ & [Hok|Hf]); [|done].
  injection Hok as <-. split_and!; eauto using node_proof_not_server.
  intros. by edestruct node_proof_binds as (_ & ? & ? & ? & ?); [eassumption|].
Qed.

(** A failed handshake leaves no phantom: whatever went wrong, also after
    the node was attached, the session ends closed and no node's record carries
    it. *)
Theorem handshake_no_phantom pk nonce now r1 s1 r2 s2 cl w :
  mesh_inv (w_store w) → ss_node (w_session w) = None → ss_closed (w_session w) = false →
  (∀ i r, dget i (s_nodes (w_store w)) = Some r → n_session_id r ≠ Some (ss_id (w_session w))) →
  let h := handshake pk nonce now r1 s1 r2 s2 cl w in
  is_ok (outcome h) = false →
  ss_closed (w_session (final h)) = true ∧
  ∀ i r, dget i (s_nodes (w_store (final h))) = Some r → n_session_id r ≠ Some (ss_id (w_session w)).
Proof.
  intros Hm Hnone Hopen Hfree h Hfail. subst h. destruct w as [s st]. simpl in Hm, Hnone, Hopen, Hfree.
  destruct (handshake_body_quiet pk nonce now r1 s1 r2 s2 (mkWorld s st)) as (_ & Hc & Hi).
  destruct (handshake_cases pk nonce now r1 s1 r2 s2 cl (mkWorld s st)) as [(n' & Ho & E)|(s' & reason & Hs' & E & _)].
  { by rewrite E, Ho in Hfail. }
  rewrite E. split; [apply shutdown_closed|]. clear E Hfail.
  assert (Hb := handshake_body_cases pk nonce now r1 s1 r2 s2 s st Hm). cbv zeta in Hb.
  destruct (final (handshake_body _ _ _ _ _ _ _ _ _ _ _ _)) as [sb stb]. cbn [w_session w_store] in *.
  assert (ss_node s' = ss_node sb ∧ ss_closed s' = false ∧ ss_id s' = ss_id s) as (Hn' & Hc' & Hi').
  { destruct Hs' as [->|[f ->]]; simpl; split_and!; congruence. }
  rewrite shutdown_store by done. cbn [w_session w_store]. rewrite Hn'.
  destruct Hb as [(_ & -> & ->)|(n & r0 & _ & -> & Hm' & Hd & Hj & _)]; [by rewrite Hnone|]. rewrite Hi'.
  destruct (detach_session_run (n_node_id n) (ss_id s) reason _ Hm') as (_ & Hdet & Hoth).
  intros i r. destruct (decide (i = n_node_id n)) as [->|Hne]; [apply Hdet|].
  rewrite Hoth, Hj by done. apply Hfree.
Qed.
End Steps.

(** * A concrete session: the workstation of [NodeRegistryExamples] connects, takes one file read, streams too much, and reports a result *)

From S2P Require Import JsonParse.
From S2P Require Import NodeRegistryExamples.

(** A signature scheme that records who signed: enough to evaluate the
    handshake. *)
Definition toy_sign (sk m : string) : string := sk +:+ m.
Definition toy_check (pk m sig : string) : bool := bool_decide (sig = pk +:+ m).

Definition demo_raw : string := "0123456789abcdef0123456789abcdef".
Definition demo_declared : list string := ["fs.read@1"; "fs.write@1"].
Definition hello : Received := GotFrame (HelloFrame PROTOCOL_ID "node-u1" "1.0" "x86_64" demo_declared "nn").
Definition attest : Received := Eval vm_compute in GotFrame (AttestFrame "nsx-1" (encode_bytes (toy_sign demo_raw
  (canonical_json (node_proof_payload PROTOCOL_ID "nsx-1" "node-u1" "nonce" (digest_of (JList (map JStr demo_declared)))))))).
Definition start : World := mkWorld (fresh_session "nsx-1" "key-1") mesh2.

Notation demo_handshake := (handshake demo_stamp any_key toy_sign toy_check demo_key "nonce" (seconds 30) hello Sent attest).
Notation sess_step := (session_step demo_stamp any_key toy_sign toy_check).
Notation sess_reachable := (session_reachable demo_stamp any_key toy_sign toy_check).

Definition up : World := Eval vm_compute in final (demo_handshake Sent Sent start).
Definition busy : World := Eval vm_compute in
  final (dispatch_start "j1" 1 "k1" "fs.read@1" [] 60 4096 2 false Sent up).
Definition read_result : JobResultFrame :=
  mkResult "j1" 1 "k1" SUCCEEDED (JObj [("content", JStr "hello")]) false false [] "" "done" "" "" false.
Definition streamed : World := Eval vm_compute in
  final (handle demo_stamp (JobArtifactFrame "j1" 1 "a1" "xxxxxxxx") (seconds 31) true busy).
Definition ready : World := Eval vm_compute in final (handle demo_stamp (ResultFrame read_result) (seconds 32) true streamed).

Lemma mesh2_inv : mesh_inv mesh2.
Proof. eapply mesh_reachable_inv, mesh2_reachable. Qed.

Lemma step_reachable w w' : sess_reachable w → sess_step w w' → sess_reachable w'.
Proof. intros (sid & kid & st & H) Hs. exists sid, kid, st. by eapply rtc_r. Qed.

Lemma start_reachable : sess_reachable start.
Proof. exists "nsx-1", "key-1", mesh2. apply rtc_refl. Qed.

Lemma up_reachable : sess_reachable up.
Proof.
  eapply step_reachable; [apply start_reachable|].
  assert (up = final (demo_handshake Sent Sent start)) as -> by (vm_compute; reflexivity). apply ss_handshake.
Qed.

Lemma busy_reachable : sess_reachable busy.
Proof.
  eapply step_reachable; [apply up_reachable|].
  assert (busy = final (dispatch_start "j1" 1 "k1" "fs.read@1" [] 60 4096 2 false Sent up)) as -> by (vm_compute; reflexivity).
  apply ss_submit.
Qed.

Lemma streamed_reachable : sess_reachable streamed.
Proof.
  eapply step_reachable; [apply busy_reachable|].
  assert (streamed = final (handle demo_stamp (JobArtifactFrame "j1" 1 "a1" "xxxxxxxx") (seconds 31) true busy)) as ->
    by (vm_compute; reflexivity). apply ss_handle.
Qed.

Lemma ready_reachable : sess_reachable ready.
Proof.
  eapply step_reachable; [apply streamed_reachable|].
  assert (ready = final (handle demo_stamp (ResultFrame read_result) (seconds 32) true streamed)) as ->
    by (vm_compute; reflexivity). apply ss_handle.
Qed.

(** The file read declares no artifacts, so the one streamed was refused. *)
Lemma session_bounds_witness :
  ∃ p, dget "j1" (ss_pending (w_session streamed)) = Some p ∧ p_artifacts_refused p = 1 ∧
    Z.of_nat (length (p_artifact_ids p)) ≤ Z.min (allowed_count (p_capability p)) MAX_ARTIFACTS_PER_JOB.
Proof.
  destruct (session_bounds demo_stamp any_key toy_sign toy_check streamed streamed_reachable) as [_ H].
  eexists. split; [reflexivity|]. split; [reflexivity|]. apply (H "j1"). reflexivity.
Defined.

Lemma job_outcome_faithful_witness :
  ∃ o w', dispatch_end "j1" ResultReady Sent ready = Some (JobDone o, w') ∧
    o_trust_label o = EXTERNAL_UNTRUSTED ∧ o_job_id o = "j1".
Proof.
  assert (∃ o w', dispatch_end "j1" ResultReady Sent ready = Some (JobDone o, w')) as (o & w' & E)
    by (eexists _, _; vm_compute; reflexivity).
  exists o, w'. split; [exact E|].
  destruct (job_outcome_faithful demo_stamp any_key toy_sign toy_check ready "j1" ResultReady Sent o w' ready_reachable E)
    as (p & f & n & H). split; apply H.
Defined.

Lemma up_mesh : mesh_inv (w_store busy).
Proof.
  assert (w_store busy = final (attach_session demo_stamp "node-u1" "nsx-1" demo_declared "1.0" "x86_64"
    (seconds 30) mesh2)) as -> by (vm_compute; reflexivity).
  apply attach_good, mesh2_inv.
Qed.

Lemma session_teardown_witness :
  let w' := final (pump demo_stamp [InMalformed FRAME_MALFORMED] Sent busy) in
  ss_closed (w_session w') = true ∧ dkeys (ss_pending (w_session w')) = ["j1"].
Proof.
  destruct (session_teardown demo_stamp any_key toy_sign toy_check busy _ [InMalformed FRAME_MALFORMED] Sent busy_reachable
    up_mesh eq_refl eq_refl) as (H1 & H2 & _).
  split; [exact H1|exact H2].
Defined.

Lemma handshake_authentic_witness :
  ∃ n w', demo_handshake Sent Sent start = (Ok n, w') ∧ ss_node (w_session w') = Some n.
Proof.
  destruct (run_is_ok (demo_handshake Sent Sent start)) as [n E]; [vm_compute; reflexivity|].
  exists n, (final (demo_handshake Sent Sent start)). split; [exact E|].
  exact (proj1 (proj2 (handshake_authentic demo_stamp any_key toy_sign toy_check _ _ _ _ _ _ _ _ start n _ mesh2_inv E))).
Defined.

(** The channel dies while the ready frame is written: the node had been
    attached and is detached again. *)
Lemma handshake_no_phantom_witness :
  ss_closed (w_session (final (demo_handshake PeerGone PeerGone start))) = true.
Proof.
  refine (proj1 (handshake_no_phantom demo_stamp any_key toy_sign toy_check demo_key "nonce" (seconds 30) hello Sent attest
    PeerGone PeerGone start mesh2_inv eq_refl eq_refl _ _)).
  - intros i r. simpl. case_decide; [|done]. by intros [= <-].
  - vm_compute. reflexivity.
Defined.
