(* ===== verification/NodeDispatchFacts.v ===== *)
(** What the dispatch service guarantees: a job reaches a node only after
    admission, revocation and freezing reach the jobs already running, and the
    job table forgets only finished jobs. *)

From S2P Require Import Prelude PyDict PyTime Json Sha256 Redaction NodeModels NodeScopes NodeAudit NodeStore.
From S2P Require Import NodeCrypto Authorization AuthorityRepository NodeApprovals NodeRegistry NodeRegistryFacts.
From S2P Require Import NodeRegistryProps NodeSession NodeSessionFacts NodeDispatch.

Open Scope Z_scope.

Create HintDb disp discriminated.

(** ** The job table *)

Lemma evict_suffix t : ∃ dropped, t = dropped ++ evict t ∧ Forall (λ kj, terminal (j_status kj.2) = true) dropped.
Proof.
  induction t as [|[k j] t (dr & Ht & Hall)]; [by exists []|]. cbn [evict].
  destruct (_ <? _)%nat; [|by exists []]. destruct (terminal _) eqn:E; [|by exists []].
  exists ((k, j) :: dr). split; [simpl; by f_equal|by constructor].
Qed.

Lemma evict_stop t :
  (length (evict t) ≤ MAX_RETAINED_JOB_RECORDS)%nat ∨
  ∃ k j rest, evict t = (k, j) :: rest ∧ terminal (j_status j) = false.
Proof.
  induction t as [|[k j] t IH]; [left; simpl; unfold MAX_RETAINED_JOB_RECORDS; lia|]. cbn [evict].
  destruct (_ <? _)%nat eqn:El; [|left; by apply Nat.ltb_ge in El].
  destruct (terminal _) eqn:E; [done|right; eauto].
Qed.

(** An entry goes only when it is terminal. *)
Lemma evict_keeps t k j : dict_wf t → dget k t = Some j → dget k (evict t) = Some j ∨ terminal (j_status j) = true.
Proof.
  intros Hw Hk. destruct (evict_suffix t) as (dr & Ht & Hall).
  destruct (dget k dr) as [j'|] eqn:E.
  - right. rewrite Ht, (dget_app_Some _ _ _ _ E) in Hk. injection Hk as ->.
    apply dget_Some_elem in E. rewrite Forall_forall in Hall. by apply (Hall (k, j)).
  - left. rewrite Ht in Hk. by rewrite dget_app_ne in Hk.
Qed.

Lemma evict_get t k : dict_wf t → dget k (evict t) = dget k t ∨ dget k (evict t) = None.
Proof.
  intros Hw. destruct (evict_suffix t) as (dr & Ht & Hall). destruct (dget k dr) as [j|] eqn:E.
  - right. apply dget_None. intros Hin. rewrite Ht in Hw. unfold dict_wf, dkeys in Hw. rewrite fmap_app in Hw.
    apply NoDup_app in Hw as (_ & Hd & _). apply dget_Some_key in E. by apply (Hd k).
  - left. transitivity (dget k (dr ++ evict t)); [by rewrite dget_app_ne|by rewrite <- Ht].
Qed.

Lemma dict_wf_evict t : dict_wf t → dict_wf (evict t).
Proof.
  intros Hw. destruct (evict_suffix t) as (dr & Ht & _). rewrite Ht in Hw. unfold dict_wf, dkeys in *.
  rewrite fmap_app in Hw. by apply NoDup_app in Hw as (_ & _ & ?).
Qed.

(** The table with [j] as its newest entry. *)
Definition newest (j : NodeJobRecord) (t : dict string NodeJobRecord) : dict string NodeJobRecord :=
  ddel (j_job_id j) t ++ [(j_job_id j, j)].

Lemma remembered_newest j t : remembered j t = evict (newest j t).
Proof. unfold remembered. by rewrite move_to_end_dset. Qed.

Lemma newest_wf j t : dict_wf t → dict_wf (newest j t).
Proof. apply dict_wf_renew. Qed.

Lemma newest_get j t k :
  dict_wf t → dget k (newest j t) = if decide (k = j_job_id j) then Some j else dget k t.
Proof. intros Hw. unfold newest. rewrite dget_renew by done. by repeat case_decide; congruence. Qed.

(** The job table forgets only finished jobs, oldest first: after a job is
    remembered, it is the newest entry, every other job that is still running is
    present and unchanged, and the table holds at most 200 records unless its
    oldest one is still running. *)
Theorem job_retention j t :
  dict_wf t → terminal (j_status j) = false →
  dget (j_job_id j) (remembered j t) = Some j ∧
  (∀ k i, k ≠ j_job_id j → dget k t = Some i → terminal (j_status i) = false → dget k (remembered j t) = Some i) ∧
  (∃ dropped, newest j t = dropped ++ remembered j t ∧ Forall (λ kj, terminal (j_status kj.2) = true) dropped) ∧
  ((length (remembered j t) ≤ MAX_RETAINED_JOB_RECORDS)%nat ∨
   ∃ k i rest, remembered j t = (k, i) :: rest ∧ terminal (j_status i) = false).
Proof.
  intros Hw Hj. rewrite remembered_newest. assert (Hn := newest_wf j t Hw). split_and!.
  - destruct (evict_keeps _ (j_job_id j) j Hn) as [|H]; [by rewrite newest_get, decide_True|done|congruence].
  - intros k i Hk Hi Ha. destruct (evict_keeps _ k i Hn) as [|H]; [by rewrite newest_get, decide_False|done|congruence].
  - apply evict_suffix.
  - apply evict_stop.
Qed.

(** ** Cancelling *)

Section Service.
Context (stamp : nat → datetime * string) (cfg : Config).
Context {V : Type} `{ApprovalVerifierLaws V}.
Notation Disp := (Disp (V := V)).

(** What sending cancel frames does to a session: nothing but the frames. *)
Record only_sends (s s' : Session) : Prop := {
  os_id : ss_id s' = ss_id s;
  os_node : ss_node s' = ss_node s;
  os_pending : ss_pending s' = ss_pending s;
  os_closed : ss_closed s' = ss_closed s;
  os_outbox : ∃ more, ss_outbox s' = ss_outbox s ++ more }.

Record only_sent (d d' : Disp) : Prop := {
  od_sessions : d_sessions d' = d_sessions d;
  od_jobs : d_jobs d' = d_jobs d;
  od_approvals : rg_approvals (d_reg d') = rg_approvals (d_reg d);
  od_nodes : s_nodes (rg_store (d_reg d')) = s_nodes (rg_store (d_reg d));
  od_control : s_control (rg_store (d_reg d')) = s_control (rg_store (d_reg d));
  od_mesh : mesh_inv (rg_store (d_reg d)) → good_store (rg_store (d_reg d)) (rg_store (d_reg d'));
  od_objs : ∀ sid s, dget sid (d_objs d) = Some s → ∃ s', dget sid (d_objs d') = Some s' ∧ only_sends s s' }.

#[local] Instance only_sends_refl : Reflexive only_sends.
Proof. intros s. split; try done. exists []. by rewrite app_nil_r. Qed.
#[local] Instance only_sends_trans : Transitive only_sends.
Proof.
  intros s1 s2 s3 [? ? ? ? [m1 ?]] [? ? ? ? [m2 ?]]. split; try congruence.
  exists (m1 ++ m2). rewrite app_assoc. congruence.
Qed.
#[local] Instance only_sent_refl : Reflexive only_sent.
Proof. intros d. split; try done. intros sid s Hs. by exists s. Qed.
#[local] Instance only_sent_trans : Transitive only_sent.
Proof.
  intros d1 d2 d3 [] []. split; try congruence.
  { intros Hm. eapply good_store_trans; [by apply od_mesh0|]. by apply od_mesh1, od_mesh0. }
  intros sid s Hs.
  destruct (od_objs0 sid s Hs) as (s' & Hs' & ?). destruct (od_objs1 sid s' Hs') as (s'' & ? & ?).
  exists s''. split; [done|]. by etrans.
Qed.

(** An audit event changes nothing but the chain. *)
Lemma audit_run x (d : Disp) :
  audit stamp x d = (Ok (), mkDisp (mkReg (store_audit stamp x (rg_store (d_reg d))) (rg_approvals (d_reg d)))
                       (d_objs d) (d_sessions d) (d_jobs d)).
Proof. unfold audit, on_mesh, on_reg, on_store, record_audit. rewrite transaction_atomic. by destruct d. Qed.

Lemma audit_sent x (d : Disp) : only_sent d (final (audit stamp x d)).
Proof.
  rewrite audit_run. split; try done; [by apply audit_good|]. intros sid s Hs. by exists s.
Qed.

(** One session asked to cancel. *)
Lemma cancel_one_sent sid j reason sr (d : Disp) :
  only_sent d (final (on_sess sid (NodeSession.cancel_job j reason sr) d)).
Proof.
  unfold on_sess. destruct (dget sid (d_objs d)) as [s|] eqn:E; [|reflexivity].
  unfold NodeSession.cancel_job, deliver. py_unfold.
  destruct (dget j (ss_pending s)) as [p|]; simpl.
  2: { split; try done; simpl. intros sid' s' Hs'. exists s'. split; [|done].
       rewrite dget_dset. case_decide; congruence. }
  destruct sr; simpl; (split; try done; simpl; intros sid' s' Hs'; rewrite dget_dset;
    case_decide; subst; [|by exists s']; simplify_eq; eexists; (split; [done|])); [|done..].
  split; try done. by eexists.
Qed.

Lemma cancel_one_frame sid j reason (d : Disp) s p :
  dget sid (d_objs d) = Some s → dget j (ss_pending s) = Some p →
  let r := on_sess sid (NodeSession.cancel_job j reason Sent) d in
  outcome r = Ok true ∧
  ∃ s', dget sid (d_objs (final r)) = Some s' ∧ JobCancelFrame j (p_attempt p) reason ∈ ss_outbox s'.
Proof.
  intros Hs Hp. unfold on_sess. rewrite Hs. unfold NodeSession.cancel_job, deliver. py_unfold. rewrite Hp. simpl.
  split; [done|]. rewrite dget_dset_eq. eexists. split; [done|]. simpl. set_solver.
Qed.

(** The session [sid] has sent the node a cancel frame for the job. *)
Definition cancel_sent (d : Disp) (sid j reason : string) (attempt : Z) : Prop :=
  ∃ s, dget sid (d_objs d) = Some s ∧ JobCancelFrame j attempt reason ∈ ss_outbox s.

Lemma cancel_sent_mono d d' sid j reason a : only_sent d d' → cancel_sent d sid j reason a → cancel_sent d' sid j reason a.
Proof.
  intros Ho (s & Hs & Hin). destruct (od_objs _ _ Ho sid s Hs) as (s' & Hs' & Hss). exists s'. split; [done|].
  destruct (os_outbox _ _ Hss) as [m ->]. set_solver.
Qed.

Lemma only_sent_bind {A B} (m : St Disp exn A) (k : A → St Disp exn B) d :
  only_sent d (final (m d)) → (∀ a d', only_sent d' (final (k a d'))) → only_sent d (final ((m ≫= k) d)).
Proof.
  intros Hm Hk. unfold mbind, st_bind, final in *. destruct (m d) as [[a|e] d1]; simpl in *; [|done].
  etrans; [exact Hm|apply Hk].
Qed.

Lemma cancel_each_sent sids j reason srs (d : Disp) : only_sent d (final (cancel_each sids j reason srs d)).
Proof.
  revert d. induction sids as [|sid sids IH]; intros d; [reflexivity|]. cbn [cancel_each].
  apply only_sent_bind; [apply cancel_one_sent|]. intros hit d'. apply only_sent_bind; [apply IH|reflexivity].
Qed.

Lemma cancel_job_sent j reason actor srs (d : Disp) : only_sent d (final (cancel_job stamp j reason actor srs d)).
Proof.
  unfold cancel_job. apply only_sent_bind; [reflexivity|]. intros d0 d'.
  apply only_sent_bind; [apply cancel_each_sent|]. intros [] d2; apply only_sent_bind;
    [apply audit_sent|reflexivity|reflexivity|reflexivity].
Qed.

Lemma cancel_all_sent js reason actor srs (d : Disp) : only_sent d (final (cancel_all stamp js reason actor srs d)).
Proof.
  revert d. induction js as [|j js IH]; intros d; [reflexivity|]. cbn [cancel_all].
  apply only_sent_bind; [apply cancel_job_sent|intros _; apply IH].
Qed.

Definition has_obj (d : Disp) (sid : string) : Prop := is_Some (dget sid (d_objs d)).
Lemma has_obj_mono d d' sid : only_sent d d' → has_obj d sid → has_obj d' sid.
Proof. intros Ho [s Hs]. destruct (od_objs _ _ Ho sid s Hs) as (s' & ? & _). by exists s'. Qed.

Lemma cancel_one_ok sid j reason sr (d : Disp) :
  has_obj d sid → ∃ b, outcome (on_sess sid (NodeSession.cancel_job j reason sr) d) = Ok b.
Proof.
  intros [s Hs]. unfold on_sess. rewrite Hs. unfold NodeSession.cancel_job, deliver. py_unfold.
  destruct (dget j (ss_pending s)); [|by eexists]. destruct sr; by eexists.
Qed.

Lemma cancel_each_ok sids j reason srs (d : Disp) :
  Forall (has_obj d) sids → ∃ b, outcome (cancel_each sids j reason srs d) = Ok b.
Proof.
  revert d. induction sids as [|sid sids IH]; intros d Hf; [by exists false|].
  apply Forall_cons in Hf as [Hsid Hf]. cbn [cancel_each].
  destruct (cancel_one_ok sid j reason (srs sid) d Hsid) as [b Hb].
  assert (Ho := cancel_one_sent sid j reason (srs sid) d).
  destruct (on_sess sid _ d) as [o d1] eqn:E1. simpl in Hb, Ho. subst o. erewrite bind_run_Ok by exact E1.
  destruct (IH d1) as [b2 Hb2]; [eapply Forall_impl; [exact Hf|]; eauto using has_obj_mono|].
  destruct (cancel_each sids j reason srs d1) as [o d2] eqn:E2. simpl in Hb2. subst o.
  erewrite bind_run_Ok by exact E2. by eexists.
Qed.

Lemma cancel_each_frame sids j reason srs (d : Disp) sid s p :
  Forall (has_obj d) sids → sid ∈ sids → srs sid = Sent →
  dget sid (d_objs d) = Some s → dget j (ss_pending s) = Some p →
  cancel_sent (final (cancel_each sids j reason srs d)) sid j reason (p_attempt p).
Proof.
  intros Hf Hin Hsr. revert d s Hf. induction sids as [|x sids IH]; intros d s Hf Hs Hp; [by apply elem_of_nil in Hin|].
  apply Forall_cons in Hf as [Hx Hf]. cbn [cancel_each].
  destruct (cancel_one_ok x j reason (srs x) d Hx) as [b Hb].
  assert (Ho := cancel_one_sent x j reason (srs x) d).
  assert (Hfr := cancel_one_frame sid j reason d s p Hs Hp).
  destruct (on_sess x _ d) as [o d1] eqn:E1. simpl in Hb, Ho. subst o. erewrite bind_run_Ok by exact E1.
  assert (Ho2 := cancel_each_sent sids j reason srs d1).
  destruct (cancel_each_ok sids j reason srs d1) as [b2 Hb2]; [eapply Forall_impl; [exact Hf|]; eauto using has_obj_mono|].
  assert (cancel_sent (final (cancel_each sids j reason srs d1)) sid j reason (p_attempt p)) as Hgoal.
  { destruct (decide (x = sid)) as [->|Hne].
    - eapply cancel_sent_mono; [exact Ho2|]. rewrite Hsr in E1. rewrite E1 in Hfr. apply Hfr.
    - destruct (od_objs _ _ Ho sid s Hs) as (s1 & Hs1 & Hss1).
      apply (IH ltac:(set_solver) d1 s1); [eapply Forall_impl; [exact Hf|]; eauto using has_obj_mono|done|].
      by rewrite (os_pending _ _ Hss1). }
  destruct (cancel_each sids j reason srs d1) as [o d2] eqn:E2. simpl in Hb2, Hgoal. subst o.
  erewrite bind_run_Ok by exact E2. exact Hgoal.
Qed.

(** Every session the service knows is an object. *)
Definition owned (d : Disp) : Prop := Forall (has_obj d) (dvalues (d_sessions d)).
Lemma owned_mono d d' : only_sent d d' → owned d → owned d'.
Proof. intros Ho H1. unfold owned. rewrite (od_sessions _ _ Ho). eapply Forall_impl; [exact H1|]. eauto using has_obj_mono. Qed.

Lemma cancel_job_frame j reason actor srs (d : Disp) sid s p :
  owned d → sid ∈ dvalues (d_sessions d) → srs sid = Sent →
  dget sid (d_objs d) = Some s → dget j (ss_pending s) = Some p →
  cancel_sent (final (cancel_job stamp j reason actor srs d)) sid j reason (p_attempt p).
Proof.
  intros Hw Hin Hsr Hs Hp. unfold cancel_job. erewrite bind_run_Ok by done.
  assert (Hfr := cancel_each_frame _ j reason srs d sid s p Hw Hin Hsr Hs Hp).
  destruct (cancel_each_ok _ j reason srs d Hw) as [b Hb].
  destruct (cancel_each _ j reason srs d) as [o d1] eqn:E1. simpl in Hb, Hfr. subst o. erewrite bind_run_Ok by exact E1.
  eapply cancel_sent_mono; [|exact Hfr].
  apply only_sent_bind; [destruct b; [apply audit_sent|reflexivity]|reflexivity].
Qed.

Lemma cancel_job_ok j reason actor srs (d : Disp) :
  owned d → ∃ b, outcome (cancel_job stamp j reason actor srs d) = Ok b.
Proof.
  intros Hw. unfold cancel_job. erewrite bind_run_Ok by done. destruct (cancel_each_ok _ j reason srs d Hw) as [b Hb].
  destruct (cancel_each _ j reason srs d) as [o d1] eqn:E1. simpl in Hb. subst o. erewrite bind_run_Ok by exact E1.
  destruct b; [erewrite bind_run_Ok by apply audit_run|erewrite bind_run_Ok by done]; by eexists.
Qed.

Lemma cancel_all_ok js reason actor srs (d : Disp) :
  owned d → outcome (cancel_all stamp js reason actor srs d) = Ok ().
Proof.
  revert d. induction js as [|j js IH]; intros d Hw; [done|]. cbn [cancel_all].
  destruct (cancel_job_ok j reason actor srs d Hw) as [b Hb]. assert (Ho := cancel_job_sent j reason actor srs d).
  destruct (cancel_job stamp j reason actor srs d) as [o d1] eqn:E. simpl in Hb, Ho. subst o.
  erewrite bind_run_Ok by exact E. apply IH. by eapply owned_mono.
Qed.

Lemma cancel_all_frame js reason actor srs (d : Disp) j sid s p :
  owned d → j ∈ js → sid ∈ dvalues (d_sessions d) → srs sid = Sent →
  dget sid (d_objs d) = Some s → dget j (ss_pending s) = Some p →
  cancel_sent (final (cancel_all stamp js reason actor srs d)) sid j reason (p_attempt p).
Proof.
  intros Hw Hj Hin Hsr. revert d s Hw Hin. induction js as [|x js IH]; intros d s Hw Hin Hs Hp; [by apply elem_of_nil in Hj|].
  cbn [cancel_all]. destruct (cancel_job_ok x reason actor srs d Hw) as [b Hb].
  assert (Ho := cancel_job_sent x reason actor srs d).
  assert (Hfr := cancel_job_frame j reason actor srs d sid s p Hw Hin Hsr Hs Hp).
  destruct (cancel_job stamp x reason actor srs d) as [o d1] eqn:E. simpl in Hb, Ho. subst o.
  erewrite bind_run_Ok by exact E. apply elem_of_cons in Hj as [->|Hj].
  - rewrite E in Hfr. eapply cancel_sent_mono; [apply cancel_all_sent|exact Hfr].
  - destruct (od_objs _ _ Ho sid s Hs) as (s1 & Hs1 & Hss).
    apply (IH Hj d1 s1); [by eapply owned_mono|by rewrite (od_sessions _ _ Ho)|done|by rewrite (os_pending _ _ Hss)].
Qed.

(** ** The service invariant *)

Record disp_inv (d : Disp) : Prop := {
  di_mesh : mesh_inv (rg_store (d_reg d));
  di_owned : owned d;
  di_objs : dall (λ _ s, session_inv s) (d_objs d);
  di_jobs_wf : dict_wf (d_jobs d);
  di_jobs_key : dall (λ k j, j_job_id j = k) (d_jobs d) }.

(** Selection reads the store and may spend an approval, nothing else. *)
Lemma assert_approved_store cap i params a now st :
  keeps (λ g : Reg (V := V), rg_store g = st) (assert_approved cap i params a now).
Proof.
  intros g Hg. assert (Hc := assert_approved_cases cap i params a now g).
  destruct (assert_approved cap i params a now g) as [[]]; simpl; [destruct Hc|]; congruence.
Qed.

Ltac keeps_pure_tac := apply keeps_pure; intros ?; reflexivity.
Ltac keeps_step := first [ keeps_pure_tac | apply assert_approved_store | apply keeps_bind; [|intros ?] | case_match ].

Lemma select_node_store cap i params a now now' st :
  keeps (λ g : Reg (V := V), rg_store g = st) (select_node stamp cfg cap i params a now now').
Proof.
  assert (Hr : ∀ A (m : Tx A), (∀ s, ∃ x, run_direct stamp m s = (Ok x, s)) →
    keeps (λ g : Reg (V := V), rg_store g = st) (on_store (transaction stamp m))).
  { intros A m Hm g Hg. destruct (Hm (rg_store g)) as [x Hx]. by erewrite read_only_tx by exact Hx. }
  unfold select_node. destruct i as [i|]; [unfold assert_dispatchable|];
    (apply keeps_bind; [keeps_pure_tac|intros _]; apply keeps_bind; [apply Hr; intros s; by eexists|intros p]);
    repeat keeps_step.
Qed.

Lemma on_reg_keeps {A} (m : St (Reg (V := V)) exn A) :
  (∀ g, mesh_inv (rg_store g) → mesh_inv (rg_store (final (m g)))) → keeps disp_inv (on_reg m).
Proof. intros Hm d []. split; simpl; try done. by apply Hm. Qed.

Lemma on_mesh_keeps {A} (m : St MeshStore exn A) :
  (∀ s, mesh_inv s → good_store s (final (m s))) → keeps disp_inv (on_mesh m).
Proof. intros Hm. apply on_reg_keeps. intros g Hg. by apply (Hm (rg_store g)). Qed.

(** Session methods preserve both the session's and the mesh's invariant. *)
Definition session_safe {A} (m : St World exn A) : Prop :=
  ∀ w, session_inv (w_session w) → mesh_inv (w_store w) →
    session_inv (w_session (final (m w))) ∧ mesh_inv (w_store (final (m w))).

Lemma on_sess_keeps {A} sid (m : St World exn A) : session_safe m → keeps disp_inv (on_sess sid m).
Proof.
  intros Hm d Hd. unfold on_sess. destruct (dget sid (d_objs d)) as [s|] eqn:E; [|done].
  destruct Hd as [Hme Ho Hob Hw Hk].
  destruct (Hm (mkWorld s (rg_store (d_reg d)))) as [H1 H2]; [by eapply Hob|done|].
  split; simpl; try done.
  - unfold owned, has_obj in *. simpl. eapply Forall_impl; [exact Ho|]. intros x [sx Hx]. simpl.
    rewrite dget_dset. case_decide; [by eexists|by rewrite Hx].
  - by apply dall_dset.
Qed.

Lemma shutdown_safe reason : session_safe (shutdown stamp reason).
Proof.
  intros w Hs Hm. split; [by apply shutdown_inv|].
  destruct (ss_closed (w_session w)) eqn:E.
  - unfold shutdown. py_unfold. by rewrite E.
  - rewrite shutdown_store by done. case_match; [|done]. by apply detach_session_good.
Qed.

Lemma refuse_safe reason sr : session_safe (refuse stamp reason sr).
Proof.
  intros w Hs Hm. destruct (refuse_run stamp reason sr w) as (s' & Hs' & ->). apply shutdown_safe; [|done].
  destruct Hs' as [->| ->]; [done|by apply push_inv].
Qed.

Lemma handle_safe f now x : session_safe (handle stamp f now x).
Proof. intros w Hs Hm. split; [by apply handle_inv|by apply handle_mesh]. Qed.

Lemma dispatch_start_safe j a k c ps dl mo mp cb sr : session_safe (dispatch_start j a k c ps dl mo mp cb sr).
Proof.
  intros w Hs Hm. split; [by apply dispatch_start_inv|].
  by destruct (dispatch_start_cases j a k c ps dl mo mp cb sr w) as [(e & ->)|(_ & _ & _ & _ & _ & ->)].
Qed.

Lemma handshake_safe ko sg vf pk nonce now r1 s1 r2 s2 cl :
  session_safe (handshake stamp ko sg vf pk nonce now r1 s1 r2 s2 cl).
Proof.
  intros [s st] Hs Hm. split; [by apply handshake_inv|]. simpl in *.
  assert (Hb : mesh_inv (w_store (final (handshake_body stamp ko sg vf pk nonce now r1 s1 r2 s2 (mkWorld s st))))).
  { destruct (handshake_body_cases stamp ko sg vf pk nonce now r1 s1 r2 s2 s st Hm)
      as [(_ & -> & _)|(n & r0 & _ & _ & ? & _)]; done. }
  assert (Hq := handshake_body_quiet stamp ko sg vf pk nonce now r1 s1 r2 s2 (mkWorld s st)).
  destruct (handshake_cases stamp ko sg vf pk nonce now r1 s1 r2 s2 cl (mkWorld s st))
    as [(n & _ & ->)|(s' & reason & Hs' & -> & _)]; [done|].
  apply shutdown_safe; [|done]. destruct Hq as (Hp & Hc & _).
  assert (H1 := session_inv_same _ _ Hp Hc Hs). destruct Hs' as [->|[f ->]]; [done|by apply push_inv].
Qed.

Lemma sess_node_run sid (d : Disp) :
  on_sess sid (s ← get_session; liftR (node_id_of s)) d =
    match dget sid (d_objs d) with
    | None => (Err (NodeMeshError SESSION_CLOSED), d)
    | Some s => (node_id_of s, d)
    end.
Proof.
  unfold on_sess. destruct (dget sid (d_objs d)) as [s|] eqn:E; [|done]. py_unfold.
  rewrite dset_same by done. by destruct d as [[] ? ? ?].
Qed.

Lemma set_sessions_inv t (d : Disp) :
  disp_inv d → Forall (has_obj d) (dvalues t) → disp_inv (final (set_sessions t d)).
Proof. intros []. by split. Qed.

Lemma attach_session_keeps sid : keeps disp_inv (attach_session (V := V) stamp sid).
Proof.
  intros d Hd. unfold attach_session. unfold mbind at 1, st_bind at 1. rewrite sess_node_run.
  destruct (dget sid (d_objs d)) as [s|] eqn:Es; [|done]. destruct (node_id_of s) as [i|]; [|done].
  erewrite bind_run_Ok by done. unfold set_sessions at 1. erewrite bind_run_Ok by done.
  assert (Hd1 : disp_inv (final (set_sessions (dset i sid (d_sessions d)) d))).
  { apply set_sessions_inv; [done|]. rewrite Forall_forall. intros x [->|Hx]%dvalues_dset; [by eexists|].
    eapply Forall_forall; [apply (di_owned _ Hd)|done]. }
  destruct (dget i (d_sessions d)) as [prev|]; [|done]. destruct (bool_decide _); [done|].
  by apply (on_sess_keeps prev _ (shutdown_safe _)).
Qed.

Lemma detach_session_keeps sid : keeps disp_inv (detach_session (V := V) sid).
Proof.
  intros d Hd. unfold detach_session. unfold mbind at 1, st_bind at 1. rewrite sess_node_run.
  destruct (dget sid (d_objs d)) as [s|] eqn:Es; [|done]. destruct (node_id_of s) as [i|]; [|done].
  erewrite bind_run_Ok by done. destruct (bool_decide _); [|done].
  apply set_sessions_inv; [done|]. rewrite Forall_forall. intros x Hx%dvalues_ddel.
  eapply Forall_forall; [apply (di_owned _ Hd)|done].
Qed.

Lemma set_jobs_inv t (d : Disp) :
  disp_inv d → dict_wf t → dall (λ k j, j_job_id j = k) t → disp_inv (final (set_jobs t d)).
Proof. intros []. by split. Qed.

Lemma remembered_ok j t :
  dict_wf t → dall (λ k j, j_job_id j = k) t →
  dict_wf (remembered j t) ∧ dall (λ k j, j_job_id j = k) (remembered j t).
Proof.
  intros Hw Hk. rewrite remembered_newest. assert (Hn := newest_wf j t Hw). split; [by apply dict_wf_evict|].
  intros k i. destruct (evict_get _ k Hn) as [->| ->]; [|done]. rewrite newest_get by done.
  case_decide; [naive_solver|apply Hk].
Qed.

Lemma remember_keeps j : keeps disp_inv (remember (V := V) stamp j).
Proof.
  apply keeps_bind; [apply on_mesh_keeps; apply upsert_job_good|intros _]. apply keeps_read. intros d Hd.
  destruct (remembered_ok j (d_jobs d)) as [? ?]; [apply Hd..|]. by apply set_jobs_inv.
Qed.

Lemma update_keeps j st reason msg bump now : keeps disp_inv (update (V := V) stamp j st reason msg bump now).
Proof.
  apply keeps_read. intros d Hd. destruct (dget j (d_jobs d)) as [i|] eqn:E; [|done].
  erewrite bind_run_Ok by done. apply (on_mesh_keeps _ (upsert_job_good stamp _)).
  apply (set_jobs_inv _ d); [done|apply dict_wf_dset, Hd|].
  apply dall_dset; [|apply Hd]. by apply (di_jobs_key _ Hd) in E.
Qed.

Lemma audit_keeps x : keeps disp_inv (audit (V := V) stamp x).
Proof. apply on_mesh_keeps. apply record_audit_good. Qed.

Lemma cancel_safe j reason sr : session_safe (NodeSession.cancel_job j reason sr).
Proof.
  intros w Hs Hm. split; [by apply cancel_job_inv|]. destruct w. unfold NodeSession.cancel_job, deliver. py_unfold.
  destruct (dget j _); [|done]. by destruct sr.
Qed.

Lemma cancel_each_keeps sids j reason srs : keeps disp_inv (cancel_each (V := V) sids j reason srs).
Proof.
  induction sids as [|sid sids IH]; cbn [cancel_each]; [by apply keeps_pure|].
  apply keeps_bind; [apply on_sess_keeps, cancel_safe|intros b]. apply keeps_bind; [done|intros; by apply keeps_pure].
Qed.

Lemma cancel_job_keeps j reason actor srs : keeps disp_inv (cancel_job (V := V) stamp j reason actor srs).
Proof.
  unfold cancel_job. apply keeps_bind; [by apply keeps_pure|intros d]. apply keeps_bind; [apply cancel_each_keeps|intros b].
  apply keeps_bind; [|intros; by apply keeps_pure]. destruct b; [apply audit_keeps|by apply keeps_pure].
Qed.

Lemma cancel_all_keeps js reason actor srs : keeps disp_inv (cancel_all (V := V) stamp js reason actor srs).
Proof.
  induction js; cbn [cancel_all]; [by apply keeps_pure|]. apply keeps_bind; [apply cancel_job_keeps|done].
Qed.

#[local] Hint Resolve audit_keeps update_keeps remember_keeps cancel_all_keeps cancel_job_keeps attach_session_keeps
  detach_session_keeps on_sess_keeps handle_safe shutdown_safe refuse_safe dispatch_start_safe handshake_safe : disp.
#[local] Hint Extern 1 (keeps _ (on_mesh _)) => apply on_mesh_keeps; intros ? ? : disp.
#[local] Hint Resolve freeze_dispatch_good unfreeze_good revoke_good quarantine_good : disp.

Ltac disp_keeps :=
  repeat first [ solve [eauto with disp] | by (apply keeps_pure; intros []) | apply keeps_bind; [|intros ?] | case_match ].

Lemma run_admit_keeps r now now' : keeps disp_inv (run_admit (V := V) stamp cfg r now now').
Proof.
  unfold run_admit. apply keeps_bind; [by apply keeps_pure|intros desc].
  apply keeps_bind; [|intros; by apply keeps_pure]. apply on_reg_keeps. intros g Hg.
  by rewrite (select_node_store _ _ _ _ _ _ (rg_store g) g eq_refl).
Qed.

Lemma control_run (d : Disp) : on_mesh (dispatch_control stamp) d = (Ok (s_control (rg_store (d_reg d))), d).
Proof.
  unfold on_mesh, on_reg, on_store, dispatch_control. rewrite transaction_atomic. unfold run_atomic. cbn.
  by destruct d as [[] ? ? ?].
Qed.

Lemma run_check_keeps r n : keeps disp_inv (run_check (V := V) stamp r n).
Proof.
  unfold run_check, refuse_job. apply keeps_bind; [intros d Hd; by rewrite control_run|intros c]. disp_keeps.
Qed.

Lemma run_record_keeps r desc n now : keeps disp_inv (run_record (V := V) stamp r desc n now).
Proof. unfold run_record. disp_keeps. Qed.

Lemma run_failed_keeps r i reason now : keeps disp_inv (run_failed (V := V) stamp r i reason now).
Proof. unfold run_failed. disp_keeps. Qed.

Lemma run_send_keeps r desc n sid sr now : keeps disp_inv (run_send (V := V) stamp r desc n sid sr now).
Proof.
  intros d Hd. unfold run_send.
  assert (Hk := on_sess_keeps sid _ (dispatch_start_safe (rq_job_id r) (rq_attempt r) (dedupe_key r) (rq_capability r)
    (rq_parameters r) (job_deadline r desc) (output_limit r desc) MAX_PROGRESS_EVENTS_PER_JOB true sr) d Hd).
  destruct (on_sess sid _ d) as [[[]|[e|m|m| |]] d1]; simpl in *; try done.
  revert d1 Hk. apply keeps_bind; [apply run_failed_keeps|intros; by apply keeps_pure].
Qed.

Lemma run_finish_inv r desc i sid wake sr now (d : Disp) e d' :
  run_finish stamp r desc i sid wake sr now d = Some (e, d') → disp_inv d → disp_inv d'.
Proof.
  unfold run_finish. intros (s & Hs & (p & Hp & [= <- <-])%bind_Some)%bind_Some Hd.
  destruct p as [e w']. assert (Hi := dispatch_end_inv _ _ _ _ _ _ Hp). simpl in Hi.
  assert (w_store w' = rg_store (d_reg d)) as Hst.
  { unfold dispatch_end in Hp. by apply bind_Some in Hp as (? & _ & (? & _ & [= _ <-])%bind_Some). }
  set (d1 := mkDisp _ _ _ _).
  assert (disp_inv d1) as Hd1.
  { apply (on_sess_keeps sid (λ _, (Ok (), w')) ) in Hd as Hd1.
    - unfold on_sess in Hd1. rewrite Hs in Hd1. exact Hd1.
    - intros w _ Hm. simpl. split; [by eapply Hi, (di_objs _ Hd)|]. rewrite Hst. apply Hd. }
  clearbody d1. cbn [fst]. destruct e as [o|[reason|m|m| |]|]; try done;
    match goal with |- disp_inv (final (?m d1)) => assert (Hm : keeps disp_inv m);
      [unfold run_failed, run_cancelled; disp_keeps|by apply Hm] end.
Qed.

Lemma on_frame_keeps sid f now x : keeps disp_inv (on_frame (V := V) stamp sid f now x).
Proof. unfold on_frame. disp_keeps. Qed.

Lemma freeze_keeps actor reason now srs : keeps disp_inv (freeze (V := V) stamp actor reason now srs).
Proof. unfold freeze. disp_keeps. Qed.

Lemma terminate_keeps i actor reason srs : keeps disp_inv (terminate (V := V) stamp i actor reason srs).
Proof. unfold terminate. disp_keeps. Qed.

#[local] Hint Resolve terminate_keeps : disp.

Lemma revoke_node_keeps i actor reason now srs : keeps disp_inv (revoke_node (V := V) stamp i actor reason now srs).
Proof. unfold revoke_node. disp_keeps. Qed.

Lemma quarantine_node_keeps i actor reason now srs :
  keeps disp_inv (quarantine_node (V := V) stamp i actor reason now srs).
Proof. unfold quarantine_node. disp_keeps. Qed.

Lemma unfreeze_keeps actor e reason now : keeps disp_inv (unfreeze (V := V) stamp actor e reason now).
Proof. unfold unfreeze. disp_keeps. Qed.

(** ** Steps *)

(** One step of the control plane process: a connection opens, a session method
    runs, a part of [run_job], a frame, an operator's call, or another call on
    the registry. *)
Context (ed_key_ok : string → bool) (ed_sign : string → string → string)
        (ed_verify : string → string → string → bool).

Inductive disp_step : Disp → Disp → Prop :=
  | ds_open sid kid d : dget sid (d_objs d) = None →
      disp_step d (mkDisp (d_reg d) (dset sid (fresh_session sid kid) (d_objs d)) (d_sessions d) (d_jobs d))
  | ds_handshake sid pk nonce now r1 s1 r2 s2 cl d :
      disp_step d (final (on_sess sid (handshake stamp ed_key_ok ed_sign ed_verify pk nonce now r1 s1 r2 s2 cl) d))
  | ds_attach sid d : disp_step d (final (attach_session stamp sid d))
  | ds_detach sid d : disp_step d (final (detach_session sid d))
  | ds_frame sid f now x d : disp_step d (final (on_frame stamp sid f now x d))
  | ds_refuse sid reason sr d : disp_step d (final (on_sess sid (refuse stamp reason sr) d))
  | ds_shutdown sid reason d : disp_step d (final (on_sess sid (shutdown stamp reason) d))
  | ds_admit r now now' d : disp_step d (final (run_admit stamp cfg r now now' d))
  | ds_check r n d : disp_step d (final (run_check stamp r n d))
  | ds_record r desc n now d : disp_step d (final (run_record stamp r desc n now d))
  | ds_send r desc n sid sr now d : disp_step d (final (run_send stamp r desc n sid sr now d))
  | ds_finish r desc i sid wake sr now d e d' :
      run_finish stamp r desc i sid wake sr now d = Some (e, d') → disp_step d d'
  | ds_cancel j reason actor srs d : disp_step d (final (cancel_job stamp j reason actor srs d))
  | ds_freeze actor reason now srs d : disp_step d (final (freeze stamp actor reason now srs d))
  | ds_unfreeze actor e reason now d : disp_step d (final (unfreeze stamp actor e reason now d))
  | ds_revoke i actor reason now srs d : disp_step d (final (revoke_node stamp i actor reason now srs d))
  | ds_quarantine i actor reason now srs d : disp_step d (final (quarantine_node stamp i actor reason now srs d))
  | ds_registry s' d : mesh_step stamp ed_key_ok cfg (rg_store (d_reg d)) s' →
      disp_step d (mkDisp (mkReg s' (rg_approvals (d_reg d))) (d_objs d) (d_sessions d) (d_jobs d)).

Definition empty_disp (v : option V) : Disp := mkDisp (mkReg empty_store v) [] [] [].
Definition disp_reachable (d : Disp) : Prop := ∃ v, rtc disp_step (empty_disp v) d.

Lemma fresh_session_inv sid kid : session_inv (fresh_session sid kid).
Proof. split; simpl; [apply dict_wf_nil|unfold MAX_CONCURRENT_JOBS_PER_NODE; lia|done|done]. Qed.

Lemma disp_step_inv d d' : disp_step d d' → disp_inv d → disp_inv d'.
Proof.
  intros Hst Hd. destruct Hst.
  - destruct Hd. split; simpl; try done.
    + unfold owned, has_obj in *. simpl. eapply Forall_impl; [exact di_owned0|]. intros x [sx Hx]. simpl.
      rewrite dget_dset. case_decide; [by eexists|by rewrite Hx].
    + apply dall_dset; [apply fresh_session_inv|done].
  - by apply on_sess_keeps; [apply handshake_safe|].
  - by apply attach_session_keeps.
  - by apply detach_session_keeps.
  - by apply on_frame_keeps.
  - by apply on_sess_keeps; [apply refuse_safe|].
  - by apply on_sess_keeps; [apply shutdown_safe|].
  - by apply run_admit_keeps.
  - by apply run_check_keeps.
  - by apply run_record_keeps.
  - by apply run_send_keeps.
  - by eapply run_finish_inv.
  - by apply cancel_job_keeps.
  - by apply freeze_keeps.
  - by apply unfreeze_keeps.
  - by apply revoke_node_keeps.
  - by apply quarantine_node_keeps.
  - destruct Hd. split; simpl; try done. by eapply mesh_step_good.
Qed.

Lemma disp_reachable_inv d : disp_reachable d → disp_inv d.
Proof.
  intros (v & Hr). assert (disp_inv (empty_disp v)) as H1.
  { split; simpl; [apply empty_mesh_inv|by apply Forall_nil|done|apply dict_wf_nil|done]. }
  induction Hr; eauto using disp_step_inv.
Qed.
End Service.
