(* ===== verification/NodeDispatchProps.v ===== *)
(** The properties of the dispatch service over every history of its calls. *)

From S2P Require Import Prelude PyDict PyTime Json Sha256 Redaction NodeModels NodeScopes NodeAudit NodeStore.
From S2P Require Import NodeCrypto Authorization AuthorityRepository NodeApprovals NodeRegistry NodeRegistryFacts.
From S2P Require Import NodeRegistryProps NodeSession NodeSessionFacts NodeDispatch NodeDispatchFacts.

Open Scope Z_scope.

Section Props.
Context (stamp : nat → datetime * string) (cfg : Config).
Context {V : Type} `{ApprovalVerifierLaws V}.
Context (ed_key_ok : string → bool) (ed_sign : string → string → string)
        (ed_verify : string → string → string → bool).
Notation Disp := (Disp (V := V)).
Notation reachable := (disp_reachable (V := V) stamp cfg ed_key_ok ed_sign ed_verify).

Lemma service_inv d : reachable d → disp_inv d.
Proof. apply disp_reachable_inv, _. Qed.

(** ** Dispatch *)

Lemma upsert_run j (d : Disp) :
  on_mesh (upsert_job stamp j) d =
    (Ok (), mkDisp (mkReg (store_put_job j (rg_store (d_reg d))) (rg_approvals (d_reg d)))
              (d_objs d) (d_sessions d) (d_jobs d)).
Proof. unfold on_mesh, on_reg, on_store, upsert_job. rewrite transaction_atomic. by destruct d as [[] ? ? ?]. Qed.

(** What a passed admission established about the node. *)
Lemma run_admit_spec r now now' (d : Disp) desc n d' :
  mesh_inv (rg_store (d_reg d)) → run_admit stamp cfg r now now' d = (Ok (desc, n), d') →
  let st := rg_store (d_reg d) in
  require_dispatchable_capability (rq_capability r) = Ok desc ∧
  dget (n_node_id n) (s_nodes st) = Some n ∧ admitted cfg st n (rq_capability r) (rq_parameters r) now ∧
  (∀ i, rq_node_id r = Some i → n_node_id n = i) ∧
  (requires_approval (rq_capability r) = true →
   approved (rq_capability r) (n_node_id n) (rq_parameters r) (rq_approval r) now'
     (rg_approvals (d_reg d)) (rg_approvals (d_reg d'))) ∧
  rg_store (d_reg d') = st ∧ d_objs d' = d_objs d ∧ d_sessions d' = d_sessions d ∧ d_jobs d' = d_jobs d.
Proof.
  intros Hm. unfold run_admit. intros (desc' & d0 & [= Hd <-] & Hr)%bind_run_inv.
  apply bind_run_inv in Hr as (n' & d1 & Hs & [= <- <- <-]). unfold on_reg in Hs.
  destruct (select_node _ _ _ _ _ _ _ _ (d_reg d)) as [o g'] eqn:Es. simpl in Hs. injection Hs as -> <-. simpl.
  destruct (rq_node_id r) as [i|].
  - apply (assert_dispatchable_spec stamp cfg) in Es as (Hst & Hn & Had & Hap).
    assert (n_node_id n' = i) as <- by (eapply (sw_node_key _ (mi_wf _ Hm)); eauto).
    split_and!; try done; [by intros ? [= <-]|]. intros Hrq. by rewrite Hrq in Hap.
  - apply (select_node_admitted stamp ed_key_ok cfg) in Es as (Hst & Hn & Had & Hap).
    split_and!; try done. by apply values_by_id.
Qed.

Lemma run_check_spec r n (d : Disp) sid d' :
  run_check stamp r n d = (Ok sid, d') → d' = d ∧ session_for d (n_node_id n) = Some sid.
Proof.
  unfold run_check. erewrite bind_run_Ok by apply control_run. destruct (c_frozen _).
  { intros (? & ? & _ & ?)%bind_run_inv. done. }
  erewrite bind_run_Ok by done. destruct (session_for d (n_node_id n)); [by intros [= -> ->]|].
  intros (? & ? & _ & ?)%bind_run_inv. done.
Qed.

Lemma run_record_spec r desc n now (d : Disp) d' :
  run_record stamp r desc n now d = (Ok (), d') →
  let job := new_job r (n_node_id n) now in
  d_objs d' = d_objs d ∧ d_sessions d' = d_sessions d ∧ rg_approvals (d_reg d') = rg_approvals (d_reg d) ∧
  d_jobs d' = remembered job (d_jobs d) ∧
  s_jobs (rg_store (d_reg d')) = dset (rq_job_id r) job (s_jobs (rg_store (d_reg d))) ∧
  ∃ e, s_events (rg_store (d_reg d')) = s_events (rg_store (d_reg d)) ++ [e] ∧
    e_action e = AA_DISPATCH_ADMITTED ∧ e_decision e = AD_ALLOW ∧ e_node_id e = Some (n_node_id n) ∧
    e_job_id e = Some (rq_job_id r).
Proof.
  unfold run_record. intros (job & d0 & Hj & Hr)%bind_run_inv.
  unfold liftR, make_job in Hj. destruct (1 <=? _); [|done]. injection Hj as <- <-.
  unfold remember in Hr. erewrite bind_run_Ok in Hr.
  2: { erewrite bind_run_Ok by apply upsert_run. done. }
  rewrite audit_run in Hr. injection Hr as <-. simpl. split_and!; try done. eexists. by split.
Qed.

(** C2. A dispatched job was admitted. When [run_job] reaches the point where it
    waits for the node, the node passed every admission check (dispatch not
    frozen, granted, declared, in scope, online, neither revoked nor
    quarantined, approved where the capability requires it) and is the one the
    request named, if it named one; exactly one frame was written, to that node's
    live session, which was not already running the job, with the deadline and the output
    bound of the request or else of the capability; and the job record, its
    durable copy and the admission event are in place. *)
Theorem dispatch_sound r sr now now' at_ (d : Disp) n sid d' :
  reachable d → run_job stamp cfg r sr now now' at_ d = (Ok (n, sid), d') →
  let st := rg_store (d_reg d) in let st' := rg_store (d_reg d') in
  let job := new_job r (n_node_id n) at_ in
  dget (n_node_id n) (s_nodes st) = Some n ∧ admitted cfg st n (rq_capability r) (rq_parameters r) now ∧
  (∀ i, rq_node_id r = Some i → n_node_id n = i) ∧
  (requires_approval (rq_capability r) = true →
   approved (rq_capability r) (n_node_id n) (rq_parameters r) (rq_approval r) now'
     (rg_approvals (d_reg d)) (rg_approvals (d_reg d'))) ∧
  session_for d (n_node_id n) = Some sid ∧
  (∃ desc s s' p, require_dispatchable_capability (rq_capability r) = Ok desc ∧ dget sid (d_objs d) = Some s ∧ dget sid (d_objs d') = Some s' ∧
     dget (rq_job_id r) (ss_pending s) = None ∧ dget (rq_job_id r) (ss_pending s') = Some p ∧
     p_result p = None ∧ p_dedupe_key p = dedupe_key r ∧ p_deadline_seconds p = job_deadline r desc ∧ p_max_output_bytes p = output_limit r desc ∧
     ss_outbox s' = ss_outbox s ++ [JobDispatchFrame (rq_job_id r) (rq_attempt r) (dedupe_key r) (rq_capability r)
       (rq_parameters r) (p_deadline_seconds p) (p_max_output_bytes p) MAX_PROGRESS_EVENTS_PER_JOB]) ∧
  (∀ other, other ≠ sid → dget other (d_objs d') = dget other (d_objs d)) ∧
  dget (rq_job_id r) (d_jobs d') = Some job ∧ dget (rq_job_id r) (s_jobs st') = Some job ∧
  ∃ e, s_events st' = s_events st ++ [e] ∧ e_action e = AA_DISPATCH_ADMITTED ∧ e_decision e = AD_ALLOW ∧
    e_node_id e = Some (n_node_id n) ∧ e_job_id e = Some (rq_job_id r).
Proof.
  intros Hd%service_inv. unfold run_job. intros ([desc n0] & d1 & Ha & Hr)%bind_run_inv. simpl in Hr.
  apply bind_run_inv in Hr as (sid0 & d2 & Hc & Hr). apply bind_run_inv in Hr as ([] & d3 & Hrec & Hr).
  apply bind_run_inv in Hr as ([] & d4 & Hs & [= <- <- <-]).
  apply run_admit_spec in Ha as (Hdesc & Hn & Had & Hi & Hap & Hst & Ho & Hse & Hj); [|apply Hd].
  apply run_check_spec in Hc as [-> Hsf]. apply run_record_spec in Hrec as (Ho3 & Hse3 & Hap3 & Hj3 & Hjs3 & He3).
  assert (session_for d (n_node_id n0) = Some sid0) as Hsf0 by (unfold session_for in *; by rewrite Hse, Ho in Hsf).
  unfold run_send, on_sess in Hs. destruct (dget sid0 (d_objs d3)) as [s|] eqn:Es.
  2: { apply bind_run_inv in Hs as (? & ? & _ & ?). done. }
  rewrite Ho3, Ho in Es.
  destruct (dispatch_start_cases (rq_job_id r) (rq_attempt r) (dedupe_key r) (rq_capability r) (rq_parameters r) (job_deadline r desc) (output_limit r desc)
    MAX_PROGRESS_EVENTS_PER_JOB true sr (mkWorld s (rg_store (d_reg d3)))) as [(e & E)|(Eo & _ & Hnone & _ & Hok & E)].
  { rewrite E in Hs. simpl in Hs. destruct e; try done. apply bind_run_inv in Hs as (? & ? & _ & ?). done. }
  destruct (dispatch_start _ _ _ _ _ _ _ _ _ _ _) as [o w']. simpl in Eo, E, Hnone. subst o w'. injection Hs as <-. simpl.
  split_and!; try done.
  - rewrite Hap3. by intros ?; apply Hap.
  - exists desc, s. eexists _, (new_pending _ _ _ _ _ _ _ _). rewrite dget_dset_eq. split; [done|]. split; [done|]. split; [done|].
    split; [done|]. split; [simpl; by rewrite dget_dset_eq|done].
  - intros other Hne. by rewrite dget_dset_ne, Ho3, Ho.
  - rewrite Hj3, Hj, remembered_newest.
    destruct (evict_keeps (newest (new_job r (n_node_id n0) at_) (d_jobs d)) (rq_job_id r) (new_job r (n_node_id n0) at_))
      as [E|E]; [apply newest_wf, Hd|rewrite newest_get by apply Hd; by rewrite decide_True|exact E|done].
  - by rewrite Hjs3, dget_dset_eq.
  - by rewrite <- Hst.
Qed.

(** ** Stopping a node *)

Lemma run_job_refused r sr now now' at_ (d : Disp) :
  mesh_inv (rg_store (d_reg d)) →
  (∀ n, dget (n_node_id n) (s_nodes (rg_store (d_reg d))) = Some n →
        (∀ i, rq_node_id r = Some i → n_node_id n = i) →
        ¬ admitted cfg (rg_store (d_reg d)) n (rq_capability r) (rq_parameters r) now) →
  is_ok (outcome (run_job stamp cfg r sr now now' at_ d)) = false.
Proof.
  intros Hm Hno. destruct (run_job _ _ _ _ _ _ _ d) as [[[n sid]|] d'] eqn:E; [|done]. exfalso.
  unfold run_job in E. apply bind_run_inv in E as ([desc n0] & d1 & Ha & _).
  apply run_admit_spec in Ha as (_ & Hn & Had & Hi & _); [|done]. by eapply Hno.
Qed.

(** What is left of a session whose node was isolated. *)
Definition stopped (d : Disp) (s s' : Session) (i sid reason : string) (srs : string → SendResult) : Prop :=
  ss_closed s' = true ∧
  ∀ j p, dget j (ss_pending s) = Some p →
    (∃ p', dget j (ss_pending s') = Some p' ∧ is_some (p_result p') = true) ∧
    (j ∈ active_job_ids d (Some i) → srs sid = Sent → JobCancelFrame j (p_attempt p) reason ∈ ss_outbox s').

Lemma session_for_Some (d : Disp) i sid :
  session_for d i = Some sid ↔
  dget i (d_sessions d) = Some sid ∧ ∃ s, dget sid (d_objs d) = Some s ∧ ss_closed s = false.
Proof.
  unfold session_for. split.
  - intros (x & Hx & (s & Hs & Hc)%bind_Some)%bind_Some. destruct (ss_closed s) eqn:E; naive_solver.
  - intros (Hi & s & Hs & Hc). rewrite Hi. simpl. rewrite Hs. simpl. by rewrite Hc.
Qed.

Lemma fail_pending_resolved p : is_some (p_result (fail_pending p)) = true.
Proof. unfold fail_pending. destruct (p_result p) eqn:E; [simpl; by rewrite E|done]. Qed.

Lemma terminate_spec i actor reason srs (d : Disp) :
  disp_inv d → let p := terminate stamp i actor reason srs d in let d' := final p in
  outcome p = Ok () ∧ mesh_evolves (rg_store (d_reg d)) (rg_store (d_reg d')) ∧ session_for d' i = None ∧
  ∀ sid s, session_for d i = Some sid → dget sid (d_objs d) = Some s →
    ∃ s', dget sid (d_objs d') = Some s' ∧ stopped d s s' i sid reason srs.
Proof.
  intros Hd p d'. subst p d'. unfold terminate. erewrite bind_run_Ok by done.
  set (js := active_job_ids d (Some i)).
  assert (Ho := cancel_all_sent stamp js reason actor srs d).
  assert (Hok := cancel_all_ok stamp js reason actor srs d (di_owned _ Hd)).
  assert (Hd1 := cancel_all_keeps stamp js reason actor srs d Hd).
  assert (Hfr := cancel_all_frame stamp js reason actor srs d).
  destruct (od_mesh _ _ Ho (di_mesh _ Hd)) as [_ Hev].
  destruct (cancel_all stamp js reason actor srs d) as [o d1] eqn:E. simpl in Ho, Hok, Hd1, Hfr, Hev. subst o.
  erewrite bind_run_Ok by exact E. erewrite bind_run_Ok by done.
  destruct (session_for d1 i) as [sid|] eqn:Esf; simpl.
  - apply session_for_Some in Esf as (Hse & s1 & Hs1 & Hc1).
    unfold on_sess. rewrite Hs1. simpl.
    assert (Hst := shutdown_store stamp reason (mkWorld s1 (rg_store (d_reg d1))) Hc1).
    assert (Hrun := shutdown_run stamp reason (mkWorld s1 (rg_store (d_reg d1)))). simpl in Hst, Hrun. rewrite Hc1 in Hrun.
    assert (Hso := shutdown_ok stamp reason (mkWorld s1 (rg_store (d_reg d1))) (di_mesh _ Hd1)).
    destruct (shutdown stamp reason _) as [o [s2 st2]]. simpl in Hst, Hrun, Hso |- *. subst o s2 st2.
    split_and!; [done| | |].
    + eapply mesh_evolves_trans; [exact Hev|]. simpl. destruct (ss_node s1) as [n|]; [|apply mesh_evolves_refl].
      apply detach_session_good, Hd1.
    + unfold session_for. simpl. rewrite Hse. simpl. by rewrite dget_dset_eq.
    + intros sid' s (Hi' & s' & Hs' & Hc')%session_for_Some Hs. rewrite (od_sessions _ _ Ho) in Hse.
      assert (sid' = sid) as -> by congruence. clear s' Hs' Hc'. eexists. rewrite dget_dset_eq. split; [done|].
      destruct (od_objs _ _ Ho sid s Hs) as (s1' & Hs1' & Hos). assert (s1' = s1) as -> by congruence.
      split; [done|]. simpl. intros j pj Hpj. split.
      * rewrite dget_map, (os_pending _ _ Hos), Hpj. eexists. split; [done|apply fail_pending_resolved].
      * intros Hj Hsr. destruct (Hfr j sid s pj (di_owned _ Hd) Hj) as (s3 & Hs3 & Hin); try done.
        { by eapply dget_value. }
        by assert (s3 = s1) as -> by congruence.
  - split_and!; try done. intros sid s Hsf Hs. exfalso. apply session_for_Some in Hsf as (Hi & s0 & Hs0 & Hc).
    destruct (od_objs _ _ Ho sid s0 Hs0) as (s1 & Hs1 & Hos).
    assert (session_for d1 i = Some sid) as E1; [|congruence]. apply session_for_Some.
    rewrite (od_sessions _ _ Ho). split; [done|]. exists s1. by rewrite (os_closed _ _ Hos).
Qed.

Lemma registry_revoke_spec i actor reason now st n st' :
  mesh_inv st → NodeRegistry.revoke_node stamp i actor reason now st = (Ok n, st') →
  is_some (n_revoked_at n) = true ∧ dget i (s_nodes st') = Some n.
Proof.
  intros Hm. unfold NodeRegistry.revoke_node, lifecycle_change. rewrite transaction_atomic. unfold run_atomic. cbn.
  destruct (dget i (s_nodes st)) as [r|] eqn:E; cbn; [|done]. intros [= <- <-]. cbn.
  assert (n_node_id r = i) as -> by (eapply (sw_node_key _ (mi_wf _ Hm)); eauto). by rewrite dget_dset_eq.
Qed.

(** C15. Revoking a node stops it. Once the service has revoked a node, the record
    is revoked, the node has no live session, the session it had is closed with
    every waiting job answered and a cancel frame sent first for each of its
    running jobs the channel still took, and no later request for that node is
    dispatched. *)
Theorem revoke_stops_node i actor reason now srs (d : Disp) n d' :
  reachable d → revoke_node stamp i actor reason now srs d = (Ok n, d') →
  is_some (n_revoked_at n) = true ∧ session_for d' i = None ∧
  (∀ sid s, session_for d i = Some sid → dget sid (d_objs d) = Some s →
     ∃ s', dget sid (d_objs d') = Some s' ∧ stopped d s s' i sid (reason_value NODE_REVOKED) srs) ∧
  (∀ r sr t t' t'', rq_node_id r = Some i → is_ok (outcome (run_job stamp cfg r sr t t' t'' d')) = false).
Proof.
  intros Hd%service_inv. unfold revoke_node. intros (n0 & d1 & Hr & Ht)%bind_run_inv.
  unfold on_mesh, on_reg, on_store in Hr.
  assert (Hgood := revoke_good stamp i actor reason now (rg_store (d_reg d)) (di_mesh _ Hd)).
  destruct (NodeRegistry.revoke_node stamp i actor reason now (rg_store (d_reg d))) as [o st1] eqn:E.
  simpl in Hr, Hgood. injection Hr as -> <-.
  apply registry_revoke_spec in E as [Hrv Hn]; [|apply Hd].
  set (d1 := mkDisp _ _ _ _) in Ht.
  assert (Hd1 : disp_inv d1) by (destruct Hd, Hgood; by split).
  destruct (terminate_spec i actor (reason_value NODE_REVOKED) srs d1 Hd1) as (Ho & Hev & Hsf & Hst).
  assert (Hd2 := terminate_keeps stamp i actor (reason_value NODE_REVOKED) srs d1 Hd1).
  destruct (terminate _ _ _ _ _ d1) as [o d2] eqn:Et. simpl in Ho, Hev, Hsf, Hst, Hd2. subst o.
  erewrite bind_run_Ok in Ht by exact Et. injection Ht as <- <-.
  split; [done|]. split; [done|]. split; [exact Hst|].
  intros r sr t t' t'' Hreq. apply run_job_refused; [apply Hd2|]. intros m Hm Hi Had.
  destruct (me_nodes _ _ Hev i n0 Hn) as (n2 & Hn2 & Hne).
  rewrite (Hi i Hreq) in Hm. assert (m = n2) as -> by congruence.
  destruct (n_revoked_at n0) as [t0|] eqn:E0; [|done].
  assert (H2 := ne_revoked _ _ Hne _ E0). by rewrite (ad_revoked _ _ _ _ _ _ Had) in H2.
Qed.

(** In a frozen mesh no request is admitted, and none that was admitted before the
    freeze gets past the second look at the switch. *)
Definition refuses_jobs (d : Disp) : Prop :=
  (∀ r now now', is_ok (outcome (run_admit stamp cfg r now now' d)) = false) ∧
  (∀ r n, is_ok (outcome (run_check stamp r n d)) = false) ∧
  (∀ r sr now now' at_, is_ok (outcome (run_job stamp cfg r sr now now' at_ d)) = false).

Lemma frozen_refuses (d : Disp) : disp_inv d → c_frozen (s_control (rg_store (d_reg d))) = true → refuses_jobs d.
Proof.
  intros Hd Hf. assert (Ha : ∀ r now now', is_ok (outcome (run_admit stamp cfg r now now' d)) = false).
  { intros r now now'. destruct (run_admit _ _ r now now' d) as [[[desc n]|e] d1] eqn:E; [exfalso|done].
    apply run_admit_spec in E as (_ & _ & Had & _); [|apply Hd]. by rewrite (ad_thawed _ _ _ _ _ _ Had) in Hf. }
  split_and!; [exact Ha| |].
  - intros r n. unfold run_check. erewrite bind_run_Ok by apply control_run. rewrite Hf.
    unfold refuse_job. erewrite bind_run_Ok by apply audit_run. done.
  - intros r sr now now' at_. specialize (Ha r now now'). unfold run_job.
    destruct (run_admit _ _ r now now' d) as [[p|e] d1] eqn:E; [done|]. by erewrite bind_run_Err by exact E.
Qed.

(** C16. Freezing reaches the jobs in flight and stops what comes later. After the
    operator's freeze the mesh is frozen, and every session the service owns has
    been sent a cancel frame for each job that waits on it and is recorded as
    running, where its channel takes the frame. From then on, in every later state
    in which dispatch is still frozen, no request is admitted and no request that
    had been admitted passes the second check. A dispatch that was already past
    that check when the freeze landed is not covered: [freeze_can_miss_a_dispatch]
    shows that it can still be sent. *)
Theorem freeze_reaches_jobs actor reason now srs (d : Disp) :
  reachable d →
  let p := freeze stamp actor reason now srs d in let d' := final p in
  (∃ c, outcome p = Ok c ∧ c_frozen c = true) ∧ c_frozen (s_control (rg_store (d_reg d'))) = true ∧
  (∀ sid s j pj, sid ∈ dvalues (d_sessions d) → dget sid (d_objs d) = Some s → dget j (ss_pending s) = Some pj →
     j ∈ active_job_ids d None → srs sid = Sent →
     cancel_sent d' sid j (reason_value DISPATCH_FROZEN) (p_attempt pj)) ∧
  (∀ d'', rtc (disp_step stamp cfg ed_key_ok ed_sign ed_verify) d' d'' →
     c_frozen (s_control (rg_store (d_reg d''))) = true → refuses_jobs d'').
Proof.
  intros Hd%service_inv. simpl. assert (Hd' := freeze_keeps stamp actor reason now srs d Hd).
  revert Hd'. unfold freeze, on_mesh, on_reg, on_store.
  assert (Hf : ∃ c st1, freeze_dispatch stamp actor reason now (rg_store (d_reg d)) = (Ok c, st1) ∧
    c_frozen c = true ∧ s_control st1 = c).
  { rewrite freeze_run. destruct (c_frozen (s_control _)) eqn:Ef; eauto 10. }
  destruct Hf as (c & st1 & Hf & Hc & Hc1).
  erewrite bind_run_Ok by (by rewrite Hf). erewrite bind_run_Ok by done. cbn [fst snd].
  set (d1 := mkDisp _ _ _ _). set (js := active_job_ids d1 None).
  assert (Hw : owned d1) by apply (di_owned _ Hd).
  assert (Hok := cancel_all_ok stamp js (reason_value DISPATCH_FROZEN) actor srs d1 Hw).
  assert (Ho := cancel_all_sent stamp js (reason_value DISPATCH_FROZEN) actor srs d1).
  assert (Hfr := cancel_all_frame stamp js (reason_value DISPATCH_FROZEN) actor srs d1).
  destruct (cancel_all _ js _ _ _ d1) as [o d2] eqn:E. simpl in Hok, Ho, Hfr. subst o.
  erewrite bind_run_Ok by exact E. simpl. intros Hd'.
  assert (Hfz : c_frozen (s_control (rg_store (d_reg d2))) = true) by (rewrite (od_control _ _ Ho); simpl; congruence).
  split_and!; [by eauto|done| |].
  - intros sid s j pj Hin Hs Hpj Hj Hsr. by apply (Hfr j sid s pj).
  - intros d'' Hr. apply frozen_refuses. clear -Hr Hd' H0. induction Hr; eauto using disp_step_inv.
Qed.

(** ** The selection activity *)

(** The node-selection activity can place no file job. It passes neither the
    parameters nor the approval of the request to the registry, so for every
    capability that needs a scope it fails, in every state of the mesh, whatever
    the request carries; the same request given to [run_job] directly may well be
    dispatched. *)
Theorem select_activity_refuses_scoped r now now' (d : Disp) :
  reachable d → requires_scope (rq_capability r) = true →
  is_ok (activity_select_node stamp cfg r now now' d).1 = false.
Proof.
  intros Hd%service_inv Hr. unfold activity_select_node, on_reg. simpl.
  destruct (select_node _ _ _ _ _ _ _ _ _) as [[n|e] g'] eqn:E; [exfalso|done].
  assert (admitted cfg (rg_store (d_reg d)) n (rq_capability r) [] now) as Had.
  { destruct (rq_node_id r) as [i|].
    - by apply (assert_dispatchable_spec stamp cfg) in E as (_ & _ & ? & _).
    - by apply (select_node_admitted stamp ed_key_ok cfg) in E as (_ & _ & ? & _). }
  destruct (ad_scope _ _ _ _ _ _ Had Hr) as (? & ? & ? & ? & _ & _ & Hp & _). done.
Qed.
End Props.

(** * The dispatch service on a concrete mesh: the workstation connects and is given file reads. Two histories show where the service falls short of what its comments promise *)

From S2P Require Import JsonParse.
From S2P Require Import NodeRegistryExamples.

#[local] Instance service_verifier : ApprovalVerifier Verifier := node_verifier toy_verify.
#[local] Instance service_verifier_laws : ApprovalVerifierLaws Verifier := node_verifier_laws toy_verify.

Definition demo_approvals : option Verifier := Some (mkVerifier [("commander", "k1")] ∅).
Definition service0 : Disp (V := Verifier) := mkDisp (mkReg mesh2 demo_approvals) [] [] [].
Definition service1 : Disp (V := Verifier) := mkDisp (mkReg mesh2 demo_approvals) [("nsx-1", fresh_session "nsx-1" "key-1")] [] [].
Definition service2 : Disp (V := Verifier) := Eval vm_compute in final (on_sess "nsx-1" (demo_handshake Sent Sent) service1).
Definition service : Disp (V := Verifier) := Eval vm_compute in final (attach_session demo_stamp "nsx-1" service2).

Notation service_step := (disp_step (V := Verifier) demo_stamp demo_cfg any_key toy_sign toy_check).
Notation service_reachable := (disp_reachable (V := Verifier) demo_stamp demo_cfg any_key toy_sign toy_check).

Lemma service_r d d' : service_reachable d → service_step d d' → service_reachable d'.
Proof. intros [v Hr] Hs. exists v. by eapply rtc_r. Qed.

Lemma registry_rtc (v : option Verifier) s s' : mesh_steps demo_stamp any_key demo_cfg s s' →
  rtc service_step (mkDisp (mkReg s v) [] [] []) (mkDisp (mkReg s' v) [] [] []).
Proof.
  induction 1 as [|s1 s2 s3 Hst _ IH]; [apply rtc_refl|]. eapply rtc_l; [|exact IH].
  exact (ds_registry demo_stamp demo_cfg any_key toy_sign toy_check s2 (mkDisp (mkReg s1 v) [] [] []) Hst).
Qed.

Lemma service_ok : service_reachable service.
Proof.
  assert (service = final (attach_session demo_stamp "nsx-1" service2)) as -> by (vm_compute; reflexivity).
  eapply service_r; [|apply ds_attach].
  assert (service2 = final (on_sess "nsx-1" (demo_handshake Sent Sent) service1)) as -> by (vm_compute; reflexivity).
  eapply service_r; [|apply ds_handshake]. apply (service_r service0); [|by apply (ds_open _ _ _ _ _ "nsx-1" "key-1" service0)].
  exists demo_approvals. apply registry_rtc, mesh2_reachable.
Qed.

Definition demo_authority : DispatchAuthority := mkAuthority "commander" "lease-1" None.
Definition read_params : obj := [("path", JStr "/srv/data/a.txt")].
Definition read_request (job : string) : NodeJobRequest :=
  mkRequest job "fs.read@1" demo_authority read_params (Some "node-u1") None 1 None None.
Definition run_demo (job : string) : Disp → result exn (NodeRecord * string) * Disp :=
  run_job demo_stamp demo_cfg (read_request job) Sent (seconds 40) (seconds 40) (seconds 41).
Definition running : Disp (V := Verifier) := Eval vm_compute in final (run_demo "j1" service).

Lemma running_ok : service_reachable running.
Proof.
  assert (∃ desc n sid d1 d2 d3,
    run_admit demo_stamp demo_cfg (read_request "j1") (seconds 40) (seconds 40) service = (Ok (desc, n), d1) ∧
    run_check demo_stamp (read_request "j1") n d1 = (Ok sid, d2) ∧
    run_record demo_stamp (read_request "j1") desc n (seconds 41) d2 = (Ok (), d3) ∧
    run_send demo_stamp (read_request "j1") desc n sid Sent (seconds 41) d3 = (Ok (), running))
    as (desc & n & sid & d1 & d2 & d3 & E1 & E2 & E3 & E4).
  { eexists _, _, _, _, _, _. repeat (split; [vm_compute; reflexivity|]). vm_compute. reflexivity. }
  assert (running = final (run_send demo_stamp (read_request "j1") desc n sid Sent (seconds 41) d3)) as -> by (by rewrite E4).
  eapply service_r; [|apply ds_send].
  assert (d3 = final (run_record demo_stamp (read_request "j1") desc n (seconds 41) d2)) as -> by (by rewrite E3).
  eapply service_r; [|apply ds_record].
  assert (d2 = final (run_check demo_stamp (read_request "j1") n d1)) as -> by (by rewrite E2).
  eapply service_r; [|apply ds_check].
  assert (d1 = final (run_admit demo_stamp demo_cfg (read_request "j1") (seconds 40) (seconds 40) service)) as ->
    by (by rewrite E1).
  eapply service_r; [apply service_ok|apply ds_admit].
Qed.

Lemma dispatch_sound_witness :
  ∃ n sid d', run_demo "j1" service = (Ok (n, sid), d') ∧ n_node_id n = "node-u1" ∧
    dget "j1" (d_jobs d') = Some (new_job (read_request "j1") "node-u1" (seconds 41)).
Proof.
  assert (∃ n sid d', run_demo "j1" service = (Ok (n, sid), d')) as (n & sid & d' & E)
    by (eexists _, _, _; vm_compute; reflexivity).
  exists n, sid, d'. split; [exact E|].
  destruct (dispatch_sound demo_stamp demo_cfg any_key toy_sign toy_check _ _ _ _ _ service n sid d' service_ok E)
    as (_ & _ & Hi & _ & _ & _ & _ & Hj & _).
  assert (n_node_id n = "node-u1") as Hn by (apply Hi; reflexivity).
  split; [exact Hn|]. rewrite <- Hn. exact Hj.
Defined.

Lemma job_retention_witness :
  dget "j2" (remembered (new_job (read_request "j2") "node-u1" (seconds 50)) (d_jobs running))
    = Some (new_job (read_request "j2") "node-u1" (seconds 50)) ∧
  dmem "j1" (remembered (new_job (read_request "j2") "node-u1" (seconds 50)) (d_jobs running)) = true.
Proof.
  split; [|reflexivity].
  refine (proj1 (job_retention (new_job (read_request "j2") "node-u1" (seconds 50)) (d_jobs running) _ eq_refl)).
  apply (di_jobs_wf running), (disp_reachable_inv _ _ _ _ _ _ running_ok).
Defined.

Lemma revoke_stops_node_witness :
  ∃ n d', revoke_node demo_stamp "node-u1" "op" "stolen" (seconds 50) (λ _, Sent) running = (Ok n, d') ∧
    session_for d' "node-u1" = None.
Proof.
  assert (∃ n d', revoke_node demo_stamp "node-u1" "op" "stolen" (seconds 50) (λ _, Sent) running = (Ok n, d'))
    as (n & d' & E) by (eexists _, _; vm_compute; reflexivity).
  exists n, d'. split; [exact E|].
  exact (proj1 (proj2 (revoke_stops_node demo_stamp demo_cfg any_key toy_sign toy_check _ _ _ _ _ running n d' running_ok E))).
Defined.

Lemma freeze_reaches_jobs_witness :
  cancel_sent (final (freeze demo_stamp "op" "drill" (seconds 50) (λ _, Sent) running)) "nsx-1" "j1"
    (reason_value DISPATCH_FROZEN) 1.
Proof.
  destruct (freeze_reaches_jobs demo_stamp demo_cfg any_key toy_sign toy_check "op" "drill" (seconds 50) (λ _, Sent) running
    running_ok) as (_ & _ & H & _).
  assert (∃ s p, dget "nsx-1" (d_objs running) = Some s ∧ dget "j1" (ss_pending s) = Some p ∧ p_attempt p = 1)
    as (s & p & Hs & Hp & Ha) by (eexists _, _; split_and!; vm_compute; reflexivity).
  rewrite <- Ha. refine (H "nsx-1" s "j1" p _ Hs Hp _ eq_refl); vm_compute; left.
Defined.

Lemma select_activity_refuses_scoped_witness :
  is_ok (activity_select_node demo_stamp demo_cfg (read_request "j1") (seconds 40) (seconds 40) service).1 = false ∧
  is_ok (outcome (run_demo "j1" service)) = true.
Proof.
  split; [|vm_compute; reflexivity].
  exact (select_activity_refuses_scoped demo_stamp demo_cfg any_key toy_sign toy_check (read_request "j1") _ _ service
    service_ok eq_refl).
Defined.

(** A freeze can land between the second kill-switch check and the frame. The
    service checks the switch, then writes the job record and an audit event,
    then sends: in the history below the operator's freeze completes in between,
    finds nothing to cancel, and the job is sent to the node of a frozen mesh,
    with no cancel frame before or after it. *)
Theorem freeze_can_miss_a_dispatch :
  ∃ d desc n sid d1 d2 d3 d4 d5 s,
    service_reachable d ∧
    run_admit demo_stamp demo_cfg (read_request "j1") (seconds 40) (seconds 40) d = (Ok (desc, n), d1) ∧
    run_check demo_stamp (read_request "j1") n d1 = (Ok sid, d2) ∧
    d3 = final (freeze demo_stamp "op" "drill" (seconds 41) (λ _, Sent) d2) ∧
    c_frozen (s_control (rg_store (d_reg d3))) = true ∧
    run_record demo_stamp (read_request "j1") desc n (seconds 41) d3 = (Ok (), d4) ∧
    run_send demo_stamp (read_request "j1") desc n sid Sent (seconds 41) d4 = (Ok (), d5) ∧
    c_frozen (s_control (rg_store (d_reg d5))) = true ∧
    dget sid (d_objs d5) = Some s ∧
    JobDispatchFrame "j1" 1 (dedupe_key (read_request "j1")) "fs.read@1" (rq_parameters (read_request "j1"))
      (job_deadline (read_request "j1") desc) (output_limit (read_request "j1") desc) MAX_PROGRESS_EVENTS_PER_JOB ∈ ss_outbox s ∧
    Forall (λ f, match f with JobCancelFrame _ _ _ => False | _ => True end) (ss_outbox s).
Proof.
  exists service. eexists _, _, _, _, _, _, _, _, _. split; [apply service_ok|].
  repeat (split; [vm_compute; reflexivity|]). split; [|vm_compute; repeat constructor].
  vm_compute. repeat first [by left|right].
Qed.

(** Submitting a job id twice hides the running job. The second submission is
    refused as a duplicate, but it has already replaced the job's record and then
    marks it failed, so the job that is still running on the node is no longer
    active for the service, and a freeze does not cancel it. *)
Theorem duplicate_hides_running_job :
  ∃ d d' s s', service_reachable d ∧
    active_job_ids d None = ["j1"] ∧
    run_demo "j1" d = (Err (NodeMeshError DISPATCH_DUPLICATE), d') ∧
    dget "nsx-1" (d_objs d') = Some s ∧ dmem "j1" (ss_pending s) = true ∧ ss_closed s = false ∧
    active_job_ids d' None = [] ∧
    dget "nsx-1" (d_objs (final (freeze demo_stamp "op" "drill" (seconds 50) (λ _, Sent) d'))) = Some s' ∧
    Forall (λ f, match f with JobCancelFrame _ _ _ => False | _ => True end) (ss_outbox s').
Proof.
  exists running. eexists _, _, _. split; [apply running_ok|].
  repeat (split; [vm_compute; reflexivity|]). vm_compute. repeat constructor.
Qed.
