(* ===== verification/NodeAgent.v ===== *)
(** The agent on a node (src/olympus/node_agent/agent.py): the result ledger, the
    handshake from the node's side, and the life of a job.

    The agent is one state that frames, tasks and the connection act on, one step
    at a time; a job's task is cut at its one wait, the call of its provider. How
    the provider ended, whether the ledger file could be written, the clock and
    the nonce are arguments. Frames are encoded and validated by pydantic: the
    JSON form of a result and the size bound of a frame are parameters. *)

From S2P Require Import Prelude PyDict PyTime Json Sha256 Redaction NodeModels NodeScopes NodeAudit NodeCrypto.
From S2P Require Import NodeRegistry AgentFiles NodeSession.
From Stdlib Require Import Ascii.

Open Scope Z_scope.

Definition LEDGER_CAPACITY : nat := 64.
Definition OUTBOX_CAPACITY : nat := 256.
Definition LEDGER_VERSION : Z := 1.
Definition MAX_ARTIFACT_BYTES : Z := 196608.

(** ** Identity *)

Record AgentIdentity := mkIdentity {
  ai_node_id : string;
  ai_node_name : string;
  ai_private_key : string;
  ai_control_plane_public_key : string;
  ai_control_plane_key_id : string;
  ai_agent_version : string }.

(** [AgentIdentity.__post_init__] *)
Definition make_identity (i : AgentIdentity) : result exn AgentIdentity :=
  ensure (negb (is_blank (ai_node_id i))) (ValueError "agent identity requires node_id");;
  ensure (negb (is_blank (ai_private_key i))) (ValueError "agent identity requires private_key");;
  ensure (negb (is_blank (ai_control_plane_public_key i)))
    (ValueError "agent identity requires control_plane_public_key");;
  Ok i.

(** ** The result ledger *)

Record Ledger := mkLedger {
  lg_capacity : nat;
  lg_path : bool;
  lg_node_id : string;
  lg_entries : dict string JobResultFrame }.

Definition with_entries (l : Ledger) (e : dict string JobResultFrame) : Ledger :=
  mkLedger (lg_capacity l) (lg_path l) (lg_node_id l) e.

(** [while len(self._entries) > self._capacity: self._entries.popitem(last=False)] *)
Fixpoint trim (capacity : nat) (e : dict string JobResultFrame) : dict string JobResultFrame :=
  match e with
  | [] => []
  | kv :: e' => if (capacity <? length e)%nat then trim capacity e' else e
  end.

(** [_ResultLedger.get] *)
Definition ledger_get (dedupe_key : string) (l : Ledger) : option JobResultFrame * Ledger :=
  match dget dedupe_key (lg_entries l) with
  | None => (None, l)
  | Some f => (Some f, with_entries l (move_to_end dedupe_key (lg_entries l)))
  end.

(** [_ResultLedger.put], before it persists *)
Definition ledger_put (dedupe_key : string) (f : JobResultFrame) (l : Ledger) : Ledger :=
  with_entries l (trim (lg_capacity l) (move_to_end dedupe_key (dset dedupe_key f (lg_entries l)))).

Section Ledger.
(** [JobResultFrame.model_dump(mode="json")] and [JobResultFrame.model_validate]. *)
Context (dump_frame : JobResultFrame → json) (validate_frame : json → option JobResultFrame).

(** The payload [_persist] writes. *)
Definition ledger_json (l : Ledger) : json :=
  JObj [("version", JInt LEDGER_VERSION); ("node_id", JStr (lg_node_id l));
        ("entries", JList (map (λ kf, JObj [("dedupe_key", JStr kf.1); ("result", dump_frame kf.2)]) (lg_entries l)))].

(** [_persist]: the file is replaced when the ledger has one. *)
Definition persist (l : Ledger) (disk : option json) : option json :=
  if lg_path l then Some (ledger_json l) else disk.

Definition version_ok (v : json) : bool :=
  match v with JInt z => z =? LEDGER_VERSION | JBool b => b | _ => false end.

(** The entries [_load] accepts. *)
Fixpoint load_entries (items : list json) (acc : dict string JobResultFrame) : option (dict string JobResultFrame) :=
  match items with
  | [] => Some acc
  | JObj item :: items' =>
      if negb (keys_are ["dedupe_key"; "result"] item) then None else
      match dget "dedupe_key" item, dget "result" item with
      | Some k, Some r =>
          f ← validate_frame r;
          match k with
          | JStr key =>
              if negb (bool_decide (key = rf_dedupe_key f)) then None
              else if dmem key acc then None
              else load_entries items' (dset key f acc)
          | _ => None
          end
      | _, _ => None
      end
  | _ :: _ => None
  end.

(** [_load]: [None] is the [RuntimeError] that refuses an unreadable ledger. *)
Definition load (l : Ledger) (raw : json) : option (Ledger * option json) :=
  match raw with
  | JObj o =>
      if negb (keys_are ["version"; "node_id"; "entries"] o) then None else
      match dget "version" o, dget "node_id" o, dget "entries" o with
      | Some v, Some i, Some (JList items) =>
          if negb (version_ok v) then None else
          match i with
          | JStr node_id =>
              if negb (bool_decide (node_id = lg_node_id l)) then Some (l, persist l (Some raw))
              else e ← load_entries items []; Some (with_entries l (trim (lg_capacity l) e), Some raw)
          | _ => None
          end
      | _, _, _ => None
      end
  | _ => None
  end.

(** [_ResultLedger.__init__] *)
Definition open_ledger (capacity : nat) (path : bool) (node_id : string) (disk : option json) :
    option (Ledger * option json) :=
  let l := mkLedger capacity path node_id [] in
  match path, disk with
  | true, Some raw => load l raw
  | _, _ => Some (l, disk)
  end.
End Ledger.

(** ** Providers *)

(** The built-in providers; a provider other than the file ones is a name. *)
Inductive Provider :=
  | OtherProvider (name : string)
  | FileReadProvider (scope : FileReadScope)
  | FileListProvider (scope : FileReadScope)
  | FileWriteProvider (scope : FileWriteScope).

(** One step of [_install_scoped_providers]: the old provider goes, and a new one
    comes only for a granted capability with a non-empty, well-formed scope. *)
Definition install {A} (capability : string) (parse : obj → result exn A) (wrap : A → Provider)
    (granted : list string) (scopes : dict string obj) (providers : dict string Provider) : dict string Provider :=
  let without := ddel capability providers in
  match dget capability scopes with
  | Some ((_ :: _) as scope) =>
      if bool_decide (capability ∈ granted) then
        match parse scope with Ok s => dset capability (wrap s) without | Err _ => without end
      else without
  | _ => without
  end.

Definition install_scoped_providers (platform : NodePlatform) (granted : list string) (scopes : dict string obj)
    (providers : dict string Provider) : dict string Provider :=
  let p1 := install FILE_READ (λ o, read_from_mapping o platform) FileReadProvider granted scopes providers in
  let p2 := install FILE_LIST (λ o, read_from_mapping o platform) FileListProvider granted scopes p1 in
  install FILE_WRITE (λ o, write_from_mapping o platform) FileWriteProvider granted scopes p2.

(** ** The agent *)

(** The task of a job: created, inside its provider, or over without having
    answered. *)
Inductive TaskState := NotStarted | Executing | Ended.

(** A dispatch frame, field by field. *)
Record Dispatch := mkDispatch {
  df_job_id : string;
  df_attempt : Z;
  df_dedupe_key : string;
  df_capability : string;
  df_parameters : obj;
  df_deadline_seconds : Z;
  df_max_output_bytes : Z;
  df_max_progress_events : Z }.

(** [_RunningJob] with the frame its task holds. *)
Record RunningJob := mkRunning {
  rj_frame : Dispatch;
  rj_task : TaskState;
  rj_emitted : Z;
  rj_waiters : list (string * Z) }.

Definition with_task (j : RunningJob) (t : TaskState) : RunningJob := mkRunning (rj_frame j) t (rj_emitted j) (rj_waiters j).
Definition add_waiter (j : RunningJob) (w : string * Z) : RunningJob :=
  mkRunning (rj_frame j) (rj_task j) (rj_emitted j) (rj_waiters j ++ [w]).
Definition with_emitted (j : RunningJob) (n : Z) : RunningJob := mkRunning (rj_frame j) (rj_task j) n (rj_waiters j).

(** [NodeAgent], with the file of its ledger. *)
Record Agent := mkAgent {
  ag_identity : AgentIdentity;
  ag_platform : NodePlatform;
  ag_architecture : string;
  ag_serves : list string;
  ag_providers : dict string Provider;
  ag_ledger : Ledger;
  ag_disk : option json;
  ag_running : dict string RunningJob;
  ag_jobs_by_id : dict string string;
  ag_outbox : list ClientFrame;
  ag_stop : bool;
  ag_heartbeats : Z;
  ag_granted : list string;
  ag_scopes : dict string obj }.

Definition set_ledger (l : Ledger) (disk : option json) (a : Agent) : Agent :=
  mkAgent (ag_identity a) (ag_platform a) (ag_architecture a) (ag_serves a) (ag_providers a) l disk (ag_running a)
    (ag_jobs_by_id a) (ag_outbox a) (ag_stop a) (ag_heartbeats a) (ag_granted a) (ag_scopes a).
Definition set_running (r : dict string RunningJob) (byid : dict string string) (a : Agent) : Agent :=
  mkAgent (ag_identity a) (ag_platform a) (ag_architecture a) (ag_serves a) (ag_providers a) (ag_ledger a) (ag_disk a) r
    byid (ag_outbox a) (ag_stop a) (ag_heartbeats a) (ag_granted a) (ag_scopes a).
Definition set_outbox (o : list ClientFrame) (a : Agent) : Agent :=
  mkAgent (ag_identity a) (ag_platform a) (ag_architecture a) (ag_serves a) (ag_providers a) (ag_ledger a) (ag_disk a)
    (ag_running a) (ag_jobs_by_id a) o (ag_stop a) (ag_heartbeats a) (ag_granted a) (ag_scopes a).
Definition set_stop (b : bool) (a : Agent) : Agent :=
  mkAgent (ag_identity a) (ag_platform a) (ag_architecture a) (ag_serves a) (ag_providers a) (ag_ledger a) (ag_disk a)
    (ag_running a) (ag_jobs_by_id a) (ag_outbox a) b (ag_heartbeats a) (ag_granted a) (ag_scopes a).
Definition set_heartbeats (n : Z) (a : Agent) : Agent :=
  mkAgent (ag_identity a) (ag_platform a) (ag_architecture a) (ag_serves a) (ag_providers a) (ag_ledger a) (ag_disk a)
    (ag_running a) (ag_jobs_by_id a) (ag_outbox a) (ag_stop a) n (ag_granted a) (ag_scopes a).
Definition set_session (granted : list string) (scopes : dict string obj) (providers : dict string Provider) (a : Agent) : Agent :=
  mkAgent (ag_identity a) (ag_platform a) (ag_architecture a) (ag_serves a) providers (ag_ledger a) (ag_disk a)
    (ag_running a) (ag_jobs_by_id a) (ag_outbox a) (ag_stop a) (ag_heartbeats a) granted scopes.

(** [declared_capabilities] *)
Definition declared_capabilities (a : Agent) : list string := sorted_set (dkeys (ag_providers a) ++ ag_serves a).
Definition agent_active_jobs (a : Agent) : Z := Z.of_nat (length (ag_running a)).

(** [copy(update={...})] of a recorded result *)
Definition result_for (f : JobResultFrame) (job_id : string) (attempt : Z) (replayed : bool) : JobResultFrame :=
  mkResult job_id attempt (rf_dedupe_key f) (rf_status f) (rf_output f) (rf_output_truncated f) (rf_output_redacted f)
    (rf_artifact_ids f) (rf_reason f) (rf_message f) (rf_started_at f) (rf_finished_at f) replayed.

(** [_result_frame], for a refusal *)
Definition refusal_frame (d : Dispatch) (reason message now : string) : JobResultFrame :=
  mkResult (df_job_id d) (df_attempt d) (df_dedupe_key d) REJECTED (JObj []) false false [] reason message now now false.

(** [CapabilityArtifact] *)
Record CapabilityArtifact := mkArtifact { ca_id : string; ca_kind : string; ca_media_type : string; ca_data : string }.

(** [Identifier] and [ShortText] of protocol.py *)
Definition identifier_start (c : ascii) : bool :=
  let n := ord c in ((48 <=? n) && (n <=? 57) || (65 <=? n) && (n <=? 90) || (97 <=? n) && (n <=? 122))%nat.
Definition identifier_char (c : ascii) : bool := identifier_start c || bool_decide (c ∈ [".";"_";":";"-"]%char).
Definition identifier_ok (s : string) : bool :=
  match strip s with String c s => identifier_start c && all_chars identifier_char s && (String.length s <=? 127)%nat | EmptyString => false end.
Definition fits_short_text (s : string) : bool := str_len s <=? 512.

(** How [provider.execute] ended; a returned result comes with its message and
    artifacts. *)
Inductive ProviderEnd :=
  | Returned (r : CapabilityResult) (message : string) (artifacts : list CapabilityArtifact)
  | TimedOut
  | WasCancelled
  | Raised (text : string).

Definition result_status (s : string) : NodeJobStatus :=
  if bool_decide (s = "succeeded") then SUCCEEDED else if bool_decide (s = "cancelled") then CANCELLED
  else if bool_decide (s = "rejected") then REJECTED else FAILED.

(** [base64.b64encode]: the urlsafe encoding with its two letters exchanged. *)
Fixpoint standard_alphabet (s : string) : string :=
  match s with
  | EmptyString => EmptyString
  | String c s' =>
      String (if Ascii.eqb c "-" then "+"%char else if Ascii.eqb c "_" then "/"%char else c) (standard_alphabet s')
  end.
Definition standard_b64encode (s : string) : string := standard_alphabet (b64encode s).

Section Agent.
Context (dump_frame : JobResultFrame → json) (validate_frame : json → option JobResultFrame).
(** Whether the encoded frame is within the wire bound, and the marker that ends a
    cut text. *)
Context (fits : ClientFrame → bool) (marker : string).

(** [_enqueue] *)
Definition enqueue (f : ClientFrame) (a : Agent) : bool * Agent :=
  if (length (ag_outbox a) <? OUTBOX_CAPACITY)%nat && fits f then (true, set_outbox (ag_outbox a ++ [f]) a)
  else (false, a).
Definition enqueued (f : ClientFrame) (a : Agent) : Agent := (enqueue f a).2.

(** ** Jobs *)

(** [_accept_job] *)
Definition accept_job (d : Dispatch) (now : string) (a : Agent) : Agent :=
  let ack accepted duplicate := JobAckFrame (df_job_id d) (df_attempt d) accepted duplicate in
  if negb (dmem (df_capability d) (ag_providers a)) || negb (bool_decide (df_capability d ∈ ag_granted a)) then
    enqueued (ResultFrame (refusal_frame d (reason_value CAPABILITY_NOT_GRANTED) "capability is not available on this node" now))
      (enqueued (ack false false) a)
  else
    let (cached, l) := ledger_get (df_dedupe_key d) (ag_ledger a) in
    let a := set_ledger l (ag_disk a) a in
    match cached with
    | Some f =>
        enqueued (ResultFrame (result_for f (df_job_id d) (df_attempt d) true)) (enqueued (ack true true) a)
    | None =>
        match dget (df_dedupe_key d) (ag_running a) with
        | Some j =>
            enqueued (ack true true)
              (set_running (dset (df_dedupe_key d) (add_waiter j (df_job_id d, df_attempt d)) (ag_running a))
                 (dset (df_job_id d) (df_dedupe_key d) (ag_jobs_by_id a)) a)
        | None =>
            let a := enqueued (ack true false) a in
            set_running (dset (df_dedupe_key d) (mkRunning d NotStarted 0 [(df_job_id d, df_attempt d)]) (ag_running a))
              (dset (df_job_id d) (df_dedupe_key d) (ag_jobs_by_id a)) a
        end
    end.

(** [task.cancel()]: a task that has not started never will; in one that has, the
    provider is interrupted, which is one of the ways it can end. *)
Definition cancel_task (j : RunningJob) : RunningJob :=
  match rj_task j with
  | NotStarted => with_task j Ended
  | Executing | Ended => j
  end.

(** [_handle] *)
Definition agent_handle (f : ServerFrame) (now : string) (a : Agent) : Agent :=
  match f with
  | JobDispatchFrame job_id attempt key capability parameters deadline max_output max_progress =>
      accept_job (mkDispatch job_id attempt key capability parameters deadline max_output max_progress) now a
  | JobCancelFrame job_id _ _ =>
      match dget job_id (ag_jobs_by_id a) with
      | Some key =>
          match (if is_empty key then None else dget key (ag_running a)) with
          | Some j => set_running (dset key (cancel_task j) (ag_running a)) (ag_jobs_by_id a) a
          | None => a
          end
      | None => a
      end
  | SessionCloseFrame _ => set_stop true a
  | ChallengeFrame _ _ _ _ _ | SessionReadyFrame _ _ _ => a
  end.

(** [_run_job] up to the call of the provider: a provider that is gone ends the
    task with a [KeyError]. *)
Definition run_start (key : string) (a : Agent) : option Agent :=
  match dget key (ag_running a) with
  | Some j =>
      match rj_task j with
      | NotStarted =>
          let t := if dmem (df_capability (rj_frame j)) (ag_providers a) then Executing else Ended in
          Some (set_running (dset key (with_task j t) (ag_running a)) (ag_jobs_by_id a) a)
      | _ => None
      end
  | None => None
  end.

Definition bounded_text (t : BoundedText) : string := bt_kept t +:+ (if bt_cut t then marker else "").
Definition output_json (o : BoundedOutput) : json :=
  match o with Whole j => j | Preview t => JObj [("preview", JStr (bounded_text t))] end.
Definition short_text (s : string) : string := bounded_text (redact_and_bound s 480).

(** [report] *)
Definition report (key message : string) (a : Agent) : Agent :=
  match dget key (ag_running a) with
  | Some j =>
      if df_max_progress_events (rj_frame j) <=? rj_emitted j then a
      else
        let a := enqueued (JobProgressFrame (df_job_id (rj_frame j)) (df_attempt (rj_frame j)) (short_text message)) a in
        set_running (dset key (with_emitted j (rj_emitted j + 1)) (ag_running a)) (ag_jobs_by_id a) a
  | None => a
  end.

(** [_emit_artifacts]: the identifiers of the artifacts that were queued. *)
Fixpoint emit_artifacts (d : Dispatch) (artifacts : list CapabilityArtifact) (a : Agent) : list string * Agent :=
  match artifacts with
  | [] => ([], a)
  | x :: artifacts' =>
      let encoded := standard_b64encode (ca_data x) in
      if MAX_ARTIFACT_BYTES <? str_len encoded then emit_artifacts d artifacts' a
      else
        let (sent, a) := enqueue (JobArtifactFrame (df_job_id d) (df_attempt d) (ca_id x) encoded) a in
        let (ids, a) := emit_artifacts d artifacts' a in
        (if sent then ca_id x :: ids else ids, a)
  end.

(** Status, reason, message, output and artifacts of an ended provider. *)
Definition ending (e : ProviderEnd) : NodeJobStatus * string * string * obj * list CapabilityArtifact :=
  match e with
  | Returned r message artifacts => (result_status (cr_status r), cr_reason r, message, cr_output r, artifacts)
  | TimedOut => (FAILED, reason_value JOB_DEADLINE_EXCEEDED, "capability exceeded its deadline", [], [])
  | WasCancelled => (CANCELLED, reason_value JOB_CANCELLED, "capability cancelled by the control plane", [], [])
  | Raised text => (FAILED, reason_value JOB_FAILED, short_text text, [], [])
  end.

(** The terminal frame of [_run_job]. *)
Definition terminal_frame (d : Dispatch) (e : ProviderEnd) (ids : list string) (started finished : string) : JobResultFrame :=
  let '(status, reason, message, output, _) := ending e in
  let b := bound_output (JObj output) (Z.to_nat (df_max_output_bytes d)) in
  mkResult (df_job_id d) (df_attempt d) (df_dedupe_key d) status (output_json b.1) b.2
    (negb b.2 && negb (bool_decide (output_json b.1 = JObj output))) ids
    (if bool_decide (status = SUCCEEDED) then "" else reason) (short_text message) started finished false.

(** Whether [_artifact_frame] makes a frame of an artifact; one that is too large is passed over. *)
Definition artifact_ok (x : CapabilityArtifact) : bool :=
  (MAX_ARTIFACT_BYTES <? str_len (standard_b64encode (ca_data x)))
  || identifier_ok (ca_id x) && fits_short_text (ca_kind x) && fits_short_text (ca_media_type x).
Fixpoint accepted_artifacts (l : list CapabilityArtifact) : list CapabilityArtifact :=
  match l with x :: l => if artifact_ok x then x :: accepted_artifacts l else [] | [] => [] end.
Definition sent_artifacts (e : ProviderEnd) : list CapabilityArtifact := take (Z.to_nat MAX_ARTIFACTS_PER_JOB) (ending e).2.

(** Whether the frames of an end are valid: what a provider returned may not be. *)
Definition end_ok (e : ProviderEnd) : bool :=
  forallb artifact_ok (sent_artifacts e) &&
  match e with
  | Returned r _ _ =>
      bool_decide (cr_status r ∈ ["succeeded"; "failed"; "cancelled"; "rejected"]) && (bool_decide (cr_status r = "succeeded") || fits_short_text (cr_reason r))
  | _ => true
  end.

(** One waiter is answered. *)
Definition answer (f : JobResultFrame) (a : Agent) (w : string * Z) : Agent :=
  enqueued (ResultFrame (result_for f w.1 w.2 (rf_replayed f)))
    (set_running (ag_running a) (ddel w.1 (ag_jobs_by_id a)) a).

(** [_run_job] from the provider's end, when its frames are valid: [disk_ok] is whether the ledger file could
    be written; when it could not, the task ends there with an [OSError]. *)
Definition run_end (key : string) (e : ProviderEnd) (started finished : string) (disk_ok : bool) (a : Agent) : option Agent :=
  match dget key (ag_running a) with
  | Some j =>
      match rj_task j with
      | Executing =>
          if negb (end_ok e) then None else
          let d := rj_frame j in
          let '(status, _, _, _, _) := ending e in
          let (ids, a) := emit_artifacts d (sent_artifacts e) a in
          let f := terminal_frame d e ids started finished in
          let recorded := negb (bool_decide (status = CANCELLED)) in
          let l := if recorded then ledger_put (df_dedupe_key d) f (ag_ledger a) else ag_ledger a in
          if recorded && lg_path l && negb disk_ok then
            Some (set_running (dset key (with_task j Ended) (ag_running a)) (ag_jobs_by_id a) (set_ledger l (ag_disk a) a))
          else
            let disk := if recorded then persist dump_frame l (ag_disk a) else ag_disk a in
            let a := set_ledger l disk a in
            let a := set_running (ddel (df_dedupe_key d) (ag_running a)) (ag_jobs_by_id a) a in
            Some (foldl (answer f) a (rj_waiters j))
      | _ => None
      end
  | None => None
  end.

(** [_run_job] from the provider's end, when one of its frames is not valid: the artifacts before it are queued, and the task
    ends with pydantic's error, its job still in the tables. *)
Definition run_invalid (key : string) (e : ProviderEnd) (a : Agent) : option Agent :=
  match dget key (ag_running a) with
  | Some j =>
      match rj_task j with
      | Executing =>
          if end_ok e then None else
          let a := (emit_artifacts (rj_frame j) (accepted_artifacts (sent_artifacts e)) a).2 in
          Some (set_running (dset key (with_task j Ended) (ag_running a)) (ag_jobs_by_id a) a)
      | _ => None
      end
  | None => None
  end.

(** ** The connection *)

Definition heartbeat (now : datetime) (uptime : Z) (a : Agent) : Agent :=
  enqueued (HeartbeatFrame (mkHealth now (agent_active_jobs a) None None None None None (Some uptime)))
    (set_heartbeats (ag_heartbeats a + 1) a).

(** One turn of [_sender_loop]. *)
Definition sender_turn (a : Agent) : Agent := set_outbox (drop 1 (ag_outbox a)) a.

(** [run]: before the handshake, and the [finally] clause. *)
Definition run_begin (a : Agent) : Agent := set_outbox [] (set_stop false a).
Definition run_finally (a : Agent) : Agent :=
  set_running (map (λ kj, (kj.1, cancel_task kj.2)) (ag_running a)) (ag_jobs_by_id a) (set_stop true a).

(** How a wait for the control plane's next frame ended. *)
Inductive FromServer := ServerSent (f : ServerFrame) | ServerMalformed (r : NodeReason) | ServerClosed.
Definition server_frame (r : FromServer) : result exn ServerFrame :=
  match r with
  | ServerSent f => Ok f
  | ServerMalformed reason => Err (NodeMeshError reason)
  | ServerClosed => Err ChannelClosed
  end.

Context (ed_key_ok : string → bool) (ed_sign : string → string → string)
        (ed_verify : string → string → string → bool).

Definition agent_hello (a : Agent) (node_nonce : string) : ClientFrame :=
  HelloFrame PROTOCOL_ID (ai_node_id (ag_identity a)) (ai_agent_version (ag_identity a)) (ag_architecture a)
    (declared_capabilities a) node_nonce.

(** The answer to the challenge: the control plane is verified first. *)
Definition agent_attest (a : Agent) (node_nonce : string) (r : FromServer) : result exn ClientFrame :=
  challenge ← server_frame r;
  match challenge with
  | ChallengeFrame protocol session_id server_nonce key_id server_proof =>
      ensure (bool_decide (protocol = PROTOCOL_ID)) (NodeMeshError PROTOCOL_VERSION_UNSUPPORTED);;
      ensure (bool_decide (key_id = ai_control_plane_key_id (ag_identity a))) (NodeMeshError SERVER_PROOF_INVALID);;
      verify_payload ed_key_ok ed_verify (ai_control_plane_public_key (ag_identity a))
        (server_proof_payload PROTOCOL_ID session_id (ai_node_id (ag_identity a)) node_nonce) server_proof
        SERVER_PROOF_INVALID;;
      proof ← sign_payload ed_sign (ai_private_key (ag_identity a))
        (node_proof_payload PROTOCOL_ID session_id (ai_node_id (ag_identity a)) server_nonce
           (digest_of (JList (map JStr (declared_capabilities a)))));
      Ok (AttestFrame session_id proof)
  | _ => Err (NodeMeshError HANDSHAKE_FRAME_UNEXPECTED)
  end.

(** The terms of the session. *)
Definition agent_ready (a : Agent) (r : FromServer) : result exn Agent :=
  ready ← server_frame r;
  match ready with
  | SessionReadyFrame _ granted scopes =>
      Ok (set_session granted scopes (install_scoped_providers (ag_platform a) granted scopes (ag_providers a)) a)
  | _ => Err (NodeMeshError HANDSHAKE_FRAME_UNEXPECTED)
  end.

(** [handshake]: what it sent, how it ended and the agent after it; [r1] and [r2]
    are what arrived. *)
Definition agent_handshake (a : Agent) (node_nonce : string) (r1 r2 : FromServer) :
    list ClientFrame * result exn Agent :=
  let hello := agent_hello a node_nonce in
  match agent_attest a node_nonce r1 with
  | Err e => ([hello], Err e)
  | Ok attest => ([hello; attest], agent_ready a r2)
  end.

(** [NodeAgent.__init__] over the ledger file the last process left. *)
Definition new_agent (i : AgentIdentity) (platform : NodePlatform) (architecture : string) (serves : list string)
    (providers : dict string Provider) (capacity : nat) (path : bool) (disk : option json) : option Agent :=
  p ← open_ledger dump_frame validate_frame capacity path (ai_node_id i) disk;
  Some (mkAgent i platform architecture serves providers p.1 p.2 [] [] [] false 0 [] []).
End Agent.
