(* ===== verification/SystemInspect.v ===== *)
(** Read-only inspection of a node (src/olympus/node_agent/capabilities.py) and read-only integrations
    (src/olympus/integrations/shadow.py).

    The probe is a class: what the operating system tells about itself. What a run reports on its way is the list of its
    messages and percentages. *)

From stdpp Require Import pretty.
From S2P Require Import Prelude PyDict Sha256 Json JsonParse PyParse NodeModels NodeScopes AgentFiles NodeAgent.
From Stdlib Require Import Ascii.

Open Scope Z_scope.

(** ** Memory of a Linux host *)

(** [str.splitlines], where an empty line more does not matter *)
Definition line_break (c : ascii) : bool := let n := ord c in ((10 <=? n) && (n <=? 13) || (28 <=? n) && (n <=? 30) || (n =? 133))%nat.
Fixpoint lines_of (s : string) : list string :=
  match s with
  | EmptyString => [""]
  | String c s' => if line_break c then "" :: lines_of s' else match lines_of s' with [] => [String c ""] | l :: ls => String c l :: ls end
  end.

(** [str.isdigit] below code point 256, the three superscripts included *)
Definition isdigit (s : string) : bool := negb (is_empty s) && all_chars (λ c, digit_char c || bool_decide (ord c ∈ [178; 179; 185]%nat)) s.

(** One line of /proc/meminfo; [Err] is the ValueError of [int] *)
Definition meminfo_line (line : string) (totals : dict string Z) : result () (dict string Z) :=
  match split_char_n ":" 1 line with
  | key :: rest =>
      if bool_decide (key ∈ ["MemTotal"; "MemAvailable"]) then
        let digits := default "" (head (split_char_n " " 1 (strip (default "" (head rest))))) in
        if isdigit digits then n ← require_some (int_of_str digits) (); Ok (dset key (n / 1024) totals) else Ok totals
      else Ok totals
  | [] => Ok totals
  end.

Fixpoint meminfo_lines (lines : list string) (totals : dict string Z) : result () (dict string Z) :=
  match lines with [] => Ok totals | l :: lines => totals ← meminfo_line l totals; meminfo_lines lines totals end.

(** [_read_memory_mib] of the text of /proc/meminfo, or of what Windows answers when there is none *)
Definition read_memory_mib (meminfo : option string) (windows : option Z * option Z) : result () (option Z * option Z) :=
  match meminfo with
  | Some text => totals ← meminfo_lines (lines_of text) []; Ok (dget "MemTotal" totals, dget "MemAvailable" totals)
  | None => Ok windows
  end.

(** ** The inspection *)

Definition INSPECT_SECTIONS : list string := ["os"; "cpu"; "memory"; "disk"; "uptime"; "agent"].

(** [SystemProbe] *)
Class SystemProbe := {
  pb_operating_system : json;
  pb_cpu : json;
  pb_memory : json;
  pb_disk : string → json;
  pb_uptime_seconds : option Z }.

Section Inspect.
Context `{SystemProbe} (state_directory agent_version : string) (agent_uptime : Z).

Definition opt_int (v : option Z) : json := match v with Some z => JInt z | None => JNull end.

(** [_collect] *)
Definition collect (name : string) : json :=
  if bool_decide (name = "os") then pb_operating_system
  else if bool_decide (name = "cpu") then pb_cpu
  else if bool_decide (name = "memory") then pb_memory
  else if bool_decide (name = "disk") then pb_disk state_directory
  else if bool_decide (name = "uptime") then JObj [("host_uptime_seconds", opt_int pb_uptime_seconds)]
  else JObj [("agent_version", JStr agent_version); ("agent_uptime_seconds", JInt agent_uptime)].

(** The sections a request names: all of them when it names none in a list *)
Definition requested_names (parameters : obj) : list string :=
  match dget "sections" parameters with
  | Some (JList ((_ :: _) as l)) => map py_str l
  | _ => INSPECT_SECTIONS
  end.
Definition inspect_sections (parameters : obj) : list string :=
  List.filter (λ name, bool_decide (name ∈ requested_names parameters)) INSPECT_SECTIONS.

(** The loop over the sections: what was collected and reported, [index] of them done *)
Fixpoint collect_all (total : nat) (index : Z) (sections : list string) (collected : dict string json) (reports : list (string * Z)) :
    dict string json * list (string * Z) :=
  match sections with
  | [] => (collected, reports)
  | name :: sections =>
      collect_all total (index + 1) sections (dset name (collect name) collected)
        (reports ++ [("collected " +:+ name, index * 100 / Z.of_nat total)])
  end.

(** [SystemInspectProvider.execute] *)
Definition inspect_execute (parameters : obj) : CapabilityResult * list (string * Z) :=
  match inspect_sections parameters with
  | [] => (rejected "capability-parameters-invalid", [])
  | sections =>
      let '(collected, reports) := collect_all (length sections) 1 sections [] [("collecting host inventory", 10)] in
      (succeeded [("sections", JObj collected); ("section_names", JList (map JStr sections))], reports)
  end.
End Inspect.

(** ** The fake provider *)

Record FakeProvider := mkFake {
  fp_output : obj; fp_progress : list string; fp_status : string; fp_stall : bool; fp_oversized : nat; fp_executions : list obj }.

Definition filler (n : nat) : string := String.concat "" (repeat "x" n).

(** [FakeCapabilityProvider.execute]; [None] when it stalls until it is cancelled *)
Definition fake_execute (parameters : obj) (p : FakeProvider) : option CapabilityResult * list (string * Z) * FakeProvider :=
  let n := length (fp_progress p) in
  let reports := imap (λ i message, (message, Z.of_nat (S i) * 100 / Z.of_nat (Nat.max n 1))) (fp_progress p) in
  let output := if (fp_oversized p =? 0)%nat then fp_output p else dset "filler" (JStr (filler (fp_oversized p))) (fp_output p) in
  (if fp_stall p then None
   else Some (mkCapResult (fp_status p) output (if bool_decide (fp_status p = "succeeded") then "" else "fake-failure")),
   reports, mkFake (fp_output p) (fp_progress p) (fp_status p) (fp_stall p) (fp_oversized p) (fp_executions p ++ [parameters])).

(** ** Shadow mode *)

Inductive shadow_exn := ShadowModeViolation | ShadowValueError.

Record IntegrationRequest := mkIntegration { ig_request_id : string; ig_adapter : string; ig_operation : string; ig_payload : obj; ig_mutation_requested : bool }.
Record ShadowProjection := mkProjection {
  sj_request_id : string; sj_adapter : string; sj_operation : string; sj_mutation_requested : bool; sj_effect : string; sj_approval_required : bool;
  sj_trust_labels : list string; sj_evidence_digest : string }.

(** [IntegrationRequest.__post_init__] *)
Definition make_integration (r : IntegrationRequest) : result shadow_exn IntegrationRequest :=
  ensure (negb (is_blank (ig_request_id r) || is_blank (ig_adapter r) || is_blank (ig_operation r))) ShadowValueError;; Ok r.

(** A [ReadOnlyAdapter]: what a read answers and the adapter afterwards. It has no other method. *)
Class ReadOnlyAdapter (A : Type) := adapter_read : string → obj → A → json * A.

Section Shadow.
Context {A : Type} `{ReadOnlyAdapter A}.

Definition make_runner (adapters : dict string A) : result shadow_exn (dict string A) :=
  ensure (negb (bool_decide (dkeys adapters = []))) ShadowValueError;; Ok adapters.

(** [ShadowModeRunner.run] *)
Definition shadow_run (r : IntegrationRequest) : St (dict string A) shadow_exn ShadowProjection :=
  adapters ← read;
  adapter ← some_or (dget (ig_adapter r) adapters) ShadowModeViolation;
  let '(evidence, adapter) := adapter_read (ig_operation r) (ig_payload r) adapter in
  modify (dset (ig_adapter r) adapter);;
  mret (mkProjection (ig_request_id r) (ig_adapter r) (ig_operation r) (ig_mutation_requested r) "projected-only" (ig_mutation_requested r)
    ["external-untrusted"] (sha256_hex (dumps evidence))).
End Shadow.

(** [FakeReadOnlyAdapter] *)
Record FakeAdapter := mkFakeAdapter { fa_result : json; fa_reads : nat; fa_mutations : nat }.
#[export] Instance fake_read : ReadOnlyAdapter FakeAdapter := λ _ _ a, (fa_result a, mkFakeAdapter (fa_result a) (S (fa_reads a)) (fa_mutations a)).
Definition fake_mutate : St FakeAdapter shadow_exn () := λ a, (Err ShadowModeViolation, mkFakeAdapter (fa_result a) (fa_reads a) (S (fa_mutations a))).

(** * What inspection answers *)

Section Facts.
Context `{SystemProbe} (state_directory agent_version : string) (agent_uptime : Z).
Notation collect := (collect state_directory agent_version agent_uptime).
Notation collect_all := (collect_all state_directory agent_version agent_uptime).
Notation inspect_execute := (inspect_execute state_directory agent_version agent_uptime).

Lemma collect_all_reports total index sections collected reports :
  (collect_all total index sections collected reports).2 =
  reports ++ imap (λ i name, ("collected " +:+ name, (index + Z.of_nat i) * 100 / Z.of_nat total)) sections.
Proof.
  revert index collected reports. induction sections as [|name sections IH]; intros index collected reports; cbn [SystemInspect.collect_all imap]; [by rewrite app_nil_r|].
  rewrite IH, <- app_assoc. f_equal. cbn [app]. f_equal; [by rewrite Z.add_0_r|]. apply imap_ext. intros i x _. cbn. do 2 f_equal. lia.
Qed.

Lemma collect_all_sections total index sections collected reports : NoDup (dkeys collected ++ sections) →
  (collect_all total index sections collected reports).1 = collected ++ map (λ name, (name, collect name)) sections.
Proof.
  revert index collected reports. induction sections as [|name sections IH]; intros index collected reports Hd; cbn [SystemInspect.collect_all map]; [by rewrite app_nil_r|].
  assert (Hn : name ∉ dkeys collected) by (apply NoDup_app in Hd as (_ & Hd & _); intros Hin; apply (Hd name Hin); set_solver).
  rewrite dset_fresh by done. rewrite IH; [by rewrite <- app_assoc|]. unfold dkeys in *. rewrite fmap_app. cbn. by rewrite <- app_assoc.
Qed.

Lemma inspect_sections_NoDup parameters : NoDup (inspect_sections parameters).
Proof.
  unfold inspect_sections. apply NoDup_ListNoDup, List.NoDup_filter, NoDup_ListNoDup. by apply (bool_decide_eq_true_1 (NoDup INSPECT_SECTIONS)).
Qed.

(** A request is answered with exactly the sections of the fixed list that it names, in the order of that list, each once and
    with what the probe tells about it; a request that names none of them is rejected before anything is read. *)
Lemma inspect_exact parameters :
  (inspect_sections parameters = [] ∧ inspect_execute parameters = (rejected "capability-parameters-invalid", [])) ∨
  (inspect_sections parameters ≠ [] ∧
   (inspect_execute parameters).1 = succeeded [("sections", JObj (map (λ name, (name, collect name)) (inspect_sections parameters)));
                                                ("section_names", JList (map JStr (inspect_sections parameters)))]).
Proof.
  unfold SystemInspect.inspect_execute. pose proof (inspect_sections_NoDup parameters) as Hd. destruct (inspect_sections parameters) as [|name sections] eqn:E; [by left|right]. split; [done|].
  pose proof (collect_all_sections (length (name :: sections)) 1 (name :: sections) [] [("collecting host inventory", 10)] Hd) as Hc.
  destruct (collect_all _ _ _ _ _) as [collected reports]. cbn [fst] in Hc |- *. by rewrite Hc.
Qed.

Lemma inspect_section_known parameters name : name ∈ inspect_sections parameters ↔ name ∈ INSPECT_SECTIONS ∧ name ∈ requested_names parameters.
Proof. unfold inspect_sections. rewrite list_elem_of_In, List.filter_In, bool_decide_eq_true, <- list_elem_of_In. done. Qed.

Lemma inspect_sections_few parameters : (length (inspect_sections parameters) ≤ 6)%nat.
Proof. unfold inspect_sections. etrans; [apply List.filter_length_le|]. done. Qed.

(** The percentages reported never fall, stay within a hundred, and end there. *)
Lemma inspect_progress parameters : inspect_sections parameters ≠ [] →
  let percents := map snd (inspect_execute parameters).2 in Sorted Z.le percents ∧ Forall (λ p, 0 ≤ p ≤ 100) percents ∧ last percents = Some 100.
Proof.
  intros Hne. pose proof (inspect_sections_few parameters) as Hlen. unfold SystemInspect.inspect_execute. destruct (inspect_sections parameters) as [|name sections]; [done|].
  pose proof (collect_all_reports (length (name :: sections)) 1 (name :: sections) [] [("collecting host inventory", 10)]) as Hr.
  destruct (collect_all _ _ _ _ _) as [collected reports]. cbn [fst snd] in Hr |- *. subst reports. clear Hne. cbn [length] in Hlen.
  destruct sections as [|s1 [|s2 [|s3 [|s4 [|s5 [|]]]]]]; [..|cbn in Hlen; lia]; vm_compute; repeat split; repeat constructor; intros; discriminate.
Qed.
End Facts.

(** ** What shadow mode does *)

(** Whatever is asked, the adapter that is read is the registered one, nothing else of the runner changes, and the projection
    says that a mutation was not carried out and needs approval. *)
Lemma shadow_projects {A} `{ReadOnlyAdapter A} r (adapters : dict string A) :
  match shadow_run r adapters with
  | (Ok p, adapters') => ∃ a evidence a', dget (ig_adapter r) adapters = Some a ∧ adapter_read (ig_operation r) (ig_payload r) a = (evidence, a') ∧
      (∀ k, dget k adapters' = if decide (k = ig_adapter r) then Some a' else dget k adapters) ∧ sj_effect p = "projected-only" ∧
      sj_approval_required p = ig_mutation_requested r ∧ sj_evidence_digest p = sha256_hex (dumps evidence)
  | (Err e, adapters') => e = ShadowModeViolation ∧ dget (ig_adapter r) adapters = None ∧ adapters' = adapters
  end.
Proof.
  unfold shadow_run, mbind, st_bind, read, some_or, modify, mret, st_ret. destruct (dget (ig_adapter r) adapters) as [a|] eqn:E; cbn; [|done].
  destruct (adapter_read _ _ a) as [evidence a'] eqn:Er. cbn. exists a, evidence, a'. split_and!; try done.
  intros k. rewrite dget_dset. by repeat case_decide.
Qed.

(** Evidence that differs beyond the order of its keys has another digest, or SHA-256 collides. *)
Lemma shadow_digest_binds e e' : sha256_hex (dumps e) = sha256_hex (dumps e') → jnorm e = jnorm e' ∨ sha_collides [dumps e; dumps e'].
Proof. intros [Hd|Hc]%sha256_hex_inj; [left; by apply dumps_inj_norm|by right]. Qed.

(** ** Examples *)

Example meminfo_example : read_memory_mib (Some (joins (String (ascii_of_nat 10) "") ["MemTotal:       16303428 kB"; "MemFree:         1048576 kB"; "MemAvailable:    8151714 kB"; ""])) (None, None) =
  Ok (Some 15921, Some 7960).
Proof. vm_compute. reflexivity. Qed.

(** A superscript passes [isdigit] and not [int]. *)
Example superscript_raises : read_memory_mib (Some ("MemTotal: " +:+ String (ascii_of_nat 178) "")) (None, None) = Err ().
Proof. vm_compute. reflexivity. Qed.
