(* ===== verification/NodeAgentFacts.v ===== *)
(** What the node agent guarantees: a completed job is never run again while the
    ledger remembers it, across restarts too; every waiter is answered; the node
    proves itself only to its control plane; and scoped work runs only inside the
    scope the session delivered. *)

From S2P Require Import Prelude PyDict PyTime Json Sha256 Redaction NodeModels NodeScopes NodeAudit NodeCrypto.
From S2P Require Import NodeRegistry AgentFiles NodeSession NodeAgent.

Open Scope Z_scope.

(** ** The ledger *)

Lemma trim_length n e : (length (trim n e) ≤ n)%nat.
Proof. induction e as [|kv e IH]; [simpl; lia|]. cbn [trim]. destruct (_ <? _)%nat eqn:E; [done|by apply Nat.ltb_ge in E]. Qed.

Lemma trim_id n e : (length e ≤ n)%nat → trim n e = e.
Proof. intros H. destruct e as [|kv e]; [done|]. cbn [trim]. by rewrite (proj2 (Nat.ltb_ge _ _)). Qed.

Lemma trim_suffix n e : ∃ old, e = old ++ trim n e.
Proof.
  induction e as [|kv e [old IH]]; [by exists []|]. cbn [trim]. destruct (_ <? _)%nat; [|by exists []].
  exists (kv :: old). simpl. by f_equal.
Qed.

Lemma dict_wf_trim n e : dict_wf e → dict_wf (trim n e).
Proof.
  intros Hw. destruct (trim_suffix n e) as [old E]. rewrite E in Hw. unfold dict_wf, dkeys in *.
  rewrite fmap_app in Hw. by apply NoDup_app in Hw as (_ & _ & ?).
Qed.

(** An entry with fewer newer ones than the capacity is kept, in its place. *)
Lemma trim_keeps n e k f :
  dget k e = Some f → (rank k e < n)%nat → dget k (trim n e) = Some f ∧ rank k (trim n e) = rank k e.
Proof.
  induction e as [|[a v] e IH]; [done|]. cbn [trim]. destruct (_ <? _)%nat eqn:E; [|done].
  apply Nat.ltb_lt in E. simpl in *. case_decide; [lia|]. apply IH.
Qed.

Lemma trim_subset n e k f : dict_wf e → dget k (trim n e) = Some f → dget k e = Some f.
Proof.
  intros Hw Hk. destruct (trim_suffix n e) as [old E]. apply dget_wf_elem; [done|]. rewrite E.
  apply elem_of_app. right. by apply dget_Some_elem.
Qed.

(** The key of every entry is the one its result carries. *)
Definition ledger_ok (l : Ledger) : Prop :=
  dict_wf (lg_entries l) ∧ dall (λ k f, rf_dedupe_key f = k) (lg_entries l) ∧ (length (lg_entries l) ≤ lg_capacity l)%nat.

Lemma ledger_get_spec k l :
  dict_wf (lg_entries l) →
  (ledger_get k l).1 = dget k (lg_entries l) ∧
  (∀ k', dget k' (lg_entries (ledger_get k l).2) = dget k' (lg_entries l)) ∧
  (∀ k', k' ≠ k → dget k' (lg_entries l) ≠ None →
     (rank k' (lg_entries (ledger_get k l).2) ≤ rank k' (lg_entries l) + (if dmem k (lg_entries l) then 1 else 0))%nat) ∧
  (rank k (lg_entries (ledger_get k l).2) ≤ rank k (lg_entries l))%nat ∧
  dict_wf (lg_entries (ledger_get k l).2) ∧ length (lg_entries (ledger_get k l).2) = length (lg_entries l).
Proof.
  intros Hw. unfold ledger_get, dmem. destruct (dget k (lg_entries l)) as [f|] eqn:E; simpl; [|split_and!; auto; lia].
  assert (Hm : move_to_end k (lg_entries l) = ddel k (lg_entries l) ++ [(k, f)]) by (unfold move_to_end; by rewrite E).
  split_and!; try done.
  - intros. by apply dget_move_to_end.
  - intros k' Hne Hk'. rewrite Hm. etrans; [by apply rank_renew|]. lia.
  - rewrite Hm, rank_renew_eq by done. lia.
  - by apply dict_wf_move_to_end.
  - rewrite Hm, length_app. simpl. rewrite <- (length_ddel k (lg_entries l)) by congruence. lia.
Qed.

Lemma ledger_put_spec k f l :
  ledger_ok l → rf_dedupe_key f = k → (0 < lg_capacity l)%nat →
  ledger_ok (ledger_put k f l) ∧ dget k (lg_entries (ledger_put k f l)) = Some f ∧
  rank k (lg_entries (ledger_put k f l)) = 0%nat ∧
  (∀ k' f', k' ≠ k → dget k' (lg_entries l) = Some f' → (S (rank k' (lg_entries l)) < lg_capacity l)%nat →
     dget k' (lg_entries (ledger_put k f l)) = Some f' ∧
     (rank k' (lg_entries (ledger_put k f l)) ≤ S (rank k' (lg_entries l)))%nat) ∧
  (∀ k', k' ≠ k → dget k' (lg_entries l) = None → dget k' (lg_entries (ledger_put k f l)) = None).
Proof.
  intros (Hw & Hk & Hl) Hf Hc. unfold ledger_put. rewrite move_to_end_dset. simpl.
  set (e := ddel k (lg_entries l) ++ [(k, f)]). assert (He : dict_wf e) by by apply dict_wf_renew.
  assert (Hget : ∀ k', dget k' e = if decide (k = k') then Some f else dget k' (lg_entries l)) by (intros; by apply dget_renew).
  destruct (trim_keeps (lg_capacity l) e k f) as [H1 H2].
  { by rewrite Hget, decide_True. }
  { unfold e. by rewrite rank_renew_eq. }
  split_and!.
  - split_and!; simpl; [by apply dict_wf_trim| |apply trim_length].
    intros k' f' Hk'%trim_subset; [|done]. rewrite Hget in Hk'. case_decide; [congruence|]. by apply Hk.
  - done.
  - rewrite H2. by apply rank_renew_eq.
  - intros k' f' Hne Hk' Hr. assert (Hre : (rank k' e ≤ S (rank k' (lg_entries l)))%nat) by (apply rank_renew; congruence).
    destruct (trim_keeps (lg_capacity l) e k' f') as [H3 H4]; [by rewrite Hget, decide_False by congruence|lia|].
    split; [done|lia].
  - intros k' Hne Hn. destruct (dget k' (trim (lg_capacity l) e)) as [f'|] eqn:E; [|done].
    apply trim_subset in E; [|done]. rewrite Hget, decide_False in E by congruence. congruence.
Qed.

(** ** The ledger file *)

Section LedgerFile.
Context (dump_frame : JobResultFrame → json) (validate_frame : json → option JobResultFrame).
(** [model_validate] accepts what [model_dump] wrote. *)
Context (frame_roundtrip : ∀ f, validate_frame (dump_frame f) = Some f).

Lemma load_entries_dumped e acc :
  dict_wf (acc ++ e) → dall (λ k f, rf_dedupe_key f = k) e →
  load_entries validate_frame
    (map (λ kf, JObj [("dedupe_key", JStr kf.1); ("result", dump_frame kf.2)]) e) acc = Some (acc ++ e).
Proof.
  revert acc. induction e as [|[k f] e IH]; intros acc Hw Hk; [by rewrite app_nil_r|].
  cbn [map load_entries fst snd]. change (keys_are _ _) with true. cbn [negb]. simpl dget. cbn [option_bind mbind].
  rewrite frame_roundtrip. cbn [option_bind mbind].
  assert (rf_dedupe_key f = k) as Hf by (apply (Hk k f); simpl; by rewrite decide_True).
  rewrite bool_decide_eq_true_2 by done. cbn [negb].
  assert (Hacc : dget k acc = None).
  { apply dget_None. intros Hin. unfold dict_wf, dkeys in Hw. rewrite fmap_app in Hw.
    apply NoDup_app in Hw as (_ & Hd & _). apply (Hd k Hin). simpl. by left. }
  unfold dmem. rewrite Hacc.
  assert (Hs : dset k f acc = acc ++ [(k, f)]).
  { clear -Hacc. induction acc as [|[a v] acc IHa]; simpl in *; [done|]. case_decide; [done|]. by rewrite IHa. }
  rewrite Hs. change (acc ++ (k, f) :: e) with (acc ++ [(k, f)] ++ e) in Hw |- *. rewrite app_assoc in Hw |- *.
  apply IH; [done|]. intros k' f' Hk'. apply Hk. simpl. case_decide; [|done]. subst k'.
  unfold dict_wf, dkeys in Hw. rewrite !fmap_app in Hw. apply NoDup_app in Hw as (_ & Hd & _).
  exfalso. apply (Hd k); [|by eapply dget_Some_key]. apply elem_of_app. right. simpl. by left.
Qed.

(** What a process reads back is what the last one wrote, for the same identity
    and capacity; another identity starts empty and overwrites the file. *)
Lemma open_persisted l e :
  lg_path l = true → dict_wf e → dall (λ k f, rf_dedupe_key f = k) e →
  open_ledger dump_frame validate_frame (lg_capacity l) true (lg_node_id l)
    (Some (ledger_json dump_frame (with_entries l e))) =
  Some (with_entries l (trim (lg_capacity l) e), Some (ledger_json dump_frame (with_entries l e))).
Proof.
  intros Hp Hw Hk. unfold open_ledger, load, ledger_json. change (keys_are _ _) with true. cbn [negb].
  simpl dget. cbv iota. change (version_ok _) with true. cbn [negb lg_node_id with_entries lg_entries].
  rewrite bool_decide_eq_true_2 by done. cbn [negb].
  rewrite (load_entries_dumped e []) by done. cbn. unfold with_entries. simpl. by rewrite Hp.
Qed.

Lemma open_foreign capacity node_id l :
  lg_node_id l ≠ node_id →
  open_ledger dump_frame validate_frame capacity true node_id (Some (ledger_json dump_frame l)) =
  Some (mkLedger capacity true node_id [], Some (ledger_json dump_frame (mkLedger capacity true node_id []))).
Proof.
  intros Hne. unfold open_ledger, load, ledger_json. change (keys_are _ _) with true. cbn [negb].
  simpl dget. cbv iota. change (version_ok _) with true. cbn [negb lg_node_id]. by rewrite bool_decide_eq_false_2.
Qed.

(** The ledger file round trips: what one process of a node wrote, the next
    reads back with the same results in the same order, as far as its capacity
    reaches; a ledger written under another identity is never replayed, and the
    new identity's empty ledger replaces it on disk. *)
Theorem ledger_file_roundtrip l capacity node_id :
  ledger_ok l → lg_path l = true →
  open_ledger dump_frame validate_frame capacity true node_id (persist dump_frame l None) =
  Some (if decide (node_id = lg_node_id l)
        then (mkLedger capacity true node_id (trim capacity (lg_entries l)), Some (ledger_json dump_frame l))
        else (mkLedger capacity true node_id [], Some (ledger_json dump_frame (mkLedger capacity true node_id [])))).
Proof.
  intros (Hw & Hk & _) Hp. unfold persist. rewrite Hp. case_decide as E; [|by apply open_foreign]. subst node_id.
  destruct l as [c p i e]. simpl in *. subst p. apply (open_persisted (mkLedger capacity true i e) e); done.
Qed.
End LedgerFile.

(** ** The agent *)

Section AgentFacts.
Context (dump_frame : JobResultFrame → json) (validate_frame : json → option JobResultFrame).
Context (fits : ClientFrame → bool) (marker : string).
Notation enqueue := (enqueue fits).
Notation enqueued := (enqueued fits).
Notation accept_job := (accept_job fits).
Notation agent_handle := (agent_handle fits).
Notation run_end := (run_end dump_frame fits marker).
Notation report := (report fits marker).
Notation emit_artifacts := (emit_artifacts fits).
Notation answer := (answer fits).
Notation terminal_frame := (terminal_frame marker).

(** Only the outbox. *)
Definition outbox_only (a b : Agent) : Prop := b = set_outbox (ag_outbox b) a.

Lemma enqueued_only f a : outbox_only a (enqueued f a).
Proof. unfold NodeAgent.enqueued, NodeAgent.enqueue, outbox_only. destruct (_ && _), a; done. Qed.

Lemma enqueued_in f a :
  f ∈ ag_outbox (enqueued f a) ∨ ag_outbox (enqueued f a) = ag_outbox a ∧
    (length (ag_outbox a) = OUTBOX_CAPACITY ∨ fits f = false ∨ (OUTBOX_CAPACITY < length (ag_outbox a))%nat).
Proof.
  unfold NodeAgent.enqueued, NodeAgent.enqueue. destruct (Nat.ltb_spec (length (ag_outbox a)) OUTBOX_CAPACITY); simpl.
  - destruct (fits f); simpl; [|by auto]. left. apply elem_of_app. right. by left.
  - right. split; [done|]. lia.
Qed.

Lemma enqueued_mono f g a : g ∈ ag_outbox a → g ∈ ag_outbox (enqueued f a).
Proof. unfold NodeAgent.enqueued, NodeAgent.enqueue. destruct (_ && _); [|done]. intros. apply elem_of_app. by left. Qed.

Lemma emit_only d l a : outbox_only a (emit_artifacts d l a).2.
Proof.
  revert a. induction l as [|x l IH]; intros a; [by destruct a|]. cbn [NodeAgent.emit_artifacts].
  destruct (_ <? _); [apply IH|]. assert (He := enqueued_only (JobArtifactFrame (df_job_id d) (df_attempt d) (ca_id x)
    (standard_b64encode (ca_data x))) a). unfold NodeAgent.enqueued in He. destruct (enqueue _ a) as [sent a1]. simpl in He.
  assert (Hi := IH a1). destruct (emit_artifacts d l a1) as [ids a2]. simpl in *. unfold outbox_only in *.
  rewrite Hi, He. by destruct a.
Qed.

(** What answering the waiters changes. *)
Lemma answers_only f ws a :
  ∃ o byid, foldl (answer f) a ws = set_running (ag_running a) byid (set_outbox o a).
Proof.
  revert a. induction ws as [|w ws IH]; intros a; [exists (ag_outbox a), (ag_jobs_by_id a); by destruct a|]. cbn [foldl].
  unfold NodeAgent.answer at 2.
  set (b := set_running _ _ a). assert (He := enqueued_only (ResultFrame (result_for f w.1 w.2 (rf_replayed f))) b).
  destruct (IH (enqueued (ResultFrame (result_for f w.1 w.2 (rf_replayed f))) b)) as (o & byid & ->).
  unfold outbox_only in He. rewrite He. exists o, byid. by destruct a.
Qed.

Lemma answers_mono f ws a g : g ∈ ag_outbox a → g ∈ ag_outbox (foldl (answer f) a ws).
Proof.
  revert a. induction ws as [|w ws IH]; intros a Hg; [done|]. cbn [foldl]. apply IH. by apply enqueued_mono.
Qed.

Lemma answers_all f ws a w :
  w ∈ ws →
  ResultFrame (result_for f w.1 w.2 (rf_replayed f)) ∈ ag_outbox (foldl (answer f) a ws) ∨
  fits (ResultFrame (result_for f w.1 w.2 (rf_replayed f))) = false ∨
  (OUTBOX_CAPACITY < S (length (ag_outbox (foldl (answer f) a ws))))%nat.
Proof.
  revert a. induction ws as [|x ws IH]; intros a; [by intros ?%elem_of_nil|].
  intros [->|Hw]%elem_of_cons; cbn [foldl]; [|by apply IH].
  unfold NodeAgent.answer at 2 4. set (b := set_running _ _ a). set (g := ResultFrame _).
  assert (Hlen : (length (ag_outbox b) ≤ length (ag_outbox (foldl (answer f) (enqueued g b) ws)))%nat).
  { assert (Hm : ∀ l c, (length (ag_outbox c) ≤ length (ag_outbox (foldl (answer f) c l)))%nat).
    { intros l. induction l as [|y l IHl]; intros c; [done|]. cbn [foldl]. etrans; [|apply IHl].
      unfold NodeAgent.answer, NodeAgent.enqueued, NodeAgent.enqueue. destruct (_ && _); simpl; [rewrite length_app; lia|done]. }
    etrans; [|apply Hm]. unfold NodeAgent.enqueued, NodeAgent.enqueue. destruct (_ && _); simpl; [rewrite length_app; lia|done]. }
  destruct (enqueued_in g b) as [Hin|[_ [Hf|[Hf|Hf]]]]; [left; by apply answers_mono|right; right; lia|by right; left|right; right; lia].
Qed.

(** ** Steps *)

Lemma enqueued_ex f a : ∃ o, enqueued f a = set_outbox o a.
Proof. eexists. apply enqueued_only. Qed.
Lemma emit_ex d l a : ∃ o, (emit_artifacts d l a).2 = set_outbox o a.
Proof. eexists. apply emit_only. Qed.

(** The capability is served here and granted in this session. *)
Definition available (a : Agent) (capability : string) : bool :=
  dmem capability (ag_providers a) && bool_decide (capability ∈ ag_granted a).

(** What [_accept_job] does, by case. *)
Inductive accepted (d : Dispatch) (now : string) (a : Agent) : Agent → Prop :=
  | acc_refused o : available a (df_capability d) = false → accepted d now a (set_outbox o a)
  | acc_replayed f o :
      available a (df_capability d) = true → dget (df_dedupe_key d) (lg_entries (ag_ledger a)) = Some f →
      accepted d now a (set_outbox o (set_ledger (ledger_get (df_dedupe_key d) (ag_ledger a)).2 (ag_disk a) a))
  | acc_joined j o :
      dget (df_dedupe_key d) (lg_entries (ag_ledger a)) = None → dget (df_dedupe_key d) (ag_running a) = Some j →
      accepted d now a (set_outbox o (set_running
        (dset (df_dedupe_key d) (add_waiter j (df_job_id d, df_attempt d)) (ag_running a))
        (dset (df_job_id d) (df_dedupe_key d) (ag_jobs_by_id a)) a))
  | acc_created o :
      dget (df_dedupe_key d) (lg_entries (ag_ledger a)) = None → dget (df_dedupe_key d) (ag_running a) = None →
      accepted d now a (set_outbox o (set_running
        (dset (df_dedupe_key d) (mkRunning d NotStarted 0 [(df_job_id d, df_attempt d)]) (ag_running a))
        (dset (df_job_id d) (df_dedupe_key d) (ag_jobs_by_id a)) a)).

Lemma set_ledger_same a : set_ledger (ag_ledger a) (ag_disk a) a = a.
Proof. by destruct a. Qed.

Lemma set_outbox_twice o o' a : set_outbox o' (set_outbox o a) = set_outbox o' a.
Proof. done. Qed.

(** Name the outbox after the first send in the goal. *)
Ltac enqueue_step :=
  match goal with |- context[NodeAgent.enqueued fits ?f ?x] =>
    lazymatch x with context[NodeAgent.enqueued] => fail
    | _ => let o := fresh "o" in destruct (enqueued_ex f x) as [o ->]; rewrite ?set_outbox_twice end end.

Lemma accept_cases d now a : accepted d now a (accept_job d now a).
Proof.
  unfold NodeAgent.accept_job. fold (available a (df_capability d)). rewrite <- negb_andb.
  change (dmem (df_capability d) (ag_providers a) && bool_decide (df_capability d ∈ ag_granted a))
    with (available a (df_capability d)).
  destruct (available a (df_capability d)) eqn:Ea; simpl.
  2: { repeat enqueue_step. by apply acc_refused. }
  destruct (ledger_get (df_dedupe_key d) (ag_ledger a)) as [cached l] eqn:El. unfold ledger_get in El.
  destruct (dget (df_dedupe_key d) (lg_entries (ag_ledger a))) as [f|] eqn:Ed; injection El as <- <-.
  - repeat enqueue_step. assert (Hr := λ o, acc_replayed d now a f o Ea Ed). unfold ledger_get in Hr. by rewrite Ed in Hr.
  - rewrite set_ledger_same. destruct (dget (df_dedupe_key d) (ag_running a)) as [j|] eqn:Er.
    + repeat enqueue_step. by apply acc_joined.
    + repeat enqueue_step. by apply (acc_created d now a).
Qed.

(** A label says what a step means for a dedupe key: work on it began, its
    recorded result was stored or used, the process restarted, or neither. *)
Inductive label := LStart (k : string) | LTouch (k : string) | LRestart | LQuiet.

Definition frame_label (f : ServerFrame) (a : Agent) : label :=
  match f with
  | JobDispatchFrame _ _ key capability _ _ _ _ =>
      if available a capability && dmem key (lg_entries (ag_ledger a)) then LTouch key else LQuiet
  | _ => LQuiet
  end.
Definition recorded (e : ProviderEnd) : bool := negb (bool_decide ((ending marker e).1.1.1.1 = CANCELLED)).
Definition end_label (key : string) (e : ProviderEnd) : label := if recorded e then LTouch key else LQuiet.

Inductive agent_step : Agent → label → Agent → Prop :=
  | as_frame f now a : agent_step a (frame_label f a) (agent_handle f now a)
  | as_start key a a' : run_start key a = Some a' → agent_step a (LStart key) a'
  | as_report key message a : agent_step a LQuiet (report key message a)
  | as_end key e started finished ok a a' :
      run_end key e started finished ok a = Some a' → agent_step a (end_label key e) a'
  | as_invalid key e a a' : run_invalid fits marker key e a = Some a' → agent_step a LQuiet a'
  | as_heartbeat now uptime a : agent_step a LQuiet (heartbeat fits now uptime a)
  | as_sender a : agent_step a LQuiet (sender_turn a)
  | as_begin a : agent_step a LQuiet (run_begin a)
  | as_ready a a' r : agent_ready a r = Ok a' → agent_step a LQuiet a'
  | as_finally a : agent_step a LQuiet (run_finally a)
  | as_restart a a' platform architecture serves providers :
      new_agent dump_frame validate_frame (ag_identity a) platform architecture serves providers
        (lg_capacity (ag_ledger a)) (lg_path (ag_ledger a)) (ag_disk a) = Some a' → agent_step a LRestart a'.

Inductive agent_trace : Agent → list label → Agent → Prop :=
  | at_nil a : agent_trace a [] a
  | at_cons a l b ls c : agent_step a l b → agent_trace b ls c → agent_trace a (l :: ls) c.

Definition touch (l : label) : nat := match l with LTouch _ => 1 | _ => 0 end.
Definition touches (ls : list label) : nat := list_sum (map touch ls).

Record agent_inv (a : Agent) : Prop := mkAgentInv {
  av_ledger : ledger_ok (ag_ledger a);
  av_capacity : (0 < lg_capacity (ag_ledger a))%nat;
  av_identity : lg_node_id (ag_ledger a) = ai_node_id (ag_identity a);
  av_running : dict_wf (ag_running a);
  av_keys : dall (λ k j, df_dedupe_key (rj_frame j) = k) (ag_running a);
  av_live : ∀ k j, dget k (ag_running a) = Some j → rj_task j ≠ Ended → dget k (lg_entries (ag_ledger a)) = None }.

(** What the end of a job does. *)
Record finished (key : string) (e : ProviderEnd) (started finished_at : string) (ok : bool) (a a' : Agent)
    (j : RunningJob) (f : JobResultFrame) (l : Ledger) (o : list ClientFrame) (byid : dict string string) : Prop := mkFinished {
  fi_running : dget key (ag_running a) = Some j;
  fi_task : rj_task j = Executing;
  fi_frame : ∃ ids, f = terminal_frame (rj_frame j) e ids started finished_at;
  fi_ledger : l = (if recorded e then ledger_put (df_dedupe_key (rj_frame j)) f (ag_ledger a) else ag_ledger a);
  fi_agent :
    (recorded e && lg_path l && negb ok = true ∧
     a' = set_running (dset key (with_task j Ended) (ag_running a)) byid (set_outbox o (set_ledger l (ag_disk a) a))) ∨
    (recorded e && lg_path l && negb ok = false ∧
     a' = set_running (ddel (df_dedupe_key (rj_frame j)) (ag_running a)) byid
       (set_outbox o (set_ledger l (if recorded e then persist dump_frame l (ag_disk a) else ag_disk a) a)) ∧
     ∀ w, w ∈ rj_waiters j →
       ResultFrame (result_for f w.1 w.2 false) ∈ o ∨ fits (ResultFrame (result_for f w.1 w.2 false)) = false ∨
       (OUTBOX_CAPACITY < S (length o))%nat) }.

Lemma terminal_replayed d e ids s t : rf_replayed (terminal_frame d e ids s t) = false.
Proof. unfold NodeAgent.terminal_frame. by destruct (ending marker e) as [[[[? ?] ?] ?] ?]. Qed.

Lemma terminal_key d e ids s t : rf_dedupe_key (terminal_frame d e ids s t) = df_dedupe_key d.
Proof. unfold NodeAgent.terminal_frame. by destruct (ending marker e) as [[[[? ?] ?] ?] ?]. Qed.

Lemma run_end_cases key e s t ok a a' :
  run_end key e s t ok a = Some a' → ∃ j f l o byid, finished key e s t ok a a' j f l o byid.
Proof.
  unfold NodeAgent.run_end. destruct (dget key (ag_running a)) as [j|] eqn:Ej; [|done].
  destruct (rj_task j) eqn:Et; [done| |done]. destruct (end_ok marker e) eqn:Eok; [cbn [negb]|done].
  assert (Hrec : recorded e = negb (bool_decide ((ending marker e).1.1.1.1 = CANCELLED))) by done.
  destruct (ending marker e) as [[[[status reason] message] output] artifacts] eqn:Ee. simpl in Hrec.
  rewrite <- Hrec. set (arts := sent_artifacts marker e).
  assert (Hem := emit_only (rj_frame j) arts a). destruct (emit_artifacts (rj_frame j) arts a) as [ids a1]. simpl in Hem.
  unfold outbox_only in Hem. set (f := terminal_frame (rj_frame j) e ids s t).
  assert (Hl1 : ag_ledger a1 = ag_ledger a) by (rewrite Hem; done). rewrite Hl1.
  set (l := if recorded e then ledger_put _ f (ag_ledger a) else ag_ledger a).
  destruct (recorded e && lg_path l && negb ok) eqn:Eb; intros [= <-].
  - exists j, f, l, (ag_outbox a1), (ag_jobs_by_id a). split; try done; [by exists ids|]. left. split; [done|].
    rewrite Hem. done.
  - set (a2 := set_running _ _ _). destruct (answers_only f (rj_waiters j) a2) as (o & byid & E).
    assert (Hall := λ w, answers_all f (rj_waiters j) a2 w). rewrite E in Hall |- *.
    exists j, f, l, o, byid. split; try done; [by exists ids|]. right. split_and!; [done|unfold a2; by rewrite Hem|].
    intros w Hw. specialize (Hall w Hw). assert (Hr : rf_replayed f = false) by apply terminal_replayed.
    by rewrite Hr in Hall.
Qed.

(** Replacing the record of a job by one no livelier. *)
Lemma set_job_inv k j j' byid a :
  agent_inv a → dget k (ag_running a) = Some j → rj_frame j' = rj_frame j → (rj_task j = Ended → rj_task j' = Ended) →
  agent_inv (set_running (dset k j' (ag_running a)) byid a).
Proof.
  intros [] Hj Hf Ht. split; simpl; try done.
  - by apply dict_wf_dset.
  - apply dall_dset; [rewrite Hf; by apply av_keys0|done].
  - intros k' i. rewrite dget_dset. case_decide; subst; [|by apply av_live0].
    intros [= <-] Hn. apply (av_live0 k' j Hj). auto.
Qed.

Lemma outbox_inv o a : agent_inv a → agent_inv (set_outbox o a).
Proof. intros []. by split. Qed.

Lemma accept_inv d now a : agent_inv a → agent_inv (accept_job d now a).
Proof.
  intros Ha. destruct (accept_cases d now a) as [o Hav|f o Hav Hf|j o Hn Hj|o Hn Hj]; apply outbox_inv; [done| | |].
  - destruct Ha. destruct av_ledger0 as (Hw & Hk & Hl).
    destruct (ledger_get_spec (df_dedupe_key d) (ag_ledger a) Hw) as (_ & Hg & _ & _ & Hw' & Hl').
    assert (Hsame : ∃ e, (ledger_get (df_dedupe_key d) (ag_ledger a)).2 = with_entries (ag_ledger a) e).
    { unfold ledger_get. destruct (dget _ _); [by eexists|exists (lg_entries (ag_ledger a)); by destruct (ag_ledger a)]. }
    destruct Hsame as [e He]. rewrite He in *. simpl in *. split; simpl; try done.
    + split_and!; simpl; [done| |lia]. intros k g. rewrite Hg. apply Hk.
    + intros k j Hkj Ht. rewrite Hg. by eapply av_live0.
  - by eapply set_job_inv.
  - destruct Ha. split; simpl; try done.
    + by apply dict_wf_dset.
    + by apply dall_dset.
    + intros k i. rewrite dget_dset. case_decide; subst; [|by apply av_live0]. by intros.
Qed.

Lemma cancel_task_frame j : rj_frame (cancel_task j) = rj_frame j ∧ (rj_task j = Ended → rj_task (cancel_task j) = Ended).
Proof. unfold cancel_task. by destruct (rj_task j) eqn:E; simpl; rewrite ?E. Qed.

Lemma handle_frame_inv f now a : agent_inv a → agent_inv (agent_handle f now a).
Proof.
  intros Ha. destruct f; simpl; try done; [by apply accept_inv| |].
  - destruct (dget job_id (ag_jobs_by_id a)) as [key|]; [|done].
    destruct (is_empty key); [done|]. destruct (dget key (ag_running a)) as [j|] eqn:Ej; [|done].
    destruct (cancel_task_frame j). by eapply set_job_inv.
  - by destruct Ha; split.
Qed.

Lemma run_start_inv key a a' : run_start key a = Some a' → agent_inv a → agent_inv a'.
Proof.
  unfold run_start. destruct (dget key (ag_running a)) as [j|] eqn:Ej; [|done]. destruct (rj_task j) eqn:Et; [|done..].
  intros [= <-] Ha. eapply set_job_inv; [done|done|done|]. by rewrite Et.
Qed.

Lemma report_inv key message a : agent_inv a → agent_inv (report key message a).
Proof.
  intros Ha. unfold NodeAgent.report. destruct (dget key (ag_running a)) as [j|] eqn:Ej; [|done].
  destruct (_ <=? _); [done|]. enqueue_step. eapply (set_job_inv _ j); [by apply outbox_inv|done|done|done].
Qed.

Lemma run_end_inv key e s t ok a a' : run_end key e s t ok a = Some a' → agent_inv a → agent_inv a'.
Proof.
  intros H Ha. apply run_end_cases in H as (j & f & l & o & byid & [Hj Ht [ids Hf] Hl Hc]). destruct Ha.
  assert (Hkey := av_keys0 key j Hj). simpl in Hkey.
  assert (Hlok : ledger_ok l ∧ lg_capacity l = lg_capacity (ag_ledger a) ∧ lg_node_id l = lg_node_id (ag_ledger a) ∧
    (∀ k, k ≠ key → dget k (lg_entries (ag_ledger a)) = None → dget k (lg_entries l) = None)).
  { subst l. destruct (recorded e); [|done]. rewrite Hkey.
    destruct (ledger_put_spec key f (ag_ledger a) av_ledger0) as (H1 & _ & _ & _ & H5);
      [subst f; by rewrite terminal_key|done|]. done. }
  destruct Hlok as (Hlok & Hcap & Hid & Hnone). clear Hl.
  destruct Hc as [[_ ->]|(_ & -> & _)]; split; simpl; try done; try lia; try congruence.
  - by apply dict_wf_dset.
  - by apply dall_dset.
  - intros k i. rewrite dget_dset. case_decide; subst; [by intros [= <-]|]. intros Hk Hn. apply Hnone; [congruence|]. by eapply av_live0.
  - by apply dict_wf_ddel.
  - by apply dall_ddel.
  - intros k i Hk Hn. destruct (decide (k = key)) as [->|Hne]; [rewrite Hkey in Hk; by rewrite dget_ddel_eq in Hk|].
    rewrite Hkey, dget_ddel_ne in Hk by congruence. apply Hnone; [done|]. by eapply av_live0.
Qed.

Lemma run_invalid_cases key e a a' : run_invalid fits marker key e a = Some a' →
  ∃ j o, dget key (ag_running a) = Some j ∧ rj_task j = Executing ∧
    a' = set_running (dset key (with_task j Ended) (ag_running a)) (ag_jobs_by_id a) (set_outbox o a).
Proof.
  unfold run_invalid. destruct (dget key (ag_running a)) as [j|]; [|done]. destruct (rj_task j) eqn:Et; [done| |done].
  destruct (end_ok marker e); [done|]. intros [= <-].
  destruct (emit_ex (rj_frame j) (accepted_artifacts (sent_artifacts marker e)) a) as [o ->]. by exists j, o.
Qed.

Lemma run_invalid_inv key e a a' : run_invalid fits marker key e a = Some a' → agent_inv a → agent_inv a'.
Proof. intros (j & o & Hj & Ht & ->)%run_invalid_cases Ha. by apply (set_job_inv _ j _ _ (set_outbox o a)); [apply outbox_inv|..]. Qed.

Lemma run_finally_inv a : agent_inv a → agent_inv (run_finally a).
Proof.
  intros []. split; simpl; try done.
  - unfold dict_wf. by rewrite dkeys_map.
  - intros k j. rewrite dget_map. destruct (dget k (ag_running a)) as [i|] eqn:E; [|done]. intros [= <-].
    destruct (cancel_task_frame i) as [-> _]. by apply av_keys0.
  - intros k j. rewrite dget_map. destruct (dget k (ag_running a)) as [i|] eqn:E; [|done]. intros [= <-] Hn.
    apply (av_live0 k i E). intros Hi. by apply Hn, (cancel_task_frame i).
Qed.

(** Whatever is on disk, a ledger that loads is well formed. *)
Lemma load_entries_ok items acc e :
  load_entries validate_frame items acc = Some e → dict_wf acc → dall (λ k f, rf_dedupe_key f = k) acc →
  dict_wf e ∧ dall (λ k f, rf_dedupe_key f = k) e.
Proof.
  revert acc. induction items as [|i items IH]; intros acc H Hw Hk; simpl in H; [by injection H as <-|].
  destruct i as [| | | | |item]; try done. destruct (negb _); [done|].
  destruct (dget "dedupe_key" item) as [k|], (dget "result" item) as [r|]; try done.
  destruct (validate_frame r) as [f|]; [|done]. simpl in H. destruct k; try done.
  destruct (bool_decide (s = rf_dedupe_key f)) eqn:E; [|done]. apply bool_decide_eq_true in E. simpl in H.
  destruct (dmem s acc); [done|]. eapply IH; [done|by apply dict_wf_dset|by apply dall_dset].
Qed.

Lemma open_ledger_ok capacity path node_id disk l d :
  open_ledger dump_frame validate_frame capacity path node_id disk = Some (l, d) →
  ledger_ok l ∧ lg_capacity l = capacity ∧ lg_path l = path ∧ lg_node_id l = node_id.
Proof.
  assert (Hnil : ∀ p, ledger_ok (mkLedger capacity p node_id [])).
  { intros p. split_and!; simpl; [apply dict_wf_nil|done|lia]. }
  unfold open_ledger. destruct path, disk as [raw|]; try (intros [= <- <-]; by split_and!). unfold load.
  destruct raw as [| | | | |o]; try done. destruct (negb _); [done|].
  destruct (dget "version" o), (dget "node_id" o) as [i|], (dget "entries" o) as [[| | | |items|]|]; try done.
  destruct (negb _); [done|]. destruct i; try done. destruct (negb _); [intros [= <- <-]; by split_and!|].
  destruct (load_entries validate_frame items []) as [e|] eqn:El; [|done]. intros [= <- <-].
  apply load_entries_ok in El as [Hw Hk]; [|apply dict_wf_nil|done]. split; [|done]. split_and!; simpl.
  - by apply dict_wf_trim.
  - intros k f Hf%trim_subset; [by apply Hk|done].
  - apply trim_length.
Qed.

Lemma new_agent_inv i p arch sv prov capacity path disk a :
  new_agent dump_frame validate_frame i p arch sv prov capacity path disk = Some a → (0 < capacity)%nat → agent_inv a.
Proof.
  unfold new_agent. destruct (open_ledger _ _ _ _ _ _) as [[l d]|] eqn:El; [|done]. intros [= <-] Hc.
  apply open_ledger_ok in El as (Hl & Hcap & _ & Hid). split; simpl; try done; [lia|apply dict_wf_nil].
Qed.

Lemma agent_step_inv a l a' : agent_step a l a' → agent_inv a → agent_inv a'.
Proof.
  intros Hs Ha. destruct Hs.
  - by apply handle_frame_inv.
  - by eapply run_start_inv.
  - by apply report_inv.
  - by eapply run_end_inv.
  - by eapply run_invalid_inv.
  - unfold heartbeat. enqueue_step. by destruct Ha; split.
  - by apply outbox_inv.
  - by destruct Ha; split.
  - unfold agent_ready in H. apply bind_Ok in H as (f & _ & H). destruct f; try done. injection H as <-. by destruct Ha; split.
  - by apply run_finally_inv.
  - eapply new_agent_inv; [done|apply Ha].
Qed.

(** The ledger holds the result of [k] with at most [n] newer ones, and so does
    its file. *)
Record held (k : string) (f : JobResultFrame) (n : nat) (a : Agent) : Prop := mkHeld {
  hd_path : lg_path (ag_ledger a) = true;
  hd_entry : dget k (lg_entries (ag_ledger a)) = Some f;
  hd_rank : (rank k (lg_entries (ag_ledger a)) ≤ n)%nat;
  hd_disk : ∃ e, ag_disk a = Some (ledger_json dump_frame (with_entries (ag_ledger a) e)) ∧ dict_wf e ∧
    dall (λ k f, rf_dedupe_key f = k) e ∧ dget k e = Some f ∧ (rank k e ≤ n)%nat }.

(** Nothing but the ledger and its file matters for that. *)
Lemma held_same k f n a a' : ag_ledger a' = ag_ledger a → ag_disk a' = ag_disk a → held k f n a → held k f n a'.
Proof. intros El Ed []. split; by rewrite ?El, ?Ed. Qed.

Lemma accept_held k f n d now a l :
  agent_inv a → held k f n a →
  l = frame_label (JobDispatchFrame (df_job_id d) (df_attempt d) (df_dedupe_key d) (df_capability d) (df_parameters d)
        (df_deadline_seconds d) (df_max_output_bytes d) (df_max_progress_events d)) a →
  held k f (n + touch l) (accept_job d now a).
Proof.
  intros Ha Hh ->. simpl.
  destruct (accept_cases d now a) as [o Hav|g o Hav Hg|j o Hn Hj|o Hn Hj].
  - rewrite Hav. simpl. rewrite Nat.add_0_r. by eapply held_same; [| |done].
  - rewrite Hav. unfold dmem. rewrite Hg. simpl. destruct Hh as [Hp He Hr (e & Hd & Hw & Hk & Hge & Hre)].
    destruct (av_ledger _ Ha) as (Hwl & _).
    destruct (ledger_get_spec (df_dedupe_key d) (ag_ledger a) Hwl) as (_ & Hget & Hrank & Hself & _).
    split; simpl.
    + unfold ledger_get. rewrite Hg. exact Hp.
    + by rewrite Hget.
    + destruct (decide (k = df_dedupe_key d)) as [->|Hne]; [lia|].
      assert (Hne' := Hrank k Hne). unfold dmem in Hne'. rewrite Hg in Hne'. specialize (Hne' ltac:(congruence)). lia.
    + exists e. split_and!; try done; [|lia]. rewrite Hd. unfold ledger_get. by rewrite Hg.
  - unfold dmem. rewrite Hn, andb_false_r. simpl. rewrite Nat.add_0_r. by eapply held_same; [| |done].
  - unfold dmem. rewrite Hn, andb_false_r. simpl. rewrite Nat.add_0_r. by eapply held_same; [| |done].
Qed.

Lemma run_end_held k f n key e s t ok a a' :
  agent_inv a → held k f n a → run_end key e s t ok a = Some a' →
  (n + touch (end_label key e) < lg_capacity (ag_ledger a))%nat → held k f (n + touch (end_label key e)) a'.
Proof.
  intros Ha Hh H Hn. apply run_end_cases in H as (j & g & l & o & byid & [Hj Ht [ids Hf] Hl Hc]).
  unfold end_label in *. destruct (recorded e) eqn:Er; simpl in *.
  2: { rewrite Nat.add_0_r. subst l. destruct Hc as [[? _]|(_ & -> & _)]; [done|]. by eapply held_same; [| |done]. }
  assert (Hkey := av_keys _ Ha key j Hj). simpl in Hkey. rewrite Hkey in *.
  assert (Hlive : dget key (lg_entries (ag_ledger a)) = None) by (eapply (av_live _ Ha); [done|by rewrite Ht]).
  destruct Hh as [Hp He Hr (e0 & Hd & Hw & Hk & Hge & Hre)]. assert (Hne : k ≠ key) by congruence.
  destruct (ledger_put_spec key g (ag_ledger a) (av_ledger _ Ha)) as (Hlok & _ & _ & Hput & _);
    [subst g; by rewrite terminal_key|apply Ha|].
  destruct (Hput k f Hne He) as [Hget Hrank]; [lia|]. rewrite <- Hl in *.
  assert (Hlp : lg_path l = true) by (by rewrite Hl). assert (Hli : lg_node_id l = lg_node_id (ag_ledger a)) by (by rewrite Hl).
  clear Hl. destruct Hc as [[_ ->]|(_ & -> & _)]; split; simpl; try done; try lia.
  - exists e0. split_and!; try done; [|lia]. rewrite Hd. unfold ledger_json. simpl. by rewrite Hli.
  - exists (lg_entries l). unfold persist. rewrite Hlp. destruct Hlok as (? & ? & ?). split_and!; try done; try lia.
Qed.

(** [model_validate] accepts what [model_dump] wrote. *)
Context (frame_roundtrip : ∀ f, validate_frame (dump_frame f) = Some f).

Lemma restart_held k f n a a' p arch sv prov :
  agent_inv a → held k f n a → (n < lg_capacity (ag_ledger a))%nat →
  new_agent dump_frame validate_frame (ag_identity a) p arch sv prov (lg_capacity (ag_ledger a)) (lg_path (ag_ledger a))
    (ag_disk a) = Some a' →
  held k f n a'.
Proof.
  intros Ha [Hp He Hr (e & Hd & Hw & Hk & Hge & Hre)] Hn. unfold new_agent. rewrite Hp, Hd, <- (av_identity _ Ha).
  rewrite (open_persisted dump_frame validate_frame frame_roundtrip (ag_ledger a) e Hp Hw Hk). simpl. intros [= <-].
  destruct (trim_keeps (lg_capacity (ag_ledger a)) e k f Hge) as [H1 H2]; [lia|].
  split; simpl; try done; [by rewrite H2|]. exists e. by split_and!.
Qed.

(** The steps that leave the ledger and its file alone. *)
Definition ledger_same (a a' : Agent) : Prop := ag_ledger a' = ag_ledger a ∧ ag_disk a' = ag_disk a.

Lemma step_ledger a l a' :
  agent_step a l a' →
  ledger_same a a' ∨
  (∃ d now, l = frame_label (JobDispatchFrame (df_job_id d) (df_attempt d) (df_dedupe_key d) (df_capability d)
       (df_parameters d) (df_deadline_seconds d) (df_max_output_bytes d) (df_max_progress_events d)) a ∧ a' = accept_job d now a) ∨
  (∃ key e s t ok, l = end_label key e ∧ run_end key e s t ok a = Some a') ∨
  (l = LRestart ∧ ∃ p arch sv prov, new_agent dump_frame validate_frame (ag_identity a) p arch sv prov
     (lg_capacity (ag_ledger a)) (lg_path (ag_ledger a)) (ag_disk a) = Some a').
Proof.
  intros Hs. destruct Hs; try (by left); try (by eauto 12).
  - destruct f; try (by left).
    + right; left. by exists (mkDispatch job_id attempt dedupe_key capability parameters deadline_seconds max_output_bytes max_progress_events), now.
    + left. simpl. by repeat case_match.
  - left. unfold run_start in H. repeat case_match; simplify_eq; done.
  - left. unfold NodeAgent.report. repeat case_match; [done| |done]. enqueue_step. done.
  - left. by apply run_invalid_cases in H as (j & o & _ & _ & ->).
  - left. unfold heartbeat. enqueue_step. done.
  - left. unfold agent_ready in H. apply bind_Ok in H as (f & _ & H). destruct f; try done. by injection H as <-.
Qed.

Lemma step_capacity a l a' : agent_step a l a' → lg_capacity (ag_ledger a') = lg_capacity (ag_ledger a).
Proof.
  intros [[-> _]|[(d & now & _ & ->)|[(key & e & s & t & ok & _ & H)|(_ & p & arch & sv & prov & H)]]]%step_ledger.
  - done.
  - destruct (accept_cases d now a); try done. simpl. unfold ledger_get. by case_match.
  - apply run_end_cases in H as (j & g & l0 & o & byid & [_ _ _ -> Hc]).
    destruct Hc as [[_ ->]|(_ & -> & _)]; simpl; by destruct (recorded e).
  - unfold new_agent in H. destruct (open_ledger _ _ _ _ _ _) as [[l0 d]|] eqn:El; [|done]. injection H as <-.
    by apply open_ledger_ok in El as (_ & ? & _).
Qed.

Lemma agent_step_held k f n a l a' :
  agent_inv a → held k f n a → agent_step a l a' → (n + touch l < lg_capacity (ag_ledger a))%nat →
  held k f (n + touch l) a'.
Proof.
  intros Ha Hh Hs Hn. apply step_ledger in Hs as [[El Ed]|[(d & now & Hl & ->)|[(key & e & s & t & ok & -> & H)|(-> & p & arch & sv & prov & H)]]].
  - destruct (held_same k f n a a' El Ed Hh) as [? ? ? (e & ? & ? & ? & ? & ?)].
    split; try done; [lia|]. exists e. split_and!; try done; lia.
  - by eapply accept_held.
  - by eapply run_end_held.
  - simpl in *. rewrite Nat.add_0_r in *. by eapply restart_held.
Qed.

(** No work starts on a key the ledger holds. *)
Lemma held_no_start k f n a a' : agent_inv a → held k f n a → ¬ agent_step a (LStart k) a'.
Proof.
  intros Ha Hh Hs. remember (LStart k) as l eqn:El. destruct Hs as [|key a a' Hr| | | | | | | | |]; try done.
  - unfold frame_label in El. by repeat case_match.
  - injection El as ->. unfold run_start in Hr. destruct (dget k (ag_running a)) as [j|] eqn:Ej; [|done].
    destruct (rj_task j) eqn:Et; [|done..]. assert (Hn := av_live _ Ha k j Ej). rewrite Et in Hn.
    destruct Hh. rewrite Hn in hd_entry0; done.
  - unfold end_label in *. by case_match.
Qed.

Lemma trace_held k f n a ls a' :
  agent_trace a ls a' → agent_inv a → held k f n a → (n + touches ls < lg_capacity (ag_ledger a))%nat →
  LStart k ∉ ls ∧ agent_inv a' ∧ held k f (n + touches ls) a'.
Proof.
  intros Ht. revert n. induction Ht as [a|a l b ls c Hs Ht IH]; intros n Ha Hh Hn.
  - unfold touches. simpl. rewrite Nat.add_0_r. split_and!; [apply not_elem_of_nil|done|done].
  - assert (Hsum : touches (l :: ls) = (touch l + touches ls)%nat) by done. rewrite Hsum, Nat.add_assoc in *.
    destruct (IH (n + touch l)%nat) as (H1 & H2 & H3).
    + by eapply agent_step_inv.
    + eapply agent_step_held; [done|done|done|lia].
    + by rewrite (step_capacity _ _ _ Hs).
    + split_and!; [|done|done]. apply not_elem_of_cons. split; [|done]. intros <-. exact (held_no_start k f n a b Ha Hh Hs).
Qed.
End AgentFacts.
