(* ===== verification/NodeAgentProps.v ===== *)
(** The theorems about the node agent: exactly-once execution, answers to every
    waiter, a task that can wedge, the handshake from both ends, and the scopes
    the agent enforces. *)

From S2P Require Import Prelude PyDict PyTime Json Sha256 Redaction NodeModels NodeScopes NodeScopesFacts NodeAudit.
From S2P Require Import NodeStore NodeCrypto NodeRegistry NodeRegistryFacts AgentFiles NodeSession NodeRegistryExamples.
From S2P Require Import NodeSessionFacts NodeAgent NodeAgentFacts.

Open Scope Z_scope.

Section Jobs.
Context (dump_frame : JobResultFrame → json) (validate_frame : json → option JobResultFrame).
Context (fits : ClientFrame → bool) (marker : string).
(** [model_validate] accepts what [model_dump] wrote. *)
Context (frame_roundtrip : ∀ f, validate_frame (dump_frame f) = Some f).
Notation run_end := (run_end dump_frame fits marker).
Notation accept_job := (accept_job fits).
Notation agent_step := (agent_step dump_frame validate_frame fits marker).
Notation agent_trace := (agent_trace dump_frame validate_frame fits marker).
Notation terminal_frame := (terminal_frame marker).

(** An agent that was started and did any number of steps since. *)
Definition agent_reachable (a : Agent) : Prop :=
  ∃ i p arch sv prov capacity path disk a0 ls,
    (0 < capacity)%nat ∧
    new_agent dump_frame validate_frame i p arch sv prov capacity path disk = Some a0 ∧ agent_trace a0 ls a.

Lemma agent_trace_inv a ls a' : agent_trace a ls a' → agent_inv a → agent_inv a'.
Proof. induction 1; [done|]. intros. apply IHagent_trace. by eapply agent_step_inv. Qed.

Lemma agent_reachable_inv a : agent_reachable a → agent_inv a.
Proof.
  intros (i & p & arch & sv & prov & c & path & disk & a0 & ls & Hc & Hn & Ht).
  eapply agent_trace_inv; [done|]. by eapply new_agent_inv.
Qed.

(** A frame could not be queued: it exceeds the wire bound or the outbox is full. *)
Definition unsendable (f : ClientFrame) (a : Agent) : Prop :=
  fits f = false ∨ (OUTBOX_CAPACITY ≤ length (ag_outbox a))%nat.

Lemma accept_replays d now a f :
  available a (df_capability d) = true → dget (df_dedupe_key d) (lg_entries (ag_ledger a)) = Some f →
  ag_running (accept_job d now a) = ag_running a ∧
  (ResultFrame (result_for f (df_job_id d) (df_attempt d) true) ∈ ag_outbox (accept_job d now a) ∨
   unsendable (ResultFrame (result_for f (df_job_id d) (df_attempt d) true)) (accept_job d now a)).
Proof.
  intros Hav Hf. unfold NodeAgent.accept_job. rewrite <- negb_andb. unfold available in Hav. rewrite Hav. simpl.
  unfold ledger_get. rewrite Hf. set (r := ResultFrame _). set (b := NodeAgent.enqueued fits (JobAckFrame _ _ _ _) _).
  split.
  - destruct (enqueued_ex fits r b) as [o ->]. unfold b.
    match goal with |- context[NodeAgent.enqueued fits ?f ?x] => destruct (enqueued_ex fits f x) as [o' ->] end. done.
  - destruct (enqueued_in fits r b) as [Hin|[Hsame [Hl|[Hl|Hl]]]]; [by left|right; right; rewrite Hsame; lia|by right; left|right; right; rewrite Hsame; lia].
Qed.

(** C17. Work recorded once is never done again. After a job of a persistent
    ledger ended with a result that was written, and until as many as the
    capacity of other results were recorded or replayed, no execution of the same
    dedupe key begins, whatever frames arrive, sessions end or processes restart;
    the recorded result stays the one that was produced, and a further dispatch
    of that key only queues it again. *)
Theorem agent_exactly_once key e started finished_at a a1 ls a2 :
  agent_reachable a → lg_path (ag_ledger a) = true →
  run_end key e started finished_at true a = Some a1 → recorded marker e = true →
  agent_trace a1 ls a2 → (touches ls < lg_capacity (ag_ledger a))%nat →
  ∃ j ids, dget key (ag_running a) = Some j ∧
    let f := terminal_frame (rj_frame j) e ids started finished_at in
    LStart key ∉ ls ∧ dget key (lg_entries (ag_ledger a2)) = Some f ∧
    ∀ d now, df_dedupe_key d = key → available a2 (df_capability d) = true →
      ag_running (accept_job d now a2) = ag_running a2 ∧
      (ResultFrame (result_for f (df_job_id d) (df_attempt d) true) ∈ ag_outbox (accept_job d now a2) ∨
       unsendable (ResultFrame (result_for f (df_job_id d) (df_attempt d) true)) (accept_job d now a2)).
Proof.
  intros Ha%agent_reachable_inv Hp Hend Hrec Ht Hn.
  assert (Ha1 : agent_inv a1) by (by eapply run_end_inv).
  apply run_end_cases in Hend as (j & f & l & o & byid & [Hj _ [ids Hf] Hl Hc]).
  rewrite Hrec in Hl, Hc. destruct Hc as [[Hb _]|(_ & Ha1' & _)]; [by rewrite andb_false_r in Hb|].
  assert (Hkey := av_keys _ Ha key j Hj). simpl in Hkey. rewrite Hkey in Hl.
  destruct (ledger_put_spec key f (ag_ledger a) (av_ledger _ Ha)) as (Hlok & Hget & Hrank & _);
    [subst f; by rewrite terminal_key|apply Ha|].
  assert (Hcap : lg_capacity (ag_ledger a1) = lg_capacity (ag_ledger a)) by (rewrite Ha1', Hl; done).
  assert (Hl1 : ag_ledger a1 = ledger_put key f (ag_ledger a)) by (rewrite Ha1', Hl; done).
  assert (Hd1 : ag_disk a1 = Some (ledger_json dump_frame (ledger_put key f (ag_ledger a)))).
  { rewrite Ha1', Hl. simpl. unfold persist. simpl. by rewrite Hp. }
  assert (Hheld : held dump_frame key f 0 a1).
  { split; rewrite ?Hl1, ?Hd1; [done|done|by rewrite Hrank|].
    exists (lg_entries (ledger_put key f (ag_ledger a))). destruct Hlok as (? & ? & _). split_and!; try done. by rewrite Hrank. }
  destruct (trace_held dump_frame validate_frame fits marker frame_roundtrip key f 0 a1 ls a2 Ht Ha1 Hheld) as (Hno & Ha2 & [? He _ _]);
    [rewrite Hcap; lia|].
  exists j, ids. split; [done|]. simpl. rewrite <- Hf. split_and!; [done|done|].
  intros d now Hd Hav. apply accept_replays; [done|]. by rewrite Hd.
Qed.

(** Every waiter is answered. When a job's provider ends and the ledger could
    be written, the job is gone from the running table, its result is in the
    ledger unless it was cancelled, and each dispatch that was waiting on it has
    a result frame with its own job id and attempt in the outbox, unless that
    frame exceeds the wire bound or the outbox is full. *)
Theorem job_answers_waiters key e started finished_at a a' :
  agent_reachable a → run_end key e started finished_at true a = Some a' →
  ∃ j ids, dget key (ag_running a) = Some j ∧
    let f := terminal_frame (rj_frame j) e ids started finished_at in
    dget key (ag_running a') = None ∧
    (∀ k, k ≠ key → dget k (ag_running a') = dget k (ag_running a)) ∧
    (recorded marker e = true → dget key (lg_entries (ag_ledger a')) = Some f) ∧
    ∀ w, w ∈ rj_waiters j → ResultFrame (result_for f w.1 w.2 false) ∈ ag_outbox a' ∨
      unsendable (ResultFrame (result_for f w.1 w.2 false)) a'.
Proof.
  intros Ha%agent_reachable_inv Hend.
  apply run_end_cases in Hend as (j & f & l & o & byid & [Hj _ [ids Hf] Hl Hc]).
  destruct Hc as [[Hb _]|(_ & -> & Hw)]; [by rewrite andb_false_r in Hb|].
  assert (Hkey := av_keys _ Ha key j Hj). simpl in Hkey. rewrite Hkey in *.
  exists j, ids. split; [done|]. simpl. rewrite <- Hf. split_and!.
  - apply dget_ddel_eq, Ha.
  - intros. by rewrite dget_ddel_ne.
  - intros Hr. rewrite Hl, Hr.
    by destruct (ledger_put_spec key f (ag_ledger a) (av_ledger _ Ha)) as (_ & Hget & _); [subst f; by rewrite terminal_key|apply Ha|].
  - intros w Hin. destruct (Hw w Hin) as [?|[?|?]]; [by left|by right; left|right; right; simpl; lia].
Qed.

(** ** A task cancelled before it started *)

(** The key has a running entry whose task is over, and no recorded result. *)
Definition stuck (k : string) (a : Agent) : Prop :=
  (∃ j, dget k (ag_running a) = Some j ∧ rj_task j = Ended) ∧ dget k (lg_entries (ag_ledger a)) = None.

Lemma stuck_set k j j' a byid :
  (∃ i, dget k (ag_running a) = Some i ∧ rj_task i = Ended) → ∀ k', dget k' (ag_running a) = Some j →
  (rj_task j = Ended → rj_task j' = Ended) →
  ∃ i, dget k (ag_running (set_running (dset k' j' (ag_running a)) byid a)) = Some i ∧ rj_task i = Ended.
Proof.
  intros (i & Hi & Ht) k' Hj He. simpl. rewrite dget_dset. case_decide; [|by eauto]. subst k'.
  rewrite Hi in Hj. injection Hj as ->. eauto.
Qed.

Lemma stuck_accept k d now a : agent_inv a → stuck k a → stuck k (accept_job d now a).
Proof.
  intros Ha [Hj Hn]. destruct (accept_cases fits d now a) as [o _|f o _ Hf|j o Hd Hr|o Hd Hr]; simpl; [done| | |].
  - split; [done|]. simpl. destruct (av_ledger _ Ha) as (Hw & _).
    by destruct (ledger_get_spec (df_dedupe_key d) (ag_ledger a) Hw) as (_ & -> & _).
  - split; [|done]. apply (stuck_set k j (add_waiter j _) a (ag_jobs_by_id a) Hj); done.
  - split; [|done]. destruct Hj as (i & Hi & Ht). exists i. simpl. rewrite dget_dset, decide_False; [done|]. congruence.
Qed.

Lemma stuck_step k a l a' : agent_inv a → stuck k a → agent_step a l a' → l ≠ LRestart → stuck k a' ∧ l ≠ LStart k.
Proof.
  intros Ha Hs Hst Hl. destruct Hst as [f now a|key a a' Hr|key m a|key e s t ok a a' Hr|key e a a' Hr|now u a|a|a|a a' r Hr|a|]; [..|done].
  - split; [|unfold frame_label; by repeat case_match]. destruct f; simpl; try done; [by apply stuck_accept|].
    destruct (dget job_id (ag_jobs_by_id a)) as [key|]; [|done]. destruct (is_empty key); [done|].
    destruct (dget key (ag_running a)) as [j|] eqn:Ej; [|done]. destruct Hs as [Hj Hn]. split; [|done].
    destruct (cancel_task_frame j). by eapply stuck_set.
  - unfold run_start in Hr. destruct (dget key (ag_running a)) as [j|] eqn:Ej; [|done].
    destruct (rj_task j) eqn:Et; [|done..]. injection Hr as <-. destruct Hs as [Hj Hn]. split.
    + split; [|done]. eapply stuck_set; [done|done|]. by rewrite Et.
    + intros [= ->]. destruct Hj as (i & Hi & Hti). congruence.
  - split; [|done]. unfold NodeAgent.report. destruct (dget key (ag_running a)) as [j|] eqn:Ej; [|done].
    destruct (_ <=? _); [done|]. match goal with |- context[NodeAgent.enqueued fits ?f ?x] => destruct (enqueued_ex fits f x) as [o ->] end.
    destruct Hs as [Hj Hn]. split; [|done]. by apply (stuck_set k j _ (set_outbox o a) _ Hj key).
  - split; [|unfold end_label; by case_match].
    apply run_end_cases in Hr as (j & f & l & o & byid & [Hj Ht [ids Hf] Hle Hc]). destruct Hs as [(i & Hi & Hti) Hn].
    assert (Hkey := av_keys _ Ha key j Hj). simpl in Hkey. assert (Hne : k ≠ key) by congruence.
    assert (Hnl : dget k (lg_entries l) = None).
    { rewrite Hle. destruct (recorded marker e); [|done]. rewrite Hkey.
      destruct (ledger_put_spec key f (ag_ledger a) (av_ledger _ Ha)) as (_ & _ & _ & _ & H5);
        [subst f; by rewrite terminal_key|apply Ha|]. by apply H5. }
    destruct Hc as [[_ ->]|(_ & -> & _)]; split; try done; exists i; simpl; split; try done.
    + by rewrite dget_dset_ne.
    + by rewrite Hkey, dget_ddel_ne.
  - split; [|done]. apply run_invalid_cases in Hr as (j & o & Hj & Ht & ->). destruct Hs as [Hst Hn]. split; [|done].
    by apply (stuck_set k j _ (set_outbox o a) _ Hst key).
  - split; [|done]. unfold heartbeat. match goal with |- context[NodeAgent.enqueued fits ?f ?x] => destruct (enqueued_ex fits f x) as [o ->] end. done.
  - done.
  - done.
  - split; [|done]. unfold agent_ready in Hr. apply bind_Ok in Hr as (f & _ & Hr). destruct f; try done. by injection Hr as <-.
  - split; [|done]. destruct Hs as [(i & Hi & Ht) Hn]. split; [|done]. exists (cancel_task i). simpl.
    rewrite dget_map, Hi. split; [done|]. by apply (cancel_task_frame i).
Qed.

Lemma stuck_trace k a ls a' :
  agent_trace a ls a' → agent_inv a → stuck k a → LRestart ∉ ls → stuck k a' ∧ LStart k ∉ ls ∧ agent_inv a'.
Proof.
  induction 1 as [a|a l b ls c Hst Ht IH]; intros Ha Hs Hr; [split_and!; [done|apply not_elem_of_nil|done]|].
  apply not_elem_of_cons in Hr as [Hl Hr].
  destruct (stuck_step k a l b Ha Hs Hst) as [Hb Hn]; [congruence|].
  destruct IH as (? & ? & ?); [by eapply agent_step_inv|done|done|].
  split_and!; [done| |done]. apply not_elem_of_cons. split; [congruence|done].
Qed.

(** A cancel that arrives before the job's task has started wedges its
    dedupe key until the process restarts: the entry stays in the running table
    with a task that is over, so whatever follows, the work never begins, and
    every later dispatch of that key is acknowledged as a duplicate and gets no
    result. *)
Theorem cancel_before_start_wedges d now attempt reason a :
  agent_reachable a → available a (df_capability d) = true → is_empty (df_dedupe_key d) = false →
  dget (df_dedupe_key d) (lg_entries (ag_ledger a)) = None → dget (df_dedupe_key d) (ag_running a) = None →
  let k := df_dedupe_key d in
  let a1 := agent_handle fits (JobCancelFrame (df_job_id d) attempt reason) now (accept_job d now a) in
  ∀ ls a2, agent_trace a1 ls a2 → LRestart ∉ ls →
    LStart k ∉ ls ∧ dmem k (ag_running a2) = true ∧
    ∀ d' now', df_dedupe_key d' = k → available a2 (df_capability d') = true →
      ag_outbox (accept_job d' now' a2) = ag_outbox a2 ∨
      ag_outbox (accept_job d' now' a2) = ag_outbox a2 ++ [JobAckFrame (df_job_id d') (df_attempt d') true true].
Proof.
  intros Ha%agent_reachable_inv Hav Hk Hl Hr k a1 ls a2 Ht Hre.
  assert (H1 : agent_inv a1) by (by apply handle_frame_inv, accept_inv).
  assert (Hs : stuck k a1).
  { unfold a1, k. destruct (accept_cases fits d now a) as [o H|f o _ H|j o _ H|o _ _]; try congruence.
    simpl. rewrite dget_dset_eq, Hk, dget_dset_eq. split; [|done].
    eexists. simpl. rewrite dget_dset_eq. done. }
  destruct (stuck_trace k a1 ls a2 Ht H1 Hs Hre) as (((j & Hj & Hjt) & Hn) & Hno & _).
  split_and!; [done|unfold dmem; by rewrite Hj|].
  intros d' now' Hd' Hav'. unfold NodeAgent.accept_job. rewrite <- negb_andb. unfold available in Hav'. rewrite Hav'. simpl.
  unfold ledger_get. rewrite Hd', Hn. rewrite set_ledger_same, Hj.
  unfold NodeAgent.enqueued, NodeAgent.enqueue. simpl. match goal with |- context[if ?b then _ else _] => destruct b end; [by right|by left].
Qed.
End Jobs.

(** ** The handshake *)

Section Handshake.
Context (ed_key_ok : string → bool).
Context (ed_sign : string → string → string) (ed_verify : string → string → string → bool).
Notation agent_handshake := (agent_handshake ed_key_ok ed_sign ed_verify).
Notation agent_attest := (agent_attest ed_key_ok ed_sign ed_verify).

Lemma server_proof_binds p sid i nonce p' sid' i' nonce' :
  canonical_json (server_proof_payload p sid i nonce) = canonical_json (server_proof_payload p' sid' i' nonce') →
  p = p' ∧ sid = sid' ∧ i = i' ∧ nonce = nonce'.
Proof. intros H%canonical_json_inj. unfold server_proof_payload in H. vm_compute in H. by injection H. Qed.

(** The node proves itself only to its own control plane. The agent answers a
    challenge only when the challenge names the pinned key and is signed by it
    over this session, this node and the nonce the agent just drew; a signature
    over another session, node or nonce does not pass, nor one a node would make;
    and it serves under the terms of a session only after such a challenge. *)
Theorem agent_authenticates a node_nonce r1 r2 frames res :
  agent_handshake a node_nonce r1 r2 = (frames, res) →
  (∀ sid proof, AttestFrame sid proof ∈ frames →
    ∃ server_nonce server_proof key sig,
      r1 = ServerSent (ChallengeFrame PROTOCOL_ID sid server_nonce (ai_control_plane_key_id (ag_identity a)) server_proof) ∧
      load_public_key ed_key_ok (ai_control_plane_public_key (ag_identity a)) = Ok key ∧ decode_bytes server_proof = Ok sig ∧
      ∃ message, ed_verify key message sig = true ∧
        message = canonical_json (server_proof_payload PROTOCOL_ID sid (ai_node_id (ag_identity a)) node_nonce) ∧
        (∀ p sid' i nonce, message = canonical_json (server_proof_payload p sid' i nonce) →
           sid' = sid ∧ i = ai_node_id (ag_identity a) ∧ nonce = node_nonce) ∧
        (∀ p sid' i nonce digest, message ≠ canonical_json (node_proof_payload p sid' i nonce digest))) ∧
  (∀ a', res = Ok a' → (∃ sid proof, AttestFrame sid proof ∈ frames) ∧
     ∃ sid granted scopes, r2 = ServerSent (SessionReadyFrame sid granted scopes) ∧
       ag_granted a' = granted ∧ ag_scopes a' = scopes).
Proof.
  unfold NodeAgent.agent_handshake. destruct (agent_attest a node_nonce r1) as [f|e] eqn:Ea.
  2: { intros [= <- <-]. split; [|done]. intros sid proof [?|?%elem_of_nil]%elem_of_cons; done. }
  intros [= <- <-]. unfold NodeAgent.agent_attest in Ea. apply bind_Ok in Ea as (c & Hc & Ea).
  destruct r1 as [c'| |]; try done. injection Hc as ->. destruct c as [protocol sid0 snonce kid sproof| | | |]; try done.
  apply bind_Ok in Ea as (? & Hp%ensure_Ok & (? & Hk%ensure_Ok & (? & Hv & (proof0 & Hs & [= <-])%bind_Ok)%bind_Ok)%bind_Ok).
  apply bool_decide_eq_true in Hp as ->. apply bool_decide_eq_true in Hk as ->.
  apply verify_payload_Ok in Hv as (key & sig & Hkey & Hsig & Hver). split.
  - intros sid proof Hin. apply elem_of_cons in Hin as [?|Hin]; [done|]. apply list_elem_of_singleton in Hin as [= -> ->].
    exists snonce, sproof, key, sig. split_and!; try done. eexists. split_and!; [done|done| |].
    + intros p sid' i nonce (_ & -> & -> & ->)%server_proof_binds. done.
    + intros p sid' i nonce digest H. by eapply node_proof_not_server.
  - intros a' Hr. split; [exists sid0, proof0; set_solver|]. unfold agent_ready in Hr. apply bind_Ok in Hr as (c & Hc & Hr).
    destruct r2 as [c'| |]; try done. injection Hc as ->. destruct c; try done. injection Hr as <-. simpl. eauto 10.
Qed.
End Handshake.

(** ** Scoped providers *)

Lemma install_get {A} c (parse : obj → result exn A) wrap granted scopes providers c' x :
  dict_wf providers →
  dget c' (install c parse wrap granted scopes providers) = Some x ↔
  if decide (c' = c) then c ∈ granted ∧ ∃ o s, dget c scopes = Some o ∧ o ≠ [] ∧ parse o = Ok s ∧ x = wrap s
  else dget c' providers = Some x.
Proof.
  intros Hw. unfold install. case_decide as E; subst.
  - destruct (dget c scopes) as [[|kv o]|]; rewrite ?dget_ddel_eq by done; [naive_solver| |naive_solver].
    destruct (bool_decide (c ∈ granted)) eqn:Eg; [apply bool_decide_eq_true in Eg|apply bool_decide_eq_false in Eg].
    + destruct (parse (kv :: o)) as [s|e] eqn:Ep; [rewrite dget_dset_eq|rewrite dget_ddel_eq by done]; split; try done.
      * intros [= <-]. split; [done|]. by exists (kv :: o), s.
      * intros (_ & o' & s' & [= <-] & _ & Hp & ->). congruence.
      * intros (_ & o' & s' & [= <-] & _ & Hp & ->). congruence.
    + rewrite dget_ddel_eq by done. split; [done|]. by intros [? _].
  - repeat case_match; by rewrite ?dget_dset_ne, ?dget_ddel_ne by congruence.
Qed.

Lemma install_wf {A} c (parse : obj → result exn A) wrap granted scopes providers :
  dict_wf providers → dict_wf (install c parse wrap granted scopes providers).
Proof. intros Hw. unfold install. repeat case_match; try apply dict_wf_dset; by apply dict_wf_ddel. Qed.

Lemma scoped_providers_get platform granted scopes providers :
  dict_wf providers →
  let p := install_scoped_providers platform granted scopes providers in
  (∀ x, dget FILE_READ p = Some x ↔ FILE_READ ∈ granted ∧ ∃ o s, dget FILE_READ scopes = Some o ∧ o ≠ [] ∧
     read_from_mapping o platform = Ok s ∧ x = FileReadProvider s) ∧
  (∀ x, dget FILE_LIST p = Some x ↔ FILE_LIST ∈ granted ∧ ∃ o s, dget FILE_LIST scopes = Some o ∧ o ≠ [] ∧
     read_from_mapping o platform = Ok s ∧ x = FileListProvider s) ∧
  (∀ x, dget FILE_WRITE p = Some x ↔ FILE_WRITE ∈ granted ∧ ∃ o s, dget FILE_WRITE scopes = Some o ∧ o ≠ [] ∧
     write_from_mapping o platform = Ok s ∧ x = FileWriteProvider s) ∧
  (∀ c, requires_scope c = false → dget c p = dget c providers).
Proof.
  intros Hw p. unfold p, install_scoped_providers. split_and!; [intros x..|intros c Hc].
  - rewrite install_get by (by repeat apply install_wf). rewrite decide_False by done.
    rewrite install_get by (by repeat apply install_wf). rewrite decide_False by done. by rewrite install_get, decide_True.
  - rewrite install_get by (by repeat apply install_wf). rewrite decide_False by done.
    by rewrite install_get, decide_True by (done || by repeat apply install_wf).
  - by rewrite install_get, decide_True by (done || by repeat apply install_wf).
  - unfold requires_scope in Hc. apply bool_decide_eq_false in Hc.
    assert (Hne : c ≠ FILE_READ ∧ c ≠ FILE_LIST ∧ c ≠ FILE_WRITE) by (split_and!; set_solver).
    destruct Hne as (H1 & H2 & H3). apply option_eq. intros x.
    rewrite install_get by (by repeat apply install_wf). rewrite decide_False by done.
    rewrite install_get by (by repeat apply install_wf). rewrite decide_False by done.
    rewrite install_get by done. by rewrite decide_False.
Qed.

(** Scoped work fails closed: after a handshake the agent has a file provider
    exactly for the file capabilities this session granted together with a
    non-empty, well-formed scope, and that provider holds the scope the session
    delivered; what an earlier session left is gone, and the other providers are
    untouched. *)
Theorem scoped_providers_exact platform granted scopes providers :
  dict_wf providers →
  let p := install_scoped_providers platform granted scopes providers in
  (∀ x, dget FILE_READ p = Some x ↔ FILE_READ ∈ granted ∧ ∃ o s, dget FILE_READ scopes = Some o ∧ o ≠ [] ∧
     read_from_mapping o platform = Ok s ∧ x = FileReadProvider s) ∧
  (∀ x, dget FILE_LIST p = Some x ↔ FILE_LIST ∈ granted ∧ ∃ o s, dget FILE_LIST scopes = Some o ∧ o ≠ [] ∧
     read_from_mapping o platform = Ok s ∧ x = FileListProvider s) ∧
  (∀ x, dget FILE_WRITE p = Some x ↔ FILE_WRITE ∈ granted ∧ ∃ o s, dget FILE_WRITE scopes = Some o ∧ o ≠ [] ∧
     write_from_mapping o platform = Ok s ∧ x = FileWriteProvider s) ∧
  (∀ c, requires_scope c = false → dget c p = dget c providers).
Proof. apply scoped_providers_get. Qed.

(** ** Both ends together *)

Lemma parsed_built payload pf acc parsed :
  parse_scopes_go payload pf acc = Ok parsed → dall (λ c s, built pf (c, s)) acc → dall (λ c s, built pf (c, s)) parsed.
Proof.
  revert acc. induction payload as [|[c raw] payload IH]; intros acc H Hacc; cbn [parse_scopes_go] in H; [by injection H as <-|].
  destruct (requires_scope c) eqn:Er; [|by eapply IH]. destruct raw as [| | | | |o]; try done.
  apply bind_Ok in H as (s & Hs & H). eapply IH; [done|]. apply dall_dset; [|done]. split; [done|]. by exists o.
Qed.

Lemma scopes_built n parsed : scopes_of n = Ok parsed → dall (λ c s, built (n_platform n) (c, s)) parsed.
Proof. unfold scopes_of. intros (d & _ & H)%bind_Ok. eapply parsed_built; [done|]. by intros ? ?. Qed.

Lemma ready_scopes_get effective scopes c :
  c ∈ effective → dget c (ready_scopes effective scopes) = scope_to_mapping <$> dget c scopes.
Proof.
  intros Hc. unfold ready_scopes. induction scopes as [|[k s] scopes IH]; [done|]. cbn [List.filter fst].
  destruct (bool_decide (k ∈ effective)) eqn:E; simpl.
  - repeat case_decide; done.
  - apply bool_decide_eq_false in E. by rewrite decide_False by congruence.
Qed.

Lemma mapping_nonempty s : scope_to_mapping s ≠ [].
Proof. by destruct s. Qed.

(** What a scope written by the control plane is read back as. *)
Lemma mapping_read c s pf : built pf (c, ReadScope s) → read_from_mapping (read_to_mapping s) pf = Ok s.
Proof.
  intros [_ [payload Hb]]. unfold build_scope in Hb. simpl in Hb. destruct (bool_decide (c = FILE_WRITE)).
  - by destruct (write_from_mapping payload pf).
  - destruct (read_from_mapping payload pf) as [s'|] eqn:E; [|done]. injection Hb as ->.
    apply read_from_mapping_inv in E as [E <-]. by apply read_mapping_roundtrip.
Qed.

Lemma mapping_write c s pf : built pf (c, WriteScope s) → write_from_mapping (write_to_mapping s) pf = Ok s.
Proof.
  intros [_ [payload Hb]]. unfold build_scope in Hb. simpl in Hb. destruct (bool_decide (c = FILE_WRITE)).
  - destruct (write_from_mapping payload pf) as [s'|] eqn:E; [|done]. injection Hb as ->.
    apply write_from_mapping_inv in E as [E <-]. by apply write_mapping_roundtrip.
  - by destruct (read_from_mapping payload pf).
Qed.

Section Mutual.
Context (stamp : nat → datetime * string).
Context (ed_key_ok : string → bool) (ed_public : string → string).
Context (ed_sign : string → string → string) (ed_verify : string → string → string → bool).
(** What Ed25519 documents: public keys are 32 accepted bytes, signatures are
    non-empty and verify under the public key of the signing key. *)
Context (ed_public_ok : ∀ sk, String.length (ed_public sk) = 32%nat ∧ ed_key_ok (ed_public sk) = true).
Context (ed_sign_nonempty : ∀ sk m, is_empty (ed_sign sk m) = false).
Context (ed_sign_verify : ∀ sk m, ed_verify (ed_public sk) m (ed_sign sk m) = true).
Notation handshake := (handshake stamp ed_key_ok ed_sign ed_verify).
Notation handshake_body := (handshake_body stamp ed_key_ok ed_sign ed_verify).
Notation agent_handshake := (agent_handshake ed_key_ok ed_sign ed_verify).
Notation agent_attest := (agent_attest ed_key_ok ed_sign ed_verify).

Lemma key_signs priv pub payload : public_key_of ed_public priv = Ok pub → ∃ sig, sign_payload ed_sign priv payload = Ok sig.
Proof. intros (raw & Hraw & _)%bind_Ok. unfold sign_payload. rewrite Hraw. by eexists. Qed.

(** The control plane's side against an honest agent. *)
Lemma handshake_body_completes a node_nonce server_key server_nonce now s st r0 parsed proof attest :
  mesh_inv st → dget (ai_node_id (ag_identity a)) (s_nodes st) = Some r0 → n_revoked_at r0 = None →
  public_key_of ed_public (ai_private_key (ag_identity a)) = Ok (n_public_key r0) → scopes_of r0 = Ok parsed →
  sign_payload ed_sign server_key
    (server_proof_payload PROTOCOL_ID (ss_id s) (ai_node_id (ag_identity a)) node_nonce) = Ok proof →
  sign_payload ed_sign (ai_private_key (ag_identity a))
    (node_proof_payload PROTOCOL_ID (ss_id s) (ai_node_id (ag_identity a)) server_nonce
       (digest_of (JList (map JStr (declared_capabilities a))))) = Ok attest →
  ∃ n w', handshake_body server_key server_nonce now (GotFrame (agent_hello a node_nonce)) Sent
            (GotFrame (AttestFrame (ss_id s) attest)) Sent (mkWorld s st) = (Ok n, w') ∧
    n = node_attach r0 (ss_id s) now (ai_agent_version (ag_identity a)) (ag_architecture a)
          (normalize_capability_names (declared_capabilities a)) ∧
    ss_outbox (w_session w') = ss_outbox s ++ [ChallengeFrame PROTOCOL_ID (ss_id s) server_nonce (ss_key_id s) proof;
      SessionReadyFrame (ss_id s) (effective_capabilities n) (ready_scopes (effective_capabilities n) parsed)].
Proof.
  intros Hm Hr0 Hrev Hpub Hsc Hproof Hatt. unfold NodeSession.handshake_body, agent_hello.
  assert (n_node_id r0 = ai_node_id (ag_identity a)) as Hid by (eapply (sw_node_key _ (mi_wf _ Hm)); eauto).
  destruct (attach_session_cases stamp (ai_node_id (ag_identity a)) (ss_id s) (declared_capabilities a)
    (ai_agent_version (ag_identity a)) (ag_architecture a) now st Hm) as [[Hf _]|(r & Hr & _ & _ & Ho & _)].
  { exfalso. revert Hf. unfold attach_session. rewrite transaction_atomic. unfold run_atomic. cbn. rewrite Hr0. cbn. by rewrite Hrev. }
  rewrite Hr0 in Hr. injection Hr as <-.
  destruct (attach_session _ _ _ _ _ _ _ st) as [o st2] eqn:Ea. simpl in Ho. subst o.
  eexists (node_attach r0 (ss_id s) now (ai_agent_version (ag_identity a)) (ag_architecture a)
    (normalize_capability_names (declared_capabilities a))), _. set (n := node_attach _ _ _ _ _ _). split.
  { erewrite bind_run_Ok by done. cbv iota beta. erewrite bind_run_Ok by done.
    erewrite bind_run_Ok by (by rewrite find_node_run, Hr0). rewrite Hrev, Hid. do 2 erewrite bind_run_Ok by done.
    cbn [ss_id ss_key_id w_session]. rewrite Hproof. do 3 erewrite bind_run_Ok by done. cbv iota beta.
    rewrite bool_decide_eq_true_2 by done. erewrite bind_run_Ok by done.
    rewrite (verify_sign_payload ed_key_ok ed_public ed_sign ed_verify ed_public_ok ed_sign_nonempty ed_sign_verify _ _ _ _ _ Hpub Hatt).
    erewrite bind_run_Ok by done.
    erewrite bind_run_Ok by (unfold on_registry; simpl w_store; by rewrite Ea). erewrite bind_run_Ok by done. fold n.
    assert (Hsn : scopes_of n = Ok parsed) by exact Hsc. rewrite Hsn. do 2 erewrite bind_run_Ok by done. reflexivity. }
  split; [done|]. simpl. by rewrite <- app_assoc.
Qed.

(** C18. Honest peers agree. When the node's key and the control plane's key are
    the ones they enrolled with and the node is not revoked, the two handshakes,
    each fed the frames the other sent, both succeed; the agent then serves
    exactly the node's effective capabilities, and its file providers hold exactly
    the scopes the registry keeps for the node. *)
Theorem mutual_handshake a node_nonce server_key server_nonce now close s st r0 parsed :
  mesh_inv st → dict_wf (ag_providers a) →
  dget (ai_node_id (ag_identity a)) (s_nodes st) = Some r0 → n_revoked_at r0 = None →
  public_key_of ed_public (ai_private_key (ag_identity a)) = Ok (n_public_key r0) →
  public_key_of ed_public server_key = Ok (ai_control_plane_public_key (ag_identity a)) →
  ss_key_id s = ai_control_plane_key_id (ag_identity a) → scopes_of r0 = Ok parsed → ag_platform a = n_platform r0 →
  ∃ challenge attest ready n w' a',
    handshake server_key server_nonce now (GotFrame (agent_hello a node_nonce)) Sent (GotFrame attest) Sent close
      (mkWorld s st) = (Ok n, w') ∧
    ss_outbox (w_session w') = ss_outbox s ++ [challenge; ready] ∧
    agent_handshake a node_nonce (ServerSent challenge) (ServerSent ready) = ([agent_hello a node_nonce; attest], Ok a') ∧
    ag_granted a' = effective_capabilities n ∧
    (∀ sc, FILE_READ ∈ effective_capabilities n → dget FILE_READ parsed = Some (ReadScope sc) →
       dget FILE_READ (ag_providers a') = Some (FileReadProvider sc)) ∧
    (∀ sc, FILE_LIST ∈ effective_capabilities n → dget FILE_LIST parsed = Some (ReadScope sc) →
       dget FILE_LIST (ag_providers a') = Some (FileListProvider sc)) ∧
    (∀ sc, FILE_WRITE ∈ effective_capabilities n → dget FILE_WRITE parsed = Some (WriteScope sc) →
       dget FILE_WRITE (ag_providers a') = Some (FileWriteProvider sc)).
Proof.
  intros Hm Hw Hr0 Hrev Hpub Hspub Hkid Hsc Hpf.
  destruct (key_signs _ _ (server_proof_payload PROTOCOL_ID (ss_id s) (ai_node_id (ag_identity a)) node_nonce) Hspub) as [proof Hproof].
  destruct (key_signs _ _ (node_proof_payload PROTOCOL_ID (ss_id s) (ai_node_id (ag_identity a)) server_nonce
       (digest_of (JList (map JStr (declared_capabilities a))))) Hpub) as [att Hatt].
  destruct (handshake_body_completes a node_nonce server_key server_nonce now s st r0 parsed proof att)
    as (n & w' & Hb & Hn & Hout); [done..|].
  eexists _, _, _, n, w', _. split_and!.
  - unfold NodeSession.handshake. rewrite Hb. reflexivity.
  - exact Hout.
  - unfold NodeAgent.agent_handshake, NodeAgent.agent_attest. cbn [server_frame mbind result_bind].
    rewrite bool_decide_eq_true_2 by done. rewrite bool_decide_eq_true_2 by done. cbn [ensure mbind result_bind].
    rewrite (verify_sign_payload ed_key_ok ed_public ed_sign ed_verify ed_public_ok ed_sign_nonempty ed_sign_verify _ _ _ _ _ Hspub Hproof).
    cbn [mbind result_bind]. rewrite Hatt. cbn [mbind result_bind]. reflexivity.
  - reflexivity.
  - intros sc He Hg. apply (scoped_providers_get _ _ _ _ Hw). split; [done|]. rewrite Hpf.
    exists (read_to_mapping sc), sc. rewrite ready_scopes_get, Hg by done. split_and!; try done.
    eapply mapping_read, (scopes_built r0); done.
  - intros sc He Hg. apply (scoped_providers_get _ _ _ _ Hw). split; [done|]. rewrite Hpf.
    exists (read_to_mapping sc), sc. rewrite ready_scopes_get, Hg by done. split_and!; try done.
    eapply mapping_read, (scopes_built r0); done.
  - intros sc He Hg. apply (scoped_providers_get _ _ _ _ Hw). split; [done|]. rewrite Hpf.
    exists (write_to_mapping sc), sc. rewrite ready_scopes_get, Hg by done. split_and!; try done.
    eapply mapping_write, (scopes_built r0); done.
Qed.
End Mutual.

(** * A concrete agent: the node of [NodeRegistryExamples] connects to its control plane, runs a job, answers a retry from its ledger, and shows how a cancel can arrive too early *)

(** ** A JSON form of result frames *)

Definition all_statuses : list NodeJobStatus :=
  [PENDING; DISPATCHED; RUNNING; SUCCEEDED; FAILED; CANCELLED; REJECTED; TIMED_OUT].
Definition status_of (s : string) : option NodeJobStatus :=
  match List.find (λ x, bool_decide (status_value x = s)) all_statuses with Some x => Some x | None => None end.
Definition str_of (j : json) : option string := match j with JStr s => Some s | _ => None end.

Definition toy_dump (f : JobResultFrame) : json :=
  JObj [("job_id", JStr (rf_job_id f)); ("attempt", JInt (rf_attempt f)); ("dedupe_key", JStr (rf_dedupe_key f));
        ("status", JStr (status_value (rf_status f))); ("output", rf_output f);
        ("output_truncated", JBool (rf_output_truncated f)); ("output_redacted", JBool (rf_output_redacted f));
        ("artifact_ids", JList (map JStr (rf_artifact_ids f))); ("reason", JStr (rf_reason f));
        ("message", JStr (rf_message f)); ("started_at", JStr (rf_started_at f)); ("finished_at", JStr (rf_finished_at f));
        ("replayed", JBool (rf_replayed f))].
Definition toy_validate (j : json) : option JobResultFrame :=
  match j with
  | JObj [(_, JStr job_id); (_, JInt attempt); (_, JStr key); (_, JStr status); (_, output); (_, JBool truncated);
          (_, JBool redacted); (_, JList ids); (_, JStr reason); (_, JStr message); (_, JStr started);
          (_, JStr finished); (_, JBool replayed)] =>
      st ← status_of status; l ← mapM str_of ids;
      Some (mkResult job_id attempt key st output truncated redacted l reason message started finished replayed)
  | _ => None
  end.

Lemma toy_roundtrip f : toy_validate (toy_dump f) = Some f.
Proof.
  destruct f as [? ? ? st ? ? ? ids ? ? ? ? ?]. unfold toy_dump, toy_validate. cbn [rf_status rf_artifact_ids].
  assert (status_of (status_value st) = Some st) as -> by by destruct st.
  assert (mapM str_of (map JStr ids) = Some ids) as -> by (induction ids as [|i ids IH]; [done|]; simpl; by rewrite IH).
  done.
Qed.

(** ** The agent *)

Definition any_fit (_ : ClientFrame) : bool := true.
Definition desk : AgentIdentity := mkIdentity "node-u1" "desk" demo_key demo_key "key-1" "1.0".
Definition desk_agent : option Agent :=
  new_agent toy_dump toy_validate desk LINUX "x86_64" ["fs.read@1"; "fs.write@1"] [] LEDGER_CAPACITY true None.
Definition idle : Agent := Eval vm_compute in
  match desk_agent with Some a => a | None => mkAgent desk LINUX "" [] [] (mkLedger 0 false "" []) None [] [] [] false 0 [] [] end.
Definition terms : FromServer :=
  ServerSent (SessionReadyFrame "nsx-1" ["fs.read@1"] [("fs.read@1", [("roots", JList [JStr "/srv/data"]); ("max_bytes", JInt 5000)])]).
Definition connected_agent : Agent := Eval vm_compute in match agent_ready idle terms with Ok a => a | Err _ => idle end.

Definition read_job : Dispatch := mkDispatch "j1" 1 "k1" "fs.read@1" [("path", JStr "/srv/data/a")] 60 4096 10.
Notation dispatch_frame d := (JobDispatchFrame (df_job_id d) (df_attempt d) (df_dedupe_key d) (df_capability d)
  (df_parameters d) (df_deadline_seconds d) (df_max_output_bytes d) (df_max_progress_events d)).
Definition taken : Agent := Eval vm_compute in agent_handle any_fit (dispatch_frame read_job) "t0" connected_agent.
Definition working : Agent := Eval vm_compute in match run_start "k1" taken with Some a => a | None => taken end.
Definition done_well : ProviderEnd := Returned (mkCapResult "succeeded" [("content", JStr "hello")] "") "read" [].
Definition done_agent : Agent := Eval vm_compute in
  match run_end toy_dump any_fit "" "k1" done_well "t0" "t1" true working with Some a => a | None => working end.
Definition restarted : Agent := Eval vm_compute in
  match new_agent toy_dump toy_validate desk LINUX "x86_64" [] [] LEDGER_CAPACITY true (ag_disk done_agent) with
  | Some a => a | None => done_agent end.

Notation demo_trace := (agent_trace toy_dump toy_validate any_fit "").
Notation agent_reach := (agent_reachable toy_dump toy_validate any_fit "").

Lemma trace_snoc a ls b l c : demo_trace a ls b → agent_step toy_dump toy_validate any_fit "" b l c → demo_trace a (ls ++ [l]) c.
Proof.
  induction 1 as [a|a l' b' ls b Hs Ht IH]; intros H; simpl; [by eapply at_cons; [|apply at_nil]|].
  eapply at_cons; [done|by apply IH].
Qed.

Lemma agent_reach_step a l b : agent_reach a → agent_step toy_dump toy_validate any_fit "" a l b → agent_reach b.
Proof.
  intros (i & p & arch & sv & prov & c & path & disk & a0 & ls & Hc & Hn & Ht) Hs.
  exists i, p, arch, sv, prov, c, path, disk, a0, (ls ++ [l]). split_and!; [done|done|by eapply trace_snoc].
Qed.

Lemma connected_reachable : agent_reach connected_agent.
Proof.
  eapply (agent_reach_step idle LQuiet); [|apply (as_ready _ _ _ _ idle connected_agent terms); vm_compute; reflexivity].
  exists desk, LINUX, "x86_64", ["fs.read@1"; "fs.write@1"], [], LEDGER_CAPACITY, true, None, idle, [].
  split_and!; [unfold LEDGER_CAPACITY; lia|vm_compute; reflexivity|apply at_nil].
Qed.

Lemma working_reachable : agent_reach working.
Proof.
  eapply (agent_reach_step taken (LStart "k1")); [|apply as_start; vm_compute; reflexivity].
  eapply agent_reach_step; [apply connected_reachable|].
  assert (taken = agent_handle any_fit (dispatch_frame read_job) "t0" connected_agent) as -> by (vm_compute; reflexivity).
  apply as_frame.
Qed.

(** The process restarts and the retry is answered from the file. *)
Lemma agent_exactly_once_witness :
  run_end toy_dump any_fit "" "k1" done_well "t0" "t1" true working = Some done_agent ∧
  demo_trace done_agent [LRestart] restarted ∧
  LStart "k1" ∉ [LRestart] ∧ dmem "k1" (lg_entries (ag_ledger restarted)) = true.
Proof.
  assert (He : run_end toy_dump any_fit "" "k1" done_well "t0" "t1" true working = Some done_agent) by (vm_compute; reflexivity).
  assert (Ht : demo_trace done_agent [LRestart] restarted).
  { eapply at_cons; [|apply at_nil]. eapply as_restart with (platform := LINUX) (architecture := "x86_64") (serves := []) (providers := []).
    vm_compute. reflexivity. }
  split; [exact He|]. split; [exact Ht|].
  destruct (agent_exactly_once toy_dump toy_validate any_fit "" toy_roundtrip "k1" done_well "t0" "t1" working done_agent
    [LRestart] restarted working_reachable eq_refl He eq_refl Ht) as (j & ids & _ & Hn & Hg & _).
  - vm_compute. lia.
  - split; [exact Hn|]. unfold dmem. cbv zeta in Hg. rewrite Hg. reflexivity.
Defined.

Lemma job_answers_waiters_witness :
  run_end toy_dump any_fit "" "k1" done_well "t0" "t1" true working = Some done_agent ∧
  dget "k1" (ag_running done_agent) = None.
Proof.
  assert (He : run_end toy_dump any_fit "" "k1" done_well "t0" "t1" true working = Some done_agent) by (vm_compute; reflexivity).
  split; [exact He|].
  destruct (job_answers_waiters toy_dump toy_validate any_fit "" "k1" done_well "t0" "t1" working done_agent
    working_reachable He) as (j & ids & _ & H & _). exact H.
Defined.

(** A provider that returns a status the frame does not know ends its task without an answer, and the job stays in the tables. *)
Example invalid_result_wedges :
  run_end toy_dump any_fit "" "k1" (Returned (mkCapResult "partial" [] "") "" []) "t0" "t1" true working = None ∧
  match run_invalid any_fit "" "k1" (Returned (mkCapResult "partial" [] "") "" []) working with
  | Some a => dmem "k1" (ag_running a) = true ∧ ag_outbox a = ag_outbox working
  | None => False
  end.
Proof. vm_compute. by repeat split. Qed.

Definition wedged : Agent := Eval vm_compute in
  agent_handle any_fit (JobCancelFrame "j1" 1 "operator") "t0" (accept_job any_fit read_job "t0" connected_agent).

(** The retry of the cancelled job is acknowledged and never answered. *)
Lemma cancel_before_start_wedges_witness :
  dmem "k1" (ag_running wedged) = true ∧
  (ag_outbox (accept_job any_fit (mkDispatch "j2" 1 "k1" "fs.read@1" [] 60 4096 10) "t5" wedged) = ag_outbox wedged ∨
   ag_outbox (accept_job any_fit (mkDispatch "j2" 1 "k1" "fs.read@1" [] 60 4096 10) "t5" wedged) =
     ag_outbox wedged ++ [JobAckFrame "j2" 1 true true]).
Proof.
  destruct (cancel_before_start_wedges toy_dump toy_validate any_fit "" read_job "t0" 1 "operator" connected_agent
    connected_reachable eq_refl eq_refl eq_refl eq_refl [] wedged) as (_ & H1 & H2).
  - assert (wedged = agent_handle any_fit (JobCancelFrame (df_job_id read_job) 1 "operator") "t0"
      (accept_job any_fit read_job "t0" connected_agent)) as -> by (vm_compute; reflexivity). apply at_nil.
  - apply not_elem_of_nil.
  - split; [exact H1|]. apply (H2 (mkDispatch "j2" 1 "k1" "fs.read@1" [] 60 4096 10) "t5"); reflexivity.
Defined.

Lemma ledger_file_roundtrip_witness :
  let l := ag_ledger done_agent in
  open_ledger toy_dump toy_validate LEDGER_CAPACITY true "node-u1" (persist toy_dump l None) =
    Some (l, Some (ledger_json toy_dump l)).
Proof.
  intros l. assert (Hok : ledger_ok l).
  { apply (agent_reachable_inv toy_dump toy_validate any_fit "" done_agent).
    eapply (agent_reach_step working); [apply working_reachable|].
    apply (as_end toy_dump toy_validate any_fit "" "k1" done_well "t0" "t1" true working done_agent). vm_compute. reflexivity. }
  rewrite (ledger_file_roundtrip toy_dump toy_validate toy_roundtrip l LEDGER_CAPACITY "node-u1" Hok eq_refl). reflexivity.
Defined.

Lemma scoped_providers_exact_witness :
  dget FILE_READ (install_scoped_providers LINUX ["fs.read@1"]
    [("fs.read@1", [("roots", JList [JStr "/srv/data"]); ("max_bytes", JInt 5000)])] [("fs.write@1", OtherProvider "old")]) =
    Some (FileReadProvider (mkRead ["/srv/data"] 5000 LINUX)) ∧
  dget FILE_WRITE (install_scoped_providers LINUX ["fs.read@1"]
    [("fs.read@1", [("roots", JList [JStr "/srv/data"]); ("max_bytes", JInt 5000)])] [("fs.write@1", OtherProvider "old")]) = None.
Proof.
  split; [|reflexivity].
  apply (scoped_providers_exact LINUX ["fs.read@1"] [("fs.read@1", [("roots", JList [JStr "/srv/data"]); ("max_bytes", JInt 5000)])]
    [("fs.write@1", OtherProvider "old")]); [apply NoDup_singleton|].
  split; [set_solver|]. eexists _, _. split_and!; [reflexivity|discriminate|reflexivity|reflexivity].
Defined.

(** ** The handshake *)

(** A scheme whose public keys have 32 bytes and whose signatures name them. *)
Definition toy_public (sk : string) : string := if Nat.eqb (String.length sk) 32 then sk else sha256 sk.
Definition toy_sign' (sk m : string) : string := toy_public sk +:+ m.

Lemma toy_public_ok sk : String.length (toy_public sk) = 32%nat ∧ any_key (toy_public sk) = true.
Proof.
  split; [|done]. unfold toy_public. destruct (Nat.eqb (String.length sk) 32) eqn:E; [by apply Nat.eqb_eq|apply sha256_length].
Qed.
Lemma toy_sign_nonempty sk m : is_empty (toy_sign' sk m) = false.
Proof. unfold toy_sign'. destruct (toy_public_ok sk) as [H _]. by destruct (toy_public sk). Qed.
Lemma toy_sign_verify sk m : toy_check (toy_public sk) m (toy_sign' sk m) = true.
Proof. by apply bool_decide_eq_true. Qed.

Lemma mutual_handshake_witness :
  ∃ challenge attest ready n w' a',
    handshake demo_stamp any_key toy_sign' toy_check demo_key "nonce" (seconds 30) (GotFrame (agent_hello idle "nn")) Sent
      (GotFrame attest) Sent Sent start = (Ok n, w') ∧
    ss_outbox (w_session w') = [challenge; ready] ∧
    agent_handshake any_key toy_sign' toy_check idle "nn" (ServerSent challenge) (ServerSent ready) =
      ([agent_hello idle "nn"; attest], Ok a') ∧
    ag_granted a' = effective_capabilities n.
Proof.
  destruct (dget "node-u1" (s_nodes mesh2)) as [r0|] eqn:Er; [|vm_compute in Er; discriminate].
  destruct (scopes_of r0) as [parsed|] eqn:Es.
  2: { vm_compute in Er. injection Er as <-. vm_compute in Es. discriminate. }
  destruct (mutual_handshake demo_stamp any_key toy_public toy_sign' toy_check toy_public_ok toy_sign_nonempty toy_sign_verify
    idle "nn" demo_key "nonce" (seconds 30) Sent (fresh_session "nsx-1" "key-1") mesh2 r0 parsed mesh2_inv)
    as (challenge & att & rdy & n & w' & a' & H1 & H2 & H3 & H4 & _).
  - apply NoDup_nil_2.
  - exact Er.
  - vm_compute in Er. injection Er as <-. reflexivity.
  - vm_compute in Er. injection Er as <-. vm_compute. reflexivity.
  - vm_compute. reflexivity.
  - reflexivity.
  - exact Es.
  - vm_compute in Er. injection Er as <-. reflexivity.
  - exists challenge, att, rdy, n, w', a'. split_and!; [exact H1|exact H2|exact H3|exact H4].
Defined.

(** The agent's answer to a challenge its control plane signed. *)
Definition good_challenge : FromServer := Eval vm_compute in
  match sign_payload toy_sign' demo_key (server_proof_payload PROTOCOL_ID "nsx-1" "node-u1" "nn") with
  | Ok proof => ServerSent (ChallengeFrame PROTOCOL_ID "nsx-1" "nonce" "key-1" proof)
  | Err _ => ServerClosed
  end.

Lemma agent_authenticates_witness :
  ∃ frames res, agent_handshake any_key toy_sign' toy_check idle "nn" good_challenge terms = (frames, res) ∧
    (∃ a', res = Ok a') ∧ ∃ sid proof, AttestFrame sid proof ∈ frames.
Proof.
  destruct (agent_handshake any_key toy_sign' toy_check idle "nn" good_challenge terms) as [frames res] eqn:E.
  exists frames, res. split; [reflexivity|].
  assert (Hok : ∃ a', res = Ok a') by (vm_compute in E; injection E as _ <-; eexists; reflexivity).
  split; [exact Hok|]. destruct Hok as [a' Ha].
  exact (proj1 (proj2 (agent_authenticates any_key toy_sign' toy_check idle "nn" good_challenge terms frames res E) a' Ha)).
Defined.
