(* ===== verification/GraphCompiler.v ===== *)
(** The execution-graph compiler (src/olympus/graphs/compiler.py, models.py): the
    checks on a graph, Kahn's algorithm in alphabetical layers, and the digest a
    compiled graph is known by.

    A dependency set is the list of its elements; only membership and emptiness
    are looked at. The loop of [_topological_order] gets fuel, one unit per node,
    and the theorems show it is enough. *)

From S2P Require Import Prelude PyDict Json Sha256 NodeModels.

Open Scope Z_scope.

Inductive graph_exn := GraphCompilationError (msg : string) | GraphValueError (msg : string) | GraphOutOfFuel.

(** ** Nodes *)

Record GraphNode := mkGraphNode {
  g_node_id : string;
  g_operation : string;
  g_depends_on : list string;
  g_side_effecting : bool;
  g_trust_labels : list TrustLabel;
  g_timeout_seconds : Z;
  g_maximum_attempts : Z }.

(** [GraphNode.__post_init__] *)
Definition make_graph_node (n : GraphNode) : result graph_exn GraphNode :=
  ensure (negb (is_blank (g_node_id n)) && negb (is_blank (g_operation n)))
    (GraphValueError "graph node identity and operation are required");;
  ensure (negb (bool_decide (g_node_id n ∈ g_depends_on n))) (GraphValueError "graph node cannot depend on itself");;
  ensure (bool_decide (NoDup (g_depends_on n))) (GraphValueError "graph node dependencies must be unique");;
  ensure ((1 <=? g_timeout_seconds n) && (g_timeout_seconds n <=? 3600))
    (GraphValueError "node timeout must be between 1 and 3600 seconds");;
  ensure ((1 <=? g_maximum_attempts n) && (g_maximum_attempts n <=? 10))
    (GraphValueError "node maximum_attempts must be between 1 and 10");;
  Ok n.

Record CompiledGraph := mkCompiled {
  cg_job_id : string;
  cg_nodes : list GraphNode;
  cg_maximum_nodes : Z;
  cg_maximum_fan_out : Z;
  cg_digest : string }.

(** [{node.node_id: node for node in nodes}] *)
Definition by_id (nodes : list GraphNode) : dict string GraphNode :=
  foldl (λ d n, dset (g_node_id n) n d) [] nodes.

(** ** The order *)

(** One turn of the loop: the nodes that are ready, and what remains. *)
Definition ready_ids (remaining : dict string (list string)) : list string :=
  sorted (map fst (List.filter (λ kd, bool_decide (kd.2 = [])) remaining)).
Definition without (ready : list string) (remaining : dict string (list string)) : dict string (list string) :=
  map (λ kd, (kd.1, List.filter (λ x, negb (bool_decide (x ∈ ready))) kd.2))
    (List.filter (λ kd, negb (bool_decide (kd.1 ∈ ready))) remaining).

Fixpoint topological_loop (fuel : nat) (nodes : dict string GraphNode) (remaining : dict string (list string))
    (ordered : list GraphNode) : result graph_exn (list GraphNode) :=
  match remaining with
  | [] => Ok ordered
  | _ :: _ =>
      let ready := ready_ids remaining in
      if bool_decide (ready = []) then Err (GraphCompilationError "graph contains a dependency cycle")
      else match fuel with
           | O => Err GraphOutOfFuel
           | S fuel' =>
               topological_loop fuel' nodes (without ready remaining) (ordered ++ omap (λ k, dget k nodes) ready)
           end
  end.

(** [_topological_order] *)
Definition topological_order (nodes : dict string GraphNode) : result graph_exn (list GraphNode) :=
  topological_loop (length nodes) nodes (map (λ kn, (kn.1, g_depends_on kn.2)) nodes) [].

(** ** Compilation *)

(** [_canonical_node] *)
Definition canonical_node (n : GraphNode) : json :=
  JObj [("depends_on", JList (map JStr (g_depends_on n))); ("maximum_attempts", JInt (g_maximum_attempts n));
        ("node_id", JStr (g_node_id n)); ("operation", JStr (g_operation n));
        ("side_effecting", JBool (g_side_effecting n)); ("timeout_seconds", JInt (g_timeout_seconds n));
        ("trust_labels", JList (map (λ l, JStr (trust_value l)) (g_trust_labels n)))].

Definition graph_body (job_id : string) (ordered : list GraphNode) (maximum_nodes maximum_fan_out : Z) : json :=
  JObj [("job_id", JStr job_id); ("maximum_fan_out", JInt maximum_fan_out); ("maximum_nodes", JInt maximum_nodes);
        ("nodes", JList (map canonical_node ordered))].
Definition graph_digest (job_id : string) (ordered : list GraphNode) (maximum_nodes maximum_fan_out : Z) : string :=
  sha256_hex (utf8 (dumps (graph_body job_id ordered maximum_nodes maximum_fan_out))).

Definition fan_out (nodes : list GraphNode) (node_id : string) : Z :=
  Z.of_nat (length (List.filter (λ c, bool_decide (node_id ∈ g_depends_on c)) nodes)).

Definition compile_execution_graph (job_id : string) (nodes : list GraphNode) (maximum_nodes maximum_fan_out : Z) :
    result graph_exn CompiledGraph :=
  ensure (negb (is_blank job_id)) (GraphCompilationError "job_id must not be empty");;
  ensure ((1 <=? maximum_nodes) && (maximum_nodes <=? 256))
    (GraphCompilationError "maximum_nodes must be between 1 and 256");;
  ensure ((1 <=? maximum_fan_out) && (maximum_fan_out <=? 16))
    (GraphCompilationError "maximum_fan_out must be between 1 and 16");;
  ensure (negb (bool_decide (nodes = [])) && (Z.of_nat (length nodes) <=? maximum_nodes))
    (GraphCompilationError "graph exceeds its node bound");;
  let ids := by_id nodes in
  ensure (Nat.eqb (length ids) (length nodes)) (GraphCompilationError "graph node identities must be unique");;
  ensure (forallb (λ n, forallb (λ d, dmem d ids) (g_depends_on n)) nodes)
    (GraphCompilationError "graph contains an unknown dependency");;
  ensure (forallb (λ i, fan_out nodes i <=? maximum_fan_out) (dkeys ids))
    (GraphCompilationError "graph exceeds its fan-out bound");;
  ordered ← topological_order ids;
  Ok (mkCompiled job_id ordered maximum_nodes maximum_fan_out
        (graph_digest job_id ordered maximum_nodes maximum_fan_out)).

(** The fields of [CommandEnvelope] the compiler reads. *)
Record CommandEnvelope := mkCommand {
  ce_job_id : string;
  ce_authority_lease_id : string;
  ce_command_text : string;
  ce_trust_label : TrustLabel;
  ce_max_nodes : Z;
  ce_max_fan_out : Z }.

Definition noop_node (label : TrustLabel) : GraphNode :=
  mkGraphNode "acknowledge-command" "record-command-without-side-effects" [] false [label] 30 3.
Definition binding_body (lease command digest : string) : json :=
  JObj [("authority_lease_id", JStr lease); ("command_text", JStr command); ("graph_digest", JStr digest)].

Definition compile_noop_graph (c : CommandEnvelope) : result graph_exn CompiledGraph :=
  node ← make_graph_node (noop_node (ce_trust_label c));
  graph ← compile_execution_graph (ce_job_id c) [node] (ce_max_nodes c) (ce_max_fan_out c);
  Ok (mkCompiled (cg_job_id graph) (cg_nodes graph) (cg_maximum_nodes graph) (cg_maximum_fan_out graph)
        (sha256_hex (utf8 (dumps (binding_body (ce_authority_lease_id c) (ce_command_text c) (cg_digest graph)))))).
