(* ===== verification/GraphCompilerFacts.v ===== *)
(** Correctness of the graph compiler: the order it computes respects every
    dependency, it succeeds exactly on the acyclic graphs, and both order and
    digest depend only on the set of nodes. *)

From S2P Require Import Prelude PyDict Json Sha256 NodeModels GraphCompiler.

Open Scope nat_scope.

(** ** Nodes by identity *)

Definition ids (nodes : list GraphNode) : list string := map g_node_id nodes.
Definition keyed (nodes : list GraphNode) : dict string GraphNode := map (λ n, (g_node_id n, n)) nodes.

Lemma by_id_go nodes acc :
  dict_wf acc → let d := foldl (λ d n, dset (g_node_id n) n d) acc nodes in
  length d ≤ length acc + length nodes ∧
  (length d = length acc + length nodes → d = acc ++ keyed nodes ∧ NoDup (dkeys acc ++ ids nodes)).
Proof.
  revert acc. induction nodes as [|n nodes IH]; intros acc Hw; simpl.
  - rewrite !app_nil_r. split; [lia|done].
  - destruct (IH (dset (g_node_id n) n acc)) as [Hle Heq]; [by apply dict_wf_dset|]. simpl in *.
    destruct (dget (g_node_id n) acc) eqn:E.
    + assert (Hl : length (dset (g_node_id n) n acc) = length acc) by (apply length_dset; congruence).
      split; lia.
    + assert (Hk : g_node_id n ∉ dkeys acc) by by apply dget_None.
      assert (Hd : dset (g_node_id n) n acc = acc ++ [(g_node_id n, n)]).
      { clear -Hk. induction acc as [|[a v] acc IHa]; [done|]. simpl in *. rewrite decide_False by set_solver.
        by rewrite IHa by set_solver. }
      rewrite Hd in *. rewrite length_app in *. simpl in *. split; [lia|]. intros H.
      destruct Heq as [-> Hn]; [lia|]. unfold dkeys in *. rewrite fmap_app in Hn. simpl in Hn.
      by rewrite <- !app_assoc in *.
Qed.

Lemma by_id_unique nodes : length (by_id nodes) = length nodes → by_id nodes = keyed nodes ∧ NoDup (ids nodes).
Proof. intros H. by apply (by_id_go nodes [] dict_wf_nil). Qed.

Lemma dkeys_keyed nodes : dkeys (keyed nodes) = ids nodes.
Proof. unfold dkeys, keyed, ids. induction nodes as [|n nodes IH]; [done|]. simpl. by f_equal. Qed.

Lemma keyed_get nodes n : NoDup (ids nodes) → n ∈ nodes → dget (g_node_id n) (keyed nodes) = Some n.
Proof.
  intros Hn Hin. apply dget_wf_elem; [unfold dict_wf; by rewrite dkeys_keyed|].
  apply list_elem_of_fmap. by exists n.
Qed.

Lemma keyed_inv nodes k n : dget k (keyed nodes) = Some n → n ∈ nodes ∧ g_node_id n = k.
Proof. intros H%dget_Some_elem. apply list_elem_of_fmap in H as (m & [= -> ->] & ?). done. Qed.

(** ** Dependency order *)

(** Every node comes after its dependencies. *)
Definition dep_ordered (l : list GraphNode) : Prop :=
  ∀ l1 n l2, l = l1 ++ n :: l2 → g_depends_on n ⊆ ids l1.

Lemma dep_ordered_app l b :
  dep_ordered l → (∀ n, n ∈ b → g_depends_on n ⊆ ids l) → dep_ordered (l ++ b).
Proof.
  intros Hl Hb l1 n l2 E. apply app_eq_app in E as (k & [[-> E]|[-> E]]).
  - destruct k as [|m k]; simpl in E.
    + subst b. assert (H := Hb n ltac:(left)). by rewrite app_nil_r in H.
    + injection E as -> ->. by apply (Hl l1 m k).
  - subst b. unfold ids in *. rewrite map_app. assert (H := Hb n). etrans; [apply H; set_solver|set_solver].
Qed.

(** What the loop knows about its state. *)
Record topo_inv (nodes ordered : list GraphNode) (remaining : dict string (list string)) : Prop := mkTopo {
  ti_perm : ids ordered ++ dkeys remaining ≡ₚ ids nodes;
  ti_nodes : ∀ n, n ∈ ordered → n ∈ nodes;
  ti_order : dep_ordered ordered;
  ti_deps : ∀ k ds, (k, ds) ∈ remaining → ∃ n, n ∈ nodes ∧ g_node_id n = k ∧
    ∀ x, x ∈ ds ↔ x ∈ g_depends_on n ∧ x ∉ ids ordered }.

Lemma ready_spec remaining k : k ∈ ready_ids remaining ↔ (k, []) ∈ remaining.
Proof.
  unfold ready_ids. rewrite elem_of_sorted, list_elem_of_fmap. split.
  - intros ([k' d] & -> & H). apply list_elem_of_In, filter_In in H as [H E]. simpl in *.
    apply bool_decide_eq_true in E as ->. by apply list_elem_of_In.
  - intros H. exists (k, []). split; [done|]. apply list_elem_of_In, filter_In. split; [by apply list_elem_of_In|done].
Qed.

Lemma without_spec ready remaining k ds :
  (k, ds) ∈ without ready remaining ↔ ∃ ds0, (k, ds0) ∈ remaining ∧ k ∉ ready ∧
    ds = List.filter (λ x, negb (bool_decide (x ∈ ready))) ds0.
Proof.
  unfold without. rewrite list_elem_of_fmap. split.
  - intros ([k' d] & [= -> ->] & H). apply list_elem_of_In, filter_In in H as [H E]. simpl in *.
    apply negb_true_iff, bool_decide_eq_false in E. exists d. split_and!; [by apply list_elem_of_In|done|done].
  - intros (d & Hd & Hk & ->). exists (k, d). split; [done|]. apply list_elem_of_In, filter_In.
    split; [by apply list_elem_of_In|]. simpl. by apply negb_true_iff, bool_decide_eq_false.
Qed.

Lemma elem_of_difference_filter x (ready ds : list string) :
  x ∈ List.filter (λ x, negb (bool_decide (x ∈ ready))) ds ↔ x ∈ ds ∧ x ∉ ready.
Proof.
  rewrite list_elem_of_In, filter_In, <- list_elem_of_In, negb_true_iff, bool_decide_eq_false. done.
Qed.

(** The keys split into the ready ones and the rest. *)
Lemma keys_split remaining :
  dict_wf remaining → ready_ids remaining ++ dkeys (without (ready_ids remaining) remaining) ≡ₚ dkeys remaining.
Proof.
  intros Hw. apply NoDup_Permutation.
  - apply NoDup_app. split_and!.
    + unfold ready_ids, sorted. rewrite merge_sort_Permutation. unfold dict_wf, dkeys in Hw.
      clear -Hw. induction remaining as [|[k d] r IH]; simpl in *; [apply NoDup_nil_2|].
      apply NoDup_cons in Hw as [Hk Hw]. destruct (bool_decide (d = [])); [|by apply IH].
      simpl. apply NoDup_cons. split; [|by apply IH]. intros Hin. apply Hk.
      apply list_elem_of_fmap in Hin as ([k' d'] & -> & Hin). apply list_elem_of_In, filter_In in Hin as [Hin _].
      apply list_elem_of_fmap. exists (k', d'). split; [done|by apply list_elem_of_In].
    + intros k Hr Hk. unfold dkeys in Hk. apply list_elem_of_fmap in Hk as ([k' d] & -> & Hk).
      apply without_spec in Hk as (_ & _ & Hn & _). done.
    + unfold without, dkeys in *. generalize (ready_ids remaining). intros ready. clear -Hw. induction remaining as [|[k d] r IH]; simpl in *; [apply NoDup_nil_2|].
      apply NoDup_cons in Hw as [Hk Hw]. destruct (bool_decide (k ∈ ready)); simpl; [by apply IH|].
      apply NoDup_cons. split; [|by apply IH]. intros Hin. apply Hk.
      apply list_elem_of_fmap in Hin as ([k' d'] & -> & Hin). apply list_elem_of_fmap in Hin as ([k2 d2] & [= -> ->] & Hin).
      apply list_elem_of_In, filter_In in Hin as [Hin _]. apply list_elem_of_fmap. exists (k2, d2).
      split; [done|by apply list_elem_of_In].
  - done.
  - intros k. rewrite elem_of_app, ready_spec. unfold dkeys. rewrite !list_elem_of_fmap. split.
    + intros [H|([k' d] & -> & H)]; [by exists (k, [])|]. apply without_spec in H as (d0 & H & _). by exists (k', d0).
    + intros ([k' d] & -> & H). simpl. destruct (decide (k' ∈ ready_ids remaining)) as [Hr|Hr].
      * left. by apply ready_spec.
      * right. eexists (k', _). split; [done|]. apply without_spec. eauto.
Qed.

Lemma topo_keys nodes ordered remaining : NoDup (ids nodes) → topo_inv nodes ordered remaining → dict_wf remaining.
Proof.
  intros Hn [Hp _ _ _]. unfold dict_wf. rewrite <- Hp in Hn. by apply NoDup_app in Hn as (_ & _ & ?).
Qed.

Lemma batch_ids nodes ready :
  NoDup (ids nodes) → ready ⊆ ids nodes → ids (omap (λ k, dget k (keyed nodes)) ready) = ready.
Proof.
  intros Hn. induction ready as [|k ready IH]; intros Hr; [done|]. simpl.
  destruct (list_elem_of_fmap_1 g_node_id nodes k) as (n & -> & Hin); [apply Hr; by left|].
  rewrite keyed_get by done. unfold ids in *. simpl. f_equal. apply IH. set_solver.
Qed.

Lemma topo_step nodes ordered remaining :
  NoDup (ids nodes) → topo_inv nodes ordered remaining →
  let ready := ready_ids remaining in
  topo_inv nodes (ordered ++ omap (λ k, dget k (keyed nodes)) ready) (without ready remaining).
Proof.
  intros Hn Hi ready. assert (Hw := topo_keys _ _ _ Hn Hi). destruct Hi as [Hp Hno Ho Hd].
  assert (Hready : ready ⊆ ids nodes).
  { intros k Hk. rewrite <- Hp. apply elem_of_app. right. apply ready_spec in Hk.
    unfold dkeys. apply list_elem_of_fmap. by exists (k, []). }
  assert (Hb := batch_ids nodes ready Hn Hready). set (batch := omap _ ready) in *. split.
  - unfold ids in *. rewrite map_app, Hb, <- app_assoc. unfold ready. by rewrite (keys_split remaining Hw).
  - intros n [?|H]%elem_of_app; [by apply Hno|]. unfold batch in H. apply list_elem_of_omap in H as (k & _ & H).
    apply keyed_inv in H as [H _]. exact H.
  - apply dep_ordered_app; [done|]. intros n Hin x Hx. unfold batch in Hin.
    apply list_elem_of_omap in Hin as (k & Hk & Hg). apply keyed_inv in Hg as [Hnn Hid].
    apply ready_spec in Hk. destruct (Hd k [] Hk) as (n' & Hn' & Hid' & Hx').
    assert (n' = n) as ->.
    { assert (G1 := keyed_get nodes n Hn Hnn). assert (G2 := keyed_get nodes n' Hn Hn'). congruence. }
    destruct (decide (x ∈ ids ordered)) as [|Hno']; [done|]. exfalso. by apply (not_elem_of_nil x), Hx'.
  - intros k ds Hk. apply without_spec in Hk as (ds0 & Hk & Hnr & ->). destruct (Hd k ds0 Hk) as (n & Hin & Hid & Hx).
    exists n. split_and!; [done|done|]. intros x. rewrite elem_of_difference_filter, Hx.
    assert (Hb' : ids (ordered ++ batch) = ids ordered ++ ready) by (unfold ids in *; by rewrite map_app, Hb).
    rewrite Hb', elem_of_app. tauto.
Qed.

Lemma without_shorter nodes ordered remaining :
  NoDup (ids nodes) → topo_inv nodes ordered remaining → ready_ids remaining ≠ [] →
  length (without (ready_ids remaining) remaining) < length remaining.
Proof.
  intros Hn Hi Hr. assert (Hl := Permutation_length (keys_split remaining (topo_keys _ _ _ Hn Hi))).
  unfold dkeys in Hl. rewrite length_app, !length_fmap in Hl. destruct (ready_ids remaining); [done|]. simpl in *. lia.
Qed.

(** Some assignment of heights makes every dependency lower than its node. *)
Definition acyclic (nodes : list GraphNode) : Prop :=
  ∃ height : string → nat, ∀ n d, n ∈ nodes → d ∈ g_depends_on n → height d < height (g_node_id n).

(** A stuck state shows the graph is not acyclic. *)
Lemma stuck_cyclic nodes ordered remaining :
  NoDup (ids nodes) → (∀ n, n ∈ nodes → g_depends_on n ⊆ ids nodes) → topo_inv nodes ordered remaining →
  remaining ≠ [] → ready_ids remaining = [] → ¬ acyclic nodes.
Proof.
  intros Hn Hk Hi Hne Hr [height Hh].
  assert (Hno : ∀ m k ds, (k, ds) ∈ remaining → height k ≤ m → False).
  { induction m as [m IH] using lt_wf_ind. intros k ds Hin Hm.
    destruct ds as [|x ds].
    - apply ready_spec in Hin. rewrite Hr in Hin. by apply not_elem_of_nil in Hin.
    - destruct (ti_deps _ _ _ Hi _ _ Hin) as (n & Hnn & Hid & Hx). destruct (proj1 (Hx x)) as [Hd Hnx]; [by left|].
      assert (Hxk : x ∈ dkeys remaining).
      { specialize (Hk n Hnn x Hd). rewrite <- (ti_perm _ _ _ Hi) in Hk. apply elem_of_app in Hk as [?|?]; done. }
      unfold dkeys in Hxk. apply list_elem_of_fmap in Hxk as ([x' ds'] & -> & Hx2). simpl in *.
      specialize (Hh n x' Hnn Hd). rewrite Hid in Hh. apply (IH (height x') ltac:(lia) x' ds' Hx2). lia. }
  destruct remaining as [|[k ds] r]; [done|]. apply (Hno (height k) k ds); [by left|lia].
Qed.

Lemma topo_done nodes ordered : NoDup (ids nodes) → topo_inv nodes ordered [] → ordered ≡ₚ nodes.
Proof.
  intros Hn [Hp Hno _ _]. rewrite app_nil_r in Hp. apply NoDup_Permutation_bis.
  - apply NoDup_ListNoDup, (NoDup_fmap_1 g_node_id). change (NoDup (ids ordered)). by rewrite Hp.
  - apply Permutation_length in Hp. unfold ids in Hp. rewrite !length_map in Hp. lia.
  - intros x Hx%list_elem_of_In%Hno. by apply list_elem_of_In.
Qed.

(** The loop, from any state: it never runs out of fuel, what it returns is an
    order of all nodes, and it fails only on graphs that are not acyclic. *)
Lemma topological_loop_spec nodes fuel ordered remaining :
  NoDup (ids nodes) → (∀ n, n ∈ nodes → g_depends_on n ⊆ ids nodes) → topo_inv nodes ordered remaining →
  length remaining ≤ fuel →
  match topological_loop fuel (keyed nodes) remaining ordered with
  | Ok l => l ≡ₚ nodes ∧ dep_ordered l
  | Err e => e = GraphCompilationError "graph contains a dependency cycle" ∧ ¬ acyclic nodes
  end.
Proof.
  intros Hn Hk. revert ordered remaining. induction fuel as [|fuel IH]; intros ordered remaining Hi Hf.
  all: destruct remaining as [|kd r] eqn:Er; cbn [topological_loop].
  1, 3: split; [by apply topo_done|apply Hi].
  - simpl in Hf. lia.
  - destruct (bool_decide (ready_ids (kd :: r) = [])) eqn:Eb; bool_to_prop.
    + split; [done|]. by eapply stuck_cyclic.
    + apply IH; [by apply topo_step|]. assert (H := without_shorter nodes ordered (kd :: r) Hn Hi Eb). simpl in *. lia.
Qed.

Lemma topo_start nodes :
  NoDup (ids nodes) → topo_inv nodes [] (map (λ kn, (kn.1, g_depends_on kn.2)) (keyed nodes)).
Proof.
  intros Hn. split.
  - simpl. unfold dkeys, keyed. rewrite map_map. by rewrite <- list_fmap_compose.
  - by intros n ?%not_elem_of_nil.
  - intros [|? ?] n l2 E; discriminate E.
  - intros k ds Hin. apply list_elem_of_fmap in Hin as ([k' n] & [= -> ->] & Hin).
    apply list_elem_of_fmap in Hin as (m & [= -> ->] & Hin). exists m. split_and!; try done.
    intros x. split; [intros; split; [done|apply not_elem_of_nil]|by intros [? _]].
Qed.

Lemma topological_order_spec nodes :
  NoDup (ids nodes) → (∀ n, n ∈ nodes → g_depends_on n ⊆ ids nodes) →
  match topological_order (keyed nodes) with
  | Ok l => l ≡ₚ nodes ∧ dep_ordered l
  | Err e => e = GraphCompilationError "graph contains a dependency cycle" ∧ ¬ acyclic nodes
  end.
Proof.
  intros Hn Hk. unfold topological_order. apply topological_loop_spec; [done|done|by apply topo_start|].
  by rewrite length_map.
Qed.

(** Positions in an order are heights. *)
Fixpoint position (x : string) (l : list string) : nat :=
  match l with [] => 0 | y :: l' => if decide (y = x) then 0 else S (position x l') end.

Lemma position_app x l r : x ∈ l → position x (l ++ r) < length l.
Proof.
  induction l as [|y l IH]; [by intros ?%not_elem_of_nil|]. simpl. case_decide; [lia|].
  intros [->|Hx]%elem_of_cons; [done|]. specialize (IH Hx). lia.
Qed.

Lemma position_at x l r : x ∉ l → position x (l ++ x :: r) = length l.
Proof.
  induction l as [|y l IH]; simpl; [by rewrite decide_True|]. intros H. rewrite decide_False by set_solver.
  by rewrite IH by set_solver.
Qed.

Lemma ordered_acyclic l nodes : NoDup (ids l) → l ≡ₚ nodes → dep_ordered l → acyclic nodes.
Proof.
  intros Hn Hp Ho. exists (λ x, position x (ids l)). intros n d Hin Hd.
  rewrite <- Hp in Hin. apply list_elem_of_split in Hin as (l1 & l2 & ->).
  assert (Hd1 := Ho l1 n l2 eq_refl d Hd). unfold ids in *. rewrite map_app in *. simpl in *.
  rewrite position_at; [by apply position_app|]. apply NoDup_app in Hn as (_ & Hx & _). intros H. by apply (Hx _ H); left.
Qed.

Lemma deps_known nodes :
  forallb (λ n, forallb (λ d, dmem d (keyed nodes)) (g_depends_on n)) nodes = true ↔
  ∀ n, n ∈ nodes → g_depends_on n ⊆ ids nodes.
Proof.
  rewrite forallb_forall. assert (Hm : ∀ d, dmem d (keyed nodes) = true ↔ d ∈ ids nodes).
  { intros d. unfold dmem. rewrite <- dkeys_keyed. destruct (dget d (keyed nodes)) eqn:E.
    - split; [|done]. intros _. by eapply dget_Some_key.
    - split; [done|]. by apply dget_None in E. }
  split.
  - intros H n Hn%list_elem_of_In d Hd. specialize (H n Hn). rewrite forallb_forall in H. apply Hm, H. by apply list_elem_of_In.
  - intros H n Hn%list_elem_of_In. apply forallb_forall. intros d Hd%list_elem_of_In. apply Hm. by apply (H n Hn).
Qed.

Lemma by_id_length nodes : length (by_id nodes) = length nodes ↔ NoDup (ids nodes).
Proof.
  split; [by intros [_ ?]%by_id_unique|]. intros Hn. unfold by_id.
  assert (H : ∀ acc, dict_wf acc → NoDup (dkeys acc ++ ids nodes) →
    length (foldl (λ d n, dset (g_node_id n) n d) acc nodes) = length acc + length nodes).
  { clear Hn. induction nodes as [|n nodes IH]; intros acc Hw Hn; simpl; [lia|]. apply NoDup_app in Hn as (Ha & Hd & Hn).
    simpl in Hn. apply NoDup_cons in Hn as [Hni Hn].
    assert (Hk : dget (g_node_id n) acc = None) by (apply dget_None; intros ?; eapply Hd; [done|by left]).
    rewrite IH.
    - assert (Hl : length (dset (g_node_id n) n acc) = S (length acc)); [|lia].
      clear -Hk. induction acc as [|[a v] acc IHa]; simpl in *; [done|]. case_decide; [done|]. simpl. by rewrite IHa.
    - by apply dict_wf_dset.
    - rewrite dkeys_dset. unfold dmem. rewrite Hk, <- app_assoc. simpl. apply NoDup_app. split_and!; [done| |by apply NoDup_cons].
      intros x Hx. by apply Hd. }
  exact (H [] dict_wf_nil Hn).
Qed.

(** The bounds the compiler enforces before it orders anything: the limits are in
    range, the graph is within the limits it was given, identities are unique and
    every dependency is a node of the graph. *)
Record within_bounds (job : string) (nodes : list GraphNode) (mn mf : Z) : Prop := {
  wb_job : is_blank job = false;
  wb_nodes_limit : (1 ≤ mn ≤ 256)%Z;
  wb_fan_out_limit : (1 ≤ mf ≤ 16)%Z;
  wb_nonempty : nodes ≠ [];
  wb_nodes : (Z.of_nat (length nodes) ≤ mn)%Z;
  wb_unique : NoDup (ids nodes);
  wb_known : ∀ n, n ∈ nodes → g_depends_on n ⊆ ids nodes;
  wb_fan_out : ∀ i, i ∈ ids nodes → (fan_out nodes i ≤ mf)%Z }.

Definition cycle_error : graph_exn := GraphCompilationError "graph contains a dependency cycle".

Lemma fan_out_known nodes mf :
  forallb (λ i, (fan_out nodes i <=? mf)%Z) (dkeys (keyed nodes)) = true ↔
  ∀ i, i ∈ ids nodes → (fan_out nodes i ≤ mf)%Z.
Proof.
  rewrite forallb_forall, dkeys_keyed. setoid_rewrite Z.leb_le. setoid_rewrite list_elem_of_In. done.
Qed.

(** Within the bounds the answer is that of the ordering. *)
Lemma compile_within job nodes mn mf :
  within_bounds job nodes mn mf →
  compile_execution_graph job nodes mn mf =
  (l ← topological_order (keyed nodes); Ok (mkCompiled job l mn mf (graph_digest job l mn mf))).
Proof.
  intros [Hj Hm Hf Hne Hl Hu Hk Ho]. unfold compile_execution_graph.
  assert (E := proj2 (by_id_length nodes) Hu). rewrite E, (proj1 (by_id_unique nodes E)).
  rewrite (proj2 (deps_known nodes) Hk), (proj2 (fan_out_known nodes mf) Ho), Nat.eqb_refl, Hj.
  rewrite (bool_decide_false (nodes = [])) by done.
  repeat match goal with |- context[(?a <=? ?b)%Z] => rewrite (proj2 (Z.leb_le a b)) by lia end.
  done.
Qed.

(** Either the graph is within the bounds, or the answer is an error of its own. *)
Lemma compile_cases job nodes mn mf :
  (within_bounds job nodes mn mf ∧
   compile_execution_graph job nodes mn mf =
   (l ← topological_order (keyed nodes); Ok (mkCompiled job l mn mf (graph_digest job l mn mf)))) ∨
  (¬ within_bounds job nodes mn mf ∧
   ∃ e, compile_execution_graph job nodes mn mf = Err e ∧ e ≠ GraphOutOfFuel ∧ e ≠ cycle_error).
Proof.
  assert (D : within_bounds job nodes mn mf ∨
    ∃ e, compile_execution_graph job nodes mn mf = Err e ∧ e ≠ GraphOutOfFuel ∧ e ≠ cycle_error).
  { unfold compile_execution_graph, ensure.
    repeat match goal with |- context[if ?b then _ else _] => destruct b eqn:?; [cbn [mbind result_bind]|right; by eexists] end.
    left. match goal with H : Nat.eqb _ _ = true |- _ => apply Nat.eqb_eq, by_id_unique in H as [Hid Hu] end.
    rewrite Hid in *. bool_to_prop.
    split; [by destruct (is_blank job)|lia|lia|by intros ->|lia|done|by apply deps_known|by apply fan_out_known]. }
  destruct D as [W|(e & E & H)]; [left; auto using compile_within|].
  right. split; [|by exists e]. intros W. rewrite (compile_within _ _ _ _ W) in E.
  assert (T := topological_order_spec nodes (wb_unique _ _ _ _ W) (wb_known _ _ _ _ W)).
  destruct (topological_order (keyed nodes)); [done|]. destruct T as [-> _]. injection E as <-. by destruct H.
Qed.

Lemma compile_inv job nodes mn mf g :
  compile_execution_graph job nodes mn mf = Ok g → ∃ l, g = mkCompiled job l mn mf (graph_digest job l mn mf).
Proof.
  destruct (compile_cases job nodes mn mf) as [[_ ->]|(_ & e & -> & _)]; [|done].
  intros (l & _ & [= <-])%bind_Ok. by exists l.
Qed.

(** C21. The compiler compiles exactly the acyclic graphs within its bounds. It
    answers a graph just when the job is named, the limits are in range, the graph
    has at least one node, at most [maximum_nodes], unique identities, no unknown
    dependency, no node with more than [maximum_fan_out] dependents, and some
    numbering of the nodes puts every dependency below its dependent. The graph it
    answers holds the given nodes, each after all its dependencies, under the job
    and the limits it was given. It reports a cycle just when a graph within the
    bounds has one, and the loop always ends. *)
Theorem compile_orders_acyclic job nodes mn mf :
  ((∃ g, compile_execution_graph job nodes mn mf = Ok g) ↔ within_bounds job nodes mn mf ∧ acyclic nodes) ∧
  (compile_execution_graph job nodes mn mf = Err cycle_error ↔ within_bounds job nodes mn mf ∧ ¬ acyclic nodes) ∧
  match compile_execution_graph job nodes mn mf with
  | Ok g => cg_nodes g ≡ₚ nodes ∧ dep_ordered (cg_nodes g) ∧
      cg_job_id g = job ∧ cg_maximum_nodes g = mn ∧ cg_maximum_fan_out g = mf
  | Err e => e ≠ GraphOutOfFuel
  end.
Proof.
  destruct (compile_cases job nodes mn mf) as [[W ->]|(W & e & -> & Hf & Hc)].
  - assert (T := topological_order_spec nodes (wb_unique _ _ _ _ W) (wb_known _ _ _ _ W)).
    destruct (topological_order (keyed nodes)) as [l|e]; cbn [mbind result_bind].
    + destruct T as [Hp Hd].
      assert (Ha : acyclic nodes) by (eapply ordered_acyclic; [|done|done]; unfold ids; rewrite Hp; exact (wb_unique _ _ _ _ W)).
      naive_solver.
    + destruct T as [-> Ha]. unfold cycle_error. naive_solver.
  - naive_solver.
Qed.

(** ** Independence of the order nodes are given in *)

Lemma sorted_perm (l l' : list string) : l ≡ₚ l' → sorted l = sorted l'.
Proof.
  intros Hp. unfold sorted. apply (StronglySorted_unique str_le).
  - apply StronglySorted_merge_sort; apply _.
  - apply StronglySorted_merge_sort; apply _.
  - by rewrite !merge_sort_Permutation.
Qed.

Lemma filter_perm {A} (p : A → bool) (l l' : list A) : l ≡ₚ l' → List.filter p l ≡ₚ List.filter p l'.
Proof.
  induction 1; simpl; [done| | |by etrans].
  - by case_match; [apply Permutation_skip|].
  - repeat case_match; try done. apply Permutation_swap.
Qed.

Lemma forallb_perm {A} (p : A → bool) (l l' : list A) : l ≡ₚ l' → forallb p l = forallb p l'.
Proof.
  intros Hp. apply eq_true_iff_eq. rewrite !forallb_forall. split; intros H x Hx%list_elem_of_In; apply H, list_elem_of_In;
    [by rewrite Hp|by rewrite <- Hp].
Qed.

Lemma ready_perm r r' : r ≡ₚ r' → ready_ids r = ready_ids r'.
Proof. intros Hp. unfold ready_ids. by apply sorted_perm, Permutation_map, filter_perm. Qed.

Lemma without_perm ready r r' : r ≡ₚ r' → without ready r ≡ₚ without ready r'.
Proof. intros Hp. unfold without. by apply Permutation_map, filter_perm. Qed.

Lemma topological_loop_perm fuel d d' r r' ordered :
  (∀ k, dget k d = dget k d') → r ≡ₚ r' →
  topological_loop fuel d r ordered = topological_loop fuel d' r' ordered.
Proof.
  intros Hd. assert (Hom : ∀ l : list string, omap (λ k, dget k d) l = omap (λ k, dget k d') l) by (intros l; induction l as [|k l IHl]; [done|]; cbn; rewrite Hd; by destruct (dget k d'); [f_equal|]).
  revert r r' ordered. induction fuel as [|fuel IH]; intros r r' ordered Hp.
  all: destruct r as [|x r], r' as [|x' r']; try (by apply Permutation_nil_cons in Hp);
    try (by symmetry in Hp; apply Permutation_nil_cons in Hp); try done.
  all: cbn [topological_loop]; rewrite (ready_perm _ _ Hp); case_match; try done.
  rewrite Hom. by apply IH, without_perm.
Qed.

Lemma keyed_perm nodes nodes' k : NoDup (ids nodes) → nodes ≡ₚ nodes' → dget k (keyed nodes) = dget k (keyed nodes').
Proof.
  intros Hn Hp. assert (Hn' : NoDup (ids nodes')) by (unfold ids in *; by rewrite <- Hp).
  apply option_eq. intros n. split; intros [Hin <-]%keyed_inv; apply keyed_get; try done; [by rewrite <- Hp|by rewrite Hp].
Qed.

Lemma unknown_perm nodes nodes' :
  nodes ≡ₚ nodes' →
  forallb (λ n, forallb (λ d, dmem d (keyed nodes)) (g_depends_on n)) nodes =
  forallb (λ n, forallb (λ d, dmem d (keyed nodes')) (g_depends_on n)) nodes'.
Proof.
  intros Hp. apply eq_true_iff_eq. rewrite !deps_known.
  assert (Hi : ids nodes ≡ₚ ids nodes') by (unfold ids; by rewrite Hp).
  split; intros H n Hn d Hd; [rewrite <- Hi|rewrite Hi]; apply (H n); try done; [by rewrite Hp|by rewrite <- Hp].
Qed.

Lemma fan_out_perm nodes nodes' i : nodes ≡ₚ nodes' → fan_out nodes i = fan_out nodes' i.
Proof. intros Hp. unfold fan_out. by rewrite (Permutation_length (filter_perm _ _ _ Hp)). Qed.

(** C26. The same set of nodes compiles to the same graph: the order the nodes are
    given in changes neither the compiled order, nor the digest, nor the error. *)
Theorem compile_order_independent job nodes nodes' mn mf :
  nodes ≡ₚ nodes' → compile_execution_graph job nodes mn mf = compile_execution_graph job nodes' mn mf.
Proof.
  intros Hp. assert (Hl := Permutation_length Hp). unfold compile_execution_graph. rewrite Hl.
  assert (Hnil : bool_decide (nodes = []) = bool_decide (nodes' = [])).
  { apply bool_decide_ext. destruct nodes, nodes'; simpl in Hl; naive_solver. }
  rewrite Hnil. assert (Hi : ids nodes ≡ₚ ids nodes') by (unfold ids; by rewrite Hp).
  destruct (decide (NoDup (ids nodes))) as [Hn|Hn].
  - assert (Hn' : NoDup (ids nodes')) by (by rewrite <- Hi).
    destruct (by_id_unique nodes) as [-> _]; [by apply by_id_length|].
    destruct (by_id_unique nodes') as [-> _]; [by apply by_id_length|].
    assert (Hlk : length (keyed nodes) = length (keyed nodes')) by (unfold keyed; by rewrite !length_map).
    rewrite Hlk, (unknown_perm _ _ Hp), !dkeys_keyed.
    assert (Hfo : forallb (λ i, (fan_out nodes i <=? mf)%Z) (ids nodes) = forallb (λ i, (fan_out nodes' i <=? mf)%Z) (ids nodes')).
    { rewrite (forallb_perm _ _ _ Hi). clear -Hp. induction (ids nodes') as [|i l IH]; [done|]. simpl. by rewrite (fan_out_perm _ _ i Hp), IH. }
    rewrite Hfo. assert (Ht : topological_order (keyed nodes) = topological_order (keyed nodes')).
    { unfold topological_order. rewrite Hlk. apply topological_loop_perm; [intros; by apply keyed_perm|].
      apply Permutation_map. unfold keyed. by apply Permutation_map. }
    by rewrite Ht.
  - assert (E1 : Nat.eqb (length (by_id nodes)) (length nodes') = false)
      by (apply Nat.eqb_neq; rewrite <- Hl; intros H%by_id_length; done).
    assert (E2 : Nat.eqb (length (by_id nodes')) (length nodes') = false)
      by (apply Nat.eqb_neq; intros H%by_id_length; by rewrite <- Hi in H).
    by rewrite E1, E2.
Qed.

(** ** Digests *)

Lemma trust_value_inj a b : trust_value a = trust_value b → a = b.
Proof. by destruct a, b. Qed.

Lemma canonical_node_inj n n' : jnorm (canonical_node n) = jnorm (canonical_node n') → n = n'.
Proof.
  destruct n as [i o d s t ti ma], n' as [i' o' d' s' t' ti' ma']. unfold canonical_node. cbn -[map].
  intros [= Hd Hma Hi Ho Hs Hti Ht]. apply jnorm_strs_inj in Hd.
  assert (t = t') as ->; [|by subst]. rewrite !map_map in Ht. revert Ht. apply map_inj_eq.
  intros a b [= H]. by apply trust_value_inj.
Qed.

(** The message a digest is taken over. *)
Definition graph_message job l mn mf : string := utf8 (dumps (graph_body job l mn mf)).

(** A digest names one graph: two compiled graphs with the same digest have
    the same job, the same nodes in the same order and the same limits, unless
    their canonical encodings are a SHA-256 collision. *)
Theorem graph_digest_binds job nodes mn mf g job' nodes' mn' mf' g' :
  compile_execution_graph job nodes mn mf = Ok g → compile_execution_graph job' nodes' mn' mf' = Ok g' →
  cg_digest g = cg_digest g' →
  g = g' ∨ sha_collides [graph_message job (cg_nodes g) mn mf; graph_message job' (cg_nodes g') mn' mf'].
Proof.
  intros (l & ->)%compile_inv (l' & ->)%compile_inv. simpl. unfold graph_digest.
  intros H. destruct (sha256_hex_inj _ _ H) as [Heq|Hc]; [left|by right].
  apply utf8_inj, dumps_inj_norm in Heq. unfold graph_body in Heq. cbn -[map canonical_node] in Heq.
  injection Heq as -> -> -> Hl. f_equal; [|by rewrite H]. clear H. rewrite !map_map in Hl.
  revert Hl. apply map_inj_eq. intros. by apply canonical_node_inj.
Qed.

(** ** A diamond *)

Definition work (i : string) (deps : list string) : GraphNode := mkGraphNode i "run" deps false [USER_AUTHORIZED] 30 3.
Definition diamond : list GraphNode := [work "d" ["b"; "c"]; work "b" ["a"]; work "c" ["a"]; work "a" []].

Example diamond_order :
  match compile_execution_graph "job" diamond 8 4 with Ok g => ids (cg_nodes g) = ["a"; "b"; "c"; "d"] | Err _ => False end.
Proof. vm_compute. reflexivity. Qed.

Example cycle_refused :
  compile_execution_graph "job" [work "a" ["b"]; work "b" ["a"]] 8 4 =
  Err (GraphCompilationError "graph contains a dependency cycle").
Proof. vm_compute. reflexivity. Qed.

Lemma compile_order_independent_witness :
  compile_execution_graph "job" diamond 8 4 = compile_execution_graph "job" (reverse diamond) 8 4.
Proof. apply (compile_order_independent "job" diamond (reverse diamond) 8 4). symmetry. apply reverse_Permutation. Defined.

Lemma graph_digest_binds_witness :
  match compile_execution_graph "job" diamond 8 4 with
  | Ok g => g = g ∨ sha_collides [graph_message "job" (cg_nodes g) 8 4; graph_message "job" (cg_nodes g) 8 4]
  | Err _ => False
  end.
Proof.
  destruct (compile_execution_graph "job" diamond 8 4) as [g|e] eqn:E; [|vm_compute in E; discriminate].
  exact (graph_digest_binds "job" diamond 8 4 g "job" diamond 8 4 g E E eq_refl).
Defined.
