(* ===== verification/EffectLedger.v ===== *)
(** The effect ledger (src/olympus/effects/ledger.py): an external effect is
    reserved once per idempotency key, applied through its provider, reconciled
    when the answer was lost, and compensated at most once.

    Providers are an interface of the source: their operations are parameters,
    stateful over a world [P], and may raise. *)

From S2P Require Import Prelude PyDict Json Sha256.

Open Scope Z_scope.

Inductive effect_exn := UnknownCompletion | EffectValueError (msg : string) | EffectKeyError | ProviderError (msg : string).

Inductive EffectState := EF_PENDING | EF_CONFIRMED | EF_UNCERTAIN | EF_FAILED | EF_COMPENSATED.
#[export] Instance EffectState_eq : EqDecision EffectState.
Proof. solve_decision. Defined.

Record EffectIntent := mkIntent {
  in_effect_id : string;
  in_idempotency_key : string;
  in_adapter : string;
  in_operation : string;
  in_payload : list (string * json);
  in_compensatable : bool }.

(** [EffectIntent.__post_init__] *)
Definition make_intent (i : EffectIntent) : result effect_exn EffectIntent :=
  ensure (forallb (λ v, negb (is_blank v)) [in_effect_id i; in_idempotency_key i; in_adapter i; in_operation i])
    (EffectValueError "effect identity, dedupe key, adapter, and operation are required");;
  Ok i.

(** [payload_digest] *)
Definition payload_digest (i : EffectIntent) : string := sha256_hex (utf8 (dumps (JObj (in_payload i)))).

Record EffectReceipt := mkReceipt {
  er_effect_id : string;
  er_idempotency_key : string;
  er_payload_digest : string;
  er_adapter : string;
  er_operation : string;
  er_compensatable : bool;
  er_state : EffectState;
  er_provider_receipt : option string }.

(** ** The ledger *)

Record EffectLedger := mkEffectLedger { el_by_id : dict string EffectReceipt; el_by_key : dict string string }.
Definition empty_ledger : EffectLedger := mkEffectLedger [] [].

Definition new_receipt (i : EffectIntent) : EffectReceipt :=
  mkReceipt (in_effect_id i) (in_idempotency_key i) (payload_digest i) (in_adapter i) (in_operation i)
    (in_compensatable i) EF_PENDING None.

(** [reserve]: the receipt and whether it was created now. *)
Definition reserve_effect (i : EffectIntent) : St EffectLedger effect_exn (EffectReceipt * bool) :=
  l ← read;
  match dget (in_idempotency_key i) (el_by_key l) with
  | Some existing_id =>
      existing ← some_or (dget existing_id (el_by_id l)) EffectKeyError;
      check (bool_decide (er_payload_digest existing = payload_digest i))
        (EffectValueError "idempotency key was reused with a different payload");;
      mret (existing, false)
  | None =>
      check (negb (dmem (in_effect_id i) (el_by_id l))) (EffectValueError "effect identity was reused");;
      let r := new_receipt i in
      modify (λ _, mkEffectLedger (dset (er_effect_id r) r (el_by_id l)) (dset (er_idempotency_key r) (er_effect_id r) (el_by_key l)));;
      mret (r, true)
  end.

Definition get_effect (effect_id : string) : St EffectLedger effect_exn EffectReceipt :=
  l ← read; some_or (dget effect_id (el_by_id l)) (EffectValueError "effect does not exist").

Definition with_state (r : EffectReceipt) (state : EffectState) (provider_receipt : option string) : EffectReceipt :=
  mkReceipt (er_effect_id r) (er_idempotency_key r) (er_payload_digest r) (er_adapter r) (er_operation r)
    (er_compensatable r) state
    (match provider_receipt with
     | Some s => if is_empty s then er_provider_receipt r else Some s
     | None => er_provider_receipt r
     end).

(** [transition] *)
Definition transition (effect_id : string) (state : EffectState) (provider_receipt : option string) :
    St EffectLedger effect_exn EffectReceipt :=
  current ← get_effect effect_id;
  let updated := with_state current state provider_receipt in
  modify (λ l, mkEffectLedger (dset effect_id updated (el_by_id l)) (el_by_key l));;
  mret updated.

(** ** The executor *)

Section Executor.
Context {P : Type}.
(** The providers' [apply], [lookup] and [compensate], by adapter; which adapters
    are registered. *)
Context (registered : string → bool).
Context (apply : string → EffectIntent → St P effect_exn string).
Context (lookup_effect : string → string → St P effect_exn (option string)).
Context (undo : string → EffectReceipt → St P effect_exn ()).

(** The ledger and the outside world, with a ghost log of the calls of [apply]
    and [compensate]. *)
Inductive Call := Applied (key : string) | Undone (effect_id : string).
Record Effects := mkEffects { fx_ledger : EffectLedger; fx_world : P; fx_calls : list Call }.
Notation F := (St Effects effect_exn).

Definition on_ledger {A} (m : St EffectLedger effect_exn A) : F A := λ w,
  let p := m (fx_ledger w) in (p.1, mkEffects p.2 (fx_world w) (fx_calls w)).
Definition on_world {A} (m : St P effect_exn A) : F A := λ w,
  let p := m (fx_world w) in (p.1, mkEffects (fx_ledger w) p.2 (fx_calls w)).
Definition log (c : Call) : F () := modify (λ w, mkEffects (fx_ledger w) (fx_world w) (fx_calls w ++ [c])).

(** [_provider] *)
Definition provider (adapter : string) : F () :=
  check (registered adapter) (EffectValueError "effect adapter is not registered").

(** The [try] of [execute]: only a lost answer is recorded. *)
Definition apply_effect (i : EffectIntent) : F EffectReceipt := λ w,
  match on_world (apply (in_adapter i) i) w with
  | (Ok receipt, w') => on_ledger (transition (in_effect_id i) EF_CONFIRMED (Some receipt)) w'
  | (Err UnknownCompletion, w') =>
      (on_ledger (transition (in_effect_id i) EF_UNCERTAIN None);; raise UnknownCompletion) w'
  | (Err e, w') => (Err e, w')
  end.

(** [execute] *)
Definition execute (i : EffectIntent) : F EffectReceipt :=
  p ← on_ledger (reserve_effect i);
  if (p : EffectReceipt * bool).2 then
    provider (in_adapter i);;
    log (Applied (in_idempotency_key i));;
    apply_effect i
  else
    check (negb (bool_decide (er_state p.1 = EF_UNCERTAIN))) UnknownCompletion;;
    mret p.1.

(** [reconcile] *)
Definition reconcile (effect_id : string) : F EffectReceipt :=
  receipt ← on_ledger (get_effect effect_id);
  if bool_decide (er_state receipt = EF_UNCERTAIN) then
    provider (er_adapter receipt);;
    found ← on_world (lookup_effect (er_adapter receipt) (er_idempotency_key receipt));
    match found with
    | None => on_ledger (transition effect_id EF_FAILED None)
    | Some r => on_ledger (transition effect_id EF_CONFIRMED (Some r))
    end
  else mret receipt.

(** [compensate] *)
Definition compensate (effect_id : string) : F EffectReceipt :=
  receipt ← on_ledger (get_effect effect_id);
  if bool_decide (er_state receipt = EF_COMPENSATED) then mret receipt
  else
    check (bool_decide (er_state receipt = EF_CONFIRMED) && er_compensatable receipt)
      (EffectValueError "effect is not compensatable in its current state");;
    provider (er_adapter receipt);;
    log (Undone effect_id);;
    on_world (undo (er_adapter receipt) receipt);;
    on_ledger (transition effect_id EF_COMPENSATED None).
End Executor.

(** ** Histories *)

(** The keys whose effect was sent to a provider, in order. *)
Definition applied_keys (calls : list Call) : list string :=
  omap (λ c, match c with Applied k => Some k | Undone _ => None end) calls.

(** What the ledger's two tables say of each other. *)
Record ledger_wf (l : EffectLedger) : Prop := mkLedgerWf {
  lw_id : dict_wf (el_by_id l);
  lw_key : dict_wf (el_by_key l);
  lw_receipt : dall (λ i r, er_effect_id r = i ∧ dget (er_idempotency_key r) (el_by_key l) = Some i) (el_by_id l);
  lw_reserved : dall (λ k i, ∃ r, dget i (el_by_id l) = Some r ∧ er_idempotency_key r = k) (el_by_key l) }.

(** The life of an effect. *)
Inductive life : EffectState → EffectState → Prop :=
  | life_confirm : life EF_PENDING EF_CONFIRMED
  | life_lost : life EF_PENDING EF_UNCERTAIN
  | life_found : life EF_UNCERTAIN EF_CONFIRMED
  | life_absent : life EF_UNCERTAIN EF_FAILED
  | life_undone : life EF_CONFIRMED EF_COMPENSATED.

Definition same_effect (r r' : EffectReceipt) : Prop :=
  er_effect_id r' = er_effect_id r ∧ er_idempotency_key r' = er_idempotency_key r ∧
  er_payload_digest r' = er_payload_digest r ∧ er_adapter r' = er_adapter r ∧ er_operation r' = er_operation r ∧
  er_compensatable r' = er_compensatable r.

(** Every receipt is kept, describes the same effect, and moved along its life. *)
Definition evolves (l l' : EffectLedger) : Prop :=
  (∀ i r, dget i (el_by_id l) = Some r → ∃ r', dget i (el_by_id l') = Some r' ∧ same_effect r r' ∧
     rtc life (er_state r) (er_state r')) ∧
  (∀ k i, dget k (el_by_key l) = Some i → dget k (el_by_key l') = Some i).

Lemma evolves_refl l : evolves l l.
Proof. split; [|done]. intros i r H. exists r. by split_and!. Qed.

Lemma evolves_trans l1 l2 l3 : evolves l1 l2 → evolves l2 l3 → evolves l1 l3.
Proof.
  intros [H1 K1] [H2 K2]. split; [|by eauto]. intros i r Hr. destruct (H1 i r Hr) as (r2 & Hr2 & S1 & L1).
  destruct (H2 i r2 Hr2) as (r3 & Hr3 & S2 & L2). exists r3. split_and!; [done| |by etrans].
  unfold same_effect in *. intuition congruence.
Qed.

(** ** The ledger's operations *)

Lemma reserve_cases i l :
  (∃ e, reserve_effect i l = (Err e, l)) ∨
  (∃ r, reserve_effect i l = (Ok (r, false), l) ∧ ∃ id, dget (in_idempotency_key i) (el_by_key l) = Some id ∧
     dget id (el_by_id l) = Some r ∧ er_payload_digest r = payload_digest i) ∨
  (reserve_effect i l = (Ok (new_receipt i, true),
     mkEffectLedger (dset (in_effect_id i) (new_receipt i) (el_by_id l)) (dset (in_idempotency_key i) (in_effect_id i) (el_by_key l))) ∧
   dget (in_idempotency_key i) (el_by_key l) = None ∧ dget (in_effect_id i) (el_by_id l) = None).
Proof.
  unfold reserve_effect. py_unfold. destruct (dget (in_idempotency_key i) (el_by_key l)) as [id|] eqn:Ek; simpl.
  - destruct (dget id (el_by_id l)) as [r|] eqn:Er; simpl; [|by eauto].
    destruct (bool_decide _) eqn:Ed; simpl; [|by eauto]. apply bool_decide_eq_true in Ed. right; left. eauto 10.
  - unfold dmem. destruct (dget (in_effect_id i) (el_by_id l)) eqn:Ei; simpl; [by eauto|]. right; right. done.
Qed.

Lemma reserved_wf i l :
  ledger_wf l → dget (in_idempotency_key i) (el_by_key l) = None → dget (in_effect_id i) (el_by_id l) = None →
  let l' := mkEffectLedger (dset (in_effect_id i) (new_receipt i) (el_by_id l)) (dset (in_idempotency_key i) (in_effect_id i) (el_by_key l)) in
  ledger_wf l' ∧ evolves l l'.
Proof.
  intros [] Hk Hi l'. split.
  - split; simpl; [by apply dict_wf_dset|by apply dict_wf_dset| |].
    + apply dall_dset; [split; [done|]; simpl; by rewrite dget_dset_eq|]. intros j r Hj.
      destruct (lw_receipt0 j r Hj) as [? Hjk]. split; [done|]. rewrite dget_dset_ne; [done|]. congruence.
    + apply dall_dset; [exists (new_receipt i); by rewrite dget_dset_eq|]. intros k j Hj.
      destruct (lw_reserved0 k j Hj) as (r & Hr & Hrk). exists r. split; [|done]. rewrite dget_dset_ne; [done|]. congruence.
  - split; simpl.
    + intros j r Hj. exists r. rewrite dget_dset_ne by congruence. by split_and!.
    + intros k j Hj. by rewrite dget_dset_ne by congruence.
Qed.

Lemma transition_spec i st pr l r :
  ledger_wf l → dget i (el_by_id l) = Some r → rtc life (er_state r) st →
  ∃ r', transition i st pr l = (Ok r', mkEffectLedger (dset i r' (el_by_id l)) (el_by_key l)) ∧
    same_effect r r' ∧ er_state r' = st ∧
    ledger_wf (mkEffectLedger (dset i r' (el_by_id l)) (el_by_key l)) ∧
    evolves l (mkEffectLedger (dset i r' (el_by_id l)) (el_by_key l)).
Proof.
  intros [] Hr Hl. exists (with_state r st pr). unfold transition, get_effect. py_unfold. rewrite Hr. simpl.
  assert (Hs : same_effect r (with_state r st pr)) by done. split_and!; try done.
  - destruct (lw_receipt0 i r Hr) as [Hi Hk]. split; simpl; [by apply dict_wf_dset|done| |].
    + by apply dall_dset.
    + intros k j Hj. destruct (lw_reserved0 k j Hj) as (r0 & Hr0 & Hrk). rewrite dget_dset. case_decide as E; [|by eauto].
      subst j. exists (with_state r st pr). split; [done|]. simpl. congruence.
  - split; simpl; [|done]. intros j r0 Hj. rewrite dget_dset. case_decide as E; subst.
    + rewrite Hr in Hj. injection Hj as <-. eauto.
    + exists r0. by split_and!.
Qed.

(** ** The executor *)

Section ExecutorFacts.
Context {P : Type} (registered : string → bool).
Context (apply : string → EffectIntent → St P effect_exn string).
Context (lookup_effect : string → string → St P effect_exn (option string)).
Context (undo : string → EffectReceipt → St P effect_exn ()).
Notation execute := (execute registered apply).
Notation reconcile := (reconcile registered lookup_effect).
Notation compensate := (compensate registered undo).

Inductive effect_step : Effects (P := P) → Effects → Prop :=
  | es_execute i w : effect_step w (final (execute i w))
  | es_reconcile id w : effect_step w (final (reconcile id w))
  | es_compensate id w : effect_step w (final (compensate id w)).

(** Each reserved key was applied at most once, and only reserved keys were. *)
Record effects_inv (w : Effects (P := P)) : Prop := mkEffectsInv {
  fi_wf : ledger_wf (fx_ledger w);
  fi_once : NoDup (applied_keys (fx_calls w));
  fi_known : ∀ k, k ∈ applied_keys (fx_calls w) → dmem k (el_by_key (fx_ledger w)) = true }.

Lemma applied_app a b : applied_keys (a ++ b) = applied_keys a ++ applied_keys b.
Proof. unfold applied_keys. by rewrite omap_app. Qed.

(** Moving to a later ledger with the same calls. *)
Lemma effects_inv_evolves w l p :
  effects_inv w → ledger_wf l → evolves (fx_ledger w) l → effects_inv (mkEffects l p (fx_calls w)).
Proof.
  intros [] Hl [_ He]. split; simpl; try done. intros k Hk. specialize (fi_known0 k Hk). unfold dmem in *.
  destruct (dget k (el_by_key (fx_ledger w))) as [i|] eqn:E; [|done]. by rewrite (He k i E).
Qed.

Lemma log_undone w id : effects_inv w → effects_inv (mkEffects (fx_ledger w) (fx_world w) (fx_calls w ++ [Undone id])).
Proof. intros []. split; simpl; [done|by rewrite applied_app, app_nil_r..]. Qed.

(** One [transition] on the ledger of a state. *)
Lemma settle w i st pr r :
  effects_inv w → dget i (el_by_id (fx_ledger w)) = Some r → rtc life (er_state r) st →
  ∃ r', on_ledger (transition i st pr) w =
      (Ok r', mkEffects (mkEffectLedger (dset i r' (el_by_id (fx_ledger w))) (el_by_key (fx_ledger w))) (fx_world w) (fx_calls w)) ∧
    same_effect r r' ∧ er_state r' = st ∧
    effects_inv (final (on_ledger (transition i st pr) w)) ∧
    evolves (fx_ledger w) (fx_ledger (final (on_ledger (transition i st pr) w))).
Proof.
  intros Hw Hr Hl. destruct (transition_spec i st pr (fx_ledger w) r (fi_wf _ Hw) Hr Hl) as (r' & E & Hs & Hst & Hwf & Hev).
  exists r'. unfold on_ledger. rewrite E. simpl. split_and!; try done. by apply effects_inv_evolves.
Qed.

(** What [execute] does: refuse, answer from the ledger, or apply once. *)
Inductive executed (i : EffectIntent) (w w' : Effects (P := P)) : result effect_exn EffectReceipt → Prop :=
  | ex_refused e : w' = w → executed i w w' (Err e)
  | ex_known r id : w' = w → dget (in_idempotency_key i) (el_by_key (fx_ledger w)) = Some id →
      dget id (el_by_id (fx_ledger w)) = Some r → er_payload_digest r = payload_digest i →
      executed i w w' (if bool_decide (er_state r = EF_UNCERTAIN) then Err UnknownCompletion else Ok r)
  | ex_new o : dget (in_idempotency_key i) (el_by_key (fx_ledger w)) = None →
      dget (in_idempotency_key i) (el_by_key (fx_ledger w')) = Some (in_effect_id i) →
      (∃ r, dget (in_effect_id i) (el_by_id (fx_ledger w')) = Some r ∧ (∀ r0, o = Ok r0 → r0 = r ∧ er_state r = EF_CONFIRMED)) →
      fx_calls w' = fx_calls w ∨ fx_calls w' = fx_calls w ++ [Applied (in_idempotency_key i)] →
      executed i w w' o.

Lemma execute_spec i w :
  effects_inv w →
  executed i w (final (execute i w)) (outcome (execute i w)) ∧ effects_inv (final (execute i w)) ∧
  evolves (fx_ledger w) (fx_ledger (final (execute i w))).
Proof.
  intros Hw. unfold EffectLedger.execute, mbind, st_bind.
  assert (Hrun : on_ledger (reserve_effect i) w = let p := reserve_effect i (fx_ledger w) in (p.1, mkEffects p.2 (fx_world w) (fx_calls w))) by done.
  rewrite Hrun. clear Hrun.
  destruct (reserve_cases i (fx_ledger w)) as [(e & E)|[(r & E & id & Hk & Hr & Hd)|(E & Hk & Hi)]]; rewrite E; cbv zeta; cbn [fst snd].
  - destruct w. simpl. split_and!; [by apply ex_refused|done|apply evolves_refl].
  - assert (Hww : mkEffects (fx_ledger w) (fx_world w) (fx_calls w) = w) by by destruct w. rewrite Hww.
    unfold check, ensure, mret, st_ret. assert (Hx := ex_known i w w r id eq_refl Hk Hr Hd).
    destruct (bool_decide (er_state r = EF_UNCERTAIN)) eqn:Eu; simpl in *; split_and!; try done; apply evolves_refl.
  - destruct (reserved_wf i (fx_ledger w) (fi_wf _ Hw) Hk Hi) as [Hwf Hev]. set (l := mkEffectLedger _ _) in *.
    assert (Hl : effects_inv (mkEffects l (fx_world w) (fx_calls w))) by by apply effects_inv_evolves.
    assert (Hlk : dget (in_idempotency_key i) (el_by_key l) = Some (in_effect_id i)) by (simpl; by rewrite dget_dset_eq).
    assert (Hli : dget (in_effect_id i) (el_by_id l) = Some (new_receipt i)) by (simpl; by rewrite dget_dset_eq).
    unfold provider, check, ensure. destruct (registered (in_adapter i)).
    2: { simpl. split_and!; [|done|done]. apply ex_new; [done|done| |by left]. exists (new_receipt i). by split. }
    unfold log, modify. cbn [fx_ledger fx_world fx_calls].
    set (w1 := mkEffects l (fx_world w) (fx_calls w ++ [Applied (in_idempotency_key i)])).
    assert (Hw1 : ∀ p, effects_inv (mkEffects l p (fx_calls w1))).
    { intros p. destruct Hw, Hl. split; simpl; [done| |]; rewrite applied_app; simpl.
      - apply NoDup_app. split_and!; [done| |apply NoDup_singleton]. intros k Hkin ->%list_elem_of_singleton.
        apply fi_known0 in Hkin. unfold dmem in Hkin. by rewrite Hk in Hkin.
      - intros k Hkin. apply elem_of_app in Hkin as [Hkin|Hkin]; [by apply fi_known1|].
        apply list_elem_of_singleton in Hkin as ->. unfold dmem. by rewrite dget_dset_eq. }
    unfold apply_effect, on_world. destruct (apply (in_adapter i) i (fx_world w1)) as [[receipt|e] p]; cbn [fst snd].
    + destruct (settle (mkEffects (fx_ledger w1) p (fx_calls w1)) (in_effect_id i) EF_CONFIRMED (Some receipt) (new_receipt i) (Hw1 p) Hli)
        as (r' & Er & Hs & Hst & Hiv & Hevo); [apply rtc_once, life_confirm|].
      split_and!; [|exact Hiv|by eapply evolves_trans]. rewrite Er. cbn [outcome final fst snd].
      apply ex_new; [done|done| |by right]. exists r'. simpl. rewrite dget_dset_eq. split; [done|]. by intros r0 [= <-].
    + destruct e; try (split_and!; [|apply Hw1|done]; apply ex_new; [done|done| |by right]; exists (new_receipt i); by split).
      destruct (settle (mkEffects (fx_ledger w1) p (fx_calls w1)) (in_effect_id i) EF_UNCERTAIN None (new_receipt i) (Hw1 p) Hli)
        as (r' & Er & Hs & Hst & Hiv & Hevo); [apply rtc_once, life_lost|].
      unfold mbind, st_bind, raise in *. rewrite Er in *. cbn [outcome final fst snd] in *.
      split_and!; [|exact Hiv|by eapply evolves_trans].
      apply ex_new; [done|done| |by right]. exists r'. simpl. rewrite dget_dset_eq. by split.
Qed.

Lemma get_effect_run id (w : Effects (P := P)) :
  on_ledger (get_effect id) w =
    (match dget id (el_by_id (fx_ledger w)) with Some r => Ok r | None => Err (EffectValueError "effect does not exist") end, w).
Proof. unfold on_ledger, get_effect. py_unfold. destruct w; simpl. by destruct (dget id _). Qed.

(** Only the world changed. *)
Lemma world_inv w p : effects_inv w → effects_inv (mkEffects (fx_ledger w) p (fx_calls w)).
Proof. by intros []. Qed.

Lemma reconcile_spec id w :
  effects_inv w → effects_inv (final (reconcile id w)) ∧ evolves (fx_ledger w) (fx_ledger (final (reconcile id w))) ∧
  fx_calls (final (reconcile id w)) = fx_calls w.
Proof.
  intros Hw. unfold EffectLedger.reconcile, mbind, st_bind. rewrite get_effect_run.
  destruct (dget id (el_by_id (fx_ledger w))) as [r|] eqn:Er; [|split_and!; [done|apply evolves_refl|done]].
  destruct (bool_decide (er_state r = EF_UNCERTAIN)) eqn:Eu; [|split_and!; [done|apply evolves_refl|done]].
  apply bool_decide_eq_true in Eu. unfold provider, check, ensure.
  destruct (registered (er_adapter r)); [|split_and!; [done|apply evolves_refl|done]]. unfold on_world.
  destruct (lookup_effect (er_adapter r) (er_idempotency_key r) (fx_world w)) as [[[found|]|e] p]; cbn [fst snd].
  - destruct (settle (mkEffects (fx_ledger w) p (fx_calls w)) id EF_CONFIRMED (Some found) r (world_inv w p Hw) Er)
      as (r' & E & _ & _ & Hiv & Hev); [rewrite Eu; apply rtc_once, life_found|]. split_and!; [done|done|]. by rewrite E.
  - destruct (settle (mkEffects (fx_ledger w) p (fx_calls w)) id EF_FAILED None r (world_inv w p Hw) Er)
      as (r' & E & _ & _ & Hiv & Hev); [rewrite Eu; apply rtc_once, life_absent|]. split_and!; [done|done|]. by rewrite E.
  - split_and!; [by apply world_inv|apply evolves_refl|done].
Qed.

Lemma compensate_spec id w :
  effects_inv w → effects_inv (final (compensate id w)) ∧ evolves (fx_ledger w) (fx_ledger (final (compensate id w))) ∧
  (fx_calls (final (compensate id w)) = fx_calls w ∨
   fx_calls (final (compensate id w)) = fx_calls w ++ [Undone id] ∧
   ∃ r, dget id (el_by_id (fx_ledger w)) = Some r ∧ er_state r = EF_CONFIRMED ∧ er_compensatable r = true).
Proof.
  intros Hw. unfold EffectLedger.compensate, mbind, st_bind. rewrite get_effect_run.
  destruct (dget id (el_by_id (fx_ledger w))) as [r|] eqn:Er; [|split_and!; [done|apply evolves_refl|by left]].
  destruct (bool_decide (er_state r = EF_COMPENSATED)); [split_and!; [done|apply evolves_refl|by left]|].
  unfold check, ensure. destruct (bool_decide (er_state r = EF_CONFIRMED) && er_compensatable r) eqn:Ec;
    [|split_and!; [done|apply evolves_refl|by left]].
  apply andb_true_iff in Ec as [Ec%bool_decide_eq_true Hc]. unfold provider, check, ensure.
  destruct (registered (er_adapter r)); [|split_and!; [done|apply evolves_refl|by left]].
  unfold log, modify, on_world. cbn [fx_ledger fx_world fx_calls]. assert (Hl := log_undone w id Hw).
  destruct (undo (er_adapter r) r (fx_world w)) as [[[]|e] p]; cbn [fst snd].
  - destruct (settle (mkEffects (fx_ledger w) p (fx_calls w ++ [Undone id])) id EF_COMPENSATED None r (world_inv _ p Hl) Er)
      as (r' & E & _ & _ & Hiv & Hev); [rewrite Ec; apply rtc_once, life_undone|]. split_and!; [done|done|].
    right. rewrite E. split; [done|by eauto].
  - split_and!; [by apply (world_inv _ p Hl)|apply evolves_refl|]. right. split; [done|by eauto].
Qed.

Definition effects_reachable (w : Effects (P := P)) : Prop := ∃ world, rtc effect_step (mkEffects empty_ledger world []) w.

Lemma effects_start world : effects_inv (mkEffects empty_ledger world []).
Proof. split; simpl; [split; simpl; try apply dict_wf_nil; done|apply NoDup_nil_2|by intros k ?%not_elem_of_nil]. Qed.

Lemma effect_step_inv w w' : effect_step w w' → effects_inv w → effects_inv w' ∧ evolves (fx_ledger w) (fx_ledger w').
Proof.
  intros [i v|id v|id v] Hv; [by destruct (execute_spec i v Hv) as (_ & ? & ?)|by destruct (reconcile_spec id v Hv) as (? & ? & _)|
    by destruct (compensate_spec id v Hv) as (? & ? & _)].
Qed.

Lemma effect_rtc w w' : rtc effect_step w w' → effects_inv w → effects_inv w' ∧ evolves (fx_ledger w) (fx_ledger w').
Proof.
  induction 1 as [w|w v w' Hs _ IH]; intros Hw; [by split; [|apply evolves_refl]|].
  destruct (effect_step_inv _ _ Hs Hw) as [Hv He]. destruct (IH Hv) as [Hw' He']. split; [done|by eapply evolves_trans].
Qed.

Lemma effects_reachable_inv w : effects_reachable w → effects_inv w.
Proof. intros [p H]. by apply (effect_rtc _ _ H), effects_start. Qed.

(** C22. An external effect is sent to its provider at most once per idempotency
    key, over any history of executions, reconciliations and compensations and
    whatever the providers answer or raise: a second execution of the key with the
    same payload changes nothing, calls nobody and answers the recorded receipt,
    or asks for reconciliation while the outcome is uncertain, and one with
    another payload is refused unless the two payloads collide. *)
Theorem effect_applied_once w i id r :
  effects_reachable w →
  NoDup (applied_keys (fx_calls w)) ∧
  (dget (in_idempotency_key i) (el_by_key (fx_ledger w)) = Some id → dget id (el_by_id (fx_ledger w)) = Some r →
   final (execute i w) = w ∧
   (payload_digest i = er_payload_digest r →
      outcome (execute i w) = if bool_decide (er_state r = EF_UNCERTAIN) then Err UnknownCompletion else Ok r) ∧
   (payload_digest i ≠ er_payload_digest r →
      outcome (execute i w) = Err (EffectValueError "idempotency key was reused with a different payload"))).
Proof.
  intros Hw%effects_reachable_inv. split; [apply Hw|]. intros Hk Hr.
  assert (Hww : mkEffects (fx_ledger w) (fx_world w) (fx_calls w) = w) by by destruct w.
  unfold EffectLedger.execute, on_ledger, reserve_effect. py_unfold. rewrite Hk. simpl. rewrite Hr. simpl.
  destruct (bool_decide (er_payload_digest r = payload_digest i)) eqn:Ed.
  - apply bool_decide_eq_true in Ed. simpl. rewrite Hww.
    destruct (bool_decide (er_state r = EF_UNCERTAIN)); simpl; split_and!; try done; congruence.
  - apply bool_decide_eq_false in Ed. simpl. rewrite Hww. by split_and!.
Qed.

(** Every receipt lives one life: whatever happens after, an effect in the
    ledger stays there with the identity, payload, adapter and operation it was
    reserved with, and its state only moves from pending to confirmed or
    uncertain, from uncertain to confirmed or failed, and from confirmed to
    compensated; a compensation is asked of the provider only for a confirmed,
    compensatable effect. *)
Theorem effect_lifecycle w w' i r :
  effects_reachable w → rtc effect_step w w' → dget i (el_by_id (fx_ledger w)) = Some r →
  (∃ r', dget i (el_by_id (fx_ledger w')) = Some r' ∧ same_effect r r' ∧ rtc life (er_state r) (er_state r')) ∧
  ∀ id, fx_calls (final (compensate id w')) = fx_calls w' ∨
    fx_calls (final (compensate id w')) = fx_calls w' ++ [Undone id] ∧
    ∃ r', dget id (el_by_id (fx_ledger w')) = Some r' ∧ er_state r' = EF_CONFIRMED ∧ er_compensatable r' = true.
Proof.
  intros Hw%effects_reachable_inv Hs Hr. destruct (effect_rtc _ _ Hs Hw) as [Hw' [He _]]. split; [by apply He|].
  intros id. by destruct (compensate_spec id w' Hw') as (_ & _ & ?).
Qed.
End ExecutorFacts.

(** ** A provider that loses its answer *)

(** [FakeEffectProvider]: the effects applied so far, and the two counters; with
    [raise_after_apply] the answer of a new effect is lost. *)
Record FakeProvider := mkFake { fp_effects : dict string string; fp_apply_count : Z; fp_compensation_count : Z }.
Definition fake_apply (raise_after_apply : bool) (_ : string) (i : EffectIntent) : St FakeProvider effect_exn string :=
  p ← read;
  match dget (in_idempotency_key i) (fp_effects p) with
  | Some existing => mret existing
  | None =>
      let receipt := "provider-" +:+ in_effect_id i in
      modify (λ p, mkFake (dset (in_idempotency_key i) receipt (fp_effects p)) (fp_apply_count p + 1) (fp_compensation_count p));;
      check (negb raise_after_apply) UnknownCompletion;;
      mret receipt
  end.
Definition fake_lookup (_ key : string) : St FakeProvider effect_exn (option string) := gets (λ p, dget key (fp_effects p)).
Definition fake_compensate (_ : string) (_ : EffectReceipt) : St FakeProvider effect_exn () :=
  modify (λ p, mkFake (fp_effects p) (fp_apply_count p) (fp_compensation_count p + 1)).

Definition mail : EffectIntent := mkIntent "e1" "k1" "smtp" "send" [("to", JStr "a@b")] true.
Notation demo_effect_step := (effect_step (λ _, true) (fake_apply true) fake_lookup fake_compensate).
Notation demo_effects := (effects_reachable (λ _, true) (fake_apply true) fake_lookup fake_compensate).
Definition fx0 : Effects := mkEffects empty_ledger (mkFake [] 0 0) [].
Definition fx1 : Effects := final (execute (λ _, true) (fake_apply true) mail fx0).
Definition fx2 : Effects := final (reconcile (λ _, true) fake_lookup "e1" fx1).

Lemma fx1_reachable : demo_effects fx1.
Proof. exists (mkFake [] 0 0). apply rtc_once. apply es_execute. Qed.

(** The answer was lost; a retry is refused, and nothing is sent again. *)
Lemma effect_applied_once_witness :
  applied_keys (fx_calls fx1) = ["k1"] ∧ NoDup (applied_keys (fx_calls fx1)) ∧
  final (execute (λ _, true) (fake_apply true) mail fx1) = fx1 ∧
  outcome (execute (λ _, true) (fake_apply true) mail fx1) = Err UnknownCompletion.
Proof.
  split; [vm_compute; reflexivity|].
  destruct (dget "e1" (el_by_id (fx_ledger fx1))) as [r|] eqn:Er; [|vm_compute in Er; discriminate].
  destruct (effect_applied_once (λ _, true) (fake_apply true) fake_lookup fake_compensate fx1 mail "e1" r fx1_reachable) as [H1 H2].
  split; [exact H1|]. destruct H2 as (H3 & H4 & _); [vm_compute; reflexivity|exact Er|]. split; [exact H3|].
  rewrite H4; vm_compute in Er; injection Er as <-; vm_compute; reflexivity.
Defined.

Lemma effect_lifecycle_witness :
  ∃ r r', dget "e1" (el_by_id (fx_ledger fx1)) = Some r ∧ er_state r = EF_UNCERTAIN ∧
    dget "e1" (el_by_id (fx_ledger fx2)) = Some r' ∧ er_state r' = EF_CONFIRMED ∧ same_effect r r'.
Proof.
  destruct (dget "e1" (el_by_id (fx_ledger fx1))) as [r|] eqn:Er; [|vm_compute in Er; discriminate].
  assert (Hs : rtc demo_effect_step fx1 fx2) by (apply rtc_once, es_reconcile).
  destruct (effect_lifecycle (λ _, true) (fake_apply true) fake_lookup fake_compensate fx1 fx2 "e1" r fx1_reachable Hs Er)
    as [(r' & Hr' & Hsame & _) _].
  exists r, r'. split_and!; [reflexivity| |exact Hr'| |exact Hsame].
  - vm_compute in Er. injection Er as <-. reflexivity.
  - vm_compute in Hr'. injection Hr' as <-. reflexivity.
Defined.

(** A key whose first execution failed before or inside the provider, other than
    by a lost answer, keeps its pending receipt: a retry answers it as if it were
    an outcome, and the effect is never applied. *)
Example pending_effect_never_retried :
  let w := final (execute (λ _, false) (fake_apply false) mail fx0) in
  outcome (execute (λ _, false) (fake_apply false) mail fx0) = Err (EffectValueError "effect adapter is not registered") ∧
  outcome (execute (λ _, true) (fake_apply false) mail w) = Ok (new_receipt mail) ∧
  fx_calls (final (execute (λ _, true) (fake_apply false) mail w)) = [].
Proof. vm_compute. done. Qed.
