(* ===== verification/RootBroker.v ===== *)
(** The privileged broker (src/olympus/broker/root.py): signed, short-lived,
    single-use requests from one local peer, for a fixed registry of operations.

    The signature check comes from PyNaCl and the approval verifier and the host
    executor are interfaces of the source: they are parameters. What the executor
    was asked to run is kept as a log. *)

From S2P Require Import Prelude PyDict PyTime Json Sha256.
From Stdlib Require Import Ascii.

Open Scope Z_scope.

Inductive broker_exn := BrokerDenied (msg : string) | BrokerValueError (msg : string) | BrokerTypeError | HostError (msg : string).

Record BrokerRequest := mkBrokerRequest {
  br_request_id : string;
  br_nonce : string;
  br_operation : string;
  br_parameters : dict string json;
  br_issued_at : datetime;
  br_expires_at : datetime }.

(** [BrokerRequest.__post_init__] *)
Definition make_broker_request (r : BrokerRequest) : result broker_exn BrokerRequest :=
  ensure (forallb (λ v, negb (is_blank v)) [br_request_id r; br_nonce r; br_operation r])
    (BrokerValueError "broker request identity, nonce, and operation are required");;
  ensure (br_issued_at r <? br_expires_at r) (BrokerValueError "broker request must expire after issuance");;
  ensure (br_expires_at r - br_issued_at r <=? minutes 5)
    (BrokerValueError "broker request lifetime cannot exceed five minutes");;
  Ok r.

(** [canonical_bytes] *)
Definition request_body (r : BrokerRequest) : json :=
  JObj [("request_id", JStr (br_request_id r)); ("nonce", JStr (br_nonce r)); ("operation", JStr (br_operation r));
        ("parameters", JObj (br_parameters r)); ("issued_at", JStr (isoformat (br_issued_at r)));
        ("expires_at", JStr (isoformat (br_expires_at r)))].
Definition broker_bytes (r : BrokerRequest) : string := utf8 (dumps (request_body r)).

Record SignedBrokerRequest := mkSignedRequest { sb_request : BrokerRequest; sb_signature : string }.

(** [SignedBrokerRequest.__post_init__] *)
Definition make_signed_request (s : SignedBrokerRequest) : result broker_exn SignedBrokerRequest :=
  ensure (negb (is_empty (sb_signature s))) (BrokerValueError "broker request signature is required");; Ok s.

Record BrokerReceipt := mkBrokerReceipt { bc_request_id : string; bc_operation : string; bc_request_digest : string }.

(** ** Literal commands *)

Fixpoint has_nul (s : string) : bool :=
  match s with EmptyString => false | String c s' => (ord c =? 0)%nat || has_nul s' end.
Definition safe_arg (v : string) : bool := negb (is_empty v) && negb (has_nul v).

Definition argv_message (argv : list string) : string := utf8 (dumps (JList (map JStr argv))).

(** [literal_command_digest] *)
Definition literal_command_digest (argv : list string) : result broker_exn string :=
  ensure (negb (bool_decide (argv = [])) && forallb safe_arg argv)
    (BrokerValueError "literal command argv must contain safe non-empty strings");;
  Ok (sha256_hex (argv_message argv)).

(** The strings of a JSON list, when it holds nothing else. *)
Definition strings_of (l : list json) : option (list string) :=
  mapM (λ j, match j with JStr s => Some s | _ => None end) l.

Section Broker.
Context (verify : string → string → bool).
Context (literal_approved : string → bool).
Context (run_host : string → dict string json → result broker_exn ()).

(** [TypedRootBroker]; its key is inside [verify]. *)
Record Broker := mkBroker {
  bk_orchestrator_uid : Z;
  bk_allowed_services : list string;
  bk_used_nonces : list string;
  bk_calls : list (string * dict string json) }.

(** [TypedRootBroker.__init__] *)
Definition make_broker (orchestrator_uid : Z) (allowed_services : list string) : result broker_exn Broker :=
  ensure (0 <? orchestrator_uid) (BrokerValueError "orchestrator must have a dedicated non-root uid");;
  ensure (negb (bool_decide (allowed_services = []))) (BrokerValueError "at least one typed service target is required");;
  Ok (mkBroker orchestrator_uid allowed_services [] []).

(** [_validate_literal_command] *)
Definition validate_literal_command (parameters : dict string json) : result broker_exn () :=
  ensure (keys_are ["argv"; "approval_digest"] parameters) (BrokerDenied "literal root command schema is invalid");;
  match dget "argv" parameters, dget "approval_digest" parameters with
  | Some (JList l), Some (JStr approval_digest) =>
      match strings_of l with
      | Some argv =>
          ensure (negb (bool_decide (argv = [])) && (length argv <=? 64)%nat && forallb safe_arg argv)
            (BrokerDenied "literal root command arguments are invalid");;
          expected ← literal_command_digest argv;
          ensure (bool_decide (approval_digest = expected) && literal_approved expected)
            (BrokerDenied "Face ID approval does not match the literal root command")
      | None => Err (BrokerDenied "literal root command arguments are invalid")
      end
  | _, _ => Err (BrokerDenied "literal root command arguments are invalid")
  end.

(** [_validate_operation]; a list or an object is not hashable. *)
Definition validate_operation (services : list string) (operation : string) (parameters : dict string json) : result broker_exn () :=
  if bool_decide (operation = "service.restart") then
    ensure (keys_are ["service"] parameters) (BrokerDenied "service operation schema or target is denied");;
    match dget "service" parameters with
    | Some (JStr s) => ensure (bool_decide (s ∈ services)) (BrokerDenied "service operation schema or target is denied")
    | Some (JList _) | Some (JObj _) => Err BrokerTypeError
    | _ => Err (BrokerDenied "service operation schema or target is denied")
    end
  else if bool_decide (operation = "root.command.literal") then validate_literal_command parameters
  else Err (BrokerDenied "root operation is not in the fixed registry").

Definition use_nonce (nonce : string) (b : Broker) : Broker :=
  mkBroker (bk_orchestrator_uid b) (bk_allowed_services b) (bk_used_nonces b ++ [nonce]) (bk_calls b).
Definition log_call (operation : string) (parameters : dict string json) (b : Broker) : Broker :=
  mkBroker (bk_orchestrator_uid b) (bk_allowed_services b) (bk_used_nonces b) (bk_calls b ++ [(operation, parameters)]).

(** [TypedRootBroker.execute] *)
Definition broker_execute (signed : SignedBrokerRequest) (peer_uid : Z) (now : datetime) : St Broker broker_exn BrokerReceipt :=
  b ← read;
  let r := sb_request signed in
  check (peer_uid =? bk_orchestrator_uid b) (BrokerDenied "peer is outside the host socket privilege boundary");;
  check (negb (now <? br_issued_at r) && (now <? br_expires_at r)) (BrokerDenied "broker request expired or is not active");;
  check (negb (bool_decide (br_nonce r ∈ bk_used_nonces b))) (BrokerDenied "broker nonce replay denied");;
  check (verify (broker_bytes r) (sb_signature signed)) (BrokerDenied "broker signature is invalid");;
  liftR (validate_operation (bk_allowed_services b) (br_operation r) (br_parameters r));;
  modify (use_nonce (br_nonce r));;
  modify (log_call (br_operation r) (br_parameters r));;
  liftR (run_host (br_operation r) (br_parameters r));;
  mret (mkBrokerReceipt (br_request_id r) (br_operation r) (sha256_hex (broker_bytes r))).

(** ** What the broker guarantees *)

Definition permitted (services : list string) (operation : string) (parameters : dict string json) : Prop :=
  (operation = "service.restart" ∧ (∀ k, k ∈ dkeys parameters ↔ k ∈ ["service"]) ∧
    ∃ s, dget "service" parameters = Some (JStr s) ∧ s ∈ services) ∨
  (operation = "root.command.literal" ∧
    ∃ argv digest, dget "argv" parameters = Some (JList (map JStr argv)) ∧ argv ≠ [] ∧ (length argv ≤ 64)%nat ∧
      (∀ v, v ∈ argv → safe_arg v = true) ∧ dget "approval_digest" parameters = Some (JStr digest) ∧
      digest = sha256_hex (argv_message argv) ∧ literal_approved digest = true).

Lemma strings_of_spec l argv : strings_of l = Some argv → l = map JStr argv.
Proof.
  revert argv. induction l as [|j l IH]; intros argv; [by intros [= <-]|]. simpl. destruct j; simpl; try done.
  intros (t & Ht & [= <-])%bind_Some. simpl. f_equal. by apply IH.
Qed.

Lemma validate_operation_sound services operation parameters u :
  validate_operation services operation parameters = Ok u → permitted services operation parameters.
Proof.
  unfold validate_operation. destruct (bool_decide (operation = "service.restart")) eqn:E1.
  - apply bool_decide_eq_true in E1. intros (? & Hk%ensure_Ok & H)%bind_Ok. left. split; [done|].
    split; [by apply keys_are_spec|]. destruct (dget "service" parameters) as [[| | |s| |]|]; try done.
    apply ensure_Ok in H. apply bool_decide_eq_true in H. eauto.
  - destruct (bool_decide (operation = "root.command.literal")) eqn:E2; [|done]. apply bool_decide_eq_true in E2.
    unfold validate_literal_command. intros (? & Hk%ensure_Ok & H)%bind_Ok. right. split; [done|].
    destruct (dget "argv" parameters) as [[| | | |l|]|] eqn:Ea; try done.
    destruct (dget "approval_digest" parameters) as [[| | |digest| |]|] eqn:Ed; try done.
    destruct (strings_of l) as [argv|] eqn:Es; [|done]. apply strings_of_spec in Es as ->.
    apply bind_Ok in H as (? & Ha%ensure_Ok & (expected & He & Hd%ensure_Ok)%bind_Ok).
    unfold literal_command_digest in He. apply bind_Ok in He as (? & _ & [= <-]).
    apply andb_true_iff in Ha as [[Ha1 Ha2%Nat.leb_le]%andb_true_iff Ha3]. apply andb_true_iff in Hd as [Hd1%bool_decide_eq_true Hd2].
    bool_to_prop. exists argv, digest. split_and!; try done; [|by subst]. intros v Hv%list_elem_of_In.
    rewrite forallb_forall in Ha3. by apply Ha3.
Qed.

Lemma execute_inv signed uid now b c b' :
  broker_execute signed uid now b = (Ok c, b') →
  let r := sb_request signed in
  uid = bk_orchestrator_uid b ∧ br_issued_at r ≤ now < br_expires_at r ∧ br_nonce r ∉ bk_used_nonces b ∧
  verify (broker_bytes r) (sb_signature signed) = true ∧ permitted (bk_allowed_services b) (br_operation r) (br_parameters r) ∧
  b' = log_call (br_operation r) (br_parameters r) (use_nonce (br_nonce r) b).
Proof.
  unfold broker_execute. py_unfold. destruct (uid =? _) eqn:Eu; simpl; [|done].
  destruct (negb (now <? _) && _) eqn:Et; simpl; [|done].
  destruct (bool_decide (br_nonce (sb_request signed) ∈ bk_used_nonces b)) eqn:En; simpl; [done|].
  destruct (verify _ _) eqn:Ev; simpl; [|done].
  destruct (validate_operation _ _ _) as [[]|] eqn:Eo; simpl; [|done].
  destruct (run_host _ _) as [[]|]; [|done]. intros [= _ <-]. apply validate_operation_sound in Eo.
  apply andb_true_iff in Et as [Et1 Et2]. bool_to_prop. split_and!; try done; lia.
Qed.

(** Whether or not it succeeds, a call uses a nonce exactly when it reaches the
    host. *)
Lemma execute_effect signed uid now b :
  let b' := final (broker_execute signed uid now b) in let r := sb_request signed in
  bk_orchestrator_uid b' = bk_orchestrator_uid b ∧ bk_allowed_services b' = bk_allowed_services b ∧
  (bk_used_nonces b' = bk_used_nonces b ∧ bk_calls b' = bk_calls b ∨
   br_nonce r ∉ bk_used_nonces b ∧ uid = bk_orchestrator_uid b ∧ verify (broker_bytes r) (sb_signature signed) = true ∧
   br_issued_at r ≤ now < br_expires_at r ∧ permitted (bk_allowed_services b) (br_operation r) (br_parameters r) ∧
   bk_used_nonces b' = bk_used_nonces b ++ [br_nonce r] ∧ bk_calls b' = bk_calls b ++ [(br_operation r, br_parameters r)]).
Proof.
  unfold broker_execute. py_unfold. destruct (uid =? _) eqn:Eu; simpl; [|by auto].
  destruct (negb (now <? _) && _) eqn:Et; simpl; [|by auto].
  destruct (bool_decide (br_nonce (sb_request signed) ∈ bk_used_nonces b)) eqn:En; simpl; [by auto|].
  destruct (verify _ _) eqn:Ev; simpl; [|by auto].
  destruct (validate_operation _ _ _) as [[]|] eqn:Eo; simpl; [|by auto]. apply validate_operation_sound in Eo.
  apply andb_true_iff in Et as [Et1 Et2]. bool_to_prop.
  destruct (run_host _ _) as [[]|]; simpl; split_and!; try done; right; split_and!; try done; lia.
Qed.

(** A history of calls, each with its peer and its clock reading. *)
Definition Attempt : Type := SignedBrokerRequest * Z * datetime.
Fixpoint broker_run (hs : list Attempt) (b : Broker) : Broker :=
  match hs with
  | [] => b
  | (signed, uid, now) :: hs' => broker_run hs' (final (broker_execute signed uid now b))
  end.

(** A call the broker was right to make. *)
Definition justified (uid : Z) (services : list string) (hs : list Attempt) (call : string * dict string json) (nonce : string) : Prop :=
  ∃ signed now, (signed, uid, now) ∈ hs ∧ let r := sb_request signed in
    call = (br_operation r, br_parameters r) ∧ nonce = br_nonce r ∧ verify (broker_bytes r) (sb_signature signed) = true ∧
    br_issued_at r ≤ now < br_expires_at r ∧ permitted services (br_operation r) (br_parameters r).

Lemma justified_mono uid services hs hs' call nonce :
  hs ⊆ hs' → justified uid services hs call nonce → justified uid services hs' call nonce.
Proof. intros Hs (signed & now & Hin & ?). exists signed, now. auto. Qed.

Lemma broker_run_inv hs b done :
  NoDup (bk_used_nonces b) →
  Forall2 (justified (bk_orchestrator_uid b) (bk_allowed_services b) done) (bk_calls b) (bk_used_nonces b) →
  let b' := broker_run hs b in
  NoDup (bk_used_nonces b') ∧
  Forall2 (justified (bk_orchestrator_uid b) (bk_allowed_services b) (done ++ hs)) (bk_calls b') (bk_used_nonces b').
Proof.
  revert b done. induction hs as [|[[signed uid] now] hs IH]; intros b done Hn Hf; cbn [broker_run]; [by rewrite app_nil_r|].
  destruct (execute_effect signed uid now b) as (Hu & Hs & Hc).
  set (b1 := final (broker_execute signed uid now b)) in *.
  change (done ++ (signed, uid, now) :: hs) with (done ++ [(signed, uid, now)] ++ hs). rewrite app_assoc, <- Hu, <- Hs.
  apply IH; rewrite ?Hu, ?Hs.
  - destruct Hc as [[-> _]|(Hni & _ & _ & _ & _ & -> & _)]; [done|]. apply NoDup_app.
    split_and!; [done|by intros x Hx ->%list_elem_of_singleton|apply NoDup_singleton].
  - assert (Hm : Forall2 (justified (bk_orchestrator_uid b) (bk_allowed_services b) (done ++ [(signed, uid, now)]))
      (bk_calls b) (bk_used_nonces b)).
    { eapply Forall2_impl; [exact Hf|]. intros ? ?. apply justified_mono. set_solver. }
    destruct Hc as [[-> ->]|(_ & -> & Hv & Ht & Hp & -> & ->)]; [done|]. apply Forall2_app; [done|].
    constructor; [|constructor]. exists signed, now. split_and!; try done; try lia. set_solver.
Qed.

(** C23. Root runs only what was signed, once. Over any history of requests, the
    commands that reached the host match, one for one, nonces that are all
    different, and each came in a request from the orchestrator's own uid with a
    valid signature over its literal content, inside its lifetime of at most five
    minutes, for an operation of the fixed registry: a restart of an allowed
    service, or an argument vector whose own digest was approved. *)
Theorem broker_history_sound uid services b hs :
  make_broker uid services = Ok b →
  let b' := broker_run hs b in
  0 < uid ∧ NoDup (bk_used_nonces b') ∧ Forall2 (justified uid services hs) (bk_calls b') (bk_used_nonces b').
Proof.
  unfold make_broker. intros (? & Hu%ensure_Ok & (? & _ & [= <-])%bind_Ok)%bind_Ok. bool_to_prop.
  destruct (broker_run_inv hs (mkBroker uid services [] []) []) as [H1 H2]; simpl; [apply NoDup_nil_2|constructor|].
  by split_and!.
Qed.
End Broker.

(** An approval of a literal command fits no other: two argument vectors with
    the same digest are the same, or a SHA-256 collision. *)
Theorem literal_digest_binds argv argv' d :
  literal_command_digest argv = Ok d → literal_command_digest argv' = Ok d →
  argv = argv' ∨ sha_collides [argv_message argv; argv_message argv'].
Proof.
  unfold literal_command_digest. intros (? & _ & [= <-])%bind_Ok (? & _ & [= H])%bind_Ok.
  symmetry in H. destruct (sha256_hex_inj _ _ H) as [Heq|Hc]; [left|by right].
  apply utf8_inj, dumps_inj_norm in Heq. cbn -[map] in Heq. injection Heq as Heq. by apply jnorm_strs_inj.
Qed.

(** ** A broker at work *)

Definition toy_mac (m s : string) : bool := bool_decide (s = sha256_hex m).
Definition restart : BrokerRequest :=
  mkBrokerRequest "r1" "n1" "service.restart" [("service", JStr "nginx")] (seconds 10) (seconds 70).
Definition signed_restart : SignedBrokerRequest := mkSignedRequest restart (sha256_hex (broker_bytes restart)).
Definition host_ok (_ : string) (_ : dict string json) : result broker_exn () := Ok ().

Lemma broker_history_sound_witness :
  ∃ b, make_broker 1000 ["nginx"] = Ok b ∧
    let b' := broker_run toy_mac (λ _, false) host_ok [(signed_restart, 1000, seconds 20); (signed_restart, 1000, seconds 21)] b in
    bk_calls b' = [("service.restart", [("service", JStr "nginx")])] ∧ NoDup (bk_used_nonces b').
Proof.
  eexists. split; [reflexivity|]. intros b'. split; [vm_compute; reflexivity|].
  apply (broker_history_sound toy_mac (λ _, false) host_ok 1000 ["nginx"] _
    [(signed_restart, 1000, seconds 20); (signed_restart, 1000, seconds 21)] eq_refl).
Defined.

Lemma literal_digest_binds_witness :
  match literal_command_digest ["systemctl"; "reload"; "nginx"] with
  | Ok d => ["systemctl"; "reload"; "nginx"] = ["systemctl"; "reload"; "nginx"] ∨
      sha_collides [argv_message ["systemctl"; "reload"; "nginx"]; argv_message ["systemctl"; "reload"; "nginx"]]
  | Err _ => False
  end.
Proof.
  destruct (literal_command_digest ["systemctl"; "reload"; "nginx"]) as [d|e] eqn:E; [|vm_compute in E; discriminate].
  exact (literal_digest_binds _ _ d E E).
Defined.
