(* ===== verification/WorkerAdmission.v ===== *)
(** Worker admission (src/olympus/workers/admission.py) and the local autonomy
    runner (src/olympus/workers/local_autonomy.py).

    The token of a new lease is an argument, and so are what the file system says
    a path resolves to and what the runner's backend answers. *)

From S2P Require Import Prelude PyDict PyPath.

Open Scope Z_scope.

(** ** Requests *)

Inductive admission_exn := AdmissionDenied (msg : string) | AdmissionValueError (msg : string) | AdmissionKeyError.

Inductive WorkerClass := CLAUDE | CODEX | CHROMIUM | VERIFIER.
Inductive WorkPriority := BACKGROUND | NORMAL_PRIORITY | INTERACTIVE | CONTROL_PRIORITY.
Inductive SystemMode := NORMAL | CONSTRAINED | DEGRADED | SURVIVAL.
#[export] Instance WorkerClass_eq : EqDecision WorkerClass.
Proof. solve_decision. Defined.
#[export] Instance WorkPriority_eq : EqDecision WorkPriority.
Proof. solve_decision. Defined.
#[export] Instance SystemMode_eq : EqDecision SystemMode.
Proof. solve_decision. Defined.

Definition priority_value (p : WorkPriority) : Z :=
  match p with BACKGROUND => 10 | NORMAL_PRIORITY => 20 | INTERACTIVE => 30 | CONTROL_PRIORITY => 100 end.

Record ResourceEnvelope := mkEnvelope { re_cpu_millicores : Z; re_memory_mib : Z }.

(** [ResourceEnvelope.__post_init__] *)
Definition make_envelope (e : ResourceEnvelope) : result admission_exn ResourceEnvelope :=
  ensure (negb ((re_cpu_millicores e <? 0) || (re_memory_mib e <? 0)))
    (AdmissionValueError "resource values cannot be negative");; Ok e.

Record WorkerRequest := mkWorkerRequest {
  wr_request_id : string;
  wr_job_id : string;
  wr_worker_class : WorkerClass;
  wr_worktree_id : string;
  wr_artifact_prefix : string;
  wr_cpu_millicores : Z;
  wr_memory_mib : Z;
  wr_priority : WorkPriority }.

(** [WorkerRequest.__post_init__] *)
Definition make_worker_request (r : WorkerRequest) : result admission_exn WorkerRequest :=
  ensure (forallb (λ v, negb (is_blank v)) [wr_request_id r; wr_job_id r; wr_worktree_id r; wr_artifact_prefix r])
    (AdmissionValueError "worker identity and isolation boundaries are required");;
  ensure (negb ((wr_cpu_millicores r <? 1) || (wr_memory_mib r <? 1)))
    (AdmissionValueError "worker resource requests must be positive");;
  ensure (negb (starts_with "/" (wr_artifact_prefix r) || bool_decide (".." ∈ split_char slash (wr_artifact_prefix r))))
    (AdmissionValueError "artifact prefix must be a relative contained path");;
  Ok r.

Record WorkerLease := mkWorkerLease { wl_isolation_token : string; wl_request : WorkerRequest }.

(** ** The controller *)

Record Controller := mkController {
  ac_capacity : ResourceEnvelope;
  ac_mode : SystemMode;
  ac_concurrency : dict WorkerClass Z;
  ac_active : dict string WorkerLease }.

Definition all_classes : list WorkerClass := [CLAUDE; CODEX; CHROMIUM; VERIFIER].

(** [AdmissionController.__init__] *)
Definition make_controller (capacity : ResourceEnvelope) (mode : SystemMode) (concurrency : dict WorkerClass Z) :
    result admission_exn Controller :=
  ensure (negb ((re_cpu_millicores capacity <? 1) || (re_memory_mib capacity <? 1)))
    (AdmissionValueError "admission capacity must be positive");;
  ensure (forallb (λ c, dmem c concurrency) all_classes && forallb (λ v, 1 <=? v) (dvalues concurrency))
    (AdmissionValueError "every worker class needs a positive concurrency limit");;
  Ok (mkController capacity mode concurrency []).

Definition sum_of (f : WorkerRequest → Z) (active : dict string WorkerLease) : Z :=
  foldr (λ kl z, f (wl_request kl.2) + z) 0 active.

(** [used] *)
Definition used (c : Controller) : ResourceEnvelope :=
  mkEnvelope (sum_of wr_cpu_millicores (ac_active c)) (sum_of wr_memory_mib (ac_active c)).

Definition active_for_class (k : WorkerClass) (active : dict string WorkerLease) : Z :=
  sum_of (λ r, if bool_decide (wr_worker_class r = k) then 1 else 0) active.

Definition set_active (a : dict string WorkerLease) (c : Controller) : Controller :=
  mkController (ac_capacity c) (ac_mode c) (ac_concurrency c) a.
Definition set_mode (mode : SystemMode) (c : Controller) : Controller :=
  mkController (ac_capacity c) mode (ac_concurrency c) (ac_active c).

(** [_require_mode] *)
Definition require_mode (mode : SystemMode) (r : WorkerRequest) : result admission_exn () :=
  if bool_decide (wr_priority r = CONTROL_PRIORITY) then Ok () else
  ensure (negb (bool_decide (mode = SURVIVAL))) (AdmissionDenied "survival mode admits control work only");;
  ensure (negb (bool_decide (mode = DEGRADED) && (priority_value (wr_priority r) <? priority_value INTERACTIVE)))
    (AdmissionDenied "degraded mode rejects non-interactive work");;
  ensure (negb (bool_decide (mode = CONSTRAINED) && bool_decide (wr_priority r = BACKGROUND)))
    (AdmissionDenied "constrained mode rejects background work").

(** Whether a lease already holds the request's worktree or artifact prefix. *)
Definition overlaps (r : WorkerRequest) (l : WorkerLease) : bool :=
  bool_decide (wr_worktree_id (wl_request l) = wr_worktree_id r) ||
  bool_decide (wr_artifact_prefix (wl_request l) = wr_artifact_prefix r).

(** [admit] *)
Definition admit_worker (r : WorkerRequest) (uuid : string) : St Controller admission_exn WorkerLease :=
  c ← read;
  liftR (require_mode (ac_mode c) r);;
  check (negb (existsb (overlaps r) (dvalues (ac_active c)))) (AdmissionDenied "worker isolation boundary is already active");;
  limit ← some_or (dget (wr_worker_class r) (ac_concurrency c)) AdmissionKeyError;
  check (active_for_class (wr_worker_class r) (ac_active c) <? limit)
    (AdmissionDenied "worker class concurrency limit reached");;
  check (negb ((re_cpu_millicores (ac_capacity c) <? re_cpu_millicores (used c) + wr_cpu_millicores r) ||
               (re_memory_mib (ac_capacity c) <? re_memory_mib (used c) + wr_memory_mib r)))
    (AdmissionDenied "worker resource capacity exhausted");;
  let lease := mkWorkerLease ("worker-" +:+ uuid) r in
  modify (set_active (dset (wl_isolation_token lease) lease (ac_active c)));;
  mret lease.

(** [release] *)
Definition release (isolation_token : string) : St Controller admission_exn () :=
  c ← read;
  check (dmem isolation_token (ac_active c)) (AdmissionDenied "worker lease is not active");;
  modify (set_active (ddel isolation_token (ac_active c))).

(** ** The local autonomy runner *)

Inductive autonomy_exn := LocalAutonomyDenied (msg : string) | AutonomyValueError (msg : string) | BackendError (msg : string).

Definition SAFE_LOCAL_OPERATIONS : list string :=
  ["research.read"; "code.generate"; "test.run"; "draft.create"; "container.local"].

Record LocalTask := mkLocalTask {
  lt_task_id : string;
  lt_job_id : string;
  lt_operation : string;
  lt_relative_worktree : string;
  lt_instruction : string }.

(** [LocalTask.__post_init__] *)
Definition make_local_task (t : LocalTask) : result autonomy_exn LocalTask :=
  ensure (forallb (λ v, negb (is_blank v))
    [lt_task_id t; lt_job_id t; lt_operation t; lt_relative_worktree t; lt_instruction t])
    (AutonomyValueError "local task fields must not be empty");; Ok t.

Record LocalTaskResult := mkLocalResult { lr_task_id : string; lr_artifact : string; lr_revisions : nat; lr_verified : bool }.

Record Runner := mkRunner { ru_root : list string; ru_maximum_revisions : nat }.

Section Runner.
Context {B : Type}.
(** The backend over its own state, and what [Path.resolve] answers for a path
    under the root: its components. *)
Context (backend_execute : LocalTask → list string → nat → St B autonomy_exn string).
Context (backend_verify : LocalTask → string → list string → St B autonomy_exn bool).
Context (resolve : list string → string → list string).

(** [LocalAutonomyRunner.__init__] *)
Definition make_runner (absolute : bool) (root : list string) (maximum_revisions : Z) : result autonomy_exn Runner :=
  ensure absolute (AutonomyValueError "workspace root must be absolute");;
  ensure (negb ((maximum_revisions <? 0) || (5 <? maximum_revisions)))
    (AutonomyValueError "maximum revisions must be between zero and five");;
  Ok (mkRunner root (Z.to_nat maximum_revisions)).

(** The revision loop, with [left] turns to go. *)
Fixpoint revise (task : LocalTask) (worktree : list string) (revision left : nat) : St B autonomy_exn LocalTaskResult :=
  match left with
  | O => raise (LocalAutonomyDenied "verifier revision limit reached")
  | S left' =>
      artifact ← backend_execute task worktree revision;
      ok ← backend_verify task artifact worktree;
      if (ok : bool) then mret (mkLocalResult (lt_task_id task) artifact revision true)
      else revise task worktree (S revision) left'
  end.

(** [run] *)
Definition run_task (u : Runner) (task : LocalTask) : St B autonomy_exn LocalTaskResult :=
  check (bool_decide (lt_operation task ∈ SAFE_LOCAL_OPERATIONS))
    (LocalAutonomyDenied "operation is not a safe local capability");;
  let worktree := resolve (ru_root u) (lt_relative_worktree task) in
  check (negb (starts_with "/" (lt_relative_worktree task)) &&
         bool_decide (take (length (ru_root u)) worktree = ru_root u) && bool_decide (lt_job_id task ∈ worktree))
    (LocalAutonomyDenied "worktree must remain contained in the job boundary");;
  revise task worktree 0 (S (ru_maximum_revisions u)).
End Runner.

(** ** The scripted backend *)

Record Scripted := mkScripted {
  sb_outputs : list string;
  sb_verdicts : list bool;
  sb_paths : list (list string);
  sb_executions : nat;
  sb_verifications : nat }.

(** [ScriptedLocalBackend.__init__] *)
Definition make_scripted (outputs : list string) (verdicts : list bool) : result autonomy_exn Scripted :=
  ensure (negb (bool_decide (outputs = []) || bool_decide (verdicts = [])))
    (AutonomyValueError "scripted backend needs output and verdict fixtures");;
  Ok (mkScripted outputs verdicts [] 0 0).

(** [ScriptedLocalBackend.execute] *)
Definition scripted_execute (task : LocalTask) (worktree : list string) (revision : nat) :
    St Scripted autonomy_exn string := λ b,
  let index := Nat.min (sb_executions b) (length (sb_outputs b) - 1) in
  (require_some (sb_outputs b !! index) (BackendError "IndexError"),
   mkScripted (sb_outputs b) (sb_verdicts b) (sb_paths b ++ [worktree]) (S (sb_executions b)) (sb_verifications b)).

(** [ScriptedLocalBackend.verify] *)
Definition scripted_verify (task : LocalTask) (artifact : string) (worktree : list string) :
    St Scripted autonomy_exn bool := λ b,
  let index := Nat.min (sb_verifications b) (length (sb_verdicts b) - 1) in
  (require_some (sb_verdicts b !! index) (BackendError "IndexError"),
   mkScripted (sb_outputs b) (sb_verdicts b) (sb_paths b ++ [worktree]) (sb_executions b) (S (sb_verifications b))).

(** ** What admission guarantees *)

(** The leases held: requests that were validated when they were built. *)
Definition lease_ok (l : WorkerLease) : Prop :=
  is_ok (make_worker_request (wl_request l)) = true.

Definition within (c : Controller) : Prop :=
  re_cpu_millicores (used c) ≤ re_cpu_millicores (ac_capacity c) ∧
  re_memory_mib (used c) ≤ re_memory_mib (ac_capacity c) ∧
  (∀ k, ∃ limit, dget k (ac_concurrency c) = Some limit ∧ active_for_class k (ac_active c) ≤ limit).

Definition isolated (c : Controller) : Prop :=
  NoDup ((λ l, wr_worktree_id (wl_request l)) <$> dvalues (ac_active c)) ∧
  NoDup ((λ l, wr_artifact_prefix (wl_request l)) <$> dvalues (ac_active c)).

Record admission_inv (c : Controller) : Prop := {
  ai_leases : Forall lease_ok (dvalues (ac_active c));
  ai_tokens : dall (λ t l, wl_isolation_token l = t) (ac_active c);
  ai_wf : dict_wf (ac_active c);
  ai_within : within c;
  ai_isolated : isolated c }.

Lemma make_worker_request_inv r : is_ok (make_worker_request r) = true → 1 ≤ wr_cpu_millicores r ∧ 1 ≤ wr_memory_mib r.
Proof.
  unfold make_worker_request. destruct (ensure (forallb _ _) _); [|done]. simpl.
  destruct ((wr_cpu_millicores r <? 1) || (wr_memory_mib r <? 1)) eqn:Hr; [done|]. apply orb_false_iff in Hr. lia.
Qed.

Lemma sum_dset f k l (d : dict string WorkerLease) :
  Forall (λ x, 0 ≤ f (wl_request x)) (dvalues d) → sum_of f (dset k l d) ≤ sum_of f d + f (wl_request l).
Proof.
  unfold sum_of. induction d as [|[k' x] d IH]; simpl; [lia|]. intros [Hx Hd]%Forall_cons.
  case_decide; simpl; [lia|]. specialize (IH Hd). lia.
Qed.
Lemma sum_ddel f k (d : dict string WorkerLease) :
  Forall (λ x, 0 ≤ f (wl_request x)) (dvalues d) → sum_of f (ddel k d) ≤ sum_of f d.
Proof.
  unfold sum_of. induction d as [|[k' x] d IH]; simpl; [lia|]. intros [Hx Hd]%Forall_cons.
  case_decide; simpl; [lia|]. specialize (IH Hd). lia.
Qed.

(** Every measure the controller adds up is not negative on its leases. *)
Lemma measures_nonneg (a : dict string WorkerLease) :
  Forall lease_ok (dvalues a) →
  Forall (λ x, 0 ≤ wr_cpu_millicores (wl_request x)) (dvalues a) ∧ Forall (λ x, 0 ≤ wr_memory_mib (wl_request x)) (dvalues a) ∧
  ∀ k, Forall (λ x, 0 ≤ if bool_decide (wr_worker_class (wl_request x) = k) then 1 else 0) (dvalues a).
Proof.
  intros Ha. split_and!; [| |intros k]; (eapply Forall_impl; [exact Ha|]); intros x Hx%make_worker_request_inv; simpl;
    [lia|lia|case_bool_decide; lia].
Qed.

(** ** What [admit] asks for *)

Record admissible (r : WorkerRequest) (c : Controller) : Prop := {
  ad_mode : require_mode (ac_mode c) r = Ok ();
  ad_worktree : wr_worktree_id r ∉ (λ l, wr_worktree_id (wl_request l)) <$> dvalues (ac_active c);
  ad_prefix : wr_artifact_prefix r ∉ (λ l, wr_artifact_prefix (wl_request l)) <$> dvalues (ac_active c);
  ad_class : ∃ limit, dget (wr_worker_class r) (ac_concurrency c) = Some limit ∧
                      active_for_class (wr_worker_class r) (ac_active c) < limit;
  ad_cpu : re_cpu_millicores (used c) + wr_cpu_millicores r ≤ re_cpu_millicores (ac_capacity c);
  ad_memory : re_memory_mib (used c) + wr_memory_mib r ≤ re_memory_mib (ac_capacity c) }.

Lemma existsb_fmap {A B} `{EqDecision B} (g : A → B) b l : existsb (λ x, bool_decide (g x = b)) l = bool_decide (b ∈ g <$> l).
Proof.
  induction l as [|x l IH]; simpl; [done|]. rewrite IH. symmetry.
  case_bool_decide as H; repeat case_bool_decide; try done; set_solver.
Qed.
Lemma existsb_orb {A} (f g : A → bool) l : existsb (λ x, f x || g x) l = existsb f l || existsb g l.
Proof. induction l as [|x l IH]; simpl; [done|]. rewrite IH. by destruct (f x), (g x), (existsb f l). Qed.

Lemma no_overlap r (a : dict string WorkerLease) :
  existsb (overlaps r) (dvalues a) = false ↔
  wr_worktree_id r ∉ (λ l, wr_worktree_id (wl_request l)) <$> dvalues a ∧
  wr_artifact_prefix r ∉ (λ l, wr_artifact_prefix (wl_request l)) <$> dvalues a.
Proof.
  unfold overlaps. rewrite existsb_orb.
  rewrite (existsb_fmap (λ l, wr_worktree_id (wl_request l))), (existsb_fmap (λ l, wr_artifact_prefix (wl_request l))).
  by rewrite orb_false_iff, !bool_decide_eq_false.
Qed.

Lemma admit_worker_cases r u c :
  (admissible r c ∧ let l := mkWorkerLease ("worker-" +:+ u) r in
     admit_worker r u c = (Ok l, set_active (dset (wl_isolation_token l) l (ac_active c)) c)) ∨
  (¬ admissible r c ∧ ∃ e, admit_worker r u c = (Err e, c)).
Proof.
  unfold admit_worker, read, liftR, check, some_or, modify, require_some. unfold mbind, st_bind, mret, st_ret. simpl.
  destruct (require_mode (ac_mode c) r) as [[]|e] eqn:Hm; [|right; split; [intros []; congruence|eauto]].
  destruct (existsb (overlaps r) _) eqn:Ho; simpl; [right; split; [|eauto]|].
  { intros []. assert (existsb (overlaps r) (dvalues (ac_active c)) = false) by by apply no_overlap. congruence. }
  apply no_overlap in Ho as [Ho1 Ho2].
  destruct (dget (wr_worker_class r) (ac_concurrency c)) as [limit|] eqn:Hl;
    [|right; split; [intros [? ? ? (? & ? & ?)]; congruence|eauto]]. simpl.
  destruct (Z.ltb_spec (active_for_class (wr_worker_class r) (ac_active c)) limit) as [Hc|Hc]; simpl;
    [|right; split; [intros [? ? ? (? & ? & ?)]; simplify_eq; lia|eauto]].
  destruct ((re_cpu_millicores (ac_capacity c) <? _) || _) eqn:Hu; simpl; [right; split; [|eauto]|left; split; [|done]].
  - intros []. apply orb_true_iff in Hu as [?|?]; simpl in *; lia.
  - apply orb_false_iff in Hu as [? ?]. simpl in *. split; simpl; eauto; lia.
Qed.

Lemma admit_worker_inv r u c : is_ok (make_worker_request r) = true → admission_inv c → admission_inv (final (admit_worker r u c)).
Proof.
  intros Hr Hc. destruct (admit_worker_cases r u c) as [[Ha ->]|(_ & e & ->)]; [|done].
  destruct Ha as [_ Hw Hp (limit & Hl & Hn) Hcpu Hmem], Hc as [Hok Htok Hwf (Uc & Um & Ucl) [Iw Ip]].
  destruct (measures_nonneg _ Hok) as (Nc & Nm & Nk). set (l := mkWorkerLease _ r).
  split; simpl.
  - apply Forall_forall. intros x [->|Hx]%dvalues_dset; [done|]. by eapply Forall_forall in Hok.
  - by apply dall_dset.
  - by apply dict_wf_dset.
  - split_and!; simpl; [|..|intros k]; try (etrans; [by apply sum_dset|]; done).
    destruct (Ucl k) as (lk & Hk & Hle). exists lk. split; [done|]. etrans; [by apply (sum_dset _ _ l), Nk|]. simpl.
    case_bool_decide as E; [|fold (active_for_class k (ac_active c)); lia]. subst k. simplify_eq.
    fold (active_for_class (wr_worker_class r) (ac_active c)). lia.
  - split; by apply nodup_dset.
Qed.

Lemma release_inv t c : admission_inv c → admission_inv (final (release t c)).
Proof.
  intros Hc. unfold release, read, check, modify. unfold mbind, st_bind. simpl. destruct (dmem t (ac_active c)); [|done].
  destruct Hc as [Hok Htok Hwf (Uc & Um & Ucl) [Iw Ip]]. destruct (measures_nonneg _ Hok) as (Nc & Nm & Nk). split; simpl.
  - apply Forall_forall. intros x Hx%dvalues_ddel. by eapply Forall_forall in Hok.
  - by apply dall_ddel.
  - by apply dict_wf_ddel.
  - split_and!; simpl; [|..|intros k]; try (etrans; [by apply sum_ddel|]; done).
    destruct (Ucl k) as (lk & Hk & Hle). exists lk. split; [done|]. etrans; [|exact Hle]. by apply sum_ddel, Nk.
  - split; by apply nodup_ddel.
Qed.

(** A fresh token adds its lease at the end, and releasing it removes that lease. *)
Lemma sum_snoc f k l a : sum_of f (a ++ [(k, l)]) = sum_of f a + f (wl_request l).
Proof. unfold sum_of. induction a as [|[k' l'] a IH]; simpl; [lia|]. rewrite IH. lia. Qed.

Lemma used_dset l c :
  dget (wl_isolation_token l) (ac_active c) = None →
  used (set_active (dset (wl_isolation_token l) l (ac_active c)) c) =
  mkEnvelope (re_cpu_millicores (used c) + wr_cpu_millicores (wl_request l))
    (re_memory_mib (used c) + wr_memory_mib (wl_request l)).
Proof. intros H. unfold used. simpl. by rewrite dset_fresh, !sum_snoc by by apply dget_None. Qed.

Lemma release_dset l c :
  dget (wl_isolation_token l) (ac_active c) = None →
  release (wl_isolation_token l) (set_active (dset (wl_isolation_token l) l (ac_active c)) c) = (Ok (), c).
Proof.
  intros H. unfold release, read, check, modify, dmem. unfold mbind, st_bind. simpl. rewrite dget_dset_eq. simpl.
  rewrite ddel_dset, ddel_absent by done. by destruct c.
Qed.

(** A use of the controller. *)
Inductive admission_step : Controller → Controller → Prop :=
  | step_admit r u c : is_ok (make_worker_request r) = true → admission_step c (final (admit_worker r u c))
  | step_release t c : admission_step c (final (release t c))
  | step_mode m c : admission_step c (set_mode m c).

Lemma admission_step_inv c c' : admission_step c c' → admission_inv c → admission_inv c'.
Proof. intros []; [by apply admit_worker_inv|by apply release_inv|]. intros [? ? ? ? ?]. by split. Qed.

Lemma start_inv cap mode conc c : make_controller cap mode conc = Ok c → admission_inv c.
Proof.
  unfold make_controller. destruct (forallb (λ k, dmem k conc) all_classes && _) eqn:Hconc; [|by destruct (_ || _)].
  destruct (_ || _) eqn:Hcap; [done|]. intros [= <-]. apply orb_false_iff in Hcap as [? ?].
  apply andb_true_iff in Hconc as [Hmem Hpos]. rewrite forallb_forall in Hmem, Hpos. split; simpl; try done; [apply NoDup_nil_2| |].
  - split_and!; unfold sum_of; simpl; [lia|lia|]. intros k.
    assert (Hk : dmem k conc = true) by (apply Hmem; destruct k; simpl; tauto). unfold dmem in Hk.
    destruct (dget k conc) as [v|] eqn:Hv; [|done]. exists v. split; [done|].
    apply dget_value, list_elem_of_In, Hpos in Hv. unfold active_for_class, sum_of. simpl. lia.
  - split; apply NoDup_nil_2.
Qed.

Lemma admission_reachable cap mode conc c0 c :
  make_controller cap mode conc = Ok c0 → rtc admission_step c0 c → admission_inv c.
Proof.
  intros H0 Hr. apply start_inv in H0. revert H0.
  induction Hr as [|c1 c2 c3 Hs Hr IH]; [done|]. intros H1. by eapply IH, admission_step_inv.
Qed.

(** Whatever sequence of admissions, releases and mode changes a controller has served since it was built,
    the workers it holds never exceed its CPU and memory capacity or the concurrency limit of their class, and
    no two of them share a worktree or an artifact prefix; an admission that is refused changes nothing, one that
    the mode, the boundaries, the limits and the capacity all allow succeeds, and releasing the token it returned
    gives back exactly the resources it took. *)
Theorem admission_bounds cap mode conc c0 c :
  make_controller cap mode conc = Ok c0 → rtc admission_step c0 c →
  within c ∧ isolated c ∧
  ∀ r u, (¬ admissible r c ∧ final (admit_worker r u c) = c ∧ is_ok (outcome (admit_worker r u c)) = false) ∨
         (admissible r c ∧ ∃ l, outcome (admit_worker r u c) = Ok l ∧ wl_request l = r ∧
            (dget (wl_isolation_token l) (ac_active c) = None →
             used (final (admit_worker r u c)) =
               mkEnvelope (re_cpu_millicores (used c) + wr_cpu_millicores r) (re_memory_mib (used c) + wr_memory_mib r) ∧
             release (wl_isolation_token l) (final (admit_worker r u c)) = (Ok (), c))).
Proof.
  intros H0 Hr. destruct (admission_reachable _ _ _ _ _ H0 Hr) as [_ _ _ Hw Hi]. split_and!; [done..|]. intros r u.
  destruct (admit_worker_cases r u c) as [[Ha ->]|(Hn & e & ->)]; [right|by left]. split; [done|]. eexists. split; [done|].
  split; [done|]. intros Hf. by split; [apply used_dset|apply release_dset].
Qed.

(** ** What the runner guarantees *)

Section RunnerFacts.
Context {B : Type}.
Context (backend_execute : LocalTask → list string → nat → St B autonomy_exn string).
Context (backend_verify : LocalTask → string → list string → St B autonomy_exn bool).
Context (resolve : list string → string → list string).

(** The artifact of a result was produced at its revision and accepted by the verifier, from states the
    backend went through. *)
Lemma revise_spec task w n left b r b' :
  revise backend_execute backend_verify task w n left b = (Ok r, b') →
  (n ≤ lr_revisions r < n + left)%nat ∧ lr_verified r = true ∧ lr_task_id r = lt_task_id task ∧
  ∃ b1 b2, backend_execute task w (lr_revisions r) b1 = (Ok (lr_artifact r), b2) ∧
           backend_verify task (lr_artifact r) w b2 = (Ok true, b').
Proof.
  revert n b. induction left as [|left IH]; simpl; intros n b; [done|]. intros (a & b1 & He & H)%bind_run_inv.
  apply bind_run_inv in H as (ok & b2 & Hv & H). destruct ok.
  - injection H as <- <-. simpl. split_and!; [lia|lia|done|done|]. by exists b, b1.
  - apply IH in H as (? & ? & ? & ?). split_and!; [lia|lia|done..].
Qed.

(** A task the local runner completes names one of the five safe operations, ran in a directory that the
    runner's root contains and that names the job, and its artifact was accepted by the verifier after at most
    the configured number of revisions, itself at most five; a task that is refused for its operation or its
    directory never reaches the backend. *)
Theorem run_verified absolute root maximum u task b :
  make_runner absolute root maximum = Ok u →
  match run_task backend_execute backend_verify resolve u task b with
  | (Ok r, b') =>
      lt_operation task ∈ SAFE_LOCAL_OPERATIONS ∧ starts_with "/" (lt_relative_worktree task) = false ∧
      Z.of_nat (lr_revisions r) ≤ maximum ≤ 5 ∧ lr_verified r = true ∧ lr_task_id r = lt_task_id task ∧
      ∃ w below b1 b2,
        w = resolve root (lt_relative_worktree task) ∧ w = root ++ below ∧ lt_job_id task ∈ w ∧
        backend_execute task w (lr_revisions r) b1 = (Ok (lr_artifact r), b2) ∧
        backend_verify task (lr_artifact r) w b2 = (Ok true, b')
  | (Err e, b') =>
      e = LocalAutonomyDenied "operation is not a safe local capability" ∧ b' = b ∨
      e = LocalAutonomyDenied "worktree must remain contained in the job boundary" ∧ b' = b ∨
      revise backend_execute backend_verify task (resolve root (lt_relative_worktree task)) 0
        (S (Z.to_nat maximum)) b = (Err e, b')
  end.
Proof.
  unfold make_runner. destruct absolute; [|done]. simpl. destruct (_ || _) eqn:Hm; [done|]. intros [= <-].
  apply orb_false_iff in Hm as [? ?]. unfold run_task, check. unfold mbind, st_bind. cbn [ru_root ru_maximum_revisions].
  case_bool_decide as Hop; cbn [ensure]; [|by left].
  destruct (starts_with "/" (lt_relative_worktree task)) eqn:Hs; cbn [negb andb ensure]; [by right; left|].
  case_bool_decide as Hroot; cbn [andb ensure]; [|by right; left]. case_bool_decide as Hjob; cbn [ensure]; [|by right; left].
  destruct (revise _ _ _ _ _ _ b) as [[r|e] b'] eqn:Hr; [|by right; right].
  apply (revise_spec _ _ 0 (S (Z.to_nat maximum))) in Hr as (? & ? & ? & b1 & b2 & ? & ?). split_and!; [done|done|lia|lia|done|done|].
  exists (resolve root (lt_relative_worktree task)), (drop (length root) (resolve root (lt_relative_worktree task))), b1, b2.
  split_and!; [done| |done..]. etrans; [symmetry; apply (take_drop (length root))|]. by rewrite Hroot.
Qed.
End RunnerFacts.

(** ** On concrete inputs *)

Definition demo_request (id prefix : string) (w : WorkerClass) : WorkerRequest :=
  mkWorkerRequest id "job-1" w ("tree-" +:+ id) prefix 500 256 INTERACTIVE.
Definition demo_controller : Controller :=
  mkController (mkEnvelope 1200 4096) CONSTRAINED [(CLAUDE, 2); (CODEX, 1); (CHROMIUM, 1); (VERIFIER, 1)] [].

(** The second request is refused for its class, the third for the CPU it wants. *)
Example demo_refused :
  outcome (admit_worker (demo_request "c" "c" CODEX) "u3" (final (admit_worker (demo_request "a" "out" CODEX) "u1" demo_controller))) =
    Err (AdmissionDenied "worker class concurrency limit reached") ∧
  outcome (admit_worker (demo_request "c" "c" CLAUDE) "u3"
    (final (admit_worker (demo_request "b" "b" CHROMIUM) "u2" (final (admit_worker (demo_request "a" "out" CODEX) "u1" demo_controller))))) =
    Err (AdmissionDenied "worker resource capacity exhausted").
Proof. by vm_compute. Qed.

Lemma admission_bounds_witness :
  let c := final (admit_worker (demo_request "a" "out" CODEX) "u1" demo_controller) in
  within c ∧ isolated c ∧ dget "worker-u1" (ac_active c) ≠ None.
Proof.
  intros c. destruct (admission_bounds (mkEnvelope 1200 4096) CONSTRAINED
    [(CLAUDE, 2); (CODEX, 1); (CHROMIUM, 1); (VERIFIER, 1)] demo_controller c) as (? & ? & _).
  - reflexivity.
  - eapply rtc_once, (step_admit (demo_request "a" "out" CODEX) "u1"). by vm_compute.
  - split_and!; [done..|]. by vm_compute.
Defined.

(** Only equal artifact prefixes count as one boundary: a prefix inside another worker's prefix is admitted. *)
Example nested_prefix_admitted :
  let c := final (admit_worker (demo_request "a" "out" CODEX) "u1" demo_controller) in
  ∃ l, outcome (admit_worker (demo_request "b" "out/x" CLAUDE) "u2" c) = Ok l ∧ wr_artifact_prefix (wl_request l) = "out/x".
Proof. eexists. by vm_compute. Qed.

Definition plain_resolve (root : list string) (rel : string) : list string := root ++ split_char slash rel.

Definition demo_task : LocalTask := mkLocalTask "t1" "job-1" "code.generate" "job-1/tree" "write it".

Definition demo_backend (vs : list bool) : Scripted := mkScripted ["first"; "second"] vs [] 0 0.

Lemma run_verified_witness :
  let r := run_task scripted_execute scripted_verify plain_resolve (mkRunner ["/"; "work"] 2) demo_task
             (demo_backend [false; true]) in
  outcome r = Ok (mkLocalResult "t1" "second" 1 true) ∧ length (sb_paths (final r)) = 4%nat ∧
  lt_operation demo_task ∈ SAFE_LOCAL_OPERATIONS.
Proof.
  intros r. pose proof (run_verified scripted_execute scripted_verify plain_resolve true ["/"; "work"] 2
    (mkRunner ["/"; "work"] 2) demo_task (demo_backend [false; true]) eq_refl) as H.
  split; [by vm_compute|]. split; [by vm_compute|]. fold r in H.
  destruct r as [[x|e] b'] eqn:E; [by destruct H|]. vm_compute in E. congruence.
Defined.

(** The job boundary is looked for in the whole path: a job named like a directory of the root passes it with
    the root itself, or with any other job's directory. *)
Example job_boundary_matches_the_root :
  outcome (run_task scripted_execute scripted_verify plain_resolve (mkRunner ["/"; "work"] 2)
    (mkLocalTask "t2" "work" "code.generate" "job-1/tree" "write it") (demo_backend [true])) =
  Ok (mkLocalResult "t2" "first" 0 true).
Proof. by vm_compute. Qed.
