(* ===== verification/EmergencyLatch.v ===== *)
(** The emergency freeze latch (src/olympus/authority/latch.py): a signed file whose
    presence freezes the system.

    The state is the latch's directory: what the latch path names and how many
    temporary files lie beside it. The signer and the verifier are parameters. A file
    is its text; a path that cannot be read, or whose bytes are not text, is
    [Unreadable], since [OSError] and [UnicodeDecodeError] meet one handler. *)

From S2P Require Import Prelude PyTime Sha256 Json JsonParse.
From Stdlib Require Import Ascii.

Open Scope Z_scope.

Inductive latch_exn := InvalidEmergencyLatch (msg : string) | LatchValueError (msg : string) | LatchOSError (step : string).

Inductive FreezeReason := OPERATOR_REQUEST | ANOMALY | AUTHORITY_INCONSISTENCY.
Definition reason_value (r : FreezeReason) : string :=
  match r with
  | OPERATOR_REQUEST => "operator-request" | ANOMALY => "anomaly" | AUTHORITY_INCONSISTENCY => "authority-inconsistency"
  end.

Record CanonicalRecoveryProof := mkRecoveryProof {
  rp_recovery_id : string;
  rp_authority_epoch : Z;
  rp_freeze_epoch : Z;
  rp_repository_proof : string }.

(** [CanonicalRecoveryProof.__post_init__] *)
Definition make_recovery_proof (p : CanonicalRecoveryProof) : result latch_exn CanonicalRecoveryProof :=
  ensure (negb (is_blank (rp_recovery_id p))) (LatchValueError "recovery_id must not be empty");;
  ensure (negb ((rp_authority_epoch p <? 1) || (rp_freeze_epoch p <? 1)))
    (LatchValueError "recovery epochs must be strictly positive");;
  ensure (negb (is_empty (rp_repository_proof p))) (LatchValueError "repository_proof must not be empty");;
  Ok p.

(** ** [bytes.fromhex]: pairs of hexadecimal digits, with ASCII blanks between pairs *)

Definition hex_value (c : ascii) : option Z :=
  let n := byte_of c in
  if (48 <=? n) && (n <=? 57) then Some (n - 48)
  else if (97 <=? n) && (n <=? 102) then Some (n - 87)
  else if (65 <=? n) && (n <=? 70) then Some (n - 55) else None.

Definition ascii_blank (c : ascii) : bool := let n := byte_of c in ((9 <=? n) && (n <=? 13)) || (n =? 32).

Fixpoint fromhex (s : string) : option string :=
  match s with
  | EmptyString => Some EmptyString
  | String c s' =>
      if ascii_blank c then fromhex s'
      else match s' with
           | String d s'' =>
               h ← hex_value c; l ← hex_value d; r ← fromhex s'';
               Some (String (ascii_of_nat (Z.to_nat (16 * h + l))) r)
           | EmptyString => None
           end
  end.

Lemma hex_value_digit n : 0 ≤ n < 16 → hex_value (hex_digit n) = Some n ∧ ascii_blank (hex_digit n) = false.
Proof.
  intros H. assert (E : n = 0 ∨ n = 1 ∨ n = 2 ∨ n = 3 ∨ n = 4 ∨ n = 5 ∨ n = 6 ∨ n = 7 ∨ n = 8 ∨ n = 9 ∨ n = 10 ∨ n = 11 ∨
    n = 12 ∨ n = 13 ∨ n = 14 ∨ n = 15) by lia. repeat destruct E as [->|E]; subst; by vm_compute.
Qed.

Lemma byte_of_range c : 0 ≤ byte_of c < 256.
Proof. unfold byte_of, ord. pose proof (nat_ascii_bounded c). lia. Qed.

Lemma fromhex_hex s : fromhex (hex s) = Some s.
Proof.
  induction s as [|c s IH]; [done|]. pose proof (byte_of_range c) as Hc. cbn [hex fromhex].
  assert (Hh : 0 ≤ byte_of c / 16 < 16). { split; [apply Z.div_pos; lia|apply Z.div_lt_upper_bound; lia]. }
  assert (Hl : 0 ≤ byte_of c mod 16 < 16) by (apply Z.mod_pos_bound; lia).
  destruct (hex_value_digit _ Hh) as [-> ->], (hex_value_digit _ Hl) as [-> _]. cbn. rewrite IH. cbn.
  rewrite <- Z.div_mod by done. unfold byte_of, ord. by rewrite Nat2Z.id, ascii_nat_embedding.
Qed.

(** ** The latch *)

Inductive path_state := Absent | Text (content : string) | Unreadable.

#[export] Instance path_state_eq : EqDecision path_state.
Proof. solve_decision. Defined.

Record LatchDir := mkLatchDir { ld_path : path_state; ld_temporaries : nat }.

Definition member_of (k : string) (j : json) : option json :=
  match j with JObj o => snd <$> find (λ kv, bool_decide (kv.1 = k)) o | _ => None end.

Section Latch.
Context (sign : string → string) (verify : string → string → bool).
Context (verify_recovery : CanonicalRecoveryProof → bool).

(** The [try] block of [_read_envelope]: the payload's canonical bytes and the signature. *)
Definition decode_envelope (t : string) : option (json * string * string) :=
  envelope ← loads t;
  payload ← member_of "payload" envelope;
  signature_hex ← member_of "signature" envelope;
  match payload, signature_hex with
  | JObj _, JStr h => signature ← fromhex h; Some (payload, dumps payload, signature)
  | _, _ => None
  end.

(** [_read_envelope], returning the payload *)
Definition read_envelope (p : path_state) : result latch_exn json :=
  let decoded := match p with Text t => decode_envelope t | _ => None end in
  d ← require_some decoded (InvalidEmergencyLatch "emergency latch cannot be decoded");
  let '(payload, payload_bytes, signature) := d in
  ensure (verify payload_bytes signature) (InvalidEmergencyLatch "emergency latch signature is invalid");;
  Ok payload.

(** [is_set] *)
Definition is_set (d : LatchDir) : result latch_exn bool :=
  match ld_path d with
  | Absent => Ok false
  | p => payload ← read_envelope p;
         ensure (bool_decide (member_of "state" payload = Some (JStr "frozen")))
           (InvalidEmergencyLatch "emergency latch payload is invalid");;
         Ok true
  end.

(** ** Writing

    Each step of [_write_envelope] may fail, and the [finally] block removes the
    temporary file whatever happened. [fault] is the step that fails, if one does. *)
Inductive write_step := MkDir | MkTemp | WriteTemp | Replace | SyncDir.
#[export] Instance write_step_eq : EqDecision write_step.
Proof. solve_decision. Defined.

Definition step_name (s : write_step) : string :=
  match s with MkDir => "mkdir" | MkTemp => "mkstemp" | WriteTemp => "write" | Replace => "replace" | SyncDir => "fsync" end.

(** A step that succeeds changes the directory; one that fails raises [OSError]. *)
Definition io (fault : option write_step) (s : write_step) (f : LatchDir → LatchDir) : St LatchDir latch_exn () := λ d,
  if bool_decide (fault = Some s) then (Err (LatchOSError (step_name s)), d) else (Ok (), f d).

Definition add_temp (d : LatchDir) : LatchDir := mkLatchDir (ld_path d) (S (ld_temporaries d)).
(** [temporary_path.unlink(missing_ok=True)] *)
Definition drop_temp (n : nat) (d : LatchDir) : LatchDir := mkLatchDir (ld_path d) (Nat.min n (ld_temporaries d)).
Definition replace_latch (t : string) (d : LatchDir) : LatchDir := mkLatchDir (Text t) (pred (ld_temporaries d)).

Definition envelope_text (payload : json) : string :=
  dumps (JObj [("payload", payload); ("signature", JStr (hex (sign (dumps payload))))]).

(** The [try] block of [_write_envelope], then its [finally]: [before] temporaries were there. *)
Definition replace_durably (t : string) (before : nat) (fault : option write_step) : St LatchDir latch_exn () := λ d,
  let '(r, d') := (io fault WriteTemp id;; io fault Replace (replace_latch t);; io fault SyncDir id) d in
  (r, drop_temp before d').

(** [_write_envelope] *)
Definition write_envelope (payload : json) (fault : option write_step) : St LatchDir latch_exn () :=
  io fault MkDir id;;
  before ← gets ld_temporaries;
  io fault MkTemp add_temp;;
  replace_durably (envelope_text payload) before fault.

Definition freeze_payload (request_id : string) (reason : FreezeReason) (now : datetime) : json :=
  JObj [("version", JInt 1); ("state", JStr "frozen"); ("request_id", JStr request_id);
        ("reason", JStr (reason_value reason)); ("set_at", JStr (isoformat now))].

(** [set] *)
Definition set_latch (request_id : string) (reason : FreezeReason) (now : datetime) (fault : option write_step) :
    St LatchDir latch_exn () :=
  d ← read;
  if bool_decide (ld_path d = Absent) then
    check (negb (is_blank request_id)) (LatchValueError "freeze request_id must not be empty");;
    write_envelope (freeze_payload request_id reason now) fault
  else
    frozen ← liftR (is_set d);
    check frozen (InvalidEmergencyLatch "emergency latch is not frozen").

(** [reconcile_and_clear]; [unlink_fails] and [sync_fails] say whether the unlink and the directory's fsync after it fail *)
Definition reconcile_and_clear (proof : CanonicalRecoveryProof) (unlink_fails sync_fails : bool) : St LatchDir latch_exn () :=
  check (verify_recovery proof) (InvalidEmergencyLatch "repository recovery proof is invalid");;
  d ← read;
  frozen ← liftR (is_set d);
  if (frozen : bool) then
    check (negb unlink_fails) (LatchOSError "unlink");;
    modify (λ d, mkLatchDir Absent (ld_temporaries d));;
    check (negb sync_fails) (LatchOSError "fsync")
  else mret ().
End Latch.

(** ** What the latch guarantees *)

Section LatchFacts.
Context (sign : string → string) (verify : string → string → bool).
Context (verify_recovery : CanonicalRecoveryProof → bool).

(** What an attempt to lift or renew a freeze without an accepted proof can be. *)
Inductive unrecovered_step : LatchDir → LatchDir → Prop :=
  | again id reason now fault d : unrecovered_step d (final (set_latch sign verify id reason now fault d))
  | rejected proof unlinked synced d : verify_recovery proof = false →
      unrecovered_step d (final (reconcile_and_clear verify verify_recovery proof unlinked synced d)).

Lemma set_present id reason now fault d : ld_path d ≠ Absent → set_latch sign verify id reason now fault d = (fmap (λ _, ()) (is_set verify d), d).
Proof.
  intros H. unfold set_latch, read, liftR, check. unfold mbind, st_bind. cbn beta iota.
  rewrite bool_decide_eq_false_2 by done. unfold is_set.
  destruct (ld_path d) as [|t|] eqn:Hp; [done|..]; destruct (read_envelope verify _); try done; cbn;
    by case_bool_decide.
Qed.

Lemma unrecovered_present d d' : ld_path d ≠ Absent → unrecovered_step d d' → d' = d.
Proof.
  intros Hp Hs. destruct Hs as [id reason now fault d|proof unlinked synced d Hr]; [by rewrite set_present|].
  unfold reconcile_and_clear, check. unfold mbind, st_bind. by rewrite Hr.
Qed.

Lemma unrecovered_rtc d d' : ld_path d ≠ Absent → rtc unrecovered_step d d' → d' = d.
Proof. intros Hp Hr. induction Hr as [|? ? ? Hs _ IH]; [done|]. apply unrecovered_present in Hs as ->; [|done]. by apply IH. Qed.

Lemma decode_bytes t payload bytes signature :
  decode_envelope t = Some (payload, bytes, signature) → bytes = dumps payload.
Proof.
  unfold decode_envelope. intros (j & _ & H)%bind_Some. apply bind_Some in H as (p & _ & H).
  apply bind_Some in H as (h & _ & H). destruct p; try done. destruct h; try done.
  apply bind_Some in H as (x & _ & H). by simplify_eq.
Qed.

Lemma is_set_true d :
  is_set verify d = Ok true →
  ∃ t payload signature, ld_path d = Text t ∧ decode_envelope t = Some (payload, dumps payload, signature) ∧
    verify (dumps payload) signature = true ∧ member_of "state" payload = Some (JStr "frozen").
Proof.
  unfold is_set, read_envelope. destruct (ld_path d) as [|t|]; [done| |done].
  destruct (decode_envelope t) as [[[payload bytes] signature]|] eqn:Hd; [|done]. cbn.
  destruct (verify bytes signature) eqn:Hv; [|done]. cbn. case_bool_decide as Hs; [|done]. intros _.
  pose proof (decode_bytes _ _ _ _ Hd) as ->. eauto 10.
Qed.

Section Signed.
Context (Hsign : ∀ m, verify m (sign m) = true).

Lemma decode_written p o :
  json_wf p → jnorm p = JObj o → dumps (JObj o) = dumps p →
  decode_envelope (envelope_text sign p) = Some (JObj o, dumps p, sign (dumps p)).
Proof.
  intros Hwf Hn Hd. unfold decode_envelope, envelope_text.
  rewrite loads_dumps; [|cbn; repeat split; [repeat constructor; set_solver|done]].
  assert (E : jnorm (JObj [("payload", p); ("signature", JStr (hex (sign (dumps p))))]) =
              JObj [("payload", jnorm p); ("signature", JStr (hex (sign (dumps p))))]) by reflexivity.
  rewrite E, Hn. simpl. repeat (rewrite bool_decide_eq_true_2 by done || rewrite bool_decide_eq_false_2 by done; simpl).
  by rewrite fromhex_hex, <- Hd.
Qed.

(** The file the latch writes is one it reads as frozen. *)
Lemma written_is_set id reason now n :
  is_set verify (mkLatchDir (Text (envelope_text sign (freeze_payload id reason now))) n) = Ok true.
Proof.
  unfold is_set, read_envelope. cbn [ld_path].
  rewrite (decode_written (freeze_payload id reason now)
    [("reason", JStr (reason_value reason)); ("request_id", JStr id); ("set_at", JStr (isoformat now));
     ("state", JStr "frozen"); ("version", JInt 1)]); [|cbn; repeat split; repeat constructor; set_solver|reflexivity|].
  - cbn. by rewrite Hsign.
  - rewrite !dumps_jnorm. reflexivity.
Qed.

(** Setting the latch on a clear system, whichever of its file system steps fails, either raises and leaves
    the system clear, or leaves a latch that reads as set; a call that returns has set it. From then on the latch
    stays set through any number of further [set] calls and recovery attempts whose proof is rejected. The
    temporary files beside it are as before. *)
Theorem latch_set_holds id reason now fault d :
  ld_path d = Absent →
  let r := set_latch sign verify id reason now fault d in
  ld_temporaries (final r) = ld_temporaries d ∧
  ((ld_path (final r) = Absent ∧ is_set verify (final r) = Ok false ∧ is_ok (outcome r) = false) ∨
   (∀ d', rtc unrecovered_step (final r) d' → is_set verify d' = Ok true)) ∧
  (is_ok (outcome r) = true → is_set verify (final r) = Ok true).
Proof.
  intros Hp r. destruct d as [p n]. simpl in Hp. subst p.
  assert (Hset : ∀ m d', rtc unrecovered_step (mkLatchDir (Text (envelope_text sign (freeze_payload id reason now))) m) d' →
    is_set verify d' = Ok true).
  { intros m d' ->%unrecovered_rtc; [apply written_is_set|done]. }
  subst r. unfold set_latch, check. unfold mbind at 1, st_bind at 1. cbn [read ld_path]. rewrite bool_decide_eq_true_2 by done.
  destruct (is_blank id); [split_and!; [done|by left|done]|].
  destruct fault as [[]|]; simpl; (split_and!; [simpl; lia| |try done; intros _; apply written_is_set]); try (by left);
    right; apply Hset.
Qed.
End Signed.

(** C25. An emergency latch fails closed: whatever its file holds, reading a latch that exists never answers "not
    set", setting it again never rewrites it, and it is removed only by a recovery whose proof the verifier
    accepted while the file held a frozen payload under a valid signature. *)
Theorem latch_fail_closed d :
  ld_path d ≠ Absent →
  is_set verify d ≠ Ok false ∧
  (∀ id reason now fault, final (set_latch sign verify id reason now fault d) = d) ∧
  (∀ proof unlink_fails sync_fails, ld_path (final (reconcile_and_clear verify verify_recovery proof unlink_fails sync_fails d)) = Absent →
     verify_recovery proof = true ∧
     ∃ t payload signature, ld_path d = Text t ∧ decode_envelope t = Some (payload, dumps payload, signature) ∧
       verify (dumps payload) signature = true ∧ member_of "state" payload = Some (JStr "frozen")).
Proof.
  intros Hp. split_and!.
  - unfold is_set. destruct (ld_path d); [done|..]; destruct (read_envelope verify _); try done; cbn; by case_bool_decide.
  - intros. by rewrite set_present.
  - intros proof unlink_fails sync_fails. unfold reconcile_and_clear, check, read, liftR. unfold mbind, st_bind.
    destruct (verify_recovery proof) eqn:Hv; [|done]. cbn.
    destruct (is_set verify d) as [[]|] eqn:Hs; [|done|done]. intros _. split; [done|]. by apply is_set_true.
Qed.
End LatchFacts.

(** ** On concrete inputs *)

(** A signer that appends a key to what it signs. *)
Definition demo_sign (m : string) : string := m +:+ "/key".
Definition demo_verify (m s : string) : bool := bool_decide (s = demo_sign m).
Definition demo_recovery (p : CanonicalRecoveryProof) : bool := bool_decide (rp_repository_proof p = "proof").

Definition demo_set (fault : option write_step) : result latch_exn () * LatchDir :=
  set_latch demo_sign demo_verify "req-1" ANOMALY 0 fault (mkLatchDir Absent 0).

Lemma latch_set_holds_witness :
  is_set demo_verify (final (demo_set None)) = Ok true ∧ is_set demo_verify (final (demo_set (Some SyncDir))) = Ok true ∧
  ld_path (final (demo_set (Some Replace))) = Absent.
Proof.
  assert (Hs : ∀ m, demo_verify m (demo_sign m) = true) by (intros m; by apply bool_decide_eq_true_2).
  split_and!.
  - destruct (latch_set_holds demo_sign demo_verify demo_recovery Hs "req-1" ANOMALY 0 None (mkLatchDir Absent 0) eq_refl)
      as (_ & _ & H). apply H. reflexivity.
  - destruct (latch_set_holds demo_sign demo_verify demo_recovery Hs "req-1" ANOMALY 0 (Some SyncDir) (mkLatchDir Absent 0) eq_refl)
      as (_ & [(H & _)|H] & _); [by vm_compute in H|]. apply H. apply rtc_refl.
  - reflexivity.
Defined.

Lemma latch_fail_closed_witness : is_set demo_verify (mkLatchDir (Text "{}") 0) ≠ Ok false.
Proof. apply (latch_fail_closed demo_sign demo_verify demo_recovery (mkLatchDir (Text "{}") 0)). discriminate. Defined.

(** A recovery with an accepted proof clears the latch. *)
Example latch_recovers :
  reconcile_and_clear demo_verify demo_recovery (mkRecoveryProof "r" 2 1 "proof") false false (final (demo_set None)) =
  (Ok (), mkLatchDir Absent 0).
Proof. by vm_compute. Qed.
