(* ===== verification/ArtifactPlane.v ===== *)
(** Data ownership and the artifact plane (src/olympus/persistence/ownership.py). *)

From S2P Require Import Prelude PyDict Sha256.

Open Scope Z_scope.

Inductive ownership_exn := DataOwnershipError (msg : string) | OwnershipValueError (msg : string) | OwnershipKeyError.

Inductive DatumKind := AUTHORITY | WORKFLOW_STATE | ARTIFACT | AUDIT | SENSITIVE_CONFIG.
Inductive CanonicalOwner := POSTGRESQL | TEMPORAL | MINIO | SECRETS_BROKER | REDIS | PGVECTOR.
#[export] Instance DatumKind_eq : EqDecision DatumKind.
Proof. solve_decision. Defined.
#[export] Instance CanonicalOwner_eq : EqDecision CanonicalOwner.
Proof. solve_decision. Defined.

(** ** The ownership registry *)

Record DataOwnershipRegistry := mkOwnership {
  or_owners : dict DatumKind CanonicalOwner;
  or_projections : list string }.

Definition all_kinds : list DatumKind := [AUTHORITY; WORKFLOW_STATE; ARTIFACT; AUDIT; SENSITIVE_CONFIG].
Definition derived_only : list CanonicalOwner := [REDIS; PGVECTOR].

(** [DataOwnershipRegistry.__init__] *)
Definition make_ownership (owners : dict DatumKind CanonicalOwner) (projections : list string) :
    result ownership_exn DataOwnershipRegistry :=
  ensure (forallb (λ k, dmem k owners) all_kinds)
    (DataOwnershipError "every datum kind must have exactly one canonical owner");;
  ensure (negb (existsb (λ o, bool_decide (o ∈ derived_only)) (dvalues owners)))
    (DataOwnershipError "cache and index stores are derived, never canonical");;
  ensure (negb (existsb is_blank projections)) (DataOwnershipError "projection identities must not be empty");;
  Ok (mkOwnership owners projections).

(** [production_defaults] *)
Definition production_defaults : result ownership_exn DataOwnershipRegistry :=
  make_ownership
    [(AUTHORITY, POSTGRESQL); (WORKFLOW_STATE, TEMPORAL); (ARTIFACT, MINIO); (AUDIT, POSTGRESQL);
     (SENSITIVE_CONFIG, SECRETS_BROKER)] ["redis-job-cache"; "pgvector-context-index"].

(** [owner_of] *)
Definition owner_of (r : DataOwnershipRegistry) (datum : DatumKind) : result ownership_exn CanonicalOwner :=
  require_some (dget datum (or_owners r)) OwnershipKeyError.

(** [is_projection_rebuildable] *)
Definition is_projection_rebuildable (r : DataOwnershipRegistry) (projection_id : string) : bool :=
  bool_decide (projection_id ∈ or_projections r).

(** ** The artifact plane *)

Record ArtifactManifest := mkArtifactManifest {
  am_job_id : string;
  am_logical_name : string;
  am_digest : string;
  am_size_bytes : nat;
  am_media_type : string }.

Record ArtifactPlane := mkPlane { ap_objects : dict string string; ap_manifests : list ArtifactManifest }.

Definition empty_plane : ArtifactPlane := mkPlane [] [].

(** [dict.setdefault] *)
Definition setdefault (k v : string) (d : dict string string) : dict string string :=
  if dmem k d then d else dset k v d.

(** [object_count] *)
Definition object_count (p : ArtifactPlane) : nat := length (ap_objects p).

(** [put] *)
Definition put (job_id logical_name content media_type : string) : St ArtifactPlane ownership_exn ArtifactManifest :=
  check (negb (is_blank job_id || is_blank logical_name || is_blank media_type))
    (OwnershipValueError "artifact identity and media type are required");;
  let digest := sha256_hex content in
  let manifest := mkArtifactManifest job_id logical_name digest (String.length content) media_type in
  modify (λ p, mkPlane (setdefault digest content (ap_objects p)) (ap_manifests p));;
  modify (λ p, mkPlane (ap_objects p) (ap_manifests p ++ [manifest]));;
  mret manifest.

(** [get] *)
Definition get (p : ArtifactPlane) (digest : string) : result ownership_exn string :=
  content ← require_some (dget digest (ap_objects p)) (DataOwnershipError "artifact does not exist");
  ensure (bool_decide (sha256_hex content = digest)) (DataOwnershipError "artifact digest verification failed");;
  Ok content.

(** [backup] *)
Definition backup (p : ArtifactPlane) : dict string string := ap_objects p.

(** [restore] *)
Fixpoint restore_from (plane : ArtifactPlane) (b : dict string string) : result ownership_exn ArtifactPlane :=
  match b with
  | [] => Ok plane
  | (digest, content) :: b' =>
      ensure (bool_decide (sha256_hex content = digest))
        (DataOwnershipError "backup object digest verification failed");;
      restore_from (mkPlane (dset digest content (ap_objects plane)) (ap_manifests plane)) b'
  end.
Definition restore (b : dict string string) : result ownership_exn ArtifactPlane := restore_from empty_plane b.

(** ** What ownership guarantees *)

(** A registry that was accepted names one canonical owner for every kind of datum, never a cache or an index. *)
Lemma ownership_total owners projections r k :
  make_ownership owners projections = Ok r → ∃ o, owner_of r k = Ok o ∧ o ∉ derived_only.
Proof.
  unfold make_ownership. destruct (forallb (λ k, dmem k owners) all_kinds) eqn:Hk; [|done]. cbn [ensure mbind result_bind].
  destruct (existsb (λ o, bool_decide (o ∈ derived_only)) (dvalues owners)) eqn:Hd; [done|]. cbn.
  destruct (existsb is_blank projections); [done|]. intros [= <-]. unfold owner_of. cbn.
  rewrite forallb_forall in Hk. assert (Hm : dmem k owners = true) by (apply Hk; destruct k; simpl; tauto).
  unfold dmem in Hm. destruct (dget k owners) as [o|] eqn:Ho; [|done]. exists o. split; [done|]. intros Hin.
  assert (existsb (λ o, bool_decide (o ∈ derived_only)) (dvalues owners) = true); [|congruence].
  apply existsb_exists. exists o. split; [by eapply list_elem_of_In, dget_value|by apply bool_decide_eq_true_2].
Qed.

(** ** What the plane guarantees *)

(** Every object is stored under its own digest, and every manifest's object is there. *)
Record plane_inv (p : ArtifactPlane) : Prop := {
  pi_wf : dict_wf (ap_objects p);
  pi_digest : dall (λ k v, sha256_hex v = k) (ap_objects p);
  pi_manifests : Forall (λ m, ∃ v, dget (am_digest m) (ap_objects p) = Some v ∧
                     (am_size_bytes m = String.length v ∨ ∃ w, sha_collides [v; w])) (ap_manifests p) }.

Inductive plane_step : ArtifactPlane → ArtifactPlane → Prop :=
  | step_put j n c m p : plane_step p (final (put j n c m p))
  | step_restore p p' : restore (backup p) = Ok p' → plane_step p p'.

Lemma put_run j n c m p :
  (is_blank j || is_blank n || is_blank m = true ∧ final (put j n c m p) = p ∧ is_ok (outcome (put j n c m p)) = false) ∨
  put j n c m p = (Ok (mkArtifactManifest j n (sha256_hex c) (String.length c) m),
    mkPlane (setdefault (sha256_hex c) c (ap_objects p))
            (ap_manifests p ++ [mkArtifactManifest j n (sha256_hex c) (String.length c) m])).
Proof.
  unfold put, check, modify. unfold mbind, st_bind. destruct (is_blank j || is_blank n || is_blank m); [by left|by right].
Qed.

Lemma dget_setdefault k v d k' :
  dget k' (setdefault k v d) = if decide (k = k') then Some (default v (dget k d)) else dget k' d.
Proof.
  unfold setdefault, dmem. destruct (dget k d) eqn:Hk; [by case_decide; subst|]. rewrite dget_dset. by case_decide.
Qed.

Lemma put_keeps j n c m p : plane_inv p → plane_inv (final (put j n c m p)).
Proof.
  intros Hp. destruct (put_run j n c m p) as [(_ & -> & _)| ->]; [done|]. destruct Hp as [Hwf Hd Hm]. cbn. split; cbn.
  - unfold setdefault. destruct (dmem _ _); [done|]. by apply dict_wf_dset.
  - intros k v. rewrite dget_setdefault. case_decide as Hk; [|apply Hd]. intros [= <-].
    destruct (dget (sha256_hex c) (ap_objects p)) as [v|] eqn:Hv; cbn; [|done]. rewrite <- Hk. by apply Hd.
  - apply Forall_app. split.
    + eapply Forall_impl; [exact Hm|]. intros x (v & Hv & Hs). exists v. split; [|done].
      rewrite dget_setdefault. case_decide as Hk; [|done]. by rewrite Hk, Hv.
    + apply Forall_singleton. cbn. exists (default c (dget (sha256_hex c) (ap_objects p))).
      rewrite dget_setdefault, decide_True by done. split; [done|].
      destruct (dget (sha256_hex c) (ap_objects p)) as [v|] eqn:Hv; cbn; [|by left].
      apply Hd, sha256_hex_inj in Hv as [->|H]; [by left|right; eauto].
Qed.

Lemma restore_from_spec b objs ms :
  NoDup (dkeys (objs ++ b)) →
  match restore_from (mkPlane objs ms) b with
  | Ok p => p = mkPlane (objs ++ b) ms ∧ Forall (λ kv, sha256_hex kv.2 = kv.1) b
  | Err e => e = DataOwnershipError "backup object digest verification failed" ∧
             Exists (λ kv, sha256_hex kv.2 ≠ kv.1) b
  end.
Proof.
  revert objs. induction b as [|[k v] b IH]; intros objs Hn; cbn [restore_from].
  { split; [by rewrite app_nil_r|constructor]. }
  case_bool_decide as Hv; cbn [ensure]; [|split; [done|by constructor]].
  unfold mbind, result_bind. cbn [ap_objects ap_manifests].
  assert (Hk : k ∉ dkeys objs).
  { intros Hin. unfold dkeys in Hn, Hin. rewrite fmap_app in Hn. apply NoDup_app in Hn as (_ & Hn & _).
    apply (Hn k); [done|]. simpl. set_solver. }
  assert (E := dset_fresh k v objs Hk).
  specialize (IH (dset k v objs)). rewrite E in IH |- *. rewrite <- (assoc_L (++)) in IH. specialize (IH Hn).
  destruct (restore_from _ b) as [p|e]; destruct IH as [-> H]; (split; [done|]); [by constructor|by apply Exists_cons_tl].
Qed.

Lemma restore_backup p : plane_inv p → restore (backup p) = Ok (mkPlane (ap_objects p) []).
Proof.
  intros [Hwf Hd _]. pose proof (restore_from_spec (backup p) [] [] Hwf) as H. unfold restore, empty_plane.
  destruct (restore_from _ _) as [p'|e]; destruct H as [-> H]; [done|]. exfalso.
  apply Exists_exists in H as ([k v] & Hin & Hne). apply Hne. simpl. apply Hd. by apply dget_wf_elem.
Qed.

Lemma plane_step_inv p p' : plane_step p p' → plane_inv p → plane_inv p'.
Proof.
  intros Hs Hp. destruct Hs as [j n c m p|p p' Hr]; [by apply put_keeps|]. rewrite restore_backup in Hr by done. injection Hr as <-.
  destruct Hp. by split.
Qed.

Definition plane_reachable (p : ArtifactPlane) : Prop := rtc plane_step empty_plane p.

Lemma plane_reachable_inv p : plane_reachable p → plane_inv p.
Proof.
  intros Hr. assert (H0 : plane_inv empty_plane) by by repeat constructor. revert H0.
  induction Hr as [|? ? ? Hs _ IH]; [done|]. intros H. by eapply IH, plane_step_inv.
Qed.

(** Reading by digest answers with the stored object, whose digest is the one asked for. *)
Lemma get_stored p k v : plane_inv p → get p k = Ok v ↔ dget k (ap_objects p) = Some v.
Proof.
  intros [_ Hd _]. unfold get. destruct (dget k (ap_objects p)) as [v'|] eqn:Hv; cbn; [|by split].
  rewrite bool_decide_eq_true_2 by by apply Hd. cbn. split; congruence.
Qed.

(** Content put in the artifact plane is read back byte for byte under the digest its manifest names, unless
    SHA-256 collides on it; no later [put] changes what a digest answers, storing the same content twice keeps one
    object, and a plane restored from a backup answers every digest as the original did. *)
Theorem artifact_roundtrip p j n c m man p' :
  plane_reachable p → put j n c m p = (Ok man, p') →
  (get p' (am_digest man) = Ok c ∨ ∃ v, sha_collides [v; c]) ∧
  (∀ k v, get p k = Ok v → get p' k = Ok v) ∧
  (∀ v, get p (am_digest man) = Ok v → object_count p' = object_count p) ∧
  ∃ q, restore (backup p') = Ok q ∧ ∀ k, get q k = get p' k.
Proof.
  intros Hr%plane_reachable_inv Hput. pose proof (put_keeps j n c m p Hr) as Hi.
  destruct (put_run j n c m p) as [(_ & _ & H)|H]; rewrite Hput in *; [done|]. injection H as -> ->. cbn in Hi |- *. split_and!.
  - destruct (dget (sha256_hex c) (ap_objects p)) as [v|] eqn:Hv.
    + destruct (sha256_hex_inj v c) as [->|H]; [by apply (pi_digest _ Hr)| |eauto]. left.
      apply get_stored; [done|]. cbn. by rewrite dget_setdefault, decide_True, Hv.
    + left. apply get_stored; [done|]. cbn. by rewrite dget_setdefault, decide_True, Hv.
  - intros k v Hk%get_stored; [|done]. apply get_stored; [done|]. cbn. rewrite dget_setdefault. case_decide; subst; by rewrite ?Hk.
  - intros v Hv%get_stored; [|done]. unfold object_count, setdefault, dmem. cbn. by rewrite Hv.
  - exists (mkPlane (setdefault (sha256_hex c) c (ap_objects p)) []). split; [exact (restore_backup _ Hi)|done].
Qed.

(** Restoring a backup is all or nothing: it succeeds exactly when every object hashes to the digest it is filed
    under, with the backup's objects and nothing else; one altered object makes it raise. *)
Theorem restore_exact b :
  dict_wf b →
  (dall (λ k v, sha256_hex v = k) b ∧ restore b = Ok (mkPlane b [])) ∨
  (∃ k v, dget k b = Some v ∧ sha256_hex v ≠ k ∧
     restore b = Err (DataOwnershipError "backup object digest verification failed")).
Proof.
  intros Hwf. pose proof (restore_from_spec b [] [] Hwf) as H. unfold restore, empty_plane.
  destruct (restore_from _ _) as [p|e]; destruct H as [-> H]; [left|right].
  - split; [|done]. intros k v Hk%dget_Some_elem. by apply (proj1 (Forall_forall _ _) H (k, v)).
  - apply Exists_exists in H as ([k v] & Hin & Hne). exists k, v. split_and!; [by apply dget_wf_elem|done|done].
Qed.

(** ** On concrete inputs *)

Definition demo_plane : ArtifactPlane := final (put "job-1" "report" "abc" "text/plain" empty_plane).

Lemma artifact_roundtrip_witness :
  let r := put "job-2" "copy" "abc" "text/plain" demo_plane in
  is_ok (outcome r) = true ∧ object_count (final r) = 1%nat ∧ ∃ q, restore (backup (final r)) = Ok q.
Proof.
  intros r. assert (Hd : plane_reachable demo_plane) by (apply rtc_once, step_put).
  assert (E : r = (Ok (mkArtifactManifest "job-2" "copy" (sha256_hex "abc") 3 "text/plain"), final r)) by reflexivity.
  destruct (artifact_roundtrip demo_plane "job-2" "copy" "abc" "text/plain" _ _ Hd E) as (_ & _ & H & q & Hq & _).
  split_and!; [done| |by exists q]. apply (H "abc"). by vm_compute.
Defined.

Lemma restore_exact_witness :
  restore [(sha256_hex "abc", "abd")] = Err (DataOwnershipError "backup object digest verification failed").
Proof.
  destruct (restore_exact [(sha256_hex "abc", "abd")]) as [(H & _)|(k & v & _ & _ & H)]; [apply NoDup_singleton| |done].
  specialize (H (sha256_hex "abc") "abd"). vm_compute in H. discriminate H. reflexivity.
Defined.
