(* ===== verification/BurstCapacity.v ===== *)
(** Elastic burst capacity (src/olympus/capacity/burst.py).

    The cloud provider is a parameter over its own state; the manager's state is the
    source's two fields beside that state and a log of the calls the provider served. *)

From S2P Require Import Prelude PyDict PyTime Json Authorization.
From stdpp Require Import pretty.

Open Scope Z_scope.

Inductive burst_exn := BurstDenied (msg : string) | BurstValueError (msg : string) | BurstRuntimeError (msg : string).

Record CapacityPressure := mkPressure { cp_cpu_percent : Z; cp_memory_percent : Z; cp_observed_minutes : Z }.

(** [CapacityPressure.__post_init__] *)
Definition make_pressure (p : CapacityPressure) : result burst_exn CapacityPressure :=
  ensure (negb ((cp_cpu_percent p <? 0) || (100 <? cp_cpu_percent p) || (cp_memory_percent p <? 0) ||
                (100 <? cp_memory_percent p) || (cp_observed_minutes p <? 0)))
    (BurstValueError "capacity pressure evidence is invalid");; Ok p.

(** [activation_threshold_met] *)
Definition activation_threshold_met (p : CapacityPressure) : bool :=
  (10 <=? cp_observed_minutes p) && ((80 <=? cp_cpu_percent p) || (75 <=? cp_memory_percent p)).

Record BurstRequest := mkBurst {
  bu_request_id : string;
  bu_worker_count : Z;
  bu_duration : Z;
  bu_provider_hourly_usd : Decimal;
  bu_job_spend_limit_usd : Decimal;
  bu_monthly_spent_usd : Decimal;
  bu_monthly_ceiling_usd : Decimal;
  bu_pressure : CapacityPressure }.

(** [BurstRequest.__post_init__] *)
Definition make_burst (r : BurstRequest) : result burst_exn BurstRequest :=
  ensure (negb (is_blank (bu_request_id r))) (BurstValueError "burst request identity is required");;
  ensure (negb ((bu_worker_count r <? 1) || (32 <? bu_worker_count r)))
    (BurstValueError "burst worker count must be between one and 32");;
  ensure (negb ((bu_duration r <=? 0) || (hours 24 <? bu_duration r)))
    (BurstValueError "burst duration must be positive and at most 24 hours");;
  ensure (negb (existsb (λ c, dec_ltb c dec_zero)
                  [bu_provider_hourly_usd r; bu_job_spend_limit_usd r; bu_monthly_spent_usd r; bu_monthly_ceiling_usd r]
                || (dec_coef (bu_provider_hourly_usd r) =? 0)))
    (BurstValueError "burst costs must be non-negative with a positive hourly rate");;
  Ok r.

(** A [Decimal] times an [int] *)
Definition dec_times (d : Decimal) (n : Z) : Decimal := mkDec (dec_coef d * n) (dec_scale d).

(** The whole hours a duration takes, rounded up: [total_seconds / 3600] with [ROUND_CEILING]. *)
Definition billed_hours (d : Z) : Z := - ((- d) / hours 1).

(** [forecast_usd] *)
Definition forecast_usd (r : BurstRequest) : Decimal :=
  dec_times (dec_times (bu_provider_hourly_usd r) (bu_worker_count r)) (billed_hours (bu_duration r)).

Record BurstResult := mkBurstResult { br_request_id : string; br_forecast_usd : Decimal; br_deleted_instances : nat }.

Inductive provider_call := PProvision (ids : list string) | PJoin (i : string) | PDrain (i : string) | PDelete (i : string).

Section Burst.
Context {P : Type}.
Context (provision : string → Z → St P burst_exn (list string)).
Context (join_private drain delete : string → St P burst_exn ()).
Context (list_managed : P → list string).

Record Manager := mkManager {
  bm_active : list string;
  bm_accrued_usd : Decimal;
  bm_cloud : P;
  bm_calls : list provider_call }.

(** [BurstManager.__init__] *)
Definition make_manager (cloud : P) : Manager := mkManager [] dec_zero cloud [].

Notation B := (St Manager burst_exn).

(** A call the provider completes is logged. *)
Definition on_cloud {A} (call : A → provider_call) (op : St P burst_exn A) : B A := λ m,
  match op (bm_cloud m) with
  | (Ok a, c) => (Ok a, mkManager (bm_active m) (bm_accrued_usd m) c (bm_calls m ++ [call a]))
  | (Err e, c) => (Err e, mkManager (bm_active m) (bm_accrued_usd m) c (bm_calls m))
  end.

Definition set_bursting (f : list string → list string) : B () :=
  modify (λ m, mkManager (f (bm_active m)) (bm_accrued_usd m) (bm_cloud m) (bm_calls m)).
Definition accrue (d : Decimal) : B () :=
  modify (λ m, mkManager (bm_active m) (dec_add (bm_accrued_usd m) d) (bm_cloud m) (bm_calls m)).

Fixpoint each (f : string → B ()) (ids : list string) : B () :=
  match ids with [] => mret () | i :: ids' => f i;; each f ids' end.

(** The rest of the [try] block, once the instances are known *)
Definition use_instances (worker_count : Z) (instances : list string) : B () :=
  check (bool_decide (Z.of_nat (length instances) = worker_count) && bool_decide (NoDup instances))
    (BurstRuntimeError "provider returned an invalid instance set");;
  set_bursting (λ a, a ++ instances);;
  each (λ i, on_cloud (λ _, PJoin i) (join_private i)) instances;;
  each (λ i, on_cloud (λ _, PDrain i) (drain i)) (reverse instances).

(** The [finally] block *)
Fixpoint delete_all (ids : list string) (deleted : nat) : B nat :=
  match ids with
  | [] => mret deleted
  | i :: ids' =>
      on_cloud (λ _, PDelete i) (delete i);;
      set_bursting (filter (λ x, x ≠ i));;
      delete_all ids' (S deleted)
  end.

(** The [try] and [finally] of [run]: an exception of [finally] replaces that of [try]. *)
Definition with_instances (r : BurstRequest) : B nat := λ m,
  match on_cloud PProvision (provision (bu_request_id r) (bu_worker_count r)) m with
  | (Err e, m1) => (Err e, m1)
  | (Ok instances, m1) =>
      let '(used, m2) := use_instances (bu_worker_count r) instances m1 in
      let '(gone, m3) := delete_all (reverse instances) 0 m2 in
      (match gone with Err e => Err e | Ok n => fmap (λ _, n) used end, m3)
  end.

(** [run] *)
Definition burst_run (r : BurstRequest) : B BurstResult :=
  check (activation_threshold_met (bu_pressure r)) (BurstDenied "elastic burst activation threshold is not evidenced");;
  let forecast := forecast_usd r in
  check (negb (dec_ltb (bu_job_spend_limit_usd r) forecast)) (BurstDenied "burst exceeds the job spending limit");;
  m ← read;
  check (negb (dec_ltb (bu_monthly_ceiling_usd r) (dec_add (dec_add (bu_monthly_spent_usd r) (bm_accrued_usd m)) forecast)))
    (BurstDenied "burst exceeds the monthly spending ceiling");;
  accrue forecast;;
  deleted ← with_instances r;
  mret (mkBurstResult (bu_request_id r) forecast deleted).

(** [reconcile_orphans] *)
Definition orphans (m : Manager) : list string := filter (λ i, i ∉ bm_active m) (list_managed (bm_cloud m)).
Definition reconcile_orphans : B nat :=
  m ← read;
  each (λ i, on_cloud (λ _, PDelete i) (delete i)) (orphans m);;
  mret (length (orphans m)).
End Burst.

(** ** What a burst guarantees *)

Definition deleted_ids (cs : list provider_call) : list string :=
  omap (λ c, match c with PDelete i => Some i | _ => None end) cs.
Definition provisioned_ids (cs : list provider_call) : list string :=
  mjoin (map (λ c, match c with PProvision ids => ids | _ => [] end) cs).

Lemma deleted_app a b : deleted_ids (a ++ b) = deleted_ids a ++ deleted_ids b.
Proof. apply omap_app. Qed.
Lemma provisioned_app a b : provisioned_ids (a ++ b) = provisioned_ids a ++ provisioned_ids b.
Proof. unfold provisioned_ids. by rewrite map_app, join_app. Qed.

Arguments deleted_ids : simpl never.
Arguments provisioned_ids : simpl never.

(** The hours billed cover the duration, with less than an hour to spare. *)
Lemma billed_hours_ceil d : d ≤ billed_hours d * hours 1 < d + hours 1.
Proof.
  unfold billed_hours. assert (Hh : hours 1 = 3600000000) by reflexivity. rewrite Hh.
  pose proof (Z.div_mod (- d) 3600000000 ltac:(lia)). pose proof (Z.mod_pos_bound (- d) 3600000000 ltac:(lia)). lia.
Qed.

Section BurstFacts.
Context {P : Type}.
Context (provision : string → Z → St P burst_exn (list string)).
Context (join_private drain delete : string → St P burst_exn ()).

(** What a step of the [try] block leaves alone: the budget, the deletions and the provisions. *)
Record quiet (m m' : Manager (P := P)) : Prop := mkQuiet {
  q_accrued : bm_accrued_usd m' = bm_accrued_usd m;
  q_deleted : deleted_ids (bm_calls m') = deleted_ids (bm_calls m);
  q_provisioned : provisioned_ids (bm_calls m') = provisioned_ids (bm_calls m) }.

Lemma quiet_refl m : quiet m m.
Proof. done. Qed.
Lemma quiet_trans m1 m2 m3 : quiet m1 m2 → quiet m2 m3 → quiet m1 m3.
Proof. intros [] []. split; congruence. Qed.

Lemma each_quiet call op ids m :
  (∀ i, deleted_ids [call i] = [] ∧ provisioned_ids [call i] = []) →
  let '(_, m') := each (λ i, on_cloud (λ _ : (), call i) (op i)) ids m in
  quiet m m' ∧ bm_active m' = bm_active m.
Proof.
  intros Hcall. revert m. induction ids as [|i ids IH]; intros m; [done|]. cbn [each].
  unfold mbind, st_bind, on_cloud at 1. destruct (op i (bm_cloud m)) as [[[]|e] c]; [|done].
  specialize (IH (mkManager (bm_active m) (bm_accrued_usd m) c (bm_calls m ++ [call i]))).
  destruct (each _ ids _) as [r m']. destruct IH as [Hq Ha].
  split; [|done]. eapply quiet_trans; [|exact Hq]. destruct (Hcall i) as [Hd Hp].
  split; cbn; [done|rewrite deleted_app, Hd; apply app_nil_r|rewrite provisioned_app, Hp; apply app_nil_r].
Qed.

Lemma use_instances_spec n ids m :
  let '(r, m') := use_instances join_private drain n ids m in
  quiet m m' ∧ (∀ i, i ∈ bm_active m → i ∈ bm_active m') ∧ (∀ i, i ∈ bm_active m' → i ∈ bm_active m ∨ i ∈ ids) ∧
  (is_ok r = true → Z.of_nat (length ids) = n ∧ NoDup ids).
Proof.
  unfold use_instances, check. unfold mbind, st_bind. case_bool_decide as Hn; [case_bool_decide as Hd|]; cbn;
    [|split_and!; [done|by auto..]..].
  set (m1 := mkManager (bm_active m ++ ids) _ _ _).
  pose proof (each_quiet PJoin join_private ids m1) as HJ. destruct (each _ ids m1) as [[[]|e] m2].
  - pose proof (each_quiet PDrain drain (reverse ids) m2) as HD. destruct (each _ (reverse ids) m2) as [r m3].
    destruct HJ as [Hq Ha]; [done|]. destruct HD as [Hq' Ha']; [done|]. cbn in *. rewrite Ha', Ha. cbn.
    split_and!; [|set_solver..|done]. eapply quiet_trans; [|exact Hq']. eapply quiet_trans; [|exact Hq]. done.
  - destruct HJ as [Hq Ha]; [done|]. cbn in *. rewrite Ha. cbn. split_and!; [|set_solver..|done].
    eapply quiet_trans; [|exact Hq]. done.
Qed.

(** The deletions stop at the first instance the provider refuses to delete. *)
Lemma delete_all_spec ids n m :
  let '(r, m') := delete_all delete ids n m in
  ∃ gone left, ids = gone ++ left ∧ bm_accrued_usd m' = bm_accrued_usd m ∧
    provisioned_ids (bm_calls m') = provisioned_ids (bm_calls m) ∧
    deleted_ids (bm_calls m') = deleted_ids (bm_calls m) ++ gone ∧
    (∀ i, i ∈ bm_active m' ↔ i ∈ bm_active m ∧ i ∉ gone) ∧
    match r with
    | Ok k => left = [] ∧ k = (n + length ids)%nat
    | Err e => ∃ i rest c c', left = i :: rest ∧ delete i c = (Err e, c')
    end.
Proof.
  revert n m. induction ids as [|i ids IH]; intros n m; cbn [delete_all].
  { exists [], []. cbn. rewrite app_nil_r. split_and!; try done; try lia; set_solver. }
  unfold mbind, st_bind, on_cloud. destruct (delete i (bm_cloud m)) as [[[]|e] c] eqn:Hd; cbn.
  - specialize (IH (S n) (mkManager (filter (λ x, x ≠ i) (bm_active m)) (bm_accrued_usd m) c (bm_calls m ++ [PDelete i]))).
    destruct (delete_all delete ids (S n) _) as [r m'].
    destruct IH as (gone & left & -> & Ha & Hp & Hdel & Hact & Hr). cbn in *. exists (i :: gone), left. split_and!; try done.
    + by rewrite Hp, provisioned_app, app_nil_r.
    + rewrite Hdel, deleted_app. cbn. by rewrite <- (assoc_L (++)).
    + intros x. rewrite Hact, list_elem_of_filter. set_solver.
    + destruct r; [|done]. destruct Hr as [? ->]. split; [done|lia].
  - exists [], (i :: ids). cbn. rewrite app_nil_r. split_and!; try done; [|by exists i, ids, (bm_cloud m), c]. set_solver.
Qed.

(** Whatever the provider did, every instance it handed over was deleted, in reverse order, up to the first
    deletion it refused; with none refused, no instance of the burst counts as active any more. *)
Definition settled (r : BurstRequest) (m m' : Manager (P := P)) (x : result burst_exn nat) : Prop :=
  ∃ instances gone left,
    provisioned_ids (bm_calls m') = provisioned_ids (bm_calls m) ++ instances ∧
    deleted_ids (bm_calls m') = deleted_ids (bm_calls m) ++ gone ∧ reverse instances = gone ++ left ∧
    (left ≠ [] → ∃ i e c c', i ∈ left ∧ x = Err e ∧ delete i c = (Err e, c')) ∧
    (left = [] → ∀ i, i ∈ bm_active m' ↔ i ∈ bm_active m ∧ i ∉ instances) ∧
    (∀ k, x = Ok k → left = [] ∧ NoDup instances ∧ Z.of_nat (length instances) = bu_worker_count r ∧ k = length instances).

Lemma with_instances_spec r m :
  let '(x, m') := with_instances provision join_private drain delete r m in
  bm_accrued_usd m' = bm_accrued_usd m ∧ settled r m m' x.
Proof.
  unfold with_instances, on_cloud.
  destruct (provision (bu_request_id r) (bu_worker_count r) (bm_cloud m)) as [[ids|e] c] eqn:Hp.
  - set (m1 := mkManager _ _ c _). pose proof (use_instances_spec (bu_worker_count r) ids m1) as HU.
    destruct (use_instances _ _ _ ids m1) as [used m2]. destruct HU as ([Qa Qd Qp] & Hin & Hout & Hok).
    pose proof (delete_all_spec (reverse ids) 0 m2) as HD. destruct (delete_all _ _ 0%nat m2) as [g m3].
    destruct HD as (gone & left & Hids & Da & Dp & Dd & Dact & Hg). split; [cbn in *; congruence|].
    exists ids, gone, left. split_and!; [| |done|..].
    + rewrite Dp, Qp. subst m1. cbn. rewrite provisioned_app. unfold provisioned_ids at 2. cbn. by rewrite app_nil_r.
    + rewrite Dd, Qd. subst m1. cbn. rewrite deleted_app. unfold deleted_ids at 2. cbn. by rewrite app_nil_r.
    + intros Hl. destruct g as [k|e]; [by destruct Hg|]. destruct Hg as (i & rest & c1 & c2 & -> & Hd).
      exists i, e, c1, c2. split_and!; [set_solver|done..].
    + intros ->. rewrite app_nil_r in Hids. intros i. rewrite Dact, <- Hids, elem_of_reverse. subst m1. cbn in *.
      split; [|by intros [? ?]; auto]. intros [Hi Hn]. destruct (Hout i Hi); done.
    + intros k. destruct g as [k'|e]; [|done]. destruct Hg as [-> ->]. destruct used as [[]|]; [|done]. intros [= <-].
      destruct (Hok eq_refl). by rewrite length_reverse.
  - split; [done|]. exists [], [], []. cbn. rewrite !app_nil_r. split_and!; try done. set_solver.
Qed.

(** A burst starts only under evidenced pressure and while its forecast, the provider's rate for its workers
    over its duration rounded up to the hour, keeps within the job's limit and, with everything accrued before, within
    the monthly ceiling; a denied burst changes nothing. One that starts is accrued, and however it goes on, by an
    invalid instance set or a join or drain that fails, every instance it was given is deleted and none stays
    active, unless the provider refuses a deletion, which raises. It succeeds only with exactly the workers asked for. *)
Theorem burst_accountable r m :
  let '(x, m') := burst_run provision join_private drain delete r m in
  let forecast := forecast_usd r in
  (m' = m ∧ ∃ msg, x = Err (BurstDenied msg)) ∨
  (activation_threshold_met (bu_pressure r) = true ∧ dec_ltb (bu_job_spend_limit_usd r) forecast = false ∧
   dec_ltb (bu_monthly_ceiling_usd r) (dec_add (dec_add (bu_monthly_spent_usd r) (bm_accrued_usd m)) forecast) = false ∧
   bu_duration r ≤ billed_hours (bu_duration r) * hours 1 < bu_duration r + hours 1 ∧
   bm_accrued_usd m' = dec_add (bm_accrued_usd m) forecast ∧
   settled r m m' (br_deleted_instances <$> x)).
Proof.
  unfold burst_run, check, read, accrue, modify. unfold mbind at 1, st_bind at 1.
  destruct (activation_threshold_met (bu_pressure r)) eqn:Ht; cbn [ensure]; [|left; eauto].
  unfold mbind at 1, st_bind at 1. destruct (dec_ltb (bu_job_spend_limit_usd r) _) eqn:Hj; cbn [negb ensure]; [left; eauto|].
  unfold mbind at 1 2, st_bind at 1 2. destruct (dec_ltb (bu_monthly_ceiling_usd r) _) eqn:Hc; cbn [negb ensure]; [left; eauto|].
  unfold mbind, st_bind. set (m1 := mkManager _ _ (bm_cloud m) _).
  pose proof (with_instances_spec r m1) as HW. destruct (with_instances _ _ _ _ r m1) as [x m'].
  destruct HW as [Ha Hs]. pose proof (billed_hours_ceil (bu_duration r)).
  destruct x; right; (split_and!; [done|done|done|lia|lia|exact Ha|]); destruct Hs as (ids & gone & left & Hs); exists ids, gone, left;
    exact Hs.
Qed.
End BurstFacts.

(** ** The fake provider *)

Record FakeCloud := mkFakeCloud { fc_instances : dict string string; fc_joined : nat; fc_drained : nat }.

(** [FakeBurstProvider.provision] *)
Definition fake_provision (request_id : string) (worker_count : Z) : St FakeCloud burst_exn (list string) := λ c,
  let identifiers := map (λ k, request_id +:+ "-worker-" +:+ pretty (N.of_nat k)) (seq 0 (Z.to_nat worker_count)) in
  (Ok identifiers, mkFakeCloud (foldl (λ d i, dset i "provisioned" d) (fc_instances c) identifiers) (fc_joined c) (fc_drained c)).

(** [FakeBurstProvider.join_private] *)
Definition fake_join (fail_during_join : bool) (i : string) : St FakeCloud burst_exn () := λ c,
  if fail_during_join then (Err (BurstRuntimeError "private cluster join failed"), c)
  else (Ok (), mkFakeCloud (dset i "joined-private" (fc_instances c)) (S (fc_joined c)) (fc_drained c)).

(** [FakeBurstProvider.drain] *)
Definition fake_drain (i : string) : St FakeCloud burst_exn () := λ c,
  (Ok (), mkFakeCloud (dset i "drained" (fc_instances c)) (fc_joined c) (S (fc_drained c))).

(** [FakeBurstProvider.delete] *)
Definition fake_delete (i : string) : St FakeCloud burst_exn () := λ c,
  (Ok (), mkFakeCloud (ddel i (fc_instances c)) (fc_joined c) (fc_drained c)).

(** [FakeBurstProvider.list_managed] *)
Definition fake_list_managed (c : FakeCloud) : list string := dkeys (fc_instances c).

(** ** On concrete inputs *)

Definition demo_burst : BurstRequest :=
  mkBurst "r" 2 (hours 1 + 1) (mkDec 50 2) (mkDec 5 0) (mkDec 10 0) (mkDec 20 0) (mkPressure 85 10 10).
Definition fresh_manager : Manager := make_manager (mkFakeCloud [] 0 0).

(** Two workers for an hour and a microsecond are billed four hours at 0.50. *)
Example demo_burst_runs :
  outcome (burst_run fake_provision (fake_join false) fake_drain fake_delete demo_burst fresh_manager) =
  Ok (mkBurstResult "r" (mkDec 200 2) 2).
Proof. by vm_compute. Qed.

Lemma burst_accountable_witness :
  let p := burst_run fake_provision (fake_join true) fake_drain fake_delete demo_burst fresh_manager in
  outcome p = Err (BurstRuntimeError "private cluster join failed") ∧
  bm_accrued_usd (final p) = dec_add dec_zero (forecast_usd demo_burst) ∧
  deleted_ids (bm_calls (final p)) = ["r-worker-1"; "r-worker-0"].
Proof.
  intros p. pose proof (burst_accountable fake_provision (fake_join true) fake_drain fake_delete demo_burst fresh_manager) as H.
  split; [by vm_compute|]. split; [|by vm_compute]. fold p in H. destruct p as [x m'] eqn:Hp. cbn in H.
  destruct H as [(-> & _)|(_ & _ & _ & _ & H & _)]; [|exact H].
  vm_compute in Hp. discriminate Hp.
Defined.

(** A provider that fails to delete one instance. *)
Definition flaky_delete (stuck i : string) : St FakeCloud burst_exn () := λ c,
  if bool_decide (i = stuck) then (Err (BurstRuntimeError "deletion failed"), c) else fake_delete i c.

(** A deletion that fails in the cleanup leaves the remaining instances running and counted as active, so that
    reconciling orphans passes them over even once the provider works again. *)
Example failed_delete_leaks :
  let m := final (burst_run fake_provision (fake_join false) fake_drain (flaky_delete "r-worker-1") demo_burst fresh_manager) in
  fake_list_managed (bm_cloud m) = ["r-worker-0"; "r-worker-1"] ∧
  outcome (reconcile_orphans fake_delete fake_list_managed m) = Ok 0%nat.
Proof. by vm_compute. Qed.
