(* ===== verification/OperationsControl.v ===== *)
(** Operating the control plane: its mode and its encrypted backups
    (src/olympus/operations/control_plane.py), and the declared capacity plan
    (src/olympus/capacity/models.py).

    NaCl's [SecretBox] is a parameter: a nonce and a plaintext give a ciphertext, and
    decryption may refuse. The backup's identity and nonce are arguments. *)

From S2P Require Import Prelude PyDict PyTime Sha256 Json JsonParse NodeCrypto AgentFiles NodeAgent.
From Stdlib Require Import Ascii.

Open Scope Z_scope.

(** ** The mode of the control plane *)

Inductive ControlPlaneMode := CPM_NORMAL | CPM_CONSTRAINED | CPM_DEGRADED | CPM_SURVIVAL.

Record ControlPlaneSample := mkSample {
  cs_cpu_percent : Z;
  cs_memory_percent : Z;
  cs_disk_percent : Z;
  cs_postgresql_ready : bool;
  cs_temporal_ready : bool }.

Inductive control_exn := ControlValueError (msg : string) | BackupCorrupt (msg : string).

(** [ControlPlaneSample.__post_init__] *)
Definition make_sample (s : ControlPlaneSample) : result control_exn ControlPlaneSample :=
  ensure (negb (existsb (λ v, (v <? 0) || (100 <? v)) [cs_cpu_percent s; cs_memory_percent s; cs_disk_percent s]))
    (ControlValueError "control-plane utilization must be a percentage");; Ok s.

(** [evaluate_control_plane] *)
Definition evaluate_control_plane (s : ControlPlaneSample) : ControlPlaneMode :=
  if negb (cs_postgresql_ready s) || negb (cs_temporal_ready s) || (85 <=? cs_disk_percent s) then CPM_SURVIVAL
  else if (90 <=? cs_cpu_percent s) || (85 <=? cs_memory_percent s) || (70 <=? cs_disk_percent s) then CPM_DEGRADED
  else if (80 <=? cs_cpu_percent s) || (75 <=? cs_memory_percent s) || (60 <=? cs_disk_percent s) then CPM_CONSTRAINED
  else CPM_NORMAL.

Definition severity (m : ControlPlaneMode) : nat :=
  match m with CPM_NORMAL => 0 | CPM_CONSTRAINED => 1 | CPM_DEGRADED => 2 | CPM_SURVIVAL => 3 end.

(** ** Encrypted backups *)

Record EncryptedBackup := mkBackup {
  eb_backup_id : string;
  eb_created_at : datetime;
  eb_ciphertext : string;
  eb_plaintext_digest : string }.

(** [_encode_snapshot]; [dumps] sorts the keys *)
Definition encode_snapshot (snapshot : dict string string) : string :=
  dumps (JObj (map (λ kv, (kv.1, JStr (standard_b64encode kv.2))) (sort_keys snapshot))).

Fixpoint decode_items (o : list (string * json)) : option (dict string string) :=
  match o with
  | [] => Some []
  | (k, JStr v) :: o' => b ← b64_strict v; rest ← decode_items o'; Some ((k, b) :: rest)
  | _ => None
  end.

(** [_decode_snapshot] *)
Definition decode_snapshot (plaintext : string) : result control_exn (dict string string) :=
  require_some (j ← loads plaintext; match j with JObj o => decode_items o | _ => None end)
    (BackupCorrupt "backup payload cannot be decoded").

Section Backups.
Context (box_encrypt : string → string → string → string) (box_decrypt : string → string → option string).

Record BackupStore := mkBackupStore { bk_key : string; bk_maximum_rpo : Z }.

(** [EncryptedBackupStore.__init__] *)
Definition make_backup_store (encryption_key : string) (maximum_rpo : Z) : result control_exn BackupStore :=
  ensure (String.length encryption_key =? 32)%nat (ControlValueError "backup encryption key must be exactly 32 bytes");;
  ensure (0 <? maximum_rpo) (ControlValueError "maximum RPO must be positive");;
  Ok (mkBackupStore encryption_key maximum_rpo).

(** [create] *)
Definition create_backup (st : BackupStore) (snapshot : dict string string) (created_at : datetime) (uuid nonce : string) :
    result control_exn EncryptedBackup :=
  ensure (negb (bool_decide (snapshot = [])) && negb (existsb is_blank (dkeys snapshot)))
    (ControlValueError "backup snapshot must contain named canonical stores");;
  let plaintext := encode_snapshot snapshot in
  Ok (mkBackup ("backup-" +:+ uuid) created_at (box_encrypt (bk_key st) nonce plaintext) (sha256_hex plaintext)).

(** [restore] *)
Definition restore_backup (st : BackupStore) (b : EncryptedBackup) (now : datetime) :
    result control_exn (dict string string) :=
  let age := now - eb_created_at b in
  ensure (negb ((age <? 0) || (bk_maximum_rpo st <? age))) (BackupCorrupt "backup is outside the required RPO");;
  plaintext ← require_some (box_decrypt (bk_key st) (eb_ciphertext b)) (BackupCorrupt "backup authentication failed");
  ensure (bool_decide (sha256_hex plaintext = eb_plaintext_digest b)) (BackupCorrupt "backup plaintext digest does not match");;
  decode_snapshot plaintext.
End Backups.

(** ** The capacity plan *)

Record ResourceTotal := mkTotal { rt_cpu_millicores : Z; rt_memory_mib : Z }.
Record WorkloadResources := mkWorkload {
  wk_name : string;
  wk_cpu_request : Z;
  wk_cpu_limit : Z;
  wk_memory_request : Z;
  wk_memory_limit : Z }.
Record WorkerQuota := mkQuota { wq_cpu_request : Z; wq_memory_request : Z; wq_memory_limit : Z }.

(** [validate_request_limits] *)
Definition validate_request_limits (w : WorkloadResources) : result control_exn WorkloadResources :=
  ensure (wk_cpu_request w <=? wk_cpu_limit w) (ControlValueError "workload request exceeds limit for CPU");;
  ensure (wk_memory_request w <=? wk_memory_limit w) (ControlValueError "workload request exceeds limit for memory");;
  Ok w.

(** [validate_memory_request_limit] *)
Definition validate_memory_request_limit (q : WorkerQuota) : result control_exn WorkerQuota :=
  ensure (wq_memory_request q <=? wq_memory_limit q) (ControlValueError "worker memory request exceeds limit");; Ok q.

Record CapacityPlan := mkPlan {
  pl_node : ResourceTotal;
  pl_reserved : ResourceTotal;
  pl_allocatable : ResourceTotal;
  pl_always_on : list WorkloadResources;
  pl_worker_quota : WorkerQuota;
  pl_required_headroom : ResourceTotal }.

Definition total_of (f : WorkloadResources → Z) (p : CapacityPlan) : Z := foldr (λ w z, f w + z) 0 (pl_always_on p).
Definition always_on_cpu_request : CapacityPlan → Z := total_of wk_cpu_request.
Definition always_on_memory_request : CapacityPlan → Z := total_of wk_memory_request.
Definition always_on_memory_limit : CapacityPlan → Z := total_of wk_memory_limit.
Definition unrequested_cpu_millicores (p : CapacityPlan) : Z :=
  rt_cpu_millicores (pl_allocatable p) - always_on_cpu_request p - wq_cpu_request (pl_worker_quota p).
Definition unrequested_memory_mib (p : CapacityPlan) : Z :=
  rt_memory_mib (pl_allocatable p) - always_on_memory_request p - wq_memory_request (pl_worker_quota p).

(** [validate_envelope] *)
Definition validate_envelope (p : CapacityPlan) : result control_exn CapacityPlan :=
  ensure (bool_decide (NoDup (map wk_name (pl_always_on p)))) (ControlValueError "workload names must be unique");;
  ensure (rt_cpu_millicores (pl_node p) - rt_cpu_millicores (pl_reserved p) =? rt_cpu_millicores (pl_allocatable p))
    (ControlValueError "allocatable CPU does not match node minus reserved");;
  ensure (rt_memory_mib (pl_node p) - rt_memory_mib (pl_reserved p) =? rt_memory_mib (pl_allocatable p))
    (ControlValueError "allocatable memory does not match node minus reserved");;
  ensure (always_on_cpu_request p + wq_cpu_request (pl_worker_quota p) <=? rt_cpu_millicores (pl_allocatable p))
    (ControlValueError "CPU requests exceed allocatable capacity");;
  ensure (rt_cpu_millicores (pl_required_headroom p) <=? unrequested_cpu_millicores p)
    (ControlValueError "CPU requests consume required headroom");;
  ensure (rt_memory_mib (pl_required_headroom p) <=? unrequested_memory_mib p)
    (ControlValueError "memory requests consume required headroom");;
  ensure (always_on_memory_limit p + wq_memory_limit (pl_worker_quota p) <=? rt_memory_mib (pl_allocatable p))
    (ControlValueError "memory limits exceed allocatable capacity");;
  Ok p.

(** ** What the operations guarantee *)

(** A busier machine, or one with a dependency less, is never in a milder mode. *)
Lemma control_plane_monotone s s' :
  cs_cpu_percent s ≤ cs_cpu_percent s' → cs_memory_percent s ≤ cs_memory_percent s' →
  cs_disk_percent s ≤ cs_disk_percent s' → (cs_postgresql_ready s' → cs_postgresql_ready s) →
  (cs_temporal_ready s' → cs_temporal_ready s) →
  (severity (evaluate_control_plane s) ≤ severity (evaluate_control_plane s'))%nat.
Proof.
  intros Hc Hm Hd Hp Ht. unfold evaluate_control_plane.
  destruct (cs_postgresql_ready s), (cs_postgresql_ready s'), (cs_temporal_ready s), (cs_temporal_ready s'); simpl in *;
    try (exfalso; tauto); repeat (case_match; simpl; try lia); lia.
Qed.

(** A validated plan leaves the required headroom after every request, and limits fit in memory. *)
Lemma plan_headroom p :
  validate_envelope p = Ok p →
  rt_cpu_millicores (pl_node p) = rt_cpu_millicores (pl_reserved p) + always_on_cpu_request p +
    wq_cpu_request (pl_worker_quota p) + unrequested_cpu_millicores p ∧
  rt_cpu_millicores (pl_required_headroom p) ≤ unrequested_cpu_millicores p ∧
  rt_memory_mib (pl_required_headroom p) ≤ unrequested_memory_mib p ∧
  always_on_memory_limit p + wq_memory_limit (pl_worker_quota p) + rt_memory_mib (pl_reserved p) ≤ rt_memory_mib (pl_node p).
Proof.
  unfold validate_envelope, mbind, result_bind.
  repeat (match goal with |- context [ensure ?b _] => destruct b eqn:? end; cbn [ensure]; [|done]).
  intros _. unfold unrequested_cpu_millicores in *. lia.
Qed.

(** ** Base64 with the standard alphabet *)

Definition std_char (n : N) : ascii :=
  let c := b64_char n in if Ascii.eqb c "-" then "+"%char else if Ascii.eqb c "_" then "/"%char else c.

Lemma std_digit n : (n < 64)%N → b64_digit (std_char n) = Some (Z.of_N n) ∧ pad_char (std_char n) = false.
Proof.
  intros Hn. set (P := λ m, bool_decide (b64_digit (std_char m) = Some (Z.of_N m)) && negb (pad_char (std_char m))).
  assert (H : P n = true) by by apply below_64.
  apply andb_true_iff in H as [H1%bool_decide_eq_true H2%negb_true_iff]. done.
Qed.

Lemma byte_char_code z a : z mod 256 = Z.of_N (code a) → byte_char z = a.
Proof. intros H. unfold byte_char. rewrite H. unfold code. rewrite <- Z_N_nat, N2Z.id. apply ascii_nat_embedding. Qed.

Local Ltac bytes_lia a b c :=
  pose proof (code_lt a); pose proof (code_lt b); pose proof (code_lt c); zify; Z.to_euclidean_division_equations; lia.

Lemma byte_first a b y : (y = code a mod 4 * 16 + code b / 16 ∨ y = code a mod 4 * 16)%N →
  byte_char (Z.of_N (code a / 4) * 4 + Z.of_N y / 16) = a.
Proof. intros H. apply byte_char_code. destruct H as [-> | ->]; bytes_lia a b a. Qed.
Lemma byte_second a b c z : (z = code b mod 16 * 4 + code c / 64 ∨ z = code b mod 16 * 4)%N →
  byte_char (Z.of_N (code a mod 4 * 16 + code b / 16) * 16 + Z.of_N z / 4) = b.
Proof. intros H. apply byte_char_code. destruct H as [-> | ->]; bytes_lia a b c. Qed.
Lemma byte_third b c : byte_char (Z.of_N (code b mod 16 * 4 + code c / 64) * 64 + Z.of_N (code c mod 64)) = c.
Proof. apply byte_char_code. bytes_lia b c c. Qed.

(** Decoding the standard encoding, strictly, gives the bytes back. *)
Lemma b64_strict_encode s : b64_strict (standard_b64encode s) = Some s.
Proof.
  unfold standard_b64encode. induction s as [|a|a b|a b c s IH] using string_ind3; [done|..]; cbn [b64encode standard_alphabet].
  - destruct (sextets a a a) as (H1 & _ & _ & _ & H2 & _). fold (std_char (code a / 4)) (std_char (code a mod 4 * 16)).
    cbn [b64_strict]. destruct (std_digit _ H1) as [-> _], (std_digit _ H2) as [-> _]. cbn.
    by rewrite (byte_first a a) by auto.
  - destruct (sextets a b b) as (H1 & H2 & _ & _ & _ & H3).
    fold (std_char (code a / 4)) (std_char (code a mod 4 * 16 + code b / 16)) (std_char (code b mod 16 * 4)).
    cbn [b64_strict]. destruct (std_digit _ H1) as [-> _], (std_digit _ H2) as [-> _], (std_digit _ H3) as [-> ->]. cbn.
    by rewrite (byte_first a b), (byte_second a b b) by auto.
  - destruct (sextets a b c) as (H1 & H2 & H3 & H4 & _).
    fold (std_char (code a / 4)) (std_char (code a mod 4 * 16 + code b / 16)) (std_char (code b mod 16 * 4 + code c / 64))
      (std_char (code c mod 64)).
    cbn [b64_strict]. destruct (std_digit _ H1) as [-> _], (std_digit _ H2) as [-> _], (std_digit _ H3) as [-> _],
      (std_digit _ H4) as [-> ->]. cbn. rewrite IH. cbn.
    by rewrite (byte_first a b), (byte_second a b c), byte_third by auto.
Qed.

(** ** Snapshots read back *)

Definition encoded_items (s : dict string string) : list (string * json) := map (λ kv, (kv.1, JStr (standard_b64encode kv.2))) s.

Lemma decode_encoded s : decode_items (encoded_items s) = Some s.
Proof.
  unfold encoded_items. induction s as [|[k v] s IH]; [done|]. cbn [map decode_items fst snd].
  rewrite b64_strict_encode. cbn. by rewrite IH.
Qed.

Lemma sort_keys_perm {A} (o : list (string * A)) : sort_keys o ≡ₚ o.
Proof. apply sort_by_Permutation. Qed.

Lemma jnorm_encoded s : jnorm (JObj (encoded_items s)) = JObj (encoded_items (sort_keys s)).
Proof.
  cbn [jnorm]. f_equal. unfold encoded_items. rewrite map_map. cbn.
  by rewrite <- (sort_keys_map (λ x, JStr (standard_b64encode x))).
Qed.

Lemma json_wf_encoded s : dict_wf s → json_wf (JObj (encoded_items s)).
Proof.
  intros Hwf. cbn [json_wf]. split; unfold encoded_items.
  - change (NoDup (map fst (map (λ kv : string * string, (kv.1, JStr (standard_b64encode kv.2))) s))). by rewrite map_map.
  - clear. induction s; cbn; auto.
Qed.

Lemma decode_encode_snapshot s :
  dict_wf s → ∃ s', decode_snapshot (encode_snapshot s) = Ok s' ∧ ∀ k, dget k s' = dget k s.
Proof.
  intros Hwf. assert (Hp := sort_keys_perm s). assert (Hs : dict_wf (sort_keys s)) by (unfold dict_wf, dkeys in *; by rewrite Hp).
  exists (sort_keys (sort_keys s)). unfold decode_snapshot, encode_snapshot. fold (encoded_items (sort_keys s)).
  rewrite loads_dumps by by apply json_wf_encoded. rewrite jnorm_encoded. cbn. rewrite decode_encoded. split; [done|].
  intros k. symmetry. apply dget_perm; [|done]. by rewrite !sort_keys_perm.
Qed.

Section BackupFacts.
Context (box_encrypt : string → string → string → string) (box_decrypt : string → string → option string).
(** NaCl's contract: what was encrypted under a key decrypts under it. *)
Context (Hbox : ∀ key nonce p, box_decrypt key (box_encrypt key nonce p) = Some p).

(** A backup of named stores restores, any time within the recovery point objective, to the same stores byte for
    byte, and outside it is refused. Whatever the stored ciphertext was replaced by, restoring under the original digest
    never yields other data, unless SHA-256 collides: it raises. *)
Theorem backup_restores st snapshot created_at uuid nonce b :
  dict_wf snapshot → create_backup box_encrypt st snapshot created_at uuid nonce = Ok b →
  (∀ now, 0 ≤ now - created_at ≤ bk_maximum_rpo st →
     ∃ s, restore_backup box_decrypt st b now = Ok s ∧ ∀ k, dget k s = dget k snapshot) ∧
  (∀ now c, ¬ 0 ≤ now - created_at ≤ bk_maximum_rpo st →
     restore_backup box_decrypt st (mkBackup (eb_backup_id b) created_at c (eb_plaintext_digest b)) now =
     Err (BackupCorrupt "backup is outside the required RPO")) ∧
  (∀ now id at_ c s, restore_backup box_decrypt st (mkBackup id at_ c (eb_plaintext_digest b)) now = Ok s →
     (∀ k, dget k s = dget k snapshot) ∨ ∃ p, sha_collides [p; encode_snapshot snapshot]).
Proof.
  intros Hwf. unfold create_backup. destruct (_ && _); [|done]. intros [= <-]. cbn [eb_backup_id eb_plaintext_digest].
  destruct (decode_encode_snapshot _ Hwf) as (s0 & Hs0 & Hk). split_and!.
  - intros now Hage. exists s0. split; [|done]. unfold restore_backup. cbn [eb_created_at eb_ciphertext eb_plaintext_digest].
    destruct ((_ <? 0) || _) eqn:Ha; [lia|]. cbn [negb ensure]. unfold mbind, result_bind. rewrite Hbox. cbn [require_some].
    by rewrite bool_decide_eq_true_2.
  - intros now c Hage. unfold restore_backup. cbn [eb_created_at]. destruct ((_ <? 0) || _) eqn:Ha; [done|lia].
  - intros now i a c s. unfold restore_backup. cbn [eb_created_at eb_ciphertext eb_plaintext_digest].
    destruct ((_ <? 0) || _); [done|]. cbn [negb ensure]. unfold mbind at 1, result_bind at 1.
    destruct (box_decrypt (bk_key st) c) as [p|]; [|done]. cbn [require_some]. unfold mbind, result_bind.
    case_bool_decide as Hd; cbn [ensure]; [|done]. apply sha256_hex_inj in Hd as [->|Hd]; [left|right; eauto].
    rewrite Hs0 in H. by simplify_eq.
Qed.
End BackupFacts.

(** ** On concrete inputs *)

(** A box that writes the key in front and asks for it back. *)
Definition toy_encrypt (key nonce p : string) : string := key +:+ p.
Definition toy_decrypt (key c : string) : option string := strip_prefix key c.

Lemma toy_box key nonce p : toy_decrypt key (toy_encrypt key nonce p) = Some p.
Proof. unfold toy_decrypt, toy_encrypt. induction key as [|c key IH]; [done|]. simpl. by rewrite bool_decide_eq_true_2. Qed.

Definition demo_store : BackupStore := mkBackupStore "0123456789abcdef0123456789abcdef" (minutes 15).
Definition demo_snapshot : dict string string := [("postgresql", "rows"); ("minio", "objects")].
Definition demo_backup : EncryptedBackup :=
  mkBackup "backup-u" 0 (toy_encrypt (bk_key demo_store) "n" (encode_snapshot demo_snapshot)) (sha256_hex (encode_snapshot demo_snapshot)).

Lemma backup_restores_witness :
  create_backup toy_encrypt demo_store demo_snapshot 0 "u" "n" = Ok demo_backup ∧
  (∃ s, restore_backup toy_decrypt demo_store demo_backup (minutes 15) = Ok s ∧ dget "minio" s = Some "objects") ∧
  restore_backup toy_decrypt demo_store demo_backup (minutes 15 + 1) = Err (BackupCorrupt "backup is outside the required RPO").
Proof.
  destruct (backup_restores toy_encrypt toy_decrypt toy_box demo_store demo_snapshot 0 "u" "n" demo_backup) as (H1 & H2 & _).
  - unfold dict_wf. cbn. repeat constructor; set_solver.
  - reflexivity.
  - split_and!; [reflexivity| |].
    + destruct (H1 (minutes 15)) as (s & Hs & Hk); [by vm_compute|]. exists s. split; [done|]. by rewrite Hk.
    + apply (H2 (minutes 15 + 1) (eb_ciphertext demo_backup)). intros [_ H]. by vm_compute in H.
Defined.
