(* ===== verification/HighAutonomy.v ===== *)
(** High autonomy (src/olympus/operations/autonomy.py): a bounded activation under which
    scheduled actions go to the authorization engine without a person in the loop.

    The verifier of activation proofs is a parameter, and so is the engine's signature
    check. *)

From S2P Require Import Prelude PyDict PyTime Json Sha256 Authorization.

Open Scope Z_scope.

Inductive autonomy_error := AutonomyDenied (msg : string) | AutonomyInvalid (msg : string) | EngineRaised (e : auth_exn).

Record ActivationProof := mkActivation {
  av_authority_epoch : Z;
  av_issued_at : datetime;
  av_expires_at : datetime;
  av_proof_digest : string }.
#[export] Instance ActivationProof_eq : EqDecision ActivationProof.
Proof. solve_decision. Defined.

(** [ActivationProof.__post_init__] *)
Definition make_activation (p : ActivationProof) : result autonomy_error ActivationProof :=
  ensure (negb ((av_authority_epoch p <? 1) || is_blank (av_proof_digest p)))
    (AutonomyInvalid "activation epoch and proof digest are required");;
  ensure (av_issued_at p <? av_expires_at p) (AutonomyInvalid "activation must expire after issuance");;
  ensure (av_expires_at p - av_issued_at p <=? days 30) (AutonomyInvalid "high-autonomy activation cannot exceed 30 days");;
  Ok p.

Record Followup := mkFollowup { fu_followup_id : string; fu_run_at : datetime }.

Record Autonomy := mkAutonomy {
  at_engine : Engine;
  at_maximum_followups : Z;
  at_maximum_horizon : Z;
  at_activation : option ActivationProof;
  at_followups : dict string Followup;
  at_anomalies : list string }.

(** [HighAutonomyController.__init__] *)
Definition make_autonomy (engine : Engine) (maximum_followups maximum_horizon : Z) : result autonomy_error Autonomy :=
  ensure (negb ((maximum_followups <? 1) || (maximum_horizon <=? 0))) (AutonomyInvalid "followup limits must be positive");;
  Ok (mkAutonomy engine maximum_followups maximum_horizon None [] []).

Definition set_activation (p : option ActivationProof) (anomalies : list string) (c : Autonomy) : Autonomy :=
  mkAutonomy (at_engine c) (at_maximum_followups c) (at_maximum_horizon c) p (at_followups c) anomalies.
Definition set_followups (f : dict string Followup) (c : Autonomy) : Autonomy :=
  mkAutonomy (at_engine c) (at_maximum_followups c) (at_maximum_horizon c) (at_activation c) f (at_anomalies c).
Definition set_engine (e : Engine) (c : Autonomy) : Autonomy :=
  mkAutonomy e (at_maximum_followups c) (at_maximum_horizon c) (at_activation c) (at_followups c) (at_anomalies c).

Notation HA := (St Autonomy autonomy_error).

Section HighAutonomy.
Context (activation_verifier : ActivationProof → bool).
Context (ed_verify : string → string → string → bool).

(** [activate] *)
Definition activate (proof : ActivationProof) (now : datetime) : HA () :=
  check (negb ((now <? av_issued_at proof) || (av_expires_at proof <=? now)))
    (AutonomyDenied "activation proof is not currently valid");;
  check (activation_verifier proof) (AutonomyDenied "activation proof did not verify");;
  c ← read;
  check (match at_activation c with Some p => av_authority_epoch p <? av_authority_epoch proof | None => true end)
    (AutonomyDenied "activation epoch must advance");;
  modify (set_activation (Some proof) []).

(** [record_anomaly] *)
Definition record_anomaly (reason : string) : HA () :=
  check (negb (is_blank reason)) (AutonomyInvalid "anomaly reason is required");;
  modify (λ c, set_activation None (at_anomalies c ++ [reason]) c).

(** [_require_active] *)
Definition active_at (now : datetime) (c : Autonomy) : option ActivationProof :=
  match at_activation c, at_anomalies c with
  | Some p, [] => if (now <? av_issued_at p) || (av_expires_at p <=? now) then None else Some p
  | _, _ => None
  end.
Definition require_active (now : datetime) : HA ActivationProof :=
  c ← read; some_or (active_at now c) (AutonomyDenied "high autonomy is not active").

(** A call of the engine, whose exceptions pass through. *)
Definition on_engine {A} (m : AE A) : HA A := λ c,
  match m (at_engine c) with
  | (Ok d, e) => (Ok d, set_engine e c)
  | (Err x, e) => (Err (EngineRaised x), set_engine e c)
  end.

(** [run] *)
Definition run_action (action : Action) (schedule : ScheduleCapability) (now : datetime) : HA AuthorizationDecision :=
  require_active now;;
  on_engine (authorize ed_verify action now None (Some schedule)).

(** [schedule_followup] *)
Definition schedule_followup (followup_id : string) (run_at now : datetime) : HA Followup :=
  require_active now;;
  c ← read;
  check (negb (is_blank followup_id || dmem followup_id (at_followups c)))
    (AutonomyDenied "followup identity is empty or duplicated");;
  check (negb ((run_at <=? now) || (at_maximum_horizon c <? run_at - now)))
    (AutonomyDenied "followup escapes the allowed horizon");;
  check (Z.of_nat (length (at_followups c)) <? at_maximum_followups c)
    (AutonomyDenied "self-scheduled followup limit reached");;
  let followup := mkFollowup followup_id run_at in
  modify (set_followups (dset followup_id followup (at_followups c)));;
  mret followup.

(** ** What high autonomy guarantees *)

Inductive autonomy_step : Autonomy → Autonomy → Prop :=
  | step_activate p now c : autonomy_step c (final (activate p now c))
  | step_anomaly r c : autonomy_step c (final (record_anomaly r c))
  | step_run a s now c : autonomy_step c (final (run_action a s now c))
  | step_followup i t now c : autonomy_step c (final (schedule_followup i t now c)).

Definition autonomy_reachable (c : Autonomy) : Prop :=
  ∃ engine mf mh c0, make_autonomy engine mf mh = Ok c0 ∧ rtc autonomy_step c0 c.

Record autonomy_inv (c : Autonomy) : Prop := {
  hi_active : ∀ p, at_activation c = Some p → activation_verifier p = true ∧ at_anomalies c = [];
  hi_followups : Z.of_nat (length (at_followups c)) ≤ at_maximum_followups c }.

Lemma activate_inv p now c : autonomy_inv c → autonomy_inv (final (activate p now c)).
Proof.
  intros Hc. unfold activate, check, read, modify. unfold mbind, st_bind. cbn. destruct (negb _); [|done]. cbn.
  destruct (activation_verifier p) eqn:Hv; [|done]. cbn. destruct (match at_activation c with Some _ => _ | None => _ end); [|done].
  destruct Hc. split; cbn; [|done]. by intros q [= <-].
Qed.

Lemma run_action_cases a s now c :
  (∃ msg, run_action a s now c = (Err (AutonomyDenied msg), c)) ∨
  ∃ p, active_at now c = Some p ∧
    match authorize ed_verify a now None (Some s) (at_engine c) with
    | (Ok d, e) => run_action a s now c = (Ok d, set_engine e c)
    | (Err x, e) => run_action a s now c = (Err (EngineRaised x), set_engine e c)
    end.
Proof.
  unfold run_action, require_active, on_engine, read, some_or, require_some. unfold mbind, st_bind. cbn.
  destruct (active_at now c) as [p|]; [right|left; eauto]. exists p. split; [done|].
  by destruct (authorize _ _ _ _ _ _) as [[d|x] e].
Qed.

Lemma schedule_followup_cases i t now c :
  (∃ e, schedule_followup i t now c = (Err e, c)) ∨
  (∃ p, active_at now c = Some p) ∧ dget i (at_followups c) = None ∧ now < t ≤ now + at_maximum_horizon c ∧
  Z.of_nat (length (at_followups c)) < at_maximum_followups c ∧
  schedule_followup i t now c = (Ok (mkFollowup i t), set_followups (dset i (mkFollowup i t) (at_followups c)) c).
Proof.
  unfold schedule_followup, require_active, read, some_or, require_some, check, modify, dmem. unfold mbind, st_bind. cbn.
  destruct (active_at now c) as [p|] eqn:Hp; [|left; eauto]. cbn.
  destruct (is_blank i); [left; eauto|]. cbn. destruct (dget i (at_followups c)); [left; eauto|]. cbn.
  destruct ((t <=? now) || _) eqn:Ht; [left; eauto|]. cbn. destruct (_ <? at_maximum_followups c) eqn:Hm; [|left; eauto].
  right. split_and!; eauto; lia.
Qed.

Lemma autonomy_step_inv c c' : autonomy_step c c' → autonomy_inv c → autonomy_inv c'.
Proof.
  intros Hs Hc. destruct Hs as [p now c|r c|a s now c|i t now c].
  - by apply activate_inv.
  - unfold record_anomaly, check, modify. unfold mbind, st_bind. destruct (is_blank r); [done|]. destruct Hc. by split.
  - destruct (run_action_cases a s now c) as [[msg ->]|(p & _ & H)]; [done|].
    destruct (authorize _ _ _ _ _ _) as [[d|x] e]; rewrite H; destruct Hc; by split.
  - destruct (schedule_followup_cases i t now c) as [[e ->]|(_ & _ & _ & Hl & ->)]; [done|]. destruct Hc. split; [done|].
    cbn. pose proof (length_dset_le i (mkFollowup i t) (at_followups c)). lia.
Qed.

Lemma autonomy_reachable_inv c : autonomy_reachable c → autonomy_inv c.
Proof.
  intros (engine & mf & mh & c0 & H0 & Hr). assert (Hi : autonomy_inv c0).
  { unfold make_autonomy in H0. destruct ((mf <? 1) || _) eqn:H; [done|]. injection H0 as <-. split; cbn; [done|lia]. }
  revert Hi. clear H0. induction Hr as [|? ? ? Hs _ IH]; [done|]. intros Hi. by eapply IH, autonomy_step_inv.
Qed.

(** An action authorized without an approval is not a privileged one. *)
Lemma authorize_unapproved a s now e d e' :
  authorize ed_verify a now None (Some s) e = (Ok d, e') →
  privileged a = false ∧ schedule_covers ed_verify e a now s ∧ en_spent e' = dec_add (en_spent e) (act_cost a) ∧
  dec_ltb (en_ceiling e) (en_spent e') = false.
Proof.
  unfold authorize. assert (H := authorize_checks_cases ed_verify a now None (Some s) e).
  destruct (authorize_checks _ _ _ _ _ e) as [[[]|[]] e1]; intros; simplify_eq. destruct H as (-> & _ & Hs & Ha & Hb).
  destruct (charge_fields a None (Some s) e) as (_ & Hsp & _). split_and!; [|by apply Hs|done|simpl; congruence].
  destruct (privileged a); [|done]. by destruct (Ha eq_refl) as (ap & ? & _).
Qed.

Lemma active_at_spec now c p : active_at now c = Some p →
  at_activation c = Some p ∧ at_anomalies c = [] ∧ av_issued_at p ≤ now < av_expires_at p.
Proof.
  unfold active_at. destruct (at_activation c) as [q|]; [|done]. destruct (at_anomalies c); [|done].
  destruct ((now <? av_issued_at q) || _) eqn:H; [done|]. intros [= ->]. split_and!; [done|done|lia|lia].
Qed.

(** High autonomy is bounded. In every reachable controller an action runs only inside the window of an activation
    whose proof verified, with no anomaly recorded since, is never protected or never-autonomous, is covered by its
    schedule and fits the budget; follow-ups are scheduled only while active, within the horizon, under a new identity,
    and never more than the limit. Recording an anomaly stops both until an activation is accepted. *)
Theorem autonomy_bounded c :
  autonomy_reachable c →
  (∀ a s now d c', run_action a s now c = (Ok d, c') →
     (∃ p, at_activation c = Some p ∧ activation_verifier p = true ∧ av_issued_at p ≤ now < av_expires_at p) ∧
     at_anomalies c = [] ∧ act_class a = AUTONOMOUS ∧ schedule_covers ed_verify (at_engine c) a now s ∧
     dec_ltb (en_ceiling (at_engine c)) (en_spent (at_engine c')) = false) ∧
  (∀ i t now f c', schedule_followup i t now c = (Ok f, c') →
     at_anomalies c = [] ∧ now < t ≤ now + at_maximum_horizon c ∧ dget i (at_followups c) = None ∧
     dget i (at_followups c') = Some f) ∧
  Z.of_nat (length (at_followups c)) ≤ at_maximum_followups c ∧
  (∀ reason c', record_anomaly reason c = (Ok (), c') →
     (∀ a s now, run_action a s now c' = (Err (AutonomyDenied "high autonomy is not active"), c')) ∧
     (∀ i t now, schedule_followup i t now c' = (Err (AutonomyDenied "high autonomy is not active"), c'))).
Proof.
  intros Hi%autonomy_reachable_inv. split_and!.
  - intros a s now d c' Hrun. destruct (run_action_cases a s now c) as [[msg H]|(p & Hp & H)]; [congruence|].
    apply active_at_spec in Hp as (Hp & Ha & Hw). destruct (hi_active _ Hi p Hp) as [Hv _].
    destruct (authorize _ _ _ _ _ _) as [[d'|x] e] eqn:He; [|congruence]. rewrite Hrun in H. injection H as <- ->.
    apply authorize_unapproved in He as (Hpr & Hs & _ & Hb). split_and!; [by exists p|done| |done|done].
    unfold privileged in Hpr. by case_bool_decide.
  - intros i t now f c' Hf. destruct (schedule_followup_cases i t now c) as [[e H]|((p & Hp) & Hd & Ht & _ & H)]; [congruence|].
    rewrite Hf in H. injection H as -> ->. apply active_at_spec in Hp as (_ & Ha & _). split_and!; [done|lia|lia|done|].
    cbn. apply dget_dset_eq.
  - apply Hi.
  - intros reason c'. unfold record_anomaly, check, modify. unfold mbind, st_bind. destruct (is_blank reason); [done|].
    intros [= <-]. done.
Qed.
End HighAutonomy.

(** ** On concrete inputs *)

Definition demo_proof (epoch : Z) : ActivationProof := mkActivation epoch 0 (days 1) "face-id".
Definition demo_verifier (p : ActivationProof) : bool := bool_decide (av_proof_digest p = "face-id").
Definition demo_schedule : ScheduleCapability :=
  mkSchedule "s1" ["briefing"] [] 0 (days 1) 3 "root" "k1".
Definition demo_action (k : ActionClass) : Action := mkAction "a1" "briefing" k [] (mkDec 1 0) [].
Definition demo_autonomy : Autonomy :=
  mkAutonomy (mkEngine (mkDec 20 0) dec_zero [] [("root", "k1")] ∅ []) 2 (days 2) None [] [].
Definition activated : Autonomy := final (activate demo_verifier (demo_proof 2) 5 demo_autonomy).

Lemma activated_reachable : autonomy_reachable demo_verifier toy_verify activated.
Proof.
  exists (mkEngine (mkDec 20 0) dec_zero [] [("root", "k1")] ∅ []), 2, (days 2), demo_autonomy.
  split; [reflexivity|]. apply rtc_once, (step_activate _ _ (demo_proof 2) 5).
Qed.

Lemma autonomy_bounded_witness :
  let r := run_action toy_verify (demo_action AUTONOMOUS) demo_schedule 7 activated in
  is_ok (outcome r) = true ∧ dec_ltb (mkDec 20 0) (en_spent (at_engine (final r))) = false ∧
  outcome (run_action toy_verify (demo_action PROTECTED) demo_schedule 7 activated) =
    Err (EngineRaised (AuthorizationDenied "literal action approval is required")).
Proof.
  intros r. split; [by vm_compute|]. split; [|by vm_compute].
  destruct (autonomy_bounded demo_verifier toy_verify activated activated_reachable) as (H & _).
  assert (E : ∃ d, r = (Ok d, final r)). { apply run_is_ok. by vm_compute. } destruct E as [d E].
  by destruct (H _ _ _ _ _ E) as (_ & _ & _ & _ & Hb).
Defined.

(** An anomaly forgets the activation and with it the epoch: the proof that was just revoked is accepted again, and
    clears the anomaly. *)
Example revoked_proof_reactivates :
  let revoked := final (record_anomaly "unexpected-protected-action" activated) in
  outcome (activate demo_verifier (demo_proof 2) 9 activated) = Err (AutonomyDenied "activation epoch must advance") ∧
  outcome (activate demo_verifier (demo_proof 2) 9 revoked) = Ok () ∧
  at_anomalies (final (activate demo_verifier (demo_proof 2) 9 revoked)) = [].
Proof. by vm_compute. Qed.
