(* ===== verification/PolicyKernel.v ===== *)
(** The policy kernel (src/olympus/governance/policy.py): signed policy releases and the
    one that is active.

    [VerifyKey(key).verify] and the approval callback are parameters. *)

From S2P Require Import Prelude PyDict PyTime Sha256 Json JsonParse PyParse NodeModels NodeScopes.
From Stdlib Require Import Ascii.

Open Scope Z_scope.

Inductive policy_exn := PolicyVerificationError (msg : string) | PolicyActivationDenied (msg : string) | PolicyValueError (msg : string).

Definition REQUIRED_POLICY_DOMAINS : list string := ["authorization"; "trust"; "approval"; "budget"; "root_broker"].

(** ** Policy bundles *)

Record PolicyBundle := mkPolicy {
  pb_release_id : string;
  pb_sequence : Z;
  pb_issued_at : datetime;
  pb_expires_at : datetime;
  pb_policies : dict string json }.

Definition is_mapping (v : json) : bool := match v with JObj _ => true | _ => false end.

(** [PolicyBundle.__post_init__]; the frozen copies of the policies have the same values *)
Definition make_policy (b : PolicyBundle) : result policy_exn PolicyBundle :=
  ensure (negb (is_blank (pb_release_id b))) (PolicyValueError "release_id must not be empty");;
  ensure (1 <=? pb_sequence b) (PolicyValueError "policy sequence must be positive");;
  ensure (pb_issued_at b <? pb_expires_at b) (PolicyValueError "policy release must expire after issuance");;
  ensure (keys_are REQUIRED_POLICY_DOMAINS (pb_policies b))
    (PolicyValueError "policy release must contain every governance domain exactly once");;
  Ok b.

(** [canonical_bytes] *)
Definition policy_body (b : PolicyBundle) : json :=
  JObj [("expires_at", JStr (isoformat (pb_expires_at b))); ("issued_at", JStr (isoformat (pb_issued_at b)));
        ("policies", JObj (pb_policies b)); ("release_id", JStr (pb_release_id b)); ("sequence", JInt (pb_sequence b))].
Definition policy_bytes (b : PolicyBundle) : string := dumps (policy_body b).

(** The [try] block of [from_canonical_bytes] *)
Definition parse_policy (payload : string) : option PolicyBundle :=
  value ← loads payload;
  match value with
  | JObj o =>
      match dget "policies" o with
      | Some (JObj policies) =>
          if forallb is_mapping (dvalues policies) then
            release ← dget "release_id" o; sequence ← dget "sequence" o ≫= py_int;
            issued ← dget "issued_at" o ≫= fromisoformat ∘ py_str;
            expires ← dget "expires_at" o ≫= fromisoformat ∘ py_str;
            match make_policy (mkPolicy (py_str release) sequence issued expires policies) with
            | Ok b => Some b | Err _ => None
            end
          else None
      | _ => None
      end
  | _ => None
  end.

(** [from_canonical_bytes] *)
Definition from_canonical_bytes (payload : string) : result policy_exn PolicyBundle :=
  bundle ← require_some (parse_policy payload) (PolicyVerificationError "policy payload is invalid");
  ensure (bool_decide (policy_bytes bundle = payload)) (PolicyVerificationError "policy payload is not canonical");;
  Ok bundle.

Record SignedPolicyRelease := mkRelease { sr_signer_id : string; sr_payload : string; sr_signature : string }.

(** [SignedPolicyRelease.__post_init__] *)
Definition make_release (r : SignedPolicyRelease) : result policy_exn SignedPolicyRelease :=
  ensure (negb (is_blank (sr_signer_id r) || is_empty (sr_payload r) || is_empty (sr_signature r)))
    (PolicyValueError "signed release fields must not be empty");; Ok r.

(** ** The kernel *)

Record Kernel := mkKernel { pk_keys : dict string string; pk_principal : string; pk_active : option PolicyBundle }.

(** [PolicyKernel.__init__] *)
Definition make_kernel (verification_keys : dict string string) (activation_principal : string) : result policy_exn Kernel :=
  ensure (negb (bool_decide (verification_keys = []) || is_blank activation_principal))
    (PolicyValueError "policy trust root and activation principal are required");;
  Ok (mkKernel verification_keys activation_principal None).

Section Kernel.
Context (ed_verify : string → string → string → bool) (approved : SignedPolicyRelease → bool).

(** [verify_and_activate] *)
Definition verify_and_activate (r : SignedPolicyRelease) (principal : string) (now : datetime) :
    St Kernel policy_exn PolicyBundle :=
  k ← read;
  check (bool_decide (principal = pk_principal k)) (PolicyActivationDenied "principal cannot activate policy releases");;
  check (approved r) (PolicyActivationDenied "Face ID policy activation approval is required");;
  key ← some_or (dget (sr_signer_id r) (pk_keys k)) (PolicyVerificationError "policy signer is not authorized");
  check (ed_verify key (sr_payload r) (sr_signature r)) (PolicyVerificationError "policy signature is invalid");;
  bundle ← liftR (from_canonical_bytes (sr_payload r));
  check (pb_issued_at bundle <=? now) (PolicyVerificationError "policy release is not active yet");;
  check (now <? pb_expires_at bundle) (PolicyVerificationError "policy release expired");;
  check (match pk_active k with Some b => pb_sequence b <? pb_sequence bundle | None => true end)
    (PolicyVerificationError "policy rollback or duplicate release denied");;
  modify (λ k, mkKernel (pk_keys k) (pk_principal k) (Some bundle));;
  mret bundle.
End Kernel.

(** ** What the kernel guarantees *)

Section KernelFacts.
Context (ed_verify : string → string → string → bool) (approved : SignedPolicyRelease → bool).

(** An attempt to activate: the release, who asks, and when. *)
Definition Attempt : Type := SignedPolicyRelease * string * datetime.

(** What an accepted release satisfied. *)
Record admissible_release (keys : dict string string) (principal : string) (a : Attempt) (b : PolicyBundle) : Prop := {
  ar_principal : a.1.2 = principal;
  ar_approved : approved a.1.1 = true;
  ar_signed : ∃ key, dget (sr_signer_id a.1.1) keys = Some key ∧ ed_verify key (sr_payload a.1.1) (sr_signature a.1.1) = true;
  ar_payload : sr_payload a.1.1 = policy_bytes b;
  ar_valid : make_policy b = Ok b;
  ar_window : pb_issued_at b ≤ a.2 < pb_expires_at b }.

Lemma make_policy_id b b' : make_policy b = Ok b' → b' = b ∧ make_policy b = Ok b.
Proof.
  unfold make_policy, mbind, result_bind.
  repeat (match goal with |- context [ensure ?x _] => destruct (ensure x _); [|done] end). by intros [= <-].
Qed.

Lemma make_policy_facts b b' :
  make_policy b = Ok b' → 1 ≤ pb_sequence b ∧ ∀ d, d ∈ REQUIRED_POLICY_DOMAINS ↔ d ∈ dkeys (pb_policies b).
Proof.
  unfold make_policy. intros (? & _ & H)%bind_Ok. apply bind_Ok in H as (? & H1%ensure_Ok & H).
  apply bind_Ok in H as (? & _ & H). apply bind_Ok in H as (? & H2%ensure_Ok & _). rewrite keys_are_spec in H2.
  split; [lia|]. intros d. by rewrite H2.
Qed.

Lemma from_canonical_spec payload b : from_canonical_bytes payload = Ok b → payload = policy_bytes b ∧ make_policy b = Ok b.
Proof.
  unfold from_canonical_bytes. intros (b0 & Hb & H)%bind_Ok. apply bind_Ok in H as (? & He%ensure_Ok & [= ->]).
  apply bool_decide_eq_true in He. split; [done|]. destruct (parse_policy payload) as [b1|] eqn:Hp; [|done]. injection Hb as ->.
  unfold parse_policy in Hp. apply bind_Some in Hp as (v & _ & Hp). destruct v; try done.
  destruct (dget "policies" o) as [[]|]; try done. destruct (forallb _ _); [|done].
  apply bind_Some in Hp as (? & _ & Hp). apply bind_Some in Hp as (? & _ & Hp). apply bind_Some in Hp as (? & _ & Hp).
  apply bind_Some in Hp as (? & _ & Hp). destruct (make_policy _) as [b2|] eqn:Hm; [|done]. injection Hp as ->.
  pose proof (make_policy_id _ _ Hm) as [-> ?]. done.
Qed.

(** The policies in canonical order. *)
Definition norm_policies (ps : dict string json) : dict string json := sort_keys (map (λ kv, (kv.1, jnorm kv.2)) ps).
Definition norm_bundle (b : PolicyBundle) : PolicyBundle :=
  mkPolicy (pb_release_id b) (pb_sequence b) (pb_issued_at b) (pb_expires_at b) (norm_policies (pb_policies b)).

Lemma norm_policies_perm ps : norm_policies ps ≡ₚ map (λ kv, (kv.1, jnorm kv.2)) ps.
Proof. apply sort_by_Permutation. Qed.

Lemma norm_policies_mappings ps : forallb is_mapping (dvalues ps) = true → forallb is_mapping (dvalues (norm_policies ps)) = true.
Proof.
  rewrite !forallb_forall. intros Hmap x Hx. apply list_elem_of_In in Hx. unfold dvalues in Hx. rewrite norm_policies_perm in Hx.
  apply list_elem_of_In in Hx. change (In x (map snd (map (λ kv, (kv.1, jnorm kv.2)) ps))) in Hx. rewrite map_map in Hx.
  apply in_map_iff in Hx as (kv & <- & Hin). cbn.
  assert (Hv : is_mapping kv.2 = true) by (apply Hmap, (in_map snd _ kv), Hin). by destruct kv.2.
Qed.

Lemma norm_bundle_valid b : make_policy b = Ok b → make_policy (norm_bundle b) = Ok (norm_bundle b).
Proof.
  intros Hm. assert (Hkeys : keys_are REQUIRED_POLICY_DOMAINS (norm_policies (pb_policies b)) = true).
  { destruct (make_policy_facts _ _ Hm) as [_ Hd]. apply keys_are_spec. intros k. rewrite Hd. unfold dkeys.
    rewrite norm_policies_perm. by rewrite <- list_fmap_compose. }
  unfold make_policy in Hm |- *. cbn [norm_bundle pb_release_id pb_sequence pb_issued_at pb_expires_at pb_policies].
  rewrite Hkeys. repeat (apply bind_Ok in Hm as ([] & -> & Hm)). done.
Qed.

Definition norm_items (b : PolicyBundle) : list (string * json) :=
  [("expires_at", JStr (isoformat (pb_expires_at b))); ("issued_at", JStr (isoformat (pb_issued_at b)));
   ("policies", JObj (norm_policies (pb_policies b))); ("release_id", JStr (pb_release_id b)); ("sequence", JInt (pb_sequence b))].

(** The five keys are already in order. *)
Lemma sort_five {A} (e i p r q : A) :
  sort_keys [("expires_at", e); ("issued_at", i); ("policies", p); ("release_id", r); ("sequence", q)] =
  [("expires_at", e); ("issued_at", i); ("policies", p); ("release_id", r); ("sequence", q)].
Proof. reflexivity. Qed.

Lemma jnorm_policy_body b : jnorm (policy_body b) = JObj (norm_items b).
Proof. unfold policy_body. cbn [jnorm map fst snd]. by rewrite sort_five. Qed.

Lemma policy_bytes_norm b : policy_bytes (norm_bundle b) = policy_bytes b.
Proof.
  unfold policy_bytes. rewrite <- (dumps_norm (policy_body (norm_bundle b))), <- (dumps_norm (policy_body b)).
  rewrite !jnorm_policy_body. unfold norm_items. cbn [norm_bundle pb_release_id pb_sequence pb_issued_at pb_expires_at pb_policies].
  assert (E : norm_policies (norm_policies (pb_policies b)) = norm_policies (pb_policies b)); [|by rewrite E].
  pose proof (jnorm_idem (JObj (pb_policies b))) as H. cbn [jnorm] in H. by injection H.
Qed.

(** The canonical bytes of a valid bundle parse back to it, with its policies in canonical order. *)
Lemma policy_roundtrip b :
  make_policy b = Ok b → json_wf (JObj (pb_policies b)) → forallb is_mapping (dvalues (pb_policies b)) = true →
  representable (pb_issued_at b) → representable (pb_expires_at b) →
  from_canonical_bytes (policy_bytes b) = Ok (norm_bundle b).
Proof.
  intros Hm Hwf Hmap Hi He.
  assert (Hl : loads (policy_bytes b) = Some (JObj (norm_items b))).
  { unfold policy_bytes. rewrite loads_dumps, jnorm_policy_body; [done|]. unfold policy_body. cbn [json_wf foldr snd].
    split; [cbn; repeat constructor; set_solver|]. cbn [json_wf] in *. repeat split; try done; apply Hwf. }
  unfold from_canonical_bytes, parse_policy. rewrite Hl. cbn [mbind option_bind].
  assert (Hget : dget "policies" (norm_items b) = Some (JObj (norm_policies (pb_policies b))) ∧
    dget "release_id" (norm_items b) = Some (JStr (pb_release_id b)) ∧ dget "sequence" (norm_items b) = Some (JInt (pb_sequence b)) ∧
    dget "issued_at" (norm_items b) = Some (JStr (isoformat (pb_issued_at b))) ∧
    dget "expires_at" (norm_items b) = Some (JStr (isoformat (pb_expires_at b)))) by (split_and!; reflexivity).
  destruct Hget as (-> & -> & -> & -> & ->). rewrite norm_policies_mappings by done. cbn [mbind option_bind compose py_str py_int].
  rewrite !fromisoformat_isoformat by done. cbn [mbind option_bind]. fold (norm_bundle b). rewrite norm_bundle_valid by done.
  unfold mbind, result_bind. cbn [require_some]. rewrite bool_decide_eq_true_2 by apply policy_bytes_norm. done.
Qed.

Lemma verify_and_activate_cases r principal now k :
  match verify_and_activate ed_verify approved r principal now k with
  | (Err _, k') => k' = k
  | (Ok b, k') =>
      k' = mkKernel (pk_keys k) (pk_principal k) (Some b) ∧ admissible_release (pk_keys k) (pk_principal k) (r, principal, now) b ∧
      ∀ b0, pk_active k = Some b0 → pb_sequence b0 < pb_sequence b
  end.
Proof.
  unfold verify_and_activate, read, check, some_or, liftR, modify, require_some. unfold mbind, st_bind, mret, st_ret. cbn beta iota.
  case_bool_decide as Hpr; [|done]. cbn [ensure]. destruct (approved r) eqn:Ha; [|done]. cbn [ensure].
  destruct (dget (sr_signer_id r) (pk_keys k)) as [key|] eqn:Hk; [|done].
  destruct (ed_verify key _ _) eqn:Hv; [|done]. cbn [ensure].
  destruct (from_canonical_bytes (sr_payload r)) as [b|] eqn:Hb; [|done]. apply from_canonical_spec in Hb as [Hb Hm].
  destruct (pb_issued_at b <=? now) eqn:H1; [|done]. cbn [ensure]. destruct (now <? pb_expires_at b) eqn:H2; [|done]. cbn [ensure].
  destruct (pk_active k) as [b0|].
  - destruct (pb_sequence b0 <? pb_sequence b) eqn:H3; [|done]. split_and!; [done| |intros ? [= <-]; lia].
    split; cbn; [done|done|eauto|done|done|lia].
  - split_and!; [done| |done]. split; cbn; [done|done|eauto|done|done|lia].
Qed.

(** Attempts made in order; the releases that were activated, with their bundles. *)
Fixpoint activate_all (attempts : list Attempt) (k : Kernel) : list (Attempt * PolicyBundle) * Kernel :=
  match attempts with
  | [] => ([], k)
  | a :: rest =>
      match verify_and_activate ed_verify approved a.1.1 a.1.2 a.2 k with
      | (Ok b, k') => let p := activate_all rest k' in ((a, b) :: p.1, p.2)
      | (Err _, k') => activate_all rest k'
      end
  end.

Lemma activate_all_spec attempts k :
  let p := activate_all attempts k in
  pk_keys p.2 = pk_keys k ∧ pk_principal p.2 = pk_principal k ∧
  pk_active p.2 = match last p.1 with Some ab => Some ab.2 | None => pk_active k end ∧
  Forall (λ ab, ab.1 ∈ attempts ∧ admissible_release (pk_keys k) (pk_principal k) ab.1 ab.2) p.1 ∧
  StronglySorted Z.lt (map (λ ab, pb_sequence ab.2) p.1) ∧
  (∀ b0, pk_active k = Some b0 → Forall (λ ab, pb_sequence b0 < pb_sequence ab.2) p.1).
Proof.
  revert k. induction attempts as [|[[r pr] now] rest IH]; intros k; cbn [activate_all].
  { repeat split; try done; constructor. }
  pose proof (verify_and_activate_cases r pr now k) as H. cbn [fst snd].
  destruct (verify_and_activate _ _ r pr now k) as [[b|e] k'].
  - destruct H as (-> & Hadm & Hseq). cbn [fst snd]. specialize (IH (mkKernel (pk_keys k) (pk_principal k) (Some b))).
    cbn [pk_keys pk_principal pk_active] in IH. destruct (activate_all rest _) as [done_ k2].
    destruct IH as (IH1 & IH2 & IH3 & IH4 & IH5 & IH6). cbn [fst snd] in *. specialize (IH6 b eq_refl). split_and!; try done.
    + rewrite IH3. rewrite last_cons. by destruct (last done_).
    + constructor; [split; [set_solver|done]|]. eapply Forall_impl; [exact IH4|]. intros ? [? ?]. split; [set_solver|done].
    + cbn. constructor; [done|]. rewrite Forall_map. exact IH6.
    + intros b0 Hb0. specialize (Hseq b0 Hb0). constructor; [done|]. eapply Forall_impl; [exact IH6|]. cbn. lia.
  - subst k'. specialize (IH k). destruct (activate_all rest k) as [done_ k2]. destruct IH as (IH1 & IH2 & IH3 & IH4 & IH5 & IH6).
    cbn in *. split_and!; try done. eapply Forall_impl; [exact IH4|]. intros ? [? ?]. split; [set_solver|done].
Qed.

(** C24. No policy rollback. Over any sequence of activation attempts on a new kernel, the active release is the last one
    accepted and the accepted releases have strictly increasing sequence numbers; each was asked for by the activation
    principal, approved, signed by a trusted key over exactly the canonical bytes of the bundle that became active, within
    its validity, and holds every governance domain. *)
Theorem policy_no_rollback keys principal k attempts :
  make_kernel keys principal = Ok k →
  let p := activate_all attempts k in
  pk_active p.2 = snd <$> last p.1 ∧
  StronglySorted Z.lt (map (λ ab, pb_sequence ab.2) p.1) ∧
  ∀ a b, (a, b) ∈ p.1 → a ∈ attempts ∧ admissible_release keys principal a b ∧
    1 ≤ pb_sequence b ∧ ∀ d, d ∈ REQUIRED_POLICY_DOMAINS ↔ d ∈ dkeys (pb_policies b).
Proof.
  unfold make_kernel. destruct (negb _); [|done]. intros [= <-]. pose proof (activate_all_spec attempts (mkKernel keys principal None)) as H.
  destruct H as (_ & _ & Hact & Hall & Hs & _). cbn zeta. split_and!; [|done|].
  - rewrite Hact. by destruct (last _).
  - intros a b Hin. rewrite Forall_forall in Hall. destruct (Hall (a, b) Hin) as [Ha Hadm]. split_and!; [done|done|..];
      apply (make_policy_facts b b), Hadm.
Qed.
End KernelFacts.

(** ** On concrete inputs *)

Definition demo_policies : dict string json := map (λ d, (d, JObj [])) (sort_keys (map (λ d, (d, ())) REQUIRED_POLICY_DOMAINS)).*1.
Definition demo_bundle (n : Z) : PolicyBundle := mkPolicy "r" n 0 (days 30) demo_policies.
(** A signature is the key and the payload. *)
Definition demo_check (key m s : string) : bool := bool_decide (s = key +:+ m).
Definition demo_release (n : Z) : SignedPolicyRelease :=
  mkRelease "root" (policy_bytes (demo_bundle n)) ("k" +:+ policy_bytes (demo_bundle n)).
Definition demo_kernel : Kernel := mkKernel [("root", "k")] "release-service" None.
Definition demo_attempts : list Attempt :=
  [(demo_release 2, "release-service", 5); (demo_release 1, "release-service", 6); (demo_release 3, "commander", 7);
   (demo_release 4, "release-service", 8)].

(** The second release comes too late, and the third is asked for by another principal. *)
Lemma policy_no_rollback_witness :
  let p := activate_all demo_check (λ _, true) demo_attempts demo_kernel in
  map (λ ab, pb_sequence ab.2) p.1 = [2; 4] ∧ pk_active p.2 = snd <$> last p.1 ∧
  StronglySorted Z.lt (map (λ ab, pb_sequence ab.2) p.1).
Proof.
  intros p. split; [by vm_compute|].
  destruct (policy_no_rollback demo_check (λ _, true) [("root", "k")] "release-service" demo_kernel demo_attempts eq_refl)
    as (H1 & H2 & _). exact (conj H1 H2).
Defined.
