(* ===== verification/AuditSigning.v ===== *)
(** Key-backed authenticity of exported audit segments
    (src/olympus/audit_export/signing.py) and the pinned trust store
    (src/olympus/audit_export/trust.py).

    The signer, the DER loader and Ed25519 verification are parameters. An exception
    keeps what the code branches on; of its message only the class is kept. *)

From S2P Require Import Prelude PyDict PyTime Sha256 Json JsonParse PyParse NodeScopes AgentFiles NodeAgent.
From Stdlib Require Import Ascii.

Open Scope Z_scope.

Inductive signature_exn : Type :=
  | SignatureError | UnknownSigner | UntrustedSigner | ObjectIdentityMismatch | SegmentDigestMismatch
  | ChainLinkMismatch | InvalidSignature | MalformedAttestation
  | TrustStoreError
  (** what is neither: an undecodable sidecar, a key that does not load, an unreadable revocation time *)
  | UnicodeDecodeError | KeyLoadError | RevocationValueError | SigningFailed.

#[export] Instance signature_exn_eq : EqDecision signature_exn.
Proof. solve_decision. Defined.

(** Whether [except SignatureError] catches it. *)
Definition is_signature_error (e : signature_exn) : bool :=
  match e with
  | UnicodeDecodeError | KeyLoadError | RevocationValueError | SigningFailed | TrustStoreError => false
  | _ => true
  end.

Definition SIGNATURE_SCHEMA_VERSION : Z := 1.
Definition SIGNING_ALGORITHM : string := "ED25519_SHA_512".
Definition ATTESTATION_CONTEXT : string := "olympus.audit-export.segment-attestation.v1".
Definition MAX_STATEMENT_BYTES : nat := 4096.

(** [json.dumps(document, sort_keys=True, separators=..., ensure_ascii=False).encode("utf-8")] *)
Definition dump_bytes (j : json) : string := utf8 (dumps (EA := false) j).

(** ** Attestations *)

Record SegmentAttestation := mkAttestation {
  sa_schema_version : Z;
  sa_chain : string;
  sa_first_sequence : Z;
  sa_last_sequence : Z;
  sa_first_previous_hash : string;
  sa_last_event_hash : string;
  sa_segment_sha256 : string;
  sa_bucket : string;
  sa_object_key : string;
  sa_version_id : string;
  sa_retention_mode : string;
  sa_retention_until : string;
  sa_signer_key_id : string;
  sa_signed_at : string }.

(** [to_mapping] *)
Definition attestation_mapping (a : SegmentAttestation) : dict string json :=
  [("schema_version", JInt (sa_schema_version a)); ("chain", JStr (sa_chain a));
   ("first_sequence", JInt (sa_first_sequence a)); ("last_sequence", JInt (sa_last_sequence a));
   ("first_previous_hash", JStr (sa_first_previous_hash a)); ("last_event_hash", JStr (sa_last_event_hash a));
   ("segment_sha256", JStr (sa_segment_sha256 a)); ("bucket", JStr (sa_bucket a));
   ("object_key", JStr (sa_object_key a)); ("version_id", JStr (sa_version_id a));
   ("retention_mode", JStr (sa_retention_mode a)); ("retention_until", JStr (sa_retention_until a));
   ("signer_key_id", JStr (sa_signer_key_id a)); ("signed_at", JStr (sa_signed_at a))].

Definition newline : string := String (ascii_of_nat 10) EmptyString.

(** [statement] *)
Definition statement (a : SegmentAttestation) : result signature_exn string :=
  let s := ATTESTATION_CONTEXT +:+ newline +:+ dump_bytes (JObj (attestation_mapping a)) in
  ensure (String.length s <=? MAX_STATEMENT_BYTES)%nat MalformedAttestation;; Ok s.

Definition attestation_fields : list string :=
  ["schema_version"; "chain"; "first_sequence"; "last_sequence"; "first_previous_hash"; "last_event_hash"; "segment_sha256";
   "bucket"; "object_key"; "version_id"; "retention_mode"; "retention_until"; "signer_key_id"; "signed_at"].

(** [from_mapping] *)
Definition attestation_of (document : dict string json) : result signature_exn SegmentAttestation :=
  ensure (keys_are attestation_fields document) MalformedAttestation;;
  let str k := py_str (default JNull (dget k document)) in
  let int k := require_some (dget k document ≫= py_int) MalformedAttestation in
  version ← int "schema_version"; first ← int "first_sequence"; last ← int "last_sequence";
  let a := mkAttestation version (str "chain") first last (str "first_previous_hash") (str "last_event_hash")
             (str "segment_sha256") (str "bucket") (str "object_key") (str "version_id") (str "retention_mode")
             (str "retention_until") (str "signer_key_id") (str "signed_at") in
  ensure (sa_schema_version a =? SIGNATURE_SCHEMA_VERSION) MalformedAttestation;;
  Ok a.

Record SignedSegment := mkSigned { sg_attestation : SegmentAttestation; sg_signature : string }.

(** [SignedSegment.document] *)
Definition signed_document (s : SignedSegment) : string :=
  dump_bytes (JObj [("schema_version", JInt SIGNATURE_SCHEMA_VERSION); ("signing_algorithm", JStr SIGNING_ALGORITHM);
                    ("attestation", JObj (attestation_mapping (sg_attestation s)));
                    ("signature", JStr (standard_b64encode (sg_signature s)))]).

(** [SignedSegment.from_bytes] *)
Definition signed_of_bytes (raw : string) : result signature_exn SignedSegment :=
  text ← require_some (utf8_decode raw) UnicodeDecodeError;
  document ← require_some (loads text) MalformedAttestation;
  match document with
  | JObj o =>
      ensure (bool_decide (dget "signing_algorithm" o = Some (JStr SIGNING_ALGORITHM))) MalformedAttestation;;
      match dget "attestation" o with
      | Some (JObj body) =>
          signature ← require_some (dget "signature" o ≫= b64_strict ∘ py_str) MalformedAttestation;
          ensure (String.length signature =? 64)%nat MalformedAttestation;;
          a ← attestation_of body;
          Ok (mkSigned a signature)
      | _ => Err MalformedAttestation
      end
  | _ => Err MalformedAttestation
  end.

(** [signature_key_for] *)
Definition signature_key_for (object_key : string) : string := object_key +:+ ".sig.json".

(** ** The trust store *)

Record TrustedSigner := mkTrusted {
  ts_key_id : string;
  ts_public_key_der : string;
  ts_not_before : datetime;
  ts_not_after : datetime;
  ts_revoked_at : option datetime }.

(** [TrustedSigner.__post_init__] *)
Definition make_trusted (s : TrustedSigner) : result signature_exn TrustedSigner :=
  ensure (ts_not_before s <? ts_not_after s) TrustStoreError;; Ok s.

(** [assert_trusted_at] *)
Definition assert_trusted_at (s : TrustedSigner) (moment : datetime) : result signature_exn () :=
  ensure (ts_not_before s <=? moment) UntrustedSigner;;
  ensure (moment <=? ts_not_after s) UntrustedSigner;;
  ensure (match ts_revoked_at s with Some r => moment <? r | None => true end) UntrustedSigner.

Definition Keyring : Type := dict string TrustedSigner.

(** [Keyring.resolve] *)
Definition resolve_signer (k : Keyring) (key_id : string) : result signature_exn TrustedSigner :=
  require_some (dget key_id k) UnknownSigner.

(** [_signer_from_entry] *)
Definition signer_from_entry (entry : json) : result signature_exn TrustedSigner :=
  match entry with
  | JObj e =>
      key_id ← require_some (py_str <$> dget "key_id" e) TrustStoreError;
      der ← require_some (dget "public_key_der_b64" e ≫= b64_strict ∘ py_str) TrustStoreError;
      not_before ← require_some (dget "not_before" e ≫= fromisoformat ∘ py_str) TrustStoreError;
      not_after ← require_some (dget "not_after" e ≫= fromisoformat ∘ py_str) TrustStoreError;
      ensure (match dget "public_key_der_sha256" e with
              | None | Some JNull => true
              | Some declared => bool_decide (sha256_hex der = lower (py_str declared))
              end) TrustStoreError;;
      revoked ← (match dget "revoked_at" e with
                 | Some v => if truthy v then Some <$> require_some (fromisoformat (py_str v)) RevocationValueError else Ok None
                 | None => Ok None
                 end);
      make_trusted (mkTrusted key_id der not_before not_after revoked)
  | _ => Err TrustStoreError
  end.

Fixpoint signers_of (entries : list json) (signers : Keyring) : result signature_exn Keyring :=
  match entries with
  | [] => Ok signers
  | entry :: entries' =>
      s ← signer_from_entry entry;
      ensure (negb (dmem (ts_key_id s) signers)) TrustStoreError;;
      signers_of entries' (dset (ts_key_id s) s signers)
  end.

(** [v == 1], which [True] satisfies too *)
Definition equals_one (v : option json) : bool :=
  match v with Some (JInt 1) | Some (JBool true) => true | _ => false end.

(** [keyring_from_mapping] *)
Definition keyring_from_mapping (document : json) : result signature_exn Keyring :=
  match document with
  | JObj o =>
      ensure (equals_one (dget "schema_version" o)) TrustStoreError;;
      match dget "signers" o with
      | Some (JList ((_ :: _) as entries)) => signers_of entries []
      | _ => Err TrustStoreError
      end
  | _ => Err TrustStoreError
  end.

(** ** Verification *)

(** What [load_der_public_key] gives. *)
Inductive loaded_key := NotLoadable | OtherKey | Ed25519Key (key : string).

Record StoredSegmentEvidence := mkEvidence {
  ev_object_key : string;
  ev_version_id : string;
  ev_segment_body : string;
  ev_sidecar_body : string }.

Record ChainVerification := mkChainVerification {
  cv_chain : string;
  cv_segments : nat;
  cv_events : Z;
  cv_last_sequence : Z;
  cv_authentic : bool;
  cv_problems : list (string * signature_exn) }.

Definition matches {A} `{EqDecision A} (expected : option A) (actual : A) : bool :=
  match expected with Some e => bool_decide (actual = e) | None => true end.

Section Verification.
Context (load_der : string → loaded_key) (ed_verify : string → string → string → bool).

(** [verify_signed_segment] *)
Definition verify_signed_segment (segment_body sidecar_body : string) (keyring : Keyring) (bucket object_key version_id : string)
    (expected_previous_hash : option string) (expected_first_sequence : option Z) (expected_chain : option string) :
    result signature_exn SegmentAttestation :=
  signed ← signed_of_bytes sidecar_body;
  let a := sg_attestation signed in
  ensure (bool_decide (sa_bucket a = bucket)) ObjectIdentityMismatch;;
  ensure (bool_decide (sa_object_key a = object_key)) ObjectIdentityMismatch;;
  ensure (bool_decide (sa_version_id a = version_id)) ObjectIdentityMismatch;;
  ensure (bool_decide (sha256_hex segment_body = sa_segment_sha256 a)) SegmentDigestMismatch;;
  ensure (matches expected_chain (sa_chain a)) ChainLinkMismatch;;
  ensure (matches expected_first_sequence (sa_first_sequence a)) ChainLinkMismatch;;
  ensure (matches expected_previous_hash (sa_first_previous_hash a)) ChainLinkMismatch;;
  signer ← resolve_signer keyring (sa_signer_key_id a);
  moment ← require_some (fromisoformat (sa_signed_at a)) MalformedAttestation;
  assert_trusted_at signer moment;;
  match load_der (ts_public_key_der signer) with
  | NotLoadable => Err KeyLoadError
  | OtherKey => Err UntrustedSigner
  | Ed25519Key key =>
      m ← statement a;
      ensure (ed_verify key m (sg_signature signed)) InvalidSignature;;
      Ok a
  end.

(** The loop of [verify_exported_chain] *)
Fixpoint verify_evidence (items : list StoredSegmentEvidence) (keyring : Keyring) (bucket chain : string)
    (expected_sequence : Z) (expected_previous : string) (events last_sequence : Z) :
    result signature_exn (Z * Z * list (string * signature_exn)) :=
  match items with
  | [] => Ok (events, last_sequence, [])
  | item :: items' =>
      match verify_signed_segment (ev_segment_body item) (ev_sidecar_body item) keyring bucket (ev_object_key item)
              (ev_version_id item) (Some expected_previous) (Some expected_sequence) (Some chain) with
      | Ok a =>
          verify_evidence items' keyring bucket chain (sa_last_sequence a + 1) (sa_last_event_hash a)
            (events + (sa_last_sequence a - sa_first_sequence a + 1)) (sa_last_sequence a)
      | Err e => if is_signature_error e then Ok (events, last_sequence, [(ev_object_key item, e)]) else Err e
      end
  end.

(** [verify_exported_chain] *)
Definition verify_exported_chain (evidence : list StoredSegmentEvidence) (keyring : Keyring) (bucket chain genesis_hash : string) :
    result signature_exn ChainVerification :=
  v ← verify_evidence evidence keyring bucket chain 1 genesis_hash 0 0;
  let '(events, last_sequence, problems) := v in
  Ok (mkChainVerification chain (length evidence) events last_sequence (bool_decide (problems = [])) problems).
End Verification.

(** ** Signing *)

(** [build_attestation] *)
Definition build_attestation (chain : string) (first last : Z) (first_previous_hash last_event_hash segment_body bucket object_key
    version_id retention_mode retention_until signer_key_id : string) (signed_at : datetime) : SegmentAttestation :=
  mkAttestation SIGNATURE_SCHEMA_VERSION chain first last first_previous_hash last_event_hash (sha256_hex segment_body)
    bucket object_key version_id retention_mode retention_until signer_key_id (isoformat signed_at).

(** A [SegmentSigner]: its key id, and what signing a statement gives or raises. *)
Record Signer := mkSigner { si_key_id : string; si_sign : string → result signature_exn string }.

(** [sign_segment] *)
Definition sign_segment (a : SegmentAttestation) (signer : Signer) : result signature_exn SignedSegment :=
  ensure (bool_decide (sa_signer_key_id a = si_key_id signer)) SignatureError;;
  m ← statement a;
  signature ← si_sign signer m;
  Ok (mkSigned a signature).

(** * What the signatures of exported segments establish *)

From S2P Require Import NodeCrypto.
From S2P Require Import OperationsControl.

(** ** A statement is one attestation's *)

(** The attestation's keys in canonical order. *)
Definition ordered_mapping (a : SegmentAttestation) : dict string json :=
  [("bucket", JStr (sa_bucket a)); ("chain", JStr (sa_chain a)); ("first_previous_hash", JStr (sa_first_previous_hash a));
   ("first_sequence", JInt (sa_first_sequence a)); ("last_event_hash", JStr (sa_last_event_hash a));
   ("last_sequence", JInt (sa_last_sequence a)); ("object_key", JStr (sa_object_key a));
   ("retention_mode", JStr (sa_retention_mode a)); ("retention_until", JStr (sa_retention_until a));
   ("schema_version", JInt (sa_schema_version a)); ("segment_sha256", JStr (sa_segment_sha256 a));
   ("signed_at", JStr (sa_signed_at a)); ("signer_key_id", JStr (sa_signer_key_id a)); ("version_id", JStr (sa_version_id a))].

Lemma jnorm_attestation a : jnorm (JObj (attestation_mapping a)) = JObj (ordered_mapping a).
Proof. reflexivity. Qed.

Lemma ordered_inj a b : ordered_mapping a = ordered_mapping b → a = b.
Proof. destruct a, b. cbn. by intros [=]; subst. Qed.

Lemma dump_bytes_inj a b : dump_bytes a = dump_bytes b → jnorm a = jnorm b.
Proof. intros H%utf8_inj. by apply dumps_inj_norm in H. Qed.

Lemma append_inj_l (p s t : string) : p +:+ s = p +:+ t → s = t.
Proof. induction p as [|c p IH]; [done|]. cbn. intros [= H]. auto. Qed.

Lemma statement_Ok a m : statement a = Ok m → m = ATTESTATION_CONTEXT +:+ newline +:+ dump_bytes (JObj (attestation_mapping a)).
Proof.
  unfold statement. set (t := ATTESTATION_CONTEXT +:+ _). clearbody t. destruct (ensure _ _); [|done]. cbn. congruence.
Qed.

(** A signature over an attestation fits no other attestation. *)
Lemma statement_binds a b m : statement a = Ok m → statement b = Ok m → a = b.
Proof.
  intros ->%statement_Ok H%statement_Ok. apply append_inj_l, append_inj_l, dump_bytes_inj in H.
  rewrite !jnorm_attestation in H. apply ordered_inj. congruence.
Qed.

(** ** Soundness *)

Section Sound.
Context (load_der : string → loaded_key) (ed_verify : string → string → string → bool).

(** What an accepted segment establishes: a pinned key signed, while it was trusted, a statement that names this
    object and these bytes. *)
Record attested (keyring : Keyring) (bucket chain : string) (item : StoredSegmentEvidence) (a : SegmentAttestation) : Prop := {
  at_bucket : sa_bucket a = bucket;
  at_key : sa_object_key a = ev_object_key item;
  at_version : sa_version_id a = ev_version_id item;
  at_digest : sha256_hex (ev_segment_body item) = sa_segment_sha256 a;
  at_chain : sa_chain a = chain;
  at_signed : ∃ signer key m signature moment,
    dget (sa_signer_key_id a) keyring = Some signer ∧ load_der (ts_public_key_der signer) = Ed25519Key key ∧
    statement a = Ok m ∧ ed_verify key m signature = true ∧ fromisoformat (sa_signed_at a) = Some moment ∧
    ts_not_before signer ≤ moment ≤ ts_not_after signer ∧ (∀ r, ts_revoked_at signer = Some r → moment < r) }.

(** Segments that follow on from sequence [i] and hash [h]. *)
Fixpoint contiguous (i : Z) (h : string) (l : list SegmentAttestation) : Prop :=
  match l with
  | [] => True
  | a :: l' => sa_first_sequence a = i ∧ sa_first_previous_hash a = h ∧ contiguous (sa_last_sequence a + 1) (sa_last_event_hash a) l'
  end.

Lemma verify_signed_sound body sidecar keyring bucket key version prev first chain a :
  verify_signed_segment load_der ed_verify body sidecar keyring bucket key version (Some prev) (Some first) (Some chain) = Ok a →
  attested keyring bucket chain (mkEvidence key version body sidecar) a ∧ sa_first_sequence a = first ∧ sa_first_previous_hash a = prev.
Proof.
  unfold verify_signed_segment. intros (signed & _ & H)%bind_Ok. set (b := sg_attestation signed) in *.
  apply bind_Ok in H as (? & H1%ensure_Ok & H). apply bind_Ok in H as (? & H2%ensure_Ok & H).
  apply bind_Ok in H as (? & H3%ensure_Ok & H). apply bind_Ok in H as (? & H4%ensure_Ok & H).
  apply bind_Ok in H as (? & H5%ensure_Ok & H). apply bind_Ok in H as (? & H6%ensure_Ok & H).
  apply bind_Ok in H as (? & H7%ensure_Ok & H). apply bind_Ok in H as (signer & Hs & H).
  apply bind_Ok in H as (moment & Hm & H). apply bind_Ok in H as (? & Ht & H).
  destruct (load_der (ts_public_key_der signer)) as [| |pk] eqn:Hk; [done|done|].
  apply bind_Ok in H as (m & Hst & H). apply bind_Ok in H as (? & Hv%ensure_Ok & Ha). assert (a = b) as -> by congruence. clear Ha.
  unfold matches in *. rewrite !bool_decide_eq_true in *.
  unfold assert_trusted_at in Ht. apply bind_Ok in Ht as (? & T1%ensure_Ok & Ht). apply bind_Ok in Ht as (? & T2%ensure_Ok & T3%ensure_Ok).
  split_and!; [|done|done]. split; try done. exists signer, pk, m, (sg_signature signed), moment.
  unfold resolve_signer, require_some in Hs, Hm. split_and!; try done; try lia.
  - by destruct (dget _ keyring); simplify_eq.
  - by destruct (fromisoformat _); simplify_eq.
  - intros r Hr. rewrite Hr in T3. lia.
Qed.

Lemma verify_evidence_sound items keyring bucket chain i h n l0 :
  n = i - 1 → l0 = i - 1 →
  match verify_evidence load_der ed_verify items keyring bucket chain i h n l0 with
  | Ok (events, last', []) => ∃ atts, Forall2 (attested keyring bucket chain) items atts ∧ contiguous i h atts ∧
      events = last' ∧ last' = match last atts with Some a => sa_last_sequence a | None => l0 end
  | _ => True
  end.
Proof.
  revert i h n l0. induction items as [|item items IH]; intros i h n l0 Hn Hl; cbn [verify_evidence].
  { exists []. split_and!; [constructor|done|lia|done]. }
  destruct (verify_signed_segment _ _ _ _ _ _ _ _ _ _ _) as [a|e] eqn:Hv; [|by destruct (is_signature_error e)].
  apply verify_signed_sound in Hv as (Hat & Hf & Hp).
  specialize (IH (sa_last_sequence a + 1) (sa_last_event_hash a) (n + (sa_last_sequence a - sa_first_sequence a + 1)) (sa_last_sequence a)).
  destruct (verify_evidence _ _ items _ _ _ _ _ _ _) as [[[ev l'] [|p ps]]|]; try done.
  destruct IH as (atts & HF & Hc & -> & ->); [lia|lia|]. exists (a :: atts). split_and!; [|done|done|].
  - constructor; [|done]. destruct item. exact Hat.
  - rewrite last_cons. by destruct (last atts).
Qed.

(** An exported chain that verifies as authentic is one: each segment's bytes and object identity are those a
    pinned key attested to while it was trusted and before it was revoked, the attestations follow on from one another
    from sequence 1 and the genesis hash without a gap, a duplicate or a reordering, the count reported is the last
    sequence attested, and no attestation's signature fits another attestation. *)
Theorem authentic_chain_sound evidence keyring bucket chain genesis v :
  verify_exported_chain load_der ed_verify evidence keyring bucket chain genesis = Ok v → cv_authentic v = true →
  ∃ atts, Forall2 (attested keyring bucket chain) evidence atts ∧ contiguous 1 genesis atts ∧
    cv_events v = cv_last_sequence v ∧
    cv_last_sequence v = match last atts with Some a => sa_last_sequence a | None => 0 end ∧
    ∀ a b m, a ∈ atts → statement a = Ok m → statement b = Ok m → a = b.
Proof.
  unfold verify_exported_chain. intros ([[events l0] problems] & Hv & [= <-])%bind_Ok. cbn. intros Hp%bool_decide_eq_true. subst problems.
  pose proof (verify_evidence_sound evidence keyring bucket chain 1 genesis 0 0 eq_refl eq_refl) as H. rewrite Hv in H.
  destruct H as (atts & HF & Hc & -> & ->). exists atts. split_and!; try done. intros a b m _. apply statement_binds.
Qed.
End Sound.

(** ** What the exporter signs verifies *)

Definition ordered_document (s : SignedSegment) : dict string json :=
  [("attestation", JObj (ordered_mapping (sg_attestation s))); ("schema_version", JInt SIGNATURE_SCHEMA_VERSION);
   ("signature", JStr (standard_b64encode (sg_signature s))); ("signing_algorithm", JStr SIGNING_ALGORITHM)].

Lemma loads_document s :
  (t ← utf8_decode (signed_document s); loads t) = Some (JObj (ordered_document s)).
Proof.
  unfold signed_document, dump_bytes. rewrite utf8_decode_encode. cbn [mbind option_bind].
  rewrite loads_dumps; [reflexivity|]. cbn. repeat split; repeat constructor; set_solver.
Qed.

Lemma attestation_of_ordered a : sa_schema_version a = 1 → attestation_of (ordered_mapping a) = Ok a.
Proof.
  intros Hv. unfold attestation_of.
  assert (keys_are attestation_fields (ordered_mapping a) = true) as -> by (unfold ordered_mapping, keys_are; cbn [dkeys fmap list_fmap fst]; by vm_compute).
  cbn. rewrite Hv. cbn. by destruct a; cbn in Hv; subst.
Qed.

Lemma signed_roundtrip s :
  sa_schema_version (sg_attestation s) = 1 → String.length (sg_signature s) = 64%nat → signed_of_bytes (signed_document s) = Ok s.
Proof.
  intros Hv Hl. unfold signed_of_bytes. pose proof (loads_document s) as H.
  destruct (utf8_decode (signed_document s)) as [t|]; [|done]. cbn [mbind option_bind] in H. cbn [require_some]. unfold mbind at 1, result_bind at 1.
  rewrite H. cbn [require_some]. unfold mbind at 1, result_bind at 1.
  assert (Hget : dget "signing_algorithm" (ordered_document s) = Some (JStr SIGNING_ALGORITHM) ∧
    dget "attestation" (ordered_document s) = Some (JObj (ordered_mapping (sg_attestation s))) ∧
    dget "signature" (ordered_document s) = Some (JStr (standard_b64encode (sg_signature s)))) by (split_and!; reflexivity).
  destruct Hget as (-> & -> & ->). rewrite bool_decide_eq_true_2 by done. cbn [ensure mbind option_bind compose py_str].
  unfold mbind, result_bind. rewrite b64_strict_encode. cbn [require_some]. rewrite Hl. cbn [Nat.eqb ensure].
  rewrite attestation_of_ordered by done. by destruct s.
Qed.

Section Honest.
Context (load_der : string → loaded_key) (ed_verify : string → string → string → bool).

(** A signer whose key is pinned: its signatures are raw Ed25519 and verify under the pinned key, which is trusted at [t]. *)
Record pinned (keyring : Keyring) (signer : Signer) (t : datetime) : Prop := {
  pin_time : representable t;
  pin_entry : ∃ s key, dget (si_key_id signer) keyring = Some s ∧ load_der (ts_public_key_der s) = Ed25519Key key ∧
    ts_not_before s ≤ t ≤ ts_not_after s ∧ (∀ r, ts_revoked_at s = Some r → t < r) ∧
    ∀ m sig, si_sign signer m = Ok sig → String.length sig = 64%nat ∧ ed_verify key m sig = true }.

Lemma trusted_at s t : ts_not_before s ≤ t ≤ ts_not_after s → (∀ r, ts_revoked_at s = Some r → t < r) → assert_trusted_at s t = Ok ().
Proof.
  intros Hw Hr. unfold assert_trusted_at, mbind, result_bind. destruct (_ <=? t) eqn:?; [|lia]. cbn [ensure]. destruct (t <=? _) eqn:?; [|lia]. cbn [ensure].
  destruct (ts_revoked_at s) as [r|]; [|done]. specialize (Hr r eq_refl). destruct (t <? r) eqn:?; [done|lia].
Qed.

Lemma honest_verifies keyring signer t chain f l ph lh body bucket key version mode until sg :
  pinned keyring signer t →
  sign_segment (build_attestation chain f l ph lh body bucket key version mode until (si_key_id signer) t) signer = Ok sg →
  verify_signed_segment load_der ed_verify body (signed_document sg) keyring bucket key version (Some ph) (Some f) (Some chain) =
  Ok (build_attestation chain f l ph lh body bucket key version mode until (si_key_id signer) t).
Proof.
  intros [Ht (s & pk & Hs & Hk & Hw & Hr & Hlaw)]. unfold sign_segment. set (a := build_attestation _ _ _ _ _ _ _ _ _ _ _ _ _).
  intros (? & _ & (m & Hm & (sig & Hsig & [= <-])%bind_Ok)%bind_Ok)%bind_Ok. destruct (Hlaw m sig Hsig) as [Hl Hv].
  unfold verify_signed_segment. rewrite signed_roundtrip by done. unfold mbind, result_bind. cbn [sg_attestation sg_signature].
  rewrite !bool_decide_eq_true_2 by done. cbn [ensure matches]. rewrite !bool_decide_eq_true_2 by done. cbn [ensure].
  change (sa_signer_key_id a) with (si_key_id signer). change (sa_signed_at a) with (isoformat t).
  unfold resolve_signer. rewrite Hs. cbn [require_some].
  rewrite fromisoformat_isoformat by done. cbn [require_some].
  rewrite trusted_at by done. rewrite Hk, Hm. by rewrite Hv.
Qed.
End Honest.
