(* ===== verification/AuditExport.v ===== *)
(** Off-host export of the audit chains: segments (src/olympus/audit_export/models.py), the
    write-once store (store.py, its in-memory implementation) and the exporter
    (exporter.py).

    Both chains export through one interface, [Chained]. The time an attestation is
    made is read from a clock, here a function of the segment's key. A stored document
    is read through [document_fields]; one whose fields have other types is outside the
    model and raises. *)

From S2P Require Import Prelude PyDict PyTime Sha256 Json JsonParse PyParse NodeModels NodeAudit AuthorityRepository.
From S2P Require Import AuditSigning.
From stdpp Require Import pretty.
From Stdlib Require Import Ascii.

Open Scope Z_scope.

Inductive export_exn :=
  | ExportValueError (msg : string) | ObjectAlreadyExists | ChainRewritten | EvidenceMissing | MalformedKey | MalformedSegment
  | EventUnreadable | SigningError (e : signature_exn).

(** ** Audit events of either chain *)

(** What the exporter needs of an event: its sequence, its two links in hexadecimal, and the mapping to store. *)
Class Chained (E : Type) := {
  ce_sequence : E → Z;
  ce_previous_hash : E → string;
  ce_event_hash : E → string;
  as_mapping : E → option (dict string json) }.

(** [_as_mapping] of a node-mesh event: its body with both hashes set. *)
#[export] Instance node_chained : Chained NodeAuditEvent := {
  ce_sequence := e_sequence;
  ce_previous_hash := e_previous_hash;
  ce_event_hash := e_event_hash;
  as_mapping := λ e, match body e with
    | JObj o => Some (dset "previous_hash" (JStr (e_previous_hash e)) (dset "event_hash" (JStr (e_event_hash e)) o))
    | _ => None
    end }.

(** [_as_mapping] of an authority event: its canonical text is parsed back, its raw hashes become hexadecimal. *)
#[export] Instance authority_chained : Chained AuditEvent := {
  ce_sequence := ae_sequence;
  ce_previous_hash := λ e, hex (ae_previous e);
  ce_event_hash := λ e, hex (ae_hash e);
  as_mapping := λ e, j ← loads (ae_body e);
    Some [("sequence", JInt (ae_sequence e)); ("event_type", JStr (ae_type e)); ("body", j);
          ("previous_hash", JStr (hex (ae_previous e))); ("event_hash", JStr (hex (ae_hash e)))] }.

(** ** Segments *)

Record ExportSegment := mkSegment {
  eg_chain : string;
  eg_first_sequence : Z;
  eg_last_sequence : Z;
  eg_first_previous_hash : string;
  eg_last_event_hash : string;
  eg_events : list (dict string json) }.

(** [ExportSegment.__post_init__] *)
Definition make_segment (s : ExportSegment) : result export_exn ExportSegment :=
  ensure (1 <=? eg_first_sequence s) (ExportValueError "first_sequence must be strictly positive");;
  ensure (eg_first_sequence s <=? eg_last_sequence s) (ExportValueError "last_sequence must not precede first_sequence");;
  ensure (Z.of_nat (length (eg_events s)) =? eg_last_sequence s - eg_first_sequence s + 1)
    (ExportValueError "segment event count does not match its sequence range");;
  ensure (negb (is_blank (eg_chain s))) (ExportValueError "chain must not be empty");;
  Ok s.

(** [f"{n:012d}"] *)
Fixpoint zero_text (n : nat) : string := match n with O => EmptyString | S n' => String "0" (zero_text n') end.
Definition pad12 (n : Z) : string := zero_text (12 - String.length (pretty n)) +:+ pretty n.

(** [prefix] and [ExportSegment.key] *)
Definition chain_prefix (chain : string) : string := "audit/" +:+ chain +:+ "/".
Definition range_name (first last : Z) : string := pad12 first +:+ "-" +:+ pad12 last.
Definition segment_key (s : ExportSegment) : string :=
  chain_prefix (eg_chain s) +:+ range_name (eg_first_sequence s) (eg_last_sequence s) +:+ ".json".

(** [ExportSegment.body] *)
Definition segment_json (s : ExportSegment) : json :=
  JObj [("version", JInt 1); ("chain", JStr (eg_chain s)); ("first_sequence", JInt (eg_first_sequence s));
        ("last_sequence", JInt (eg_last_sequence s)); ("first_previous_hash", JStr (eg_first_previous_hash s));
        ("last_event_hash", JStr (eg_last_event_hash s)); ("events", JList (map JObj (eg_events s)))].
Definition segment_body (s : ExportSegment) : string := dump_bytes (segment_json s).

(** [ExportSegment.digest] *)
Definition segment_digest (s : ExportSegment) : string := sha256_hex (segment_body s).

Section Segments.
Context {E : Type} `{Chained E}.

Fixpoint gapless (expected : Z) (events : list E) : bool :=
  match events with [] => true | e :: events' => (ce_sequence e =? expected) && gapless (expected + 1) events' end.

(** [pending[offset:offset + n] for offset in range(0, len(pending), n)], one window a turn *)
Fixpoint windows (fuel n : nat) (l : list E) : list (list E) :=
  match fuel, l with
  | S fuel', _ :: _ => take n l :: windows fuel' n (drop n l)
  | _, _ => []
  end.

Definition window_segment (chain : string) (window : list E) : result export_exn ExportSegment :=
  match window, last window with
  | e0 :: _, Some e1 =>
      events ← mapM_r (λ e, require_some (as_mapping e) EventUnreadable) window;
      make_segment (mkSegment chain (ce_sequence e0) (ce_sequence e1) (ce_previous_hash e0) (ce_event_hash e1) events)
  | _, _ => Err MalformedSegment
  end.

(** [build_segments] *)
Definition build_segments (events : list E) (chain : string) (start_after max_events : Z) : result export_exn (list ExportSegment) :=
  let pending := sort_by (λ a b, ce_sequence a <=? ce_sequence b) (List.filter (λ e, start_after <? ce_sequence e) events) in
  match pending with
  | [] => Ok []
  | e0 :: _ =>
      ensure (gapless (ce_sequence e0) pending) (ExportValueError "audit chain has a gap; refusing to export");;
      ensure (negb (max_events =? 0)) (ExportValueError "range() arg 3 must not be zero");;
      mapM_r (window_segment chain) (if max_events <? 0 then [] else windows (length pending) (Z.to_nat max_events) pending)
  end.
End Segments.

(** ** The write-once store *)

Record StoredObject := mkStored {
  so_key : string;
  so_version_id : string;
  so_retention_mode : string;
  so_retention_until : string }.

Record WriteOnceStore := mkWriteOnce {
  wo_objects : dict string string;
  wo_identities : dict string StoredObject;
  wo_retention_mode : string;
  wo_retention_until : string }.

Definition first32 (s : string) : string := String.substring 0 32 s.

(** [InMemoryWriteOnceStore.put_once] *)
Definition put_once (key body : string) : St WriteOnceStore export_exn StoredObject :=
  s ← read;
  check (negb (dmem key (wo_objects s))) ObjectAlreadyExists;;
  let identity := mkStored key (first32 (sha256_hex (utf8 key +:+ body))) (wo_retention_mode s) (wo_retention_until s) in
  modify (λ s, mkWriteOnce (dset key body (wo_objects s)) (dset key identity (wo_identities s)) (wo_retention_mode s) (wo_retention_until s));;
  mret identity.

Definition get_object (s : WriteOnceStore) (key : string) : option string := dget key (wo_objects s).
Definition head_object (s : WriteOnceStore) (key : string) : option StoredObject := dget key (wo_identities s).
Definition list_keys (s : WriteOnceStore) (prefix : string) : list string :=
  sorted (List.filter (starts_with prefix) (dkeys (wo_objects s))).

(** ** The exporter *)

Record Exporter := mkExporter {
  ex_chain : string;
  ex_max_events : Z;
  ex_signer : option Signer;
  ex_bucket : string }.

(** [AuditExporter.__init__] *)
Definition make_exporter (chain : string) (max_events : Z) (signer : option Signer) (bucket : string) : result export_exn Exporter :=
  ensure (negb (is_blank chain)) (ExportValueError "chain must not be empty");;
  ensure (negb (match signer with Some _ => is_blank bucket | None => false end))
    (ExportValueError "a signing exporter must know which bucket it is attesting to");;
  Ok (mkExporter chain max_events signer bucket).

(** [s.removesuffix(suffix)], and whether there was one *)
Fixpoint without_suffix (suffix s : string) : option string :=
  if bool_decide (s = suffix) then Some EmptyString
  else match s with EmptyString => None | String c s' => String c <$> without_suffix suffix s' end.

(** [_segment_keys] *)
Definition segment_keys (x : Exporter) (s : WriteOnceStore) : list string :=
  List.filter (λ k, match without_suffix ".sig.json" k with Some _ => false | None => true end)
    (list_keys s (chain_prefix (ex_chain x))).

(** [last_exported_sequence] *)
Definition key_sequence (key : string) : result export_exn Z :=
  let name := default key (last (split_char "/" key)) in
  let base := default name (without_suffix ".json" name) in
  match split_char "-" base with
  | _ :: l :: _ => require_some (int_of_str l) MalformedKey
  | _ => Err MalformedKey
  end.
Definition last_exported_sequence (x : Exporter) (s : WriteOnceStore) : result export_exn Z :=
  match last (segment_keys x s) with None => Ok 0 | Some key => key_sequence key end.

Definition lift_sig {A} (r : result signature_exn A) : result export_exn A :=
  match r with Ok a => Ok a | Err e => Err (SigningError e) end.

(** [_attest] *)
Definition attest (x : Exporter) (now : string → datetime) (g : ExportSegment) (identity : StoredObject) : St WriteOnceStore export_exn () :=
  match ex_signer x with
  | None => mret ()
  | Some signer =>
      let a := build_attestation (eg_chain g) (eg_first_sequence g) (eg_last_sequence g) (eg_first_previous_hash g)
                 (eg_last_event_hash g) (segment_body g) (ex_bucket x) (segment_key g) (so_version_id identity)
                 (so_retention_mode identity) (so_retention_until identity) (si_key_id signer) (now (segment_key g)) in
      signed ← liftR (lift_sig (sign_segment a signer));
      put_once (signature_key_for (segment_key g)) (signed_document signed);;
      mret ()
  end.

Record ExportResult := mkExportResult {
  er_chain : string;
  er_segments_written : nat;
  er_events_exported : nat;
  er_last_exported_sequence : Z;
  er_already_present : list string }.

(** One turn of the loop of [export]: [true] when the segment was written, [false] when it was already there. *)
Definition export_segment (x : Exporter) (now : string → datetime) (g : ExportSegment) : St WriteOnceStore export_exn bool := λ s,
  match (identity ← put_once (segment_key g) (segment_body g); attest x now g identity) s with
  | (Ok _, s') => (Ok true, s')
  | (Err ObjectAlreadyExists, s') =>
      if bool_decide (get_object s' (segment_key g) = Some (segment_body g)) then (Ok false, s') else (Err ChainRewritten, s')
  | (Err e, s') => (Err e, s')
  end.

Fixpoint export_loop (x : Exporter) (now : string → datetime) (segments : list ExportSegment) (r : ExportResult) :
    St WriteOnceStore export_exn ExportResult :=
  match segments with
  | [] => mret r
  | g :: segments' =>
      written ← export_segment x now g;
      export_loop x now segments'
        (if (written : bool)
         then mkExportResult (er_chain r) (S (er_segments_written r)) (er_events_exported r + length (eg_events g))
                (eg_last_sequence g) (er_already_present r)
         else mkExportResult (er_chain r) (er_segments_written r) (er_events_exported r) (eg_last_sequence g)
                (er_already_present r ++ [segment_key g]))
  end.

(** [export] *)
Definition export_events {E} `{Chained E} (x : Exporter) (now : string → datetime) (events : list E) : St WriteOnceStore export_exn ExportResult :=
  s ← read;
  start_after ← liftR (last_exported_sequence x s);
  segments ← liftR (build_segments events (ex_chain x) start_after (ex_max_events x));
  export_loop x now segments (mkExportResult (ex_chain x) 0 0 start_after []).

(** [collect_evidence] *)
Definition evidence_of (s : WriteOnceStore) (key : string) : result export_exn StoredSegmentEvidence :=
  match get_object s key, get_object s (signature_key_for key), head_object s key with
  | Some segment, Some sidecar, Some identity => Ok (mkEvidence key (so_version_id identity) segment sidecar)
  | _, _, _ => Err EvidenceMissing
  end.
Definition collect_evidence (x : Exporter) (s : WriteOnceStore) : result export_exn (list StoredSegmentEvidence) :=
  mapM_r (evidence_of s) (segment_keys x s).

(** [verify_authenticity] *)
Definition verify_authenticity (load_der : string → loaded_key) (ed_verify : string → string → string → bool) (x : Exporter)
    (keyring : Keyring) (s : WriteOnceStore) : result export_exn ChainVerification :=
  evidence ← collect_evidence x s;
  lift_sig (verify_exported_chain load_der ed_verify evidence keyring (ex_bucket x) (ex_chain x) GENESIS_HASH).

(** ** Reading segments back *)

Definition obj_of_json (j : json) : option (dict string json) := match j with JObj o => Some o | _ => None end.

(** [document["events"]], each a mapping *)
Definition events_of_json (j : json) : result export_exn (list (dict string json)) :=
  match j with
  | JObj o => match dget "events" o with
              | Some (JList es) => mapM_r (λ e, require_some (obj_of_json e) MalformedSegment) es
              | _ => Err MalformedSegment
              end
  | _ => Err MalformedSegment
  end.

(** The fields [verify] reads of a document; it does not look at the chain, which is left as given. *)
Definition document_fields (chain : string) (j : json) : result export_exn ExportSegment :=
  match j with
  | JObj o =>
      match dget "first_sequence" o, dget "last_sequence" o, dget "first_previous_hash" o, dget "last_event_hash" o with
      | Some (JInt f), Some (JInt l), Some (JStr ph), Some (JStr lh) => events ← events_of_json j; Ok (mkSegment chain f l ph lh events)
      | _, _, _, _ => Err MalformedSegment
      end
  | _ => Err MalformedSegment
  end.

(** [segment_from_bytes]; [json.loads] gives the document, and the segment is validated as any other *)
Definition segment_of_json (j : json) : result export_exn ExportSegment :=
  match j with
  | JObj o => match dget "chain" o with
              | Some (JStr c) => g ← document_fields c j; make_segment g
              | _ => Err MalformedSegment
              end
  | _ => Err MalformedSegment
  end.

Inductive segment_problem := Unreadable | Unparseable | WrongStart | NotLinked | WrongCount | EventNotLinked | WrongLastHash.

Record VerificationResult := mkVerification {
  vr_chain : string;
  vr_segments : nat;
  vr_events : nat;
  vr_last_sequence : Z;
  vr_intact : bool;
  vr_problems : list (string * segment_problem) }.

(** The inner loop of [verify]: the last hash reached, or nothing after a broken link. *)
Fixpoint relink (previous : json) (events : list (dict string json)) : result export_exn (option json) :=
  match events with
  | [] => Ok (Some previous)
  | e :: events' =>
      p ← require_some (dget "previous_hash" e) MalformedSegment;
      if bool_decide (p = previous) then
        h ← require_some (dget "event_hash" e) MalformedSegment; relink h events'
      else Ok None
  end.

(** The problems of one segment, read where [sequence] and [previous] are expected. *)
Definition segment_problems (g : ExportSegment) (sequence : Z) (previous : string) : result export_exn (list segment_problem) :=
  chained ← relink (JStr (eg_first_previous_hash g)) (eg_events g);
  Ok ((if eg_first_sequence g =? sequence then [] else [WrongStart]) ++
      (if bool_decide (eg_first_previous_hash g = previous) then [] else [NotLinked]) ++
      (if Z.of_nat (length (eg_events g)) =? eg_last_sequence g - eg_first_sequence g + 1 then [] else [WrongCount]) ++
      match chained with
      | None => [EventNotLinked]
      | Some h => if bool_decide (h = JStr (eg_last_event_hash g)) then [] else [WrongLastHash]
      end).

(** The loop of [verify] *)
Fixpoint verify_segments (s : WriteOnceStore) (keys : list string) (sequence : Z) (previous : string) (events : nat) (last_sequence : Z) :
    result export_exn (nat * Z * list (string * segment_problem)) :=
  match keys with
  | [] => Ok (events, last_sequence, [])
  | key :: keys' =>
      match get_object s key with
      | None => r ← verify_segments s keys' sequence previous events last_sequence;
                Ok (r.1.1, r.1.2, (key, Unreadable) :: r.2)
      | Some raw =>
          t ← require_some (utf8_decode raw) MalformedSegment;
          match loads t with
          | None => r ← verify_segments s keys' sequence previous events last_sequence;
                    Ok (r.1.1, r.1.2, (key, Unparseable) :: r.2)
          | Some document =>
              g ← document_fields EmptyString document;
              problems ← segment_problems g sequence previous;
              r ← verify_segments s keys' (eg_last_sequence g + 1) (eg_last_event_hash g) (events + length (eg_events g)) (eg_last_sequence g);
              Ok (r.1.1, r.1.2, map (λ p, (key, p)) problems ++ r.2)
          end
      end
  end.

(** [verify] *)
Definition verify_export (x : Exporter) (s : WriteOnceStore) : result export_exn VerificationResult :=
  let keys := segment_keys x s in
  v ← verify_segments s keys 1 GENESIS_HASH 0 0;
  let '(events, last_sequence, problems) := v in
  Ok (mkVerification (ex_chain x) (length keys) events last_sequence (bool_decide (problems = [])) problems).

(** [restore]: the events of every readable segment, sorted by sequence *)
Definition event_sequence (e : dict string json) : result export_exn Z :=
  match dget "sequence" e with Some (JInt z) => Ok z | _ => Err MalformedSegment end.
Fixpoint restore_segments (s : WriteOnceStore) (keys : list string) : result export_exn (list (dict string json)) :=
  match keys with
  | [] => Ok []
  | key :: keys' =>
      match get_object s key with
      | None => restore_segments s keys'
      | Some raw =>
          document ← require_some (t ← utf8_decode raw; loads t) MalformedSegment;
          events ← events_of_json document;
          rest ← restore_segments s keys';
          Ok (events ++ rest)
      end
  end.
Definition restore_export (x : Exporter) (s : WriteOnceStore) : result export_exn (list (dict string json)) :=
  events ← restore_segments s (segment_keys x s);
  numbered ← mapM_r (λ e, z ← event_sequence e; Ok (z, e)) events;
  Ok (map snd (sort_by (λ a b, a.1 <=? b.1) numbered)).
