(* ===== verification/AuditExportFacts.v ===== *)
(** The off-host copy of an audit chain: keys in order, segments read back, and what the
    exporter leaves in the store. *)

From stdpp Require Import pretty.
From S2P Require Import Prelude PyDict PyTime Sha256 Json JsonParse PyParse NodeModels NodeScopesFacts NodeAudit NodeCrypto AuthorityRepository.
From S2P Require Import AuditSigning AuditExport.
From Stdlib Require Import Ascii.

Open Scope Z_scope.

(** ** Padded numbers *)

Definition digits_only (s : string) : bool := all_chars digit_char s.

Lemma zero_text_digits n : digits_only (zero_text n) = true.
Proof. unfold digits_only. induction n; [done|]. cbn. by rewrite IHn. Qed.

Lemma pretty_nonneg (z : Z) : 0 ≤ z → pretty z = pretty (Z.to_N z).
Proof. destruct z; [done|done|lia]. Qed.

Lemma pad12_digits n : 0 ≤ n → digits_only (pad12 n) = true.
Proof.
  intros Hn. unfold pad12, digits_only. rewrite all_chars_append. rewrite (pretty_nonneg n Hn), pretty_N_digits.
  by rewrite zero_text_digits.
Qed.

Lemma digits_val_zeros k s : digits_val 0 (zero_text k +:+ s) = digits_val 0 s.
Proof. induction k; [done|]. exact IHk. Qed.

Lemma pad12_value n : 0 ≤ n → digits_val 0 (pad12 n) = Z.to_N n.
Proof. intros Hn. unfold pad12. rewrite digits_val_zeros, pretty_nonneg by done. apply pretty_N_val. Qed.

Lemma digit_char_range c : digit_char c = true → (48 ≤ ord c ≤ 57)%nat.
Proof. unfold digit_char. intros [?%Nat.leb_le ?%Nat.leb_le]%andb_true_iff. done. Qed.

(** [digits_val a s] lies in the block of [a]. *)
Lemma digits_val_block a s : digits_only s = true →
  (a * 10 ^ N.of_nat (String.length s) ≤ digits_val a s < (a + 1) * 10 ^ N.of_nat (String.length s))%N.
Proof.
  unfold digits_only. revert a. induction s as [|c s IH]; intros a Hs; [cbn; lia|].
  cbn [all_chars] in Hs. apply andb_true_iff in Hs as [Hc Hs].
  cbn [digits_val String.length]. specialize (IH (10 * a + N.of_nat (ord c - 48))%N Hs).
  rewrite Nat2N.inj_succ, N.pow_succ_r'. assert (Hd : (N.of_nat (ord c - 48) ≤ 9)%N) by (apply digit_char_range in Hc; lia).
  generalize dependent (N.of_nat (ord c - 48)). intros d IH Hd. set (P := (10 ^ N.of_nat (String.length s))%N) in *. clearbody P.
  destruct IH as [H1 H2]. rewrite !N.mul_assoc. split.
  - etransitivity; [|exact H1]. apply N.mul_le_mono_r. lia.
  - eapply N.lt_le_trans; [exact H2|]. apply N.mul_le_mono_r. lia.
Qed.

(** Digit strings of one length compare as their numbers do. *)
Lemma digits_order a u v r r' :
  String.length u = String.length v → digits_only u = true → digits_only v = true →
  (digits_val a u < digits_val a v)%N → str_leb (u +:+ r) (v +:+ r') = true.
Proof.
  unfold digits_only. revert a v. induction u as [|c u IH]; intros a [|d v]; try done; [cbn; lia|]. intros [= Hl] Hu Hv Hlt.
  cbn [all_chars] in Hu, Hv. apply andb_true_iff in Hu as [Hc Hu], Hv as [Hd Hv]. apply digit_char_range in Hc, Hd.
  cbn [digits_val] in Hlt. cbn [String.append str_leb].
  destruct (Nat.lt_total (ord c) (ord d)) as [H|[H|H]].
  - apply Nat.ltb_lt in H. by rewrite H.
  - rewrite H in Hlt |- *. rewrite Nat.eqb_refl. rewrite (IH _ _ Hl Hu Hv Hlt). by rewrite orb_true_r.
  - exfalso. pose proof (digits_val_block (10 * a + N.of_nat (ord c - 48)) u Hu) as [H1 _].
    pose proof (digits_val_block (10 * a + N.of_nat (ord d - 48)) v Hv) as [_ H2]. rewrite Hl in H1.
    assert (Hle : (10 * a + N.of_nat (ord d - 48) + 1 ≤ 10 * a + N.of_nat (ord c - 48))%N) by lia.
    apply (N.mul_le_mono_r _ _ (10 ^ N.of_nat (String.length v))) in Hle. lia.
Qed.

Lemma zero_text_length n : String.length (zero_text n) = n.
Proof. induction n; cbn; congruence. Qed.

(** Twelve digits hold every number below [10 ^ 12]. *)
Definition in_range (n : Z) : Prop := 0 ≤ n < 10 ^ 12.

Lemma pretty_N_go_length x s k : (x < 10 ^ N.of_nat k)%N → (String.length (pretty_N_go x s) ≤ String.length s + k)%nat.
Proof.
  revert x s. induction k as [|k IH]; intros x s Hx.
  - assert (x = 0%N) as -> by (cbn in Hx; lia). rewrite pretty_N_go_0. lia.
  - destruct (decide (x = 0)%N) as [->|]; [rewrite pretty_N_go_0; lia|]. rewrite pretty_N_go_step by lia.
    etransitivity; [apply IH|cbn; lia]. apply N.Div0.div_lt_upper_bound. by rewrite Nat2N.inj_succ, N.pow_succ_r' in Hx.
Qed.

Lemma pad12_length n : in_range n → String.length (pad12 n) = 12%nat.
Proof.
  intros [H0 H1]. unfold pad12. rewrite length_app_str, zero_text_length.
  assert (String.length (pretty n) ≤ 12)%nat; [|lia]. rewrite (pretty_nonneg n H0). unfold pretty, pretty_N.
  case_decide; [cbn; lia|]. apply (pretty_N_go_length _ "" 12). change (N.of_nat 12) with 12%N. change (10 ^ 12)%N with (Z.to_N (10 ^ 12)). lia.
Qed.

Lemma pad12_order a b r r' : in_range a → in_range b → a < b → str_leb (pad12 a +:+ r) (pad12 b +:+ r') = true.
Proof.
  intros Ha Hb Hlt. apply (digits_order 0); [by rewrite !pad12_length|apply pad12_digits; apply Ha|apply pad12_digits; apply Hb|].
  rewrite !pad12_value by (apply Ha || apply Hb). destruct Ha, Hb. lia.
Qed.

Lemma str_leb_prefix p u v : str_leb (p +:+ u) (p +:+ v) = str_leb u v.
Proof. induction p as [|c p IH]; [done|]. cbn [String.append str_leb]. rewrite IH, Nat.eqb_refl. by destruct (_ <? _)%nat eqn:E; [apply Nat.ltb_lt in E; lia|]. Qed.

Lemma digit_not_space c : digit_char c = true → negb (is_space c) = true.
Proof. destruct c as [[] [] [] [] [] [] [] []]; vm_compute; done. Qed.

Lemma int_digits_val a b s : digits_only s = true → s ≠ "" → int_digits (Z.of_N a) b s = Some (Z.of_N (digits_val a s)).
Proof.
  unfold digits_only. revert a b. induction s as [|c s IH]; intros a b Hs Hn; [done|].
  cbn [all_chars] in Hs. apply andb_true_iff in Hs as [Hc%digit_char_range Hs]. cbn [int_digits digits_val].
  assert ((0 <=? Z.of_nat (ord c) - 48) && (Z.of_nat (ord c) - 48 <=? 9) = true) as -> by (apply andb_true_iff; split; apply Z.leb_le; lia).
  replace (10 * Z.of_N a + (Z.of_nat (ord c) - 48)) with (Z.of_N (10 * a + N.of_nat (ord c - 48))) by lia.
  destruct s; [done|]. by apply IH.
Qed.

Lemma pad12_nonempty n : pad12 n ≠ "".
Proof. unfold pad12. destruct (zero_text _); [apply pretty_Z_nonempty|done]. Qed.

Lemma int_of_pad12 n : 0 ≤ n → int_of_str (pad12 n) = Some n.
Proof.
  intros Hn. pose proof (pad12_digits n Hn) as Hd. pose proof (pad12_value n Hn) as Hv. pose proof (pad12_nonempty n) as Hne.
  destruct (pad12 n) as [|c s]; [done|]. unfold int_of_str, strip.
  assert (Hc : digit_char c = true) by (by apply andb_true_iff in Hd as [? _]). pose proof (digit_not_space c Hc) as Hs.
  cbn [lstrip]. destruct (is_space c); [done|]. rewrite rstrip_plain by (eapply all_chars_impl; [apply digit_not_space|done]).
  apply digit_char_range in Hc. destruct (Nat.eqb_spec (ord c) 45); [lia|]. destruct (Nat.eqb_spec (ord c) 43); [lia|].
  change 0 with (Z.of_N 0) at 1. rewrite (int_digits_val 0 false _ Hd Hne), Hv. f_equal. lia.
Qed.

(** ** Keys *)

Lemma starts_with_append p s : starts_with p (p +:+ s) = true.
Proof. induction p as [|c p IH]; [done|]. cbn [starts_with String.append]. by rewrite bool_decide_eq_true_2. Qed.

Lemma length_zero_str (s : string) : String.length s = 0%nat → s = "".
Proof. by destruct s. Qed.

Lemma without_suffix_append suffix p : without_suffix suffix (p +:+ suffix) = Some p.
Proof.
  induction p as [|c p IH].
  - cbn [String.append]. destruct suffix; cbn [without_suffix]; by rewrite bool_decide_eq_true_2.
  - cbn [String.append without_suffix]. rewrite bool_decide_eq_false_2, IH; [done|].
    intros E. apply (f_equal String.length) in E. cbn in E. rewrite length_app_str in E. lia.
Qed.

Lemma without_suffix_Some suffix s p : without_suffix suffix s = Some p → s = p +:+ suffix.
Proof.
  revert p. induction s as [|c s IH]; intros p; cbn [without_suffix]; case_bool_decide as E; try done.
  - intros [= <-]. done.
  - intros [= <-]. done.
  - intros (q & Hq%IH & ->)%fmap_Some. by subst.
Qed.

Fixpoint last_char (s : string) : option ascii :=
  match s with EmptyString => None | String c EmptyString => Some c | String _ s' => last_char s' end.

Lemma last_char_append a b : b ≠ "" → last_char (a +:+ b) = last_char b.
Proof.
  intros Hb. induction a as [|c a IH]; [done|]. cbn [String.append last_char]. rewrite <- IH. destruct a; [|done]. by destruct b.
Qed.

Lemma last_char_all P s c : all_chars P s = true → last_char s = Some c → P c = true.
Proof.
  induction s as [|d s IH]; [done|]. cbn. intros [Hd Hs]%andb_true_iff. destruct s; [by intros [= <-]|by apply IH].
Qed.

Lemma append_inj_r (a b s : string) : a +:+ s = b +:+ s → a = b.
Proof.
  intros E. pose proof (without_suffix_append s a) as Ha. rewrite E, without_suffix_append in Ha. congruence.
Qed.

(** A segment's key is not a sidecar's. *)
Lemma segment_key_plain g : 0 ≤ eg_last_sequence g → without_suffix ".sig.json" (segment_key g) = None.
Proof.
  intros Hl. destruct (without_suffix _ _) as [p|] eqn:E; [|done]. apply without_suffix_Some in E. exfalso.
  unfold segment_key, range_name in E. change (".sig.json") with (".sig" +:+ ".json") in E.
  rewrite <- !append_assoc in E. apply append_inj_r in E. rewrite !append_assoc in E. apply (f_equal last_char) in E.
  rewrite <- !append_assoc, last_char_append in E by apply pad12_nonempty. rewrite (last_char_append p ".sig") in E by done.
  apply (last_char_all digit_char) in E; [done|]. by apply pad12_digits.
Qed.

Lemma sidecar_key_suffix key : without_suffix ".sig.json" (signature_key_for key) = Some key.
Proof. apply without_suffix_append. Qed.

Lemma digits_no_char c s : digits_only s = true → digit_char c = false → str_has c s = false.
Proof.
  unfold digits_only. intros Hs Hc. induction s as [|d s IH]; [done|]. cbn [all_chars str_has] in Hs |- *. apply andb_true_iff in Hs as [Hd Hs].
  rewrite IH by done. rewrite orb_false_r. apply bool_decide_eq_false. congruence.
Qed.

Lemma split_char_join c a r : split_char c (a +:+ String c r) = split_char c a ++ split_char c r.
Proof.
  induction a as [|d a IH]; cbn [String.append split_char]; [by rewrite bool_decide_refl|].
  case_bool_decide; [by rewrite IH|]. rewrite IH. destruct (split_char c a) eqn:E; [by apply split_char_nonempty in E|done].
Qed.

Lemma last_split_char c p name : str_has c name = false → last (split_char c (p +:+ String c name)) = Some name.
Proof. intros Hn. by rewrite split_char_join, (split_char_none c name Hn), last_snoc. Qed.

Lemma key_sequence_segment g : 0 ≤ eg_first_sequence g → 0 ≤ eg_last_sequence g → key_sequence (segment_key g) = Ok (eg_last_sequence g).
Proof.
  intros Hf Hl. unfold key_sequence, segment_key, chain_prefix. pose proof (pad12_digits _ Hf) as Df. pose proof (pad12_digits _ Hl) as Dl.
  set (name := range_name _ _ +:+ ".json").
  assert (Hn : str_has "/" name = false).
  { unfold name, range_name. rewrite !str_has_app, (digits_no_char _ _ Df), (digits_no_char _ _ Dl) by done. done. }
  assert ((("audit/" +:+ eg_chain g +:+ "/") +:+ name) = ("audit/" +:+ eg_chain g) +:+ String "/" name) as -> by (by rewrite !append_assoc).
  rewrite last_split_char by done. cbn [from_option id].
  unfold name. rewrite (without_suffix_append ".json" (range_name _ _)). cbn [from_option id]. unfold range_name. change ("-" +:+ ?a) with (String "-" a).
  rewrite split_char_app by (by apply digits_no_char). rewrite split_char_none by (by apply digits_no_char).
  by rewrite int_of_pad12.
Qed.

(** The keys of one chain sort as its segments do. *)
Lemma segment_key_order g h :
  eg_chain g = eg_chain h → in_range (eg_first_sequence g) → in_range (eg_first_sequence h) →
  eg_first_sequence g < eg_first_sequence h → str_le (segment_key g) (segment_key h).
Proof.
  intros Hc Hg Hh Hlt. unfold str_le, segment_key, range_name. rewrite Hc, str_leb_prefix, !append_assoc. by apply pad12_order.
Qed.

(** ** Sorting *)

Lemma list_filter_sorted {A} (R : A → A → Prop) P l : StronglySorted R l → StronglySorted R (List.filter P l).
Proof.
  induction 1 as [|a l Hl IH Ha]; [constructor|]. cbn. destruct (P a); [|done]. constructor; [done|].
  apply Forall_forall. intros y [Hy%list_elem_of_In _]%list_elem_of_In%filter_In. rewrite Forall_forall in Ha. by apply Ha.
Qed.

#[local] Instance list_filter_perm {A} (P : A → bool) : Proper ((≡ₚ) ==> (≡ₚ)) (List.filter P).
Proof.
  intros l0 l0'. induction 1 as [|a l l' _ IH|a b l|]; cbn; [done| | |by etransitivity].
  - destruct (P a); by rewrite IH.
  - destruct (P a), (P b); by try constructor.
Qed.

Lemma sorted_filter P l : List.filter P (sorted l) = sorted (List.filter P l).
Proof.
  apply (StronglySorted_unique str_le).
  - apply list_filter_sorted, StronglySorted_merge_sort; apply _.
  - apply StronglySorted_merge_sort; apply _.
  - unfold sorted. by rewrite !merge_sort_Permutation.
Qed.

Lemma StronglySorted_snoc {A} (R : A → A → Prop) l k : StronglySorted R l → Forall (λ a, R a k) l → StronglySorted R (l ++ [k]).
Proof.
  induction 1 as [|a l Hl IH Ha]; intros Hk; [repeat constructor|]. inversion_clear Hk. cbn. constructor; [by apply IH|].
  apply Forall_app. split; [done|]. by repeat constructor.
Qed.

(** A key above the others comes last. *)
Lemma sorted_snoc l k : Forall (λ a, str_le a k) l → sorted (l ++ [k]) = sorted l ++ [k].
Proof.
  intros Hk. apply (StronglySorted_unique str_le).
  - apply StronglySorted_merge_sort; apply _.
  - apply StronglySorted_snoc; [apply StronglySorted_merge_sort; apply _|]. unfold sorted. by rewrite merge_sort_Permutation.
  - unfold sorted. by rewrite !merge_sort_Permutation.
Qed.

(** The keys [_segment_keys] keeps: those of the chain that are not sidecars. *)
Definition is_segment_key (chain key : string) : bool :=
  starts_with (chain_prefix chain) key && match without_suffix ".sig.json" key with Some _ => false | None => true end.

Lemma list_filter_filter {A} (P Q : A → bool) l : List.filter P (List.filter Q l) = List.filter (λ a, Q a && P a) l.
Proof. induction l as [|a l IH]; [done|]. cbn. destruct (Q a); cbn; by rewrite IH. Qed.

Lemma segment_keys_sorted x s : segment_keys x s = sorted (List.filter (is_segment_key (ex_chain x)) (dkeys (wo_objects s))).
Proof. unfold segment_keys, list_keys. by rewrite sorted_filter, list_filter_filter. Qed.

Lemma is_segment_key_own g : 0 ≤ eg_last_sequence g → is_segment_key (eg_chain g) (segment_key g) = true.
Proof. intros Hg. unfold is_segment_key. rewrite segment_key_plain by done. unfold segment_key. by rewrite starts_with_append. Qed.

Lemma is_segment_key_sidecar chain key : is_segment_key chain (signature_key_for key) = false.
Proof. unfold is_segment_key. by rewrite sidecar_key_suffix, andb_false_r. Qed.

(** ** The write-once store *)

Lemma put_once_run key body s :
  match put_once key body s with
  | (Ok identity, s') => key ∉ dkeys (wo_objects s) ∧ wo_objects s' = wo_objects s ++ [(key, body)] ∧
      ∀ k, head_object s' k = if decide (key = k) then Some identity else head_object s k
  | (Err e, s') => e = ObjectAlreadyExists ∧ s' = s ∧ key ∈ dkeys (wo_objects s)
  end.
Proof.
  unfold put_once, read, check, modify, dmem, mbind, st_bind, mret, st_ret. destruct (dget key (wo_objects s)) eqn:E; cbn [ensure negb].
  - split_and!; try done. by eapply dget_Some_key.
  - apply dget_None in E. split_and!; [done|by apply dset_fresh|]. intros k. unfold head_object. cbn. apply dget_dset.
Qed.
