(* ===== verification/AuditExportProps.v ===== *)
(** What an exported chain gives back: whatever runs the exporter made, its store verifies and restores a prefix of the
    log, and a run that succeeds leaves the whole log off the host. *)

From stdpp Require Import pretty.
From S2P Require Import Prelude PyDict PyTime Sha256 Json JsonParse PyParse NodeAudit AuthorityRepository.
From S2P Require Import AuditSigning AuditExport AuditExportFacts.
From Stdlib Require Import Ascii.

Open Scope Z_scope.

(** ** What both chains promise the exporter *)

(** A stored mapping carries the event's own sequence and links. *)
Class ChainedLaws (E : Type) `{Chained E} := {
  mapping_fields (e : E) m : as_mapping e = Some m →
    dget "sequence" m = Some (JInt (ce_sequence e)) ∧ dget "previous_hash" m = Some (JStr (ce_previous_hash e)) ∧
    dget "event_hash" m = Some (JStr (ce_event_hash e)) }.

#[export] Instance node_chained_laws : ChainedLaws NodeAuditEvent.
Proof. split. cbn. by intros e m [= <-]. Qed.

#[export] Instance authority_chained_laws : ChainedLaws AuditEvent.
Proof. split. unfold as_mapping, authority_chained. intros e m (j & _ & [= <-])%bind_Some. done. Qed.

(** ** Normal forms of stored mappings *)

(** A mapping as [json.loads] gives it back: keys in order at every level. *)
Definition norm_mapping (o : dict string json) : dict string json := sort_keys (map (λ kv, (kv.1, jnorm kv.2)) o).

Lemma jnorm_obj o : jnorm (JObj o) = JObj (norm_mapping o).
Proof. done. Qed.

Lemma dget_sort_keys {A} k (o : dict string A) : NoDup o.*1 → dget k (sort_keys o) = dget k o.
Proof.
  intros Hn. assert (Hp : sort_keys o ≡ₚ o) by apply sort_by_Permutation.
  assert (Hn' : dict_wf (sort_keys o)) by (unfold dict_wf, dkeys; by rewrite Hp).
  destruct (dget k o) as [v|] eqn:E.
  - apply dget_wf_elem; [done|]. rewrite Hp. by apply dget_Some_elem.
  - apply dget_None in E. apply dget_None. unfold dkeys in *. by rewrite Hp.
Qed.

Lemma dget_norm_mapping k o : NoDup o.*1 → dget k (norm_mapping o) = jnorm <$> dget k o.
Proof.
  intros Hn. unfold norm_mapping. rewrite dget_sort_keys; [apply dget_map|].
  change (list_fmap _ _ fst) with (fmap (M:=list) (A:=string * json) fst). rewrite <- list_fmap_compose. done.
Qed.

(** ** Logs and their windows *)

Section Log.
Context {E : Type} `{ChainedLaws E}.

Definition stored (e : E) : dict string json := default [] (as_mapping e).

(** An event the exporter can store and read back. *)
Definition readable (e : E) : Prop := as_mapping e = Some (stored e) ∧ json_wf (JObj (stored e)).

(** [l] is numbered from [i] and linked from [h]. *)
Fixpoint linked (i : Z) (h : string) (l : list E) : Prop :=
  match l with
  | [] => True
  | e :: l' => ce_sequence e = i ∧ ce_previous_hash e = h ∧ readable e ∧ linked (i + 1) (ce_event_hash e) l'
  end.

Definition end_hash (h : string) (l : list E) : string := match last l with Some e => ce_event_hash e | None => h end.

Lemma end_hash_cons h e l : end_hash h (e :: l) = end_hash (ce_event_hash e) l.
Proof. unfold end_hash. rewrite last_cons. by destruct (last l). Qed.

Lemma end_hash_app h a b : end_hash h (a ++ b) = end_hash (end_hash h a) b.
Proof. revert h. induction a as [|e a IH]; intros h; [done|]. rewrite <- app_comm_cons, !end_hash_cons. apply IH. Qed.

Lemma linked_app i h a b : linked i h (a ++ b) ↔ linked i h a ∧ linked (i + Z.of_nat (length a)) (end_hash h a) b.
Proof.
  revert i h. induction a as [|e a IH]; intros i h; cbn [app linked length].
  - rewrite Z.add_0_r. naive_solver.
  - rewrite IH, end_hash_cons. replace (i + Z.of_nat (S (length a))) with (i + 1 + Z.of_nat (length a)) by lia. naive_solver.
Qed.

Lemma linked_last i h e0 e l : linked i h (e0 :: l) → last (e0 :: l) = Some e → ce_sequence e = i + Z.of_nat (length l).
Proof.
  revert i h e0. induction l as [|e1 l IH]; intros i h e0 Hl; [intros [= ->]; destruct Hl; cbn; lia|].
  rewrite last_cons_cons. destruct Hl as (_ & _ & _ & Hl). intros He. rewrite (IH _ _ _ Hl He). cbn. lia.
Qed.

Lemma linked_gapless i h l : linked i h l → gapless i l = true.
Proof. revert i h. induction l as [|e l IH]; intros i h; [done|]. intros (He & _ & _ & Hl). cbn. by rewrite He, Z.eqb_refl, (IH _ _ Hl). Qed.

(** The segment of a window that starts at [i] after hash [h]. *)
Definition segment_at (chain : string) (i : Z) (h : string) (w : list E) : ExportSegment :=
  mkSegment chain i (i + Z.of_nat (length w) - 1) h (end_hash h w) (map stored w).

Lemma linked_mappings i h w : linked i h w → mapM_r (λ e, require_some (as_mapping e) EventUnreadable) w = Ok (map stored w).
Proof.
  revert i h. induction w as [|e w IH]; intros i h; [done|]. intros (_ & _ & [Hm _] & Hl). cbn [mapM_r map]. rewrite Hm. cbn.
  by rewrite (IH _ _ Hl).
Qed.

Lemma window_segment_at chain i h w : is_blank chain = false → 1 ≤ i → w ≠ [] → linked i h w →
  window_segment chain w = Ok (segment_at chain i h w).
Proof.
  intros Hc Hi Hw Hl. destruct w as [|e0 w]; [done|]. unfold window_segment. destruct (last (e0 :: w)) as [e1|] eqn:He; [|by rewrite last_cons in He; destruct (last w)].
  rewrite (linked_mappings i h) by done. cbn [mbind result_bind]. pose proof (linked_last _ _ _ _ _ Hl He) as Hs.
  unfold segment_at, end_hash. rewrite He. destruct Hl as (-> & -> & _ & _). rewrite Hs.
  replace (i + Z.of_nat (length (e0 :: w)) - 1) with (i + Z.of_nat (length w)) by (cbn; lia).
  unfold make_segment. cbn [eg_chain eg_first_sequence eg_last_sequence eg_events].
  rewrite (proj2 (Z.leb_le 1 i)) by done. rewrite (proj2 (Z.leb_le _ _)) by lia. rewrite (proj2 (Z.eqb_eq _ _)) by (rewrite length_map; cbn; lia).
  by rewrite Hc.
Qed.

(** The segments of consecutive windows. *)
Fixpoint segments_of (chain : string) (i : Z) (h : string) (ws : list (list E)) : list ExportSegment :=
  match ws with
  | [] => []
  | w :: ws' => segment_at chain i h w :: segments_of chain (i + Z.of_nat (length w)) (end_hash h w) ws'
  end.

Lemma segments_of_app chain i h a b :
  segments_of chain i h (a ++ b) = segments_of chain i h a ++ segments_of chain (i + Z.of_nat (length (concat a))) (end_hash h (concat a)) b.
Proof.
  revert i h. induction a as [|w a IH]; intros i h; cbn [app segments_of concat length]; [by rewrite Z.add_0_r|].
  rewrite IH, end_hash_app, length_app. do 3 f_equal. lia.
Qed.

Lemma window_segments chain i h ws : is_blank chain = false → 1 ≤ i → Forall (λ w, w ≠ []) ws → linked i h (concat ws) →
  mapM_r (window_segment chain) ws = Ok (segments_of chain i h ws).
Proof.
  intros Hc. revert i h. induction ws as [|w ws IH]; intros i h Hi Hw Hl; [done|]. inversion_clear Hw.
  cbn [concat] in Hl. apply linked_app in Hl as [Hl1 Hl2]. cbn [mapM_r segments_of].
  rewrite (window_segment_at chain i h) by done. cbn [mbind result_bind]. rewrite (IH (i + Z.of_nat (length w)) (end_hash h w)); [done|lia|done|done].
Qed.

Lemma windows_concat fuel n (l : list E) : (1 ≤ n)%nat → (length l ≤ fuel)%nat → concat (windows fuel n l) = l.
Proof.
  intros Hn. revert l. induction fuel as [|fuel IH]; intros [|e l] Hf; cbn [length] in Hf; try done; [lia|].
  cbn [windows concat]. rewrite IH; [apply take_drop|]. rewrite length_drop. cbn [length]. lia.
Qed.

Lemma windows_nonempty fuel n (l : list E) : (1 ≤ n)%nat → Forall (λ w, w ≠ []) (windows fuel n l).
Proof.
  intros Hn. revert l. induction fuel as [|fuel IH]; intros [|e l]; cbn [windows]; try constructor; [|apply IH]. by destruct n; [lia|].
Qed.

(** ** Reading a stored segment back *)

Definition norm_segment (c : string) (g : ExportSegment) : ExportSegment :=
  mkSegment c (eg_first_sequence g) (eg_last_sequence g) (eg_first_previous_hash g) (eg_last_event_hash g)
    (map norm_mapping (eg_events g)).

Definition wf_segment (g : ExportSegment) : Prop := Forall (λ o, json_wf (JObj o)) (eg_events g).

Lemma segment_json_wf g : wf_segment g → json_wf (segment_json g).
Proof.
  unfold wf_segment. intros Hg. cbn. split; [repeat constructor; set_solver|]. split_and!; try done.
  induction Hg as [|o l Ho Hl IH]; [done|]. cbn [map foldr]. by split.
Qed.

Lemma obj_of_json_norm l : mapM_r (λ e, require_some (obj_of_json e) MalformedSegment) (map jnorm (map JObj l)) = Ok (map norm_mapping l).
Proof. induction l as [|o l IH]; [done|]. cbn [map mapM_r]. rewrite jnorm_obj. cbn [obj_of_json require_some mbind result_bind]. by rewrite IH. Qed.

(** What [verify] and [restore] read of what [body] wrote *)
Lemma segment_body_loads c g : wf_segment g →
  ∃ t j, utf8_decode (segment_body g) = Some t ∧ loads t = Some j ∧ document_fields c j = Ok (norm_segment c g) ∧
    events_of_json j = Ok (map norm_mapping (eg_events g)).
Proof.
  intros Hg. exists (dumps (EA := false) (segment_json g)), (jnorm (segment_json g)). unfold segment_body, dump_bytes.
  assert (He : events_of_json (jnorm (segment_json g)) = Ok (map norm_mapping (eg_events g))).
  { unfold events_of_json, segment_json. rewrite jnorm_obj. rewrite dget_norm_mapping by (cbn; repeat constructor; set_solver).
    transitivity (mapM_r (λ e, require_some (obj_of_json e) MalformedSegment) (map jnorm (map JObj (eg_events g)))); [reflexivity|].
    apply obj_of_json_norm. }
  split_and!; [apply utf8_decode_encode|by apply loads_dumps, segment_json_wf| |done].
  unfold document_fields. rewrite He. unfold segment_json. rewrite jnorm_obj.
  rewrite !dget_norm_mapping by (cbn; repeat constructor; set_solver). reflexivity.
Qed.

Lemma linked_wf i h l : linked i h l → Forall (λ o, json_wf (JObj o)) (map stored l).
Proof. revert i h. induction l as [|e l IH]; intros i h; [constructor|]. intros (_ & _ & [_ Hw] & Hl). constructor; [done|eauto]. Qed.

Lemma stored_fields e : readable e →
  dget "sequence" (norm_mapping (stored e)) = Some (JInt (ce_sequence e)) ∧
  dget "previous_hash" (norm_mapping (stored e)) = Some (JStr (ce_previous_hash e)) ∧
  dget "event_hash" (norm_mapping (stored e)) = Some (JStr (ce_event_hash e)).
Proof.
  intros [Hm [Hn _]]. destruct (mapping_fields e _ Hm) as (H1 & H2 & H3). rewrite !dget_norm_mapping by done. by rewrite H1, H2, H3.
Qed.

Lemma relink_linked i h l : linked i h l → relink (JStr h) (map norm_mapping (map stored l)) = Ok (Some (JStr (end_hash h l))).
Proof.
  revert i h. induction l as [|e l IH]; intros i h; [done|]. intros (_ & <- & Hr & Hl). destruct (stored_fields e Hr) as (_ & H2 & H3).
  rewrite end_hash_cons. cbn [map relink]. rewrite H2. cbn [require_some mbind result_bind]. rewrite bool_decide_eq_true_2 by done.
  rewrite H3. cbn [require_some mbind result_bind]. by apply (IH (i + 1)).
Qed.

Lemma segment_no_problems c chain i h w : linked i h w → segment_problems (norm_segment c (segment_at chain i h w)) i h = Ok [].
Proof.
  intros Hl. unfold segment_problems, norm_segment, segment_at. cbn [eg_first_previous_hash eg_events eg_first_sequence eg_last_sequence eg_last_event_hash].
  rewrite (relink_linked i) by done. cbn [mbind result_bind]. rewrite Z.eqb_refl, !bool_decide_eq_true_2 by done.
  rewrite (proj2 (Z.eqb_eq _ _)); [done|]. rewrite !length_map. lia.
Qed.

(** The store holds the segments of windows [ws]. *)
Definition holds (s : WriteOnceStore) (gs : list ExportSegment) : Prop :=
  Forall (λ g, get_object s (segment_key g) = Some (segment_body g)) gs.

Lemma segment_at_wf chain i h w : linked i h w → wf_segment (segment_at chain i h w).
Proof. apply linked_wf. Qed.

Lemma verify_segments_ok s chain ws i h events l0 :
  linked i h (concat ws) → holds s (segments_of chain i h ws) → l0 = i - 1 →
  verify_segments s (map segment_key (segments_of chain i h ws)) i h events l0 =
  Ok ((events + length (concat ws))%nat, l0 + Z.of_nat (length (concat ws)), []).
Proof.
  revert i h events l0. induction ws as [|w ws IH]; intros i h events l0 Hl Hs Hl0.
  { cbn. do 3 f_equal; lia. }
  cbn [concat] in Hl. apply linked_app in Hl as [Hw Hl]. cbn [segments_of] in Hs. inversion_clear Hs as [|? ? Hg Hs'].
  destruct (segment_body_loads "" (segment_at chain i h w)) as (t & j & Ht & Hj & Hd & He); [by eapply segment_at_wf|].
  cbn [segments_of map verify_segments]. rewrite Hg, Ht. cbn [require_some mbind result_bind]. rewrite Hj, Hd. cbn [mbind result_bind].
  rewrite segment_no_problems by done. cbn [mbind result_bind norm_segment segment_at eg_last_sequence eg_last_event_hash eg_events].
  replace (i + Z.of_nat (length w) - 1 + 1) with (i + Z.of_nat (length w)) by lia.
  rewrite IH; [|done|done|lia]. cbn [mbind result_bind fst snd map app]. rewrite !length_map. cbn [concat]. rewrite length_app.
  do 3 f_equal; lia.
Qed.

Lemma restore_segments_ok s chain ws i h :
  linked i h (concat ws) → holds s (segments_of chain i h ws) →
  restore_segments s (map segment_key (segments_of chain i h ws)) = Ok (map norm_mapping (map stored (concat ws))).
Proof.
  revert i h. induction ws as [|w ws IH]; intros i h Hl Hs; [done|].
  cbn [concat] in Hl. apply linked_app in Hl as [Hw Hl]. cbn [segments_of] in Hs. inversion_clear Hs as [|? ? Hg Hs'].
  destruct (segment_body_loads "" (segment_at chain i h w)) as (t & j & Ht & Hj & Hd & He); [by eapply segment_at_wf|].
  cbn [segments_of map restore_segments]. rewrite Hg, Ht. cbn [mbind option_bind]. rewrite Hj. cbn [require_some mbind result_bind].
  rewrite He. cbn [mbind result_bind]. rewrite IH by done. cbn [mbind result_bind norm_segment segment_at eg_events concat].
  by rewrite !map_app.
Qed.

Lemma numbered_ok i h l : linked i h l →
  mapM_r (λ e, z ← event_sequence e; Ok (z, e)) (map norm_mapping (map stored l)) =
  Ok (map (λ e, (ce_sequence e, norm_mapping (stored e))) l).
Proof.
  revert i h. induction l as [|e l IH]; intros i h; [done|]. intros (_ & _ & Hr & Hl). destruct (stored_fields e Hr) as (H1 & _ & _).
  assert (Hs : event_sequence (norm_mapping (stored e)) = Ok (ce_sequence e)) by (unfold event_sequence; by rewrite H1).
  cbn [map mapM_r]. rewrite Hs. cbn [mbind result_bind]. by rewrite (IH _ _ Hl).
Qed.

Lemma linked_Sorted {A} (f : E → A) i h l : linked i h l → Sorted (λ a b, (a.1 <=? b.1) = true) (map (λ e, (ce_sequence e, f e)) l).
Proof.
  revert i h. induction l as [|e l IH]; intros i h; [constructor|]. intros (He & _ & _ & Hl). constructor; [by eapply IH|].
  destruct l as [|e' l]; constructor. destruct Hl as (He' & _). cbn. apply Z.leb_le. lia.
Qed.

(** ** Runs of the exporter *)

Lemma segments_of_bounds chain i h ws g : 0 ≤ i → Forall (λ w, w ≠ []) ws → g ∈ segments_of chain i h ws →
  eg_chain g = chain ∧ i ≤ eg_first_sequence g ≤ eg_last_sequence g ∧ eg_last_sequence g < i + Z.of_nat (length (concat ws)).
Proof.
  intros Hi Hw. revert i h Hi. induction Hw as [|w ws Hw Hws IH]; intros i h Hi; cbn [segments_of]; [by intros ?%not_elem_of_nil|].
  assert (0 < length w)%nat by (destruct w; [done|cbn; lia]). cbn [concat]. rewrite length_app.
  intros [->|Hg]%elem_of_cons; [cbn; split_and!; done || lia|]. apply IH in Hg as (? & ? & ?); [|lia]. split_and!; done || lia.
Qed.

Context (chain : string) (L : list E).

(** The chain [chain] of store [s] is the segments of [ws], which are a prefix of the log. *)
Record off_host (s : WriteOnceStore) (ws : list (list E)) : Prop := {
  oh_nonempty : Forall (λ w, w ≠ []) ws;
  oh_prefix : concat ws `prefix_of` L;
  oh_keys : sorted (List.filter (is_segment_key chain) (dkeys (wo_objects s))) = map segment_key (segments_of chain 1 GENESIS_HASH ws);
  oh_bodies : holds s (segments_of chain 1 GENESIS_HASH ws) }.

Definition exported_count (ws : list (list E)) : Z := Z.of_nat (length (concat ws)).

(** The log can be exported: linked from the genesis, and its sequence numbers fit the keys' twelve digits. *)
Record exportable : Prop := {
  xp_chain : is_blank chain = false;
  xp_linked : linked 1 GENESIS_HASH L;
  xp_bound : Z.of_nat (length L) < 10 ^ 12 }.

Hypothesis HL : exportable.

Lemma linked_prefix l : l `prefix_of` L → linked 1 GENESIS_HASH l.
Proof. intros [r Hr]. destruct HL as [_ Hl _]. rewrite Hr in Hl. by apply linked_app in Hl as [? _]. Qed.

Lemma prefix_bound l : l `prefix_of` L → Z.of_nat (length l) < 10 ^ 12.
Proof. intros Hl%prefix_length. destruct HL. lia. Qed.

Definition next_segment (ws : list (list E)) (w : list E) : ExportSegment :=
  segment_at chain (1 + exported_count ws) (end_hash GENESIS_HASH (concat ws)) w.

Lemma segments_of_snoc ws w : segments_of chain 1 GENESIS_HASH (ws ++ [w]) = segments_of chain 1 GENESIS_HASH ws ++ [next_segment ws w].
Proof. by rewrite segments_of_app. Qed.

Lemma next_segment_range ws w : w ≠ [] → concat ws ++ w `prefix_of` L →
  in_range (eg_first_sequence (next_segment ws w)) ∧ 0 ≤ eg_last_sequence (next_segment ws w) ∧ exported_count ws < eg_last_sequence (next_segment ws w).
Proof.
  intros Hw Hp. pose proof (prefix_bound _ Hp) as Hb. rewrite length_app in Hb. assert (0 < length w)%nat by (destruct w; [done|cbn; lia]).
  unfold next_segment, in_range, exported_count. cbn. lia.
Qed.

(** The next segment's key is new and comes last. *)
Lemma next_key_fresh s ws w : off_host s ws → w ≠ [] → concat ws ++ w `prefix_of` L →
  segment_key (next_segment ws w) ∉ dkeys (wo_objects s).
Proof.
  intros Ho Hw Hp Hin. destruct (next_segment_range ws w Hw Hp) as (Hf & Hl & Hn).
  assert (Hk : segment_key (next_segment ws w) ∈ map segment_key (segments_of chain 1 GENESIS_HASH ws)).
  { rewrite <- (oh_keys _ _ Ho). apply elem_of_sorted, list_elem_of_In, filter_In. split; [by apply list_elem_of_In|].
    by apply (is_segment_key_own (next_segment ws w)). }
  apply list_elem_of_fmap in Hk as (g & Hg & Hin'). apply segments_of_bounds in Hin' as (_ & Hr & Hb); [|lia|apply Ho].
  assert (E1 : key_sequence (segment_key g) = Ok (eg_last_sequence g)) by (apply key_sequence_segment; lia).
  rewrite <- Hg, key_sequence_segment in E1; [|apply Hf|done]. assert (eg_last_sequence (next_segment ws w) = eg_last_sequence g) by congruence.
  unfold exported_count in Hn. lia.
Qed.

Lemma holds_mono s s' l gs : wo_objects s' = wo_objects s ++ l → holds s gs → holds s' gs.
Proof. intros Hs Hg. eapply Forall_impl; [exact Hg|]. unfold get_object. rewrite Hs. intros g. apply dget_app_Some. Qed.

Lemma off_host_segment s s' ws w : off_host s ws → w ≠ [] → concat ws ++ w `prefix_of` L →
  wo_objects s' = wo_objects s ++ [(segment_key (next_segment ws w), segment_body (next_segment ws w))] → off_host s' (ws ++ [w]).
Proof.
  intros Ho Hw Hp Hs. destruct (next_segment_range ws w Hw Hp) as (Hf & Hl & Hn). pose proof (next_key_fresh s ws w Ho Hw Hp) as Hfr.
  split.
  - apply Forall_app. split; [apply Ho|by constructor].
  - rewrite concat_app. cbn. by rewrite app_nil_r.
  - rewrite Hs. unfold dkeys. rewrite fmap_app, List.filter_app. cbn [fmap list_fmap fst List.filter].
    rewrite (is_segment_key_own (next_segment ws w) Hl : is_segment_key chain _ = true). rewrite segments_of_snoc, map_app.
    rewrite <- (oh_keys _ _ Ho). apply sorted_snoc. apply Forall_forall. intros k Hk%elem_of_sorted. change (fst <$> wo_objects s) with (dkeys (wo_objects s)) in Hk.
    rewrite (oh_keys _ _ Ho) in Hk. apply list_elem_of_fmap in Hk as (g & -> & Hg). apply segments_of_bounds in Hg as (Hc & Hr & Hb); [|lia|apply Ho].
    apply segment_key_order; [done| |done|]; unfold in_range in *; cbn in *; unfold exported_count in *; lia.
  - rewrite segments_of_snoc. apply Forall_app. split; [by eapply holds_mono; [exact Hs|apply Ho]|]. constructor; [|constructor].
    unfold get_object. rewrite Hs, dget_app_ne by (by apply dget_None). cbn. by rewrite decide_True.
Qed.

Lemma off_host_sidecar s s' ws key body : off_host s ws → wo_objects s' = wo_objects s ++ [(signature_key_for key, body)] → off_host s' ws.
Proof.
  intros [H1 H2 H3 H4] Hs. split; [done|done| |by eapply holds_mono]. rewrite Hs. unfold dkeys. rewrite fmap_app, List.filter_app.
  cbn [fmap list_fmap fst List.filter]. rewrite is_segment_key_sidecar, app_nil_r. exact H3.
Qed.

(** What one turn of the loop may do: the segment is stored whatever signing does, and nothing stored before changes. *)
Lemma export_segment_run x now s ws w : off_host s ws → w ≠ [] → concat ws ++ w `prefix_of` L →
  let '(r, s') := export_segment x now (next_segment ws w) s in
  off_host s' (ws ++ [w]) ∧ wo_objects s `prefix_of` wo_objects s' ∧ (ex_signer x = None → r = Ok true).
Proof.
  intros Ho Hw Hp. unfold export_segment, mbind at 1, st_bind at 1. set (g := next_segment ws w).
  pose proof (put_once_run (segment_key g) (segment_body g) s) as Hput. pose proof (next_key_fresh s ws w Ho Hw Hp) as Hfresh.
  destruct (put_once (segment_key g) (segment_body g) s) as [[identity|e] s1]; [|by destruct Hput as (_ & _ & ?)].
  destruct Hput as (_ & Hs1 & _). pose proof (off_host_segment s s1 ws w Ho Hw Hp Hs1) as Ho1.
  assert (Hpre : wo_objects s `prefix_of` wo_objects s1) by (rewrite Hs1; by eexists).
  assert (Hat : let '(r, s2) := attest x now g identity s1 in
    off_host s2 (ws ++ [w]) ∧ wo_objects s `prefix_of` wo_objects s2 ∧ (ex_signer x = None → r = Ok ())).
  { unfold attest. destruct (ex_signer x) as [signer|]; [|done]. unfold liftR, mbind, st_bind, mret, st_ret. destruct (lift_sig _) as [signed|e]; [|done].
    pose proof (put_once_run (signature_key_for (segment_key g)) (signed_document signed) s1) as Hput.
    destruct (put_once _ _ s1) as [[identity2|e] s2]; [|by destruct Hput as (_ & -> & _)]. destruct Hput as (_ & Hs2 & _).
    split_and!; [by eapply off_host_sidecar| |done]. etransitivity; [exact Hpre|]. rewrite Hs2. by eexists. }
  destruct (attest x now g identity s1) as [[[]|e] s2]; destruct Hat as (H1 & H2 & H3); [done|].
  destruct e; try (split_and!; [done|done|by intros ?%H3]). case_bool_decide; split_and!; try done; by intros ?%H3.
Qed.

Lemma export_loop_run x now vs s ws res : off_host s ws → Forall (λ w, w ≠ []) vs → concat ws ++ concat vs `prefix_of` L →
  er_last_exported_sequence res = exported_count ws →
  let '(r, s') := export_loop x now (segments_of chain (1 + exported_count ws) (end_hash GENESIS_HASH (concat ws)) vs) res s in
  wo_objects s `prefix_of` wo_objects s' ∧ (ex_signer x = None → is_ok r = true) ∧
  ∃ us, us `prefix_of` vs ∧ off_host s' (ws ++ us) ∧
    ∀ res', r = Ok res' → us = vs ∧ er_last_exported_sequence res' = exported_count (ws ++ vs).
Proof.
  revert s ws res. induction vs as [|w vs IH]; intros s ws res Ho Hv Hp Hr; cbn [segments_of export_loop].
  { split_and!; try done. exists []. rewrite !app_nil_r. split_and!; try done. by intros res' [= <-]. }
  inversion_clear Hv as [|? ? Hw Hvs]. cbn [concat] in Hp. rewrite app_assoc in Hp.
  assert (Hp1 : concat ws ++ w `prefix_of` L) by (by eapply prefix_app_l).
  pose proof (export_segment_run x now s ws w Ho Hw Hp1) as Hrun. fold (next_segment ws w). unfold mbind, st_bind.
  destruct (export_segment x now (next_segment ws w) s) as [[b|e] s1]; destruct Hrun as (Ho1 & Hpre & Hok).
  2: { split_and!; [done|by intros ?%Hok|]. exists [w]. split_and!; [by exists vs|done|done]. }
  set (res1 := if b then _ else _).
  assert (Hc : concat (ws ++ [w]) = concat ws ++ w) by (rewrite concat_app; cbn; by rewrite app_nil_r).
  assert (Hn : exported_count (ws ++ [w]) = exported_count ws + Z.of_nat (length w)) by (unfold exported_count; rewrite Hc, length_app; lia).
  specialize (IH s1 (ws ++ [w]) res1 Ho1 Hvs). rewrite Hc, Hn in IH. specialize (IH Hp).
  rewrite end_hash_app in IH. rewrite <- Z.add_assoc. rewrite Z.add_assoc. replace (1 + (exported_count ws + Z.of_nat (length w))) with (1 + exported_count ws + Z.of_nat (length w)) in IH by lia.
  assert (Hr1 : er_last_exported_sequence res1 = exported_count ws + Z.of_nat (length w)) by (subst res1; destruct b; cbn; lia).
  specialize (IH Hr1). destruct (export_loop x now _ res1 s1) as [r s2]. destruct IH as (IH1 & IH2 & us & Hus & Ho2 & IH3).
  split_and!; [by etransitivity|done|]. exists (w :: us). rewrite <- app_assoc in Ho2. split_and!; [by apply prefix_cons|done|].
  intros res' Hres. destruct (IH3 res' Hres) as [-> ->]. rewrite <- app_assoc. done.
Qed.

Lemma last_exported_ok x s ws : ex_chain x = chain → off_host s ws → last_exported_sequence x s = Ok (exported_count ws).
Proof.
  intros Hx Ho. unfold last_exported_sequence. rewrite segment_keys_sorted, Hx, (oh_keys _ _ Ho).
  destruct ws as [|w ws _] using rev_ind; [done|]. rewrite segments_of_snoc, map_app. cbn [map]. rewrite last_snoc.
  assert (Hp : concat ws ++ w `prefix_of` L) by (pose proof (oh_prefix _ _ Ho) as Hq; rewrite concat_app in Hq; cbn in Hq; by rewrite app_nil_r in Hq).
  assert (Hw : w ≠ []) by (pose proof (oh_nonempty _ _ Ho) as Hq; apply Forall_app in Hq as [_ Hq]; by inversion Hq).
  destruct (next_segment_range ws w Hw Hp) as (Hf & Hl & _). rewrite key_sequence_segment; [|apply Hf|done].
  unfold next_segment, exported_count. cbn. rewrite concat_app, length_app. cbn. rewrite app_nil_r. f_equal. lia.
Qed.

Lemma filter_after i h l n : linked i h l → List.filter (λ e, n <? ce_sequence e) l = drop (Z.to_nat (n - i + 1)) l.
Proof.
  revert i h. induction l as [|e l IH]; intros i h; [by rewrite drop_nil|]. intros (He & _ & _ & Hl). cbn [List.filter]. rewrite He.
  destruct (Z.ltb_spec n i) as [Hlt|Hge].
  - replace (Z.to_nat (n - i + 1)) with 0%nat by lia. cbn [drop]. f_equal. rewrite (IH _ _ Hl). replace (Z.to_nat (n - (i + 1) + 1)) with 0%nat by lia. done.
  - rewrite (IH _ _ Hl). replace (Z.to_nat (n - i + 1)) with (S (Z.to_nat (n - (i + 1) + 1))) by lia. done.
Qed.

Lemma linked_seq_sorted i h (l : list E) : linked i h l → Sorted (λ a b, (ce_sequence a <=? ce_sequence b) = true) l.
Proof.
  revert i h. induction l as [|e l IH]; intros i h; [constructor|]. intros (He & _ & _ & Hl). constructor; [by eapply IH|].
  destruct l as [|e' l]; constructor. destruct Hl as (He' & _). cbn. apply Z.leb_le. lia.
Qed.

(** What [build_segments] cuts a log into, after what is exported already. *)
Lemma build_segments_ok ws k max : concat ws `prefix_of` L → 1 ≤ max →
  let rest := drop (length (concat ws)) (take k L) in
  build_segments (take k L) chain (exported_count ws) max =
  Ok (segments_of chain (1 + exported_count ws) (end_hash GENESIS_HASH (concat ws)) (windows (length rest) (Z.to_nat max) rest)).
Proof.
  intros Hp Hm rest. assert (Hk : linked 1 GENESIS_HASH (take k L)) by (apply linked_prefix; exists (drop k L); by rewrite take_drop).
  unfold build_segments. rewrite (filter_after 1 GENESIS_HASH) by done.
  replace (Z.to_nat (exported_count ws - 1 + 1)) with (length (concat ws)) by (unfold exported_count; lia). fold rest.
  destruct (decide (rest = [])) as [->|Hne]; [done|].
  assert (Hrest : linked (1 + exported_count ws) (end_hash GENESIS_HASH (concat ws)) rest).
  { assert (Hlen : (length (concat ws) < length (take k L))%nat) by (destruct (decide (length (concat ws) < length (take k L))%nat); [done|]; exfalso; apply Hne; unfold rest; apply drop_ge; lia).
    assert (Ht : take k L = concat ws ++ rest).
    { unfold rest. rewrite <- (take_drop (length (concat ws)) (take k L)) at 1. f_equal. destruct Hp as [r ->]. rewrite take_take.
      rewrite length_take in Hlen. rewrite Nat.min_l by lia. apply take_app_length. }
    rewrite Ht in Hk. apply linked_app in Hk as [_ Hk]. exact Hk. }
  rewrite sort_by_id by (by eapply linked_seq_sorted). destruct rest as [|e0 rest']; [done|].
  assert (Hseq : ce_sequence e0 = 1 + exported_count ws) by apply Hrest. rewrite Hseq. rewrite (linked_gapless _ _ _ Hrest). cbn [ensure mbind result_bind].
  rewrite (proj2 (Z.eqb_neq max 0)) by lia. cbn [negb ensure mbind result_bind]. rewrite (proj2 (Z.ltb_ge max 0)) by lia.
  apply window_segments; [apply HL|unfold exported_count; lia|apply windows_nonempty; lia|]. by rewrite windows_concat by lia.
Qed.

Lemma prefix_drop_take {A} (a l : list A) k : a `prefix_of` l → a ++ drop (length a) (take k l) = take (length a `max` k) l.
Proof.
  intros [r ->]. rewrite !take_app. destruct (decide (length a ≤ k)%nat) as [Hk|Hk].
  - rewrite Nat.max_r, (take_ge a k) by lia. by rewrite drop_app_length.
  - rewrite Nat.max_l, Nat.sub_diag, (take_ge a (length a)) by lia. rewrite drop_ge; [by rewrite take_0|].
    rewrite length_app, !length_take. lia.
Qed.

(** A run over the first [k] events extends what is off the host; one that succeeds leaves all of them there. *)
Lemma export_events_run x now s ws k : ex_chain x = chain → off_host s ws →
  let '(r, s') := export_events x now (take k L) s in
  wo_objects s `prefix_of` wo_objects s' ∧
  (ex_signer x = None → 1 ≤ ex_max_events x → is_ok r = true) ∧
  ∃ ws', off_host s' ws' ∧ concat ws `prefix_of` concat ws' ∧
    ∀ res, 1 ≤ ex_max_events x → r = Ok res →
      concat ws' = take (length (concat ws) `max` k) L ∧ er_last_exported_sequence res = exported_count ws'.
Proof.
  intros Hx Ho. unfold export_events, read, liftR, mbind, st_bind. rewrite (last_exported_ok x s ws Hx Ho), Hx.
  destruct (decide (1 ≤ ex_max_events x)) as [Hm|Hm].
  - rewrite build_segments_ok by (done || apply Ho). set (rest := drop (length (concat ws)) (take k L)).
    set (vs := windows (length rest) (Z.to_nat (ex_max_events x)) rest).
    assert (Hvs : concat vs = rest) by (apply windows_concat; lia).
    assert (Hall : concat ws ++ rest = take (length (concat ws) `max` k) L).
    { apply prefix_drop_take, Ho. }
    assert (Hp : concat ws ++ concat vs `prefix_of` L) by (rewrite Hvs, Hall; eexists; symmetry; apply take_drop).
    assert (Hne : Forall (λ w, w ≠ []) vs) by (apply windows_nonempty; lia).
    pose proof (export_loop_run x now vs s ws (mkExportResult chain 0 0 (exported_count ws) []) Ho) as Hrun.
    specialize (Hrun Hne Hp eq_refl). destruct (export_loop _ _ _ _ s) as [r s'].
    destruct Hrun as (H1 & H2 & us & Hus & H3 & H4). split_and!; [done|auto|]. exists (ws ++ us).
    split_and!; [done|rewrite concat_app; by eexists|]. intros res _ Hr. destruct (H4 res Hr) as [-> H5].
    split; [|done]. by rewrite concat_app, Hvs.
  - assert (Hs : (match build_segments (take k L) chain (exported_count ws) (ex_max_events x) with Ok gs => gs = [] | Err _ => True end)).
    { unfold build_segments. destruct (sort_by _ _) as [|e l]; [done|]. destruct (gapless _ _); [|done]. cbn [ensure mbind result_bind].
      destruct (Z.eqb_spec (ex_max_events x) 0); [done|]. cbn [negb ensure mbind result_bind]. by rewrite (proj2 (Z.ltb_lt _ _)) by lia. }
    destruct (build_segments _ _ _ _) as [gs|e]; [subst gs|]; (split_and!; [done|done|]; exists ws; split_and!; try done).
Qed.

(** Stores the exporter can leave: it starts where the chain has no object and runs any number of times, over any
    prefixes of the log, with any window size and any signer. *)
Inductive exported : WriteOnceStore → Prop :=
  | exported_start s : list_keys s (chain_prefix chain) = [] → exported s
  | exported_run s x now k : exported s → ex_chain x = chain → exported (final (export_events x now (take k L) s)).

Lemma sorted_nil_inv l : sorted l = [] → l = [].
Proof. intros E1. apply Permutation_nil. rewrite <- E1. unfold sorted. by rewrite merge_sort_Permutation. Qed.

Lemma list_filter_nil_weaken {A} (P Q : A → bool) l : List.filter P l = [] → List.filter (λ a, P a && Q a) l = [].
Proof. intros HP. by rewrite <- list_filter_filter, HP. Qed.

Lemma exported_off_host s : exported s → ∃ ws, off_host s ws.
Proof.
  induction 1 as [s Hs|s x now k _ [ws Ho] Hx].
  - exists []. split; [constructor|apply prefix_nil| |constructor]. apply sorted_nil_inv in Hs. unfold is_segment_key.
    by rewrite (list_filter_nil_weaken _ _ _ Hs).
  - pose proof (export_events_run x now s ws k Hx Ho) as Hrun. unfold final. destruct (export_events _ _ _ s) as [r s'].
    destruct Hrun as (_ & _ & ws' & Ho' & _). by exists ws'.
Qed.

(** What a store gives back once [n] events are off the host. *)
Definition gives_back (x : Exporter) (s : WriteOnceStore) (n : nat) : Prop :=
  last_exported_sequence x s = Ok (Z.of_nat n) ∧
  (∃ segments, verify_export x s = Ok (mkVerification chain segments n (Z.of_nat n) true [])) ∧
  restore_export x s = Ok (map (λ e, norm_mapping (stored e)) (take n L)).

Lemma off_host_gives_back x s ws : ex_chain x = chain → off_host s ws → gives_back x s (length (concat ws)).
Proof.
  intros Hx Ho. pose proof (linked_prefix _ (oh_prefix _ _ Ho)) as Hl. pose proof (oh_bodies _ _ Ho) as Hb.
  assert (Ht : take (length (concat ws)) L = concat ws) by (destruct (oh_prefix _ _ Ho) as [r ->]; apply take_app_length).
  split_and!; [by apply last_exported_ok| |].
  - exists (length (segments_of chain 1 GENESIS_HASH ws)). unfold verify_export. rewrite segment_keys_sorted, Hx, (oh_keys _ _ Ho).
    rewrite verify_segments_ok by done. cbn [mbind result_bind]. by rewrite length_map.
  - unfold restore_export. rewrite segment_keys_sorted, Hx, (oh_keys _ _ Ho). rewrite restore_segments_ok by done. cbn [mbind result_bind].
    rewrite (numbered_ok 1 GENESIS_HASH) by done. cbn [mbind result_bind]. rewrite sort_by_id by (by eapply linked_Sorted).
    by rewrite map_map, Ht.
Qed.
End Log.

(** C29. An audit chain exported off the host comes back exactly. Whatever runs the exporter made over a growing log, with
    any window size, any signer and any signing failure, its store verifies as intact and restores exactly the first [n]
    events; a further run never changes an object already stored, never loses an event, and when it succeeds leaves all
    of the events it was given; without a signer it always succeeds. *)
Theorem export_restores {E} `{ChainedLaws E} chain (L : list E) s :
  exportable chain L → exported chain L s →
  ∃ n, (n ≤ length L)%nat ∧ (∀ x, ex_chain x = chain → gives_back chain L x s n) ∧
  ∀ x now k, ex_chain x = chain →
    let '(r, s') := export_events x now (take k L) s in
    (∀ key body, get_object s key = Some body → get_object s' key = Some body) ∧
    (ex_signer x = None → 1 ≤ ex_max_events x → is_ok r = true) ∧
    (∃ n', (n ≤ n')%nat ∧ gives_back chain L x s' n') ∧
    (∀ res, 1 ≤ ex_max_events x → r = Ok res → gives_back chain L x s' (n `max` (k `min` length L))).
Proof.
  intros HL Hs. destruct (exported_off_host chain L HL s Hs) as [ws Ho]. exists (length (concat ws)).
  split_and!; [by apply prefix_length, Ho|by intros x Hx; apply off_host_gives_back|]. intros x now k Hx.
  pose proof (export_events_run chain L HL x now s ws k Hx Ho) as Hrun. destruct (export_events _ _ _ s) as [r s'].
  destruct Hrun as (Hpre & Hok & ws' & Ho' & Hws & Hres). split_and!; [|done| |].
  - intros key body Hg. destruct Hpre as [l Hl]. unfold get_object in *. rewrite Hl. by apply dget_app_Some.
  - exists (length (concat ws')). split; [by apply prefix_length|by apply off_host_gives_back].
  - intros res Hm Hr. destruct (Hres res Hm Hr) as [Hc _].
    replace (length (concat ws) `max` (k `min` length L))%nat with (length (concat ws')); [by apply off_host_gives_back|].
    rewrite Hc, length_take. pose proof (prefix_length _ _ (oh_prefix _ _ _ _ Ho)). lia.
Qed.
