(* ===== verification/AuditExportSigned.v ===== *)
(** An exporter that signs: what its runs leave verifies as authentic under the pinned keys. *)

From stdpp Require Import pretty.
From S2P Require Import Prelude PyDict PyTime Sha256 Json JsonParse PyParse NodeAudit AuthorityRepository.
From S2P Require Import AuditSigning AuditExport AuditExportFacts AuditExportProps.
From Stdlib Require Import Ascii.

Open Scope Z_scope.

Lemma signature_key_inj a b : signature_key_for a = signature_key_for b → a = b.
Proof. apply append_inj_r. Qed.

Lemma sidecar_not_segment g key : 0 ≤ eg_last_sequence g → segment_key g ≠ signature_key_for key.
Proof. intros Hg E. pose proof (segment_key_plain g Hg) as Hp. by rewrite E, sidecar_key_suffix in Hp. Qed.

Lemma sidecar_prefix g : starts_with (chain_prefix (eg_chain g)) (signature_key_for (segment_key g)) = true.
Proof. unfold signature_key_for, segment_key. rewrite append_assoc. apply starts_with_append. Qed.

Section Signed.
Context {E : Type} `{ChainedLaws E} (chain : string) (L : list E) (HL : exportable chain L).
Context (load_der : string → loaded_key) (ed_verify : string → string → string → bool) (keyring : Keyring) (bucket : string).

Definition attestation_for (g : ExportSegment) (identity : StoredObject) (signer : Signer) (t : datetime) : SegmentAttestation :=
  build_attestation (eg_chain g) (eg_first_sequence g) (eg_last_sequence g) (eg_first_previous_hash g) (eg_last_event_hash g)
    (segment_body g) bucket (segment_key g) (so_version_id identity) (so_retention_mode identity) (so_retention_until identity)
    (si_key_id signer) t.

(** The sidecar of [g] is a pinned signer's signature over its attestation. *)
Definition signed_segment (s : WriteOnceStore) (g : ExportSegment) : Prop := ∃ identity signer t sg,
  head_object s (segment_key g) = Some identity ∧ get_object s (signature_key_for (segment_key g)) = Some (signed_document sg) ∧
  pinned load_der ed_verify keyring signer t ∧ sign_segment (attestation_for g identity signer t) signer = Ok sg.

Notation segments := (segments_of chain 1 GENESIS_HASH).

Record signed_host (s : WriteOnceStore) (ws : list (list E)) : Prop := {
  sh_off : off_host chain L s ws;
  sh_signed : Forall (signed_segment s) (segments ws);
  sh_keys : ∀ k, k ∈ dkeys (wo_objects s) → starts_with (chain_prefix chain) k = true →
    ∃ g, g ∈ segments ws ∧ (k = segment_key g ∨ k = signature_key_for (segment_key g)) }.

(** An object added under a new key leaves the signed segments signed. *)
Lemma signed_segment_mono s s' key body identity gs :
  key ∉ dkeys (wo_objects s) → wo_objects s' = wo_objects s ++ [(key, body)] →
  (∀ k, head_object s' k = if decide (key = k) then Some identity else head_object s k) →
  holds s gs → Forall (signed_segment s) gs → Forall (signed_segment s') gs.
Proof.
  intros Hk Hs Hh Hg Hf. unfold holds in Hg. rewrite Forall_forall in Hg. apply Forall_forall. intros g Hin. rewrite Forall_forall in Hf.
  destruct (Hf g Hin) as (i & signer & t & sg & H1 & H2 & H3 & H4). specialize (Hg g Hin). exists i, signer, t, sg. split_and!; try done.
  - rewrite Hh, decide_False; [done|]. intros ->. by apply Hk, (dget_Some_key _ _ _ Hg).
  - unfold get_object in *. rewrite Hs. by apply dget_app_Some.
Qed.

Lemma elem_dkeys_snoc {V} k (d : dict string V) k' v : k ∈ dkeys (d ++ [(k', v)]) ↔ k ∈ dkeys d ∨ k = k'.
Proof. unfold dkeys. rewrite fmap_app, elem_of_app. cbn. by rewrite list_elem_of_singleton. Qed.

Lemma export_segment_signed x now signer s ws w b s' :
  signed_host s ws → w ≠ [] → concat ws ++ w `prefix_of` L →
  ex_signer x = Some signer → ex_bucket x = bucket → (∀ key, pinned load_der ed_verify keyring signer (now key)) →
  export_segment x now (next_segment chain ws w) s = (Ok b, s') → signed_host s' (ws ++ [w]).
Proof.
  intros Hsh Hw Hp Hx Hb Hpin. pose proof (sh_off _ _ Hsh) as Ho. pose proof (next_segment_range chain L HL ws w Hw Hp) as (_ & Hlast & _).
  unfold export_segment, mbind at 1, st_bind at 1. set (g := next_segment chain ws w) in *.
  pose proof (put_once_run (segment_key g) (segment_body g) s) as Hput. pose proof (next_key_fresh chain L HL s ws w Ho Hw Hp) as Hfresh. fold g in Hfresh.
  destruct (put_once (segment_key g) (segment_body g) s) as [[identity|e] s1]; [|by destruct Hput as (_ & _ & ?)].
  destruct Hput as (_ & Hs1 & Hh1). pose proof (off_host_segment chain L HL s s1 ws w Ho Hw Hp Hs1) as Ho1.
  unfold attest. rewrite Hx. unfold liftR, mbind, st_bind, mret, st_ret. rewrite Hb. fold (attestation_for g identity signer (now (segment_key g))).
  destruct (sign_segment _ signer) as [sg|e] eqn:Hsg; cbn [lift_sig]; [|done].
  pose proof (put_once_run (signature_key_for (segment_key g)) (signed_document sg) s1) as Hput.
  destruct (put_once _ (signed_document sg) s1) as [[identity2|e] s2]; destruct Hput as (Hf2 & Hs2 & Hh2).
  - intros [= _ <-]. assert (Hold : Forall (signed_segment s2) (segments ws)).
    { eapply (signed_segment_mono s1 s2); [exact Hf2|exact Hs2|exact Hh2|eapply holds_mono; [exact Hs1|apply Ho]|].
      eapply (signed_segment_mono s s1); [exact Hfresh|exact Hs1|exact Hh1|apply Ho|apply Hsh]. }
    split; [by eapply off_host_sidecar| |].
    + rewrite segments_of_snoc. apply Forall_app. split; [done|]. constructor; [|constructor]. fold g.
      exists identity, signer, (now (segment_key g)), sg. split_and!; try done.
      * rewrite Hh2, decide_False by (intros E1; symmetry in E1; by apply sidecar_not_segment in E1). by rewrite Hh1, decide_True.
      * unfold get_object. rewrite Hs2, dget_app_ne by (by apply dget_None). cbn. by rewrite decide_True.
    + intros k Hk Hpre. rewrite segments_of_snoc. fold g. rewrite Hs2, elem_dkeys_snoc, Hs1, elem_dkeys_snoc in Hk.
      destruct Hk as [[Hk| ->]| ->]; [|exists g; set_solver..]. destruct (sh_keys _ _ Hsh k Hk Hpre) as (g' & Hg' & Hor). exists g'. set_solver.
  - exfalso. rewrite Hs1, elem_dkeys_snoc in Hh2. destruct Hh2 as [Hk|Hk]; [|symmetry in Hk; by apply sidecar_not_segment in Hk].
    destruct (sh_keys _ _ Hsh _ Hk) as (g' & Hg' & [Hor|Hor]); [apply (sidecar_prefix g)| |].
    + apply segments_of_bounds in Hg' as (_ & Hr & _); [|lia|apply Ho]. symmetry in Hor. apply sidecar_not_segment in Hor; [done|lia].
    + apply signature_key_inj in Hor. apply Hfresh. rewrite Hor. pose proof (oh_bodies _ _ _ _ Ho) as Hbod. unfold holds in Hbod. rewrite Forall_forall in Hbod.
      by eapply dget_Some_key, (Hbod g').
Qed.

Lemma export_loop_signed x now signer vs s ws res res' s' :
  ex_signer x = Some signer → ex_bucket x = bucket → (∀ key, pinned load_der ed_verify keyring signer (now key)) →
  signed_host s ws → Forall (λ w, w ≠ []) vs → concat ws ++ concat vs `prefix_of` L →
  export_loop x now (segments_of chain (1 + exported_count ws) (end_hash GENESIS_HASH (concat ws)) vs) res s = (Ok res', s') →
  signed_host s' (ws ++ vs).
Proof.
  intros Hx Hb Hpin. revert s ws res. induction vs as [|w vs IH]; intros s ws res Hs Hv Hp; cbn [segments_of export_loop].
  { intros [= _ <-]. by rewrite app_nil_r. }
  inversion_clear Hv as [|? ? Hw Hvs]. cbn [concat] in Hp. rewrite app_assoc in Hp.
  assert (Hp1 : concat ws ++ w `prefix_of` L) by (by eapply prefix_app_l). fold (next_segment chain ws w).
  intros (b & s1 & Hrun & Hloop)%bind_run_inv. pose proof (export_segment_signed x now signer s ws w b s1 Hs Hw Hp1 Hx Hb Hpin Hrun) as Hs1.
  assert (Hc : concat (ws ++ [w]) = concat ws ++ w) by (rewrite concat_app; cbn; by rewrite app_nil_r).
  specialize (IH s1 (ws ++ [w])). rewrite Hc, end_hash_app in IH. unfold exported_count in IH. rewrite Hc, length_app, Nat2Z.inj_add, Z.add_assoc in IH.
  change (w :: vs) with ([w] ++ vs). rewrite (app_assoc ws [w] vs). by eapply IH.
Qed.

(** Stores left by runs that succeeded, each with a signer whose key is pinned. *)
Inductive signed_export : WriteOnceStore → Prop :=
  | signed_start s : list_keys s (chain_prefix chain) = [] → signed_export s
  | signed_run s x now signer k res s' : signed_export s → ex_chain x = chain → ex_bucket x = bucket → ex_signer x = Some signer →
      1 ≤ ex_max_events x → (∀ key, pinned load_der ed_verify keyring signer (now key)) →
      export_events x now (take k L) s = (Ok res, s') → signed_export s'.

Lemma signed_export_host s : signed_export s → ∃ ws, signed_host s ws.
Proof.
  induction 1 as [s Hs|s x now signer k res s' _ [ws Hsh] Hx Hb Hsig Hm Hpin Hrun].
  - destruct (exported_off_host chain L HL s) as [ws Ho]; [by constructor|]. exists []. apply sorted_nil_inv in Hs. split.
    + split; [constructor|apply prefix_nil| |constructor]. unfold is_segment_key. by rewrite (list_filter_nil_weaken _ _ _ Hs).
    + constructor.
    + intros k Hk Hp. assert (Hin : In k (List.filter (starts_with (chain_prefix chain)) (dkeys (wo_objects s)))) by (apply filter_In; split; [by apply list_elem_of_In|done]).
      rewrite Hs in Hin. destruct Hin.
  - pose proof (sh_off _ _ Hsh) as Ho. revert Hrun. unfold export_events, read, liftR. unfold mbind at 1, st_bind at 1. unfold mbind at 1, st_bind at 1.
    rewrite (last_exported_ok chain L HL x s ws Hx Ho), Hx. unfold mbind, st_bind. rewrite (build_segments_ok chain L HL) by (done || apply Ho).
    intros Hloop. eexists. eapply export_loop_signed; [exact Hsig|exact Hb|exact Hpin|exact Hsh| | |exact Hloop].
    + apply windows_nonempty. lia.
    + rewrite windows_concat by lia. rewrite prefix_drop_take by apply Ho. eexists. symmetry. apply take_drop.
Qed.

(** The evidence of signed segments verifies, each segment where the one before it ended. *)
Lemma evidence_verifies s ws i h n l0 : Forall (λ w, w ≠ []) ws →
  holds s (segments_of chain i h ws) → Forall (signed_segment s) (segments_of chain i h ws) → n = i - 1 → l0 = i - 1 →
  ∃ evidence, mapM_r (evidence_of s) (map segment_key (segments_of chain i h ws)) = Ok evidence ∧ length evidence = length ws ∧
    verify_evidence load_der ed_verify evidence keyring bucket chain i h n l0 =
    Ok (n + Z.of_nat (length (concat ws)), l0 + Z.of_nat (length (concat ws)), []).
Proof.
  intros Hw. revert i h n l0. induction Hw as [|w ws Hw Hws IH]; intros i h n l0 Hh Hs Hn Hl; cbn [segments_of] in *.
  { exists []. split_and!; try done. cbn. do 3 f_equal; lia. }
  inversion_clear Hh as [|? ? Hg Hh']. inversion_clear Hs as [|? ? Hsg Hs']. set (g := segment_at chain i h w) in *.
  destruct Hsg as (identity & signer & t & sg & Hi & Ho & Hp & Hsign).
  pose proof (honest_verifies load_der ed_verify keyring signer t _ _ _ _ _ _ _ _ _ _ _ sg Hp Hsign) as Hv.
  destruct (IH (i + Z.of_nat (length w)) (end_hash h w) (n + Z.of_nat (length w)) (l0 + Z.of_nat (length w)) Hh' Hs') as (evs & He & Hlen & Hev); [lia..|].
  exists (mkEvidence (segment_key g) (so_version_id identity) (segment_body g) (signed_document sg) :: evs). split_and!.
  - assert (Hone : evidence_of s (segment_key g) = Ok (mkEvidence (segment_key g) (so_version_id identity) (segment_body g) (signed_document sg)))
      by (unfold evidence_of; by rewrite Hg, Ho, Hi).
    cbn [map mapM_r]. rewrite Hone. cbn [mbind result_bind]. by rewrite He.
  - cbn. by rewrite Hlen.
  - cbn [verify_evidence ev_segment_body ev_sidecar_body ev_object_key ev_version_id].
    change (Some h) with (Some (eg_first_previous_hash g)). change (Some i) with (Some (eg_first_sequence g)). change (Some chain) with (Some (eg_chain g)).
    rewrite Hv. cbn [build_attestation sa_last_sequence sa_first_sequence sa_last_event_hash g segment_at eg_last_sequence eg_first_sequence eg_last_event_hash].
    replace (i + Z.of_nat (length w) - 1 + 1) with (i + Z.of_nat (length w)) by lia.
    replace (n + (i + Z.of_nat (length w) - 1 - i + 1)) with (n + Z.of_nat (length w)) by lia.
    replace (i + Z.of_nat (length w) - 1) with (l0 + Z.of_nat (length w)) by lia.
    rewrite Hev. cbn [concat]. rewrite length_app. do 3 f_equal; lia.
Qed.

(** What a signing exporter leaves off the host is verifiable by anyone who holds the pinned keys: after any runs that
    succeeded, each signed by a key trusted at the time, every segment has its evidence and the chain verifies as
    authentic, up to exactly the last sequence the exporter reports. *)
Theorem signed_export_authentic x s : ex_chain x = chain → ex_bucket x = bucket → signed_export s →
  ∃ n segments, last_exported_sequence x s = Ok n ∧
    verify_authenticity load_der ed_verify x keyring s = Ok (mkChainVerification chain segments n n true []).
Proof.
  intros Hx Hb [ws Hs]%signed_export_host. pose proof (sh_off _ _ Hs) as Ho.
  exists (exported_count ws), (length ws). split; [by apply (last_exported_ok chain L HL)|].
  destruct (evidence_verifies s ws 1 GENESIS_HASH 0 0) as (evs & He & Hlen & Hv); [apply Ho|apply Ho|apply Hs|done|done|].
  unfold verify_authenticity, collect_evidence. rewrite segment_keys_sorted, Hx, (oh_keys _ _ _ _ Ho), He, Hb. cbn [mbind result_bind].
  unfold verify_exported_chain. rewrite Hv. cbn. by rewrite Hlen.
Qed.
End Signed.

(** * Concrete exports: witnesses of the theorems on exported chains, and cases the code leaves open *)

(** ** A log of three events, a keyring of one key *)

Definition sample_log : list NodeAuditEvent :=
  append_draft (append_draft (append_draft [] sample_draft (seconds 5) "nae-1") sample_draft (seconds 6) "nae-2") sample_draft (seconds 7) "nae-3".

Lemma sample_exportable : exportable "nodes" sample_log.
Proof.
  split; [reflexivity| |vm_compute; reflexivity]. unfold sample_log, append_draft, extend.
  repeat (cbn [app linked]; split; [vm_compute; reflexivity|]; split; [vm_compute; reflexivity|]; split;
    [split; [reflexivity|vm_compute; repeat split; repeat constructor; set_solver]|]). exact I.
Qed.

Definition empty_store : WriteOnceStore := mkWriteOnce [] [] "GOVERNANCE" "2099-01-01T00:00:00+00:00".
Definition at_noon (_ : string) : datetime := seconds 43200.

(** A stand-in signature scheme: a signature is the statement's digest in hexadecimal. *)
Definition toy_load (der : string) : loaded_key := Ed25519Key der.
Definition toy_verify (key m sig : string) : bool := bool_decide (sig = sha256_hex m).
Definition toy_signer : Signer := mkSigner "key-1" (λ m, Ok (sha256_hex m)).
Definition toy_keyring : Keyring := [("key-1", mkTrusted "key-1" "der" 0 (seconds 86400) None)].

Lemma toy_pinned key : pinned toy_load toy_verify toy_keyring toy_signer (at_noon key).
Proof.
  split; [vm_compute; split; congruence|]. eexists _, _. split; [reflexivity|]. split; [reflexivity|]. split; [vm_compute; split; congruence|].
  split; [done|]. intros m sig [= <-]. split; [apply sha256_hex_length|by apply bool_decide_eq_true].
Qed.

Definition plain_exporter : Exporter := mkExporter "nodes" 2 None "".
Definition signing_exporter : Exporter := mkExporter "nodes" 2 (Some toy_signer) "bucket".

(** ** Witnesses *)

Definition first_run : WriteOnceStore := final (export_events plain_exporter at_noon (take 1 sample_log) empty_store).

Lemma export_restores_witness :
  exportable "nodes" sample_log ∧ exported "nodes" sample_log first_run ∧
  gives_back "nodes" sample_log plain_exporter (final (export_events plain_exporter at_noon (take 3 sample_log) first_run)) 3.
Proof.
  assert (Hx : exported "nodes" sample_log first_run) by (apply exported_run; [by apply exported_start|done]).
  split; [apply sample_exportable|]. split; [exact Hx|].
  destruct (export_restores "nodes" sample_log first_run sample_exportable Hx) as (n & Hn & Hg & Hrun).
  specialize (Hg plain_exporter eq_refl). assert (E1 : n = 1%nat).
  { destruct Hg as (Hl & _ & _). assert (Hone : last_exported_sequence plain_exporter first_run = Ok 1) by (vm_compute; reflexivity). assert (Z.of_nat n = 1) by congruence. lia. }
  subst n. specialize (Hrun plain_exporter at_noon 3%nat eq_refl).
  assert (Hok : is_ok (outcome (export_events plain_exporter at_noon (take 3 sample_log) first_run)) = true) by (vm_compute; reflexivity).
  unfold outcome, final in *. destruct (export_events plain_exporter at_noon (take 3 sample_log) first_run) as [[res|] s']; [|done].
  destruct Hrun as (_ & _ & _ & Hrun). exact (Hrun res ltac:(cbn; lia) eq_refl).
Defined.

Definition signed_store : WriteOnceStore := final (export_events signing_exporter at_noon (take 3 sample_log) empty_store).

Lemma signed_export_authentic_witness :
  signed_export "nodes" sample_log toy_load toy_verify toy_keyring "bucket" signed_store ∧
  ∃ n segments, last_exported_sequence signing_exporter signed_store = Ok n ∧
    verify_authenticity toy_load toy_verify signing_exporter toy_keyring signed_store = Ok (mkChainVerification "nodes" segments n n true []).
Proof.
  assert (Hs : signed_export "nodes" sample_log toy_load toy_verify toy_keyring "bucket" signed_store).
  { destruct (run_is_ok (export_events signing_exporter at_noon (take 3 sample_log) empty_store)) as [res Hres]; [vm_compute; reflexivity|].
    eapply (signed_run _ _ _ _ _ _ empty_store signing_exporter at_noon toy_signer 3); [by apply signed_start|done|done|done|cbn; lia|apply toy_pinned|exact Hres]. }
  split; [exact Hs|]. exact (signed_export_authentic "nodes" sample_log sample_exportable toy_load toy_verify toy_keyring "bucket" signing_exporter signed_store eq_refl eq_refl Hs).
Defined.

Definition ok_or {E A} (r : result E A) (a0 : A) : A := match r with Ok a => a | Err _ => a0 end.
Definition signed_evidence : list StoredSegmentEvidence := ok_or (collect_evidence signing_exporter signed_store) [].

Lemma ok_inv {E A} (P : A → Prop) (r : result E A) : match r with Ok a => P a | Err _ => False end → ∃ a, r = Ok a ∧ P a.
Proof. destruct r; [eauto|done]. Qed.

Lemma authentic_chain_sound_witness :
  length signed_evidence = 2%nat ∧
  ∃ v atts, verify_exported_chain toy_load toy_verify signed_evidence toy_keyring "bucket" "nodes" GENESIS_HASH = Ok v ∧
    Forall2 (attested toy_load toy_verify toy_keyring "bucket" "nodes") signed_evidence atts ∧ contiguous 1 GENESIS_HASH atts ∧ cv_last_sequence v = 3.
Proof.
  split; [vm_compute; reflexivity|].
  assert (H : match verify_exported_chain toy_load toy_verify signed_evidence toy_keyring "bucket" "nodes" GENESIS_HASH with
    Ok v => cv_authentic v = true ∧ cv_last_sequence v = 3 | Err _ => False end) by (vm_compute; split; reflexivity).
  apply ok_inv in H as (v & Hv & Ha & Hl).
  destruct (authentic_chain_sound toy_load toy_verify signed_evidence toy_keyring "bucket" "nodes" GENESIS_HASH v Hv Ha) as (atts & HF & Hc & _).
  exists v, atts. auto.
Defined.

(** ** Cases the code leaves open *)

(** A gap before the first pending event is not noticed: with nothing stored, events 2 and 3 export, and the copy never verifies. *)
Example gap_at_the_start_exports :
  let s := final (export_events plain_exporter at_noon (drop 1 sample_log) empty_store) in
  is_ok (outcome (export_events plain_exporter at_noon (drop 1 sample_log) empty_store)) = true ∧
  match verify_export plain_exporter s with Ok v => vr_intact v = false | Err _ => False end.
Proof. vm_compute. split; reflexivity. Qed.

(** A signer that raises once leaves a segment no later run attests to, so no evidence can be collected any more. *)
Definition failing_signer : Signer := mkSigner "key-1" (λ _, Err SignatureError).
Definition failing_exporter : Exporter := mkExporter "nodes" 2 (Some failing_signer) "bucket".

Example failed_signing_is_never_repaired :
  let s1 := final (export_events failing_exporter at_noon (take 1 sample_log) empty_store) in
  let r2 := export_events signing_exporter at_noon sample_log s1 in
  is_ok (outcome r2) = true ∧ collect_evidence signing_exporter (final r2) = Err EvidenceMissing.
Proof. vm_compute. split; reflexivity. Qed.

(** [verify] compares links only: an event whose body was altered still reads as intact. *)
Definition altered (s : WriteOnceStore) : WriteOnceStore :=
  match window_segment "nodes" (take 1 sample_log) with
  | Ok g =>
      let g' := mkSegment (eg_chain g) (eg_first_sequence g) (eg_last_sequence g) (eg_first_previous_hash g) (eg_last_event_hash g)
                  (map (dset "reason" (JStr "forged")) (eg_events g)) in
      mkWriteOnce (dset (segment_key g) (segment_body g') (wo_objects s)) (wo_identities s) (wo_retention_mode s) (wo_retention_until s)
  | Err _ => s
  end.

Example altered_body_reads_intact :
  match verify_export plain_exporter (altered first_run), restore_export plain_exporter (altered first_run) with
  | Ok v, Ok [e] => vr_intact v = true ∧ dget "reason" e = Some (JStr "forged")
  | _, _ => False
  end.
Proof. vm_compute. split; reflexivity. Qed.
