(* ===== verification/AuditBundle.v ===== *)
(** Evidence bundles (src/olympus/audit_export/offline_verify.py): an exported chain written to a directory, carried to
    another machine and verified there from the pinned keys alone. *)

From stdpp Require Import pretty.
From S2P Require Import Prelude PyDict PyTime Sha256 Json JsonParse PyParse NodeScopes AgentFiles NodeAgent NodeCrypto NodeAudit AuditSigning AuditExport AuditExportFacts AuditExportProps AuditExportSigned JsonIndent.
From Stdlib Require Import Ascii.

Open Scope Z_scope.

(** [BundleError]; a manifest that is no object ([manifest.get] is an AttributeError), one that is not UTF-8, a file name with a
    null byte (a ValueError), and what loading the trust store or verifying raises. *)
Inductive bundle_exn := BundleError | ManifestNotObject | ManifestNotUtf8 | NullByteInName | VerifyFailed (e : signature_exn).

Definition BUNDLE_MANIFEST : string := "manifest.json".

Record EvidenceBundle := mkBundle { bu_bucket : string; bu_chain : string; bu_evidence : list StoredSegmentEvidence }.

(** ** The directory *)

(** The bytes a name below the directory reads as; [None] is an OSError. *)
Definition Directory : Type := string → option string.
Definition write_file (name body : string) (d : Directory) : Directory := λ n, if bool_decide (n = name) then Some body else d n.
Definition read_file (d : Directory) (name : string) : result bundle_exn string :=
  ensure (negb (str_has "000" name)) NullByteInName;; require_some (d name) BundleError.

(** ** Writing *)

(** [f"{index:06d}"] *)
Definition stem (index : Z) : string := zero_text (6 - String.length (pretty index)) +:+ pretty index.
Definition segment_name (index : Z) : string := stem index +:+ ".segment.json".
Definition signature_name (index : Z) : string := stem index +:+ ".sig.json".

(** The loop of [write_evidence_bundle]: the files, then the entries. *)
Fixpoint write_items (index : Z) (evidence : list StoredSegmentEvidence) (d : Directory) (entries : list json) : Directory * list json :=
  match evidence with
  | [] => (d, entries)
  | item :: evidence =>
      let d := write_file (segment_name index) (ev_segment_body item) d in
      let d := write_file (signature_name index) (ev_sidecar_body item) d in
      write_items (index + 1) evidence d
        (entries ++ [JObj [("object_key", JStr (ev_object_key item)); ("version_id", JStr (ev_version_id item));
                           ("segment_file", JStr (segment_name index)); ("signature_file", JStr (signature_name index))]])
  end.

Definition manifest_json (bucket chain : string) (entries : list json) : json :=
  JObj [("schema_version", JInt 1); ("bucket", JStr bucket); ("chain", JStr chain); ("segments", JList entries)].

(** [write_evidence_bundle] *)
Definition write_evidence_bundle (bucket chain : string) (evidence : list StoredSegmentEvidence) (d : Directory) : Directory :=
  let '(d, entries) := write_items 0 evidence d [] in
  write_file BUNDLE_MANIFEST (utf8 (dumps_indent (manifest_json bucket chain entries) +:+ line_feed)) d.

(** ** Loading *)

(** [str(v or "")] *)
Definition str_or_empty (v : option json) : string := match v with Some v => if truthy v then py_str v else "" | None => "" end.

(** One turn of the loop of [load_evidence_bundle] *)
Definition load_entry (d : Directory) (entry : json) : result bundle_exn StoredSegmentEvidence :=
  match entry with
  | JObj e =>
      segment_file ← require_some (dget "segment_file" e) BundleError;
      segment_body ← read_file d (py_str segment_file);
      signature_file ← require_some (dget "signature_file" e) BundleError;
      sidecar_body ← read_file d (py_str signature_file);
      object_key ← require_some (dget "object_key" e) BundleError;
      version_id ← require_some (dget "version_id" e) BundleError;
      Ok (mkEvidence (py_str object_key) (py_str version_id) segment_body sidecar_body)
  | _ => Err BundleError
  end.

(** [load_evidence_bundle] *)
Definition load_evidence_bundle (d : Directory) : result bundle_exn EvidenceBundle :=
  raw ← require_some (d BUNDLE_MANIFEST) BundleError;
  text ← require_some (utf8_decode raw) ManifestNotUtf8;
  manifest ← require_some (loads text) BundleError;
  match manifest with
  | JObj m =>
      ensure (equals_one (dget "schema_version" m)) BundleError;;
      let bucket := str_or_empty (dget "bucket" m) in
      let chain := str_or_empty (dget "chain" m) in
      ensure (negb (is_empty bucket || is_empty chain)) BundleError;;
      match dget "segments" m with
      | Some (JList entries) =>
          evidence ← mapM_r (load_entry d) entries;
          Ok (mkBundle bucket chain evidence)
      | _ => Err BundleError
      end
  | _ => Err ManifestNotObject
  end.

(** ** Verifying *)

(** [load_keyring] on the bytes of the trust store's file *)
Definition load_keyring (file : option string) : result signature_exn Keyring :=
  raw ← require_some file TrustStoreError;
  text ← require_some (utf8_decode raw) UnicodeDecodeError;
  document ← require_some (loads text) TrustStoreError;
  keyring_from_mapping document.

Definition lift_bundle {A} (r : result signature_exn A) : result bundle_exn A := match r with Ok a => Ok a | Err e => Err (VerifyFailed e) end.

Section Verify.
Context (load_der : string → loaded_key) (ed_verify : string → string → string → bool).

(** [verify_bundle] *)
Definition verify_bundle (d : Directory) (trust_store : option string) : result bundle_exn ChainVerification :=
  bundle ← load_evidence_bundle d;
  keyring ← lift_bundle (load_keyring trust_store);
  lift_bundle (verify_exported_chain load_der ed_verify (bu_evidence bundle) keyring (bu_bucket bundle) (bu_chain bundle) GENESIS_HASH).

(** [main]: the exit code, or the exception that escapes *)
Definition main (d : Directory) (trust_store : option string) : result bundle_exn Z :=
  match verify_bundle d trust_store with
  | Err BundleError => Ok 2
  | Err e => Err e
  | Ok v => Ok (if cv_authentic v then 0 else 1)
  end.
End Verify.

(** ** A bundle carries the evidence *)

Lemma digits_cut a b (r r' : string) : digits_only a = true → digits_only b = true → a +:+ String "." r = b +:+ String "." r' → a = b ∧ r = r'.
Proof.
  revert b. induction a as [|c a IH]; intros [|c' b] Ha Hb; cbn.
  - by intros [= ->].
  - intros [= <- _]. by vm_compute in Hb.
  - intros [= -> _]. by vm_compute in Ha.
  - cbn in Ha, Hb. apply andb_true_iff in Ha as [? Ha], Hb as [? Hb]. intros [= -> He]. by destruct (IH b Ha Hb He) as [-> ->].
Qed.

Lemma stem_digits n : 0 ≤ n → digits_only (stem n) = true.
Proof. intros H. pose proof (pad12_digits n H) as Hp. unfold pad12 in Hp. unfold stem, digits_only in *. rewrite all_chars_app in *. apply andb_true_iff in Hp as [_ ->]. by rewrite andb_true_r, zero_text_digits. Qed.

Lemma stem_inj a b : 0 ≤ a → 0 ≤ b → stem a = stem b → a = b.
Proof.
  intros Ha Hb He. assert (Hv : ∀ n, 0 ≤ n → digits_val 0 (stem n) = Z.to_N n).
  { intros n Hn. unfold stem. rewrite digits_val_zeros. pose proof (pad12_value n Hn) as Hp. unfold pad12 in Hp. by rewrite digits_val_zeros in Hp. }
  pose proof (Hv a Ha). pose proof (Hv b Hb). rewrite He in *. lia.
Qed.

(** The names of the item at [index] *)
Definition names_of (index : Z) (name : string) : Prop := name = segment_name index ∨ name = signature_name index.

Lemma names_apart i j name : 0 ≤ i → 0 ≤ j → names_of i name → names_of j name → i = j.
Proof.
  unfold names_of, segment_name, signature_name. intros Hi Hj. pose proof (stem_digits i Hi). pose proof (stem_digits j Hj).
  intros [-> | ->] [He|He]; apply digits_cut in He as [He Hr]; try done; by apply stem_inj.
Qed.

Lemma segment_not_signature i j : 0 ≤ i → 0 ≤ j → segment_name i ≠ signature_name j.
Proof. intros Hi Hj He. by apply digits_cut in He as [_ He]; [|apply stem_digits..]. Qed.

Lemma name_not_manifest i name : 0 ≤ i → names_of i name → name ≠ BUNDLE_MANIFEST.
Proof.
  intros Hi Hn ->. pose proof (stem_digits i Hi) as Hd. unfold names_of, segment_name, signature_name in Hn.
  destruct (stem i) as [|c s]; destruct Hn as [Hn|Hn]; try done; injection Hn as <- _; by vm_compute in Hd.
Qed.

Lemma name_no_null i name : 0 ≤ i → names_of i name → str_has "000" name = false.
Proof.
  intros Hi Hn. assert (Hs : ∀ s, str_has "000" s = false → str_has "000" (stem i +:+ s) = false).
  { intros s Hs. rewrite str_has_app, Hs, (digits_no_char _ _ (stem_digits i Hi)); done. }
  destruct Hn as [-> | ->]; by apply Hs.
Qed.

(** The entry of an item, and as it is read back *)
Definition entry_json (index : Z) (item : StoredSegmentEvidence) : json :=
  JObj [("object_key", JStr (ev_object_key item)); ("version_id", JStr (ev_version_id item));
        ("segment_file", JStr (segment_name index)); ("signature_file", JStr (signature_name index))].

Lemma entry_norm key version a b :
  jnorm (JObj [("object_key", JStr key); ("version_id", JStr version); ("segment_file", JStr a); ("signature_file", JStr b)]) =
  JObj [("object_key", JStr key); ("segment_file", JStr a); ("signature_file", JStr b); ("version_id", JStr version)].
Proof. reflexivity. Qed.

Lemma load_ordered d key version a b :
  load_entry d (JObj [("object_key", JStr key); ("segment_file", JStr a); ("signature_file", JStr b); ("version_id", JStr version)]) =
  (segment_body ← read_file d a; sidecar_body ← read_file d b; Ok (mkEvidence key version segment_body sidecar_body)).
Proof. reflexivity. Qed.

Fixpoint entries_of (index : Z) (evidence : list StoredSegmentEvidence) : list json :=
  match evidence with [] => [] | item :: evidence => entry_json index item :: entries_of (index + 1) evidence end.

Lemma write_items_entries i evidence d entries : (write_items i evidence d entries).2 = entries ++ entries_of i evidence.
Proof.
  revert i d entries. induction evidence as [|item evidence IH]; intros i d entries; cbn [write_items entries_of]; [by rewrite app_nil_r|].
  rewrite IH. by rewrite <- app_assoc.
Qed.

Lemma write_items_other i evidence d entries name : (∀ j, i ≤ j → ¬ names_of j name) → (write_items i evidence d entries).1 name = d name.
Proof.
  revert i d entries. induction evidence as [|item evidence IH]; intros i d entries Hn; cbn [write_items]; [done|].
  rewrite IH by (intros j Hj; apply Hn; lia). unfold write_file. specialize (Hn i ltac:(lia)).
  rewrite !bool_decide_eq_false_2; [done|..]; intros ->; apply Hn; [by left|by right].
Qed.

(** A directory that holds the items' files from [index] on gives the items back. *)
Fixpoint holds_items (index : Z) (evidence : list StoredSegmentEvidence) (d : Directory) : Prop :=
  match evidence with
  | [] => True
  | item :: evidence => d (segment_name index) = Some (ev_segment_body item) ∧ d (signature_name index) = Some (ev_sidecar_body item) ∧
      holds_items (index + 1) evidence d
  end.

Lemma holds_items_ext i evidence (d d' : Directory) : 0 ≤ i → (∀ j name, i ≤ j → names_of j name → d' name = d name) → holds_items i evidence d → holds_items i evidence d'.
Proof.
  revert i. induction evidence as [|item evidence IH]; intros i Hi Hd; cbn [holds_items]; [done|]. intros (H1 & H2 & H3).
  rewrite (Hd i) by (done || by left). rewrite (Hd i (signature_name i)) by (done || by right). split_and!; [done..|].
  apply IH; [lia| |done]. intros j name Hj. apply Hd. lia.
Qed.

Lemma write_items_holds i evidence d entries : 0 ≤ i → holds_items i evidence (write_items i evidence d entries).1.
Proof.
  revert i d entries. induction evidence as [|item evidence IH]; intros i d entries Hi; cbn [write_items holds_items]; [done|].
  assert (Hlater : ∀ name, names_of i name → ∀ j, i + 1 ≤ j → ¬ names_of j name).
  { intros name Hn j Hj Hn'. pose proof (names_apart i j name Hi ltac:(lia) Hn Hn'). lia. }
  rewrite !write_items_other by (apply Hlater; first [by left | by right]). split_and!; [| |apply IH; lia]; unfold write_file.
  - rewrite bool_decide_eq_false_2 by by apply segment_not_signature. by rewrite bool_decide_eq_true_2.
  - by rewrite bool_decide_eq_true_2.
Qed.

Lemma load_entries i evidence d : 0 ≤ i → holds_items i evidence d → mapM_r (load_entry d) (map jnorm (entries_of i evidence)) = Ok evidence.
Proof.
  revert i. induction evidence as [|item evidence IH]; intros i Hi; cbn [holds_items entries_of map mapM_r]; [done|]. intros (H1 & H2 & H3).
  rewrite (IH (i + 1) ltac:(lia) H3). unfold entry_json. generalize (name_no_null i (segment_name i) Hi (or_introl eq_refl)), (name_no_null i (signature_name i) Hi (or_intror eq_refl)).
  revert H1 H2. generalize (segment_name i), (signature_name i). intros a b H1 H2 Ha Hb.
  rewrite entry_norm, load_ordered. unfold read_file. rewrite Ha, Hb. cbn. rewrite H1, H2. cbn. by destruct item.
Qed.

Lemma entries_wf i evidence : json_wf (JList (entries_of i evidence)).
Proof.
  revert i. induction evidence as [|item evidence IH]; intros i; [done|]. cbn [entries_of]. specialize (IH (i + 1)). cbn in *.
  split; [|done]. repeat split. repeat constructor; set_solver.
Qed.

Lemma str_or_empty_str s : str_or_empty (Some (JStr s)) = s.
Proof. by destruct s. Qed.

(** What [write_evidence_bundle] wrote, over whatever the directory held, [load_evidence_bundle] loads. *)
Lemma bundle_loads bucket chain evidence d : bucket ≠ "" → chain ≠ "" →
  load_evidence_bundle (write_evidence_bundle bucket chain evidence d) = Ok (mkBundle bucket chain evidence).
Proof.
  intros Hb Hc. unfold write_evidence_bundle. pose proof (write_items_entries 0 evidence d []) as He. pose proof (write_items_holds 0 evidence d [] ltac:(lia)) as Hh.
  destruct (write_items 0 evidence d []) as [d' entries]. cbn [fst snd app] in He, Hh. subst entries.
  set (m := manifest_json _ _ _). set (d'' := write_file _ _ d').
  assert (Hd : holds_items 0 evidence d'').
  { apply (holds_items_ext _ _ d'); [lia| |done]. intros j name Hj Hn. unfold d'', write_file. by rewrite bool_decide_eq_false_2 by by apply (name_not_manifest j). }
  unfold load_evidence_bundle. assert (d'' BUNDLE_MANIFEST = Some (utf8 (dumps_indent m +:+ line_feed))) as -> by (unfold d'', write_file; by rewrite bool_decide_eq_true_2).
  clearbody d''. cbn [require_some mbind result_bind]. rewrite utf8_decode_encode. cbn [require_some mbind result_bind].
  rewrite loads_indent; [|unfold m; pose proof (entries_wf 0 evidence) as Hw; unfold manifest_json; cbn; repeat split; [repeat constructor; set_solver|exact Hw]|by right].
  assert (jnorm m = JObj [("bucket", JStr bucket); ("chain", JStr chain); ("schema_version", JInt 1); ("segments", JList (map jnorm (entries_of 0 evidence)))]) as -> by reflexivity.
  cbn [require_some mbind result_bind]. set (l := map jnorm _). set (o := [("bucket", _); _; _; _]).
  assert (dget "schema_version" o = Some (JInt 1)) as -> by reflexivity. assert (dget "bucket" o = Some (JStr bucket)) as -> by reflexivity.
  assert (dget "chain" o = Some (JStr chain)) as -> by reflexivity. assert (dget "segments" o = Some (JList l)) as -> by reflexivity.
  rewrite !str_or_empty_str. assert (is_empty bucket || is_empty chain = false) as -> by by destruct bucket, chain.
  cbn [equals_one ensure negb mbind result_bind]. subst l. by rewrite load_entries by (lia || done).
Qed.

(** ** What offline verification says *)

Section Verdict.
Context (load_der : string → loaded_key) (ed_verify : string → string → string → bool).

Lemma main_authentic d trust_store : main load_der ed_verify d trust_store = Ok 0 →
  ∃ b keyring v, load_evidence_bundle d = Ok b ∧ load_keyring trust_store = Ok keyring ∧ cv_authentic v = true ∧
    verify_exported_chain load_der ed_verify (bu_evidence b) keyring (bu_bucket b) (bu_chain b) GENESIS_HASH = Ok v.
Proof.
  unfold main. destruct (verify_bundle _ _ d trust_store) as [v|[]] eqn:Hv; try done. destruct (cv_authentic v) eqn:Ha; [|done]. intros _.
  unfold verify_bundle in Hv. apply bind_Ok in Hv as (b & Hb & Hv). apply bind_Ok in Hv as (keyring & Hk & Hv). exists b, keyring, v.
  destruct (load_keyring trust_store); [|done]. injection Hk as ->.
  destruct (verify_exported_chain _ _ _ _ _ _ _) as [v'|]; [|done]. injection Hv as ->. auto.
Qed.

(** C30. Offline verification exits with 0 only on authentic evidence: whatever the directory holds, the segments its manifest
    names are bytes and object identities that keys of the trust store attested to for the bucket and chain named, following on
    from one another from sequence 1 and the genesis hash. And it loses nothing: evidence collected from the store and written
    as a bundle, over whatever the directory held before, loads as it was collected, and the verdict on the bundle is the
    exporter's own verdict on the store. *)
Theorem offline_verdict x s evidence trust_store keyring d :
  ex_bucket x ≠ "" → ex_chain x ≠ "" → collect_evidence x s = Ok evidence → load_keyring trust_store = Ok keyring →
  (∀ d', main load_der ed_verify d' trust_store = Ok 0 →
     ∃ b atts, load_evidence_bundle d' = Ok b ∧ Forall2 (attested load_der ed_verify keyring (bu_bucket b) (bu_chain b)) (bu_evidence b) atts ∧
       contiguous 1 GENESIS_HASH atts) ∧
  let bundle := write_evidence_bundle (ex_bucket x) (ex_chain x) evidence d in
  load_evidence_bundle bundle = Ok (mkBundle (ex_bucket x) (ex_chain x) evidence) ∧
  ∀ v, verify_bundle load_der ed_verify bundle trust_store = Ok v ↔ verify_authenticity load_der ed_verify x keyring s = Ok v.
Proof.
  intros Hb Hc He Hk. split.
  - intros d' (b & keyring' & v & Hl & Hk' & Ha & Hv)%main_authentic. assert (keyring' = keyring) as -> by congruence.
    destruct (authentic_chain_sound _ _ _ _ _ _ _ _ Hv Ha) as (atts & HF & Hcn & _). by exists b, atts.
  - intros bundle. pose proof (bundle_loads _ _ evidence d Hb Hc) as Hl. fold bundle in Hl. split; [exact Hl|]. clearbody bundle. intros v.
    unfold verify_bundle, verify_authenticity. rewrite Hl, He, Hk. cbn [mbind result_bind lift_bundle bu_evidence bu_bucket bu_chain].
    unfold lift_sig, lift_bundle. destruct (verify_exported_chain _ _ _ _ _ _ _); split; congruence.
Qed.
End Verdict.

(** ** A bundle of a signed export *)

Definition toy_trust_store : string := "{" +:+ joins "," [
  quote "schema_version" +:+ ":1";
  quote "signers" +:+ ":[{" +:+ joins "," [
    quote "key_id" +:+ ":" +:+ quote "key-1"; quote "public_key_der_b64" +:+ ":" +:+ quote "ZGVy";
    quote "not_before" +:+ ":" +:+ quote "1970-01-01T00:00:00+00:00"; quote "not_after" +:+ ":" +:+ quote "1970-01-02T00:00:00+00:00"] +:+ "}]"] +:+ "}".

Definition empty_directory : Directory := λ _, None.
Definition sample_bundle : Directory := write_evidence_bundle "bucket" "nodes" signed_evidence empty_directory.

Lemma offline_verdict_witness :
  load_evidence_bundle sample_bundle = Ok (mkBundle "bucket" "nodes" signed_evidence) ∧
  ∃ b atts, load_evidence_bundle sample_bundle = Ok b ∧ length atts = 2%nat ∧
    Forall2 (attested toy_load toy_verify toy_keyring (bu_bucket b) (bu_chain b)) (bu_evidence b) atts ∧ contiguous 1 GENESIS_HASH atts.
Proof.
  unfold sample_bundle. assert (He : collect_evidence signing_exporter signed_store = Ok signed_evidence) by (vm_compute; reflexivity).
  assert (Hk : load_keyring (Some toy_trust_store) = Ok toy_keyring) by (vm_compute; reflexivity).
  destruct (offline_verdict toy_load toy_verify signing_exporter signed_store signed_evidence (Some toy_trust_store) toy_keyring empty_directory
    ltac:(done) ltac:(done) He Hk) as (Hsound & Hl & _).
  cbn [ex_bucket ex_chain signing_exporter] in Hl.
  split; [exact Hl|]. assert (Hm : main toy_load toy_verify (write_evidence_bundle "bucket" "nodes" signed_evidence empty_directory) (Some toy_trust_store) = Ok 0) by (vm_compute; reflexivity).
  destruct (Hsound _ Hm) as (b & atts & Hb & HF & Hc). exists b, atts. split_and!; [exact Hb| |exact HF|exact Hc].
  assert (b = mkBundle "bucket" "nodes" signed_evidence) as -> by congruence.
  apply Forall2_length in HF. rewrite <- HF. vm_compute. reflexivity.
Defined.

(** A bundle without segments is authentic evidence of nothing. *)
Example empty_bundle_is_authentic :
  main toy_load toy_verify (write_evidence_bundle "bucket" "nodes" [] empty_directory) (Some toy_trust_store) = Ok 0.
Proof. vm_compute. reflexivity. Qed.

(** Leaving out the last segments leaves an authentic bundle: the manifest is not signed and no high-water mark is known offline. *)
Example truncated_bundle_is_authentic :
  main toy_load toy_verify (write_evidence_bundle "bucket" "nodes" (take 1 signed_evidence) empty_directory) (Some toy_trust_store) = Ok 0.
Proof. vm_compute. reflexivity. Qed.

(** A manifest that is a JSON list escapes [except BundleError]. *)
Example list_manifest_escapes :
  main toy_load toy_verify (write_file BUNDLE_MANIFEST "[]" empty_directory) (Some toy_trust_store) = Err ManifestNotObject.
Proof. vm_compute. reflexivity. Qed.
