(* ===== verification/S3Store.v ===== *)
(** S3 behind a write-once surface: S3ObjectLockStore of src/olympus/audit_export/store.py.

    The S3 client is a class: its calls act on a bucket and answer with a response or an error code. [S3Laws] states what
    Amazon documents of a versioned bucket whose objects are stored with a SHA-256 checksum: a response describes the stored
    object, a conditional put never replaces one, and an object once stored stays. *)

From S2P Require Import Prelude PyDict PyTime Sha256 Json JsonParse AgentFiles NodeAgent AuditSigning AuditExport.
From Stdlib Require Import Ascii.

Open Scope Z_scope.

Inductive store_exn := StoreValueError (msg : string) | KeyExists | ObjectStoreError.

(** What the code reads from a response; where the code reads an absent string as the empty one, so does the record. *)
Record S3Response := mkResponse {
  sr_content_length : Z;
  sr_checksum : option string;
  sr_encryption : string;
  sr_retain_until : option datetime;
  sr_lock_mode : string;
  sr_version_id : string }.

(** The arguments of [put_object]; [Some "*"] is [IfNoneMatch="*"]. *)
Record PutRequest := mkPut {
  pr_key : string; pr_body : string; pr_content_type : string; pr_checksum : option string; pr_encryption : string; pr_if_none_match : option string }.
Definition conditional (q : PutRequest) : Prop := pr_if_none_match q = Some "*".

(** A page of [list_objects_v2] *)
Record ListPage := mkPage { lp_keys : list string; lp_truncated : bool; lp_next : option string }.

(** A call raises with an error code or answers. *)
Class S3Client (C : Type) := {
  s3_put_object : PutRequest → C → result string S3Response * C;
  s3_head_object : string → C → result string S3Response;
  s3_get_object : string → C → result string string;
  s3_list_objects : string → option string → C → result string ListPage;
  s3_delete_object : string → string → bool → C → result string () * C;
  s3_object_lock : C → result string (option string * option Z) }.

(** An object of the bucket. *)
Record S3Object := mkS3Object {
  ob_body : string; ob_version : string; ob_encryption : string; ob_mode : string; ob_until : datetime }.

Definition b64_digest (body : string) : string := standard_b64encode (sha256 body).
Definition describes (o : S3Object) (r : S3Response) : Prop :=
  sr_content_length r = Z.of_nat (String.length (ob_body o)) ∧ sr_checksum r = Some (b64_digest (ob_body o)) ∧ sr_encryption r = ob_encryption o ∧
  sr_retain_until r = Some (ob_until o) ∧ sr_lock_mode r = ob_mode o ∧ sr_version_id r = ob_version o.

(** [s3_object c key] is the object under [key]. A put may also fail after the object was stored. *)
Class S3Laws (C : Type) `{S3Client C} := {
  s3_object : C → string → option S3Object;
  s3_head_describes : ∀ key c r, s3_head_object key c = Ok r → ∃ o, s3_object c key = Some o ∧ describes o r;
  s3_get_body : ∀ key c body, s3_get_object key c = Ok body → ∃ o, s3_object c key = Some o ∧ ob_body o = body;
  s3_put_keeps : ∀ q c key o, conditional q ∨ key ≠ pr_key q → s3_object c key = Some o → s3_object (s3_put_object q c).2 key = Some o;
  s3_delete_refused : ∀ key version bypass c code c', s3_delete_object key version bypass c = (Err code, c') → ∀ k, s3_object c' k = s3_object c k;
  s3_put_stores : ∀ q c r c', s3_put_object q c = (Ok r, c') →
    (conditional q → s3_object c (pr_key q) = None) ∧ ∃ o, s3_object c' (pr_key q) = Some o ∧ ob_body o = pr_body q }.

Section Store.
Context {C : Type} `{S3Client C}.

Record LockStore := mkLockStore { lk_expected_days : option Z; lk_expected_mode : option string }.

(** [S3ObjectLockStore.__init__] *)
Definition make_lock_store (s : LockStore) : result store_exn LockStore :=
  ensure (match lk_expected_days s with Some d => 1 <=? d | None => true end) (StoreValueError "expected_retention_days must be at least one day");;
  ensure (match lk_expected_mode s with Some m => bool_decide (m = "COMPLIANCE") || bool_decide (m = "GOVERNANCE") | None => true end)
    (StoreValueError "expected_retention_mode must be COMPLIANCE or GOVERNANCE");;
  Ok s.

(** [assert_retention_configured] *)
Definition assert_retention_configured (s : LockStore) (c : C) : result store_exn (string * Z) :=
  match s3_object_lock c with
  | Ok (Some mode, Some days) =>
      ensure (negb (is_empty mode || (days =? 0))) ObjectStoreError;;
      ensure (match lk_expected_mode s with Some m => bool_decide (mode = m) | None => true end) ObjectStoreError;;
      ensure (match lk_expected_days s with Some d => d <=? days | None => true end) ObjectStoreError;;
      Ok (mode, days)
  | _ => Err ObjectStoreError
  end.

Definition is_not_found (code : string) : bool := bool_decide (code ∈ ["NoSuchKey"; "404"; "NotFound"]).
Definition is_precondition_failure (code : string) : bool := bool_decide (code ∈ ["PreconditionFailed"; "412"]).

(** [_identity_from_response] *)
Definition identity_from_response (key : string) (r : S3Response) : StoredObject :=
  mkStored key (sr_version_id r) (sr_lock_mode r) (match sr_retain_until r with Some t => isoformat t | None => "" end).

Definition lock_head (key : string) (c : C) : result store_exn (option StoredObject) :=
  match s3_head_object key c with
  | Ok r => Ok (Some (identity_from_response key r))
  | Err code => if is_not_found code then Ok None else Err ObjectStoreError
  end.

Definition lock_get (key : string) (c : C) : result store_exn (option string) :=
  match s3_get_object key c with
  | Ok body => Ok (Some body)
  | Err code => if is_not_found code then Ok None else Err ObjectStoreError
  end.

Definition sealed (i : StoredObject) : bool := negb (is_empty (so_retention_mode i)) && negb (is_empty (so_retention_until i)).

(** [put_once] *)
Definition lock_put_once (key body : string) : St C store_exn StoredObject := λ c,
  match lock_get key c with
  | Err e => (Err e, c)
  | Ok (Some _) => (Err KeyExists, c)
  | Ok None =>
      match s3_put_object (mkPut key body "" (Some (b64_digest body)) "" (Some "*")) c with
      | (Err code, c') => (Err (if is_precondition_failure code then KeyExists else ObjectStoreError), c')
      | (Ok response, c') =>
          let identity := identity_from_response key response in
          (if sealed identity then Ok identity
           else
             observed ← lock_head key c';
             match observed with
             | None => Err ObjectStoreError
             | Some o => ensure (sealed o) ObjectStoreError;; Ok o
             end, c')
      end
  end.

(** [list_keys]: the loop over the pages, [fuel] of them at most; an empty token is not sent. *)
Fixpoint list_pages (fuel : nat) (prefix : string) (token : option string) (keys : list string) (c : C) : option (result store_exn (list string)) :=
  match fuel with
  | O => None
  | S fuel =>
      match s3_list_objects prefix (match token with Some t => if is_empty t then None else Some t | None => None end) c with
      | Err _ => Some (Err ObjectStoreError)
      | Ok page =>
          let keys := keys ++ lp_keys page in
          if lp_truncated page then list_pages fuel prefix (lp_next page) keys c else Some (Ok (sorted keys))
      end
  end.
Definition lock_list_keys (fuel : nat) (prefix : string) (c : C) : option (result store_exn (list string)) := list_pages fuel prefix None [] c.

(** A listing that ends: the pages a token leads to, each naming the next by a token that is not empty. *)
Inductive listing (prefix : string) (c : C) : option string → list (list string) → Prop :=
  | listing_last token keys next : s3_list_objects prefix token c = Ok (mkPage keys false next) → listing prefix c token [keys]
  | listing_more token keys next pages : s3_list_objects prefix token c = Ok (mkPage keys true (Some next)) → next ≠ "" →
      listing prefix c (Some next) pages → listing prefix c token (keys :: pages).

(** The loop returns, with the keys of every page. *)
Lemma list_pages_complete prefix c token pages : listing prefix c token pages → (∀ t, token = Some t → t ≠ "") →
  ∀ fuel keys, (length pages ≤ fuel)%nat → list_pages fuel prefix token keys c = Some (Ok (sorted (keys ++ concat pages))).
Proof.
  assert (Hsend : ∀ token : option string, (∀ t, token = Some t → t ≠ "") → match token with Some t => if is_empty t then None else Some t | None => None end = token).
  { intros [t|] Ht; [|done]. specialize (Ht t eq_refl). by destruct t. }
  induction 1 as [token page next Hp|token page next pages Hp Hn _ IH]; intros Ht [|fuel] keys Hf; cbn in Hf; [lia| |lia|]; cbn [list_pages]; rewrite Hsend, Hp by done; cbn.
  - by rewrite app_nil_r.
  - rewrite IH by (try lia; congruence). by rewrite <- app_assoc.
Qed.

Lemma lock_list_keys_complete prefix c pages fuel : listing prefix c None pages → (length pages ≤ fuel)%nat →
  lock_list_keys fuel prefix c = Some (Ok (sorted (concat pages))).
Proof. intros Hl Hf. by apply (list_pages_complete _ _ _ _ Hl). Qed.

(** What [put_once] hands back was stored now, under a free key, with this body, and is sealed. *)
Lemma lock_put_once_stores `{!S3Laws C} key body c i c' : lock_put_once key body c = (Ok i, c') →
  s3_object c key = None ∧ sealed i = true ∧ so_key i = key ∧ ∃ o, s3_object c' key = Some o ∧ ob_body o = body.
Proof.
  unfold lock_put_once. destruct (lock_get key c) as [[?|]|]; [done| |done]. destruct (s3_put_object _ c) as [[r|code] c1] eqn:Ep; [|done].
  destruct (s3_put_stores _ _ _ _ Ep) as (Hn & o & Ho & Hb). specialize (Hn eq_refl). cbn in Hn, Ho, Hb. destruct (sealed _) eqn:Es.
  - intros [= <- <-]. split_and!; [done..|]. by exists o.
  - intros [= Hh <-]. apply bind_Ok in Hh as (observed & Hh & Hk). destruct observed as [i'|]; [|done].
    apply bind_Ok in Hk as (? & Hs%ensure_Ok & [= <-]). unfold lock_head in Hh. destruct (s3_head_object key c1); [|by case_match].
    injection Hh as <-. split_and!; [done..|]. by exists o.
Qed.
End Store.
