(* ===== verification/AuditExportJob.v ===== *)
(** The scheduled export (src/olympus/runtime/audit_export_job.py): both audit chains pushed off the host and verified there.

    The bucket's Object Lock configuration is read through the S3 client; its objects are a [WriteOnceStore], the protocol the
    exporter is written against. KMS is a parameter: what signing a statement with a key gives, if anything. The events are what
    the two repositories returned. *)

From S2P Require Import Prelude PyDict PyTime Sha256 Json JsonParse PyParse NodeScopes AuthorityRepository NodeAudit AuditSigning AuditExport AuditExportFacts AuditExportProps AuditExportSigned S3Store AuditBundle.

Open Scope Z_scope.

(** [AuditExportNotConfigured], what the steps raise, and [SystemExit(1)] *)
Inductive job_exn := NotConfigured | StoreFailed (e : store_exn) | ExportFailed (e : export_exn) | TrustFailed (e : signature_exn) | KeyIdEmpty | NotAuthentic.

Record ExportSettings := mkExportSettings {
  xs_bucket : option string;
  xs_kms_key_id : option string;
  xs_chain : string;
  xs_node_chain : string;
  xs_node_database : bool;
  xs_retention_days : Z;
  xs_retention_mode : string }.

(** [KmsEd25519Signer] *)
Definition kms_signer (kms : string → string → option string) (key_id : string) : result job_exn Signer :=
  ensure (negb (is_blank key_id)) KeyIdEmpty;;
  Ok (mkSigner key_id (λ statement,
    signature ← require_some (kms key_id statement) SigningFailed;
    ensure (String.length signature =? 64)%nat SignatureError;;
    Ok signature)).

Definition lift_st {E E' S A} (f : E → E') (m : St S E A) : St S E' A := λ s, let '(r, s') := m s in (match r with Ok a => Ok a | Err e => Err (f e) end, s').

Section Job.
Context (load_der : string → loaded_key) (ed_verify : string → string → string → bool) (kms : string → string → option string).
Context (trust_store : option string) (now : string → datetime).

(** [_export_chain] *)
Definition export_chain {E} `{Chained E} (chain : string) (events : list E) (bucket kms_key_id : string) :
    St WriteOnceStore job_exn (nat * ChainVerification) :=
  signer ← liftR (kms_signer kms kms_key_id);
  exporter ← lift_st ExportFailed (liftR (make_exporter chain 500 (Some signer) bucket));
  r ← lift_st ExportFailed (export_events exporter now events);
  keyring ← lift_st TrustFailed (liftR (load_keyring trust_store));
  s ← read;
  v ← lift_st ExportFailed (liftR (verify_authenticity load_der ed_verify exporter keyring s));
  mret (er_events_exported r, v).

(** [_node_mesh_events]: without a node-mesh database there is nothing to read *)
Definition node_mesh_events (settings : ExportSettings) (stored : list NodeAuditEvent) : list NodeAuditEvent :=
  if xs_node_database settings then stored else [].

(** [run_once] *)
Definition run_once {C} `{S3Client C} (settings : ExportSettings) (c : C) (events : list AuditEvent) (node_stored : list NodeAuditEvent) :
    St WriteOnceStore job_exn nat :=
  match xs_bucket settings, xs_kms_key_id settings with
  | Some bucket, Some kms_key_id =>
      store ← lift_st StoreFailed (liftR (make_lock_store (mkLockStore (Some (xs_retention_days settings)) (Some (xs_retention_mode settings)))));
      lift_st StoreFailed (liftR (assert_retention_configured store c));;
      authority ← export_chain (xs_chain settings) events bucket kms_key_id;
      match node_mesh_events settings node_stored with
      | [] =>
          check (cv_authentic authority.2) NotAuthentic;;
          mret authority.1
      | node_events =>
          node ← export_chain (xs_node_chain settings) node_events bucket kms_key_id;
          check (cv_authentic authority.2 && cv_authentic node.2) NotAuthentic;;
          mret (authority.1 + node.1)%nat
      end
  | _, _ => raise NotConfigured
  end.

(** [main]: the exit code, or the exception that escapes *)
Definition job_main {C} `{S3Client C} (settings : ExportSettings) (c : C) (events : list AuditEvent) (node_stored : list NodeAuditEvent) :
    St WriteOnceStore job_exn Z := λ s,
  let '(r, s') := run_once settings c events node_stored s in
  (match r with
   | Ok _ | Err NotConfigured => Ok 0
   | Err NotAuthentic => Ok 1
   | Err e => Err e
   end, s').
End Job.

(** ** Nothing stored changes *)

Record kept (s s' : WriteOnceStore) : Prop := {
  kept_object : ∀ k b, get_object s k = Some b → get_object s' k = Some b;
  kept_identity : ∀ k i, is_Some (get_object s k) → head_object s k = Some i → head_object s' k = Some i }.

#[export] Instance kept_preorder : PreOrder kept.
Proof.
  split; [by intros s; split|]. intros s1 s2 s3 [O1 I1] [O2 I2]. split; [by auto|]. intros k i Hk Hi. apply I2; [|by apply I1].
  destruct Hk as [b Hb]. eauto.
Qed.

Lemma keeps_lift {S E E' A} (I : S → Prop) (f : E → E') (m : St S E A) : keeps I m → keeps I (lift_st f m).
Proof. intros Hm s Hs. specialize (Hm s Hs). unfold lift_st, final in *. by destruct (m s). Qed.

Lemma put_once_keeps s0 key body : keeps (kept s0) (put_once key body).
Proof.
  intros s Hs. pose proof (put_once_run key body s) as H. destruct (put_once key body s) as [[i|e] s']; cbn; [|by destruct H as (_ & -> & _)].
  destruct H as (Hf & Ho & Hi). etrans; [exact Hs|]. split.
  - intros k b Hb. unfold get_object in *. rewrite Ho. by apply dget_app_Some.
  - intros k j [b Hb] Hj. rewrite Hi, decide_False; [done|]. intros <-. by apply dget_Some_key in Hb.
Qed.

Ltac keep := repeat first [lazymatch goal with |- keeps _ (_ ≫= _) => apply keeps_bind; [|intros ?] | |- keeps _ (put_once _ _) => apply put_once_keeps end | apply keeps_lift | by apply keeps_pure].

Lemma attest_keeps s0 x now g identity : keeps (kept s0) (attest x now g identity).
Proof. unfold attest. destruct (ex_signer x); keep. Qed.

Lemma export_segment_keeps s0 x now g : keeps (kept s0) (export_segment x now g).
Proof.
  intros s Hs. unfold export_segment. assert (H : keeps (kept s0) (identity ← put_once (segment_key g) (segment_body g); attest x now g identity)) by (keep; apply attest_keeps).
  specialize (H s Hs). unfold final in *. match goal with H : kept _ (?p).2 |- _ => destruct p as [[?|[]] s'] end; cbn in *; try exact H. by destruct (bool_decide _).
Qed.

Lemma export_loop_keeps s0 x now gs r : keeps (kept s0) (export_loop x now gs r).
Proof. revert r. induction gs as [|g gs IH]; intros r; cbn [export_loop]; [keep|]. apply keeps_bind; [apply export_segment_keeps|auto]. Qed.

Lemma export_events_keeps {E} `{Chained E} s0 x now (events : list E) : keeps (kept s0) (export_events x now events).
Proof. unfold export_events. keep. apply export_loop_keeps. Qed.

(** ** What a run that returns has shown *)

(** The store holds evidence of the chain, attested by keys of the keyring and following on from the genesis hash. *)
Definition attested_chain load_der ed_verify (keyring : Keyring) (bucket chain : string) (s : WriteOnceStore) : Prop :=
  ∃ evidence atts, Forall (λ item, evidence_of s (ev_object_key item) = Ok item) evidence ∧
    Forall2 (attested load_der ed_verify keyring bucket chain) evidence atts ∧ contiguous 1 GENESIS_HASH atts.

Lemma kept_evidence s s' key item : kept s s' → evidence_of s key = Ok item → evidence_of s' key = Ok item.
Proof.
  intros [Ko Ki]. unfold evidence_of. destruct (get_object s key) as [b|] eqn:Hb; [|done]. destruct (get_object s (signature_key_for key)) eqn:Hs; [|done].
  destruct (head_object s key) eqn:Hh; [|done]. by rewrite (Ko _ _ Hb), (Ko _ _ Hs), (Ki _ _ (ex_intro _ b Hb) Hh).
Qed.

Lemma kept_chain load_der ed_verify keyring bucket chain s s' : kept s s' →
  attested_chain load_der ed_verify keyring bucket chain s → attested_chain load_der ed_verify keyring bucket chain s'.
Proof. intros Hk (evidence & atts & He & HF & Hc). exists evidence, atts. split_and!; [|done..]. eapply Forall_impl; [exact He|]. intros item. by apply kept_evidence. Qed.

Lemma evidence_of_key s key item : evidence_of s key = Ok item → ev_object_key item = key.
Proof. unfold evidence_of. repeat (case_match; [|done..]). by intros [= <-]. Qed.

Lemma lift_st_Ok {E E' S A} (f : E → E') (m : St S E A) s a s' : lift_st f m s = (Ok a, s') → m s = (Ok a, s').
Proof. unfold lift_st. destruct (m s) as [[]]; congruence. Qed.

Section Sound.
Context (load_der : string → loaded_key) (ed_verify : string → string → string → bool) (kms : string → string → option string).
Context (trust_store : option string) (now : string → datetime).

Lemma export_chain_keeps {E} `{Chained E} s0 chain (events : list E) bucket key : keeps (kept s0) (export_chain load_der ed_verify kms trust_store now chain events bucket key).
Proof. unfold export_chain. keep. apply export_events_keeps. Qed.

Lemma export_chain_sound {E} `{Chained E} chain (events : list E) bucket key s n v s' :
  export_chain load_der ed_verify kms trust_store now chain events bucket key s = (Ok (n, v), s') → cv_authentic v = true →
  kept s s' ∧ ∃ keyring, load_keyring trust_store = Ok keyring ∧ attested_chain load_der ed_verify keyring bucket chain s'.
Proof.
  intros Hr Ha. pose proof (export_chain_keeps s chain events bucket key s (reflexivity s)) as Hk. rewrite Hr in Hk. split; [exact Hk|]. revert Hr. unfold export_chain.
  intros (signer & s1 & _ & Hr)%bind_run_inv. apply bind_run_inv in Hr as (x & s2 & Hx%lift_st_Ok & Hr). apply bind_run_inv in Hr as (res & s3 & _ & Hr).
  apply bind_run_inv in Hr as (keyring & s4 & Hkr%lift_st_Ok & Hr). apply bind_run_inv in Hr as (s5 & s6 & [= -> ->] & Hr).
  apply bind_run_inv in Hr as (v' & s7 & Hv%lift_st_Ok & [= _ -> ->]). injection Hkr as Hkr _. injection Hv as Hv ->. injection Hx as Hx _.
  exists keyring. split; [exact Hkr|]. unfold make_exporter in Hx. apply bind_Ok in Hx as (? & _ & Hx). apply bind_Ok in Hx as (? & _ & [= <-]).
  unfold verify_authenticity in Hv. apply bind_Ok in Hv as (evidence & He & Hv). cbn [ex_bucket ex_chain] in Hv.
  destruct (verify_exported_chain _ _ _ _ _ _ _) as [v'|] eqn:Ev; [|done]. injection Hv as ->.
  destruct (authentic_chain_sound _ _ _ _ _ _ _ _ Ev Ha) as (atts & HF & Hc & _). exists evidence, atts. split_and!; [|done..].
  apply Forall_forall. intros item Hi. destruct (mapM_r_lookup _ _ _ _ He Hi) as (k & _ & Hk'). by rewrite (evidence_of_key _ _ _ Hk').
Qed.

(** The job reports success (a count, and so the exit code 0 of a configured gateway) only when the bucket seals what it is given
    in the mode configured and for as long, everything stored before is still there unchanged, and the store holds evidence of
    the authority chain, and of the node chain when this host has node events, attested by keys of the pinned trust store and
    following on from the genesis hash. *)
Theorem export_job_sound {C} `{S3Client C} settings (c : C) events node_stored s n s' :
  run_once load_der ed_verify kms trust_store now settings c events node_stored s = (Ok n, s') →
  (∃ days, s3_object_lock c = Ok (Some (xs_retention_mode settings), Some days) ∧ 1 ≤ xs_retention_days settings ≤ days) ∧ kept s s' ∧
  ∃ bucket keyring, xs_bucket settings = Some bucket ∧ load_keyring trust_store = Ok keyring ∧
    attested_chain load_der ed_verify keyring bucket (xs_chain settings) s' ∧
    (node_mesh_events settings node_stored ≠ [] → attested_chain load_der ed_verify keyring bucket (xs_node_chain settings) s').
Proof.
  unfold run_once. destruct (xs_bucket settings) as [bucket|]; [|done]. destruct (xs_kms_key_id settings) as [key|]; [|done].
  intros (store & s1 & Hst%lift_st_Ok & Hr)%bind_run_inv. apply bind_run_inv in Hr as ([mode days] & s2 & Hre%lift_st_Ok & Hr).
  injection Hst as Hst ->. injection Hre as Hre ->. split.
  { unfold make_lock_store in Hst. apply bind_Ok in Hst as (? & Hd%ensure_Ok & Hst). apply bind_Ok in Hst as (? & _ & [= <-]).
    unfold assert_retention_configured in Hre. destruct (s3_object_lock c) as [[[m|] [d|]]|]; try done. apply bind_Ok in Hre as (? & _ & Hre).
    apply bind_Ok in Hre as (? & Hm%ensure_Ok & Hre). apply bind_Ok in Hre as (? & Hdd%ensure_Ok & _). cbn in *. apply bool_decide_eq_true in Hm. subst m.
    exists d. split; [done|lia]. }
  apply bind_run_inv in Hr as ([na va] & s3 & Hx & Hr). destruct (node_mesh_events settings node_stored) as [|e es] eqn:Hn.
  - apply bind_run_inv in Hr as (? & s4 & [= Hc%ensure_Ok ->] & [= _ ->]). destruct (export_chain_sound _ _ _ _ _ _ _ _ Hx Hc) as (Hk & keyring & Hkr & Hat).
    split; [done|]. by exists bucket, keyring.
  - apply bind_run_inv in Hr as ([nn vn] & s4 & Hy & Hr). apply bind_run_inv in Hr as (? & s5 & [= [Hc Hd]%ensure_Ok%andb_true_iff ->] & [= _ ->]).
    destruct (export_chain_sound _ _ _ _ _ _ _ _ Hx Hc) as (Hk & keyring & Hkr & Hat). destruct (export_chain_sound _ _ _ _ _ _ _ _ Hy Hd) as (Hk' & keyring' & Hkr' & Hat').
    assert (keyring' = keyring) as -> by congruence. split; [by etrans|]. exists bucket, keyring. split_and!; [done..|by eapply kept_chain|done].
Qed.
End Sound.

(** ** Concrete runs *)

(** A bucket of which only the Object Lock rule is asked *)
#[local] Instance lock_only : S3Client (string * Z) := {
  s3_put_object := λ _ c, (Err "Unused", c);
  s3_head_object := λ _ _, Err "Unused";
  s3_get_object := λ _ _, Err "Unused";
  s3_list_objects := λ _ _ _, Err "Unused";
  s3_delete_object := λ _ _ _ c, (Err "Unused", c);
  s3_object_lock := λ c, Ok (Some c.1, Some c.2) }.

Definition toy_kms (key m : string) : option string := Some (sha256_hex m).
Definition sample_export_settings (node_database : bool) : ExportSettings :=
  mkExportSettings (Some "bucket") (Some "key-1") "authority" "nodes" node_database 30 "GOVERNANCE".
Notation sample_run c node_database node_stored :=
  (run_once toy_load toy_verify toy_kms (Some toy_trust_store) at_noon (sample_export_settings node_database) c [] node_stored).

Lemma run_outcome {S E A} (p : result E A * S) a : outcome p = Ok a → p = (Ok a, final p).
Proof. destruct p. by intros [= ->]. Qed.

Lemma export_job_sound_witness : ∃ s' keyring,
  sample_run ("GOVERNANCE", 30) true sample_log empty_store = (Ok 3%nat, s') ∧ kept empty_store s' ∧
  attested_chain toy_load toy_verify keyring "bucket" "nodes" s'.
Proof.
  assert (Hn : outcome (sample_run ("GOVERNANCE", 30) true sample_log empty_store) = Ok 3%nat) by (vm_compute; reflexivity).
  apply run_outcome in Hn.
  set (s' := final _) in Hn. clearbody s'. destruct (export_job_sound _ _ _ _ _ _ _ _ _ _ _ _ Hn) as (_ & Hk & bucket & keyring & Hb & _ & _ & Hat).
  injection Hb as <-. exists s', keyring. split_and!; [exact Hn|exact Hk|]. apply Hat. intros He%(f_equal length).
  assert (Hl : length (node_mesh_events (sample_export_settings true) sample_log) = 3%nat) by (vm_compute; reflexivity). rewrite Hl in He. discriminate.
Defined.

(** The bucket keeps objects for less time than configured: nothing is written. *)
Example short_retention_writes_nothing :
  sample_run ("GOVERNANCE", 7) true sample_log empty_store = (Err (StoreFailed ObjectStoreError), empty_store).
Proof. vm_compute. reflexivity. Qed.

(** A host that has lost its node events does not look at the node chain off the host: over a forged segment the job still
    reports success. *)
Definition forged_store : WriteOnceStore :=
  mkWriteOnce (dset "audit/nodes/000000000001-000000000003.json" "forged" (wo_objects empty_store)) [] "GOVERNANCE" "2099-01-01T00:00:00+00:00".

Example unread_node_chain_is_not_verified :
  sample_run ("GOVERNANCE", 30) true [] forged_store = (Ok 0%nat, forged_store) ∧
  verify_authenticity toy_load toy_verify (mkExporter "nodes" 500 (Some toy_signer) "bucket") toy_keyring forged_store = Err EvidenceMissing.
Proof. vm_compute. split; reflexivity. Qed.
