(* ===== verification/TemporalBackup.v ===== *)
(** Archives of the Temporal databases, their attestations and their restoration: src/olympus/backup/temporal.py.

    A directory is the dictionary of its entries. Reading a file through a symbolic link gives what is at its end. The
    module [tarfile] is a class: what it writes for a list of members and what it reads from bytes; Ed25519 and the loader of
    DER keys are parameters, as in AuditSigning.v. *)

From stdpp Require Import pretty.
From S2P Require Import Prelude PyDict PyTime Sha256 Json JsonParse PyParse PyPath NodeScopes AgentFiles NodeAgent AuditSigning S3Store.
From Stdlib Require Import Ascii.

Open Scope Z_scope.

(** An exception keeps what the code branches on: a [ValueError] is one that is not a [JSONDecodeError]; the last two are
    raised by the object store and the S3 client. *)
Inductive backup_exn :=
  | TemporalBackupError (msg : string)
  | BackupSignature (e : signature_exn)
  | BackupOSError
  | BackupTarError
  | BackupJSONError
  | BackupValueError
  | BackupStoreError (e : store_exn)
  | BackupClientError (code : string).

Definition failure {A} (msg : string) : result backup_exn A := Err (TemporalBackupError msg).
Definition require (b : bool) (msg : string) : result backup_exn () := ensure b (TemporalBackupError msg).

Definition BACKUP_FORMAT_VERSION : Z := 1.
Definition ATTESTATION_SCHEMA_VERSION : Z := 1.
Definition BACKUP_SIGNING_ALGORITHM : string := "ED25519_SHA_512".
Definition BACKUP_ATTESTATION_CONTEXT : string := "fire-temporal-backup-attestation-v1".
Definition EXPECTED_ARCHIVE_MEMBERS : list string := ["BACKUP.json"; "SHA256SUMS"; "temporal.dump"; "temporal_visibility.dump"].
Definition DUMPS : list string := ["temporal.dump"; "temporal_visibility.dump"].

(** ** Identifiers, times and integers *)

(** [BACKUP_ID_PATTERN.fullmatch]: the six numbers of the stamp *)
Definition stamp_of (backup_id : string) : option (Z * Z * Z * Z * Z * Z) :=
  y ← field 4 "temporal-" backup_id; m ← field 2 "" y.2; d ← field 2 "" m.2;
  h ← field 2 "T" d.2; mi ← field 2 "" h.2; s ← field 2 "" mi.2;
  if bool_decide (s.2 = "Z") then Some (y.1, m.1, d.1, h.1, mi.1, s.1) else None.

(** [_backup_created_at]; [strptime] raises on a date that does not exist *)
Definition backup_created_at (backup_id : string) : result backup_exn datetime :=
  match stamp_of backup_id with
  | None => failure "backup directory has a non-canonical identifier"
  | Some (y, m, d, h, mi, s) =>
      ensure ((1 <=? y) && (1 <=? m) && (m <=? 12) && (1 <=? d) && (d <=? month_days y m) && (h <=? 23) && (mi <=? 59) && (s <=? 59)) BackupValueError;;
      Ok (seconds (86400 * days_from_civil y m d + 3600 * h + 60 * mi + s))
  end.

(** [_aware_timestamp] *)
Definition aware_timestamp (value name : string) : result backup_exn datetime :=
  require_some (fromisoformat value) (TemporalBackupError (name +:+ " is not an ISO-8601 timestamp")).

(** [_required_int]: [None] is the [TypeError] or [ValueError] *)
Definition required_int (v : json) : option Z := match v with JInt z => Some z | JStr s => int_of_str s | _ => None end.

(** [re.fullmatch(r"[0-9a-f]{64}", s)] *)
Definition hex_lower (c : ascii) : bool := let n := ord c in ((48 <=? n) && (n <=? 57) || (97 <=? n) && (n <=? 102))%nat.
Definition is_sha256_hex (s : string) : bool := (String.length s =? 64)%nat && all_chars hex_lower s.

(** [_canonical_json] *)
Definition canonical_bytes (j : json) : string := utf8 (dumps (EA := true) j).

(** ** Attestations *)

Record BackupAttestation := mkBackupAttestation {
  ba_schema_version : Z;
  ba_backup_id : string;
  ba_created_at : string;
  ba_archive_sha256 : string;
  ba_archive_size : Z;
  ba_bucket : string;
  ba_object_key : string;
  ba_version_id : string;
  ba_server_side_encryption : string;
  ba_retention_mode : string;
  ba_retention_until : string;
  ba_signer_key_id : string;
  ba_signed_at : string }.

(** [BackupAttestation.to_mapping] *)
Definition backup_attestation_mapping (a : BackupAttestation) : dict string json :=
  [("schema_version", JInt (ba_schema_version a)); ("backup_id", JStr (ba_backup_id a)); ("created_at", JStr (ba_created_at a));
   ("archive_sha256", JStr (ba_archive_sha256 a)); ("archive_size", JInt (ba_archive_size a)); ("bucket", JStr (ba_bucket a));
   ("object_key", JStr (ba_object_key a)); ("version_id", JStr (ba_version_id a));
   ("server_side_encryption", JStr (ba_server_side_encryption a)); ("retention_mode", JStr (ba_retention_mode a));
   ("retention_until", JStr (ba_retention_until a)); ("signer_key_id", JStr (ba_signer_key_id a)); ("signed_at", JStr (ba_signed_at a))].

(** [BackupAttestation.statement] *)
Definition backup_statement (a : BackupAttestation) : string :=
  BACKUP_ATTESTATION_CONTEXT +:+ newline +:+ canonical_bytes (JObj (backup_attestation_mapping a)).

Definition backup_attestation_fields : list string :=
  ["schema_version"; "backup_id"; "created_at"; "archive_sha256"; "archive_size"; "bucket"; "object_key"; "version_id";
   "server_side_encryption"; "retention_mode"; "retention_until"; "signer_key_id"; "signed_at"].

(** The [str] of a list or an object is outside the model: a mapping that holds one is refused. *)
Definition scalar (v : json) : bool := match v with JList _ | JObj _ => false | _ => true end.
Definition scalars (o : dict string json) : result backup_exn () := ensure (forallb scalar (dvalues o)) BackupValueError.
Definition str_field (o : dict string json) (k : string) : string := py_str (default JNull (dget k o)).
Definition int_field (o : dict string json) (k msg : string) : result backup_exn Z :=
  require_some (dget k o ≫= required_int) (TemporalBackupError msg).

(** [BackupAttestation.from_mapping] *)
Definition backup_attestation_of (o : dict string json) : result backup_exn BackupAttestation :=
  require (keys_are backup_attestation_fields o) "backup attestation fields do not match the schema";;
  scalars o;;
  version ← int_field o "schema_version" "backup attestation contains an invalid field";
  size ← int_field o "archive_size" "backup attestation contains an invalid field";
  let a := mkBackupAttestation version (str_field o "backup_id") (str_field o "created_at") (str_field o "archive_sha256") size
    (str_field o "bucket") (str_field o "object_key") (str_field o "version_id") (str_field o "server_side_encryption")
    (str_field o "retention_mode") (str_field o "retention_until") (str_field o "signer_key_id") (str_field o "signed_at") in
  require (ba_schema_version a =? ATTESTATION_SCHEMA_VERSION) "unsupported backup attestation schema";;
  backup_created_at (ba_backup_id a);;
  aware_timestamp (ba_created_at a) "created_at";;
  aware_timestamp (ba_signed_at a) "signed_at";;
  aware_timestamp (ba_retention_until a) "retention_until";;
  require (is_sha256_hex (ba_archive_sha256 a)) "backup attestation has an invalid archive digest";;
  require (1 <=? ba_archive_size a) "backup attestation has an invalid archive size";;
  Ok a.

Record SignedBackupAttestation := mkSignedBackup { sb_attestation : BackupAttestation; sb_signature : string }.

(** [SignedBackupAttestation.document] *)
Definition signed_backup_document (s : SignedBackupAttestation) : string :=
  canonical_bytes (JObj [("schema_version", JInt ATTESTATION_SCHEMA_VERSION); ("signing_algorithm", JStr BACKUP_SIGNING_ALGORITHM);
                        ("attestation", JObj (backup_attestation_mapping (sb_attestation s)));
                        ("signature", JStr (standard_b64encode (sb_signature s)))]).

(** [SignedBackupAttestation.from_bytes] *)
Definition signed_backup_of_bytes (raw : string) : result backup_exn SignedBackupAttestation :=
  let malformed := TemporalBackupError "backup signature document is malformed" in
  document ← require_some (utf8_decode raw ≫= loads) malformed;
  match document with
  | JObj o =>
      ensure (equals_one (dget "schema_version" o)) malformed;;
      ensure (bool_decide (dget "signing_algorithm" o = Some (JStr BACKUP_SIGNING_ALGORITHM))) malformed;;
      match dget "attestation" o with
      | Some (JObj mapping) =>
          signature ← require_some (dget "signature" o ≫= b64_strict ∘ py_str) malformed;
          require (String.length signature =? 64)%nat "backup signature is not Ed25519-sized";;
          a ← backup_attestation_of mapping;
          Ok (mkSignedBackup a signature)
      | _ => Err malformed
      end
  | _ => Err malformed
  end.

Record StoredBackupIdentity := mkBackupIdentity {
  bi_object_key : string; bi_version_id : string; bi_sha256 : string; bi_size : Z; bi_server_side_encryption : string;
  bi_retention_mode : string; bi_retention_until : string }.

(** [build_attestation] *)
Definition build_backup_attestation (backup_id created_at : string) (i : StoredBackupIdentity) (bucket signer_key_id : string) (signed_at : datetime) :
    BackupAttestation :=
  mkBackupAttestation ATTESTATION_SCHEMA_VERSION backup_id created_at (bi_sha256 i) (bi_size i) bucket (bi_object_key i) (bi_version_id i)
    (bi_server_side_encryption i) (bi_retention_mode i) (bi_retention_until i) signer_key_id (isoformat signed_at).

Definition lift_signature {A} (r : result signature_exn A) : result backup_exn A :=
  match r with Ok a => Ok a | Err e => Err (BackupSignature e) end.

(** [sign_backup] *)
Definition sign_backup (a : BackupAttestation) (signer : Signer) : result backup_exn string :=
  require (bool_decide (si_key_id signer = ba_signer_key_id a)) "backup attestation names a different signer";;
  signature ← lift_signature (si_sign signer (backup_statement a));
  require (String.length signature =? 64)%nat "backup signer returned a non-Ed25519 signature";;
  Ok (signed_backup_document (mkSignedBackup a signature)).

(** ** Receipts *)

Record BackupReceipt := mkBackupReceipt {
  br_schema_version : Z; br_backup_id : string; br_created_at : string; br_uploaded_at : string; br_bucket : string; br_object_key : string;
  br_version_id : string; br_archive_sha256 : string; br_archive_size : Z; br_server_side_encryption : string; br_retention_mode : string;
  br_retention_until : string; br_signature_object_key : string; br_signature_version_id : string; br_signer_key_id : string }.

Definition receipt_mapping (r : BackupReceipt) : dict string json :=
  [("schema_version", JInt (br_schema_version r)); ("backup_id", JStr (br_backup_id r)); ("created_at", JStr (br_created_at r));
   ("uploaded_at", JStr (br_uploaded_at r)); ("bucket", JStr (br_bucket r)); ("object_key", JStr (br_object_key r));
   ("version_id", JStr (br_version_id r)); ("archive_sha256", JStr (br_archive_sha256 r)); ("archive_size", JInt (br_archive_size r));
   ("server_side_encryption", JStr (br_server_side_encryption r)); ("retention_mode", JStr (br_retention_mode r));
   ("retention_until", JStr (br_retention_until r)); ("signature_object_key", JStr (br_signature_object_key r));
   ("signature_version_id", JStr (br_signature_version_id r)); ("signer_key_id", JStr (br_signer_key_id r))].

Definition receipt_fields : list string :=
  ["schema_version"; "backup_id"; "created_at"; "uploaded_at"; "bucket"; "object_key"; "version_id"; "archive_sha256"; "archive_size";
   "server_side_encryption"; "retention_mode"; "retention_until"; "signature_object_key"; "signature_version_id"; "signer_key_id"].

(** [BackupReceipt.from_mapping] *)
Definition receipt_of (o : dict string json) : result backup_exn BackupReceipt :=
  require (keys_are receipt_fields o) "backup receipt fields do not match the schema";;
  scalars o;;
  version ← int_field o "schema_version" "backup receipt contains an invalid field";
  size ← int_field o "archive_size" "backup receipt contains an invalid field";
  let r := mkBackupReceipt version (str_field o "backup_id") (str_field o "created_at") (str_field o "uploaded_at") (str_field o "bucket")
    (str_field o "object_key") (str_field o "version_id") (str_field o "archive_sha256") size (str_field o "server_side_encryption")
    (str_field o "retention_mode") (str_field o "retention_until") (str_field o "signature_object_key") (str_field o "signature_version_id")
    (str_field o "signer_key_id") in
  require (br_schema_version r =? BACKUP_FORMAT_VERSION) "unsupported backup receipt schema";;
  backup_created_at (br_backup_id r);;
  aware_timestamp (br_created_at r) "created_at";;
  aware_timestamp (br_uploaded_at r) "uploaded_at";;
  aware_timestamp (br_retention_until r) "retention_until";;
  require (is_sha256_hex (br_archive_sha256 r)) "backup receipt has an invalid archive digest";;
  require (1 <=? br_archive_size r) "backup receipt has an invalid archive size";;
  Ok r.

(** [load_receipt] of what a file holds, and the text [save_receipt] puts in its place *)
Definition load_receipt (content : option string) : result backup_exn BackupReceipt :=
  raw ← require_some content (TemporalBackupError "backup receipt is unreadable");
  text ← require_some (utf8_decode raw) BackupValueError;
  document ← require_some (loads text) (TemporalBackupError "backup receipt is unreadable");
  match document with JObj o => receipt_of o | _ => failure "backup receipt is not an object" end.
Definition save_receipt (r : BackupReceipt) : string := canonical_bytes (JObj (receipt_mapping r)) +:+ newline.

(** ** Directories *)

(** An entry; a link carries what reading through it gives. *)
Inductive dentry := DFile (body : string) | DLink (through : option string) | DDir.
Definition Dir : Type := dict string dentry.

(** [open(...).read()] *)
Definition read_entry (d : Dir) (name : string) : option string :=
  match dget name d with Some (DFile body) => Some body | Some (DLink through) => through | _ => None end.

(** [latest_backup] *)
Definition latest_backup (root : Dir) : result backup_exn string :=
  let candidates := sorted (dkeys (List.filter (λ e, match e.2 with DDir => true | _ => false end && bool_decide (is_Some (stamp_of e.1))) root)) in
  require_some (last candidates) (TemporalBackupError "no complete Temporal backup exists").

(** Text mode: a carriage return, with a line feed after it or not, reads as a line feed. *)
Fixpoint universal_newlines (s : string) : string :=
  match s with
  | EmptyString => EmptyString
  | String c s' =>
      if (ord c =? 13)%nat
      then match s' with
           | String d s'' => if (ord d =? 10)%nat then String d (universal_newlines s'') else newline +:+ universal_newlines s'
           | EmptyString => newline
           end
      else String c (universal_newlines s')
  end.

(** [str.splitlines] for ASCII text *)
Definition breaks_line (c : ascii) : bool := let n := ord c in ((10 <=? n) && (n <=? 13) || (28 <=? n) && (n <=? 30))%nat.
Fixpoint lines_from (cur s : string) : list string :=
  match s with
  | EmptyString => if is_empty cur then [] else [cur]
  | String c s' => if breaks_line c then cur :: lines_from "" s' else lines_from (cur +:+ Json.one c) s'
  end.

(** [line.partition("  ")] when the separator occurs *)
Fixpoint partition_spaces (s : string) : option (string * string) :=
  match s with
  | String c s' =>
      match strip_prefix "  " s with
      | Some rest => Some ("", rest)
      | None => p ← partition_spaces s'; Some (String c p.1, p.2)
      end
  | EmptyString => None
  end.

Fixpoint checksums_of (lines : list string) (checksums : dict string string) : result backup_exn (dict string string) :=
  match lines with
  | [] => Ok checksums
  | line :: lines =>
      match partition_spaces line with
      | None => failure "backup checksum manifest is malformed"
      | Some (digest, name) =>
          require (bool_decide (name ∈ DUMPS) && is_sha256_hex digest) "backup checksum manifest is malformed";;
          require (negb (dmem name checksums)) "backup checksum manifest repeats a file";;
          checksums_of lines (dset name digest checksums)
      end
  end.

(** A regular file, not a link, with the listed digest *)
Definition file_matches (d : Dir) (name digest : string) : bool :=
  match dget name d with Some (DFile body) => bool_decide (sha256_hex body = digest) | _ => false end.

(** [_verify_source_backup] *)
Definition verify_source_backup (d : Dir) : result backup_exn (dict string string) :=
  raw ← require_some (read_entry d "SHA256SUMS") (TemporalBackupError "backup checksum manifest is unreadable");
  ensure (all_chars (λ c, ord c <? 128)%nat raw) BackupValueError;;
  checksums ← checksums_of (lines_from "" (universal_newlines raw)) [];
  require (keys_are DUMPS checksums) "backup checksum manifest is incomplete";;
  require (forallb (λ e, file_matches d e.1 e.2) checksums) "a backup file fails checksum verification";;
  Ok checksums.

(** ** Archives *)

Record TarMember := mkMember { tm_name : string; tm_regular : bool; tm_mtime : Z; tm_mode : Z; tm_data : option string }.

(** [tarfile]: the bytes of an archive with these members, and its members as [getmembers] and [extractfile] give them;
    [None] is a [TarError], of the archive or of one member's data. *)
Class TarFile := { tar_write : list TarMember → string; tar_read : string → option (list TarMember) }.

Section Archive.
Context `{TarFile}.

Definition manifest_json (backup_id created_at : string) (checksums : dict string string) (size : string → Z) : json :=
  let entry name := (name, JObj [("sha256", JStr (default "" (dget name checksums))); ("size", JInt (size name))]) in
  JObj [("schema_version", JInt BACKUP_FORMAT_VERSION); ("backup_id", JStr backup_id); ("created_at", JStr created_at);
        ("files", JObj (map entry DUMPS))].

(** [_add_bytes] and [_add_file] *)
Definition add_member (name body : string) (mtime : Z) : TarMember := mkMember name true mtime 384 (Some body).

Record Archive := mkArchive { ar_bytes : string; ar_sha256 : string; ar_size : Z; ar_backup_id : string; ar_created_at : string }.

(** [create_archive] of the directory [d] named [backup_id] *)
Definition create_archive (backup_id : string) (d : Dir) (archive_exists : bool) : result backup_exn Archive :=
  created ← backup_created_at backup_id;
  checksums ← verify_source_backup d;
  let body name := default "" (read_entry d name) in
  let manifest := manifest_json backup_id (isoformat created) checksums (λ name, Z.of_nat (String.length (body name))) in
  require (negb archive_exists) "refusing to replace existing archive";;
  let members := add_member "BACKUP.json" (canonical_bytes manifest +:+ newline) (timestamp created)
    :: map (λ name, add_member name (body name) (timestamp created)) ["SHA256SUMS"; "temporal.dump"; "temporal_visibility.dump"] in
  let bytes := tar_write members in
  Ok (mkArchive bytes (sha256_hex bytes) (Z.of_nat (String.length bytes)) backup_id (isoformat created)).

(** ** Restoring *)

Context (load_der : string → loaded_key) (ed_verify : string → string → string → bool).

(** The fields the receipt repeats *)
Definition receipt_matches (a : BackupAttestation) (r : BackupReceipt) : bool :=
  bool_decide (ba_backup_id a = br_backup_id r) && bool_decide (ba_created_at a = br_created_at r) && bool_decide (ba_bucket a = br_bucket r)
  && bool_decide (ba_object_key a = br_object_key r) && bool_decide (ba_version_id a = br_version_id r)
  && bool_decide (ba_archive_sha256 a = br_archive_sha256 r) && (ba_archive_size a =? br_archive_size r)
  && bool_decide (ba_server_side_encryption a = br_server_side_encryption r) && bool_decide (ba_retention_mode a = br_retention_mode r)
  && bool_decide (ba_retention_until a = br_retention_until r) && bool_decide (ba_signer_key_id a = br_signer_key_id r).

(** [verify_and_extract] up to the verified signature *)
Definition verify_attestation (archive signature : option string) (receipt : BackupReceipt) (keyring : Keyring) :
    result backup_exn (string * BackupAttestation) :=
  let unreadable := TemporalBackupError "downloaded recovery material is unreadable" in
  raw ← require_some signature unreadable;
  signed ← signed_backup_of_bytes raw;
  bytes ← require_some archive unreadable;
  let a := sb_attestation signed in
  require (receipt_matches a receipt) "receipt does not match the signed backup identity";;
  require (Z.of_nat (String.length bytes) =? ba_archive_size a) "downloaded backup size does not match its attestation";;
  require (bool_decide (sha256_hex bytes = ba_archive_sha256 a)) "downloaded backup digest does not match its attestation";;
  signer ← lift_signature (resolve_signer keyring (ba_signer_key_id a));
  signed_at ← aware_timestamp (ba_signed_at a) "signed_at";
  lift_signature (assert_trusted_at signer signed_at);;
  match load_der (ts_public_key_der signer) with
  | NotLoadable => Err BackupValueError
  | OtherKey => failure "pinned backup signer is not an Ed25519 key"
  | Ed25519Key key =>
      require (ed_verify key (backup_statement a) (sb_signature signed)) "backup signature does not verify";;
      Ok (bytes, a)
  end.

Definition unsafe_member (m : TarMember) : bool :=
  negb (tm_regular m) || starts_with "/" (tm_name m) || starts_with (Json.one "\"%char) (tm_name m) || bool_decide (".." ∈ parts (parse_posix (tm_name m))).

(** What the file system does with each call: how [mkdir] ends (when it fails, with at most so many parents still missing), the
    files it opens, where a write stops, the files it unlinks, whether it removes the directory, and the order in which
    [iterdir] lists it. *)
Record FileSystem := mkFs {
  fs_mkdir : option nat;
  fs_open : string → bool;
  fs_write : string → option string;
  fs_unlink : string → bool;
  fs_rmdir : bool;
  fs_rank : string → nat }.
Definition healthy : FileSystem := mkFs None (λ _, true) (λ _, None) (λ _, true) true (λ _, 0%nat).

(** The loop over the members; the state is the output directory. A write that stops leaves the part that was written. *)
Fixpoint extract_members (fs : FileSystem) (members : list TarMember) : St Dir backup_exn () :=
  match members with
  | [] => mret ()
  | m :: members =>
      out ← read;
      check (negb (dmem (tm_name m) out) && fs_open fs (tm_name m)) BackupOSError;;
      match tm_data m, fs_write fs (tm_name m) with
      | Some data, None => modify (dset (tm_name m) (DFile data));; extract_members fs members
      | Some _, Some part => modify (dset (tm_name m) (DFile part));; raise BackupOSError
      | None, part => modify (dset (tm_name m) (DFile (default "" part)));; raise BackupTarError
      end
  end.

(** The [try] block: what it leaves in the output directory, and what it raises *)
Definition extract_archive (fs : FileSystem) (bytes : string) (receipt : BackupReceipt) : St Dir backup_exn () :=
  members ← some_or (tar_read bytes) BackupTarError;
  liftR (require (bool_decide (sorted_set (map tm_name members) = sorted_set EXPECTED_ARCHIVE_MEMBERS)) "backup archive has unexpected members");;
  liftR (require (negb (existsb unsafe_member members)) "backup archive contains a non-regular or absolute member");;
  extract_members fs members;;
  out ← read;
  liftR (verify_source_backup out);;
  raw ← some_or (read_entry out "BACKUP.json") BackupOSError;
  text ← some_or (utf8_decode raw) BackupValueError;
  manifest ← some_or (loads text) BackupJSONError;
  liftR match manifest with
  | JObj o => require (bool_decide (dget "backup_id" o = Some (JStr (br_backup_id receipt)))) "archive manifest names a different backup"
  | _ => failure "archive manifest names a different backup"
  end.

(** [for child in output_dir.iterdir(): child.unlink(missing_ok=True)], to the first call that fails *)
Fixpoint unlink_each (fs : FileSystem) (names : list string) (d : Dir) : bool * Dir :=
  match names with
  | [] => (true, d)
  | name :: names => if fs_unlink fs name then unlink_each fs names (ddel name d) else (false, d)
  end.
Definition iterdir (fs : FileSystem) (d : Dir) : list string := sort_by (λ a b, (fs_rank fs a <=? fs_rank fs b)%nat) (dkeys d).

(** The clean-up of both handlers: [true] when it removed the directory *)
Definition clean_up (fs : FileSystem) (d : Dir) : bool * option Dir :=
  let (ok, left) := unlink_each fs (iterdir fs d) d in
  if ok && fs_rmdir fs && bool_decide (dkeys left = []) then (true, None) else (false, Some left).

(** What the handlers turn an exception of the block into *)
Definition translate (e : backup_exn) : backup_exn :=
  match e with
  | BackupOSError | BackupTarError | BackupJSONError => TemporalBackupError "backup archive cannot be safely extracted"
  | e => e
  end.

(** The place of the output: the directory, and how many of its parents are missing *)
Record Place := mkPlace { pl_dir : option Dir; pl_missing : nat }.

(** [verify_and_extract]. [mkdir] makes the missing parents too, and nothing removes those; when the block raises, the handlers
    remove what it extracted, and an [OSError] of theirs takes the place of the exception. *)
Definition verify_and_extract (archive signature : option string) (receipt : BackupReceipt) (keyring : Keyring) (fs : FileSystem) :
    St Place backup_exn BackupAttestation :=
  p ← liftR (verify_attestation archive signature receipt keyring);
  place ← read;
  check (match pl_dir place with None => true | Some _ => false end) (TemporalBackupError "restore output directory must not already exist");;
  match fs_mkdir fs with
  | Some missing => modify (λ pl, mkPlace (pl_dir pl) (min missing (pl_missing pl)));; raise BackupOSError
  | None =>
      modify (λ _, mkPlace (Some []) 0);;
      match extract_archive fs p.1 receipt [] with
      | (Ok _, out) => modify (λ _, mkPlace (Some out) 0);; mret p.2
      | (Err e, out) =>
          let c := clean_up fs out in
          modify (λ _, mkPlace c.2 0);; raise (if c.1 then translate e else BackupOSError)
      end
  end.
End Archive.
