(* ===== verification/TemporalBackupFacts.v ===== *)
(** What a restored backup is: the archive a pinned key attested, extracted whole or not at all; and what is signed and
    saved reads back. *)

From S2P Require Import Prelude PyDict PyTime Sha256 Json JsonParse PyParse PyPath NodeScopes AgentFiles NodeCrypto NodeAgent OperationsControl.
From S2P Require Import AuditSigning S3Store TemporalBackup.
From Stdlib Require Import Ascii.

Open Scope Z_scope.

(** ** A statement is one attestation's *)

Definition ordered_backup (a : BackupAttestation) : dict string json :=
  [("archive_sha256", JStr (ba_archive_sha256 a)); ("archive_size", JInt (ba_archive_size a)); ("backup_id", JStr (ba_backup_id a));
   ("bucket", JStr (ba_bucket a)); ("created_at", JStr (ba_created_at a)); ("object_key", JStr (ba_object_key a));
   ("retention_mode", JStr (ba_retention_mode a)); ("retention_until", JStr (ba_retention_until a));
   ("schema_version", JInt (ba_schema_version a)); ("server_side_encryption", JStr (ba_server_side_encryption a));
   ("signed_at", JStr (ba_signed_at a)); ("signer_key_id", JStr (ba_signer_key_id a)); ("version_id", JStr (ba_version_id a))].

Lemma jnorm_backup a : jnorm (JObj (backup_attestation_mapping a)) = JObj (ordered_backup a).
Proof. reflexivity. Qed.

Lemma ordered_backup_inj a b : ordered_backup a = ordered_backup b → a = b.
Proof. destruct a, b. cbn. by intros [=]; subst. Qed.

Lemma backup_statement_binds a b : backup_statement a = backup_statement b → a = b.
Proof.
  intros H. apply append_inj_l, append_inj_l, utf8_inj, dumps_inj_norm in H. rewrite !jnorm_backup in H. apply ordered_backup_inj. congruence.
Qed.

(** ** What is written reads back *)

(** The checks of [from_mapping]. *)
Record attestation_valid (a : BackupAttestation) : Prop := {
  av_schema : ba_schema_version a = 1;
  av_id : is_ok (backup_created_at (ba_backup_id a)) = true;
  av_created : is_Some (fromisoformat (ba_created_at a));
  av_signed : is_Some (fromisoformat (ba_signed_at a));
  av_until : is_Some (fromisoformat (ba_retention_until a));
  av_digest : is_sha256_hex (ba_archive_sha256 a) = true;
  av_size : 1 ≤ ba_archive_size a }.

Lemma aware_timestamp_Some v name : is_Some (fromisoformat v) → is_ok (aware_timestamp v name) = true.
Proof. unfold aware_timestamp. by intros [t ->]. Qed.

(** A step whose value is not used. *)
Lemma is_ok_bind {E A B} (r : result E A) (k : result E B) : is_ok r = true → (r ≫= λ _, k) = k.
Proof. by destruct r. Qed.

Lemma backup_attestation_roundtrip a : attestation_valid a → backup_attestation_of (ordered_backup a) = Ok a.
Proof.
  intros [Hs Hi Hc Hg Hu Hd Hz]. unfold backup_attestation_of. rewrite is_ok_bind by (unfold keys_are; cbn [ordered_backup dkeys fmap list_fmap fst]; by vm_compute).
  rewrite is_ok_bind by done.
  assert (Ev : int_field (ordered_backup a) "schema_version" "backup attestation contains an invalid field" = Ok (ba_schema_version a)) by reflexivity.
  assert (Ez : int_field (ordered_backup a) "archive_size" "backup attestation contains an invalid field" = Ok (ba_archive_size a)) by reflexivity.
  rewrite Ev. unfold mbind at 1, result_bind at 1. rewrite Ez. unfold mbind at 1, result_bind at 1.
  set (b := mkBackupAttestation _ _ _ _ _ _ _ _ _ _ _ _ _). assert (b = a) as -> by (by destruct a).
  rewrite !is_ok_bind; [done|..]; try by apply aware_timestamp_Some. all: try done.
  - unfold require. by rewrite (proj2 (Z.leb_le _ _)).
  - unfold require. by rewrite Hd.
  - unfold require. by rewrite Hs.
Qed.

(** Canonical JSON parses back in key order. *)
Lemma canonical_bytes_reads j : json_wf j → (utf8_decode (canonical_bytes j) ≫= loads) = Some (jnorm j).
Proof. intros Hj. unfold canonical_bytes. rewrite utf8_decode_encode. by apply loads_dumps. Qed.

(** With the line feed the code ends a file with. *)
Lemma canonical_line_decodes j : utf8_decode (canonical_bytes j +:+ newline) = Some (dumps (EA := true) j +:+ newline).
Proof. unfold canonical_bytes. change newline with (utf8 newline) at 1. by rewrite <- utf8_append, utf8_decode_encode. Qed.

Definition ordered_signed (s : SignedBackupAttestation) : dict string json :=
  [("attestation", JObj (ordered_backup (sb_attestation s))); ("schema_version", JInt ATTESTATION_SCHEMA_VERSION);
   ("signature", JStr (standard_b64encode (sb_signature s))); ("signing_algorithm", JStr BACKUP_SIGNING_ALGORITHM)].

Lemma signed_backup_roundtrip s : attestation_valid (sb_attestation s) → String.length (sb_signature s) = 64%nat →
  signed_backup_of_bytes (signed_backup_document s) = Ok s.
Proof.
  intros Hv Hl. unfold signed_backup_of_bytes.
  assert (utf8_decode (signed_backup_document s) ≫= loads = Some (JObj (ordered_signed s))) as ->.
  { unfold signed_backup_document. rewrite canonical_bytes_reads; [reflexivity|]. cbn. repeat split; repeat constructor; set_solver. }
  cbn [require_some]. unfold mbind at 1, result_bind at 1.
  assert (Hget : equals_one (dget "schema_version" (ordered_signed s)) = true ∧
    dget "signing_algorithm" (ordered_signed s) = Some (JStr BACKUP_SIGNING_ALGORITHM) ∧
    dget "attestation" (ordered_signed s) = Some (JObj (ordered_backup (sb_attestation s))) ∧
    dget "signature" (ordered_signed s) = Some (JStr (standard_b64encode (sb_signature s)))) by (split_and!; reflexivity).
  destruct Hget as (-> & -> & -> & ->). rewrite bool_decide_eq_true_2 by done. cbn [ensure mbind option_bind compose py_str].
  unfold mbind, result_bind. rewrite b64_strict_encode. cbn [require_some]. unfold require. rewrite Hl. cbn [Nat.eqb ensure].
  rewrite backup_attestation_roundtrip by done. by destruct s.
Qed.

(** The checks of a receipt. *)
Record receipt_valid (r : BackupReceipt) : Prop := {
  rv_schema : br_schema_version r = 1;
  rv_id : is_ok (backup_created_at (br_backup_id r)) = true;
  rv_created : is_Some (fromisoformat (br_created_at r));
  rv_uploaded : is_Some (fromisoformat (br_uploaded_at r));
  rv_until : is_Some (fromisoformat (br_retention_until r));
  rv_digest : is_sha256_hex (br_archive_sha256 r) = true;
  rv_size : 1 ≤ br_archive_size r }.

Definition ordered_receipt (r : BackupReceipt) : dict string json :=
  [("archive_sha256", JStr (br_archive_sha256 r)); ("archive_size", JInt (br_archive_size r)); ("backup_id", JStr (br_backup_id r));
   ("bucket", JStr (br_bucket r)); ("created_at", JStr (br_created_at r)); ("object_key", JStr (br_object_key r));
   ("retention_mode", JStr (br_retention_mode r)); ("retention_until", JStr (br_retention_until r));
   ("schema_version", JInt (br_schema_version r)); ("server_side_encryption", JStr (br_server_side_encryption r));
   ("signature_object_key", JStr (br_signature_object_key r)); ("signature_version_id", JStr (br_signature_version_id r));
   ("signer_key_id", JStr (br_signer_key_id r)); ("uploaded_at", JStr (br_uploaded_at r)); ("version_id", JStr (br_version_id r))].

Lemma receipt_of_ordered r : receipt_valid r → receipt_of (ordered_receipt r) = Ok r.
Proof.
  intros [Hs Hi Hc Hg Hu Hd Hz]. unfold receipt_of. rewrite is_ok_bind by (unfold keys_are; cbn [ordered_receipt dkeys fmap list_fmap fst]; by vm_compute).
  rewrite is_ok_bind by done.
  assert (Ev : int_field (ordered_receipt r) "schema_version" "backup receipt contains an invalid field" = Ok (br_schema_version r)) by reflexivity.
  assert (Ez : int_field (ordered_receipt r) "archive_size" "backup receipt contains an invalid field" = Ok (br_archive_size r)) by reflexivity.
  rewrite Ev. unfold mbind at 1, result_bind at 1. rewrite Ez. unfold mbind at 1, result_bind at 1.
  set (b := mkBackupReceipt _ _ _ _ _ _ _ _ _ _ _ _ _ _ _). assert (b = r) as -> by (by destruct r).
  rewrite !is_ok_bind; [done|..]; try by apply aware_timestamp_Some. all: try done.
  - unfold require. by rewrite (proj2 (Z.leb_le _ _)).
  - unfold require. by rewrite Hd.
  - unfold require. by rewrite Hs.
Qed.

Lemma jnorm_receipt r : jnorm (JObj (receipt_mapping r)) = JObj (ordered_receipt r).
Proof. reflexivity. Qed.

(** A saved receipt loads as it was. *)
Lemma receipt_roundtrip r : receipt_valid r → load_receipt (Some (save_receipt r)) = Ok r.
Proof.
  intros Hr. unfold load_receipt, save_receipt.
  assert (Hl : loads (dumps (EA := true) (JObj (receipt_mapping r)) +:+ newline) = Some (JObj (ordered_receipt r))).
  { rewrite <- jnorm_receipt. apply loads_dumps_line. cbn. repeat split; repeat constructor; set_solver. }
  assert (Hd := canonical_line_decodes (JObj (receipt_mapping r))). set (text := canonical_bytes _ +:+ _) in *. clearbody text.
  set (t := dumps _ +:+ _) in *. clearbody t. cbn [require_some]. unfold mbind, result_bind. rewrite Hd. cbn [require_some]. rewrite Hl. cbn [require_some].
  by apply receipt_of_ordered.
Qed.

(** ** Soundness of a restoration *)

Section Restore.
Context `{TarFile} (load_der : string → loaded_key) (ed_verify : string → string → string → bool).

(** What was verified before anything is extracted: the bytes are those of an attestation that the receipt repeats and that
    a pinned key, trusted when it signed, signed. *)
Record backup_attested (keyring : Keyring) (receipt : BackupReceipt) (bytes : string) (a : BackupAttestation) : Prop := {
  bk_receipt : receipt_matches a receipt = true;
  bk_size : ba_archive_size a = Z.of_nat (String.length bytes);
  bk_digest : ba_archive_sha256 a = sha256_hex bytes;
  bk_signed : ∃ s key sig t, dget (ba_signer_key_id a) keyring = Some s ∧ load_der (ts_public_key_der s) = Ed25519Key key ∧
    ed_verify key (backup_statement a) sig = true ∧ fromisoformat (ba_signed_at a) = Some t ∧ assert_trusted_at s t = Ok () }.

Lemma lift_signature_Ok {A} (r : result signature_exn A) x : lift_signature r = Ok x → r = Ok x.
Proof. destruct r; naive_solver. Qed.

Lemma verify_attestation_sound archive signature receipt keyring p : verify_attestation load_der ed_verify archive signature receipt keyring = Ok p →
  archive = Some p.1 ∧ backup_attested keyring receipt p.1 p.2.
Proof.
  unfold verify_attestation. intros (raw & _ & (sd & Hs & (bytes & Hb%require_some_Ok & Hk)%bind_Ok)%bind_Ok)%bind_Ok.
  apply bind_Ok in Hk as (? & Hr%ensure_Ok & Hk). apply bind_Ok in Hk as (? & Hz%ensure_Ok & Hk). apply bind_Ok in Hk as (? & Hd%ensure_Ok & Hk).
  apply bind_Ok in Hk as (signer & Hsig%lift_signature_Ok%require_some_Ok & Hk). apply bind_Ok in Hk as (t & Ht%require_some_Ok & Hk).
  apply bind_Ok in Hk as ([] & Htr%lift_signature_Ok & Hk).
  destruct (load_der _) as [| |key] eqn:El; [done..|]. apply bind_Ok in Hk as (? & Hv%ensure_Ok & [= <-]).
  bool_to_prop. split; [done|]. split; [done|cbn; congruence|done|]. by exists signer, key, (sb_signature sd), t.
Qed.

(** The members of an archive, each written to its own file; a failure leaves files of the archive only. *)
Lemma extract_members_sound fs members out0 x out : extract_members fs members out0 = (x, out) →
  (is_ok x = true → (∀ m, m ∈ members → ∃ data, tm_data m = Some data ∧ dget (tm_name m) out = Some (DFile data)) ∧
     (∀ name e, dget name out0 = Some e → dget name out = Some e)) ∧
  (∀ name, is_Some (dget name out) → is_Some (dget name out0) ∨ name ∈ map tm_name members) ∧ (dict_wf out0 → dict_wf out).
Proof.
  revert out0. induction members as [|m members IH]; intros out0 Hx; cbn [extract_members] in Hx.
  { injection Hx as <- <-. split_and!; [|auto|done]. intros _. split; [set_solver|done]. }
  unfold mbind, st_bind, read, gets, check, modify, raise in Hx. cbn [ensure] in Hx.
  destruct (negb (dmem (tm_name m) out0) && fs_open fs (tm_name m)) eqn:Hc; cbn [ensure] in Hx.
  2: { injection Hx as <- <-. split; [done|]. split; [by left|done]. }
  assert (Hset : ∀ e name, is_Some (dget name (dset (tm_name m) (DFile e) out0)) → is_Some (dget name out0) ∨ name ∈ map tm_name (m :: members)).
  { intros e name. rewrite dget_dset. case_decide; [right; set_solver|by left]. }
  destruct (tm_data m) as [data|] eqn:Ed; [destruct (fs_write fs (tm_name m))|].
  - injection Hx as <- <-. split_and!; [done|apply Hset|apply dict_wf_dset].
  - destruct (IH _ Hx) as (Hok & Hback & Hwf). apply andb_prop in Hc as [Hm _]. unfold dmem in Hm.
    destruct (dget (tm_name m) out0) eqn:Em; [done|]. split_and!.
    + intros Hx'. destruct (Hok Hx') as [Hin Hkeep]. split.
      * intros m' [->|Hm']%elem_of_cons; [|by apply Hin]. exists data. split; [done|]. apply Hkeep, dget_dset_eq.
      * intros name e He. apply Hkeep. rewrite dget_dset_ne; [done|]. congruence.
    + intros name Hn. destruct (Hback name Hn) as [Hs|Hs]; [by apply (Hset data)|right; set_solver].
    + intros Hw. by apply Hwf, dict_wf_dset.
  - injection Hx as <- <-. split_and!; [done|apply Hset|apply dict_wf_dset].
Qed.

Lemma keys_present {V} ks (d : dict string V) k : keys_are ks d = true → k ∈ ks → is_Some (dget k d).
Proof. intros Hk Hin. rewrite keys_are_spec in Hk. apply Hk in Hin. destruct (dget k d) eqn:E; [by eexists|]. by apply dget_None in E. Qed.

Lemma verify_source_sound d checksums : verify_source_backup d = Ok checksums →
  ∀ name, name ∈ DUMPS → ∃ body, dget name d = Some (DFile body) ∧ dget name checksums = Some (sha256_hex body).
Proof.
  unfold verify_source_backup. intros (? & _ & (? & _ & (cs & _ & (? & Hk%ensure_Ok & (? & Hf%ensure_Ok & [= <-])%bind_Ok)%bind_Ok)%bind_Ok)%bind_Ok)%bind_Ok.
  intros name Hn. destruct (keys_present _ _ _ Hk Hn) as [digest Hd]. rewrite forallb_forall in Hf.
  specialize (Hf (name, digest)). cbn in Hf. rewrite <- list_elem_of_In in Hf. specialize (Hf (dget_Some_elem _ _ _ Hd)).
  unfold file_matches in Hf. destruct (dget name d) as [[body| |]|]; try done. apply bool_decide_eq_true in Hf. exists body. split; [done|]. congruence.
Qed.

(** The directory a restoration leaves: the members of the archive, nothing else, with dumps that match their checksums. *)
Definition restored (bytes : string) (receipt : BackupReceipt) (out : Dir) : Prop :=
  ∃ members, tar_read bytes = Some members ∧
    (∀ m, m ∈ members → tm_regular m = true ∧ ∃ data, tm_data m = Some data ∧ dget (tm_name m) out = Some (DFile data)) ∧
    (∀ name, is_Some (dget name out) ↔ name ∈ EXPECTED_ARCHIVE_MEMBERS) ∧
    ∃ checksums, verify_source_backup out = Ok checksums ∧
      ∀ name, name ∈ DUMPS → ∃ body, dget name out = Some (DFile body) ∧ dget name checksums = Some (sha256_hex body).

(** Whatever happens, the block leaves no file but those of the four members. *)
Definition only_expected (out : Dir) : Prop := dict_wf out ∧ ∀ name, is_Some (dget name out) → name ∈ EXPECTED_ARCHIVE_MEMBERS.

Lemma member_names members name :
  sorted_set (map tm_name members) = sorted_set EXPECTED_ARCHIVE_MEMBERS → name ∈ map tm_name members ↔ name ∈ EXPECTED_ARCHIVE_MEMBERS.
Proof. intros Hn. by rewrite <- elem_of_sorted_set, Hn, elem_of_sorted_set. Qed.

Lemma extract_archive_sound fs bytes receipt x out : extract_archive fs bytes receipt [] = (x, out) →
  only_expected out ∧ (is_ok x = true → restored bytes receipt out).
Proof.
  assert (Hnil : only_expected []) by (split; [apply dict_wf_nil|by intros name [? ?]]).
  unfold extract_archive. unfold some_or at 1. destruct (tar_read bytes) as [members|] eqn:Hm; [|by intros [= <- <-]].
  erewrite bind_run_Ok by reflexivity. unfold require.
  destruct (bool_decide_reflect (sorted_set (map tm_name members) = sorted_set EXPECTED_ARCHIVE_MEMBERS)) as [Hn|]; [|by intros [= <- <-]].
  erewrite bind_run_Ok by reflexivity. destruct (existsb unsafe_member members) eqn:Hu; [by intros [= <- <-]|]. erewrite bind_run_Ok by reflexivity.
  destruct (extract_members fs members []) as [y out1] eqn:He. destruct (extract_members_sound _ _ _ _ _ He) as (Hok & Hback & Hwf).
  assert (Hexp : only_expected out1).
  { split; [by apply Hwf, dict_wf_nil|]. intros name Hs. apply (member_names members); [done|]. by destruct (Hback name Hs) as [[? ?]|?]. }
  destruct y as [[]|e]; [erewrite bind_run_Ok by exact He|erewrite bind_run_Err by exact He; by intros [= <- <-]].
  erewrite bind_run_Ok by reflexivity. intros Hk.
  assert (out = out1 ∧ (is_ok x = true → ∃ cs, verify_source_backup out1 = Ok cs)) as [-> Hcs].
  { destruct (verify_source_backup out1) as [cs|] eqn:Hcs; [|by injection Hk as <- <-]. erewrite bind_run_Ok in Hk by reflexivity.
    unfold some_or in Hk. destruct (read_entry out1 "BACKUP.json"); [|by injection Hk as <- <-]. erewrite bind_run_Ok in Hk by reflexivity.
    destruct (utf8_decode s); [|by injection Hk as <- <-]. erewrite bind_run_Ok in Hk by reflexivity.
    destruct (loads s0) as [j|]; [|by injection Hk as <- <-]. erewrite bind_run_Ok in Hk by reflexivity. injection Hk as <- <-. eauto. }
  split; [done|]. intros Hx. destruct (Hcs Hx) as [cs Hcs']. destruct (Hok eq_refl) as [Hin _]. exists members. split_and!; [done| | |].
  - intros m Hmm. split; [|by apply Hin]. destruct (tm_regular m) eqn:Er; [done|]. exfalso. rewrite <- not_true_iff_false in Hu. apply Hu.
    apply existsb_exists. exists m. split; [by apply list_elem_of_In|]. unfold unsafe_member. by rewrite Er.
  - intros name. rewrite <- (member_names members) by done. split.
    + intros Hs. by destruct (Hback name Hs) as [[? ?]|?].
    + intros (m & -> & Hmm)%list_elem_of_fmap. destruct (Hin m Hmm) as (data & _ & ->). by eexists.
  - exists cs. split; [done|]. by apply verify_source_sound.
Qed.

(** The clean-up removes everything unless a call of it fails. *)
Lemma unlink_each_sound fs names d : dict_wf d →
  let p := unlink_each fs names d in
  (p.1 = true → ∀ name, is_Some (dget name p.2) → is_Some (dget name d) ∧ name ∉ names) ∧
  (p.1 = false → ∃ name, name ∈ names ∧ fs_unlink fs name = false) ∧ dict_wf p.2 ∧ (∀ name, is_Some (dget name p.2) → is_Some (dget name d)).
Proof.
  revert d. induction names as [|n names IH]; intros d Hw; cbn; [split_and!; [intros _ name ?; split; [done|apply not_elem_of_nil]|done|done|done]|].
  destruct (fs_unlink fs n) eqn:Hn; cbn; [|split_and!; [done|intros _; exists n; split; [left|done]|done|done]].
  assert (Hw' : dict_wf (ddel n d)) by by apply dict_wf_ddel.
  assert (Hd : ∀ name, is_Some (dget name (ddel n d)) → is_Some (dget name d) ∧ name ≠ n).
  { intros name. destruct (decide (name = n)) as [->|Hne]; [rewrite dget_ddel_eq by done; by intros [? ?]|by rewrite dget_ddel_ne by done]. }
  destruct (IH (ddel n d) Hw') as (H1 & H2 & H3 & H4). split_and!; [| |done|].
  - intros Hp name Hs. destruct (H1 Hp name Hs) as [[Hx Hne]%Hd Hni]. split; [done|]. by apply not_elem_of_cons.
  - intros Hp. destruct (H2 Hp) as (name & ? & ?). exists name. split; [by right|done].
  - intros name Hs. by apply Hd, H4.
Qed.

(** What a failed clean-up leaves: files of the archive, because one of them could not be unlinked or the directory removed. *)
Definition left_behind (fs : FileSystem) (left : Dir) : Prop :=
  (∀ name, is_Some (dget name left) → name ∈ EXPECTED_ARCHIVE_MEMBERS) ∧ ((∃ name, fs_unlink fs name = false) ∨ fs_rmdir fs = false).

Lemma clean_up_sound fs d : only_expected d →
  let c := clean_up fs d in
  (c.1 = true → c.2 = None) ∧ (c.1 = false → ∃ left, c.2 = Some left ∧ left_behind fs left).
Proof.
  intros [Hw Hexp]. unfold clean_up. destruct (unlink_each_sound fs (iterdir fs d) d Hw) as (H1 & H2 & H3 & H4).
  destruct (unlink_each fs (iterdir fs d) d) as [ok rest]. cbn in *. destruct ok; cbn.
  - assert (Hnil : dkeys rest = []).
    { destruct (dkeys rest) as [|k ks] eqn:Ek; [done|]. exfalso. destruct (dget k rest) as [e|] eqn:El.
      - destruct (H1 eq_refl k ltac:(by rewrite El)) as [[e' He'] Hni]. apply Hni. unfold iterdir. rewrite sort_by_Permutation. by eapply dget_Some_key.
      - apply dget_None in El. apply El. rewrite Ek. left. }
    rewrite (bool_decide_true _ Hnil). destruct (fs_rmdir fs) eqn:Hr; cbn; [done|]. split; [done|]. intros _. exists rest. split; [done|].
    split; [|by right]. intros name Hs. by apply Hexp, H4.
  - split; [done|]. intros _. exists rest. split; [done|]. split; [intros name Hs; by apply Hexp, H4|]. left. destruct (H2 eq_refl) as (name & _ & ?). by exists name.
Qed.

(** C32. What a restoration returns and leaves behind. It succeeds only into a directory that was not there, only for archive
    bytes whose size and digest a pinned key attested, while that key was trusted, in the words of the receipt; the
    directory then holds exactly the four expected members as regular files with dumps that match their checksums. The
    attestation fixes the bytes up to a SHA-256 collision and its signed statement fixes the attestation. A restoration
    that fails leaves the output as it was, unless the clean-up itself fails: when an unlink or the rmdir does, the new
    directory stays with some of the extracted members and nothing else. Parents that were missing may have been made, and
    stay. *)
Theorem restore_sound archive signature receipt keyring fs place :
  match verify_and_extract load_der ed_verify archive signature receipt keyring fs place with
  | (Ok a, place') => pl_dir place = None ∧ ∃ bytes out, archive = Some bytes ∧ place' = mkPlace (Some out) 0 ∧
      backup_attested keyring receipt bytes a ∧ restored bytes receipt out ∧
      (∀ receipt' bytes', backup_attested keyring receipt' bytes' a → bytes' = bytes ∨ sha_collides [bytes'; bytes]) ∧
      (∀ b, backup_statement b = backup_statement a → b = a)
  | (Err _, place') => (pl_missing place' ≤ pl_missing place)%nat ∧
      (pl_dir place' = pl_dir place ∨
       pl_dir place = None ∧ ∃ left, pl_dir place' = Some left ∧ left_behind fs left)
  end.
Proof.
  unfold verify_and_extract. destruct (verify_attestation _ _ _ _ _ _) as [p|e] eqn:Ev; [|split; [done|by left]].
  unfold mbind, st_bind, liftR, read, gets, check, modify, mret, st_ret, raise. destruct place as [[d|] missing]; [split; [done|by left]|]. cbn [pl_dir ensure].
  destruct (fs_mkdir fs) as [m|]; [cbn; split; [lia|by left]|].
  destruct (extract_archive fs p.1 receipt []) as [[[]|e] out] eqn:Ex; destruct (extract_archive_sound _ _ _ _ _ Ex) as [Hexp Hres]; cbn.
  - destruct (verify_attestation_sound _ _ _ _ _ Ev) as [Hb Ha].
    split; [done|]. exists p.1, out. split_and!; [done|done|done|by apply Hres| |].
    + intros receipt' bytes' Ha'. apply sha256_hex_inj. by rewrite <- (bk_digest _ _ _ _ Ha'), <- (bk_digest _ _ _ _ Ha).
    + intros b. apply backup_statement_binds.
  - split; [lia|]. destruct (clean_up_sound fs out Hexp) as [Ht Hf]. destruct (clean_up fs out) as [[] rest]; cbn in *; [left; by apply Ht|].
    right. split; [done|]. by apply Hf.
Qed.
End Restore.
