(* ===== verification/OffhostBackup.v ===== *)
(** Off-host copies of the Temporal backups: src/olympus/runtime/temporal_offhost_backup.py.

    The bucket is the state behind [S3Client]; clock readings are arguments, the KMS signer is a [Signer]. The temporary
    archive lives only inside [upload], so it is a value. *)

From S2P Require Import Prelude PyDict PyTime Sha256 Json JsonParse PyParse NodeScopes AgentFiles NodeAgent EmergencyLatch AuditSigning AuditExport S3Store TemporalBackup.
From Stdlib Require Import Ascii.

Open Scope Z_scope.

Record OffhostSettings := mkOffhost {
  os_bucket : option string; os_kms_key_id : option string; os_retention_days : Z; os_retention_mode : string }.

(** [base64.b64encode(bytes.fromhex(sha256))] of a digest the code computed *)
Definition checksum_of_hex (sha256 : string) : string := standard_b64encode (default "" (fromhex sha256)).

(** [f"{stamp:%Y/%m/%d}"], for years from 1000 on *)
Definition date_path (t : datetime) : string :=
  let '(y, m, d) := civil_from_days (timestamp t / 86400) in digits 4 y +:+ "/" +:+ digits 2 m +:+ "/" +:+ digits 2 d.

Section Upload.
Context {C : Type} `{S3Client C} `{TarFile}.

Notation BM := (St C backup_exn).

(** [_head_identity] *)
Definition head_identity (key expected_sha256 : string) (expected_size : Z) (c : C) : result backup_exn StoredBackupIdentity :=
  response ← (match s3_head_object key c with Ok r => Ok r | Err code => Err (BackupClientError code) end);
  require (sr_content_length response =? expected_size) "stored backup length differs from the uploaded archive";;
  require (bool_decide (default "" (sr_checksum response) = checksum_of_hex expected_sha256)) "stored backup checksum differs from the uploaded archive";;
  require (bool_decide (sr_encryption response = "AES256")) "stored backup is not explicitly encrypted with SSE-S3";;
  retain_until ← require_some (sr_retain_until response) (TemporalBackupError "stored backup has no Object Lock retention timestamp");
  require (negb (is_empty (sr_version_id response))) "stored backup has no immutable object version";;
  Ok (mkBackupIdentity key (sr_version_id response) expected_sha256 expected_size (sr_encryption response) (sr_lock_mode response) (isoformat retain_until)).

Definition head_now (key sha : string) (size : Z) : BM StoredBackupIdentity := λ c, (head_identity key sha size c, c).

(** [_put_file_once] *)
Definition put_file_once (key body sha256 content_type : string) : BM StoredBackupIdentity := λ c,
  match s3_put_object (mkPut key body content_type (Some (checksum_of_hex sha256)) "AES256" (Some "*")) c with
  | (Err code, c') =>
      if is_precondition_failure code then head_now key sha256 (Z.of_nat (String.length body)) c' else (Err (BackupClientError code), c')
  | (Ok response, c') =>
      if match sr_checksum response with None => true | Some checksum => bool_decide (checksum = checksum_of_hex sha256) end
      then head_now key sha256 (Z.of_nat (String.length body)) c'
      else (failure "S3 returned a different checksum for the uploaded backup", c')
  end.

(** [_put_bytes_once] *)
Definition put_bytes_once (key body content_type : string) : BM StoredBackupIdentity := λ c,
  let digest := sha256_hex body in
  match s3_put_object (mkPut key body content_type (Some (checksum_of_hex digest)) "AES256" (Some "*")) c with
  | (Err code, c') =>
      if is_precondition_failure code then head_now key digest (Z.of_nat (String.length body)) c' else (Err (BackupClientError code), c')
  | (Ok _, c') => head_now key digest (Z.of_nat (String.length body)) c'
  end.

(** [_prove_write_once_boundary]: each forbidden call must be refused *)
Definition refused_with (name : string) (r : result string ()) : result backup_exn (string * json) :=
  match r with
  | Ok _ => failure ("immutable backup boundary allowed " +:+ name)
  | Err code =>
      require (bool_decide (code ∈ ["AccessDenied"; "PreconditionFailed"; "412"])) (name +:+ " failed for an unexpected reason: " +:+ code);;
      Ok (name, JStr code)
  end.
Definition attempt (name : string) (call : C → result string () * C) : BM (string * json) := λ c, let p := call c in (refused_with name p.1, p.2).
Definition prove_write_once_boundary (receipt : BackupReceipt) : BM (dict string json) :=
  overwrite ← attempt "overwrite" (λ c, let p := s3_put_object (mkPut (br_object_key receipt) "forbidden replacement" "" None "AES256" (Some "*")) c in
    (match p.1 with Ok _ => Ok () | Err code => Err code end, p.2));
  delete ← attempt "delete" (s3_delete_object (br_object_key receipt) (br_version_id receipt) false);
  bypass ← attempt "governance_bypass" (s3_delete_object (br_object_key receipt) (br_version_id receipt) true);
  mret [("tested", JBool true); overwrite; delete; bypass].

Definition on_store {A} (r : result store_exn A) : result backup_exn A := match r with Ok a => Ok a | Err e => Err (BackupStoreError e) end.
Definition instant (s : string) : result backup_exn datetime := require_some (fromisoformat s) BackupValueError.

(** The part of [upload] that archives and stores; [now] is the clock at the retention check, [uploaded_at] at the receipt *)
Definition upload_archive (bucket key_id mode : string) (retention_days : Z) (signer : Signer) (backup_id : string) (d : Dir) (now uploaded_at : datetime) :
    BM BackupReceipt :=
  archive ← liftR (create_archive backup_id d false);
  stamp ← liftR (instant (ar_created_at archive));
  let object_key := "backups/temporal/" +:+ date_path stamp +:+ "/" +:+ ar_backup_id archive +:+ ".tar" in
  identity ← put_file_once object_key (ar_bytes archive) (ar_sha256 archive) "application/x-tar";
  liftR (require (bool_decide (bi_retention_mode identity = mode)) "stored backup retention mode differs from bucket policy");;
  retain_until ← liftR (instant (bi_retention_until identity));
  liftR (require (negb (retain_until <? now + days (retention_days - 1))) "stored backup retention is shorter than the verified policy");;
  let attestation := build_backup_attestation (ar_backup_id archive) (ar_created_at archive) identity bucket key_id (retain_until - days retention_days) in
  sidecar ← liftR (sign_backup attestation signer);
  let signature_key := object_key +:+ ".sig.json" in
  signature ← put_bytes_once signature_key sidecar "application/json";
  liftR (require (bool_decide (bi_retention_mode signature = mode)) "signature sidecar is not under the expected retention mode");;
  sidecar_until ← liftR (instant (bi_retention_until signature));
  liftR (require (negb (sidecar_until <? retain_until)) "signature sidecar expires before the backup it authenticates");;
  mret (mkBackupReceipt BACKUP_FORMAT_VERSION (ar_backup_id archive) (ar_created_at archive) (isoformat uploaded_at) bucket object_key
    (bi_version_id identity) (ar_sha256 archive) (ar_size archive) (bi_server_side_encryption identity) (bi_retention_mode identity)
    (bi_retention_until identity) signature_key (bi_version_id signature) key_id).

(** The bucket, and the files under offhost-receipts *)
Record Host := mkHost { ho_bucket : C; ho_receipts : dict string string }.
Definition on_bucket {A} (m : BM A) : St Host backup_exn A := λ h, let p := m (ho_bucket h) in (p.1, mkHost p.2 (ho_receipts h)).

(** [upload]: the receipt, the name of the file it is saved in and the outcome of the boundary test *)
Definition upload (settings : OffhostSettings) (signer : string → Signer) (backup_id : string) (d : Dir) (now uploaded_at : datetime) (prove_boundary : bool) :
    St Host backup_exn (BackupReceipt * string * dict string json) :=
  match os_bucket settings, os_kms_key_id settings with
  | Some bucket, Some key_id =>
      store ← liftR (on_store (make_lock_store (mkLockStore (Some (os_retention_days settings)) (Some (os_retention_mode settings)))));
      h ← read;
      policy ← liftR (on_store (assert_retention_configured store (ho_bucket h)));
      receipt ← on_bucket (upload_archive bucket key_id policy.1 policy.2 (signer key_id) backup_id d now uploaded_at);
      let path := br_backup_id receipt +:+ ".json" in
      modify (λ h, mkHost (ho_bucket h) (dset path (save_receipt receipt) (ho_receipts h)));;
      boundary ← (if prove_boundary then on_bucket (prove_write_once_boundary receipt) else mret [("tested", JBool false)]);
      mret (receipt, path, boundary)
  | _, _ => raise (TemporalBackupError "immutable object storage and KMS signing are not configured")
  end.

(** [presign]; [url] is the client's [generate_presigned_url]; the result is the document written for the operator *)
Definition presign (settings : OffhostSettings) (receipt : BackupReceipt) (output_exists : bool) (expires_seconds : Z) (now : datetime)
    (url : string → string → string → Z → string) : result backup_exn string :=
  require ((60 <=? expires_seconds) && (expires_seconds <=? 3600)) "presigned recovery links must last between 60 and 3600 seconds";;
  require (bool_decide (os_bucket settings = Some (br_bucket receipt))) "receipt names a bucket outside this recovery configuration";;
  let link key version := JStr (url (br_bucket receipt) key version expires_seconds) in
  require (negb output_exists) "refusing to replace secret handoff";;
  Ok (canonical_bytes (JObj [("schema_version", JInt 1); ("expires_at", JStr (isoformat (now + seconds expires_seconds)));
        ("receipt", JObj (receipt_mapping receipt)); ("archive_url", link (br_object_key receipt) (br_version_id receipt));
        ("signature_url", link (br_signature_object_key receipt) (br_signature_version_id receipt))]) +:+ newline).
End Upload.
#[global] Arguments Host : clear implicits.
#[global] Arguments mkHost {C} _ _.
