(* ===== verification/OffhostBackupFacts.v ===== *)
(** An off-host copy restores: what [upload] stored and receipted is what [verify_and_extract] accepts and extracts, and a
    repeated upload changes nothing. *)

From stdpp Require Import pretty.
From S2P Require Import Prelude PyDict PyTime Sha256 Json JsonParse PyParse PyPath NodeScopes AgentFiles NodeCrypto NodeAgent EmergencyLatch OperationsControl.
From S2P Require Import AuditSigning AuditExport S3Store TemporalBackup TemporalBackupFacts OffhostBackup.
From Stdlib Require Import Ascii.

Open Scope Z_scope.

(** What the code relies on of [tarfile]: regular members with data come back as they were written. *)
Definition plain_member (m : TarMember) : Prop := tm_regular m = true ∧ is_Some (tm_data m).
Class TarLaws `{TarFile} : Prop := {
  tar_reads : ∀ ms, ms ≠ [] → Forall plain_member ms → NoDup (map tm_name ms) → tar_read (tar_write ms) = Some ms;
  tar_nonempty : ∀ ms, tar_write ms ≠ "" }.

(** ** Digests *)

Lemma checksum_of_digest body : checksum_of_hex (sha256_hex body) = b64_digest body.
Proof. unfold checksum_of_hex, b64_digest. by rewrite <- hex_sha256, fromhex_hex. Qed.

(** The checksum S3 keeps identifies the body. *)
Lemma b64_digest_inj x y : b64_digest x = b64_digest y → x = y ∨ sha_collides [x; y].
Proof.
  intros E. apply sha256_hex_inj. rewrite <- !hex_sha256. f_equal. apply (f_equal b64_strict) in E. unfold b64_digest in E.
  rewrite !b64_strict_encode in E. congruence.
Qed.

Lemma hex_is_lower s : all_chars hex_lower (hex s) = true.
Proof. induction s as [|c s IH]; [done|]. cbn [hex all_chars]. rewrite IH. by destruct c as [[] [] [] [] [] [] [] []]. Qed.

Lemma digest_is_sha256_hex m : is_sha256_hex (sha256_hex m) = true.
Proof. unfold is_sha256_hex. rewrite sha256_hex_length. cbn [Nat.eqb andb]. rewrite <- hex_sha256. apply hex_is_lower. Qed.

(** ** What is stored *)

Section Stored.
Context {C : Type} `{S3Client C} `{!S3Laws C}.

(** The object under [key] is this body, up to a collision, and the identity is the object's. *)
Definition holds (c : C) (key body : string) (i : StoredBackupIdentity) : Prop :=
  ∃ o, s3_object c key = Some o ∧ (ob_body o = body ∨ sha_collides [body; ob_body o]) ∧
    i = mkBackupIdentity key (ob_version o) (sha256_hex body) (Z.of_nat (String.length body)) (ob_encryption o) (ob_mode o) (isoformat (ob_until o)).

Definition kept (c c' : C) : Prop := ∀ k o, s3_object c k = Some o → s3_object c' k = Some o.

Lemma head_identity_sound key body c i : head_identity key (sha256_hex body) (Z.of_nat (String.length body)) c = Ok i → holds c key body i.
Proof.
  unfold head_identity. intros (r & Hr & (? & _ & (? & Hc%ensure_Ok & Hk)%bind_Ok)%bind_Ok)%bind_Ok. destruct (s3_head_object key c) as [r'|] eqn:Eh; [|done].
  injection Hr as ->. destruct (s3_head_describes _ _ _ Eh) as (o & Ho & Hd & Hs & He & Hu & Hm & Hv). apply bind_Ok in Hk as (? & _ & Hk).
  apply bind_Ok in Hk as (t & Ht%require_some_Ok & Hk). apply bind_Ok in Hk as (? & _ & [= <-]). apply bool_decide_eq_true in Hc.
  rewrite Hu in Ht. injection Ht as <-. exists o. split; [done|]. split; [|by rewrite Hv, He, Hm].
  rewrite checksum_of_digest, Hs in Hc. destruct (b64_digest_inj _ _ Hc) as [->|Hx]; [by left|right].
  eapply sha_collides_mono; [|exact Hx]. set_solver.
Qed.

Lemma put_kept q c : conditional q → kept c (s3_put_object q c).2.
Proof. intros Hq k o. apply s3_put_keeps. by left. Qed.

Lemma head_now_sound key body c i c' : head_now key (sha256_hex body) (Z.of_nat (String.length body)) c = (Ok i, c') → c' = c ∧ holds c key body i.
Proof. unfold head_now. intros [= Hi <-]. split; [done|by apply head_identity_sound]. Qed.

Lemma put_file_once_sound key body ct c i c' : put_file_once key body (sha256_hex body) ct c = (Ok i, c') → kept c c' ∧ holds c' key body i.
Proof.
  unfold put_file_once. set (q := mkPut _ _ _ _ _ _). pose proof (put_kept q c eq_refl) as Hk. destruct (s3_put_object q c) as [[r|code] c1]; cbn in Hk.
  - destruct (match sr_checksum _ with None => _ | Some _ => _ end); [|done]. intros [-> Hh]%head_now_sound. by split.
  - destruct (is_precondition_failure code); [|done]. intros [-> Hh]%head_now_sound. by split.
Qed.

Lemma put_bytes_once_sound key body ct c i c' : put_bytes_once key body ct c = (Ok i, c') → kept c c' ∧ holds c' key body i.
Proof.
  unfold put_bytes_once. set (q := mkPut _ _ _ _ _ _). pose proof (put_kept q c eq_refl) as Hk. destruct (s3_put_object q c) as [[r|code] c1]; cbn in Hk.
  - intros [-> Hh]%head_now_sound. by split.
  - destruct (is_precondition_failure code); [|done]. intros [-> Hh]%head_now_sound. by split.
Qed.

Lemma holds_kept c c' key body i : kept c c' → holds c key body i → holds c' key body i.
Proof. intros Hk (o & Ho & Hb & Hi). exists o. split_and!; [by apply Hk|done|done]. Qed.

Lemma attempt_kept name call c x c' : (∀ code c1, call c = (Err code, c1) → kept c c1) → attempt name call c = (Ok x, c') → kept c c'.
Proof. unfold attempt, refused_with. intros Hc. destruct (call c) as [[|code] c1]; cbn; [done|]. intros [= _ <-]. by eapply Hc. Qed.

(** A boundary that holds leaves every object. *)
Lemma boundary_kept receipt c x c' : prove_write_once_boundary receipt c = (Ok x, c') → kept c c'.
Proof.
  unfold prove_write_once_boundary. intros (? & c1 & H1 & (? & c2 & H2 & (? & c3 & H3 & [= _ <-])%bind_run_inv)%bind_run_inv)%bind_run_inv.
  assert (K1 : kept c c1).
  { eapply attempt_kept; [|exact H1]. cbn. intros code c0. set (q := mkPut _ _ _ _ _ _). pose proof (put_kept q c eq_refl) as Hk. intros [= _ <-]. done. }
  assert (K2 : kept c1 c2) by (eapply attempt_kept; [|exact H2]; intros code c0 Hd k o Hk; by rewrite (s3_delete_refused _ _ _ _ _ _ Hd)).
  assert (K3 : kept c2 c3) by (eapply attempt_kept; [|exact H3]; intros code c0 Hd k o Hk; by rewrite (s3_delete_refused _ _ _ _ _ _ Hd)).
  intros k o Hk. by apply K3, K2, K1.
Qed.
End Stored.

(** ** What is archived comes back *)

Lemma verify_source_ext d out : read_entry out "SHA256SUMS" = read_entry d "SHA256SUMS" → (∀ name, name ∈ DUMPS → dget name out = dget name d) →
  verify_source_backup out = verify_source_backup d.
Proof.
  intros Hs Hd. unfold verify_source_backup. rewrite Hs. destruct (require_some (read_entry d _) _) as [raw|]; [|done]. unfold mbind, result_bind.
  destruct (ensure _ _); [|done]. destruct (checksums_of _ _) as [cs|]; [|done]. unfold require at 1 3. destruct (keys_are DUMPS cs) eqn:Ek; [|done].
  cbn [ensure]. assert (forallb (λ e, file_matches out e.1 e.2) cs = forallb (λ e, file_matches d e.1 e.2) cs) as ->; [|done].
  apply eq_true_iff_eq. rewrite !forallb_forall. rewrite keys_are_spec in Ek.
  assert (He : ∀ e : string * string, In e cs → file_matches out e.1 e.2 = file_matches d e.1 e.2).
  { intros [name digest] Hin. unfold file_matches. cbn. rewrite Hd; [done|]. apply Ek. unfold dkeys. apply list_elem_of_fmap.
    exists (name, digest). by rewrite list_elem_of_In. }
  split; intros Hf e He'; [rewrite <- He by done|rewrite He by done]; by apply Hf.
Qed.

Section Archives.
Context `{TarFile} `{!TarLaws}.

Definition archive_members (manifest : string) (body : string → string) (mtime : Z) : list TarMember :=
  [add_member "BACKUP.json" manifest mtime; add_member "SHA256SUMS" (body "SHA256SUMS") mtime;
   add_member "temporal.dump" (body "temporal.dump") mtime; add_member "temporal_visibility.dump" (body "temporal_visibility.dump") mtime].
Definition extracted (manifest : string) (body : string → string) : Dir :=
  [("BACKUP.json", DFile manifest); ("SHA256SUMS", DFile (body "SHA256SUMS")); ("temporal.dump", DFile (body "temporal.dump"));
   ("temporal_visibility.dump", DFile (body "temporal_visibility.dump"))].

Lemma archive_reads manifest body mtime : tar_read (tar_write (archive_members manifest body mtime)) = Some (archive_members manifest body mtime).
Proof.
  apply tar_reads; [done| |].
  - unfold archive_members. repeat constructor; by eexists.
  - apply (bool_decide_unpack _). by vm_compute.
Qed.

Lemma archive_extracts manifest body mtime : extract_members healthy (archive_members manifest body mtime) [] = (Ok (), extracted manifest body).
Proof. reflexivity. Qed.

Lemma archive_safe manifest body mtime :
  bool_decide (sorted_set (map tm_name (archive_members manifest body mtime)) = sorted_set EXPECTED_ARCHIVE_MEMBERS) = true ∧
  existsb unsafe_member (archive_members manifest body mtime) = false.
Proof. split; by vm_compute. Qed.

Lemma manifest_wf id created cs size : json_wf (manifest_json id created cs size).
Proof. unfold manifest_json. cbn. repeat split; repeat constructor; set_solver. Qed.

(** The manifest names the backup. *)
Lemma manifest_reads id created cs size :
  ∃ o, utf8_decode (canonical_bytes (manifest_json id created cs size) +:+ newline) ≫= loads = Some (JObj o) ∧ dget "backup_id" o = Some (JStr id).
Proof.
  assert (Hn : ∃ o, jnorm (manifest_json id created cs size) = JObj o ∧ dget "backup_id" o = Some (JStr id)) by (eexists; split; reflexivity).
  destruct Hn as (o & Ho & Hid). exists o. split; [|done]. rewrite canonical_line_decodes. cbn [mbind option_bind]. rewrite <- Ho.
  apply loads_dumps_line, manifest_wf.
Qed.

(** An archive of a verified directory, and what identifies it. *)
Record archived (backup_id : string) (d : Dir) (archive : Archive) : Prop := {
  ac_id : ar_backup_id archive = backup_id;
  ac_stamp : is_ok (backup_created_at backup_id) = true;
  ac_digest : ar_sha256 archive = sha256_hex (ar_bytes archive);
  ac_size : ar_size archive = Z.of_nat (String.length (ar_bytes archive));
  ac_some : 1 ≤ ar_size archive;
  ac_verified : is_ok (verify_source_backup d) = true;
  ac_bytes : ∃ created cs size mtime, ar_bytes archive =
    tar_write (archive_members (canonical_bytes (manifest_json backup_id created cs size) +:+ newline) (λ name, default "" (read_entry d name)) mtime) }.

Lemma create_archive_sound backup_id d archive : create_archive backup_id d false = Ok archive → archived backup_id d archive.
Proof.
  unfold create_archive. intros (created & Hc & (cs & Hv & (? & _ & [= <-])%bind_Ok)%bind_Ok)%bind_Ok.
  split; cbn [ar_bytes ar_sha256 ar_size ar_backup_id].
  1: reflexivity. 1: by rewrite Hc. 1: reflexivity. 1: reflexivity. 2: by rewrite Hv.
  2: exists (isoformat created), cs, (λ name, Z.of_nat (String.length (default "" (read_entry d name)))), (timestamp created); reflexivity.
  match goal with |- _ ≤ Z.of_nat (String.length (tar_write ?ms)) => pose proof (tar_nonempty ms) as Hne; destruct (tar_write ms); [contradiction|] end.
  cbn [String.length]. lia.
Qed.

Lemma source_readable d : is_ok (verify_source_backup d) = true → ∀ name, name ∈ "SHA256SUMS" :: DUMPS → is_Some (read_entry d name).
Proof.
  intros Hv name [->|Hn]%elem_of_cons.
  - unfold verify_source_backup in Hv. by destruct (read_entry d "SHA256SUMS").
  - destruct (verify_source_backup d) as [cs|] eqn:Ev; [|done]. destruct (verify_source_sound _ _ Ev name Hn) as (body & Hb & _).
    unfold read_entry. by rewrite Hb.
Qed.

Lemma extracted_get manifest body name : name ∈ "SHA256SUMS" :: DUMPS → dget name (extracted manifest body) = Some (DFile (body name)).
Proof. intros Hn. repeat (apply elem_of_cons in Hn as [->|Hn]; [reflexivity|]). by apply elem_of_nil in Hn. Qed.

Lemma extracted_reads d manifest : is_ok (verify_source_backup d) = true →
  ∀ name, name ∈ "SHA256SUMS" :: DUMPS → read_entry (extracted manifest (λ name, default "" (read_entry d name))) name = read_entry d name.
Proof.
  intros Hv name Hn. destruct (source_readable d Hv name Hn) as [body Hb]. unfold read_entry at 1. rewrite extracted_get by done. by rewrite Hb.
Qed.

Lemma extracted_verifies d manifest : is_ok (verify_source_backup d) = true →
  verify_source_backup (extracted manifest (λ name, default "" (read_entry d name))) = verify_source_backup d.
Proof.
  intros Hv. apply verify_source_ext; [apply extracted_reads; [done|set_solver]|]. intros name Hn. destruct (verify_source_backup d) as [cs|] eqn:Ev; [|done].
  destruct (verify_source_sound _ _ Ev name Hn) as (body & Hb & _). rewrite Hb. assert (Hr : read_entry d name = Some body) by (unfold read_entry; by rewrite Hb).
  rewrite extracted_get by set_solver. by rewrite Hr.
Qed.

(** What [create_archive] packed, [verify_and_extract] unpacks. *)
Lemma archive_restores backup_id d archive receipt : archived backup_id d archive → br_backup_id receipt = backup_id →
  ∃ out, extract_archive healthy (ar_bytes archive) receipt [] = (Ok (), out) ∧ ∀ name, name ∈ "SHA256SUMS" :: DUMPS → read_entry out name = read_entry d name.
Proof.
  intros [_ _ _ _ _ Hv (created & cs & size & mtime & Hb)] Hid. destruct (manifest_reads backup_id created cs size) as (o & Ho & Hget).
  set (manifest := canonical_bytes _ +:+ _) in *. clearbody manifest. set (body := λ name, default "" (read_entry d name)) in *.
  exists (extracted manifest body). split; [|by apply extracted_reads]. unfold extract_archive, some_or. rewrite Hb, archive_reads. cbn [require_some].
  erewrite bind_run_Ok by reflexivity.
  destruct (archive_safe manifest body mtime) as [Hn Hu]. rewrite Hn, Hu. erewrite bind_run_Ok by reflexivity. erewrite bind_run_Ok by reflexivity.
  erewrite bind_run_Ok by apply archive_extracts. erewrite bind_run_Ok by reflexivity. assert (Hs : verify_source_backup (extracted manifest body) = verify_source_backup d) by by apply extracted_verifies. rewrite Hs.
  destruct (verify_source_backup d); [|done]. erewrite bind_run_Ok by reflexivity.
  change (read_entry (extracted manifest body) "BACKUP.json") with (Some manifest). cbn [require_some]. erewrite bind_run_Ok by reflexivity.
  destruct (utf8_decode manifest) as [text|]; [|done]. cbn [mbind option_bind] in Ho. cbn [require_some]. erewrite bind_run_Ok by reflexivity.
  rewrite Ho. cbn [require_some]. erewrite bind_run_Ok by reflexivity.
  cbv beta iota. rewrite Hget, Hid, bool_decide_eq_true_2 by done. done.
Qed.
End Archives.

(** ** An upload that succeeds can be restored *)

Section Restores.
Context {C : Type} `{S3Client C} `{!S3Laws C} `{TarFile} `{!TarLaws}.
Context (load_der : string → loaded_key) (ed_verify : string → string → string → bool).

Lemma sidecar_verifies keyring signer t a sidecar bytes receipt :
  pinned load_der ed_verify keyring signer t → ba_signed_at a = isoformat t → sign_backup a signer = Ok sidecar → attestation_valid a →
  receipt_matches a receipt = true → ba_archive_size a = Z.of_nat (String.length bytes) → ba_archive_sha256 a = sha256_hex bytes →
  verify_attestation load_der ed_verify (Some bytes) (Some sidecar) receipt keyring = Ok (bytes, a).
Proof.
  intros [Ht (s & pk & Hs & Hk & Hw & Hr & Hlaw)] Hat Hsign Hv Hm Hsz Hdg. unfold sign_backup in Hsign.
  apply bind_Ok in Hsign as (? & Hid%ensure_Ok%bool_decide_eq_true & Hsign). apply bind_Ok in Hsign as (sig & Hsig%lift_signature_Ok & Hsign).
  apply bind_Ok in Hsign as (? & _ & [= <-]). destruct (Hlaw _ _ Hsig) as [Hl Hver].
  unfold verify_attestation. cbn [require_some]. unfold mbind, result_bind. rewrite signed_backup_roundtrip by done. cbn [sb_attestation sb_signature].
  unfold require. rewrite Hm, Hsz, Z.eqb_refl, <- Hdg, bool_decide_eq_true_2 by done. cbn [ensure]. unfold resolve_signer. rewrite <- Hid, Hs. cbn [require_some lift_signature].
  unfold aware_timestamp. rewrite Hat, fromisoformat_isoformat by done. cbn [require_some]. rewrite trusted_at by done. cbn [lift_signature]. by rewrite Hk, Hver.
Qed.

(** What a stored pair is: the archive, its attestation, signed, and the receipt that names both. *)
Record uploaded (bucket key_id mode : string) (n : Z) (signer : Signer) (backup_id : string) (d : Dir) (now uploaded_at : datetime) (c c' : C)
    (receipt : BackupReceipt) (archive : Archive) (sidecar : string) (i s : StoredBackupIdentity) (until : datetime) : Prop := {
  up_created : create_archive backup_id d false = Ok archive;
  up_keys : ∃ stamp, fromisoformat (ar_created_at archive) = Some stamp ∧
    br_object_key receipt = "backups/temporal/" +:+ date_path stamp +:+ "/" +:+ ar_backup_id archive +:+ ".tar" ∧
    br_signature_object_key receipt = br_object_key receipt +:+ ".sig.json";
  up_kept : kept c c';
  up_archive : holds c' (br_object_key receipt) (ar_bytes archive) i;
  up_sidecar : holds c' (br_signature_object_key receipt) sidecar s;
  up_modes : bi_retention_mode i = mode ∧ bi_retention_mode s = mode;
  up_until : fromisoformat (bi_retention_until i) = Some until ∧ now + days (n - 1) ≤ until;
  up_signed : sign_backup (build_backup_attestation (ar_backup_id archive) (ar_created_at archive) i bucket key_id (until - days n)) signer = Ok sidecar;
  up_receipt : receipt = mkBackupReceipt BACKUP_FORMAT_VERSION (ar_backup_id archive) (ar_created_at archive) (isoformat uploaded_at) bucket
    (br_object_key receipt) (bi_version_id i) (ar_sha256 archive) (ar_size archive) (bi_server_side_encryption i) (bi_retention_mode i)
    (bi_retention_until i) (br_signature_object_key receipt) (bi_version_id s) key_id }.

Lemma upload_archive_sound bucket key_id mode n signer backup_id d now uploaded_at c receipt c' :
  upload_archive bucket key_id mode n signer backup_id d now uploaded_at c = (Ok receipt, c') →
  ∃ archive sidecar i s until, uploaded bucket key_id mode n signer backup_id d now uploaded_at c c' receipt archive sidecar i s until.
Proof.
  unfold upload_archive. intros (archive & c0 & [= Ha <-] & (stamp & c1 & [= Hst%require_some_Ok <-] & Hu)%bind_run_inv)%bind_run_inv.
  pose proof (create_archive_sound _ _ _ Ha) as Har. remember ("backups/temporal/" +:+ _) as okey eqn:Eo in Hu.
  apply bind_run_inv in Hu as (i & c1 & Hput & Hu). rewrite (ac_digest _ _ _ Har) in Hput. apply put_file_once_sound in Hput as [K1 G1].
  apply bind_run_inv in Hu as (? & c2 & [= Hm%ensure_Ok%bool_decide_eq_true <-] & Hu). apply bind_run_inv in Hu as (until & c2 & [= Hun%require_some_Ok <-] & Hu).
  apply bind_run_inv in Hu as (? & c2 & [= Hlong%ensure_Ok <-] & Hu). apply bind_run_inv in Hu as (sidecar & c2 & [= Hsg <-] & Hu).
  remember (okey +:+ ".sig.json") as skey eqn:Es in Hu. apply bind_run_inv in Hu as (s & c2 & [K2 G2]%put_bytes_once_sound & Hu).
  apply bind_run_inv in Hu as (? & c3 & [= Hm2%ensure_Ok%bool_decide_eq_true <-] & Hu). apply bind_run_inv in Hu as (? & c3 & [= _ <-] & Hu).
  apply bind_run_inv in Hu as (? & c3 & [= _ <-] & [= <- <-]). exists archive, sidecar, i, s, until.
  split; cbn [br_object_key br_signature_object_key]; [done|by exists stamp|by intros k o Ho; apply K2, K1|by eapply holds_kept|done|done| |done|done].
  split; [done|]. apply negb_true_iff, Z.ltb_ge in Hlong. done.
Qed.

(** The pair restores, whatever the bucket did in between that keeps its objects. *)
Lemma uploaded_restores bucket key_id mode n signer backup_id d now uploaded_at c c' receipt archive sidecar i s until keyring :
  uploaded bucket key_id mode n signer backup_id d now uploaded_at c c' receipt archive sidecar i s until →
  pinned load_der ed_verify keyring signer (until - days n) →
  ∃ out, (∀ missing, verify_and_extract load_der ed_verify (Some (ar_bytes archive)) (Some sidecar) receipt keyring healthy (mkPlace None missing) =
      (Ok (build_backup_attestation (ar_backup_id archive) (ar_created_at archive) i bucket key_id (until - days n)), mkPlace (Some out) 0)) ∧
    ∀ name, name ∈ "SHA256SUMS" :: DUMPS → read_entry out name = read_entry d name.
Proof.
  intros [Ha (stamp & Hst & _) _ (o & _ & _ & Hi) _ _ [Hun _] Hsg Hr] Hp. pose proof (create_archive_sound _ _ _ Ha) as Har. set (a := build_backup_attestation _ _ _ _ _ _) in *.
  assert (Hid : ar_backup_id archive = backup_id) by apply Har.
  assert (Hval : attestation_valid a).
  { split; subst a; unfold build_backup_attestation; cbn; [done|rewrite Hid; apply Har|by eexists| |by eexists| |].
    - eexists. apply fromisoformat_isoformat, Hp.
    - rewrite Hi. apply digest_is_sha256_hex.
    - rewrite Hi. cbn. rewrite <- (ac_size _ _ _ Har). apply Har. }
  assert (Hmatch : receipt_matches a receipt = true).
  { rewrite Hr. subst a. unfold receipt_matches. cbn. rewrite (ac_digest _ _ _ Har), (ac_size _ _ _ Har), Hi. cbn. by rewrite !bool_decide_eq_true_2, Z.eqb_refl. }
  destruct (archive_restores backup_id d archive receipt Har) as (out & Hx & Hread); [by rewrite Hr|]. exists out. split; [intros missing|done].
  assert (Hver : verify_attestation load_der ed_verify (Some (ar_bytes archive)) (Some sidecar) receipt keyring = Ok (ar_bytes archive, a)).
  { eapply sidecar_verifies; [exact Hp|done|done|done|done|by subst a; rewrite Hi|by subst a; rewrite Hi]. }
  unfold verify_and_extract, liftR. rewrite Hver. erewrite bind_run_Ok by reflexivity. cbn [fst snd].
  unfold mbind, st_bind, read, gets, check, modify, mret, st_ret. cbn [pl_dir ensure healthy fs_mkdir]. by rewrite Hx.
Qed.

Lemma uploaded_receipt_valid bucket key_id mode n signer backup_id d now uploaded_at c c' receipt archive sidecar i s until :
  uploaded bucket key_id mode n signer backup_id d now uploaded_at c c' receipt archive sidecar i s until → representable uploaded_at → receipt_valid receipt.
Proof.
  intros [Ha (stamp & Hst & _) _ _ _ _ [Hun _] _ ->] Hat. destruct (create_archive_sound _ _ _ Ha) as [Hid Hok Hdg Hsz Hs1 _ _].
  split; cbn; [done|by rewrite Hid|by eexists| |by eexists|rewrite Hdg; apply digest_is_sha256_hex|done].
  eexists. by apply fromisoformat_isoformat.
Qed.

(** The run of [upload] around [upload_archive]. *)
Lemma upload_sound settings signer backup_id d now uploaded_at prove h receipt path boundary h' :
  upload settings signer backup_id d now uploaded_at prove h = (Ok (receipt, path, boundary), h') →
  ∃ bucket key_id mode n archive sidecar i s until c1,
    os_bucket settings = Some bucket ∧ os_kms_key_id settings = Some key_id ∧ s3_object_lock (ho_bucket h) = Ok (Some mode, Some n) ∧
    uploaded bucket key_id mode n (signer key_id) backup_id d now uploaded_at (ho_bucket h) c1 receipt archive sidecar i s until ∧
    kept c1 (ho_bucket h') ∧ dget path (ho_receipts h') = Some (save_receipt receipt).
Proof.
  unfold upload. destruct (os_bucket settings) as [bucket|]; [|done]. destruct (os_kms_key_id settings) as [key_id|]; [|done].
  intros (store & h1 & [= _ <-] & (? & h1' & [= <- <-] & (policy & h2 & [= Hpol <-] & Hu)%bind_run_inv)%bind_run_inv)%bind_run_inv.
  apply bind_run_inv in Hu as (r & h3 & Hup & Hu). apply bind_run_inv in Hu as (? & h4 & [= _ <-] & Hu). apply bind_run_inv in Hu as (b & h5 & Hb & [= -> <- <- <-]).
  unfold on_bucket in Hup. destruct (upload_archive _ _ _ _ _ _ _ _ _ _) as [[r'|] c1] eqn:Ea; cbn in Hup; [|done]. injection Hup as -> <-.
  apply upload_archive_sound in Ea as (archive & sidecar & i & s & until & Ha). exists bucket, key_id, policy.1, policy.2, archive, sidecar, i, s, until, c1.
  assert (Hlock : s3_object_lock (ho_bucket h) = Ok (Some policy.1, Some policy.2)).
  { unfold on_store, assert_retention_configured in Hpol. destruct (s3_object_lock _) as [[[m|] [k|]]|]; try done. unfold mbind, result_bind in Hpol.
    by repeat case_match; simplify_eq. }
  split_and!; [done..| |].
  - destruct prove; [|injection Hb as _ <-; by intros k o]. unfold on_bucket in Hb. cbn [ho_bucket] in Hb. destruct (prove_write_once_boundary _ _) as [[bd|] c2] eqn:Ep; cbn in Hb; [|done].
    injection Hb as -> <-. by apply boundary_kept in Ep.
  - destruct prove; [|injection Hb as _ <-; cbn; apply dget_dset_eq]. unfold on_bucket in Hb. injection Hb as _ <-. cbn. apply dget_dset_eq.
Qed.

(** The object under a key settles the identity. *)
Lemma holds_unique c c' key body body' i i' : kept c c' → holds c key body i → holds c' key body' i' → body' = body → i' = i.
Proof. intros Hk (o & Ho & _ & ->) (o' & Ho' & _ & ->) ->. apply Hk in Ho. congruence. Qed.

(** A receipt of the same objects, written at another time. *)
Definition retimed (r : BackupReceipt) (t : string) : BackupReceipt :=
  mkBackupReceipt (br_schema_version r) (br_backup_id r) (br_created_at r) t (br_bucket r) (br_object_key r) (br_version_id r) (br_archive_sha256 r)
    (br_archive_size r) (br_server_side_encryption r) (br_retention_mode r) (br_retention_until r) (br_signature_object_key r)
    (br_signature_version_id r) (br_signer_key_id r).

Lemma uploaded_again bucket key_id mode n signer backup_id d now uploaded_at c c' receipt archive sidecar i s until
    now2 uploaded_at2 c2 c2' receipt2 archive2 sidecar2 i2 s2 until2 :
  uploaded bucket key_id mode n signer backup_id d now uploaded_at c c' receipt archive sidecar i s until →
  uploaded bucket key_id mode n signer backup_id d now2 uploaded_at2 c2 c2' receipt2 archive2 sidecar2 i2 s2 until2 →
  kept c' c2' → receipt2 = retimed receipt (isoformat uploaded_at2).
Proof.
  intros [Ha (t & Ht & Hok & Hsk) _ G1 G2 _ [Hun _] Hsg Hr] [Ha2 (t2 & Ht2 & Hok2 & Hsk2) _ G12 G22 _ [Hun2 _] Hsg2 Hr2] Hk.
  assert (archive2 = archive) as -> by congruence. assert (t2 = t) as -> by congruence.
  assert (Eok : br_object_key receipt2 = br_object_key receipt) by congruence. rewrite Eok in *.
  assert (i2 = i) as -> by (eapply holds_unique; [exact Hk|exact G1|exact G12|done]). assert (until2 = until) as -> by congruence.
  assert (sidecar2 = sidecar) as -> by congruence. rewrite Hsk2, <- Hsk in *.
  assert (s2 = s) as -> by (eapply holds_unique; [exact Hk|exact G2|exact G22|done]). rewrite Hr2, Hr. done.
Qed.

(** C31. An upload that succeeds can be restored. The receipt it saved loads as it was; archive and signature are in the
    bucket under the versions the receipt names, in the mode of the bucket's policy, and the archive is retained for a
    day less than the policy at least. With the signing key pinned at the observed upload time, downloading both
    verifies and extracts a directory whose checksum list and dumps read as those of the source, or a SHA-256 collision
    between what was sent and what is stored is at hand. A later successful upload of the same directory, after a crash
    or a lost receipt, finds the same pair: its receipt differs at most in the time of writing. *)
Theorem offhost_restores settings signer backup_id d now uploaded_at prove h receipt path boundary h' mode n keyring until :
  upload settings signer backup_id d now uploaded_at prove h = (Ok (receipt, path, boundary), h') →
  s3_object_lock (ho_bucket h) = Ok (Some mode, Some n) →
  fromisoformat (br_retention_until receipt) = Some until →
  pinned load_der ed_verify keyring (signer (br_signer_key_id receipt)) (until - days n) →
  representable uploaded_at →
  load_receipt (dget path (ho_receipts h')) = Ok receipt ∧ now + days (n - 1) ≤ until ∧
  (∃ archive a sidecar o1 o2,
    create_archive backup_id d false = Ok archive ∧ sign_backup a (signer (br_signer_key_id receipt)) = Ok sidecar ∧
    s3_object (ho_bucket h') (br_object_key receipt) = Some o1 ∧ s3_object (ho_bucket h') (br_signature_object_key receipt) = Some o2 ∧
    ob_version o1 = br_version_id receipt ∧ ob_version o2 = br_signature_version_id receipt ∧ ob_mode o1 = mode ∧ ob_mode o2 = mode ∧
    (sha_collides [ar_bytes archive; ob_body o1] ∨ sha_collides [sidecar; ob_body o2] ∨
     ∃ out, (∀ missing, verify_and_extract load_der ed_verify (Some (ob_body o1)) (Some (ob_body o2)) receipt keyring healthy (mkPlace None missing) =
         (Ok a, mkPlace (Some out) 0)) ∧
       ∀ name, name ∈ "SHA256SUMS" :: DUMPS → read_entry out name = read_entry d name)) ∧
  (∀ now2 uploaded_at2 prove2 h2 receipt2 path2 boundary2 h2', kept (ho_bucket h') (ho_bucket h2) →
    s3_object_lock (ho_bucket h2) = s3_object_lock (ho_bucket h) →
    upload settings signer backup_id d now2 uploaded_at2 prove2 h2 = (Ok (receipt2, path2, boundary2), h2') →
    receipt2 = retimed receipt (isoformat uploaded_at2)).
Proof.
  intros (bucket & key_id & mode' & n' & archive & sidecar & i & s & until' & c1 & Hb & Hkey & Hlock & Hup & Hk & Hsaved)%upload_sound Hlock' Hu Hp Hat.
  rewrite Hlock in Hlock'. injection Hlock' as -> ->. pose proof (up_receipt _ _ _ _ _ _ _ _ _ _ _ _ _ _ _ _ _ Hup) as Hr.
  assert (Ek : br_signer_key_id receipt = key_id) by (by rewrite Hr). rewrite Ek in *.
  assert (until' = until) as ->. { destruct (up_until _ _ _ _ _ _ _ _ _ _ _ _ _ _ _ _ _ Hup) as [Hi _]. assert (br_retention_until receipt = bi_retention_until i) by (by rewrite Hr). congruence. }
  split_and!.
  - rewrite Hsaved. by eapply receipt_roundtrip, uploaded_receipt_valid.
  - by destruct (up_until _ _ _ _ _ _ _ _ _ _ _ _ _ _ _ _ _ Hup).
  - destruct (uploaded_restores _ _ _ _ _ _ _ _ _ _ _ _ _ _ _ _ _ keyring Hup Hp) as (out & Hv & Hread).
    destruct (holds_kept _ _ _ _ _ Hk (up_archive _ _ _ _ _ _ _ _ _ _ _ _ _ _ _ _ _ Hup)) as (o1 & Ho1 & Hb1 & Hi1).
    destruct (holds_kept _ _ _ _ _ Hk (up_sidecar _ _ _ _ _ _ _ _ _ _ _ _ _ _ _ _ _ Hup)) as (o2 & Ho2 & Hb2 & Hi2).
    destruct (up_modes _ _ _ _ _ _ _ _ _ _ _ _ _ _ _ _ _ Hup) as [Hm1 Hm2].
    eexists archive, _, sidecar, o1, o2. split_and!; [apply Hup|apply Hup|done|done|by rewrite Hr, Hi1|by rewrite Hr, Hi2|by rewrite Hi1 in Hm1|by rewrite Hi2 in Hm2|].
    destruct Hb1 as [->|?]; [|by left]. destruct Hb2 as [->|?]; [|by right; left]. right; right. by exists out.
  - intros now2 uploaded_at2 prove2 h2 receipt2 path2 boundary2 h2' Hk2 Hlock2 Hup2.
    apply upload_sound in Hup2 as (bucket2 & key2 & mode2 & n2 & archive2 & sidecar2 & i2 & s2 & until2 & c2 & Eb & Ekey & El & Hup2 & _ & _).
    rewrite Hlock2, Hlock in El. injection El as <- <-. rewrite Hb in Eb. injection Eb as <-. rewrite Hkey in Ekey. injection Ekey as <-.
    eapply uploaded_again; [exact Hup|exact Hup2|]. intros k o Ho. eapply up_kept; [exact Hup2|]. by apply Hk2, Hk.
Qed.
End Restores.

(** * Off-host backups at work: a bucket, an archive format and a backup for the theorems of OffhostBackupFacts.v *)

From S2P Require Import AuditExportSigned.

(** ** A bucket that stores and never lets go *)

Definition Bucket : Type := dict string S3Object.
Definition arrival : datetime := seconds 1767312000.
Definition kept_until : datetime := arrival + days 30.

Definition response_of (o : S3Object) : S3Response :=
  mkResponse (Z.of_nat (String.length (ob_body o))) (Some (b64_digest (ob_body o))) (ob_encryption o) (Some (ob_until o)) (ob_mode o) (ob_version o).

#[export] Instance bucket_client : S3Client Bucket := {|
  s3_put_object q c :=
    if bool_decide (pr_if_none_match q = Some "*") && dmem (pr_key q) c then (Err "PreconditionFailed", c)
    else
      let o := mkS3Object (pr_body q) ("version-of-" +:+ pr_key q) (pr_encryption q) "GOVERNANCE" kept_until in
      (Ok (response_of o), dset (pr_key q) o c);
  s3_head_object key c := match dget key c with Some o => Ok (response_of o) | None => Err "404" end;
  s3_get_object key c := match dget key c with Some o => Ok (ob_body o) | None => Err "NoSuchKey" end;
  s3_list_objects prefix _ c := Ok (mkPage (List.filter (λ key, starts_with prefix key) (dkeys c)) false None);
  s3_delete_object _ _ _ c := (Err "AccessDenied", c);
  s3_object_lock _ := Ok (Some "GOVERNANCE", Some 30) |}.

#[export, refine] Instance bucket_laws : S3Laws Bucket := {| s3_object c key := dget key c |}.
Proof.
  - intros key c r. cbn. destruct (dget key c) as [o|]; [|done]. intros [= <-]. exists o. by repeat split.
  - intros key c body. cbn. destruct (dget key c) as [o|]; [|done]. intros [= <-]. by exists o.
  - intros q c key o Hq Ho. cbn. destruct (_ && _) eqn:Eq; [done|]. cbn. rewrite dget_dset_ne; [done|].
    destruct Hq as [Hq|Hq]; [|congruence]. rewrite (bool_decide_true _ Hq) in Eq. cbn in Eq. unfold dmem in Eq. intros E. subst key. by rewrite Ho in Eq.
  - intros key version bypass c code c'. cbn. by intros [= _ <-].
  - intros q c r c'. cbn. destruct (_ && _) eqn:Eq; [done|]. intros [= _ <-]. split.
    { intros Hq. rewrite (bool_decide_true _ Hq) in Eq. cbn in Eq. unfold dmem in Eq. by destruct (dget _ c). }
    rewrite dget_dset_eq. eexists. split; [reflexivity|done].
Defined.

(** ** Archives written as JSON *)

Definition member_json (m : TarMember) : json :=
  JList [JStr (tm_name m); JBool (tm_regular m); JInt (tm_mtime m); JInt (tm_mode m); match tm_data m with Some data => JStr data | None => JNull end].
Definition member_of (j : json) : option TarMember :=
  match j with
  | JList [JStr name; JBool regular; JInt mtime; JInt mode; JStr data] => Some (mkMember name regular mtime mode (Some data))
  | JList [JStr name; JBool regular; JInt mtime; JInt mode; JNull] => Some (mkMember name regular mtime mode None)
  | _ => None
  end.

#[export] Instance json_tar : TarFile := {|
  tar_write ms := print (EA := true) (JList (map member_json ms));
  tar_read bytes := match loads bytes with Some (JList l) => mapM member_of l | _ => None end |}.

#[export] Instance json_tar_laws : TarLaws.
Proof.
  split.
  - intros ms _ _ _. cbn [tar_read tar_write json_tar]. rewrite loads_print.
    + induction ms as [|[name regular mtime mode [data|]] ms IH]; [done| |]; cbn in *; by rewrite IH.
    + cbn. induction ms as [|[name regular mtime mode [data|]] ms IH]; cbn in *; by repeat split.
  - by intros ms.
Qed.

(** ** A backup *)

Definition dump_one : string := "PGDMP one".
Definition dump_two : string := "PGDMP two".
Definition sample_sums : string :=
  sha256_hex dump_one +:+ "  temporal.dump" +:+ newline +:+ sha256_hex dump_two +:+ "  temporal_visibility.dump" +:+ newline.
Definition sample_backup : Dir :=
  [("SHA256SUMS", DFile sample_sums); ("temporal.dump", DFile dump_one); ("temporal_visibility.dump", DFile dump_two)].
Definition sample_settings : OffhostSettings := mkOffhost (Some "bucket") (Some "key-1") 30 "GOVERNANCE".
Definition sample_keyring : Keyring := [("key-1", mkTrusted "key-1" "der" 0 kept_until None)].
Definition any_signer (_ : string) : Signer := toy_signer.

Definition sample_upload : result backup_exn (BackupReceipt * string * dict string json) * Host Bucket :=
  upload sample_settings any_signer "temporal-20260101T020304Z" sample_backup arrival arrival true (mkHost [] []).
Definition sample_receipt : BackupReceipt := match sample_upload.1 with Ok (r, _, _) => r | Err _ => mkBackupReceipt 0 "" "" "" "" "" "" "" 0 "" "" "" "" "" "" end.
Definition sample_boundary : dict string json :=
  [("tested", JBool true); ("overwrite", JStr "PreconditionFailed"); ("delete", JStr "AccessDenied"); ("governance_bypass", JStr "AccessDenied")].

Lemma sample_upload_ok : sample_upload = (Ok (sample_receipt, "temporal-20260101T020304Z.json", sample_boundary), sample_upload.2).
Proof. vm_compute. reflexivity. Qed.

Lemma sample_pinned : pinned toy_load toy_verify sample_keyring toy_signer (kept_until - days 30).
Proof.
  split; [vm_compute; split; congruence|]. eexists _, _. split; [reflexivity|]. split; [reflexivity|]. split; [vm_compute; split; congruence|].
  split; [done|]. intros m sig [= <-]. split; [apply sha256_hex_length|by apply bool_decide_eq_true].
Qed.

Lemma offhost_restores_witness :
  load_receipt (dget "temporal-20260101T020304Z.json" (ho_receipts sample_upload.2)) = Ok sample_receipt ∧ arrival + days 29 ≤ kept_until.
Proof.
  destruct (offhost_restores toy_load toy_verify sample_settings any_signer "temporal-20260101T020304Z" sample_backup arrival arrival true (mkHost [] [])
    sample_receipt "temporal-20260101T020304Z.json" sample_boundary sample_upload.2 "GOVERNANCE" 30 sample_keyring kept_until) as (Hl & Hu & _).
  - exact sample_upload_ok.
  - reflexivity.
  - vm_compute. reflexivity.
  - exact sample_pinned.
  - vm_compute. split; congruence.
  - split; [exact Hl|exact Hu].
Defined.

(** What the bucket now holds restores; one changed byte of the archive does not, and leaves nothing behind. *)
Definition stored (key : string) : option string := ob_body <$> dget key (ho_bucket sample_upload.2).
Example sample_restored :
  let archive := stored (br_object_key sample_receipt) in let signature := stored (br_signature_object_key sample_receipt) in
  let run bytes := verify_and_extract toy_load toy_verify bytes signature sample_receipt sample_keyring healthy (mkPlace None 1) in
  (read_entry (default [] (pl_dir (run archive).2)) "temporal.dump", is_ok (run ((λ b, "x" +:+ b) <$> archive)).1, (run ((λ b, "x" +:+ b) <$> archive)).2)
  = (Some dump_one, false, mkPlace None 1).
Proof. vm_compute. reflexivity. Qed.

(** When the clean-up fails too, what was extracted stays. *)
Example failed_clean_up :
  let fs := mkFs None (λ _, true) (λ name, if bool_decide (name = "temporal.dump") then Some "" else None) (λ _, false) true (λ _, 0%nat) in
  let run := verify_and_extract toy_load toy_verify (stored (br_object_key sample_receipt)) (stored (br_signature_object_key sample_receipt))
    sample_receipt sample_keyring fs (mkPlace None 1) in
  (is_ok run.1, dkeys (default [] (pl_dir run.2)), pl_missing run.2) = (false, ["BACKUP.json"; "SHA256SUMS"; "temporal.dump"], 0%nat).
Proof. vm_compute. reflexivity. Qed.
