(* ===== verification/WebAuthn.v ===== *)
(** WebAuthn ceremonies over the authority repository: src/olympus/webauthn/service.py, the checks of backend.py, and the
    recovery payload of authority/models.py.

    The WebAuthn library is a parameter: what verifying a response gives, or that it raises. Fresh identifiers and
    challenge bytes are arguments. Each method runs over the repository's state; a call of the repository is one step
    of it, as in AuthorityRepository.v. *)

From S2P Require Import Prelude PyDict PyTime Sha256 Json JsonParse PyParse NodeScopes AuthorityRepository EmergencyLatch.
From Stdlib Require Import Ascii.

Open Scope Z_scope.

Inductive wa_exn :=
  | BootstrapDenied (msg : string)
  | AuthenticationAnomaly (msg : string)
  | WaValueError (msg : string)
  | WaBackendError
  | WaPayloadError
  | WaRepo (e : repo_exn)
  | WaLatch (e : latch_exn).

Inductive CeremonyPurpose := BOOTSTRAP_REGISTRATION | LEASE | RECOVERY.
Definition purpose_value (p : CeremonyPurpose) : string :=
  match p with BOOTSTRAP_REGISTRATION => "bootstrap-registration" | LEASE => "lease" | RECOVERY => "recovery" end.

#[export] Instance CeremonyPurpose_eq : EqDecision CeremonyPurpose.
Proof. solve_decision. Defined.

(** ** Recovery payloads *)

Record RecoveryPayload := mkPayload {
  py_request_id : string;
  py_action : string;
  py_freeze_epoch : Z;
  py_commander_id : string;
  py_guild_id : string;
  py_channel_scope_digest : string;
  py_issued_at : string;
  py_expires_at : string }.

(** Whether [int(s, 16)] accepts [s]: blanks around, a sign, a 0x prefix, single underscores between digits. *)
Fixpoint hex_run (after_digit : bool) (s : string) : bool :=
  match s with
  | EmptyString => after_digit
  | String c s' =>
      match hex_value c with
      | Some _ => hex_run true s'
      | None => (ord c =? 95)%nat && after_digit && hex_run false s'
      end
  end.
Definition after_0x (s : string) : bool :=
  match s with
  | String z (String x s') =>
      if (ord z =? 48)%nat && ((ord x =? 120)%nat || (ord x =? 88)%nat)
      then match s' with
           | String u s'' => if (ord u =? 95)%nat then hex_run false s'' else hex_run false s'
           | EmptyString => false
           end
      else hex_run false s
  | _ => hex_run false s
  end.
Definition is_int16 (s : string) : bool :=
  match strip s with
  | String c s' => if (ord c =? 45)%nat || (ord c =? 43)%nat then after_0x s' else after_0x (String c s')
  | EmptyString => false
  end.

(** [_canonical_datetime]: a timestamp that is its own ISO form *)
Definition canonical_datetime (value : string) : option datetime :=
  t ← fromisoformat value; if bool_decide (isoformat t = value) then Some t else None.

(** [RecoveryPayload.__post_init__] *)
Definition make_payload (p : RecoveryPayload) : result wa_exn RecoveryPayload :=
  ensure (bool_decide (py_action p = "unfreeze")) (WaValueError "recovery action must be literal unfreeze");;
  ensure (1 <=? py_freeze_epoch p) (WaValueError "freeze_epoch must be strictly positive");;
  ensure (String.length (py_channel_scope_digest p) =? 64)%nat (WaValueError "channel_scope_digest must be a SHA-256 hex digest");;
  ensure (is_int16 (py_channel_scope_digest p)) (WaValueError "channel_scope_digest must be a SHA-256 hex digest");;
  issued ← require_some (canonical_datetime (py_issued_at p)) (WaValueError "issued_at must be a canonical ISO-8601 timestamp");
  expires ← require_some (canonical_datetime (py_expires_at p)) (WaValueError "expires_at must be a canonical ISO-8601 timestamp");
  ensure (issued <? expires) (WaValueError "recovery payload must expire after issuance");;
  ensure (expires - issued <=? minutes 5) (WaValueError "recovery payload lifetime cannot exceed five minutes");;
  Ok p.

Definition payload_json (p : RecoveryPayload) : json :=
  JObj [("request_id", JStr (py_request_id p)); ("action", JStr (py_action p)); ("freeze_epoch", JInt (py_freeze_epoch p));
        ("commander_id", JStr (py_commander_id p)); ("guild_id", JStr (py_guild_id p));
        ("channel_scope_digest", JStr (py_channel_scope_digest p)); ("issued_at", JStr (py_issued_at p));
        ("expires_at", JStr (py_expires_at p))].

(** [RecoveryPayload.canonical_bytes]; the text is ASCII, so [.encode()] and [.decode()] leave it as it is *)
Definition payload_bytes (p : RecoveryPayload) : string := dumps (payload_json p).

(** ** The backend *)

Record RegistrationRequest := mkRegistrationRequest {
  rg_rp_id : string; rg_rp_name : string; rg_commander_id : string; rg_challenge : string; rg_exclude_credentials : list string }.
Record AuthenticationRequest := mkAuthenticationRequest {
  aq_rp_id : string; aq_challenge : string; aq_allow_credentials : list string }.
Record VerifiedRegistration := mkVerifiedRegistration { vg_credential_id : string; vg_public_key : string; vg_sign_count : Z }.
Record VerifiedAuthentication := mkVerifiedAuthentication { va_credential_id : string; va_new_sign_count : Z }.

(** What the library's verifiers return, with the flag the backend checks. *)
Record LibRegistration := mkLibRegistration {
  lg_credential_id : string; lg_public_key : string; lg_sign_count : Z; lg_user_verified : bool }.
Record LibAuthentication := mkLibAuthentication {
  la_credential_id : string; la_new_sign_count : Z; la_user_verified : bool }.

(** [verify_registration_response] and [verify_authentication_response]: response, challenge, relying party, origin, and
    for an assertion the stored public key and counter; [None] when the library raises. *)
Class WebAuthnLib := {
  lib_verify_registration : json → string → string → string → option LibRegistration;
  lib_verify_authentication : json → string → string → string → string → Z → option LibAuthentication }.

(** [PyWebAuthnBackend.verify_registration] *)
Definition verify_registration `{WebAuthnLib} (response : json) (challenge rp_id origin : string) : result wa_exn VerifiedRegistration :=
  v ← require_some (lib_verify_registration response challenge rp_id origin) WaBackendError;
  ensure (lg_user_verified v) (WaValueError "WebAuthn registration did not verify the user");;
  Ok (mkVerifiedRegistration (lg_credential_id v) (lg_public_key v) (lg_sign_count v)).

(** [PyWebAuthnBackend.verify_authentication] *)
Definition verify_authentication `{WebAuthnLib} (response : json) (challenge rp_id origin : string) (c : Credential) :
    result wa_exn VerifiedAuthentication :=
  v ← require_some (lib_verify_authentication response challenge rp_id origin (cr_public_key c) (cr_sign_count c)) WaBackendError;
  ensure (la_user_verified v) (WaValueError "WebAuthn authentication did not verify the user");;
  Ok (mkVerifiedAuthentication (la_credential_id v) (la_new_sign_count v)).

(** ** The service *)

Record Service := mkService {
  ws_commander_id : string;
  ws_guild_id : string;
  ws_channel_ids : list string;
  ws_rp_id : string;
  ws_rp_name : string;
  ws_origin : string;
  ws_challenge_ttl : Z;
  ws_lease_ttl : Z }.

(** [WebAuthnAuthorityService.__init__] *)
Definition make_service (s : Service) : result wa_exn Service :=
  ensure (negb (bool_decide (ws_channel_ids s = []))) (WaValueError "channel_ids must not be empty");;
  ensure (negb ((ws_challenge_ttl s <=? 0) || (minutes 5 <? ws_challenge_ttl s))) (WaValueError "challenge_ttl must be at most five minutes");;
  ensure (negb ((ws_lease_ttl s <=? 0) || (hours 24 <? ws_lease_ttl s))) (WaValueError "lease_ttl must be at most 24 hours");;
  Ok s.

(** A ceremony carries the browser options; here the request they are generated from. *)
Record Ceremony (A : Type) := mkCeremony { cy_challenge_id : string; cy_options : A }.
#[global] Arguments mkCeremony {A}.
#[global] Arguments cy_challenge_id {A}.
#[global] Arguments cy_options {A}.
Record RecoveryCeremony := mkRecoveryCeremony { rv_ceremony : Ceremony AuthenticationRequest; rv_payload : RecoveryPayload }.
Record RecoveryResult := mkRecoveryResult { rx_lease : AuthorityLease; rx_proof : CanonicalRecoveryProof }.

Notation WA := (St Repo wa_exn).

(** A repository call, and a check that can raise. *)
Definition on_repo {A} (m : RM A) : WA A := λ r,
  match m r with (Ok a, r') => (Ok a, r') | (Err e, r') => (Err (WaRepo e), r') end.
Definition lift_repo {A} (x : result repo_exn A) : WA A := λ r, (match x with Ok a => Ok a | Err e => Err (WaRepo e) end, r).
Definition lift_latch {A} (x : result latch_exn A) : WA A := λ r, (match x with Ok a => Ok a | Err e => Err (WaLatch e) end, r).

(** [_channel_scope_digest] and [_ceremony_payload_digest]; a frozenset is a list without repetition *)
Definition channel_scope_digest (s : Service) : string := sha256 (dumps (JList (map JStr (sorted (ws_channel_ids s))))).
Definition ceremony_payload_digest (s : Service) (purpose : CeremonyPurpose) : string :=
  sha256 (dumps (JObj [("commander_id", JStr (ws_commander_id s)); ("guild_id", JStr (ws_guild_id s));
                       ("purpose", JStr (purpose_value purpose)); ("rp_id", JStr (ws_rp_id s));
                       ("scope", JList (map JStr (sorted (ws_channel_ids s))))])).

(** [_store_challenge] *)
Definition store_challenge (s : Service) (purpose : CeremonyPurpose) (value uuid : string) (now : datetime) : WA Challenge :=
  challenge ← lift_repo (make_challenge (mkChallenge ("challenge-" +:+ uuid) value (sha256 value) (purpose_value purpose)
    (ws_commander_id s) (ceremony_payload_digest s purpose) None now (now + ws_challenge_ttl s) None));
  on_repo (create_challenge challenge);;
  mret challenge.

Definition begin_registration (s : Service) (purpose : CeremonyPurpose) (bootstrap_enabled : bool) (value uuid : string)
    (now : datetime) : WA (Ceremony RegistrationRequest) :=
  check (bool_decide (purpose = BOOTSTRAP_REGISTRATION)) (BootstrapDenied "unsupported registration purpose");;
  count ← on_repo credential_count;
  check (negb (negb bootstrap_enabled || negb (count =? 0))) (BootstrapDenied "bootstrap registration is unavailable");;
  existing ← on_repo list_credentials;
  challenge ← store_challenge s purpose value uuid now;
  mret (mkCeremony (ch_id challenge) (mkRegistrationRequest (ws_rp_id s) (ws_rp_name s) (ws_commander_id s) (ch_value challenge)
    (map cr_id existing))).

Definition begin_authentication (s : Service) (value uuid : string) (now : datetime) : WA (Ceremony AuthenticationRequest) :=
  credentials ← on_repo list_credentials;
  check (negb (bool_decide (map cr_id credentials = []))) (AuthenticationAnomaly "no active WebAuthn credential");;
  challenge ← store_challenge s LEASE value uuid now;
  mret (mkCeremony (ch_id challenge) (mkAuthenticationRequest (ws_rp_id s) (ch_value challenge) (map cr_id credentials))).

(** [begin_recovery] from the payload on *)
Definition open_recovery (s : Service) (payload : RecoveryPayload) (credential : Credential) (value uuid : string) (now : datetime) : WA RecoveryCeremony :=
  challenge ← lift_repo (make_challenge (mkChallenge ("challenge-" +:+ uuid) value (sha256 value) (purpose_value RECOVERY)
    (ws_commander_id s) (sha256 (payload_bytes payload)) (Some (payload_bytes payload)) now (now + ws_challenge_ttl s) None));
  on_repo (create_challenge challenge);;
  mret (mkRecoveryCeremony (mkCeremony (ch_id challenge) (mkAuthenticationRequest (ws_rp_id s) value [cr_id credential])) payload).

Definition begin_recovery (s : Service) (request_id credential_id value uuid : string) (now : datetime) : WA RecoveryCeremony :=
  state ← on_repo freeze_state;
  check (fs_frozen state) (AuthenticationAnomaly "recovery requires an active freeze");;
  credential ← on_repo (get_credential credential_id);
  payload ← liftR (make_payload (mkPayload request_id "unfreeze" (fs_freeze_epoch state) (ws_commander_id s) (ws_guild_id s)
    (hex (channel_scope_digest s)) (isoformat now) (isoformat (now + ws_challenge_ttl s))));
  open_recovery s payload credential value uuid now.

(** The payload a recovery challenge carries, read back field by field. The challenge was stored by [begin_recovery], whose
    fields are scalars; the [str] of a list or an object is outside the model and raises. *)
Definition payload_field (o : dict string json) (k : string) : result wa_exn string :=
  v ← require_some (dget k o) WaPayloadError;
  match v with JList _ | JObj _ => Err WaPayloadError | _ => Ok (py_str v) end.
Definition payload_of_json (j : json) : result wa_exn RecoveryPayload :=
  match j with
  | JObj o =>
      request_id ← payload_field o "request_id";
      epoch ← require_some (v ← dget "freeze_epoch" o; py_int v) WaPayloadError;
      commander_id ← payload_field o "commander_id"; guild_id ← payload_field o "guild_id";
      scope ← payload_field o "channel_scope_digest"; issued_at ← payload_field o "issued_at"; expires_at ← payload_field o "expires_at";
      make_payload (mkPayload request_id "unfreeze" epoch commander_id guild_id scope issued_at expires_at)
  | _ => Err (AuthenticationAnomaly "recovery payload is invalid")
  end.

Definition lease_request (s : Service) (c : Credential) (uuid : string) (now : datetime) : result repo_exn LeaseRequest :=
  make_lease_request (mkLeaseRequest ("lease-" +:+ uuid) (ws_commander_id s) (ws_guild_id s) (channel_scope_digest s) (cr_id c)
    now (now + ws_lease_ttl s)).

(** The emergency freeze of an anomaly, and the exception that follows *)
Definition anomaly {A} (uuid reason msg : string) (now : datetime) : WA A :=
  on_repo (freeze ("anomaly-" +:+ uuid) reason now);; raise (AuthenticationAnomaly msg).

Section Finish.
Context `{WebAuthnLib}.

(** Each [finish] method awaits its reads and then one call that commits; other tasks run in between. The part from the last
    read on is a definition of its own. *)
Definition commit_registration (s : Service) (challenge : Challenge) (response : json) (now : datetime) : WA Credential :=
  verified ← liftR (verify_registration response (ch_value challenge) (ws_rp_id s) (ws_origin s));
  credential ← lift_repo (make_credential (mkCredential (vg_credential_id verified) (ws_commander_id s) (vg_public_key verified)
    (vg_sign_count verified) now None));
  on_repo (complete_registration (ch_id challenge) (ch_digest challenge) credential now).

Definition finish_registration (s : Service) (challenge_id : string) (response : json) (now : datetime) : WA Credential :=
  challenge ← on_repo (get_challenge challenge_id);
  check (bool_decide (ch_purpose challenge = purpose_value BOOTSTRAP_REGISTRATION)) (BootstrapDenied "challenge purpose does not permit registration");;
  commit_registration s challenge response now.

Definition commit_authentication (s : Service) (challenge : Challenge) (credential : Credential) (response : json) (uuid : string) (now : datetime) :
    WA AuthorityLease :=
  verified ← liftR (verify_authentication response (ch_value challenge) (ws_rp_id s) (ws_origin s) credential);
  if negb (bool_decide (va_credential_id verified = cr_id credential))
  then anomaly uuid "credential-identity-mismatch" "credential identity mismatch" now
  else if va_new_sign_count verified <? cr_sign_count credential
  then anomaly uuid "credential-counter-regression" "credential counter regressed" now
  else
    request ← lift_repo (lease_request s credential uuid now);
    on_repo (complete_authentication (ch_id challenge) (ch_digest challenge) (cr_id credential) (va_new_sign_count verified) request now).

Definition finish_authentication (s : Service) (challenge_id credential_id : string) (response : json) (uuid : string) (now : datetime) :
    WA AuthorityLease :=
  challenge ← on_repo (get_challenge challenge_id);
  check (bool_decide (ch_purpose challenge = purpose_value LEASE)) (AuthenticationAnomaly "challenge purpose does not permit a lease");;
  credential ← on_repo (get_credential credential_id);
  commit_authentication s challenge credential response uuid now.

(** The checks of [finish_recovery] on the challenge it read, and the payload they give *)
Definition challenge_payload (challenge : Challenge) : result wa_exn RecoveryPayload :=
  ensure (bool_decide (ch_purpose challenge = purpose_value RECOVERY) && negb (bool_decide (ch_payload_json challenge = None)))
    (AuthenticationAnomaly "challenge purpose does not permit recovery");;
  document ← require_some (t ← ch_payload_json challenge; loads t) WaPayloadError;
  payload ← payload_of_json document;
  ensure (bool_decide (sha256 (payload_bytes payload) = ch_payload_digest challenge)) (AuthenticationAnomaly "recovery payload digest does not match");;
  Ok payload.

Definition commit_recovery (s : Service) (challenge : Challenge) (payload : RecoveryPayload) (credential : Credential) (response : json) (uuid : string)
    (now : datetime) : WA RecoveryResult :=
  verified ← liftR (verify_authentication response (ch_value challenge) (ws_rp_id s) (ws_origin s) credential);
  if negb (bool_decide (va_credential_id verified = cr_id credential)) || (va_new_sign_count verified <? cr_sign_count credential)
  then anomaly uuid "recovery-authentication-anomaly" "recovery authentication anomaly" now
  else
    request ← lift_repo (lease_request s credential uuid now);
    receipt ← on_repo (complete_recovery (ch_id challenge) (ch_digest challenge) (py_freeze_epoch payload) (cr_id credential)
      (va_new_sign_count verified) request (py_request_id payload) now);
    proof ← lift_latch (make_recovery_proof (mkRecoveryProof (py_request_id payload) (l_epoch (rr_lease receipt)) (rr_freeze_epoch receipt) (rr_proof receipt)));
    mret (mkRecoveryResult (rr_lease receipt) proof).

Definition finish_recovery (s : Service) (challenge_id credential_id : string) (response : json) (uuid : string) (now : datetime) :
    WA RecoveryResult :=
  challenge ← on_repo (get_challenge challenge_id);
  payload ← liftR (challenge_payload challenge);
  credential ← on_repo (get_credential credential_id);
  commit_recovery s challenge payload credential response uuid now.
End Finish.
