(* ===== verification/WebAuthnFacts.v ===== *)
(** What a WebAuthn ceremony establishes: every live lease was issued to a verified assertion over a challenge of its own,
    and an honest recovery completes. *)

From S2P Require Import Prelude PyDict PyTime Sha256 Json JsonParse PyParse NodeScopes AuthorityRepository AuthorityFacts EmergencyLatch WebAuthn.
From Stdlib Require Import Ascii.

Open Scope Z_scope.

(** ** Outcomes *)

(** Every challenge was there before, possibly not yet consumed. *)
Definition challenges_content (r r' : Repo) : Prop := ∀ i c', dget i (r_challenges r') = Some c' →
  ∃ c, dget i (r_challenges r) = Some c ∧ (c' = c ∨ ∃ t, c' = consume c t).

Lemma content_same r r' : r_challenges r' = r_challenges r → challenges_content r r'.
Proof. intros E i c' Hc. rewrite E in Hc. eauto. Qed.

Lemma content_trans r1 r2 r3 : challenges_content r1 r2 → challenges_content r2 r3 → challenges_content r1 r3.
Proof.
  intros H1 H2 i c3 Hc. destruct (H2 i c3 Hc) as (c2 & Hc2 & Ho). destruct (H1 i c2 Hc2) as (c1 & Hc1 & Ho1). exists c1. split; [done|].
  destruct Ho as [->|[t ->]]; [done|]. right. exists t. by destruct Ho1 as [->|[t' ->]].
Qed.

Lemma content_consume i c now r r' : dget i (r_challenges r) = Some c → r_challenges r' = dset i (consume c now) (r_challenges r) → challenges_content r r'.
Proof. intros Hc E j c'. rewrite E, dget_dset. case_decide; [intros [= <-]; subst; eauto|eauto]. Qed.

(** A change that grants nothing: no lease becomes live, challenges keep their content, what was consumed stays so. *)
Record quiet (r r' : Repo) : Prop := {
  qu_inv : repo_inv r';
  qu_live : ∀ i l, dget i (r_leases r') = Some l → l_revoked_at l = None → dget i (r_leases r) = Some l;
  qu_consumed : challenges_kept r r';
  qu_content : challenges_content r r' }.

(** [granted Ψ Φ r p]: a call that returned satisfies [Φ], one that raised was quiet, or did [Ψ] all the same. *)
Definition granted {A} (Ψ : Repo → Prop) (Φ : A → Repo → Prop) (r : Repo) (p : result wa_exn A * Repo) : Prop :=
  match p with (Ok a, r') => Φ a r' | (Err _, r') => quiet r r' ∨ Ψ r' end.

Lemma granting_refl r : repo_inv r → quiet r r.
Proof. intros. split; [done|auto|by intros ?|by apply content_same]. Qed.

Lemma granting_trans r1 r2 r3 : quiet r1 r2 → quiet r2 r3 → quiet r1 r3.
Proof.
  intros [_ L1 C1 D1] [I2 L2 C2 D2]. split; [done|eauto| |by eapply content_trans]. intros i c t Hc Ht. eapply C2; [|exact Ht]. by eapply C1.
Qed.

Lemma quiet_frame r r' : repo_inv r → same_authority r r' → challenges_kept r r' → challenges_content r r' → quiet r r'.
Proof.
  intros Hr Hs Hc Hd. split; [by eapply same_authority_inv| |done|done]. destruct Hs as (_ & _ & _ & -> & _). auto.
Qed.

Lemma granted_pure {A B} Ψ (Φ : B → Repo → Prop) r (x : result wa_exn A) (k : A → WA B) :
  repo_inv r → (∀ a, x = Ok a → granted Ψ Φ r (k a r)) → granted Ψ Φ r ((liftR x ≫= k) r).
Proof. intros Hr Hk. unfold granted, liftR, mbind, st_bind. destruct x; [by apply Hk|by left; apply granting_refl]. Qed.

Lemma granted_lift_repo {A B} Ψ (Φ : B → Repo → Prop) r (x : result repo_exn A) (k : A → WA B) :
  repo_inv r → (∀ a, x = Ok a → granted Ψ Φ r (k a r)) → granted Ψ Φ r ((lift_repo x ≫= k) r).
Proof. intros Hr Hk. unfold granted, lift_repo, mbind, st_bind. destruct x; [by apply Hk|by left; apply granting_refl]. Qed.

(** ** Repository calls *)

Lemma consume_quiet i d now r : repo_inv r → quiet r (final (consume_challenge i d now r)).
Proof.
  intros Hr. destruct (consume_challenge_frame i d now r) as [Hs Hk]. apply quiet_frame; [done..|]. pose proof (consume_challenge_cases i d now r) as H.
  unfold final. destruct (consume_challenge i d now r) as [[c'|] r']; cbn; [|subst; by apply content_same].
  destruct H as (c & Hc & _ & _ & _ & _ & ->). by eapply content_consume.
Qed.

Lemma use_credential_quiet i n r : repo_inv r → quiet r (final (use_credential i n r)).
Proof.
  intros Hr. destruct (use_credential_frame i n r) as [? E]. apply quiet_frame; [done|done| |by apply content_same]. intros j c t. by rewrite E.
Qed.

Lemma freeze_quiet i reason now r : repo_inv r → quiet r (final (freeze i reason now r)).
Proof.
  intros Hr. pose proof (freeze_good i reason now r Hr) as [Hi He]. destruct (repo_freeze_run i reason now r Hr) as (_ & _ & [[_ E]|(d' & Hf & _ & E)]); rewrite E in *.
  - by apply granting_refl.
  - split; [done| |apply He|by apply content_same]. cbn. intros j l Hj Hn. by apply (lf_revoked _ _ Hf) in Hj.
Qed.

(** A lease granted under challenge [i]: the challenge is spent, and the lease is the only live one. *)
Record grants (r : Repo) (i : string) (now : datetime) (lease : AuthorityLease) (r' : Repo) : Prop := {
  gr_inv : repo_inv r';
  gr_challenge : ∃ c, dget i (r_challenges r) = Some c ∧ ch_consumed_at c = None ∧ now ≤ ch_expires_at c ∧
    r_challenges r' = dset i (consume c now) (r_challenges r);
  gr_only : ∀ j l, dget j (r_leases r') = Some l → l_revoked_at l = None → l = lease;
  gr_active : r_active r' = Some (l_id lease) ∧ dget (l_id lease) (r_leases r') = Some lease ∧ l_revoked_at lease = None;
  gr_new : dget (l_id lease) (r_leases r) = None;
  gr_thawed : r_frozen r' = false }.

(** Consuming the challenge, using the credential, thawing or not, then issuing. *)
Lemma issue_grants q r r0 i now c : repo_inv r →
  dget i (r_challenges r0) = Some c → ch_consumed_at c = None → now ≤ ch_expires_at c → r_challenges r = dset i (consume c now) (r_challenges r0) →
  r_leases r = r_leases r0 →
  match issue_lease q r with
  | (Ok l, r') => l = new_lease q (r_authority_epoch r + 1) ∧ r_frozen r = false ∧ grants r0 i now l r'
  | (Err _, r') => r' = r
  end.
Proof.
  intros Hr Hc Hn Hx Hch Hle. pose proof (issue_lease_cases q r (ri_lease r Hr)) as H. pose proof (proj1 (issue_lease_step q r Hr)) as Hinv.
  unfold final in Hinv. destruct (issue_lease q r) as [[l|] r']; [|done]. destruct H as (Hf & Hnone & -> & d' & Hfen & Hwf & ->).
  split; [done|]. split; [done|]. split.
  - exact Hinv.
  - exists c. by split_and!.
  - intros j l. cbn. rewrite dget_dset. case_decide; [by intros [= <-]|]. intros Hj Hl. by apply (lf_revoked _ _ Hfen) in Hj.
  - cbn. by rewrite dget_dset_eq.
  - cbn. by rewrite <- Hle.
  - done.
Qed.

(** What the repository establishes when it issues a lease for a credential. *)
Definition credential_used (r : Repo) (cid : string) (n : Z) (r' : Repo) : Prop :=
  ∃ cr, dget cid (r_credentials r) = Some cr ∧ cr_revoked_at cr = None ∧ cr_sign_count cr ≤ n ∧
    r_credentials r' = dset cid (mkCredential (cr_id cr) (cr_commander cr) (cr_public_key cr) n (cr_created_at cr) (cr_revoked_at cr)) (r_credentials r).

Lemma use_credential_run cid n r :
  match use_credential cid n r with
  | (Ok _, r') => credential_used r cid n r' ∧ r_challenges r' = r_challenges r ∧ same_authority r r'
  | (Err _, r') => r' = r
  end.
Proof.
  unfold use_credential, get_credential. py_unfold. destruct (dget cid (r_credentials r)) as [c|] eqn:E; cbn; [|done].
  unfold live. case_bool_decide; cbn; [|done]. destruct (cr_sign_count c <=? n) eqn:Es; cbn; [|done]. bool_to_prop. split_and!; try done. by exists c.
Qed.

Lemma authentication_grants i d cid n q now r : repo_inv r →
  match complete_authentication i d cid n q now r with
  | (Ok l, r') => l = new_lease q (r_authority_epoch r + 1) ∧ r_frozen r = false ∧ credential_used r cid n r' ∧ grants r i now l r'
  | (Err _, r') => quiet r r'
  end.
Proof.
  intros Hr. unfold complete_authentication, mbind, st_bind. pose proof (consume_challenge_cases i d now r) as Hc. pose proof (consume_quiet i d now r Hr) as Hq.
  unfold final in Hq. destruct (consume_challenge i d now r) as [[c'|] r1]; [|done]. destruct Hc as (c & Hc & _ & Hn & Hx & _ & Er1).
  pose proof (use_credential_run cid n r1) as Hu. pose proof (use_credential_quiet cid n r1 (qu_inv _ _ Hq)) as Hq2. unfold final in Hq2.
  destruct (use_credential cid n r1) as [[[]|] r2]; [|by subst r2]. destruct Hu as (Hu & Hch & Hsame).
  assert (Hq02 := granting_trans _ _ _ Hq Hq2). destruct Hsame as (He & _ & Hf & Hle & _). subst r1. cbn in *.
  pose proof (issue_grants q r2 r i now c (qu_inv _ _ Hq2) Hc Hn Hx Hch Hle) as Hi. pose proof (issue_lease_cases q r2 (ri_lease _ (qu_inv _ _ Hq2))) as Hcase.
  destruct (issue_lease q r2) as [[l|] r3]; [|by subst r3]. destruct Hi as (-> & Hnf & Hg). destruct Hcase as (_ & _ & _ & d' & _ & _ & ->).
  split_and!; [by rewrite He|by rewrite <- Hf| |done]. destruct Hu as (cr & H1 & H2 & H3 & H4). exists cr. by split_and!.
Qed.

Lemma recovery_grants i d f cid n q rid now r : repo_inv r →
  match complete_recovery i d f cid n q rid now r with
  | (Ok rec, r') => rr_lease rec = new_lease q (r_authority_epoch r + 1) ∧ r_frozen r = true ∧ r_freeze_epoch r = f ∧ rr_freeze_epoch rec = f ∧
      credential_used r cid n r' ∧ grants r i now (rr_lease rec) r'
  | (Err _, r') => quiet r r'
  end.
Proof.
  intros Hr. unfold complete_recovery. unfold mbind, st_bind, read, check, modify, mret, st_ret.
  pose proof (consume_challenge_cases i d now r) as Hc. pose proof (consume_quiet i d now r Hr) as Hq.
  unfold final in Hq. destruct (consume_challenge i d now r) as [[c'|] r1]; [|done]. destruct Hc as (c & Hc & _ & Hn & Hx & _ & Er1).
  destruct (bool_decide _); [|done]. cbn [ensure]. destruct (r_frozen r1 && (r_freeze_epoch r1 =? f)) eqn:Ef; [|done]. cbn [ensure].
  pose proof (use_credential_run cid n r1) as Hu. pose proof (use_credential_quiet cid n r1 (qu_inv _ _ Hq)) as Hq2. unfold final in Hq2.
  destruct (use_credential cid n r1) as [[[]|] r2]; [|by subst r2]. destruct Hu as (Hu & Hch & Hsame).
  assert (Hq02 := granting_trans _ _ _ Hq Hq2). destruct Hsame as (He & _ & _ & Hle & _). subst r1. cbn in *. bool_to_prop.
  set (r2' := set_epochs (r_authority_epoch r2) (r_freeze_epoch r2) false r2).
  assert (Hg2 : repo_inv r2') by (apply (repo_unfreeze_good r2 (qu_inv _ _ Hq2))).
  pose proof (issue_grants q r2' r i now c Hg2 Hc Hn Hx Hch Hle) as Hi. pose proof (issue_lease_cases q r2' (ri_lease _ Hg2)) as Hcase.
  destruct (issue_lease q r2') as [[l|] r3].
  - destruct Hi as (-> & Hnf & Hg). destruct Hcase as (_ & _ & _ & d' & _ & _ & ->). cbn in *. rewrite He in *.
    split_and!; try done. destruct Hg as [G1 G2 G3 G4 G5 G6]. split; try done. by apply repo_inv_append.
  - subst r3. destruct Hq02 as [Q1 Q2 Q3 Q4]. by split.
Qed.

(** ** What every call keeps *)

(** The repository calls of the service and of the gateway. *)
Inductive wa_call : Repo → Repo → Prop :=
  | call_none r : wa_call r r
  | call_create c r : wa_call r (final (create_challenge c r))
  | call_registration i d c now r : wa_call r (final (complete_registration i d c now r))
  | call_authentication i d cid n q now r : wa_call r (final (complete_authentication i d cid n q now r))
  | call_recovery i d f cid n q rid now r : wa_call r (final (complete_recovery i d f cid n q rid now r))
  | call_admit q r : wa_call r (final (admit_interaction q r))
  | call_freeze i reason now r : wa_call r (final (freeze i reason now r)).

(** The same challenge, perhaps spent; the same credential, perhaps used; the same lease, perhaps revoked. *)
Definition same_challenge (c c' : Challenge) : Prop := c' = c ∨ ∃ t, c' = consume c t.
Definition newer (k k' : Credential) : Prop := cr_id k' = cr_id k ∧ cr_public_key k' = cr_public_key k ∧ cr_sign_count k ≤ cr_sign_count k'.
Definition revised (l l' : AuthorityLease) : Prop := l' = l ∨ ∃ t reason, l' = lease_revoke l t reason.

Lemma same_challenge_trans c1 c2 c3 : same_challenge c1 c2 → same_challenge c2 c3 → same_challenge c1 c3.
Proof. intros [->|[t ->]] [->|[t' ->]]; unfold same_challenge; [by left|right..]; by eexists. Qed.
Lemma newer_refl k : newer k k.
Proof. split_and!; [done|done|lia]. Qed.
Lemma newer_trans k1 k2 k3 : newer k1 k2 → newer k2 k3 → newer k1 k3.
Proof. unfold newer. intros (? & ? & ?) (? & ? & ?). split_and!; [congruence|congruence|lia]. Qed.
Lemma revised_trans l1 l2 l3 : revised l1 l2 → revised l2 l3 → revised l1 l3.
Proof. intros [->|(t & w & ->)] [->|(t' & w' & ->)]; unfold revised; [by left|right..]; by eexists _, _. Qed.

(** Runs a call and splits on each of its decisions. *)
Ltac run_call :=
  unfold create_challenge, complete_registration, complete_authentication, complete_recovery, consume_challenge, admit_interaction,
    issue_lease, freeze, use_credential, get_credential, revoke_active, append_event, final;
  py_unfold; repeat (case_match; simplify_eq/=); unfold require_some, ensure, dmem in *; repeat (case_match; simplify_eq/=);
  rewrite ?dget_dset in *; repeat case_decide; simplify_eq/=.

Lemma call_challenges r r' : wa_call r r' → ∀ i c, dget i (r_challenges r) = Some c → ∃ c', dget i (r_challenges r') = Some c' ∧ same_challenge c c'.
Proof. unfold same_challenge. intros [] j c0 Hc; run_call; eauto. Qed.

Lemma call_credentials r r' : wa_call r r' → ∀ i k, dget i (r_credentials r) = Some k → ∃ k', dget i (r_credentials r') = Some k' ∧ newer k k'.
Proof. intros [] j c0 Hc; run_call; bool_to_prop; try (by eauto using newer_refl); eexists; (split; [done|]); by split_and!. Qed.

Definition keyed_credentials (r : Repo) : Prop := dall (λ i k, cr_id k = i) (r_credentials r).
Lemma call_keyed r r' : wa_call r r' → keyed_credentials r → keyed_credentials r'.
Proof. intros [] Hk j k0; run_call; intros Hj; simplify_eq/=; try done; by apply Hk. Qed.

Lemma call_leases r r' : repo_inv r → wa_call r r' → ∀ i l', dget i (r_leases r') = Some l' →
  (∃ l, dget i (r_leases r) = Some l ∧ revised l l') ∨ dget i (r_leases r) = None ∧ l_revoked_at l' = None.
Proof.
  intros Hr Hw j l0. assert (Hkey := li_key _ _ _ (ri_lease _ Hr)). clear Hr. destruct Hw; run_call; intros Hj; simplify_eq/=;
    try (left; eexists; split; [done|by left]); try by right.
  all: match goal with Ha : dget ?i (r_leases ?r) = Some ?a |- _ =>
    rewrite (Hkey i a Ha); left; exists a; split; [exact Ha|right; by eexists _, _] end.
Qed.

(** ** Assertions *)

Section Provenance.
Context `{WebAuthnLib} (s : Service).

(** A response presented to the service for a lease. *)
Record Presented := mkPresented { pr_challenge_id : string; pr_credential_id : string; pr_response : json; pr_at : datetime }.

(** One lease: the repository it was issued in, the response it was issued to, and the challenge and the credential that were
    read for it. *)
Record Issue := mkIssue {
  is_before : Repo;
  is_presented : Presented;
  is_challenge : Challenge;
  is_credential : Credential;
  is_lease : AuthorityLease }.

(** The challenge the response names was stored at that moment, opened by the service for a lease or a recovery, not consumed and
    not expired. *)
Definition open_challenge (e : Issue) : Prop :=
  let c := is_challenge e in
  dget (pr_challenge_id (is_presented e)) (r_challenges (is_before e)) = Some c ∧ ch_consumed_at c = None ∧
  ch_purpose c ∈ [purpose_value LEASE; purpose_value RECOVERY] ∧ pr_at (is_presented e) ≤ ch_expires_at c ∧
  ch_expires_at c = ch_issued_at c + ws_challenge_ttl s.

(** The response verified, with the user verified, against this challenge and the key and counter of the credential as it was
    read; at the moment of the issue the credential was stored under the name the response gave, live, with that key and
    with a counter between the one that was read and the one the response brought. *)
Definition verified_credential (e : Issue) : Prop :=
  let p := is_presented e in let k := is_credential e in
  ∃ v k', lib_verify_authentication (pr_response p) (ch_value (is_challenge e)) (ws_rp_id s) (ws_origin s) (cr_public_key k) (cr_sign_count k) = Some v ∧
    la_user_verified v = true ∧ la_credential_id v = pr_credential_id p ∧
    dget (pr_credential_id p) (r_credentials (is_before e)) = Some k' ∧ cr_revoked_at k' = None ∧ newer k k' ∧ cr_sign_count k' ≤ la_new_sign_count v.

(** The lease is the service's own, under the next epoch. *)
Definition own_lease (e : Issue) : Prop :=
  let p := is_presented e in
  ∃ uuid, is_lease e = mkLease ("lease-" +:+ uuid) (r_authority_epoch (is_before e) + 1) (ws_commander_id s) (ws_guild_id s) (channel_scope_digest s)
    (pr_credential_id p) (pr_at p) (pr_at p + ws_lease_ttl s) None None.

Definition asserted (e : Issue) : Prop := open_challenge e ∧ verified_credential e ∧ own_lease e.

(** What a commit establishes when it issues a lease. *)
Definition issued (p : Presented) (c : Challenge) (k : Credential) (r : Repo) (lease : AuthorityLease) (r' : Repo) : Prop :=
  asserted (mkIssue r p c k lease) ∧ grants r (pr_challenge_id p) (pr_at p) lease r'.

Lemma verify_authentication_Ok response ch rp origin c v : verify_authentication response ch rp origin c = Ok v →
  ∃ w, lib_verify_authentication response ch rp origin (cr_public_key c) (cr_sign_count c) = Some w ∧ la_user_verified w = true ∧
    v = mkVerifiedAuthentication (la_credential_id w) (la_new_sign_count w).
Proof.
  unfold verify_authentication. intros (w & Hw & (? & Hu%ensure_Ok & [= <-])%bind_Ok)%bind_Ok. exists w.
  unfold require_some in Hw. destruct (lib_verify_authentication _ _ _ _ _ _); [|done]. by injection Hw as ->.
Qed.

Lemma lease_request_Ok c uuid now q : lease_request s c uuid now = Ok q →
  q = mkLeaseRequest ("lease-" +:+ uuid) (ws_commander_id s) (ws_guild_id s) (channel_scope_digest s) (cr_id c) now (now + ws_lease_ttl s).
Proof.
  unfold lease_request, make_lease_request. set (q0 := mkLeaseRequest _ _ _ _ _ _ _). clearbody q0.
  intros (? & _ & (? & _ & (? & _ & Hq)%bind_Ok)%bind_Ok)%bind_Ok. congruence.
Qed.

Lemma anomaly_freezes {A} Ψ (Φ : A → Repo → Prop) uuid reason msg now r : repo_inv r → granted Ψ Φ r (anomaly (A := A) uuid reason msg now r).
Proof.
  intros Hr. pose proof (freeze_quiet ("anomaly-" +:+ uuid) reason now r Hr) as Hq. unfold anomaly, on_repo, raise, mbind, st_bind, granted, final in *.
  destruct (freeze _ reason now r) as [[|] r1]; by left.
Qed.

(** Challenges are kept under their identity, are the service's, and have distinct values. *)
Record challenge_inv (r : Repo) : Prop := {
  ci_key : dall (λ k c, ch_id c = k) (r_challenges r);
  ci_open : dall (λ _ c, ch_digest c = sha256 (ch_value c) ∧ ch_expires_at c = ch_issued_at c + ws_challenge_ttl s) (r_challenges r);
  ci_distinct : ∀ i j c c', dget i (r_challenges r) = Some c → dget j (r_challenges r) = Some c' → ch_value c = ch_value c' → i = j }.

(** What was read earlier still holds of the repository: the challenge is there, perhaps spent by now, and the credential, perhaps
    used by now. *)
Definition challenge_read (r : Repo) (x : string * Challenge) : Prop :=
  ch_id x.2 = x.1 ∧ ∃ c, dget x.1 (r_challenges r) = Some c ∧ same_challenge x.2 c.
Definition credential_read (r : Repo) (x : string * Credential) : Prop :=
  cr_id x.2 = x.1 ∧ ∃ k, dget x.1 (r_credentials r) = Some k ∧ newer x.2 k.

(** The lease of one verified assertion, whichever ceremony it ends. *)
Lemma assertion_issued p c k v n uuid r lease r' :
  challenge_inv r → challenge_read r (pr_challenge_id p, c) → ch_purpose c ∈ [purpose_value LEASE; purpose_value RECOVERY] →
  credential_read r (pr_credential_id p, k) →
  lib_verify_authentication (pr_response p) (ch_value c) (ws_rp_id s) (ws_origin s) (cr_public_key k) (cr_sign_count k) = Some v →
  la_user_verified v = true → la_credential_id v = cr_id k → n = la_new_sign_count v →
  lease = new_lease (mkLeaseRequest ("lease-" +:+ uuid) (ws_commander_id s) (ws_guild_id s) (channel_scope_digest s) (cr_id k) (pr_at p) (pr_at p + ws_lease_ttl s))
    (r_authority_epoch r + 1) →
  credential_used r (cr_id k) n r' → grants r (ch_id c) (pr_at p) lease r' → issued p c k r lease r'.
Proof.
  intros Hci [Hid (c0 & Hc0 & Hsame)] Hp [Hkid (k' & Hk' & Hnew)] Hv Hu Hcid -> -> (k2 & Hk2 & Hlive & Hcount & _) Hg. cbn [fst snd] in *.
  rewrite Hid in Hg. pose proof (gr_challenge _ _ _ _ _ Hg) as (c1 & Hc1 & Hn & Hx & _). assert (c1 = c0) as -> by congruence.
  assert (c0 = c) as -> by (destruct Hsame as [?|[t ->]]; [done|]; by cbn in Hn).
  rewrite Hkid in *. assert (k2 = k') as -> by congruence. split; [|done]. split_and!; cbn.
  - split_and!; try done. by apply (ci_open _ Hci (pr_challenge_id p) c).
  - exists v, k'. by split_and!.
  - by exists uuid.
Qed.

Lemma commit_authentication_granted p c k uuid r :
  repo_inv r → challenge_inv r → challenge_read r (pr_challenge_id p, c) → ch_purpose c = purpose_value LEASE → credential_read r (pr_credential_id p, k) →
  granted (λ _, False) (issued p c k r) r (commit_authentication s c k (pr_response p) uuid (pr_at p) r).
Proof.
  intros Hr Hci Hc Hp Hk. unfold commit_authentication. apply granted_pure; [done|]. intros v (w & Hw & Hu & ->)%verify_authentication_Ok.
  cbn [va_credential_id va_new_sign_count]. destruct (bool_decide (la_credential_id w = cr_id k)) eqn:Eid; cbn [negb]; [|by apply anomaly_freezes].
  destruct (la_new_sign_count w <? cr_sign_count k) eqn:En; [by apply anomaly_freezes|]. bool_to_prop.
  apply granted_lift_repo; [done|]. intros q Hq%lease_request_Ok. unfold granted, on_repo.
  pose proof (authentication_grants (ch_id c) (ch_digest c) (cr_id k) (la_new_sign_count w) q (pr_at p) r Hr) as H1.
  destruct (complete_authentication _ _ _ _ _ (pr_at p) r) as [[l|] r']; [|by left]. destruct H1 as (-> & _ & Hused & Hg). subst q.
  eapply (assertion_issued p c k w _ uuid); try done. rewrite Hp. set_solver.
Qed.

Lemma challenge_payload_Ok c payload : challenge_payload c = Ok payload → ch_purpose c = purpose_value RECOVERY.
Proof. unfold challenge_payload. intros (? & Hp%ensure_Ok & _)%bind_Ok. by bool_to_prop. Qed.

(** A recovery can raise after the repository granted it: the proof's constructor refuses a blank request identity. *)
Lemma commit_recovery_granted p c payload k uuid r :
  repo_inv r → challenge_inv r → challenge_read r (pr_challenge_id p, c) → challenge_payload c = Ok payload → credential_read r (pr_credential_id p, k) →
  granted (λ r', ∃ lease, issued p c k r lease r') (λ x, issued p c k r (rx_lease x)) r
    (commit_recovery s c payload k (pr_response p) uuid (pr_at p) r).
Proof.
  intros Hr Hci Hc Hp%challenge_payload_Ok Hk. unfold commit_recovery. apply granted_pure; [done|]. intros v (w & Hw & Hu & ->)%verify_authentication_Ok.
  cbn [va_credential_id va_new_sign_count]. destruct (negb _ || _) eqn:En; [by apply anomaly_freezes|]. bool_to_prop.
  apply granted_lift_repo; [done|]. intros q Hq%lease_request_Ok. unfold granted, on_repo, mbind, st_bind.
  pose proof (recovery_grants (ch_id c) (ch_digest c) (py_freeze_epoch payload) (cr_id k) (la_new_sign_count w) q (py_request_id payload) (pr_at p) r Hr) as Hrec.
  destruct (complete_recovery _ _ _ _ _ _ _ (pr_at p) r) as [[rec|] r']; [|by left]. destruct Hrec as (Hl & _ & _ & _ & Hused & Hg). subst q.
  assert (Hiss : issued p c k r (rr_lease rec) r').
  { eapply (assertion_issued p c k w _ uuid); try done. rewrite Hp. set_solver. }
  unfold lift_latch, mret, st_ret. destruct (make_recovery_proof _); [exact Hiss|]. right. by exists (rr_lease rec).
Qed.

(** Each commit makes at most one repository call. *)
Lemma on_repo_final {A} (m : RM A) r : final (on_repo m r) = final (m r).
Proof. unfold on_repo, final. by destruct (m r) as [[]]. Qed.

Lemma anomaly_call {A} uuid reason msg now r : wa_call r (final (anomaly (A := A) uuid reason msg now r)).
Proof.
  unfold anomaly, raise, mbind, st_bind. pose proof (on_repo_final (freeze ("anomaly-" +:+ uuid) reason now) r) as E. unfold final in *.
  destruct (on_repo _ r) as [[]]; cbn in *; subst; apply call_freeze.
Qed.

Lemma commit_registration_call c response now r : wa_call r (final (commit_registration s c response now r)).
Proof.
  unfold commit_registration, liftR, lift_repo, mbind, st_bind. destruct (verify_registration _ _ _ _); [|apply call_none].
  destruct (make_credential _); [|apply call_none]. rewrite on_repo_final. apply call_registration.
Qed.

Lemma commit_authentication_call c k response uuid now r : wa_call r (final (commit_authentication s c k response uuid now r)).
Proof.
  unfold commit_authentication, liftR, mbind, st_bind. destruct (verify_authentication _ _ _ _ _) as [v|]; [|apply call_none].
  destruct (negb _); [apply anomaly_call|]. destruct (_ <? _); [apply anomaly_call|]. unfold lift_repo.
  destruct (lease_request _ _ _ _); [|apply call_none]. rewrite on_repo_final. apply call_authentication.
Qed.

Lemma commit_recovery_call c payload k response uuid now r : wa_call r (final (commit_recovery s c payload k response uuid now r)).
Proof.
  unfold commit_recovery, liftR, mbind, st_bind. destruct (verify_authentication _ _ _ _ _) as [v|]; [|apply call_none].
  destruct (_ || _); [apply anomaly_call|]. unfold lift_repo. destruct (lease_request _ _ _ _) as [q|]; [|apply call_none].
  pose proof (on_repo_final (complete_recovery (ch_id c) (ch_digest c) (py_freeze_epoch payload) (cr_id k) (va_new_sign_count v) q (py_request_id payload) now) r) as E.
  unfold lift_latch, mret, st_ret, final in *. destruct (on_repo _ r) as [[rec|] r']; cbn in *; [destruct (make_recovery_proof _); cbn|]; subst; apply call_recovery.
Qed.

(** ** Starting a ceremony *)

(** At most a new, open challenge of the service is added. *)
Definition opens (r r' : Repo) : Prop := r' = r ∨ ∃ c,
  dget (ch_id c) (r_challenges r) = None ∧ (∀ i c', dget i (r_challenges r) = Some c' → ch_digest c' ≠ ch_digest c) ∧
  ch_digest c = sha256 (ch_value c) ∧ ch_expires_at c = ch_issued_at c + ws_challenge_ttl s ∧
  r' = set_challenges (dset (ch_id c) c (r_challenges r)) r.

Lemma create_opens c r : ch_digest c = sha256 (ch_value c) → ch_expires_at c = ch_issued_at c + ws_challenge_ttl s →
  opens r (final (create_challenge c r)).
Proof.
  intros Hd Hx. unfold create_challenge, opens, final. py_unfold. unfold dmem. destruct (dget (ch_id c) (r_challenges r)) eqn:E; cbn; [by left|].
  destruct (existsb _ _) eqn:Ee; cbn; [by left|]. right. exists c. split_and!; try done. intros i c' Hc Heq.
  assert (existsb (λ s0, bool_decide (ch_digest s0 = ch_digest c)) (dvalues (r_challenges r)) = true) as Ht; [|congruence].
  apply existsb_exists. exists c'. split; [|by apply bool_decide_eq_true]. by apply list_elem_of_In, (dget_value i).
Qed.

Lemma make_challenge_Ok c c' : make_challenge c = Ok c' → c' = c.
Proof. unfold make_challenge. intros (? & _ & (? & _ & (? & _ & (? & _ & (? & _ & H1)%bind_Ok)%bind_Ok)%bind_Ok)%bind_Ok)%bind_Ok. congruence. Qed.

(** A call that first stores a challenge and then only computes. *)
Lemma lift_create_opens {B} c (k : Challenge → WA B) r : ch_digest c = sha256 (ch_value c) → ch_expires_at c = ch_issued_at c + ws_challenge_ttl s →
  (∀ c' r1, final (k c' r1) = r1) → opens r (final ((challenge ← lift_repo (make_challenge c); on_repo (create_challenge challenge);; k challenge) r)).
Proof.
  intros Hd Hx Hk. unfold lift_repo, mbind, st_bind. destruct (make_challenge c) as [c'|] eqn:E; [|by left]. apply make_challenge_Ok in E as ->.
  pose proof (create_opens c r Hd Hx) as Ho. unfold on_repo, final in *. destruct (create_challenge c r) as [[[]|] r1]; [|done]. cbn in *. by rewrite Hk.
Qed.

Lemma store_challenge_opens purpose value uuid now r : opens r (final (store_challenge s purpose value uuid now r)).
Proof. by apply lift_create_opens. Qed.

Lemma open_recovery_opens payload k value uuid now r : opens r (final (open_recovery s payload k value uuid now r)).
Proof. by apply lift_create_opens. Qed.

Lemma lift_create_call {B} c (k : Challenge → WA B) r : (∀ c' r1, final (k c' r1) = r1) →
  wa_call r (final ((challenge ← lift_repo (make_challenge c); on_repo (create_challenge challenge);; k challenge) r)).
Proof.
  intros Hk. unfold lift_repo, mbind, st_bind. destruct (make_challenge c) as [c'|]; [|apply call_none].
  pose proof (on_repo_final (create_challenge c') r) as E. unfold final in *. destruct (on_repo _ r) as [[]]; cbn in *; rewrite ?Hk; subst; apply call_create.
Qed.
End Provenance.
