(* ===== verification/WebAuthnProps.v ===== *)
(** The ceremonies as a system: every reachable state, whoever presents what, and the honest recovery. *)

From S2P Require Import Prelude PyDict PyTime Sha256 Json JsonParse PyParse NodeScopes AuthorityRepository AuthorityFacts EmergencyLatch WebAuthn WebAuthnFacts.
From Stdlib Require Import Ascii.

Open Scope Z_scope.

Section Reach.
Context `{WebAuthnLib} (s : Service).

(** The lease a step issued: the one that is active after it and was not there before. *)
Definition lease_issued (r r' : Repo) : option AuthorityLease :=
  i ← r_active r'; if decide (dget i (r_leases r) = None) then dget i (r_leases r') else None.
Definition logged (r r' : Repo) (p : Presented) (c : Challenge) (k : Credential) (L : list Issue) : list Issue :=
  match lease_issued r r' with Some l => mkIssue r p c k l :: L | None => L end.

(** The service at work, with the gateway's freezes and admissions. Its methods are cut at their awaits: a task reads a challenge
    or a credential ([C] and [K] hold what was read so far, under the names asked for), and later stores a challenge or
    commits with what it read, whatever other tasks did in between. [P] are the responses presented so far and [L] the
    leases issued so far, each with the response, the challenge, the credential and the state it was issued for. *)
Inductive wa_sys : Repo → list (string * Challenge) → list (string * Credential) → list Presented → list Issue → Prop :=
  | ws_start : wa_sys empty_repo [] [] [] []
  | ws_present r C K P L p : wa_sys r C K P L → wa_sys r C K (p :: P) L
  | ws_read_challenge r C K P L i c : wa_sys r C K P L → get_challenge i r = (Ok c, r) → wa_sys r ((i, c) :: C) K P L
  | ws_read_credential r C K P L i k : wa_sys r C K P L → get_credential i r = (Ok k, r) → wa_sys r C ((i, k) :: K) P L
  | ws_store r C K P L purpose value uuid now : wa_sys r C K P L → wa_sys (final (store_challenge s purpose value uuid now r)) C K P L
  | ws_open_recovery r C K P L payload k value uuid now :
      wa_sys r C K P L → wa_sys (final (open_recovery s payload k value uuid now r)) C K P L
  | ws_register r C K P L i c response now : wa_sys r C K P L → (i, c) ∈ C → ch_purpose c = purpose_value BOOTSTRAP_REGISTRATION →
      wa_sys (final (commit_registration s c response now r)) C K P L
  | ws_authenticate r C K P L p c k uuid : wa_sys r C K P L → p ∈ P →
      (pr_challenge_id p, c) ∈ C → ch_purpose c = purpose_value LEASE → (pr_credential_id p, k) ∈ K →
      let r' := final (commit_authentication s c k (pr_response p) uuid (pr_at p) r) in wa_sys r' C K P (logged r r' p c k L)
  | ws_recover r C K P L p c payload k uuid : wa_sys r C K P L → p ∈ P →
      (pr_challenge_id p, c) ∈ C → challenge_payload c = Ok payload → (pr_credential_id p, k) ∈ K →
      let r' := final (commit_recovery s c payload k (pr_response p) uuid (pr_at p) r) in wa_sys r' C K P (logged r r' p c k L)
  | ws_freeze r C K P L request_id reason now : wa_sys r C K P L → wa_sys (final (freeze request_id reason now r)) C K P L
  | ws_admit r C K P L q : wa_sys r C K P L → wa_sys (final (admit_interaction q r)) C K P L.

(** States the service can reach, with the responses presented so far. *)
Definition wa_reach (r : Repo) (P : list Presented) : Prop := ∃ C K L, wa_sys r C K P L.

(** Uninterrupted calls are sequences of these steps. *)
Lemma get_challenge_run i r : get_challenge i r = (require_some (dget i (r_challenges r)) (ChallengeInvalid "challenge does not exist"), r).
Proof. unfold get_challenge. py_unfold. by destruct (dget i (r_challenges r)). Qed.

Lemma get_credential_final i r : final (get_credential i r) = r.
Proof. unfold get_credential, final. py_unfold. destruct (dget i (r_credentials r)) as [k|]; cbn; [by destruct (live k)|done]. Qed.

Lemma finish_reads {A} i r (k : Challenge → WA A) (Q : Repo → Prop) :
  Q r → (∀ c, get_challenge i r = (Ok c, r) → Q (final (k c r))) → Q (final ((on_repo (get_challenge i) ≫= k) r)).
Proof.
  intros Hq Hk. unfold on_repo, mbind, st_bind. rewrite get_challenge_run in *. destruct (require_some _ _); [by apply Hk|done].
Qed.

Lemma credential_reads {A} i r (k : Credential → WA A) (Q : Repo → Prop) :
  Q r → (∀ c, get_credential i r = (Ok c, r) → Q (final (k c r))) → Q (final ((on_repo (get_credential i) ≫= k) r)).
Proof.
  intros Hq Hk. pose proof (get_credential_final i r) as E. unfold on_repo, mbind, st_bind, final in *.
  destruct (get_credential i r) as [[c|] r1]; cbn in E; subst r1; [by apply Hk|done].
Qed.

Lemma pure_reads {A B} (x : result wa_exn A) r (k : A → WA B) (Q : Repo → Prop) :
  Q r → (∀ a, x = Ok a → Q (final (k a r))) → Q (final ((liftR x ≫= k) r)).
Proof. intros Hq Hk. unfold liftR, mbind, st_bind. destruct x; [by apply Hk|done]. Qed.

Lemma check_reads {B} b e r (k : () → WA B) (Q : Repo → Prop) : Q r → (b = true → Q (final (k () r))) → Q (final ((check b e ≫= k) r)).
Proof. intros Hq Hk. unfold check, ensure, mbind, st_bind. destruct b; [by apply Hk|done]. Qed.

Lemma gets_reads {A B} (f : Repo → A) r (k : A → WA B) (Q : Repo → Prop) : Q (final (k (f r) r)) → Q (final ((on_repo (gets f) ≫= k) r)).
Proof. done. Qed.

(** The last call of a method, after which it only computes. *)
Lemma tail_reads {A B} (m : WA A) r (k : A → B) (Q : Repo → Prop) : Q (final (m r)) → Q (final ((a ← m; mret (k a)) r)).
Proof. unfold final, mbind, st_bind, mret, st_ret. by destruct (m r) as [[]]. Qed.

(** The next await or check of a method, at a state that is reached. *)
Ltac next_read P :=
  first [apply (gets_reads _ _ _ (λ r, wa_reach r P))
        |apply (check_reads _ _ _ _ (λ r, wa_reach r P)); [by eexists _, _, _|intros ?]
        |apply (pure_reads _ _ _ (λ r, wa_reach r P)); [by eexists _, _, _|intros ? ?]
        |apply (finish_reads _ _ _ (λ r, wa_reach r P)); [by eexists _, _, _|intros ? ?]
        |apply (credential_reads _ _ _ (λ r, wa_reach r P)); [by eexists _, _, _|intros ? ?]].

Lemma wr_begin_registration r P purpose en value uuid now : wa_reach r P → wa_reach (final (begin_registration s purpose en value uuid now r)) P.
Proof.
  intros (C & K & L & Hs). unfold begin_registration. do 4 next_read P. apply (tail_reads _ _ _ (λ r, wa_reach r P)). exists C, K, L. by apply ws_store.
Qed.

Lemma wr_begin_authentication r P value uuid now : wa_reach r P → wa_reach (final (begin_authentication s value uuid now r)) P.
Proof.
  intros (C & K & L & Hs). unfold begin_authentication. do 2 next_read P. apply (tail_reads _ _ _ (λ r, wa_reach r P)). exists C, K, L. by apply ws_store.
Qed.

Lemma wr_begin_recovery r P request_id cri value uuid now : wa_reach r P → wa_reach (final (begin_recovery s request_id cri value uuid now r)) P.
Proof. intros (C & K & L & Hs). unfold begin_recovery. do 4 next_read P. exists C, K, L. by apply ws_open_recovery. Qed.

Lemma wr_finish_registration r P ci response now : wa_reach r P → wa_reach (final (finish_registration s ci response now r)) P.
Proof.
  intros (C & K & L & Hs). unfold finish_registration. do 2 next_read P. bool_to_prop.
  eexists (_ :: C), K, L. eapply ws_register; [by eapply ws_read_challenge|left|done].
Qed.

Lemma wr_finish_authentication r P p uuid : wa_reach r P →
  wa_reach (final (finish_authentication s (pr_challenge_id p) (pr_credential_id p) (pr_response p) uuid (pr_at p) r)) (p :: P).
Proof.
  intros (C & K & L & Hs%(ws_present _ _ _ _ _ p)). unfold finish_authentication. do 3 next_read (p :: P). bool_to_prop.
  eexists (_ :: C), (_ :: K), _. eapply ws_authenticate; [by eapply ws_read_credential; [eapply ws_read_challenge|]|left|left|done|left].
Qed.

Lemma wr_finish_recovery r P p uuid : wa_reach r P →
  wa_reach (final (finish_recovery s (pr_challenge_id p) (pr_credential_id p) (pr_response p) uuid (pr_at p) r)) (p :: P).
Proof.
  intros (C & K & L & Hs%(ws_present _ _ _ _ _ p)). unfold finish_recovery. do 3 next_read (p :: P).
  eexists (_ :: C), (_ :: K), _. eapply ws_recover; [by eapply ws_read_credential; [eapply ws_read_challenge|]|left|left|done|left].
Qed.

Lemma wr_freeze r P request_id reason now : wa_reach r P → wa_reach (final (freeze request_id reason now r)) P.
Proof. intros (C & K & L & Hs). exists C, K, L. by apply ws_freeze. Qed.

(** ** The log of leases *)

Record wa_inv (r : Repo) (C : list (string * Challenge)) (K : list (string * Credential)) (P : list Presented) (L : list Issue) : Prop := {
  wi_repo : repo_inv r;
  wi_challenges : challenge_inv s r;
  wi_keyed : keyed_credentials r;
  wi_read : Forall (challenge_read r) C;
  wi_read_credentials : Forall (credential_read r) K;
  wi_asserted : Forall (asserted s) L;
  wi_presented : Forall (λ e, is_presented e ∈ P) L;
  wi_once : NoDup (map (λ e, ch_value (is_challenge e)) L);
  wi_spent : Forall (λ e, ∃ c t, dget (pr_challenge_id (is_presented e)) (r_challenges r) = Some c ∧ ch_consumed_at c = Some t ∧
    ch_value c = ch_value (is_challenge e)) L;
  wi_all : ∀ i l, dget i (r_leases r) = Some l → ∃ e, e ∈ L ∧ l_id (is_lease e) = i ∧ revised (is_lease e) l }.

Lemma challenge_inv_content r r' : challenge_inv s r → challenges_content r r' → challenge_inv s r'.
Proof.
  intros [Hk Ho Hd] Hc. split.
  - intros i c' Hi. destruct (Hc i c' Hi) as (c & Hci & Hor). specialize (Hk i c Hci). cbn in Hk. by destruct Hor as [->|[t ->]].
  - intros i c' Hi. destruct (Hc i c' Hi) as (c & Hci & Hor). specialize (Ho i c Hci). by destruct Hor as [->|[t ->]].
  - intros i j c1 c2 H1 H2 Hv. destruct (Hc i c1 H1) as (d1 & Hd1 & O1), (Hc j c2 H2) as (d2 & Hd2 & O2).
    apply (Hd i j d1 d2 Hd1 Hd2). by destruct O1 as [->|[? ->]], O2 as [->|[? ->]].
Qed.

Lemma spent_kept r r' L : challenges_kept r r' →
  Forall (λ e, ∃ c t, dget (pr_challenge_id (is_presented e)) (r_challenges r) = Some c ∧ ch_consumed_at c = Some t ∧ ch_value c = ch_value (is_challenge e)) L →
  Forall (λ e, ∃ c t, dget (pr_challenge_id (is_presented e)) (r_challenges r') = Some c ∧ ch_consumed_at c = Some t ∧ ch_value c = ch_value (is_challenge e)) L.
Proof. intros Hk Hf. eapply Forall_impl; [exact Hf|]. intros e (c & t & H1 & H2 & H3). exists c, t. split_and!; try done. by eapply Hk. Qed.

Lemma reads_kept r r' C : wa_call r r' → Forall (challenge_read r) C → Forall (challenge_read r') C.
Proof.
  intros Hw Hf. eapply Forall_impl; [exact Hf|]. intros [i c] [Hid (c1 & H1 & S1)]. split; [done|].
  destruct (call_challenges _ _ Hw _ _ H1) as (c2 & H2 & S2). exists c2. split; [done|]. by eapply same_challenge_trans.
Qed.

Lemma credential_reads_kept r r' K : wa_call r r' → Forall (credential_read r) K → Forall (credential_read r') K.
Proof.
  intros Hw Hf. eapply Forall_impl; [exact Hf|]. intros [i k] [Hid (k1 & H1 & N1)]. split; [done|].
  destruct (call_credentials _ _ Hw _ _ H1) as (k2 & H2 & N2). exists k2. split; [done|]. by eapply newer_trans.
Qed.

(** A call that issues nothing. *)
Lemma quiet_leases r r' : repo_inv r → wa_call r r' → quiet r r' →
  (∀ i l', dget i (r_leases r') = Some l' → ∃ l, dget i (r_leases r) = Some l ∧ revised l l') ∧ lease_issued r r' = None.
Proof.
  intros Hr Hw Hq. split.
  - intros i l' Hl. destruct (call_leases _ _ Hr Hw i l' Hl) as [?|[Hn Hlive]]; [done|]. by rewrite (qu_live _ _ Hq i l' Hl Hlive) in Hn.
  - unfold lease_issued. destruct (r_active r') as [i|] eqn:Ea; [|done]. cbn. destruct (li_active _ _ _ (ri_lease _ (qu_inv _ _ Hq)) i Ea) as (l & Hl & Hlive).
    rewrite decide_False; [done|]. by rewrite (qu_live _ _ Hq i l Hl Hlive).
Qed.

Lemma wa_inv_quiet r r' C K P L : wa_call r r' → quiet r r' → wa_inv r C K P L → wa_inv r' C K P L.
Proof.
  intros Hw Hq [I1 I2 I3 I4 I5 I6 I7 I8 I9 I10]. destruct (quiet_leases r r' I1 Hw Hq) as [Hl _]. destruct Hq as [Q1 Q2 Q3 Q4].
  split; [done|by eapply challenge_inv_content|by eapply call_keyed|by eapply reads_kept|by eapply credential_reads_kept|done|done|done|by eapply spent_kept|].
  intros i l' Hl'. destruct (Hl i l' Hl') as (l & Hg & Hrev). destruct (I10 i l Hg) as (e & He & Hid & Hrev').
  exists e. split_and!; [done|done|]. by eapply revised_trans.
Qed.

Lemma opens_inv r r' : opens s r r' → repo_inv r → challenge_inv s r → repo_inv r' ∧ challenge_inv s r' ∧ challenges_kept r r' ∧ r_leases r' = r_leases r.
Proof.
  intros [->|(c & Hnone & Hfresh & Hd & Hx & ->)] Hr [Ck Co Cd]; [by split_and!; [done|split|intros ?|]|].
  split_and!.
  - apply (same_authority_inv r); [by split_and!|done].
  - split; cbn.
    + by apply dall_dset.
    + by apply dall_dset.
    + intros i j c1 c2. rewrite !dget_dset. repeat case_decide; intros E1 E2 Hv; simplify_eq/=; try done.
      * destruct (Co j c2 E2) as [Hc2 _]. exfalso. apply (Hfresh j c2 E2). congruence.
      * destruct (Co i c1 E1) as [Hc1 _]. exfalso. apply (Hfresh i c1 E1). congruence.
      * by eapply Cd.
  - intros i c' t Hc' _. cbn. rewrite dget_dset. case_decide; [congruence|done].
  - done.
Qed.

Lemma wa_inv_opens r r' C K P L : wa_call r r' → opens s r r' → wa_inv r C K P L → wa_inv r' C K P L.
Proof.
  intros Hw Ho [I1 I2 I3 I4 I5 I6 I7 I8 I9 I10]. destruct (opens_inv r r' Ho I1 I2) as (J1 & J2 & J3 & J4).
  split; [done|done|by eapply call_keyed|by eapply reads_kept|by eapply credential_reads_kept|done|done|done|by eapply spent_kept|by rewrite J4].
Qed.

(** A call that issues a lease. *)
Lemma wa_inv_issued r r' C K P L p c k lease :
  wa_call r r' → issued s p c k r lease r' → p ∈ P → wa_inv r C K P L → wa_inv r' C K P (logged r r' p c k L).
Proof.
  intros Hw [Has [G1 (c' & Hc' & Hn & Hx & Hch) G3 (A1 & A2 & A3) G5 G6]] Hp [I1 I2 I3 I4 I5 I6 I7 I8 I9 I10].
  assert (Hlog : logged r r' p c k L = mkIssue r p c k lease :: L).
  { unfold logged, lease_issued. rewrite A1. cbn. by rewrite decide_True, A2. }
  destruct (Has) as [(Hc & _ & _ & _ & _) _]. cbn in Hc. assert (c' = c) as -> by congruence.
  assert (Hkept : challenges_kept r r') by (intros i x t Hi Ht; rewrite Hch, dget_dset; case_decide; [congruence|done]).
  rewrite Hlog. split; [done| |by eapply call_keyed|by eapply reads_kept|by eapply credential_reads_kept|by constructor|by constructor| | |].
  - eapply challenge_inv_content; [done|]. by eapply content_consume.
  - cbn. constructor; [|done]. intros Hin. apply list_elem_of_fmap in Hin as (e & Hv & He). rewrite Forall_forall in I9.
    destruct (I9 e He) as (c2 & t & Hc2 & Ht & Hv2). assert (pr_challenge_id (is_presented e) = pr_challenge_id p).
    { apply (ci_distinct s _ I2 _ _ c2 c); [done|done|congruence]. } congruence.
  - constructor; [|by eapply spent_kept]. cbn. rewrite Hch, dget_dset_eq. by eexists _, _.
  - intros i l Hl. destruct (call_leases _ _ I1 Hw i l Hl) as [(l0 & Hl0 & Hrev)|[_ Hlive]].
    + destruct (I10 i l0 Hl0) as (e & He & Hid & Hrev'). exists e. split_and!; [by right|done|by eapply revised_trans].
    + eexists. split; [left|]. cbn. rewrite <- (G3 i l Hl Hlive). split; [|by left]. by apply (li_key _ _ _ (ri_lease _ G1)).
Qed.

(** A commit that may issue a lease. *)
Lemma wa_inv_commit {A} (Ψ : Repo → Prop) (Φ : A → Repo → Prop) (m : result wa_exn A * Repo) r C K P L p c k :
  wa_call r (final m) → granted Ψ Φ r m → (∀ r', Ψ r' → ∃ lease, issued s p c k r lease r') → (∀ a r', Φ a r' → ∃ lease, issued s p c k r lease r') →
  p ∈ P → wa_inv r C K P L → wa_inv (final m) C K P (logged r (final m) p c k L).
Proof.
  intros Hw Hg Hψ Hφ Hp Hi. assert (Hcase : quiet r (final m) ∨ ∃ lease, issued s p c k r lease (final m)).
  { unfold granted, final in *. destruct m as [[a|] r']; cbn; [right; by eapply Hφ|]. destruct Hg as [?|?]; [by left|right; by apply Hψ]. }
  destruct Hcase as [Hq|[lease Hl]]; [|by eapply wa_inv_issued]. destruct (quiet_leases _ _ (wi_repo _ _ _ _ _ Hi) Hw Hq) as [_ Hn].
  unfold logged. rewrite Hn. by eapply wa_inv_quiet.
Qed.

Lemma registration_quiet c response now r : repo_inv r → quiet r (final (commit_registration s c response now r)).
Proof.
  intros Hr. assert (Hg : granted (quiet r) (λ _ r', quiet r r') r (commit_registration s c response now r)).
  { unfold commit_registration. apply granted_pure; [done|]. intros v _.
    apply granted_lift_repo; [done|]. intros cr _. unfold on_repo, complete_registration, read, check, modify, mret, st_ret, mbind, st_bind, granted.
    pose proof (consume_quiet (ch_id c) (ch_digest c) now r Hr) as Hq. unfold final in Hq.
    destruct (consume_challenge (ch_id c) (ch_digest c) now r) as [[c'|] r1]; [|by left]. cbn in Hq. destruct (ensure _ _); [|by left].
    destruct Hq as [Q1 Q2 Q3 Q4]. split; try done. apply repo_inv_append. apply (same_authority_inv r1); [by split_and!|done]. }
  unfold granted, final in *. destruct (commit_registration s c response now r) as [[|] r']; [done|]. by destruct Hg.
Qed.

Lemma admit_quiet q r : repo_inv r → quiet r (final (admit_interaction q r)).
Proof.
  intros Hr. pose proof (admit_good q r Hr) as [Hi He]. pose proof (admit_cases q r) as Hc. unfold final in *.
  destruct (admit_interaction q r) as [[p|] r']; [|subst r'; by apply granting_refl]. destruct Hc as [(p0 & _ & -> & _)|(_ & _ & l & _ & _ & _ & ->)]; [by apply granting_refl|].
  split; [done|done|apply He|by apply content_same].
Qed.

Lemma wa_sys_inv r C K P L : wa_sys r C K P L → wa_inv r C K P L.
Proof.
  induction 1 as [|r C K P L p _ IH|r C K P L i c _ IH Hc|r C K P L i k _ IH Hk|r C K P L purpose value uuid now _ IH|r C K P L payload k value uuid now _ IH
    |r C K P L i c response now _ IH Hc Hp|r C K P L p c k uuid _ IH Hin Hc Hp Hk|r C K P L p c payload k uuid _ IH Hin Hc Hp Hk|r C K P L ? ? ? _ IH|r C K P L q _ IH].
  - split; first [done|apply empty_inv|by constructor|by split].
  - destruct IH. split; try done. eapply Forall_impl; [exact wi_presented0|]. intros e He. by right.
  - rewrite get_challenge_run in Hc. injection Hc as Hc%require_some_Ok. destruct IH. split; try done. constructor; [|done].
    split; [by apply (ci_key s _ wi_challenges0)|]. exists c. split; [done|by left].
  - assert (Hk' : dget i (r_credentials r) = Some k).
    { revert Hk. unfold get_credential. py_unfold. destruct (dget i (r_credentials r)) as [k0|]; cbn; [|done]. destruct (live k0); cbn; congruence. }
    destruct IH. split; try done. constructor; [|done]. split; [by apply wi_keyed0|]. exists k. split; [done|apply newer_refl].
  - eapply wa_inv_opens; [|apply store_challenge_opens|exact IH]. by apply lift_create_call.
  - eapply wa_inv_opens; [|apply open_recovery_opens|exact IH]. by apply lift_create_call.
  - eapply wa_inv_quiet; [apply commit_registration_call|apply registration_quiet, IH|exact IH].
  - destruct (IH) as [J1 J2 _ J4 J5 _ _ _ _ _]. rewrite Forall_forall in J4; rewrite Forall_forall in J5. eapply wa_inv_commit; [apply commit_authentication_call| |..|done|exact IH].
    + apply commit_authentication_granted; [done|done|by apply J4|done|by apply J5].
    + done.
    + intros a r1 Ha. by exists a.
  - destruct (IH) as [J1 J2 _ J4 J5 _ _ _ _ _]. rewrite Forall_forall in J4; rewrite Forall_forall in J5. eapply wa_inv_commit; [apply commit_recovery_call| |..|done|exact IH].
    + apply commit_recovery_granted; [done|done|by apply J4|done|by apply J5].
    + done.
    + intros a r1 Ha. by exists (rx_lease a).
  - eapply wa_inv_quiet; [apply call_freeze|apply freeze_quiet, IH|exact IH].
  - eapply wa_inv_quiet; [apply call_admit|apply admit_quiet, IH|exact IH].
Qed.

(** C27. Authority comes only from verified assertions. In every state the service can reach, whoever presents which responses,
    whatever the calls answer and however the tasks interleave at their awaits, every lease in the repository, live or
    revoked, is in the log of issues, where each challenge value appears once: no challenge ever served two leases. Each lease
    of the log was issued to a response that was presented and that the WebAuthn library verified, with the user verified,
    against the pinned relying party and origin, the value of a challenge and the key and counter of a credential. At the
    moment of the issue that challenge was stored under the name the response gave, opened by this service for a lease or a
    recovery, not consumed and not expired; the credential was stored under the name the response gave, live, with that key,
    and the counter did not go back; and the lease is the service's own, of the next epoch, to expire after its time to live. *)
Theorem lease_provenance r C K P L : wa_sys r C K P L →
  (∀ i l, dget i (r_leases r) = Some l → ∃ e, e ∈ L ∧ l_id (is_lease e) = i ∧ revised (is_lease e) l) ∧
  NoDup (map (λ e, ch_value (is_challenge e)) L) ∧
  ∀ e, e ∈ L → is_presented e ∈ P ∧ open_challenge s e ∧ verified_credential s e ∧ own_lease s e ∧
    ∃ c t, dget (pr_challenge_id (is_presented e)) (r_challenges r) = Some c ∧ ch_value c = ch_value (is_challenge e) ∧ ch_consumed_at c = Some t.
Proof.
  intros [_ _ _ _ _ I6 I7 I8 I9 I10]%wa_sys_inv. split; [done|]. split; [done|]. intros e He. rewrite Forall_forall in I6; rewrite Forall_forall in I7; rewrite Forall_forall in I9.
  destruct (I6 e He) as (? & ? & ?), (I9 e He) as (c & t & ? & ? & ?). split_and!; auto. by exists c, t.
Qed.
End Reach.

(** ** The honest recovery *)

(** A SHA-256 hex digest is a base-16 number for [int]. *)
Definition hexdig (c : ascii) : bool := match hex_value c with Some _ => true | None => false end.

Lemma hexdig_plain c : hexdig c = true → negb (is_space c) = true ∧ ord c ≠ 43%nat ∧ ord c ≠ 45%nat ∧ ord c ≠ 120%nat ∧ ord c ≠ 88%nat.
Proof. destruct c as [[] [] [] [] [] [] [] []]; vm_compute; intros; split_and!; congruence. Qed.

Lemma hex_hexdig s : all_chars hexdig (hex s) = true.
Proof.
  induction s as [|c s IH]; [done|]. pose proof (byte_of_range c) as Hc. cbn [hex all_chars]. rewrite IH.
  assert (Hh : 0 ≤ byte_of c / 16 < 16) by (split; [apply Z.div_pos; lia|apply Z.div_lt_upper_bound; lia]).
  assert (Hl : 0 ≤ byte_of c mod 16 < 16) by (apply Z.mod_pos_bound; lia).
  unfold hexdig. by rewrite (proj1 (hex_value_digit _ Hh)), (proj1 (hex_value_digit _ Hl)).
Qed.

Lemma hex_run_digits b s : all_chars hexdig s = true → s ≠ "" → hex_run b s = true.
Proof.
  revert b. induction s as [|c s IH]; [done|]. intros b. cbn [all_chars hex_run]. intros [Hc Hs]%andb_true_iff _. unfold hexdig in Hc.
  destruct (hex_value c); [|done]. destruct s; [done|]. by apply IH.
Qed.

Lemma is_int16_hexdigs s : all_chars hexdig s = true → s ≠ "" → is_int16 s = true.
Proof.
  intros Hs Hn. unfold is_int16. rewrite strip_plain by (eapply all_chars_impl; [|exact Hs]; intros c Hc; by apply hexdig_plain).
  destruct s as [|c s]; [done|]. assert (Hc : hexdig c = true) by (cbn in Hs; by apply andb_true_iff in Hs as [? _]).
  destruct (hexdig_plain c Hc) as (_ & H43 & H45 & _). apply Nat.eqb_neq in H43, H45. rewrite H43, H45. cbn [orb]. unfold after_0x.
  destruct s as [|x s]; [by apply hex_run_digits|]. assert (Hx : hexdig x = true) by (cbn in Hs; by apply andb_true_iff in Hs as [_ [? _]%andb_true_iff]).
  destruct (hexdig_plain x Hx) as (_ & _ & _ & Hx1 & Hx2). apply Nat.eqb_neq in Hx1, Hx2. rewrite Hx1, Hx2, andb_false_r. by apply hex_run_digits.
Qed.

Lemma hex_length s : String.length (hex s) = (2 * String.length s)%nat.
Proof. induction s as [|c s IH]; [done|]. cbn [hex String.length]. rewrite IH. lia. Qed.

Section Honest.
Context `{WebAuthnLib} (s : Service).

(** The service was constructed, and its times can be written. *)
Definition well_made : Prop := make_service s = Ok s.

Lemma well_made_ttls : well_made → 0 < ws_challenge_ttl s ≤ minutes 5 ∧ 0 < ws_lease_ttl s ≤ hours 24.
Proof.
  unfold well_made, make_service. intros (? & _ & (? & H1%ensure_Ok & (? & H2%ensure_Ok & _)%bind_Ok)%bind_Ok)%bind_Ok. bool_to_prop. lia.
Qed.

Definition recovery_payload (request_id : string) (epoch : Z) (now : datetime) : RecoveryPayload :=
  mkPayload request_id "unfreeze" epoch (ws_commander_id s) (ws_guild_id s) (hex (channel_scope_digest s)) (isoformat now)
    (isoformat (now + ws_challenge_ttl s)).

Lemma canonical_isoformat t : representable t → canonical_datetime (isoformat t) = Some t.
Proof. intros Ht. unfold canonical_datetime. rewrite fromisoformat_isoformat by done. cbn. by rewrite bool_decide_eq_true_2. Qed.

Lemma make_recovery_payload request_id epoch now : well_made → 1 ≤ epoch → representable now → representable (now + ws_challenge_ttl s) →
  make_payload (recovery_payload request_id epoch now) = Ok (recovery_payload request_id epoch now).
Proof.
  intros Hw He H1 H2. destruct (well_made_ttls Hw) as [Ht _]. unfold make_payload, recovery_payload.
  cbn [py_action py_freeze_epoch py_channel_scope_digest py_issued_at py_expires_at].
  rewrite !canonical_isoformat by done. rewrite hex_length. unfold channel_scope_digest. rewrite sha256_length.
  rewrite is_int16_hexdigs; [|apply hex_hexdig|intros Hz; apply (f_equal String.length) in Hz; rewrite hex_length, sha256_length in Hz; done].
  rewrite (proj2 (Z.leb_le 1 epoch)) by lia. rewrite bool_decide_eq_true_2 by done. cbn [ensure mbind result_bind require_some Nat.mul Nat.add Nat.eqb].
  rewrite (proj2 (Z.ltb_lt now _)) by lia. cbn [ensure mbind result_bind].
  rewrite (proj2 (Z.leb_le _ _)) by lia. done.
Qed.

Definition recovery_challenge (uuid value : string) (p : RecoveryPayload) (now : datetime) : Challenge :=
  mkChallenge ("challenge-" +:+ uuid) value (sha256 value) (purpose_value RECOVERY) (ws_commander_id s) (sha256 (payload_bytes p)) (Some (payload_bytes p))
    now (now + ws_challenge_ttl s) None.

Lemma make_recovery_challenge uuid value p now : well_made → String.length value = 32%nat →
  make_challenge (recovery_challenge uuid value p now) = Ok (recovery_challenge uuid value p now).
Proof.
  intros Hw Hv. destruct (well_made_ttls Hw) as [Ht _]. unfold make_challenge, recovery_challenge, is_digest, str_len.
  cbn [ch_value ch_digest ch_payload_digest ch_issued_at ch_expires_at]. rewrite !sha256_length, Hv. cbn [Z.of_nat Z.eqb Pos.of_succ_nat Pos.succ Pos.eqb ensure mbind result_bind].
  rewrite (proj2 (Z.ltb_lt now _)) by lia. cbn [ensure mbind result_bind]. rewrite (proj2 (Z.leb_le _ _)) by lia. done.
Qed.

(** Challenge [i] with value [value] is new to the repository. *)
Definition fresh_challenge (r : Repo) (i value : string) : Prop :=
  dget i (r_challenges r) = None ∧ Forall (λ c, ch_digest c ≠ sha256 value) (dvalues (r_challenges r)).

Lemma create_fresh c r : fresh_challenge r (ch_id c) (ch_value c) → ch_digest c = sha256 (ch_value c) →
  create_challenge c r = (Ok (), set_challenges (dset (ch_id c) c (r_challenges r)) r).
Proof.
  intros [Hn Hf] Hd. unfold create_challenge. py_unfold. unfold dmem. rewrite Hn. cbn [negb ensure].
  assert (existsb (λ s0, bool_decide (ch_digest s0 = ch_digest c)) (dvalues (r_challenges r)) = false) as ->; [|done].
  apply not_true_is_false. intros (c' & Hin%list_elem_of_In & He%bool_decide_eq_true)%existsb_exists. rewrite Forall_forall in Hf.
  apply (Hf c' Hin). congruence.
Qed.

Lemma get_credential_live r cri cr : dget cri (r_credentials r) = Some cr → cr_revoked_at cr = None → get_credential cri r = (Ok cr, r).
Proof. intros H1 H2. unfold get_credential. py_unfold. rewrite H1. cbn. unfold live. by rewrite bool_decide_eq_true_2. Qed.

Lemma on_repo_Ok {A} (m : RM A) r a r' : m r = (Ok a, r') → on_repo m r = (Ok a, r').
Proof. unfold on_repo. by intros ->. Qed.

Lemma begin_recovery_runs r request_id cri cr value uuid now :
  well_made → repo_inv r → r_frozen r = true → dget cri (r_credentials r) = Some cr → cr_revoked_at cr = None →
  String.length value = 32%nat → fresh_challenge r ("challenge-" +:+ uuid) value → representable now → representable (now + ws_challenge_ttl s) →
  let p := recovery_payload request_id (r_freeze_epoch r) now in let c := recovery_challenge uuid value p now in
  begin_recovery s request_id cri value uuid now r =
  (Ok (mkRecoveryCeremony (mkCeremony (ch_id c) (mkAuthenticationRequest (ws_rp_id s) value [cr_id cr])) p),
   set_challenges (dset (ch_id c) c (r_challenges r)) r).
Proof.
  intros Hw Hr Hf Hcr Hlive Hv Hfresh H1 H2 p c. unfold begin_recovery.
  erewrite bind_run_Ok by (by apply on_repo_Ok). cbn [fs_frozen fs_freeze_epoch]. erewrite bind_run_Ok by (unfold check; by rewrite Hf).
  erewrite bind_run_Ok by (by apply on_repo_Ok, get_credential_live).
  erewrite bind_run_Ok by (unfold liftR; fold (recovery_payload request_id (r_freeze_epoch r) now); rewrite make_recovery_payload; [done|done|apply Hr|done|done]).
  unfold open_recovery. erewrite bind_run_Ok by (unfold lift_repo; fold p; fold (recovery_challenge uuid value p now); by rewrite make_recovery_challenge).
  erewrite bind_run_Ok by (by apply on_repo_Ok, create_fresh). done.
Qed.

(** The stored payload reads back as it was written. *)
Lemma payload_reads_back p : py_action p = "unfreeze" → make_payload p = Ok p →
  ∃ j, loads (payload_bytes p) = Some j ∧ payload_of_json j = Ok p.
Proof.
  intros Ha Hm. exists (jnorm (payload_json p)). split; [apply loads_dumps; cbn; repeat split; repeat constructor; set_solver|].
  transitivity (make_payload (mkPayload (py_request_id p) "unfreeze" (py_freeze_epoch p) (py_commander_id p) (py_guild_id p) (py_channel_scope_digest p)
    (py_issued_at p) (py_expires_at p))); [reflexivity|]. by destruct p; cbn in *; subst.
Qed.

Lemma lease_request_made c uuid now : well_made →
  lease_request s c uuid now = Ok (mkLeaseRequest ("lease-" +:+ uuid) (ws_commander_id s) (ws_guild_id s) (channel_scope_digest s) (cr_id c) now (now + ws_lease_ttl s)).
Proof.
  intros Hw. destruct (well_made_ttls Hw) as [_ Ht]. unfold lease_request, make_lease_request, is_digest, str_len, channel_scope_digest. cbn [lr_channel lr_issued_at lr_expires_at].
  rewrite sha256_length. rewrite (proj2 (Z.ltb_lt now _)), (proj2 (Z.leb_le _ (hours 24))) by lia. done.
Qed.

(** A recovery the repository accepts. *)
Lemma complete_recovery_runs r c cr n q rid now :
  repo_inv r → r_frozen r = true → dget (ch_id c) (r_challenges r) = Some c → ch_purpose c = "recovery" → ch_consumed_at c = None → now ≤ ch_expires_at c →
  dget (cr_id cr) (r_credentials r) = Some cr → cr_revoked_at cr = None → cr_sign_count cr ≤ n → dget (lr_id q) (r_leases r) = None →
  ∃ rec r', complete_recovery (ch_id c) (ch_digest c) (r_freeze_epoch r) (cr_id cr) n q rid now r = (Ok rec, r') ∧ rr_proof rec ≠ "".
Proof.
  intros Hr Hf Hc Hp Hn Hx Hcr Hlive Hcount Hfresh. unfold complete_recovery.
  erewrite bind_run_Ok; [|unfold consume_challenge; py_unfold; rewrite Hc; cbn; rewrite bool_decide_eq_true_2 by done; cbn; rewrite bool_decide_eq_true_2 by done; cbn;
    rewrite (proj2 (Z.ltb_ge _ _)) by lia; reflexivity].
  set (r1 := set_challenges _ r). erewrite bind_run_Ok by (unfold check; by rewrite bool_decide_eq_true_2). erewrite bind_run_Ok by done.
  erewrite bind_run_Ok by (unfold check; cbn; by rewrite Hf, Z.eqb_refl).
  erewrite bind_run_Ok; [|unfold use_credential; erewrite bind_run_Ok by (by apply get_credential_live); erewrite bind_run_Ok by (unfold check; by rewrite (proj2 (Z.leb_le _ _))); reflexivity].
  erewrite bind_run_Ok by done. match goal with |- context [issue_lease q ≫= _] => idtac end.
  match goal with |- ∃ rec r', (_ ≫= _) ?x = _ ∧ _ => set (r2 := x) end.
  assert (Hl : lease_inv (r_authority_epoch r2) (r_leases r2) (r_active r2)) by apply Hr.
  destruct (revoke_active_spec r2 (lr_issued_at q) "replaced" Hl) as (d' & Hrev & _ & _).
  assert (Hi : ∃ l r3, issue_lease q r2 = (Ok l, r3)).
  { unfold issue_lease. erewrite bind_run_Ok by done. erewrite bind_run_Ok by done. erewrite bind_run_Ok by (unfold check, dmem; cbn; by rewrite Hfresh).
    erewrite bind_run_Ok by exact Hrev. by eexists _, _. }
  destruct Hi as (l & r3 & Hi). erewrite bind_run_Ok by exact Hi. erewrite bind_run_Ok by done. eexists _, _. split; [done|].
  cbn. intros Hz. apply (f_equal String.length) in Hz. by rewrite sha256_length in Hz.
Qed.

(** C28. An honest recovery completes: while the system is frozen, a recovery begun for an enrolled credential, answered in time
    by a response the library verifies for that challenge, key and counter, thaws the system and yields the only live
    lease together with a proof that names the freeze it ends. *)
Theorem recovery_completes r P request_id cr value uuid now response v uuid' now' :
  well_made → wa_reach s r P → r_frozen r = true → is_blank request_id = false →
  dget (cr_id cr) (r_credentials r) = Some cr → cr_revoked_at cr = None →
  String.length value = 32%nat → fresh_challenge r ("challenge-" +:+ uuid) value → dget ("lease-" +:+ uuid') (r_leases r) = None →
  representable now → representable (now + ws_challenge_ttl s) → now' ≤ now + ws_challenge_ttl s →
  lib_verify_authentication response value (ws_rp_id s) (ws_origin s) (cr_public_key cr) (cr_sign_count cr) = Some v →
  la_user_verified v = true → la_credential_id v = cr_id cr → cr_sign_count cr ≤ la_new_sign_count v →
  let begun := begin_recovery s request_id (cr_id cr) value uuid now r in
  is_ok (outcome begun) = true ∧
  ∃ x r', finish_recovery s ("challenge-" +:+ uuid) (cr_id cr) response uuid' now' (final begun) = (Ok x, r') ∧
    r_frozen r' = false ∧ r_active r' = Some (l_id (rx_lease x)) ∧ dget (l_id (rx_lease x)) (r_leases r') = Some (rx_lease x) ∧
    l_expires_at (rx_lease x) = now' + ws_lease_ttl s ∧
    rp_freeze_epoch (rx_proof x) = r_freeze_epoch r ∧ rp_recovery_id (rx_proof x) = request_id.
Proof.
  intros Hw Hreach Hf Hblank Hcr Hlive Hv Hfresh Hlease H1 H2 Hin Hver Hu Hid Hcount begun.
  assert (Hr : repo_inv r) by (destruct Hreach as (? & ? & ? & []%wa_sys_inv); done).
  pose proof (begin_recovery_runs r request_id (cr_id cr) cr value uuid now Hw Hr Hf Hcr Hlive Hv Hfresh H1 H2) as Hb. cbn zeta in Hb.
  set (p := recovery_payload request_id (r_freeze_epoch r) now) in *. set (c := recovery_challenge uuid value p now) in *. subst begun. rewrite Hb. split; [done|].
  set (r1 := final _). assert (Hr1 : repo_inv r1) by (apply (same_authority_inv r); [by split_and!|done]).
  assert (Hc : dget (ch_id c) (r_challenges r1) = Some c) by apply dget_dset_eq.
  assert (Hmake : make_payload p = Ok p) by (apply make_recovery_payload; [done|apply Hr|done|done]).
  destruct (payload_reads_back p eq_refl Hmake) as (j & Hj & Hpj).
  assert (Hfields : ch_id c = "challenge-" +:+ uuid ∧ ch_value c = value ∧ ch_purpose c = "recovery" ∧ ch_payload_json c = Some (payload_bytes p) ∧
    ch_payload_digest c = sha256 (payload_bytes p) ∧ ch_consumed_at c = None ∧ ch_expires_at c = now + ws_challenge_ttl s) by (split_and!; reflexivity).
  assert (Hpf : py_freeze_epoch p = r_freeze_epoch r1 ∧ py_request_id p = request_id) by (split; reflexivity).
  assert (Hsame : r_frozen r1 = true ∧ r_credentials r1 = r_credentials r ∧ r_leases r1 = r_leases r ∧ r_freeze_epoch r1 = r_freeze_epoch r) by (split_and!; [exact Hf|reflexivity..]).
  destruct Hfields as (Fid & Fv & Fp & Fj & Fd & Fn & Fx), Hpf as [Pe Pr], Hsame as (Sf & Sc & Sl & Se). clearbody r1 c p. clear Hb Hmake.
  unfold finish_recovery. rewrite <- Fid. erewrite bind_run_Ok by (apply on_repo_Ok; unfold get_challenge; py_unfold; by rewrite Hc).
  assert (Hpay : challenge_payload c = Ok p).
  { unfold challenge_payload. rewrite Fp, Fj, Fd. cbn [mbind option_bind]. rewrite Hj. cbn [require_some mbind result_bind].
    rewrite bool_decide_eq_true_2 by done. cbn [negb andb ensure mbind result_bind]. rewrite Hpj. cbn [mbind result_bind]. by rewrite bool_decide_eq_true_2. }
  erewrite bind_run_Ok by (unfold liftR; by rewrite Hpay).
  rewrite <- Sc in Hcr. rewrite <- Sl in Hlease. erewrite bind_run_Ok by (by apply on_repo_Ok, get_credential_live). unfold commit_recovery. rewrite Fv.
  erewrite bind_run_Ok by (unfold liftR, verify_authentication; rewrite Hver; cbn [require_some mbind result_bind]; by rewrite Hu).
  cbn [va_credential_id va_new_sign_count]. rewrite (bool_decide_eq_true_2 _ Hid), (proj2 (Z.ltb_ge _ _)) by lia. cbn [negb orb].
  erewrite bind_run_Ok by (unfold lift_repo; by rewrite lease_request_made). set (q := mkLeaseRequest _ _ _ _ _ _ _).
  destruct (complete_recovery_runs r1 c cr (la_new_sign_count v) q (py_request_id p) now') as (rec & r' & Hrec & Hproof); try done; [by rewrite Fx|].
  rewrite Pe. erewrite bind_run_Ok by (by apply on_repo_Ok).
  pose proof (recovery_grants (ch_id c) (ch_digest c) (r_freeze_epoch r1) (cr_id cr) (la_new_sign_count v) q (py_request_id p) now' r1 Hr1) as Hg. rewrite Hrec in Hg.
  destruct Hg as (Hl & _ & _ & Hfe & _ & [G1 _ _ (G4 & G5 & _) _ G6]). assert (Hepoch := ri_epochs _ Hr1).
  set (proof := mkRecoveryProof _ _ _ _). assert (Hp : make_recovery_proof proof = Ok proof).
  { unfold make_recovery_proof, proof. cbn [rp_recovery_id rp_authority_epoch rp_freeze_epoch rp_repository_proof]. rewrite Hl, Hfe. cbn [new_lease l_epoch].
    rewrite Pr, Hblank, !(proj2 (Z.ltb_ge _ _)) by lia. by destruct (rr_proof rec). }
  erewrite bind_run_Ok by (unfold lift_latch; by rewrite Hp). eexists _, r'. split; [done|]. cbn [rx_lease rx_proof proof rp_freeze_epoch rp_recovery_id].
  split_and!; try done; [by rewrite Hl|by rewrite Hfe].
Qed.
End Honest.

(** * Concrete ceremonies: witnesses, and two cases the service leaves open *)

(** A stand-in library: a response repeats the challenge, the key and a counter. *)
Definition toy_registration (response : json) (challenge _rp _origin : string) : option LibRegistration :=
  match response with
  | JList [JStr c; JStr k; JInt n] => if bool_decide (c = challenge) then Some (mkLibRegistration ("id-" +:+ k) k n true) else None
  | _ => None
  end.
Definition toy_authentication (response : json) (challenge _rp _origin key : string) (_ : Z) : option LibAuthentication :=
  match response with
  | JList [JStr c; JStr k; JInt n] => if bool_decide (c = challenge) && bool_decide (k = key) then Some (mkLibAuthentication ("id-" +:+ k) n true) else None
  | _ => None
  end.
#[local] Instance toy_lib : WebAuthnLib := {| lib_verify_registration := toy_registration; lib_verify_authentication := toy_authentication |}.

Definition toy_service : Service :=
  mkService "jerry" "guild" ["general"; "ops"] "olympus.example" "Olympus" "https://olympus.example" (minutes 5) (hours 12).

Definition value_of (c : ascii) : string := String.string_of_list_ascii (repeat c 32).
Definition answer (c : ascii) (key : string) (n : Z) : json := JList [JStr (value_of c); JStr key; JInt n].

(** Enroll one key, then authenticate with it. *)
Definition enrolled : Repo :=
  final (finish_registration toy_service "challenge-u1" (answer "a" "k1" 0) 1
    (final (begin_registration toy_service BOOTSTRAP_REGISTRATION true (value_of "a") "u1" 0 empty_repo))).
Definition opened : Repo := final (begin_authentication toy_service (value_of "b") "u2" 2 enrolled).
Definition presented : Presented := mkPresented "challenge-u2" "id-k1" (answer "b" "k1" 1) 3.
Definition leased : Repo :=
  final (finish_authentication toy_service (pr_challenge_id presented) (pr_credential_id presented) (pr_response presented) "u3" (pr_at presented) opened).

Lemma enrolled_reach : wa_reach toy_service enrolled [].
Proof. apply wr_finish_registration, wr_begin_registration. eexists _, _, _. apply ws_start. Qed.

Lemma some_inv {A} (Q : A → Prop) (o : option A) : match o with Some a => Q a | None => False end → ∃ a, o = Some a ∧ Q a.
Proof. destruct o; [eauto|done]. Qed.

Lemma lease_provenance_witness :
  (∃ l, dget "lease-u3" (r_leases leased) = Some l ∧ l_revoked_at l = None) ∧
  ∃ C K L, wa_sys toy_service leased C K [presented] L ∧ NoDup (map (λ e, ch_value (is_challenge e)) L) ∧
    ∃ e, e ∈ L ∧ l_id (is_lease e) = "lease-u3" ∧ verified_credential toy_service e.
Proof.
  assert (Hl : ∃ l, dget "lease-u3" (r_leases leased) = Some l ∧ l_revoked_at l = None).
  { apply (some_inv (λ l, l_revoked_at l = None)). vm_compute. reflexivity. }
  split; [exact Hl|]. destruct Hl as (l & Hl & _).
  assert (Hr : wa_reach toy_service leased [presented]) by apply wr_finish_authentication, wr_begin_authentication, enrolled_reach.
  destruct Hr as (C & K & L & Hs). exists C, K, L. split; [exact Hs|].
  destruct (lease_provenance toy_service leased C K [presented] L Hs) as (H1 & H2 & H3). split; [exact H2|].
  destruct (H1 "lease-u3" l Hl) as (e & He & Hid & _). exists e. split; [exact He|]. split; [exact Hid|]. apply (H3 e He).
Defined.

Definition iced : Repo := final (freeze "f1" "operator-request" 4 leased).
Definition key1 : Credential := mkCredential "id-k1" "jerry" "k1" 1 1 None.

Lemma recovery_completes_witness :
  r_frozen iced = true ∧
  ∃ x r', finish_recovery toy_service "challenge-u5" "id-k1" (answer "c" "k1" 2) "u6" 6
            (final (begin_recovery toy_service "recovery-1" "id-k1" (value_of "c") "u5" 5 iced)) = (Ok x, r') ∧ r_frozen r' = false.
Proof.
  assert (Hr : wa_reach toy_service iced [presented]) by apply wr_freeze, wr_finish_authentication, wr_begin_authentication, enrolled_reach.
  assert (Hf : r_frozen iced = true) by (vm_compute; reflexivity). split; [exact Hf|].
  destruct (recovery_completes toy_service iced [presented] "recovery-1" key1 (value_of "c") "u5" 5 (answer "c" "k1" 2) (mkLibAuthentication "id-k1" 2 true) "u6" 6)
    as (_ & x & r' & Hx & Hn & _).
  - reflexivity.
  - exact Hr.
  - exact Hf.
  - vm_compute; reflexivity.
  - vm_compute; reflexivity.
  - reflexivity.
  - vm_compute; reflexivity.
  - split; [vm_compute; reflexivity|]. vm_compute. repeat constructor; intros Hz; discriminate Hz.
  - vm_compute; reflexivity.
  - vm_compute; split; congruence.
  - vm_compute; split; congruence.
  - vm_compute; congruence.
  - vm_compute; reflexivity.
  - reflexivity.
  - reflexivity.
  - cbn; lia.
  - exists x, r'. split; [exact Hx|exact Hn].
Defined.

(** Only [begin_registration] looks at the number of credentials and at the bootstrap switch: two ceremonies begun before the
    first enrollment both enroll, the second one after bootstrap is over. *)
Example two_bootstrap_credentials :
  let r0 := final (begin_registration toy_service BOOTSTRAP_REGISTRATION true (value_of "a") "u1" 0 empty_repo) in
  let r1 := final (begin_registration toy_service BOOTSTRAP_REGISTRATION true (value_of "b") "u2" 0 r0) in
  let r2 := final (finish_registration toy_service "challenge-u1" (answer "a" "k1" 0) 1 r1) in
  let p := finish_registration toy_service "challenge-u2" (answer "b" "k2" 0) 2 r2 in
  is_ok (outcome p) = true ∧ length (dvalues (r_credentials (final p))) = 2%nat.
Proof. vm_compute. split; reflexivity. Qed.

(** A recovery with a blank request identity thaws the system and issues a lease, then raises: the caller never gets the
    proof that clears the latch. *)
Example blank_recovery_thaws_and_raises :
  let p := finish_recovery toy_service "challenge-u5" "id-k1" (answer "c" "k1" 2) "u6" 6
            (final (begin_recovery toy_service " " "id-k1" (value_of "c") "u5" 5 iced)) in
  is_ok (outcome p) = false ∧ r_frozen (final p) = false ∧ r_active (final p) = Some "lease-u6".
Proof. vm_compute. split_and!; reflexivity. Qed.
