(* ===== verification/Commands.v ===== *)
(** The command envelope of src/olympus/contracts/commands.py: what a command carries from the gateway to its workflow. *)

From S2P Require Import Prelude PyTime PyParse NodeModels GraphCompiler.

Open Scope Z_scope.

Inductive JobStatus := JS_ACCEPTED | JS_COMPILED | JS_CANCELLED | JS_FROZEN | JS_FAILED.

(** [CommandEnvelope]; its fields have their types, so the type checks of the constructor cannot fail *)
Record Envelope := mkEnvelope {
  en_job_id : string;
  en_commander_id : string;
  en_authority_lease_id : string;
  en_command_text : string;
  en_received_at : string;
  en_guild_id : string;
  en_channel_id : string;
  en_interaction_id : string;
  en_authority_epoch : Z;
  en_trust_label : TrustLabel;
  en_max_nodes : Z;
  en_max_fan_out : Z;
  en_status : JobStatus }.

Definition COMMANDER : string := "628053765181800448".

(** [datetime.fromisoformat(s)] succeeds, with a zone, and gives back [s]; the zone is UTC, as for every time here *)
Definition canonical_time (s : string) : bool :=
  match fromisoformat s with Some t => bool_decide (isoformat t = s) | None => false end.

Inductive envelope_exn := EnvelopeValueError (msg : string).

(** [CommandEnvelope.__post_init__] *)
Definition make_envelope (e : Envelope) : result envelope_exn Envelope :=
  ensure (forallb (λ v, negb (is_blank v)) [en_job_id e; en_commander_id e; en_guild_id e; en_channel_id e; en_interaction_id e;
    en_authority_lease_id e; en_command_text e; en_received_at e]) (EnvelopeValueError "command envelope contains empty fields");;
  ensure (str_len (en_command_text e) <=? 8000) (EnvelopeValueError "command_text must be at most 8000 characters");;
  ensure (1 <=? en_authority_epoch e) (EnvelopeValueError "authority_epoch must be strictly positive");;
  ensure (negb (bool_decide (en_commander_id e = COMMANDER) &&
    existsb (starts_with "development-") [en_guild_id e; en_channel_id e; en_interaction_id e]))
    (EnvelopeValueError "production commander requires literal Discord identity evidence");;
  ensure ((1 <=? en_max_nodes e) && (en_max_nodes e <=? 128)) (EnvelopeValueError "max_nodes must be between 1 and 128");;
  ensure ((1 <=? en_max_fan_out e) && (en_max_fan_out e <=? 16)) (EnvelopeValueError "max_fan_out must be between 1 and 16");;
  ensure (canonical_time (en_received_at e)) (EnvelopeValueError "received_at must be a canonical ISO-8601 timestamp");;
  Ok e.

(** The fields the graph compiler reads *)
Definition compiler_view (e : Envelope) : CommandEnvelope :=
  mkCommand (en_job_id e) (en_authority_lease_id e) (en_command_text e) (en_trust_label e) (en_max_nodes e) (en_max_fan_out e).
