(* ===== verification/Discord.v ===== *)
(** Discord ingress: request verification (src/olympus/discord/verify.py), the interaction records (contracts.py) and the
    command service (service.py), over the authority repository, the emergency latch and a workflow gateway.

    Ed25519 verification and the workflow gateway are parameters; the calls made on the gateway are recorded in order,
    those that raise included. [handle] awaits the repository between reading the active lease and admitting, so it
    ends in [handle_admitted] under the lease it read; other calls may run in between. *)

From S2P Require Import Prelude PyDict PyTime Sha256 Json PyParse NodeModels AuthorityRepository EmergencyLatch Commands.
From Stdlib Require Import Ascii.

Open Scope Z_scope.

Inductive discord_exn :=
  | DiscordVerificationError (msg : string)
  | DiscordAdmissionDenied (msg : string)
  | DiscordValueError (msg : string)
  | DiscordRepo (e : repo_exn)
  | DiscordLatch (e : latch_exn)
  | DiscordEnvelope (e : envelope_exn)
  | WorkflowError.

(** ** Verification of a request *)

Record VerifiedDiscordRequest := mkVerifiedRequest { vd_raw_body : string; vd_signed_at : datetime }.

(** [datetime.fromtimestamp(n, tz=UTC)]: the years 1 to 9999 *)
Definition fromtimestamp (n : Z) : option datetime :=
  if (-62135596800 <=? n) && (n <=? 253402300799) then Some (seconds n) else None.

(** [s.encode("ascii")] *)
Definition encode_ascii (s : string) : option string := if all_chars (λ c, ord c <? 128)%nat s then Some s else None.

Section Verify.
(** [VerifyKey(key).verify(message, signature)]: raises on a key or signature of the wrong length as on a bad signature *)
Context (nacl_verify : string → string → string → bool).

(** [verify_discord_request]; times are aware *)
Definition verify_discord_request (raw_body : string) (signature_values timestamp_values : list string) (public_key : string)
    (now : datetime) (tolerance : Z) : result discord_exn VerifiedDiscordRequest :=
  match signature_values, timestamp_values with
  | [sig], [timestamp] =>
      ensure (0 <? tolerance) (DiscordValueError "tolerance must be positive");;
      signed_at ← require_some (n ← int_of_str timestamp; fromtimestamp n) (DiscordVerificationError "invalid Discord timestamp");
      ensure (Z.abs (now - signed_at) <=? tolerance) (DiscordVerificationError "Discord timestamp is outside tolerance");;
      let verified := match fromhex sig, encode_ascii timestamp with
                      | Some signature, Some t => nacl_verify public_key (t +:+ raw_body) signature
                      | _, _ => false
                      end in
      ensure verified (DiscordVerificationError "invalid Discord signature");;
      Ok (mkVerifiedRequest raw_body signed_at)
  | _, _ => Err (DiscordVerificationError "exactly one signature and timestamp are required")
  end.
End Verify.

(** ** Interactions *)

Record DiscordCommandOption := mkOption { op_name : string; op_value : string }.
Record DiscordInteraction := mkInteraction {
  di_id : string;
  di_guild_id : string;
  di_channel_id : string;
  di_user_id : string;
  di_command_id : string;
  di_options : list DiscordCommandOption }.

Record DiscordCommandIds := mkCommandIds {
  id_command : string; id_freeze : string; id_inspect : string; id_pause : string; id_cancel : string; id_resume : string }.

(** [DiscordCommandIds.__post_init__] *)
Definition make_command_ids (c : DiscordCommandIds) : result discord_exn DiscordCommandIds :=
  ensure (bool_decide (NoDup [id_command c; id_freeze c; id_inspect c; id_pause c; id_cancel c; id_resume c]))
    (DiscordValueError "Discord command IDs must be unique");;
  Ok c.

Record DiscordCommandResponse := mkResponse { rs_status : string; rs_workflow_id : option string; rs_detail : option json }.

Definition required_option (options : list DiscordCommandOption) (name : string) : result discord_exn string :=
  match map op_value (List.filter (λ o, bool_decide (op_name o = name)) options) with
  | [v] => Ok v
  | _ => Err (DiscordAdmissionDenied ("exactly one " +:+ name +:+ " option is required"))
  end.

(** ** The service *)

Record DiscordService := mkDiscordService {
  ds_commander_id : string;
  ds_guild_id : string;
  ds_channel_ids : list string;
  ds_command_ids : DiscordCommandIds }.

Definition scope_digest (s : DiscordService) : string := sha256 (dumps (JList (map JStr (sorted (ds_channel_ids s))))).

(** What the workflow gateway was asked to do, oldest first, and whether the call returned. *)
Inductive gateway_call :=
  | Started (command : Envelope) (workflow_id : string) (ok : bool)
  | Signalled (workflow_id action control_id : string) (ok : bool)
  | Inspected (workflow_id : string) (ok : bool).

Class WorkflowGateway := {
  gw_start : list gateway_call → Envelope → string → bool;
  gw_signal : list gateway_call → string → string → string → bool;
  gw_inspect : list gateway_call → string → option json }.

Record DiscordWorld := mkWorld { dw_repo : Repo; dw_latch : LatchDir; dw_calls : list gateway_call }.

Notation DS := (St DiscordWorld discord_exn).

Definition on_authority {A} (m : RM A) : DS A := λ w,
  let '(x, r) := m (dw_repo w) in
  (match x with Ok a => Ok a | Err e => Err (DiscordRepo e) end, mkWorld r (dw_latch w) (dw_calls w)).
Definition on_latch {A} (m : St LatchDir latch_exn A) : DS A := λ w,
  let '(x, d) := m (dw_latch w) in
  (match x with Ok a => Ok a | Err e => Err (DiscordLatch e) end, mkWorld (dw_repo w) d (dw_calls w)).
Definition called (c : gateway_call) (w : DiscordWorld) : DiscordWorld := mkWorld (dw_repo w) (dw_latch w) (dw_calls w ++ [c]).

Definition control_id_of (i : DiscordInteraction) : string := "discord-" +:+ di_id i.

Section Service.
Context `{WorkflowGateway} (sign : string → string) (verify : string → string → bool) (s : DiscordService).

Definition start_command (c : Envelope) (workflow_id : string) : DS () := λ w,
  let ok := gw_start (dw_calls w) c workflow_id in ((if ok then Ok () else Err WorkflowError), called (Started c workflow_id ok) w).
Definition signal_control (workflow_id action control_id : string) : DS () := λ w,
  let ok := gw_signal (dw_calls w) workflow_id action control_id in
  ((if ok then Ok () else Err WorkflowError), called (Signalled workflow_id action control_id ok) w).
Definition inspect_workflow (workflow_id : string) : DS json := λ w,
  match gw_inspect (dw_calls w) workflow_id with
  | Some j => (Ok j, called (Inspected workflow_id true) w)
  | None => (Err WorkflowError, called (Inspected workflow_id false) w)
  end.

(** [_require_scope] *)
Definition require_scope (i : DiscordInteraction) : result discord_exn () :=
  ensure (bool_decide (di_user_id i = ds_commander_id s) && bool_decide (di_guild_id i = ds_guild_id s)
    && bool_decide (di_channel_id i ∈ ds_channel_ids s)) (DiscordAdmissionDenied "Discord identity is outside authorized scope").

Definition control_action (command_id : string) : option string :=
  let ids := ds_command_ids s in
  if bool_decide (command_id = id_pause ids) then Some "pause"
  else if bool_decide (command_id = id_cancel ids) then Some "cancel"
  else if bool_decide (command_id = id_resume ids) then Some "resume" else None.

Definition envelope_for (i : DiscordInteraction) (lease : AuthorityLease) (workflow_id text : string) (now : datetime) : Envelope :=
  mkEnvelope workflow_id (ds_commander_id s) (l_id lease) text (isoformat now) (ds_guild_id s) (di_channel_id i) (di_id i) (l_epoch lease)
    USER_AUTHORIZED 32 4 JS_ACCEPTED.

Definition lift_d {A} (r : result discord_exn A) : DS A := λ w, (r, w).
Definition lift_envelope {A} (r : result envelope_exn A) : DS A := λ w, (match r with Ok a => Ok a | Err e => Err (DiscordEnvelope e) end, w).

(** [handle] after the admission *)
Definition handle_rest (i : DiscordInteraction) (now : datetime) (lease : AuthorityLease) (admission : AdmissionReceipt) : DS DiscordCommandResponse :=
  if bool_decide (di_command_id i = id_command (ds_command_ids s)) then
    option ← lift_d (required_option (di_options i) "command");
    let text := strip option in
    check (negb (is_empty text || (8000 <? str_len text))) (DiscordAdmissionDenied "command text is invalid");;
    command ← lift_envelope (make_envelope (envelope_for i lease (rc_workflow admission) text now));
    (if rc_duplicate admission then mret () else start_command command (rc_workflow admission));;
    mret (mkResponse "accepted" (Some (rc_workflow admission)) None)
  else
    action ← some_or (control_action (di_command_id i)) (DiscordAdmissionDenied "Discord command ID is not registered");
    workflow_id ← lift_d (required_option (di_options i) "job_id");
    signal_control workflow_id action (control_id_of i);;
    mret (mkResponse action (Some workflow_id) None).

(** [handle] from [admit] on, under the lease it read *)
Definition handle_admitted (i : DiscordInteraction) (raw_body : string) (now : datetime) (lease : AuthorityLease) : DS DiscordCommandResponse :=
  admission ← on_authority (admit_interaction (mkAdmission (di_id i) (sha256 raw_body) (ds_commander_id s) (ds_guild_id s) (scope_digest s)
    (l_id lease) (l_epoch lease) now));
  handle_rest i now lease admission.

(** [handle]; [fault] is the step of writing the latch that fails, if one does *)
Definition handle (i : DiscordInteraction) (raw_body : string) (now : datetime) (fault : option write_step) : DS DiscordCommandResponse :=
  let ids := ds_command_ids s in
  lift_d (require_scope i);;
  if bool_decide (di_command_id i = id_freeze ids) then
    on_latch (set_latch sign verify (control_id_of i) OPERATOR_REQUEST now fault);;
    on_authority (freeze (control_id_of i) "operator-request" now);;
    mret (mkResponse "frozen" None None)
  else if bool_decide (di_command_id i = id_inspect ids) then
    workflow_id ← lift_d (required_option (di_options i) "job_id");
    detail ← inspect_workflow workflow_id;
    mret (mkResponse "inspected" (Some workflow_id) (Some detail))
  else
    check (bool_decide (di_command_id i ∈ [id_command ids; id_pause ids; id_cancel ids; id_resume ids]))
      (DiscordAdmissionDenied "Discord command ID is not registered");;
    held ← on_authority active_lease;
    lease ← some_or held (DiscordAdmissionDenied "an active authority lease is required");
    check (negb (l_expires_at lease <=? now)) (DiscordAdmissionDenied "an active authority lease is required");;
    handle_admitted i raw_body now lease.
End Service.
