(* ===== verification/DiscordFacts.v ===== *)
(** What the Discord service starts and signals, and what an operator's freeze stops. *)

From S2P Require Import Prelude PyDict PyTime Sha256 Json PyParse NodeModels AuthorityRepository AuthorityFacts EmergencyLatch Commands Discord.
From Stdlib Require Import Ascii.

Open Scope Z_scope.

Section Facts.
Context `{WorkflowGateway} (sign : string → string) (verify : string → string → bool) (s : DiscordService).

(** ** Scope and authority *)

Definition in_scope (i : DiscordInteraction) : Prop :=
  di_user_id i = ds_commander_id s ∧ di_guild_id i = ds_guild_id s ∧ di_channel_id i ∈ ds_channel_ids s.

Lemma require_scope_Ok i x : require_scope s i = Ok x → in_scope i.
Proof. unfold require_scope. intros H1%ensure_Ok. bool_to_prop. by split_and!. Qed.

Definition admission (i : DiscordInteraction) (raw_body : string) (now : datetime) (lease : AuthorityLease) : AdmissionRequest :=
  mkAdmission (di_id i) (sha256 raw_body) (ds_commander_id s) (ds_guild_id s) (scope_digest s) (l_id lease) (l_epoch lease) now.

(** The constructor accepts the request the handler builds, so leaving its check out of the handler loses nothing. *)
Lemma admission_made i raw_body now lease : make_admission (admission i raw_body now lease) = Ok (admission i raw_body now lease).
Proof. unfold make_admission, admission, is_digest, str_len, scope_digest. cbn [aq_digest aq_channel]. by rewrite !sha256_length. Qed.

(** The command a started workflow was given. *)
Definition commanded (i : DiscordInteraction) (lease : AuthorityLease) (workflow_id : string) (c : Envelope) : Prop :=
  en_job_id c = workflow_id ∧ en_interaction_id c = di_id i ∧ en_commander_id c = ds_commander_id s ∧ en_guild_id c = ds_guild_id s ∧
  en_channel_id c = di_channel_id i ∧ en_authority_lease_id c = l_id lease ∧ en_authority_epoch c = l_epoch lease ∧
  make_envelope c = Ok c.

Definition control_actions : list string := ["pause"; "cancel"; "resume"].

(** The calls an admitted interaction may make: none, one start of its own workflow if it is not a repetition, or one signal. *)
Definition one_call (i : DiscordInteraction) (lease : AuthorityLease) (p : AdmissionReceipt) (calls calls' : list gateway_call) : Prop :=
  calls' = calls ∨
  (∃ c ok, rc_duplicate p = false ∧ commanded i lease (rc_workflow p) c ∧ calls' = calls ++ [Started c (rc_workflow p) ok]) ∨
  (∃ wf action ok, action ∈ control_actions ∧ calls' = calls ++ [Signalled wf action (control_id_of i) ok]).

Lemma make_envelope_Ok e e' : make_envelope e = Ok e' → e' = e ∧ make_envelope e = Ok e.
Proof.
  intros He. assert (e' = e) as ->; [|done]. revert He. unfold make_envelope.
  intros (? & _ & H1)%bind_Ok. do 6 apply bind_Ok in H1 as (? & _ & H1). congruence.
Qed.

Lemma control_action_in c a : control_action s c = Some a → a ∈ control_actions.
Proof. unfold control_action. repeat case_bool_decide; intros [= <-]; set_solver. Qed.

Lemma handle_rest_run i now lease p w :
  let w' := final (handle_rest s i now lease p w) in
  dw_latch w' = dw_latch w ∧ dw_repo w' = dw_repo w ∧ one_call i lease p (dw_calls w) (dw_calls w').
Proof.
  unfold handle_rest, final. case_bool_decide.
  - unfold lift_d, check, lift_envelope, mbind, st_bind, mret, st_ret. destruct (required_option _ _) as [t|]; [|by split_and!; try left].
    destruct (ensure _ _); [|by split_and!; try left]. destruct (make_envelope _) as [c|] eqn:Hc; [|by split_and!; try left].
    apply make_envelope_Ok in Hc as (-> & Hb). destruct (rc_duplicate p) eqn:Hd; [by split_and!; try left|].
    unfold start_command. destruct (gw_start _ _ _) eqn:Hg; (split_and!; [done|done|]); right; left; eexists _, _; split_and!; try done; by split_and!.
  - unfold some_or, lift_d, mbind, st_bind, mret, st_ret. destruct (require_some _ _) as [a|] eqn:Ha; [|by split_and!; try left]. assert (Hin : a ∈ control_actions)
      by (apply (control_action_in (di_command_id i)); destruct (control_action _ _); cbn in Ha; congruence).
    destruct (required_option _ _) as [wf|]; [|by split_and!; try left]. unfold signal_control.
    destruct (gw_signal _ _ _ _); (split_and!; [done|done|]); right; right; by eexists _, _, _.
Qed.

Lemma handle_admitted_run i raw_body now lease w :
  let '(r, w') := handle_admitted s i raw_body now lease w in
  dw_latch w' = dw_latch w ∧
  match admit_interaction (admission i raw_body now lease) (dw_repo w) with
  | (Err _, r') => dw_repo w' = r' ∧ dw_calls w' = dw_calls w
  | (Ok p, r') => dw_repo w' = r' ∧ one_call i lease p (dw_calls w) (dw_calls w')
  end.
Proof.
  unfold handle_admitted. fold (admission i raw_body now lease). unfold mbind, st_bind, on_authority.
  destruct (admit_interaction (admission i raw_body now lease) (dw_repo w)) as [[p|e] r']; [|done].
  pose proof (handle_rest_run i now lease p (mkWorld r' (dw_latch w) (dw_calls w))) as (H1 & H2 & H3).
  unfold final in *. by destruct (handle_rest s i now lease p _).
Qed.

(** ** Histories *)

(** A step of the world the service lives in: an interaction, or the rest of one whose lease was read earlier; a call of the
    repository by another task; anything that happens to the latch file. *)
Inductive dc_step : DiscordWorld → DiscordWorld → Prop :=
  | dcs_handle i raw_body now fault w : dc_step w (final (handle sign verify s i raw_body now fault w))
  | dcs_resumed i raw_body now lease w : in_scope i → dc_step w (final (handle_admitted s i raw_body now lease w))
  | dcs_repo w r : repo_step (dw_repo w) r → dc_step w (mkWorld r (dw_latch w) (dw_calls w))
  | dcs_latch w d : dc_step w (mkWorld (dw_repo w) d (dw_calls w)).

(** Worlds the service can reach. *)
Inductive dc_reach : DiscordWorld → Prop :=
  | dc_start r d : reachable r → dc_reach (mkWorld r d [])
  | dc_next w w' : dc_reach w → dc_step w w' → dc_reach w'.

Definition started_id (c : gateway_call) : option string := match c with Started _ wf _ => Some wf | _ => None end.

(** A start in the log is of the workflow of an interaction in scope, recorded under the lease the command names; a signal is
    one of three, under the control id of an interaction. *)
Definition call_ok (r : Repo) (c : gateway_call) : Prop :=
  match c with
  | Started e wf _ => ∃ p, dget (en_interaction_id e) (r_interactions r) = Some p ∧ wf = "discord-" +:+ en_interaction_id e ∧ en_job_id e = wf ∧
      rc_lease p.2 = en_authority_lease_id e ∧ rc_epoch p.2 = en_authority_epoch e ∧
      en_commander_id e = ds_commander_id s ∧ en_guild_id e = ds_guild_id s ∧ en_channel_id e ∈ ds_channel_ids s ∧ make_envelope e = Ok e
  | Signalled _ action id _ => action ∈ control_actions ∧ ∃ x, id = "discord-" +:+ x
  | Inspected _ _ => True
  end.

Record dc_inv (w : DiscordWorld) : Prop := {
  di_repo : repo_inv (dw_repo w);
  di_starts : Forall (call_ok (dw_repo w)) (dw_calls w);
  di_once : NoDup (omap started_id (dw_calls w)) }.

Lemma call_ok_mono r r' l : evolves r r' → Forall (call_ok r) l → Forall (call_ok r') l.
Proof.
  intros He Hl. eapply Forall_impl; [exact Hl|]. intros [e wf ok| |]; [|done..]. intros (p & Hp & Hrest). exists p. split; [|done]. by apply (ev_receipts _ _ He).
Qed.

Lemma dc_inv_repo w r : dc_inv w → good (dw_repo w) r → dc_inv (mkWorld r (dw_latch w) (dw_calls w)).
Proof. intros [H1 H2 H3] [Hg He]. split; [done|by eapply call_ok_mono|done]. Qed.

Lemma discord_prefix_inj (a b : string) : "discord-" +:+ a = "discord-" +:+ b → a = b.
Proof. cbn. by intros [= ->]. Qed.

Lemma admitted_inv i raw_body now lease w : dc_inv w → in_scope i → dc_inv (final (handle_admitted s i raw_body now lease w)).
Proof.
  intros [H1 H2 H3] Hsc. pose proof (handle_admitted_run i raw_body now lease w) as Hrun. unfold final.
  pose proof (admit_good (admission i raw_body now lease) (dw_repo w) H1) as Hg. pose proof (admit_cases (admission i raw_body now lease) (dw_repo w)) as Hc.
  destruct (handle_admitted s i raw_body now lease w) as [x w']. destruct Hrun as [_ Hrun]. cbn. unfold final in Hg.
  destruct (admit_interaction _ (dw_repo w)) as [[p|e] r'] eqn:Ea; cbn in Hg; destruct Hg as [Hinv Hev].
  2: { destruct Hrun as [Hr' Hcalls]. split; rewrite ?Hcalls, ?Hr'; try done. by eapply call_ok_mono. }
  destruct Hrun as [Hr' Hcall]. destruct w' as [rp lt cl]; cbn in *; subst rp. assert (Hold := call_ok_mono _ _ _ Hev H2).
  destruct Hcall as [->|[(c & ok & Hnd & Hcom & ->)|(wf & a & ok & Hact & ->)]]; [by split| |].
  - destruct Hc as [(p0 & _ & _ & ->)|(Hnone & _ & l & Hl & Ha & -> & ->)]; [done|]. cbn in *.
    destruct Hcom as (C1 & C2 & C3 & C4 & C5 & C6 & C7 & C8). apply lease_authorizes_spec in Ha as (_ & _ & Heq & _).
    assert (l_id l = l_id lease) as Hid by by apply (li_key _ _ _ (ri_lease _ H1)).
    split; cbn; [done| |].
    + apply Forall_app. split; [done|]. constructor; [|constructor]. cbn. rewrite C2, dget_dset_eq. eexists. split; [done|]. cbn.
      split_and!; try done; [by rewrite Hid, C6|by rewrite C7|by rewrite C5; apply Hsc].
    + rewrite omap_app. cbn. apply NoDup_app. split_and!; [done| |apply NoDup_singleton]. intros y Hx Hin%list_elem_of_singleton. subst y.
      apply list_elem_of_omap in Hx as (e & He & Hid'). destruct e as [e' wf ok'| |]; try done. injection Hid' as ->. rewrite Forall_forall in H2.
      destruct (H2 _ He) as (p & Hp & Hwf & _). apply discord_prefix_inj in Hwf. rewrite <- Hwf in Hp. cbn in Hnone. congruence.
  - split; cbn; [done| |].
    + apply Forall_app. split; [done|]. constructor; [|constructor]. split; [done|]. by eexists.
    + rewrite omap_app. cbn. by rewrite app_nil_r.
Qed.

(** What [handle] does besides acting on workflows: the freeze command, an inspection, or a refusal. *)
Definition harmless (i : DiscordInteraction) (now : datetime) (w w' : DiscordWorld) : Prop :=
  (dw_repo w' = dw_repo w ∨ dw_repo w' = final (freeze (control_id_of i) "operator-request" now (dw_repo w))) ∧
  (dw_calls w' = dw_calls w ∨ ∃ wf ok, dw_calls w' = dw_calls w ++ [Inspected wf ok]).

Lemma handle_cases i raw_body now fault w :
  let p := handle sign verify s i raw_body now fault w in
  harmless i now w (final p) ∨
  (in_scope i ∧ ∃ lease j, r_active (dw_repo w) = Some j ∧ dget j (r_leases (dw_repo w)) = Some lease ∧ l_revoked_at lease = None ∧
     now < l_expires_at lease ∧ p = handle_admitted s i raw_body now lease w).
Proof.
  intros p. subst p. unfold handle. destruct (require_scope s i) as [[]|e] eqn:Esc.
  2: { left. erewrite bind_run_Err by done. split; by left. }
  erewrite bind_run_Ok by done. apply require_scope_Ok in Esc. case_bool_decide.
  { left. unfold on_latch, on_authority, mbind, st_bind, mret, st_ret. destruct (set_latch sign verify _ _ now fault (dw_latch w)) as [[[]|e] d]; [|split; by left].
    unfold harmless, final. cbn. destruct (freeze _ _ now (dw_repo w)) as [[|] r']; (split; [by right|by left]). }
  case_bool_decide.
  { left. unfold lift_d, inspect_workflow, mbind, st_bind, mret, st_ret. destruct (required_option _ _); [|split; by left].
    destruct (gw_inspect _ _); split; try (by left); right; by eexists _, _. }
  unfold check, on_authority, some_or, mbind, st_bind. destruct (ensure _ _); [|left; split; by left].
  pose proof (active_lease_run (dw_repo w)) as Hal. destruct (active_lease (dw_repo w)) as [[held|e] r']; destruct Hal as [-> Hl].
  2: { left. by split; left. }
  destruct held as [lease|]; cbn [require_some]; [|left; split; by left]. destruct (l_expires_at lease <=? now) eqn:Ee; cbn [negb ensure]; [left; split; by left|].
  right. split; [done|]. destruct (Hl lease eq_refl) as (j & J1 & J2 & J3). exists lease, j. assert (now < l_expires_at lease) by (bool_to_prop; lia). split_and!; try done; by destruct w.
Qed.

Lemma harmless_inv i now w w' : dc_inv w → harmless i now w w' → dc_inv w'.
Proof.
  intros [H1 H2 H3] [Hr Hc]. assert (Hg : good (dw_repo w) (dw_repo w')).
  { destruct Hr as [->| ->]; [by split|]. by apply freeze_good. }
  destruct Hg as [Hi He]. split; [done| |].
  - destruct Hc as [->|(wf & ok & ->)]; [by eapply call_ok_mono|]. apply Forall_app. split; [by eapply call_ok_mono|]. by repeat constructor.
  - destruct Hc as [->|(wf & ok & ->)]; [done|]. rewrite omap_app. cbn. by rewrite app_nil_r.
Qed.

Lemma dc_step_inv w w' : dc_step w w' → dc_inv w → dc_inv w'.
Proof.
  intros [i raw_body now fault w0|i raw_body now lease w0 Hsc|w0 r Hs|w0 d] IH.
  - pose proof (handle_cases i raw_body now fault w0) as [Hh|(Hsc & lease & j & _ & _ & _ & _ & ->)]; [by eapply harmless_inv|by apply admitted_inv].
  - by apply admitted_inv.
  - apply dc_inv_repo; [done|]. apply step_good; [done|apply IH].
  - destruct IH. by split.
Qed.

Lemma dc_reach_inv w : dc_reach w → dc_inv w.
Proof. induction 1; [split; [by apply reachable_inv|constructor|constructor]|by eapply dc_step_inv]. Qed.

(** C33. A Discord command starts at most one workflow, and only its own: over any history of interactions, repetitions and
    concurrent calls of the repository, the workflows asked for are pairwise distinct, each is named after an interaction of
    the commander in the guild and an allowed channel, which the repository admitted under exactly the lease and epoch the
    command carries. *)
Theorem discord_starts_once w : dc_reach w →
  NoDup (omap started_id (dw_calls w)) ∧
  ∀ e wf ok, Started e wf ok ∈ dw_calls w →
    wf = "discord-" +:+ en_interaction_id e ∧ en_job_id e = wf ∧ en_commander_id e = ds_commander_id s ∧ en_guild_id e = ds_guild_id s ∧
    en_channel_id e ∈ ds_channel_ids s ∧
    ∃ digest receipt, dget (en_interaction_id e) (r_interactions (dw_repo w)) = Some (digest, receipt) ∧
      rc_lease receipt = en_authority_lease_id e ∧ rc_epoch receipt = en_authority_epoch e.
Proof.
  intros [_ Hs Hn]%dc_reach_inv. split; [done|]. intros e wf ok Hin. rewrite Forall_forall in Hs.
  destruct (Hs _ Hin) as ([digest receipt] & H1 & H2 & H3 & H4 & H5 & H6 & H7 & H8 & _). split_and!; try done. by exists digest, receipt.
Qed.

(** ** The operator's freeze *)

Lemma set_latch_Ok (Hsign : ∀ m, verify m (sign m) = true) id reason now fault d x d' :
  set_latch sign verify id reason now fault d = (Ok x, d') → is_set verify d' = Ok true.
Proof.
  destruct (decide (ld_path d = Absent)) as [Hp|Hp].
  - destruct d as [p n]. cbn in Hp. subst p. unfold set_latch, check. unfold mbind at 1, st_bind at 1. cbn [read ld_path]. rewrite bool_decide_eq_true_2 by done.
    destruct (is_blank id); [done|]. destruct fault as [[]|]; cbn; intros E; try done. injection E as _ <-. by apply written_is_set.
  - rewrite set_present by done. destruct (is_set verify d) as [b|] eqn:Es; cbn; [|done]. intros [= _ <-]. rewrite Es. f_equal.
    destruct b; [done|]. exfalso. unfold is_set in Es. destruct (ld_path d); [done| |]; destruct (read_envelope verify _); try done; cbn in Es; by case_bool_decide.
Qed.

(** What happens after the freeze, for as long as the repository stays frozen: any step, and the rest of the interactions that
    had been admitted before it. *)
Inductive dc_frozen (w1 : DiscordWorld) : DiscordWorld → Prop :=
  | df_now : dc_frozen w1 w1
  | df_step w w' : dc_frozen w1 w → dc_step w w' → r_frozen (dw_repo w') = true → dc_frozen w1 w'
  | df_late i now lease p w : dc_frozen w1 w → is_Some (dget (di_id i) (r_interactions (dw_repo w1))) →
      dc_frozen w1 (final (handle_rest s i now lease p w)).

(** A call that an interaction admitted in [r] makes: an inspection, the start of its workflow, or its signal. *)
Definition in_flight (r : Repo) (c : gateway_call) : Prop :=
  match c with
  | Inspected _ _ => True
  | Started e _ _ => is_Some (dget (en_interaction_id e) (r_interactions r))
  | Signalled _ _ id _ => ∃ x, id = "discord-" +:+ x ∧ is_Some (dget x (r_interactions r))
  end.

(** The calls one step adds. *)
Definition adds (r : Repo) (w w' : DiscordWorld) : Prop := ∃ more, dw_calls w' = dw_calls w ++ more ∧ Forall (in_flight r) more.

Lemma adds_none r w w' : dw_calls w' = dw_calls w → adds r w w'.
Proof. intros E. exists []. by rewrite app_nil_r. Qed.

Lemma adds_trans r w w1 w2 : adds r w w1 → adds r w1 w2 → adds r w w2.
Proof. intros (m1 & E1 & F1) (m2 & E2 & F2). exists (m1 ++ m2). rewrite E2, E1, app_assoc. split; [done|by apply Forall_app]. Qed.

Lemma harmless_adds i now w w' r : harmless i now w w' → adds r w w'.
Proof. intros [_ [E|(wf & ok & E)]]; [by apply adds_none|]. exists [Inspected wf ok]. split; [done|by repeat constructor]. Qed.

Lemma one_call_adds i lease p w w' r :
  one_call i lease p (dw_calls w) (dw_calls w') → is_Some (dget (di_id i) (r_interactions r)) → adds r w w'.
Proof.
  intros [E|[(c & ok & _ & (_ & Hi & _) & E)|(wf & a & ok & _ & E)]] Hr; [by apply adds_none|eexists; (split; [exact E|])..].
  - constructor; [|constructor]. cbn. by rewrite Hi.
  - constructor; [|constructor]. cbn. by exists (di_id i).
Qed.

(** In a frozen repository only an interaction that is on record passes the admission. *)
Lemma frozen_admits q r p r' : r_frozen r = true → admit_interaction q r = (Ok p, r') → is_Some (dget (aq_interaction q) (r_interactions r)).
Proof.
  intros Hf E. pose proof (admit_cases q r) as Hc. rewrite E in Hc. destruct Hc as [(p0 & -> & _)|(_ & ? & _)]; [done|congruence].
Qed.

Lemma frozen_handle i raw_body now fault w : repo_inv (dw_repo w) → r_frozen (dw_repo w) = true →
  harmless i now w (final (handle sign verify s i raw_body now fault w)).
Proof.
  intros Hr Hf. pose proof (handle_cases i raw_body now fault w) as [?|(_ & lease & j & Ha & _)]; [done|].
  exfalso. rewrite (ri_frozen _ Hr Hf) in Ha. done.
Qed.

Lemma frozen_step w w' : dc_step w w' → repo_inv (dw_repo w) → r_frozen (dw_repo w) = true →
  adds (dw_repo w) w w' ∧ r_interactions (dw_repo w') = r_interactions (dw_repo w).
Proof.
  intros [i raw_body now fault w0|i raw_body now lease w0 Hsc|w0 r Hs|w0 d] Hr Hf.
  - pose proof (frozen_handle i raw_body now fault w0 Hr Hf) as Hh. split; [by eapply harmless_adds|].
    destruct Hh as [[->| ->] _]; [done|]. apply frozen_interactions; [constructor|done].
  - pose proof (handle_admitted_run i raw_body now lease w0) as Hrun. unfold final. destruct (handle_admitted _ _ _ _ _ _) as [x wx].
    destruct Hrun as [_ Hrun]. cbn. pose proof (frozen_interactions _ _ (step_admit (admission i raw_body now lease) (dw_repo w0)) Hf) as Hi.
    unfold final in Hi. destruct (admit_interaction _ (dw_repo w0)) as [[p|e] r'] eqn:Ea; destruct Hrun as [-> Hc]; cbn in Hi; rewrite Hi.
    + split; [|done]. eapply one_call_adds; [done|]. by apply (frozen_admits _ _ _ _ Hf) in Ea.
    + by split; [apply adds_none|].
  - split; [by apply adds_none|]. by apply frozen_interactions.
  - by split; [apply adds_none|].
Qed.

Lemma dc_frozen_inv w1 w : dc_frozen w1 w → repo_inv (dw_repo w1) → r_frozen (dw_repo w1) = true →
  repo_inv (dw_repo w) ∧ r_frozen (dw_repo w) = true ∧ r_interactions (dw_repo w) = r_interactions (dw_repo w1) ∧ adds (dw_repo w1) w1 w.
Proof.
  intros Hw Hr Hf. induction Hw as [|w w' _ IH Hs Hf'|i now lease p w _ IH Hp]; [by split_and!; try apply adds_none| |].
  - destruct IH as (Hr1 & Hf1 & E1 & A1). destruct (frozen_step w w' Hs Hr1 Hf1) as [A2 E2].
    split_and!; [|done|congruence|].
    + destruct Hs as [i raw_body now fault w0|i raw_body now lease w0 Hsc|w0 r Hs|w0 d]; cbn; try done.
      * destruct (frozen_handle i raw_body now fault w0 Hr1 Hf1) as [[->| ->] _]; [done|]. by apply freeze_good.
      * pose proof (handle_admitted_run i raw_body now lease w0) as Hrun. pose proof (admit_good (admission i raw_body now lease) (dw_repo w0) Hr1) as [Hg _].
        unfold final in *. destruct (handle_admitted _ _ _ _ _ _) as [x wx]. destruct Hrun as [_ Hrun]. cbn.
        destruct (admit_interaction _ (dw_repo w0)) as [[p|e] r']; by destruct Hrun as [-> _].
      * by apply (step_good _ _ Hs).
    + eapply adds_trans; [exact A1|]. destruct A2 as (more & E & F). exists more. split; [done|].
      eapply Forall_impl; [exact F|]. unfold in_flight. rewrite E1. done.
  - destruct IH as (Hr1 & Hf1 & E1 & A1). pose proof (handle_rest_run i now lease p w) as (_ & -> & Hc).
    split_and!; try done. eapply adds_trans; [exact A1|]. by eapply one_call_adds.
Qed.

(** C34. An operator's freeze over Discord holds until the authority is recovered. When the freeze command is answered, the
    latch on disk reads as set and the repository is frozen without an active lease. Whatever happens after that (interactions
    new and in flight, other calls of the repository, changes of the latch file), as long as the repository has not been
    thawed by a recovery there is no active lease, no interaction is newly admitted, an interaction received now starts and
    signals no workflow, and every start or signal since the freeze belongs to an interaction the repository had admitted
    before it. *)
Theorem discord_freeze_stops i raw_body now fault w x w1 w2 :
  (∀ m, verify m (sign m) = true) → dc_reach w → di_command_id i = id_freeze (ds_command_ids s) →
  handle sign verify s i raw_body now fault w = (Ok x, w1) → dc_frozen w1 w2 →
  is_set verify (dw_latch w1) = Ok true ∧ r_frozen (dw_repo w1) = true ∧ r_active (dw_repo w1) = None ∧ dw_calls w1 = dw_calls w ∧
  r_active (dw_repo w2) = None ∧ r_interactions (dw_repo w2) = r_interactions (dw_repo w1) ∧
  (∀ j body at_ fault', let w3 := final (handle sign verify s j body at_ fault' w2) in
     dw_calls w3 = dw_calls w2 ∨ ∃ wf ok, dw_calls w3 = dw_calls w2 ++ [Inspected wf ok]) ∧
  ∃ more, dw_calls w2 = dw_calls w1 ++ more ∧ Forall (in_flight (dw_repo w1)) more.
Proof.
  intros Hsign Hreach Hid Hh Hs. apply dc_reach_inv in Hreach as [Hr _ _].
  assert (H1 : is_set verify (dw_latch w1) = Ok true ∧ repo_inv (dw_repo w1) ∧ r_frozen (dw_repo w1) = true ∧ dw_calls w1 = dw_calls w).
  { revert Hh. unfold handle. destruct (require_scope s i) as [[]|e] eqn:Esc; [|erewrite bind_run_Err by done; done].
    erewrite bind_run_Ok by done. rewrite bool_decide_eq_true_2 by done.
    unfold on_latch, on_authority, mbind, st_bind, mret, st_ret. destruct (set_latch sign verify _ _ now fault (dw_latch w)) as [[[]|e] d] eqn:El; [|done].
    cbn. pose proof (freeze_good (control_id_of i) "operator-request" now (dw_repo w) Hr) as [Hg _]. unfold final in Hg.
    pose proof (repo_freeze_run (control_id_of i) "operator-request" now (dw_repo w) Hr) as (_ & Hfz & _). unfold final in Hfz.
    destruct (freeze _ _ now (dw_repo w)) as [[fr|] r']; [|done]. intros [= _ <-]. cbn. split_and!; try done. by eapply set_latch_Ok. }
  destruct H1 as (L1 & R1 & F1 & C1).
  destruct (dc_frozen_inv w1 w2 Hs R1 F1) as (R2 & F2 & E2 & A2).
  split_and!; try done; [by apply (ri_frozen _ R1)|by apply (ri_frozen _ R2)|].
  intros j body at_ fault'. by destruct (frozen_handle j body at_ fault' w2 R2 F2).
Qed.
End Facts.

(** * Interactions on concrete inputs: witnesses, and two commands that do less than their reply says *)

(** A gateway whose first call fails, and one whose calls all return. *)
Definition flaky_gateway : WorkflowGateway :=
  {| gw_start := λ l _ _, match l with [] => false | _ => true end; gw_signal := λ _ _ _ _, true; gw_inspect := λ _ _, Some (JObj []) |}.
Definition steady_gateway : WorkflowGateway :=
  {| gw_start := λ _ _ _, true; gw_signal := λ _ _ _ _, true; gw_inspect := λ _ _, Some (JObj []) |}.

Definition demo_ids : DiscordCommandIds := mkCommandIds "1" "2" "3" "4" "5" "6".
Definition demo_service : DiscordService := mkDiscordService "jerry" "guild" ["ops"; "general"] demo_ids.
Definition from_jerry (id command : string) (options : list DiscordCommandOption) : DiscordInteraction :=
  mkInteraction id "guild" "ops" "jerry" command options.
Definition backup_command : DiscordInteraction := from_jerry "i1" "1" [mkOption "command" " run the backup "].
Definition freeze_command : DiscordInteraction := from_jerry "i2" "2" [].

Definition ready_repo : Repo :=
  final (issue_lease (mkLeaseRequest "lease-1" "jerry" "guild" (scope_digest demo_service) "cred" 0 (hours 12)) empty_repo).
Definition ready : DiscordWorld := mkWorld ready_repo (mkLatchDir Absent 0) [].

Lemma ready_repo_reachable : reachable ready_repo.
Proof. eapply rtc_r; [apply rtc_refl|]. constructor. Qed.

Definition run_steady (i : DiscordInteraction) (w : DiscordWorld) : result discord_exn DiscordCommandResponse * DiscordWorld :=
  @handle steady_gateway demo_sign demo_verify demo_service i "{}" (seconds 5) None w.
Definition run_flaky (i : DiscordInteraction) (w : DiscordWorld) : result discord_exn DiscordCommandResponse * DiscordWorld :=
  @handle flaky_gateway demo_sign demo_verify demo_service i "{}" (seconds 5) None w.

Definition backup_envelope : Envelope :=
  envelope_for demo_service backup_command (new_lease (mkLeaseRequest "lease-1" "jerry" "guild" (scope_digest demo_service) "cred" 0 (hours 12)) 2)
    "discord-i1" "run the backup" (seconds 5).

Definition twice : DiscordWorld := final (run_steady backup_command (final (run_steady backup_command ready))).

Lemma discord_starts_once_witness :
  dw_calls twice = [Started backup_envelope "discord-i1" true] ∧ NoDup (omap started_id (dw_calls twice)) ∧
  en_commander_id backup_envelope = "jerry".
Proof.
  assert (Hc : dw_calls twice = [Started backup_envelope "discord-i1" true]) by (vm_compute; reflexivity). split; [exact Hc|].
  destruct (@discord_starts_once steady_gateway demo_sign demo_verify demo_service twice) as [Hn Hs].
  { unfold twice, run_steady. by repeat (eapply dc_next; [|constructor]); apply dc_start, ready_repo_reachable. }
  split; [exact Hn|]. apply (Hs backup_envelope "discord-i1" true). rewrite Hc. left.
Defined.

Definition stopped : DiscordWorld := final (run_steady freeze_command ready).
Definition resume_command : DiscordInteraction := from_jerry "i3" "6" [mkOption "job_id" "discord-i1"].
Definition after_stop : DiscordWorld := final (run_steady backup_command (final (run_steady resume_command stopped))).

Lemma discord_freeze_stops_witness :
  is_set demo_verify (dw_latch stopped) = Ok true ∧ r_active (dw_repo after_stop) = None ∧ dw_calls stopped = [].
Proof.
  destruct (@discord_freeze_stops steady_gateway demo_sign demo_verify demo_service freeze_command "{}" (seconds 5) None ready
    (mkResponse "frozen" None None) stopped after_stop) as (H1 & _ & _ & H4 & H5 & _).
  - intros m. by apply bool_decide_eq_true_2.
  - apply dc_start, ready_repo_reachable.
  - reflexivity.
  - vm_compute. reflexivity.
  - unfold after_stop, run_steady. eapply df_step; [eapply df_step; [apply df_now|apply dcs_handle|]|apply dcs_handle|]; vm_compute; reflexivity.
  - split; [exact H1|]. split; [exact H5|exact H4].
Defined.

(** The interaction is admitted before the workflow is started: when the start fails, Discord's retry is answered as accepted
    and nothing is started. *)
Example failed_start_is_never_retried :
  let first := run_flaky backup_command ready in
  let second := run_flaky backup_command (final first) in
  outcome first = Err WorkflowError ∧ outcome second = Ok (mkResponse "accepted" (Some "discord-i1") None) ∧
  dw_calls (final second) = [Started backup_envelope "discord-i1" false].
Proof. vm_compute. split_and!; reflexivity. Qed.

(** The latch is set before the repository is frozen: over a corrupted latch file the freeze command raises and the lease stays
    in force. *)
Example corrupt_latch_blocks_freeze :
  let p := run_steady freeze_command (mkWorld ready_repo (mkLatchDir (Text "{}") 0) []) in
  is_ok (outcome p) = false ∧ r_frozen (dw_repo (final p)) = false ∧
  is_ok (outcome (run_steady backup_command (final p))) = true.
Proof. vm_compute. split_and!; reflexivity. Qed.
