(* ===== verification/Workflows.v ===== *)
(** The durable workflows: the control state and the command workflow (src/olympus/control/workflow.py,
    src/olympus/workflows/command.py, src/olympus/activities/compile_graph.py) and the node job workflow
    (src/olympus/workflows/node_job.py).

    Temporal delivers signals, fires timers, completes activities and ends executions; each of these is a labelled step. The
    worker handles the signals of an activation and looks at the wait condition before it fires a timer, so the wait can time
    out only while the condition does not hold. A signal handler that raises (on a blank control id) fails the workflow task:
    Temporal retries it on the same history, where it fails again, and only the execution timeout ends the run. *)

From S2P Require Import Prelude PyTime Json Redaction NodeModels NodeDispatch GraphCompiler Commands.

Open Scope Z_scope.

(** ** Control state *)

Inductive control_exn := ControlValueError (msg : string).

(** [WorkflowControlState] *)
Record Control := mkControl { ct_paused : bool; ct_cancelled : bool; ct_frozen : bool; ct_processed : list string }.
Definition new_control : Control := mkControl false false false [].

Notation CM := (St Control control_exn).

(** [_accept] *)
Definition accept (control_id : string) : CM bool :=
  check (negb (is_blank control_id)) (ControlValueError "control_id must not be empty");;
  c ← read;
  if bool_decide (control_id ∈ ct_processed c) then mret false
  else modify (λ c, mkControl (ct_paused c) (ct_cancelled c) (ct_frozen c) (ct_processed c ++ [control_id]));; mret true.

Definition when_accepted (control_id : string) (guard : Control → bool) (f : Control → Control) : CM () :=
  ok ← accept control_id; c ← read; if ok && guard c then modify f else mret ().

Definition set_paused (b : bool) (c : Control) : Control := mkControl b (ct_cancelled c) (ct_frozen c) (ct_processed c).

Definition control_pause (control_id : string) : CM () :=
  when_accepted control_id (λ c, negb (ct_cancelled c) && negb (ct_frozen c)) (set_paused true).
Definition control_resume (control_id : string) : CM () :=
  when_accepted control_id (λ c, negb (ct_cancelled c) && negb (ct_frozen c)) (set_paused false).
Definition control_cancel (control_id : string) : CM () :=
  when_accepted control_id (λ c, negb (ct_frozen c)) (λ c, mkControl false true (ct_frozen c) (ct_processed c)).
Definition control_freeze (control_id : string) : CM () :=
  when_accepted control_id (λ _, true) (λ c, mkControl false (ct_cancelled c) true (ct_processed c)).

Inductive signal := Pause | Resume | Cancel | Freeze.
#[export] Instance signal_eq : EqDecision signal.
Proof. solve_decision. Defined.

(** The signal handlers of [CommandWorkflow]; [handle.signal(action, ...)] finds them by name *)
Definition control_signal (a : signal) (control_id : string) : CM () :=
  match a with
  | Pause => control_pause control_id
  | Resume => control_resume control_id
  | Cancel => control_cancel control_id
  | Freeze => control_freeze control_id
  end.
Definition signal_name (a : signal) : string :=
  match a with Pause => "pause" | Resume => "resume" | Cancel => "cancel" | Freeze => "freeze" end.

(** [ControlSnapshot] *)
Record ControlSnapshot := mkSnapshot {
  sn_paused : bool; sn_cancelled : bool; sn_frozen : bool; sn_processed_control_ids : list string }.
Definition snapshot (c : Control) : ControlSnapshot :=
  mkSnapshot (ct_paused c) (ct_cancelled c) (ct_frozen c) (ct_processed c).

(** [ControlAction] and [ControlRequest] of src/olympus/control/models.py, with the [AuthorityContext] of
    src/olympus/authority/models.py *)
Inductive ControlAction := CA_FREEZE | CA_INSPECT | CA_PAUSE | CA_CANCEL | CA_RESUME | CA_UNFREEZE.
Definition targeted (a : ControlAction) : bool := match a with CA_INSPECT | CA_PAUSE | CA_CANCEL | CA_RESUME => true | _ => false end.

Record AuthorityContext := mkContext {
  ac_commander_id : string; ac_guild_id : string; ac_channel_id : string; ac_interaction_id : string;
  ac_authority_epoch : option Z; ac_lease_id : option string }.
Definition make_context (c : AuthorityContext) : result control_exn AuthorityContext :=
  ensure (forallb (λ v, negb (is_blank v)) [ac_commander_id c; ac_guild_id c; ac_channel_id c; ac_interaction_id c])
    (ControlValueError "authority context contains empty fields");;
  ensure (match ac_authority_epoch c with Some n => 1 <=? n | None => true end) (ControlValueError "authority_epoch must be strictly positive");;
  ensure (Bool.eqb (bool_decide (ac_authority_epoch c = None)) (bool_decide (ac_lease_id c = None)))
    (ControlValueError "authority_epoch and lease_id must both be present or absent");;
  Ok c.

Record ControlRequest := mkControlRequest { cr_action : ControlAction; cr_target_workflow_id : option string; cr_authority : AuthorityContext }.
Definition make_control_request (r : ControlRequest) : result control_exn ControlRequest :=
  ensure (negb (targeted (cr_action r) && match cr_target_workflow_id r with Some t => is_empty t | None => true end))
    (ControlValueError "target_workflow_id is required for job control");;
  ensure (targeted (cr_action r) || bool_decide (cr_target_workflow_id r = None)) (ControlValueError "global control cannot target one workflow");;
  Ok r.

(** ** The command workflow *)

Record CompiledJobReceipt := mkJobReceipt { jr_job_id : string; jr_status : JobStatus; jr_node_count : Z; jr_graph_digest : string }.

(** [_terminal_receipt] *)
Definition terminal_receipt (command : Envelope) (status : JobStatus) : CompiledJobReceipt :=
  mkJobReceipt (en_job_id command) status 0 "".

(** [compile_graph_activity] *)
Definition compile_graph_activity (command : Envelope) : result graph_exn CompiledGraph := compile_noop_graph (compiler_view command).

(** Where [run] is: at the control checkpoint, waiting for the activity, retrying a task that fails, or over. *)
Inductive cw_phase := AtCheckpoint | Compiling | TaskFailing | Returned (r : CompiledJobReceipt) | ActivityFailed | ExecutionTimedOut.
Record CommandWorkflow := mkWorkflow { cw_control : Control; cw_at : cw_phase }.

Definition new_workflow : CommandWorkflow := mkWorkflow new_control AtCheckpoint.
(** the phases in which the workflow runs its handlers, and those in which it is over *)
Definition running (p : cw_phase) : bool := match p with AtCheckpoint | Compiling => true | _ => false end.
Definition over (p : cw_phase) : bool := match p with Returned _ | ActivityFailed | ExecutionTimedOut => true | _ => false end.

(** the condition [run] waits for *)
Definition may_proceed (c : Control) : bool := negb (ct_paused c) || ct_cancelled c || ct_frozen c.

(** [run] from the checkpoint to the activity *)
Definition after_checkpoint (command : Envelope) (c : Control) : CommandWorkflow :=
  mkWorkflow c (if ct_frozen c then Returned (terminal_receipt command JS_FROZEN)
                else if ct_cancelled c then Returned (terminal_receipt command JS_CANCELLED) else Compiling).

(** [run] after the activity *)
Definition compiled_receipt (command : Envelope) (graph : CompiledGraph) : CompiledJobReceipt :=
  mkJobReceipt (en_job_id command) JS_COMPILED (Z.of_nat (length (cg_nodes graph))) (cg_digest graph).

Definition wait_timeout : string := "control-wait-timeout".

Inductive cw_event :=
  | Delivered (a : signal) (control_id : string)
  | CheckpointPassed
  | WaitTimedOut
  | ActivityDone
  | ActivityGaveUp
  | ExecutionExpired.

Inductive cw_step (command : Envelope) : CommandWorkflow → cw_event → CommandWorkflow → Prop :=
  | cw_signal a id c p c' : running p = true → control_signal a id c = (Ok (), c') →
      cw_step command (mkWorkflow c p) (Delivered a id) (mkWorkflow c' p)
  | cw_raised a id c p e c' : running p = true → control_signal a id c = (Err e, c') →
      cw_step command (mkWorkflow c p) (Delivered a id) (mkWorkflow c TaskFailing)
  | cw_proceed c : may_proceed c = true →
      cw_step command (mkWorkflow c AtCheckpoint) CheckpointPassed (after_checkpoint command c)
  | cw_timeout c : may_proceed c = false →
      cw_step command (mkWorkflow c AtCheckpoint) WaitTimedOut (after_checkpoint command (final (control_cancel wait_timeout c)))
  | cw_compiled c graph : compile_graph_activity command = Ok graph →
      cw_step command (mkWorkflow c Compiling) ActivityDone (mkWorkflow c (Returned (compiled_receipt command graph)))
  | cw_failed c : cw_step command (mkWorkflow c Compiling) ActivityGaveUp (mkWorkflow c ActivityFailed)
  | cw_expired c p : over p = false → cw_step command (mkWorkflow c p) ExecutionExpired (mkWorkflow c ExecutionTimedOut).

(** ** The node job workflow *)

(** How an awaited activity ended: with a value, with [ActivityError] or a cancellation, or with another exception. *)
Inductive awaited (A : Type) := Returns (a : A) | RaisesActivityError | RaisesCancelled | RaisesOther.
Arguments Returns {A} a.
Arguments RaisesActivityError {A}.
Arguments RaisesCancelled {A}.
Arguments RaisesOther {A}.

(** Where [_run] is; the pinned request is the argument of the dispatch activity. *)
Inductive nj_phase :=
  | Selecting
  | Dispatching (pinned : NodeJobRequest)
  | Cancelling (pinned : NodeJobRequest)
  | NodeReturned (outcome : NodeJobOutcome)
  | NodeRaised.

Record NodeJobWorkflow := mkNodeJob { nj_cancel_reason : string; nj_status : NodeJobStatus; nj_node_id : string; nj_at : nj_phase }.
Definition new_node_job : NodeJobWorkflow := mkNodeJob "" PENDING "" Selecting.

Definition replace_node (r : NodeJobRequest) (node_id : string) : NodeJobRequest :=
  mkRequest (rq_job_id r) (rq_capability r) (rq_authority r) (rq_parameters r) (Some node_id) (rq_approval r) (rq_attempt r) (rq_deadline_seconds r) (rq_max_output_bytes r).

(** [request_cancellation] *)
Definition request_cancellation (reason : string) (w : NodeJobWorkflow) : NodeJobWorkflow :=
  mkNodeJob (if is_empty reason then "job-cancelled" else reason) (nj_status w) (nj_node_id w) (nj_at w).

(** The outcome [_run] makes up for a job it cancelled; the constructor checks it *)
Definition cancelled_outcome (pinned : NodeJobRequest) (node_id reason : string) : NodeJobOutcome :=
  mkOutcome (rq_job_id pinned) node_id (rq_capability pinned) (dedupe_key pinned) CANCELLED (rq_attempt pinned) (Whole (JObj []))
    false false [] "job-cancelled" reason false EXTERNAL_UNTRUSTED.

(** [run]'s handlers: an [asyncio.CancelledError] and any other exception *)
Definition raised (cancelled : bool) (w : NodeJobWorkflow) : NodeJobWorkflow :=
  mkNodeJob (nj_cancel_reason w) (if cancelled then CANCELLED else FAILED) (nj_node_id w) NodeRaised.

Definition selected (r : NodeJobRequest) (x : awaited string) (w : NodeJobWorkflow) : NodeJobWorkflow :=
  match x with
  | Returns node_id => mkNodeJob (nj_cancel_reason w) DISPATCHED node_id (Dispatching (replace_node r node_id))
  | RaisesCancelled => raised true w
  | _ => raised false w
  end.

Definition returned (o : NodeJobOutcome) (w : NodeJobWorkflow) : NodeJobWorkflow :=
  mkNodeJob (nj_cancel_reason w) (o_status o) (nj_node_id w) (NodeReturned o).

(** [attempt.result()] of a finished attempt *)
Definition attempt_done (x : awaited NodeJobOutcome) (w : NodeJobWorkflow) : NodeJobWorkflow :=
  match x with Returns o => returned o w | RaisesCancelled => raised true w | _ => raised false w end.

(** [await attempt] after [attempt.cancel()] *)
Definition cancel_done (pinned : NodeJobRequest) (x : awaited NodeJobOutcome) (w : NodeJobWorkflow) : NodeJobWorkflow :=
  match x with
  | Returns o => returned o w
  | RaisesOther => raised false w
  | _ => match make_outcome (cancelled_outcome pinned (nj_node_id w) (nj_cancel_reason w)) with
         | Ok o => mkNodeJob (nj_cancel_reason w) CANCELLED (nj_node_id w) (NodeReturned o)
         | Err _ => raised false w
         end
  end.

Definition nj_over (w : NodeJobWorkflow) : bool := match nj_at w with NodeReturned _ | NodeRaised => true | _ => false end.

(** [outcomes] are the results the dispatch activity can return for a request. The workflow may be cancelled while it waits
    for the attempt or the signal; elsewhere a cancellation ends the awaited activity. *)
Inductive nj_step (outcomes : NodeJobRequest → NodeJobOutcome → Prop) (r : NodeJobRequest) : NodeJobWorkflow → NodeJobWorkflow → Prop :=
  | nj_signal reason w : nj_over w = false → nj_step outcomes r w (request_cancellation reason w)
  | nj_selected x w : nj_at w = Selecting → nj_step outcomes r w (selected r x w)
  | nj_attempt_done pinned x w : nj_at w = Dispatching pinned → (∀ o, x = Returns o → outcomes pinned o) →
      nj_step outcomes r w (attempt_done x w)
  | nj_cancel pinned w : nj_at w = Dispatching pinned → nj_cancel_reason w ≠ "" →
      nj_step outcomes r w (mkNodeJob (nj_cancel_reason w) (nj_status w) (nj_node_id w) (Cancelling pinned))
  | nj_cancel_done pinned x w : nj_at w = Cancelling pinned → (∀ o, x = Returns o → outcomes pinned o) →
      nj_step outcomes r w (cancel_done pinned x w)
  | nj_cancelled pinned w : nj_at w = Dispatching pinned → nj_step outcomes r w (raised true w).
