(* ===== verification/WorkflowsFacts.v ===== *)
(** What signals do to a command workflow, what its receipt means, that it comes to an end, and how jobs commanded over
    Discord are controlled; the same for node jobs. *)

From S2P Require Import Prelude PyDict PyTime Sha256 Json Redaction NodeModels NodeDispatch GraphCompiler GraphCompilerFacts AuthorityRepository.
From S2P Require Import EmergencyLatch Commands Discord DiscordFacts Workflows.

Open Scope Z_scope.

(** ** What a sequence of signals asks for *)

Notation sent := (list (signal * string)).

(** Signals are delivered at least once and identified by their control id: the first of each id counts, blank ids do not. *)
Definition counts (acc : sent) (s : signal * string) : bool := negb (is_blank s.2) && negb (bool_decide (s.2 ∈ map snd acc)).
Definition firsts (l : sent) : sent := fold_left (λ acc s, if counts acc s then acc ++ [s] else acc) l [].

(** Freezing is final; a cancellation is too, if it comes before; otherwise the last of pause and resume decides. *)
Definition frozen_by (l : sent) : bool := existsb (λ s, bool_decide (s.1 = Freeze)) l.
Fixpoint cancelled_by (l : sent) : bool :=
  match l with [] => false | (Freeze, _) :: _ => false | (Cancel, _) :: _ => true | _ :: l => cancelled_by l end.
Definition held_by (l : sent) : bool := fold_left (λ b s, match s.1 with Pause => true | Resume => false | _ => b end) l false.

Definition asked (l : sent) : Control :=
  mkControl (held_by l && negb (cancelled_by l) && negb (frozen_by l)) (cancelled_by l) (frozen_by l) (map snd l).

(** The workflow's control state after these deliveries. *)
Definition delivered (l : sent) : Control := fold_left (λ c s, final (control_signal s.1 s.2 c)) l new_control.

Lemma firsts_snoc l s : firsts (l ++ [s]) = if counts (firsts l) s then firsts l ++ [s] else firsts l.
Proof. unfold firsts. by rewrite fold_left_app. Qed.

Lemma frozen_by_snoc l s : frozen_by (l ++ [s]) = frozen_by l || bool_decide (s.1 = Freeze).
Proof. unfold frozen_by. rewrite existsb_app. cbn. by rewrite orb_false_r. Qed.

Lemma cancelled_by_snoc l s : cancelled_by (l ++ [s]) = cancelled_by l || (negb (frozen_by l) && bool_decide (s.1 = Cancel)).
Proof. induction l as [|[a i] l IH]; [by destruct s as [[] ?]|]. destruct a; cbn; try done; apply IH. Qed.

Lemma held_by_snoc l s : held_by (l ++ [s]) = match s.1 with Pause => true | Resume => false | _ => held_by l end.
Proof. unfold held_by. by rewrite fold_left_app. Qed.

Lemma asked_snoc l s : counts l s = true → final (control_signal s.1 s.2 (asked l)) = asked (l ++ [s]).
Proof.
  unfold counts. intros [Hb Hn]%andb_prop. unfold asked. rewrite map_app, frozen_by_snoc, cancelled_by_snoc, held_by_snoc.
  unfold final, control_signal, control_pause, control_resume, control_cancel, control_freeze, when_accepted, accept, check, read, gets, modify, set_paused,
    mbind, st_bind, mret, st_ret.
  rewrite Hb. apply negb_true_iff in Hn. cbn in Hn |- *.
  destruct s as [[] i]; cbn in Hn |- *; rewrite Hn; destruct (held_by l), (cancelled_by l), (frozen_by l); reflexivity.
Qed.

Lemma ignored_signal l s : counts l s = false → final (control_signal s.1 s.2 (asked l)) = asked l.
Proof.
  unfold counts. intros Hc. 
  unfold final, control_signal, control_pause, control_resume, control_cancel, control_freeze, when_accepted, accept, check, read, gets, modify, set_paused,
    mbind, st_bind, mret, st_ret.
  destruct (is_blank s.2); cbn in *; [by destruct s as [[] i]|]. apply negb_false_iff in Hc. 
  destruct s as [[] i]; cbn in *; by rewrite Hc.
Qed.

Lemma delivered_asked l : delivered l = asked (firsts l).
Proof.
  induction l as [|s l IH] using rev_ind; [done|]. unfold delivered in *. rewrite fold_left_app. cbn. rewrite IH, firsts_snoc.
  destruct (counts (firsts l) s) eqn:E; [by apply asked_snoc|by apply ignored_signal].
Qed.

(** C35. The control state of a workflow implements its specification: after any deliveries, repeated, reordered ids and
    blank ids included, it is what the first delivery of each control id asks for: frozen for good once asked, cancelled if
    that was asked before a freeze, otherwise held exactly when the last of pause and resume is a pause. *)
Theorem control_refines l : delivered l = asked (firsts l).
Proof. apply delivered_asked. Qed.

(** ** The command workflow *)

(** A run and what happened in it, in order. *)
Inductive cw_trace (command : Envelope) : list cw_event → CommandWorkflow → Prop :=
  | trace_new : cw_trace command [] new_workflow
  | trace_step evs w e w' : cw_trace command evs w → cw_step command w e w' → cw_trace command (evs ++ [e]) w'.

(** The run has left its checkpoint, and the signals it was sent before. *)
Definition leaves (e : cw_event) : bool := match e with CheckpointPassed | WaitTimedOut => true | _ => false end.
Fixpoint before_checkpoint (evs : list cw_event) : sent :=
  match evs with
  | [] => []
  | e :: evs => if leaves e then [] else match e with Delivered a id => (a, id) :: before_checkpoint evs | _ => before_checkpoint evs end
  end.

Lemma before_checkpoint_app evs evs' :
  before_checkpoint (evs ++ evs') = before_checkpoint evs ++ (if existsb leaves evs then [] else before_checkpoint evs').
Proof. induction evs as [|[] evs IH]; cbn; try done. by rewrite IH. Qed.

(** What the first deliveries ask of a run that has left its checkpoint; [timed] when its wait timed out. *)
Definition compiles (h : sent) (timed : bool) : Prop :=
  frozen_by h = false ∧ cancelled_by h = false ∧ (held_by h = false ∨ timed = true ∧ wait_timeout ∈ map snd h).
Definition cancels (h : sent) (timed : bool) : Prop :=
  frozen_by h = false ∧ (cancelled_by h = true ∨ timed = true ∧ wait_timeout ∉ map snd h).

(** What a receipt says of them. *)
Definition receipt_ok (command : Envelope) (h : sent) (timed : bool) (r : CompiledJobReceipt) : Prop :=
  (r = terminal_receipt command JS_FROZEN ∧ frozen_by h = true) ∨
  (r = terminal_receipt command JS_CANCELLED ∧ cancels h timed) ∨
  (∃ graph, compile_graph_activity command = Ok graph ∧ r = compiled_receipt command graph ∧ compiles h timed).

Definition is_timeout (e : cw_event) : bool := match e with WaitTimedOut => true | _ => false end.
Definition timed_out (evs : list cw_event) : bool := existsb is_timeout evs.

(** The job was held when its wait timed out. *)
Definition held_up (h : sent) (timed : bool) : Prop :=
  timed = true → held_by h = true ∧ cancelled_by h = false ∧ frozen_by h = false.

Definition phase_ok (command : Envelope) (evs : list cw_event) (w : CommandWorkflow) : Prop :=
  let h := firsts (before_checkpoint evs) in let timed := timed_out evs in
  held_up h timed ∧
  match cw_at w with
  | AtCheckpoint => cw_control w = delivered (before_checkpoint evs) ∧ existsb leaves evs = false ∧ timed = false
  | Compiling => compiles h timed ∧ existsb leaves evs = true
  | Returned r => receipt_ok command h timed r
  | TaskFailing => ∃ a id, Delivered a id ∈ evs ∧ is_blank id = true
  | ActivityFailed | ExecutionTimedOut => True
  end.

Lemma signal_raises a id c e c' : control_signal a id c = (Err e, c') → is_blank id = true.
Proof.
  unfold control_signal, control_pause, control_resume, control_cancel, control_freeze, when_accepted, accept, check, read, gets, modify,
    mbind, st_bind, mret, st_ret.
  destruct (is_blank id); [done|]. cbn. destruct a, (bool_decide (id ∈ ct_processed c)); cbn; repeat case_match; by intros.
Qed.

Lemma timed_out_snoc evs e : timed_out (evs ++ [e]) = timed_out evs || is_timeout e.
Proof. unfold timed_out. rewrite existsb_app. cbn. by rewrite orb_false_r. Qed.

(** The signals before the checkpoint, by where the run is. *)
Lemma before_checkpoint_snoc evs e :
  before_checkpoint (evs ++ [e]) = if existsb leaves evs then before_checkpoint evs else before_checkpoint evs ++ before_checkpoint [e].
Proof. rewrite before_checkpoint_app. destruct (existsb leaves evs); [apply app_nil_r|done]. Qed.

Lemma proceeds_ok command h : may_proceed (asked h) = true →
  match cw_at (after_checkpoint command (asked h)) with
  | Compiling => compiles h false | Returned r => receipt_ok command h false r | _ => False
  end.
Proof.
  unfold may_proceed, after_checkpoint, receipt_ok, compiles, cancels, asked. cbn.
  destruct (frozen_by h), (cancelled_by h), (held_by h); cbn; naive_solver.
Qed.

Lemma times_out_ok command h : may_proceed (asked h) = false →
  held_up h true ∧
  match cw_at (after_checkpoint command (final (control_cancel wait_timeout (asked h)))) with
  | Compiling => compiles h true | Returned r => receipt_ok command h true r | _ => False
  end.
Proof.
  unfold may_proceed. cbn. intros Hm.
  assert (Hh : held_by h = true ∧ cancelled_by h = false ∧ frozen_by h = false).
  { destruct (frozen_by h), (cancelled_by h), (held_by h); cbn in Hm; naive_solver. }
  destruct Hh as (Hh & Hc & Hf). split; [done|]. destruct (bool_decide_reflect (wait_timeout ∈ map snd h)) as [Hi|Hi].
  - assert (counts h (Cancel, wait_timeout) = false) as Hn by (unfold counts; cbn; by rewrite bool_decide_true).
    pose proof (ignored_signal _ _ Hn) as E. cbn [fst snd control_signal] in E. rewrite E. unfold after_checkpoint. cbn. rewrite Hf, Hc.
    unfold compiles. naive_solver.
  - assert (counts h (Cancel, wait_timeout) = true) as Hn by (unfold counts; cbn; by rewrite bool_decide_false).
    pose proof (asked_snoc _ _ Hn) as E. cbn [fst snd control_signal] in E. rewrite E. unfold after_checkpoint. cbn.
    rewrite frozen_by_snoc, cancelled_by_snoc, Hf. cbn. rewrite orb_true_r. unfold receipt_ok, cancels. naive_solver.
Qed.

Lemma step_phase_ok command evs w e w' : phase_ok command evs w → cw_step command w e w' → phase_ok command (evs ++ [e]) w'.
Proof.
  unfold phase_ok. rewrite before_checkpoint_snoc, timed_out_snoc, existsb_app. intros [Hu IH] Hs.
  destruct Hs as [a id c p c' Hp Hc|a id c p x c' Hp Hc|c Hm|c Hm|c graph Hg|c|c p Hp]; cbn [cw_at cw_control is_timeout leaves existsb] in IH |- *;
    rewrite ?orb_false_r, ?orb_true_r.
  - destruct p; try done.
    + destruct IH as (-> & -> & Ht). rewrite Ht. split; [done|]. split_and!; [|done|done].
      unfold delivered in *. rewrite fold_left_app. cbn. by rewrite Hc.
    + destruct IH as [Hc' ->]. split; [done|]. by split.
  - split.
    + destruct (existsb leaves evs) eqn:El; [done|]. destruct p; try done; [|by destruct IH]. by destruct IH as (_ & _ & ->).
    + exists a, id. rewrite elem_of_app, list_elem_of_singleton. split; [by right|by eapply signal_raises].
  - destruct IH as (-> & -> & Ht). rewrite Ht. cbn [before_checkpoint leaves]. rewrite app_nil_r. split; [done|].
    rewrite delivered_asked in *. pose proof (proceeds_ok command _ Hm) as H. by destruct (cw_at (after_checkpoint _ _)).
  - destruct IH as (-> & -> & Ht). cbn [before_checkpoint leaves]. rewrite app_nil_r.
    rewrite delivered_asked in *. destruct (times_out_ok command _ Hm) as [? H]. split; [done|]. by destruct (cw_at (after_checkpoint _ _)).
  - destruct IH as [IH ->]. split; [done|]. right; right. by exists graph.
  - destruct IH as [IH ->]. by split.
  - split; [|done]. cbn. rewrite app_nil_r. by destruct (existsb leaves evs).
Qed.

Lemma trace_phase_ok command evs w : cw_trace command evs w → phase_ok command evs w.
Proof. induction 1; [by split|by eapply step_phase_ok]. Qed.

(** ** Compilation of commands *)

Lemma noop_graph job t mn mf : is_blank job = false → 1 ≤ mn ≤ 256 → 1 ≤ mf ≤ 16 →
  compile_execution_graph job [noop_node t] mn mf = Ok (mkCompiled job [noop_node t] mn mf (graph_digest job [noop_node t] mn mf)).
Proof.
  intros Hb Hn Hf. unfold compile_execution_graph. rewrite Hb, !(proj2 (Z.leb_le _ _)) by (rewrite ?length_cons; cbn; lia).
  assert (Ho : topological_order (by_id [noop_node t]) = Ok [noop_node t]) by by destruct t; vm_compute.
  assert (Hk : forallb (λ n, forallb (λ d, dmem d (by_id [noop_node t])) (g_depends_on n)) [noop_node t] = true) by by destruct t; vm_compute.
  assert (Hl : Nat.eqb (length (by_id [noop_node t])) (length [noop_node t]) = true) by by destruct t; vm_compute.
  assert (Hfan : forallb (λ i, fan_out [noop_node t] i <=? mf) (dkeys (by_id [noop_node t])) = true).
  { change (dkeys _) with ["acknowledge-command"]. cbn [forallb]. change (fan_out _ _) with 0. rewrite (proj2 (Z.leb_le _ _)) by lia. done. }
  rewrite bool_decide_eq_false_2 by done. cbv zeta. rewrite Hl, Hk, Hfan. cbn [ensure negb andb mbind result_bind]. by rewrite Ho.
Qed.

Lemma noop_compiles e : make_envelope e = Ok e →
  ∃ graph, compile_graph_activity e = Ok graph ∧ cg_job_id graph = en_job_id e ∧ length (cg_nodes graph) = 1%nat.
Proof.
  unfold make_envelope. intros (? & H1%ensure_Ok & (? & _ & (? & _ & (? & _ & Hm)%bind_Ok)%bind_Ok)%bind_Ok)%bind_Ok.
  apply bind_Ok in Hm as (? & H2%ensure_Ok & (? & H3%ensure_Ok & _)%bind_Ok). cbn [forallb] in H1. apply andb_prop in H1 as [H1 _].
  unfold compile_graph_activity, compile_noop_graph. cbn [compiler_view ce_job_id ce_max_nodes ce_max_fan_out ce_trust_label].
  assert (make_graph_node (noop_node (en_trust_label e)) = Ok (noop_node (en_trust_label e))) as -> by by destruct (en_trust_label e); vm_compute.
  cbn [mbind result_bind]. rewrite noop_graph by (bool_to_prop; first [lia|by destruct (is_blank (en_job_id e))]). by eexists.
Qed.

(** ** Receipts *)

Definition rank (p : cw_phase) : nat := match p with AtCheckpoint => 3 | Compiling => 2 | TaskFailing => 1 | _ => 0 end.

Lemma step_rank command w e w' : cw_step command w e w' →
  (cw_at w' = cw_at w ∧ ∃ a id, e = Delivered a id) ∨ (rank (cw_at w') < rank (cw_at w))%nat.
Proof.
  destruct 1 as [|? ? ? p|? ?|? ?| | |? p]; cbn; [by eauto|right..]; try (repeat case_match; cbn; lia); by destruct p; cbn; try lia.
Qed.

(** The phases from which a receipt can still come. *)
Definition sound (p : cw_phase) : bool := match p with AtCheckpoint | Compiling | Returned _ => true | _ => false end.

(** [w] is at most two events, none of them a signal, from a receipt. *)
Definition near_receipt (command : Envelope) (w : CommandWorkflow) : Prop :=
  ∃ w1 w2 r, (w1 = w ∨ ∃ e, leaves e = true ∧ cw_step command w e w1) ∧ (w2 = w1 ∨ cw_step command w1 ActivityDone w2) ∧ cw_at w2 = Returned r.

Lemma completes command w : make_envelope command = Ok command → sound (cw_at w) = true → near_receipt command w.
Proof.
  intros (graph & Hg & _)%noop_compiles Hw. destruct w as [c p].
  assert (Ha : ∀ c', ∃ w2 r, (w2 = after_checkpoint command c' ∨ cw_step command (after_checkpoint command c') ActivityDone w2) ∧ cw_at w2 = Returned r).
  { intros c'. unfold after_checkpoint. destruct (ct_frozen c'), (ct_cancelled c'); try by (eexists _, _; split; [left; reflexivity|done]).
    eexists _, _. split; [right; by apply cw_compiled|done]. }
  destruct p as [| | |r| |]; try done.
  - destruct (may_proceed c) eqn:E; [destruct (Ha c) as (w2 & r & H1 & H2)|destruct (Ha (final (control_cancel wait_timeout c))) as (w2 & r & H1 & H2)];
      eexists _, w2, r; (split; [right; eexists; split; [|by constructor]; done|by split]).
  - eexists _, _, _. split; [by left|]. split; [right; by apply cw_compiled|done].
  - eexists _, _, r. split; [by left|]. split; [by left|done].
Qed.

(** C36. A command workflow ends, and its receipt is true. Every event but a handled signal brings a run closer to its end. A
    run whose activity did not fail, whose handlers did not raise and which the execution timeout did not end is at most two
    events from a receipt, and a handler raises only on a blank control id. A receipt is for the commanded job. It says frozen
    exactly if the signals before the checkpoint, each id counted once, asked for that. It says cancelled exactly if they did
    not, and either asked for a cancellation or held the job until its wait timed out with the timeout's control id unused. It
    says compiled exactly otherwise: not frozen, not cancelled and not held, or held to the timeout with the timeout's control id
    used up; then it carries one node and the digest of the graph compiled from the command, and else neither. *)
Theorem command_run_faithful command evs w : make_envelope command = Ok command → cw_trace command evs w →
  let h := firsts (before_checkpoint evs) in let timed := timed_out evs in
  (∀ e w', cw_step command w e w' →
     (cw_at w' = cw_at w ∧ ∃ a id, e = Delivered a id) ∨ (rank (cw_at w') < rank (cw_at w))%nat) ∧
  (sound (cw_at w) = true → near_receipt command w) ∧
  (cw_at w = TaskFailing → ∃ a id, Delivered a id ∈ evs ∧ is_blank id = true) ∧
  (timed = true → held_by h = true ∧ cancelled_by h = false ∧ frozen_by h = false) ∧
  ∀ r, cw_at w = Returned r →
    jr_job_id r = en_job_id command ∧
    (jr_status r = JS_FROZEN ↔ frozen_by h = true) ∧
    (jr_status r = JS_CANCELLED ↔ cancels h timed) ∧
    (jr_status r = JS_COMPILED ↔ compiles h timed) ∧
    (jr_status r = JS_COMPILED → jr_node_count r = 1 ∧
       ∃ graph, compile_graph_activity command = Ok graph ∧ jr_graph_digest r = cg_digest graph) ∧
    (jr_status r ≠ JS_COMPILED → jr_node_count r = 0 ∧ jr_graph_digest r = "").
Proof.
  intros He Hw h timed. destruct (trace_phase_ok _ _ _ Hw) as [Hu Hp]. fold h timed in Hu, Hp.
  split_and!; [intros e w'; apply step_rank|by apply completes| |done|]; [intros E; by rewrite E in Hp|].
  intros r Hr. rewrite Hr in Hp. destruct (noop_compiles _ He) as (graph & Hg & _ & Hlen).
  destruct Hp as [[-> Hf]|[[-> Hf]|(g & Hg' & -> & Hf)]]; cbn.
  - unfold cancels, compiles. rewrite Hf. split_and!; try done; split; naive_solver.
  - split_and!; try done; [by destruct Hf as [-> _]|].
    split; [done|]. intros (_ & Hc & Hd). destruct Hf as (_ & [?|[Ht Hn]]); [congruence|]. destruct Hd as [Hd|[_ ?]]; [|done].
    by destruct (Hu Ht) as (? & _); congruence.
  - assert (g = graph) as -> by congruence. rewrite Hlen. split_and!; try done; [by destruct Hf as [-> _]| |by eauto].
    split; [done|]. intros (_ & [Hc|[Ht Hn]]); destruct Hf as (_ & Hc' & Hd); [congruence|]. destruct Hd as [Hd|[_ ?]]; [|done].
    by destruct (Hu Ht) as (? & _); congruence.
Qed.

(** ** Jobs commanded over Discord *)

(** The signals delivered to a workflow are ones the service sent it. *)
Definition from_discord (w : DiscordWorld) (workflow_id : string) (h : sent) : Prop :=
  ∀ a id, (a, id) ∈ h → ∃ ok, Signalled workflow_id (signal_name a) id ok ∈ dw_calls w.

Lemma firsts_incl l s : s ∈ firsts l → s ∈ l.
Proof.
  induction l as [|x l IH] using rev_ind; [done|]. rewrite firsts_snoc, elem_of_app, list_elem_of_singleton.
  case_match; [|by left; auto]. rewrite elem_of_app, list_elem_of_singleton. intros [?|?]; auto.
Qed.

Lemma frozen_by_true l : frozen_by l = true → ∃ id, (Freeze, id) ∈ l.
Proof. intros ([a id] & Hin%list_elem_of_In & Ha%bool_decide_eq_true)%existsb_exists. cbn in Ha. subst a. by exists id. Qed.

Lemma cancelled_by_in l id : frozen_by l = false → (Cancel, id) ∈ l → cancelled_by l = true.
Proof.
  induction l as [|[a i] l IH]; [by intros _ ?%not_elem_of_nil|]. destruct a; cbn; try done; intros Hf [Heq|Hin]%elem_of_cons; try done; by apply IH.
Qed.

Section DiscordJobs.
Context `{WorkflowGateway} (sign : string → string) (verify : string → string → bool) (s : DiscordService).

Lemma discord_signal w wf h a id : dc_reach sign verify s w → from_discord w wf h → (a, id) ∈ h → a ≠ Freeze ∧ id ≠ wait_timeout.
Proof.
  intros [_ Hc _]%dc_reach_inv Hh Hin. destruct (Hh _ _ Hin) as [ok Hok]. rewrite Forall_forall in Hc. destruct (Hc _ Hok) as [Ha [x ->]].
  split; [|done]. intros ->. unfold control_actions in Ha. cbn in Ha. by repeat (apply elem_of_cons in Ha as [Ha|Ha]; [done|]); apply not_elem_of_nil in Ha.
Qed.

(** A job commanded over Discord obeys the controls sent over Discord: whatever the service did, a workflow it started
    that receives its signals, any number of times, answers for that very job either as compiled, with the digest of the
    graph of the admitted command, or as cancelled. It is cancelled if a cancellation counted before the checkpoint, and it is
    never compiled while the last control that counted was a pause. *)
Theorem discord_job_controlled w e wf ok evs cw r :
  dc_reach sign verify s w → Started e wf ok ∈ dw_calls w → from_discord w wf (before_checkpoint evs) → cw_trace e evs cw → cw_at cw = Returned r →
  let h := firsts (before_checkpoint evs) in
  jr_job_id r = wf ∧
  (jr_status r = JS_CANCELLED ∨
   jr_status r = JS_COMPILED ∧ held_by h = false ∧ (∀ id, (Cancel, id) ∉ h) ∧
     ∃ graph, compile_noop_graph (compiler_view e) = Ok graph ∧ cg_job_id graph = wf ∧ jr_graph_digest r = cg_digest graph).
Proof.
  intros Hw Hs Hh Hrun Hr h. assert (Hsig := λ a id, discord_signal w wf _ a id Hw Hh). apply dc_reach_inv in Hw as [_ Hc _].
  rewrite Forall_forall in Hc. destruct (Hc _ Hs) as (_ & _ & _ & Hid & _ & _ & _ & _ & _ & He).
  destruct (trace_phase_ok _ _ _ Hrun) as [_ Hp]. rewrite Hr in Hp.
  destruct (noop_compiles _ He) as (graph & Hg & Hjob & _).
  destruct Hp as [[_ (id & Hin%firsts_incl)%frozen_by_true]|[[-> _]|(g & Hg' & -> & Hf & Hcn & Hd)]]; [by destruct (Hsig _ _ Hin)|split; [done|by left]|].
  assert (g = graph) as -> by congruence. split; [done|]. right. split_and!; [done| | |exists graph; split_and!; [done|congruence|done]].
  - destruct Hd as [?|[_ ([a id] & Hid' & Hin%firsts_incl)%list_elem_of_fmap]]; [done|]. by destruct (Hsig _ _ Hin).
  - intros id Hin. by rewrite (cancelled_by_in _ id Hf Hin) in Hcn.
Qed.
End DiscordJobs.

(** ** Node jobs *)

Section NodeJobs.
Context (outcomes : NodeJobRequest → NodeJobOutcome → Prop) (r : NodeJobRequest).

Definition nj_reach : NodeJobWorkflow → Prop := rtc (nj_step outcomes r) new_node_job.

(** The request every attempt carries, once a node is chosen. *)
Definition pinned_to (w : NodeJobWorkflow) : NodeJobRequest := replace_node r (nj_node_id w).

Definition nj_ok (w : NodeJobWorkflow) : Prop :=
  match nj_at w with
  | Selecting => nj_status w = PENDING
  | Dispatching p => p = pinned_to w ∧ nj_status w = DISPATCHED
  | Cancelling p => p = pinned_to w ∧ nj_status w = DISPATCHED ∧ nj_cancel_reason w ≠ ""
  | NodeReturned o => nj_status w = o_status o ∧ (outcomes (pinned_to w) o ∨
      nj_cancel_reason w ≠ "" ∧ o = cancelled_outcome (pinned_to w) (nj_node_id w) (nj_cancel_reason w))
  | NodeRaised => nj_status w = FAILED ∨ nj_status w = CANCELLED
  end.

Lemma raised_ok b w : nj_ok (raised b w).
Proof. destruct b; [by right|by left]. Qed.

Lemma nj_step_ok w w' : nj_step outcomes r w w' → nj_ok w → nj_ok w'.
Proof.
  intros [reason w0 Hp|x w0 Hp|pinned x w0 Hp Hx|pinned w0 Hp Hc|pinned x w0 Hp Hx|pinned w0 Hp]; unfold nj_ok at 1.
  - unfold nj_over in Hp. unfold nj_ok, request_cancellation, pinned_to. cbn. destruct (nj_at w0); try done. intros (? & ? & ?). split_and!; try done.
    destruct reason; done.
  - rewrite Hp. intros _. destruct x; [done|apply raised_ok..].
  - rewrite Hp. intros [-> _]. destruct x; [|apply raised_ok..]. split; [done|]. left. by apply Hx.
  - rewrite Hp. intros [-> ?]. by split_and!.
  - rewrite Hp. intros (-> & _ & Hc). destruct x; unfold cancel_done; [|destruct (make_outcome _) as [o|] eqn:Eo; [|apply raised_ok]..|apply raised_ok].
    + split; [done|]. left. by apply Hx.
    + unfold make_outcome in Eo. apply bind_Ok in Eo as (? & _ & (? & _ & [= <-])%bind_Ok). split; [done|]. by right.
    + unfold make_outcome in Eo. apply bind_Ok in Eo as (? & _ & (? & _ & [= <-])%bind_Ok). split; [done|]. by right.
  - intros _. apply raised_ok.
Qed.

Lemma nj_reach_ok w : nj_reach w → nj_ok w.
Proof. intros Hw. cut (nj_ok new_node_job); [|done]. induction Hw; eauto using nj_step_ok. Qed.

(** C37. A node job stays with its node and is answered for truthfully: once a node is chosen the job never moves, and every
    attempt carries the request pinned to that node under the dedupe key of the original request. The returned outcome is one
    the dispatch activity gave for the pinned request, or, after a requested cancellation, a cancelled outcome of that very
    job with the reason given; the queried status is the outcome's. An attempt that was cancelled on request or failed
    meanwhile ends the job as cancelled, not as lost. *)
Theorem node_job_faithful w : 1 ≤ rq_attempt r → nj_reach w →
  (∀ w', nj_step outcomes r w w' → nj_at w ≠ Selecting → nj_node_id w' = nj_node_id w) ∧
  (∀ p, nj_at w = Dispatching p ∨ nj_at w = Cancelling p → p = replace_node r (nj_node_id w) ∧ dedupe_key p = dedupe_key r) ∧
  (∀ o, nj_at w = NodeReturned o → nj_status w = o_status o ∧
     (outcomes (replace_node r (nj_node_id w)) o ∨
      nj_cancel_reason w ≠ "" ∧ o_status o = CANCELLED ∧ o_message o = nj_cancel_reason w ∧ o_node_id o = nj_node_id w ∧
      o_job_id o = rq_job_id r ∧ o_dedupe_key o = dedupe_key r)) ∧
  (∀ p x, nj_at w = Cancelling p → x = RaisesCancelled ∨ x = RaisesActivityError →
     ∃ o, nj_at (cancel_done p x w) = NodeReturned o ∧ o_status o = CANCELLED).
Proof.
  intros Hat Hw%nj_reach_ok. split_and!.
  - intros w' [] Hs; try done; unfold attempt_done, cancel_done; repeat case_match; done.
  - intros p Hp. unfold nj_ok in Hw. destruct Hp as [Hp|Hp]; rewrite Hp in Hw; destruct Hw as [-> _]; done.
  - intros o Ho. unfold nj_ok in Hw. rewrite Ho in Hw. destruct Hw as [-> [?|[Hc ->]]]; (split; [done|]); [by left|by right].
  - intros p x Hp Hx. unfold nj_ok in Hw. rewrite Hp in Hw. destruct Hw as (-> & _ & _).
    assert (Ho : make_outcome (cancelled_outcome (pinned_to w) (nj_node_id w) (nj_cancel_reason w)) =
      Ok (cancelled_outcome (pinned_to w) (nj_node_id w) (nj_cancel_reason w))).
    { unfold make_outcome. cbn [cancelled_outcome o_attempt o_trust_label pinned_to replace_node rq_attempt].
      by rewrite (proj2 (Z.leb_le _ _)) by done. }
    destruct Hx as [-> | ->]; unfold cancel_done; rewrite Ho; by eexists.
Qed.
End NodeJobs.

(** * Workflows on concrete inputs: witnesses, and a job that is compiled although it is held *)

Lemma backup_valid : make_envelope backup_envelope = Ok backup_envelope.
Proof. vm_compute. reflexivity. Qed.

Definition cancelled_backup : CommandWorkflow := after_checkpoint backup_envelope (delivered [(Pause, "discord-i4"); (Cancel, "discord-i5")]).

Definition cancelled_events : list cw_event := [Delivered Pause "discord-i4"; Delivered Cancel "discord-i5"; CheckpointPassed].

Lemma cancelled_backup_run : cw_trace backup_envelope cancelled_events cancelled_backup.
Proof.
  pose (w1 := mkWorkflow (delivered [(Pause, "discord-i4")]) AtCheckpoint).
  pose (w2 := mkWorkflow (delivered [(Pause, "discord-i4"); (Cancel, "discord-i5")]) AtCheckpoint).
  apply (trace_step _ [Delivered Pause "discord-i4"; Delivered Cancel "discord-i5"] w2); [|apply cw_proceed; reflexivity].
  apply (trace_step _ [Delivered Pause "discord-i4"] w1); [|apply cw_signal; [reflexivity|vm_compute; reflexivity]].
  apply (trace_step _ [] new_workflow); [apply trace_new|apply cw_signal; [reflexivity|vm_compute; reflexivity]].
Qed.

Lemma command_run_faithful_witness :
  ∃ r, cw_at cancelled_backup = Returned r ∧ jr_job_id r = "discord-i1" ∧ jr_status r = JS_CANCELLED.
Proof.
  exists (terminal_receipt backup_envelope JS_CANCELLED). split; [reflexivity|].
  destruct (command_run_faithful backup_envelope cancelled_events cancelled_backup backup_valid cancelled_backup_run) as (_ & _ & _ & _ & H).
  destruct (H _ eq_refl) as (H1 & _ & H2 & _). split; [exact H1|]. apply H2. split; [reflexivity|left; reflexivity].
Defined.

(** The same job, paused and cancelled over Discord. *)
Definition pause_command : DiscordInteraction := from_jerry "i4" "4" [mkOption "job_id" "discord-i1"].
Definition cancel_command : DiscordInteraction := from_jerry "i5" "5" [mkOption "job_id" "discord-i1"].
Definition controlled : DiscordWorld :=
  final (run_steady cancel_command (final (run_steady pause_command (final (run_steady backup_command ready))))).

Lemma discord_job_controlled_witness :
  dw_calls controlled = [Started backup_envelope "discord-i1" true; Signalled "discord-i1" "pause" "discord-i4" true; Signalled "discord-i1" "cancel" "discord-i5" true] ∧
  jr_job_id (terminal_receipt backup_envelope JS_CANCELLED) = "discord-i1".
Proof.
  assert (Hc : dw_calls controlled = [Started backup_envelope "discord-i1" true; Signalled "discord-i1" "pause" "discord-i4" true; Signalled "discord-i1" "cancel" "discord-i5" true])
    by (vm_compute; reflexivity).
  split; [exact Hc|].
  refine (proj1 (@discord_job_controlled steady_gateway demo_sign demo_verify demo_service controlled backup_envelope "discord-i1" true
    cancelled_events cancelled_backup (terminal_receipt backup_envelope JS_CANCELLED) _ _ _ cancelled_backup_run eq_refl)).
  - unfold controlled, run_steady. by repeat (eapply dc_next; [|constructor]); apply dc_start, ready_repo_reachable.
  - rewrite Hc. left.
  - intros a id Hin. rewrite Hc. exists true. apply elem_of_cons in Hin as [[= -> ->]|Hin]; [right; left|].
    apply list_elem_of_singleton in Hin as [= -> ->]. right; right; left.
Defined.

(** A signal under the timeout's own control id uses it up: the held job is compiled when its wait times out. *)
Example timeout_id_compiles_held_job :
  let c := delivered [(Pause, "p1"); (Resume, wait_timeout); (Pause, "p2")] in
  ct_paused c = true ∧ cw_at (after_checkpoint backup_envelope (final (control_cancel wait_timeout c))) = Compiling.
Proof. vm_compute. split; reflexivity. Qed.

(** ** Node jobs *)

Definition probe_request : NodeJobRequest := mkRequest "job-1" "system.info@1" (mkAuthority "jerry" "lease-1" (Some 2)) [] None None 1 None None.
Definition answers (p : NodeJobRequest) (o : NodeJobOutcome) : Prop := o_job_id o = rq_job_id p.
Definition stopped_probe : NodeJobWorkflow :=
  let w := selected probe_request (Returns "node-1") (request_cancellation "" new_node_job) in
  cancel_done (replace_node probe_request "node-1") RaisesCancelled
    (mkNodeJob (nj_cancel_reason w) (nj_status w) (nj_node_id w) (Cancelling (replace_node probe_request "node-1"))).

Lemma node_job_faithful_witness :
  ∃ o, nj_at stopped_probe = NodeReturned o ∧ o_status o = CANCELLED ∧ nj_status stopped_probe = o_status o.
Proof.
  exists (cancelled_outcome (replace_node probe_request "node-1") "node-1" "job-cancelled"). split; [reflexivity|]. split; [reflexivity|].
  refine (proj1 (proj1 (proj2 (proj2 (node_job_faithful answers probe_request stopped_probe _ _))) _ eq_refl)).
  - cbn. lia.
  - eapply rtc_l; [apply (nj_signal _ _ ""); reflexivity|]. eapply rtc_l; [apply (nj_selected _ _ (Returns "node-1")); reflexivity|].
    eapply rtc_l; [eapply nj_cancel; [reflexivity|discriminate]|].
    apply rtc_once. eapply (nj_cancel_done _ _ _ RaisesCancelled); [reflexivity|discriminate].
Defined.
