(* ===== verification/OperatorAuth.v ===== *)
(** Operator authentication of the gateway (src/olympus/gateway/auth.py): the development token, the Ed25519-signed grant bound
    to an authority lease, and the authorizer that checks a grant against the repository on every request.

    JSON numbers are integers, as everywhere here. [int(t.timestamp())] goes through a float; for times up to the year 2242 the
    float is within a microsecond of the time and truncates to the same second, which is what [epoch_second] computes. *)

From stdpp Require Import pretty.
From S2P Require Import Prelude PyDict PyTime Sha256 Json JsonParse NodeModels NodeAudit NodeCrypto AuthorityRepository.
From Stdlib Require Import Ascii.

Open Scope Z_scope.

(** What a route raises: a response, or an exception it does not handle. *)
Inductive http_exn := HTTPException (status : Z) (detail : string) | Unhandled (what : string).
#[export] Instance http_exn_eq : EqDecision http_exn.
Proof. solve_decision. Defined.

(** ** Headers *)

Definition alnum (c : ascii) : bool :=
  let n := code c in ((48 <=? n) && (n <=? 57) || (65 <=? n) && (n <=? 90) || (97 <=? n) && (n <=? 122))%N.
Definition header_char (c : ascii) : bool := alnum c || bool_decide (c ∈ [".";"_";":";"-"]%char).

(** [AUTHORITY_HEADER_PATTERN.fullmatch] *)
Definition header_ok (v : string) : bool :=
  match v with String c s => alnum c && all_chars header_char s && (String.length s <=? 127)%nat | EmptyString => false end.

Definition require_single_authority_header (values : list string) : result http_exn string :=
  match values with
  | [v] => ensure (header_ok v) (HTTPException 422 "invalid authority header");; Ok v
  | _ => Err (HTTPException 422 "invalid authority header")
  end.

(** [hmac.compare_digest] of two texts *)
Definition compare_digest (a b : string) : result http_exn bool :=
  if is_ascii a && is_ascii b then Ok (bool_decide (a = b)) else Err (Unhandled "TypeError").

Definition lift_exn {A} (r : result exn A) : result http_exn A := match r with Ok a => Ok a | Err _ => Err (Unhandled "ValueError") end.

(** ** The development token *)

Definition matches_development_token (authorization : option (list string)) (expected_token : string) : bool :=
  match authorization with
  | Some [value] => is_ascii value && is_ascii ("Bearer " +:+ expected_token) && bool_decide (value = "Bearer " +:+ expected_token)
  | _ => false
  end.

Definition require_operator (token : string) (authorization : option (list string)) (commander_ids authority_lease_ids : list string) :
    result http_exn DispatchAuthority :=
  ensure (matches_development_token authorization token) (HTTPException 401 "invalid development command token");;
  commander ← require_single_authority_header commander_ids;
  lease ← require_single_authority_header authority_lease_ids;
  lift_exn (make_authority commander lease None).

(** ** Operator grants *)

Record OperatorGrant := mkGrant { og_token : string; og_grant_id : string; og_commander_id : string }.

(** [int(t.timestamp())] *)
Definition epoch_second (t : datetime) : Z := Z.quot t 1000000.

Definition GRANT_DOMAIN : string := "olympus-node-operator-grant-v1".
Definition grant_payload (l : AuthorityLease) : json :=
  JObj [("domain", JStr GRANT_DOMAIN); ("version", JInt 1); ("scope", JStr "node-mesh"); ("lease_id", JStr (l_id l));
        ("authority_epoch", JInt (l_epoch l)); ("commander_id", JStr (l_commander l)); ("issued_at", JInt (epoch_second (l_issued_at l)));
        ("expires_at", JInt (epoch_second (l_expires_at l)))].

Definition grant_fields : list string :=
  ["domain"; "version"; "scope"; "lease_id"; "authority_epoch"; "commander_id"; "issued_at"; "expires_at"].

(** The fields of a verified grant *)
Record GrantPayload := mkGrantPayload {
  gp_scope : string; gp_lease_id : string; gp_authority_epoch : Z; gp_commander_id : string; gp_issued_at : Z; gp_expires_at : Z }.

(** [isinstance(v, int)]: a bool is an int *)
Definition as_int (v : json) : option Z := match v with JInt n => Some n | JBool b => Some (if b then 1 else 0) | _ => None end.
Definition as_str (v : json) : option string := match v with JStr s => Some s | _ => None end.

(** The payload a token's body encodes, if it has the fields, the domain, the version and the canonical form. A body that is not
    ASCII is not the canonical encoding of any payload and is refused here. *)
Definition grant_of (body : string) : option (dict string json) :=
  match decode_bytes body with
  | Ok raw =>
      if is_ascii raw then
        match loads raw with
        | Some (JObj o) =>
            if keys_are grant_fields o && bool_decide (dget "domain" o = Some (JStr GRANT_DOMAIN))
               && bool_decide (dget "version" o ≫= as_int = Some 1) && bool_decide (encode_bytes (canonical_json (JObj o)) = body)
            then Some o else None
        | _ => None
        end
      else None
  | Err _ => None
  end.

(** The type checks on the fields *)
Definition typed_grant (o : dict string json) : option GrantPayload :=
  epoch ← dget "authority_epoch" o ≫= as_int; issued ← dget "issued_at" o ≫= as_int; expires ← dget "expires_at" o ≫= as_int;
  scope ← dget "scope" o ≫= as_str; lease ← dget "lease_id" o ≫= as_str; commander ← dget "commander_id" o ≫= as_str;
  Some (mkGrantPayload scope lease epoch commander issued expires).

Definition invalid_grant : http_exn := HTTPException 401 "invalid production operator grant".
Definition lease_inactive : http_exn := HTTPException 401 "authority lease is not active".

(** [_bearer_token] *)
Definition bearer_token (authorization : option (list string)) : result http_exn string :=
  match authorization with
  | Some [value] =>
      token ← require_some (strip_prefix "Bearer " value) invalid_grant;
      ensure (negb (is_empty token)) invalid_grant;;
      Ok token
  | _ => Err invalid_grant
  end.

Section Grants.
Context (ed_key_ok : string → bool) (ed_sign : string → string → string) (ed_verify : string → string → string → bool).

Definition issue_operator_grant (private_key : string) (lease : AuthorityLease) : result exn OperatorGrant :=
  let payload := grant_payload lease in
  let body := encode_bytes (canonical_json payload) in
  signature ← sign_payload ed_sign private_key payload;
  let token := "olyauth" +:+ "." +:+ body +:+ "." +:+ signature in
  Ok (mkGrant token (sha256_hex (utf8 token)) (l_commander lease)).

(** [_verify_grant] *)
Definition verify_grant (operator_public_key : string) (authorization : option (list string)) : result http_exn GrantPayload :=
  token ← bearer_token authorization;
  match split_char "." token with
  | [prefix; body; signature] =>
      ensure (bool_decide (prefix = "olyauth")) invalid_grant;;
      payload ← require_some (grant_of body) invalid_grant;
      match verify_payload ed_key_ok ed_verify operator_public_key (JObj payload) signature UNAUTHORIZED with
      | Ok _ => require_some (typed_grant payload) invalid_grant
      | Err _ => Err invalid_grant
      end
  | _ => Err invalid_grant
  end.

(** The part of [authorize] after the lease was read, in the order of the code's [or] *)
Definition check_lease (commander_id : string) (payload : GrantPayload) (lease : AuthorityLease) (current : datetime) : result http_exn () :=
  ensure (bool_decide (l_revoked_at lease = None)) lease_inactive;;
  same_lease ← compare_digest (l_id lease) (gp_lease_id payload);
  ensure same_lease lease_inactive;;
  same_commander ← compare_digest (l_commander lease) commander_id;
  ensure (same_commander && (l_epoch lease =? gp_authority_epoch payload) && bool_decide (gp_scope payload = "node-mesh")
    && (gp_issued_at payload =? epoch_second (l_issued_at lease)) && (gp_expires_at payload =? epoch_second (l_expires_at lease))
    && (gp_issued_at payload <=? epoch_second current) && (epoch_second current <? gp_expires_at payload)
    && (l_issued_at lease <=? current) && (current <? l_expires_at lease)) lease_inactive.

(** [ProductionLeaseAuthorizer.authorize] *)
Definition authorize_production (commander operator_public_key : string) (authorization : option (list string))
    (commander_ids authority_lease_ids : list string) (current : datetime) : St Repo http_exn DispatchAuthority :=
  commander_id ← liftR (require_single_authority_header commander_ids);
  grant_id ← liftR (require_single_authority_header authority_lease_ids);
  known ← liftR (compare_digest commander_id commander);
  check known lease_inactive;;
  payload ← liftR (verify_grant operator_public_key authorization);
  same ← liftR (compare_digest (gp_commander_id payload) commander_id);
  check same lease_inactive;;
  token ← liftR (bearer_token authorization);
  bound ← liftR (compare_digest (sha256_hex (utf8 token)) grant_id);
  check bound lease_inactive;;
  held ← (λ r, let '(x, r') := active_lease r in
    (match x with Ok l => Ok l | Err _ => Err (HTTPException 503 "authority repository unavailable") end, r'));
  lease ← some_or held lease_inactive;
  liftR (check_lease commander_id payload lease current);;
  liftR (lift_exn (make_authority commander_id (l_id lease) (Some (l_epoch lease)))).
End Grants.

(** ** The interface to the routes *)

(** [OperatorAuthorizer]: what a route asks before it acts; the clock is an argument *)
Class OperatorAuthorizer : Type := authorize :
  option (list string) → list string → list string → datetime → St Repo http_exn DispatchAuthority.

(** [DevelopmentOperatorAuthorizer] *)
Definition development_authorizer (token : string) : OperatorAuthorizer := λ authorization commander_ids lease_ids _,
  liftR (require_operator token authorization commander_ids lease_ids).
(** [ProductionLeaseAuthorizer] *)
Definition production_authorizer (ed_key_ok : string → bool) (ed_verify : string → string → string → bool) (commander operator_public_key : string) :
    OperatorAuthorizer := authorize_production ed_key_ok ed_verify commander operator_public_key.

(** * What an authorized request proves, and that issued grants work *)

From S2P Require Import NodeScopesFacts AuthorityFacts.

Lemma not_blank_cons c s : is_space c = false → is_blank (String c s) = false.
Proof. intros Hc. unfold is_blank, strip. cbn [lstrip]. rewrite Hc. cbn [rstrip]. rewrite Hc. by destruct (rstrip s). Qed.

(** What every authorizer promises the routes: it changes nothing, and it hands out well-formed authorities. *)
Class OperatorAuthorizerLaws (A : OperatorAuthorizer) : Prop := {
  au_readonly authorization commanders leases now r : final (authorize authorization commanders leases now r) = r;
  au_valid authorization commanders leases now r a : outcome (authorize authorization commanders leases now r) = Ok a →
    make_authority (da_commander_id a) (da_authority_lease_id a) (da_authority_epoch a) = Ok a }.

Lemma make_authority_Ok c l e a : make_authority c l e = Ok a →
  a = mkAuthority c l e ∧ make_authority (da_commander_id a) (da_authority_lease_id a) (da_authority_epoch a) = Ok a.
Proof.
  intros Ha. assert (a = mkAuthority c l e) as ->; [|done]. revert Ha. unfold make_authority. by intros (? & _ & (? & _ & [= <-])%bind_Ok)%bind_Ok.
Qed.

Lemma lift_exn_Ok {A} (r : result exn A) a : lift_exn r = Ok a → r = Ok a.
Proof. destruct r; cbn; congruence. Qed.

#[export] Instance development_laws token : OperatorAuthorizerLaws (development_authorizer token).
Proof.
  split; [done|]. intros authorization commanders leases now r a. unfold authorize, development_authorizer, outcome, liftR. cbn. unfold require_operator.
  intros (? & _ & (? & _ & (? & _ & Ha%lift_exn_Ok)%bind_Ok)%bind_Ok)%bind_Ok. by apply make_authority_Ok in Ha as [-> ?].
Qed.

Section Production.
Context (ed_key_ok : string → bool) (ed_verify : string → string → string → bool).

Lemma compare_digest_true a b : compare_digest a b = Ok true → a = b.
Proof. unfold compare_digest. case_match; [|done]. intros [= ->%bool_decide_eq_true]. done. Qed.

(** What the operator's key signed: a payload in canonical form with these fields. *)
Record signed_grant (public_key token : string) (g : GrantPayload) : Prop := mkSignedGrant {
  sg_signed : ∃ key payload signature, load_public_key ed_key_ok public_key = Ok key ∧ typed_grant payload = Some g ∧
    dget "domain" payload = Some (JStr GRANT_DOMAIN) ∧
    token = "olyauth." +:+ encode_bytes (canonical_json (JObj payload)) +:+ "." +:+ signature ∧
    ∃ raw, decode_bytes signature = Ok raw ∧ ed_verify key (canonical_json (JObj payload)) raw = true }.

Lemma split_char_three c t x y z : split_char c t = [x; y; z] → t = x +:+ String c (y +:+ String c z).
Proof.
  assert (H1 : ∀ t z, split_char c t = [z] → t = z).
  { clear. induction t as [|d t IH]; cbn; intros z; [congruence|]. case_bool_decide as Hd.
    - destruct (split_char c t) eqn:E; [|done]. by apply split_char_nonempty in E.
    - destruct (split_char c t) as [|w [|]] eqn:E; try done; [by apply split_char_nonempty in E|]. intros [= <-]. by rewrite (IH w). }
  assert (H2 : ∀ l t x, l ≠ [] → split_char c t = x :: l → ∃ t', t = x +:+ String c t' ∧ split_char c t' = l).
  { clear. intros l. induction t as [|d t IH]; cbn; intros x Hl; [congruence|]. case_bool_decide as Hd.
    - intros [= <- <-]. subst d. by exists t.
    - destruct (split_char c t) as [|w ws] eqn:E; [by apply split_char_nonempty in E|]. intros [= <- ->]. destruct (IH w Hl eq_refl) as (t' & -> & Ht').
      by exists t'. }
  intros (t1 & -> & (t2 & -> & ->%H1)%H2)%H2; done.
Qed.

Lemma verify_grant_Ok pub authorization token g : bearer_token authorization = Ok token →
  verify_grant ed_key_ok ed_verify pub authorization = Ok g → signed_grant pub token g.
Proof.
  intros Ht. unfold verify_grant. rewrite Ht. cbn [mbind result_bind]. destruct (split_char "." token) as [|x [|y [|z [|]]]] eqn:Es; try done.
  intros (? & Hx%ensure_Ok & (payload & Hp & Hg)%bind_Ok)%bind_Ok. apply bool_decide_eq_true in Hx. subst x.
  apply split_char_three in Es. destruct (verify_payload _ _ _ _ _ _) eqn:Ev; [|done]. unfold verify_payload in Ev. apply bind_Ok in Ev as (key & Hkey & Ev).
  destruct (decode_bytes z) as [raw|] eqn:Ez; [|done]. apply ensure_Ok in Ev.
  assert (Hpay : grant_of y = Some payload) by (by apply require_some_Ok in Hp).
  assert (Hty : typed_grant payload = Some g) by (by apply require_some_Ok in Hg).
  unfold grant_of in Hpay. destruct (decode_bytes y); [|done]. destruct (is_ascii _); [|done]. destruct (loads _) as [[| | | | |o]|]; try done.
  destruct (keys_are _ _ && _ && _ && _) eqn:Ek; [|done]. injection Hpay as ->. bool_to_prop.
  split. exists key, payload, z. split_and!; try done; [|by exists raw]. by subst token y.
Qed.


Lemma check_lease_Ok c g l now x : check_lease c g l now = Ok x →
  l_revoked_at l = None ∧ gp_lease_id g = l_id l ∧ l_commander l = c ∧ gp_authority_epoch g = l_epoch l ∧ gp_scope g = "node-mesh" ∧
  gp_issued_at g = epoch_second (l_issued_at l) ∧ gp_expires_at g = epoch_second (l_expires_at l) ∧ l_issued_at l ≤ now < l_expires_at l.
Proof.
  unfold check_lease. intros (? & H1%ensure_Ok & (b & H2 & (? & H3%ensure_Ok & (b' & H4 & H5%ensure_Ok)%bind_Ok)%bind_Ok)%bind_Ok)%bind_Ok.
  subst b. apply compare_digest_true in H2. bool_to_prop. subst b'. apply compare_digest_true in H4. split_and!; try done; lia.
Qed.

Lemma authorize_run commander pub authorization commanders leases now r :
  let '(x, r') := authorize_production ed_key_ok ed_verify commander pub authorization commanders leases now r in
  r' = r ∧ ∀ a, x = Ok a → ∃ token g l, commanders = [commander] ∧ leases = [sha256_hex (utf8 token)] ∧
    bearer_token authorization = Ok token ∧ signed_grant pub token g ∧ gp_commander_id g = commander ∧
    outcome (active_lease r) = Ok (Some l) ∧ (∃ x, check_lease commander g l now = Ok x) ∧
    make_authority commander (l_id l) (Some (l_epoch l)) = Ok a.
Proof.
  unfold authorize_production, liftR, check, some_or, mbind, st_bind.
  destruct (require_single_authority_header commanders) as [c|] eqn:E1; [|done]. destruct (require_single_authority_header leases) as [gid|] eqn:E2; [|done].
  destruct (compare_digest c commander) as [[]|] eqn:E3; [|done..]. apply compare_digest_true in E3. subst c. cbn [ensure].
  destruct (verify_grant _ _ pub authorization) as [g|] eqn:E4; [|done]. destruct (compare_digest (gp_commander_id g) commander) as [[]|] eqn:E5; [|done..].
  cbn [ensure]. destruct (bearer_token authorization) as [token|] eqn:E6; [|done]. destruct (compare_digest _ gid) as [[]|] eqn:E7; [|done..].
  apply compare_digest_true in E5, E7. cbn [ensure]. pose proof (active_lease_run r) as Hro. destruct (active_lease r) as [[held|] r'] eqn:E8; destruct Hro as [-> _]; [|done].
  destruct held as [l|]; [|done]. cbn [require_some]. destruct (check_lease commander g l now) as [u|] eqn:E9; [|done].
  split; [done|]. intros a Ha%lift_exn_Ok. assert (Hone : ∀ vs v, require_single_authority_header vs = Ok v → vs = [v]).
  { intros [|w [|]] v; cbn; try done. destruct (header_ok w); cbn; congruence. }
  exists token, g, l. apply Hone in E1, E2. subst. split_and!; try done; [by eapply verify_grant_Ok|by exists u].
Qed.
#[export] Instance production_laws commander pub : OperatorAuthorizerLaws (production_authorizer ed_key_ok ed_verify commander pub).
Proof.
  split; unfold authorize, production_authorizer.
  - intros authorization commanders leases now r. pose proof (authorize_run commander pub authorization commanders leases now r) as Hr.
    unfold final. destruct (authorize_production _ _ _ _ _ _ _ _ r). apply Hr.
  - intros authorization commanders leases now r a. pose proof (authorize_run commander pub authorization commanders leases now r) as Hr.
    unfold outcome. destruct (authorize_production _ _ _ _ _ _ _ _ r) as [x r']. cbn. intros ->. destruct Hr as [_ Hr].
    destruct (Hr a eq_refl) as (? & ? & ? & ? & ? & ? & ? & ? & ? & ? & Ha). apply make_authority_Ok in Ha as [_ ?]. done.
Qed.

Lemma strip_prefix_Some p t r : strip_prefix p t = Some r → t = p +:+ r.
Proof. revert t. induction p as [|c p IH]; intros t; cbn; [congruence|]. destruct t as [|d t]; [done|]. case_bool_decide; [|done]. intros ->%IH. by subst. Qed.

Lemma bearer_token_Ok authorization token : bearer_token authorization = Ok token → authorization = Some ["Bearer " +:+ token].
Proof.
  unfold bearer_token. destruct authorization as [[|v [|]]|]; try done. intros (t & Ht%require_some_Ok & (? & _ & [= <-])%bind_Ok)%bind_Ok.
  by apply strip_prefix_Some in Ht as ->.
Qed.

(** The lease a request was authorized under: the one live lease of an authority that is not frozen, named by a grant the operator's key
    signed and by the headers of the request. *)
Record live_operator (commander pub : string) (authorization : option (list string)) (commanders leases : list string) (now : datetime) (r : Repo)
    (l : AuthorityLease) (token : string) : Prop := mkLive {
  lo_active : r_frozen r = false ∧ r_active r = Some (l_id l) ∧ dget (l_id l) (r_leases r) = Some l ∧ l_revoked_at l = None;
  lo_epoch : l_epoch l = r_authority_epoch r;
  lo_commander : l_commander l = commander;
  lo_time : l_issued_at l ≤ now < l_expires_at l;
  lo_headers : commanders = [commander] ∧ leases = [sha256_hex (utf8 token)] ∧ authorization = Some ["Bearer " +:+ token];
  lo_signed : signed_grant pub token
    (mkGrantPayload "node-mesh" (l_id l) (l_epoch l) commander (epoch_second (l_issued_at l)) (epoch_second (l_expires_at l))) }.

(** An operator request is authorized only under the one live lease. *)
Lemma authorized_live commander pub authorization commanders leases now r a :
  reachable r → outcome (authorize_production ed_key_ok ed_verify commander pub authorization commanders leases now r) = Ok a →
  ∃ l token, a = mkAuthority commander (l_id l) (Some (l_epoch l)) ∧ live_operator commander pub authorization commanders leases now r l token.
Proof.
  intros Hr%reachable_inv. unfold outcome. pose proof (authorize_run commander pub authorization commanders leases now r) as Hrun.
  destruct (authorize_production _ _ _ _ _ _ _ _ r) as [x r']. cbn. intros ->. destruct Hrun as [_ Hrun].
  destruct (Hrun a eq_refl) as (token & g & l & H1 & H2 & H3 & H4 & H5 & H6 & (u & H7) & H8). apply check_lease_Ok in H7 as (K1 & K2 & K3 & K4 & K5 & K6 & K7 & K8).
  pose proof (active_lease_run r) as Ha. unfold outcome in H6. destruct (active_lease r) as [y r'']. cbn in H6. destruct Ha as [_ Ha].
  destruct (Ha l H6) as (i & I1 & I2 & _). assert (l_id l = i) as Hid by by apply (li_key _ _ _ (ri_lease r Hr)). subst i.
  exists l, token. apply make_authority_Ok in H8 as [-> _]. apply bearer_token_Ok in H3. split; [done|].
  assert (g = mkGrantPayload "node-mesh" (l_id l) (l_epoch l) commander (epoch_second (l_issued_at l)) (epoch_second (l_expires_at l))) as Hg
    by (destruct g; cbn in *; congruence). subst g. split; try done.
  - split_and!; try done. destruct (r_frozen r) eqn:Ef; [|done]. by rewrite (ri_frozen r Hr Ef) in I1.
  - by apply (ri_current r Hr (l_id l)).
Qed.
End Production.

(** ** Issued grants *)

Section Issued.
Context (ed_key_ok : string → bool) (ed_public : string → string).
Context (ed_sign : string → string → string) (ed_verify : string → string → string → bool).
(** What Ed25519 documents: public keys are 32 accepted bytes, signatures are
    non-empty and verify under the public key of the signing key. *)
Context (ed_public_ok : ∀ sk, String.length (ed_public sk) = 32%nat ∧ ed_key_ok (ed_public sk) = true).
Context (ed_sign_nonempty : ∀ sk m, is_empty (ed_sign sk m) = false).
Context (ed_sign_verify : ∀ sk m, ed_verify (ed_public sk) m (ed_sign sk m) = true).

Definition norm_grant (l : AuthorityLease) : dict string json :=
  [("authority_epoch", JInt (l_epoch l)); ("commander_id", JStr (l_commander l)); ("domain", JStr GRANT_DOMAIN);
   ("expires_at", JInt (epoch_second (l_expires_at l))); ("issued_at", JInt (epoch_second (l_issued_at l))); ("lease_id", JStr (l_id l));
   ("scope", JStr "node-mesh"); ("version", JInt 1)].

Lemma grant_norm l : jnorm (grant_payload l) = JObj (norm_grant l).
Proof. reflexivity. Qed.

Lemma canonical_norm l : canonical_json (JObj (norm_grant l)) = canonical_json (grant_payload l).
Proof. rewrite <- grant_norm, !canonical_json_print. by rewrite jnorm_idem. Qed.

Lemma grant_of_payload l : grant_of (encode_bytes (canonical_json (grant_payload l))) = Some (norm_grant l).
Proof.
  unfold grant_of. rewrite decode_encode by by rewrite canonical_json_print.
  rewrite loads_canonical by (split; [|done]; simpl; repeat constructor; set_solver).
  rewrite canonical_json_print at 1. unfold is_ascii. rewrite (print_ascii _), grant_norm. cbn [negb].
  change (keys_are grant_fields (norm_grant l)) with true. rewrite canonical_norm, !bool_decide_eq_true_2 by done. done.
Qed.

Lemma typed_norm_grant l : typed_grant (norm_grant l) =
  Some (mkGrantPayload "node-mesh" (l_id l) (l_epoch l) (l_commander l) (epoch_second (l_issued_at l)) (epoch_second (l_expires_at l))).
Proof. reflexivity. Qed.

Lemma verify_issued priv pub lease grant : public_key_of ed_public priv = Ok pub → issue_operator_grant ed_sign priv lease = Ok grant →
  bearer_token (Some ["Bearer " +:+ og_token grant]) = Ok (og_token grant) ∧
  og_grant_id grant = sha256_hex (utf8 (og_token grant)) ∧ og_commander_id grant = l_commander lease ∧
  verify_grant ed_key_ok ed_verify pub (Some ["Bearer " +:+ og_token grant]) =
    Ok (mkGrantPayload "node-mesh" (l_id lease) (l_epoch lease) (l_commander lease) (epoch_second (l_issued_at lease)) (epoch_second (l_expires_at lease))).
Proof.
  intros Hpub. unfold issue_operator_grant. intros (sig & Hsig & Hg)%bind_Ok.
  set (body := encode_bytes (canonical_json (grant_payload lease))) in *. set (token := "olyauth" +:+ "." +:+ body +:+ "." +:+ sig) in Hg.
  assert (grant = mkGrant token (sha256_hex (utf8 token)) (l_commander lease)) as -> by congruence. clear Hg. cbn [og_token og_grant_id og_commander_id]. unfold token.
  assert (Hb : bearer_token (Some ["Bearer " +:+ "olyauth" +:+ "." +:+ body +:+ "." +:+ sig]) = Ok ("olyauth" +:+ "." +:+ body +:+ "." +:+ sig)) by reflexivity.
  split_and!; [exact Hb|done|done|]. unfold verify_grant. rewrite Hb. cbn [mbind result_bind].
  assert (Hs := Hsig). unfold sign_payload in Hs. apply bind_Ok in Hs as (raw & _ & [= Hs]).
  rewrite split_signed by (subst sig; (reflexivity || by apply encode_has_not)). rewrite bool_decide_refl. cbn [ensure mbind result_bind].
  unfold body. rewrite grant_of_payload. cbn [require_some mbind result_bind].
  assert (Hv := verify_sign_payload ed_key_ok ed_public ed_sign ed_verify ed_public_ok ed_sign_nonempty ed_sign_verify priv pub _ sig UNAUTHORIZED Hpub Hsig).
  unfold verify_payload in *. rewrite canonical_norm. rewrite Hv. by rewrite typed_norm_grant.
Qed.

Lemma hex_of_alnum n x : all_chars alnum (hex_of n x) = true.
Proof.
  induction n as [|n IH]; [done|]. cbn [hex_of all_chars]. rewrite IH, andb_true_r. change 15 with (Z.ones 4). rewrite Z.land_ones by lia.
  set (y := _ mod _). assert (0 ≤ y < 16) by (apply Z.mod_pos_bound; lia). clearbody y.
  assert (Hy : y ∈ map Z.of_nat (seq 0 16)) by (apply list_elem_of_In, in_map_iff; exists (Z.to_nat y); rewrite in_seq; lia).
  revert y Hy H. apply (Forall_forall (λ y, 0 ≤ y < 16 → alnum (hex_digit y) = true)). by repeat constructor.
Qed.

#[local] Transparent sha256_hex.
Lemma digest_alnum t : all_chars alnum (sha256_hex t) = true.
Proof. unfold sha256_hex. destruct (sha_state_of t). by rewrite !all_chars_app, !hex_of_alnum. Qed.
#[local] Opaque sha256_hex.

Lemma digest_header t : header_ok (sha256_hex t) = true ∧ is_ascii (sha256_hex t) = true.
Proof.
  assert (Ha := digest_alnum t). assert (Hl := sha256_hex_length t). destruct (sha256_hex t) as [|c s]; [done|]. cbn [all_chars] in Ha. apply andb_prop in Ha as [Hc Hs].
  assert (Hascii : ∀ d, alnum d = true → (code d <? 128)%N = true) by (intros d; by destruct d as [[] [] [] [] [] [] [] []]). split.
  - cbn [header_ok]. rewrite Hc. cbn [andb]. rewrite (all_chars_mono alnum header_char) by (try done; intros d Hd; unfold header_char; by rewrite Hd).
    apply Nat.leb_le. cbn in Hl. lia.
  - unfold is_ascii. cbn [all_chars]. rewrite Hascii by done. by apply (all_chars_mono alnum).
Qed.

Lemma compare_digest_refl a : is_ascii a = true → compare_digest a a = Ok true.
Proof. intros Ha. unfold compare_digest. by rewrite Ha, bool_decide_refl. Qed.

(** A grant issued against the active lease is accepted: presented as bearer token with its commander and grant id, at a time
    whose second is from the lease's first second to before its last, it yields the authority of exactly that lease, as
    long as the repository still reports it active; the identities must be header text, as the gateway requires. *)
Lemma operator_grant_accepted priv pub lease grant r now :
  public_key_of ed_public priv = Ok pub → issue_operator_grant ed_sign priv lease = Ok grant →
  outcome (active_lease r) = Ok (Some lease) → l_revoked_at lease = None →
  header_ok (l_commander lease) = true → is_ascii (l_commander lease) = true → is_ascii (l_id lease) = true →
  is_blank (l_commander lease) = false → is_blank (l_id lease) = false → 1 ≤ l_epoch lease →
  epoch_second (l_issued_at lease) ≤ epoch_second now < epoch_second (l_expires_at lease) → l_issued_at lease ≤ now < l_expires_at lease →
  outcome (authorize_production ed_key_ok ed_verify (l_commander lease) pub (Some ["Bearer " +:+ og_token grant])
    [og_commander_id grant] [og_grant_id grant] now r) = Ok (mkAuthority (l_commander lease) (l_id lease) (Some (l_epoch lease))).
Proof.
  intros Hpub Hg Ha Hrev Hh Hac Hal Hbc Hbl He Hs Ht. destruct (verify_issued priv pub lease grant Hpub Hg) as (Hb & Hid & Hc & Hv).
  rewrite Hc, Hid. destruct (digest_header (utf8 (og_token grant))) as [Hd Hda].
  assert (Hone : ∀ v, header_ok v = true → require_single_authority_header [v] = Ok v) by (intros v Hv'; unfold require_single_authority_header; by rewrite Hv').
  assert (Hcl : check_lease (l_commander lease) (mkGrantPayload "node-mesh" (l_id lease) (l_epoch lease) (l_commander lease)
      (epoch_second (l_issued_at lease)) (epoch_second (l_expires_at lease))) lease now = Ok ()).
  { unfold check_lease. cbn [gp_lease_id gp_authority_epoch gp_scope gp_issued_at gp_expires_at]. rewrite (bool_decide_eq_true_2 (l_revoked_at lease = None)) by done.
    rewrite !compare_digest_refl by done. cbn [ensure mbind result_bind]. rewrite !Z.eqb_refl, ?bool_decide_refl.
    rewrite !(proj2 (Z.leb_le _ _)), !(proj2 (Z.ltb_lt _ _)) by lia. done. }
  unfold outcome in *. unfold authorize_production, liftR, check, some_or, mbind, st_bind. rewrite !Hone by done.
  rewrite compare_digest_refl by done. cbn [ensure]. rewrite Hv. cbn [gp_commander_id]. rewrite compare_digest_refl by done. cbn [ensure]. rewrite Hb.
  rewrite compare_digest_refl by done. cbn [ensure]. destruct (active_lease r) as [x r']. cbn in Ha. subst x. cbn [require_some]. rewrite Hcl.
  unfold make_authority. rewrite Hbc, Hbl, (proj2 (Z.leb_le _ _)) by done. done.
Qed.
End Issued.
