(* ===== verification/NodesApi.v ===== *)
(** The node-mesh routes of the gateway (src/olympus/gateway/nodes_api.py), over the dispatch service, the authority repository
    behind the authorizer, and a starter of durable jobs.

    Requests are the values pydantic hands to a route: its field checks are a library's. Clock readings, identifiers, secret
    bytes and how each send of a cancel frame ends are arguments. The session socket runs the handshake, the pump and the
    attachment of NodeSession.v and NodeDispatch.v and is not repeated here. *)

From S2P Require Import Prelude PyDict PyTime Json NodeModels NodeScopes NodeAudit NodeStore NodeCrypto AuthorityRepository NodeApprovals.
From S2P Require Import NodeRegistry NodeSession NodeDispatch OperatorAuth.

Open Scope Z_scope.

(** ** Refusals *)

Definition status_for_reason (r : NodeReason) : Z :=
  match r with
  | NODE_UNKNOWN | JOB_UNKNOWN => 404
  | ENROLLMENT_UNKNOWN | ENROLLMENT_MALFORMED | ENROLLMENT_CREDENTIAL_MISMATCH | ENROLLMENT_EXPIRED | ENROLLMENT_CONSUMED
  | ENROLLMENT_REVOKED | ENROLLMENT_SCOPE_MISMATCH => 403
  | ENROLLMENT_KEY_INVALID | ENROLLMENT_DESCRIPTION_INVALID => 400
  | DISPATCH_FROZEN | NOT_FROZEN | FREEZE_EPOCH_MISMATCH | NODE_QUARANTINED | NODE_REVOKED | NODE_OFFLINE
  | DISPATCH_NO_ELIGIBLE_NODE => 409
  | CAPABILITY_UNKNOWN => 400
  | CAPABILITY_RESERVED | CAPABILITY_NOT_GRANTED => 403
  | CAPABILITY_NOT_DECLARED => 409
  | _ => 400
  end.

(** [except NodeMeshError as exc: raise _refuse(exc)] *)
Definition refuse (e : exn) : http_exn :=
  match e with NodeMeshError r => HTTPException (status_for_reason r) (reason_value r) | _ => Unhandled "exception" end.
(** no handler around the call *)
Definition unhandled (_ : exn) : http_exn := Unhandled "exception".

(** ** Requests *)

Record IssueEnrollmentRequest := mkIssueRequest {
  iq_node_name : string; iq_kind : NodeKind; iq_platform : NodePlatform; iq_capabilities : list string;
  iq_capability_scopes : dict string obj; iq_ttl_seconds : option Z }.
Record EnrollRequest := mkEnrollRequest {
  eq_enrollment_token : string; eq_public_key : string; eq_node_name : string; eq_kind : NodeKind; eq_platform : NodePlatform;
  eq_architecture : string; eq_agent_version : string; eq_declared_capabilities : list string }.
Record StartJobRequest := mkStartRequest { sq_capability : string; sq_parameters : obj; sq_node_id : option string }.

(** ** Responses *)

Record IssuedEnrollmentResponse := mkIssuedResponse {
  ir_token_id : string; ir_enrollment_token : string; ir_node_name : string; ir_kind : NodeKind; ir_platform : NodePlatform;
  ir_granted_capabilities : list string; ir_capability_scopes : dict string json; ir_expires_at : datetime }.
Record EnrollResponse := mkEnrollResponse {
  er_node_id : string; er_node_name : string; er_granted_capabilities : list string; er_control_plane_public_key : string;
  er_control_plane_key_id : string; er_heartbeat_interval_seconds : Z }.
Record NodeResponse := mkNodeResponse {
  nr_node_id : string; nr_node_name : string; nr_kind : NodeKind; nr_platform : NodePlatform; nr_architecture : string;
  nr_agent_version : string; nr_state : NodeState; nr_connected : bool; nr_granted_capabilities : list string;
  nr_capability_scopes : dict string json; nr_declared_capabilities : list string; nr_effective_capabilities : list string;
  nr_enrolled_at : datetime; nr_last_heartbeat_at : option datetime; nr_heartbeat_age : option Z; nr_labels : list (string * string);
  nr_output_trust_label : string; nr_health : option NodeHealthSnapshot }.
Record NodeListResponse := mkNodeList { nl_nodes : list NodeResponse; nl_dispatch_frozen : bool; nl_freeze_epoch : Z }.
Record JobAcceptedResponse := mkAccepted { ja_job_id : string; ja_workflow_id : string; ja_capability : string }.
Record JobResponse := mkJobResponse {
  jp_job_id : string; jp_node_id : string; jp_capability : string; jp_status : string; jp_attempt : Z; jp_progress_events : Z;
  jp_last_message : string; jp_reason : string; jp_created_at : datetime; jp_updated_at : datetime; jp_commander_id : string }.
Record AuditEventResponse := mkAuditResponse {
  ap_sequence : Z; ap_recorded_at : string; ap_actor : string; ap_action : string; ap_decision : string; ap_reason : string;
  ap_node_id : option string; ap_job_id : option string; ap_payload_digest : string; ap_previous_hash : string; ap_event_hash : string }.

(** [NodeResponse.of]; the view's health is copied field by field *)
Definition node_response (v : NodeView) : result exn NodeResponse :=
  let n := nv_record v in
  scopes ← decode_scopes (n_scopes n) [];
  Ok (mkNodeResponse (n_node_id n) (n_node_name n) (n_kind n) (n_platform n) (n_architecture n) (n_agent_version n) (nv_state v)
    (nv_connected v) (n_granted n) scopes (n_declared n) (nv_effective v) (n_enrolled_at n) (n_last_heartbeat_at n) (nv_heartbeat_age v)
    (n_labels n) (trust_value EXTERNAL_UNTRUSTED) (n_last_health n)).

(** [JobResponse.of] *)
Definition job_response (j : NodeJobRecord) : JobResponse :=
  mkJobResponse (j_job_id j) (j_node_id j) (j_capability j) (status_value (j_status j)) (j_attempt j) (j_progress_events j)
    (j_last_message j) (j_reason j) (j_created_at j) (j_updated_at j) (da_commander_id (j_authority j)).

(** [AuditEventResponse.of] *)
Definition audit_response (e : NodeAuditEvent) : AuditEventResponse :=
  mkAuditResponse (e_sequence e) (e_recorded_at e) (e_actor e) (action_value (e_action e)) (decision_value (e_decision e)) (e_reason e)
    (e_node_id e) (e_job_id e) (e_payload_digest e) (e_previous_hash e) (e_event_hash e).

Inductive Response :=
  | RIssued (r : IssuedEnrollmentResponse) | RNone | RNodes (r : NodeListResponse) | RCapabilities (l : list CapabilityDescriptor)
  | RNode (r : NodeResponse) | RAccepted (r : JobAcceptedResponse) | RJobs (l : list JobResponse) | RCancelling (job_id : string)
  | RControl (c : DispatchControlState) | RAudit (chain_valid : bool) (head : string) (events : list AuditEventResponse).

(** ** State *)

(** [NodeJobStarter]: what was asked of it, oldest first, and what it answers *)
Inductive job_call := JobStarted (r : NodeJobRequest) | JobCancelled (job_id : string).
Class NodeJobStarter := {
  js_start : list job_call → NodeJobRequest → result exn string;
  js_cancel : list job_call → string → result exn () }.

Section Routes.
Context `{OperatorAuthorizer} `{NodeJobStarter}.
Context (stamp : nat → datetime * string) (cfg : Config) {V : Type} `{ApprovalVerifier V}.
Context (ed_key_ok : string → bool) (ed_sign : string → string → string) (ed_verify : string → string → string → bool).
(** [NodeMeshRuntime], the deployment's enrollment lifetime and its allowed capabilities *)
Context (control_plane_private_key control_plane_public_key control_plane_key_id : string).
Context (enrollment_ttl_seconds : Z) (allowed_capabilities : option (list string)).

Record Gateway := mkGateway { gw_repo : Repo; gw_disp : Disp (V := V); gw_jobs : list job_call }.

Notation G := (St Gateway http_exn).

Definition on_disp {A} (m : St (Disp (V := V)) exn A) (h : exn → http_exn) : G A := λ g,
  let '(x, d) := m (gw_disp g) in (match x with Ok a => Ok a | Err e => Err (h e) end, mkGateway (gw_repo g) d (gw_jobs g)).
Definition lift_h {A} (r : result exn A) (h : exn → http_exn) : G A := liftR (match r with Ok a => Ok a | Err e => Err (h e) end).
Definition starter_call {A} (c : job_call) (f : list job_call → result exn A) : G (result exn A) := λ g,
  (Ok (f (gw_jobs g)), mkGateway (gw_repo g) (gw_disp g) (gw_jobs g ++ [c])).

(** the credentials of a request: the three headers *)
Record Headers := mkHeaders { hd_authorization : option (list string); hd_commander_ids : list string; hd_authority_lease_ids : list string }.

Definition operator (h : Headers) (now : datetime) : G DispatchAuthority := λ g,
  let '(x, r) := authorize (hd_authorization h) (hd_commander_ids h) (hd_authority_lease_ids h) now (gw_repo g) in
  (x, mkGateway r (gw_disp g) (gw_jobs g)).

(** ** Routes of an authorized operator *)

Definition issue_enrollment (q : IssueEnrollmentRequest) (a : DispatchAuthority) (now : datetime) (id_bytes secret_bytes : string) : G Response :=
  check (match allowed_capabilities with Some l => forallb (λ c, bool_decide (c ∈ l)) (iq_capabilities q) | None => true end)
    (refuse (NodeMeshError CAPABILITY_RESERVED));;
  issued ← on_disp (on_mesh (issue_enrollment_token stamp cfg (iq_node_name q) (iq_kind q) (iq_platform q) (iq_capabilities q) (da_commander_id a)
    (Some (match iq_ttl_seconds q with Some t => if t =? 0 then enrollment_ttl_seconds else t | None => enrollment_ttl_seconds end))
    (iq_capability_scopes q) now id_bytes secret_bytes)) refuse;
  token ← lift_h (sign_enrollment_token ed_sign control_plane_private_key (ie_presented issued)) unhandled;
  scopes ← lift_h (decode_scopes (ie_scopes issued) []) unhandled;
  mret (RIssued (mkIssuedResponse (ie_token_id issued) token (ie_node_name issued) (ie_kind issued) (ie_platform issued)
    (ie_granted issued) scopes (ie_expires_at issued))).

Definition revoke_enrollment (token_id : string) (a : DispatchAuthority) (now : datetime) : G Response :=
  on_disp (on_mesh (revoke_enrollment_token stamp token_id (da_commander_id a) "operator revocation" now)) refuse;;
  mret RNone.

Definition respond_nodes (views : list NodeView) : G (list NodeResponse) := lift_h (mapM_r node_response views) unhandled.

Definition api_list_nodes (now now' : datetime) : G Response :=
  on_disp (on_mesh (sweep_expired_heartbeats stamp cfg now)) unhandled;;
  control ← on_disp (on_mesh (dispatch_control stamp)) unhandled;
  views ← on_disp (on_mesh (list_views stamp cfg now')) unhandled;
  nodes ← respond_nodes views;
  mret (RNodes (mkNodeList nodes (c_frozen control) (c_freeze_epoch control))).

Definition api_list_capabilities : G Response :=
  mret (RCapabilities (sort_by (λ a b, str_leb (cap_name a) (cap_name b)) (dvalues CAPABILITY_CATALOG))).

Definition or_default (reason default : string) : string := if is_empty reason then default else reason.

Definition respond_node (n : NodeRecord) (now : datetime) : G Response :=
  r ← lift_h (node_response (view_of cfg n now)) unhandled; mret (RNode r).

Definition api_quarantine (node_id reason : string) (a : DispatchAuthority) (now now' : datetime) : G Response :=
  record ← on_disp (on_mesh (NodeRegistry.quarantine_node stamp node_id (da_commander_id a) (or_default reason "operator request") now)) refuse;
  respond_node record now'.
Definition api_restore (node_id reason : string) (a : DispatchAuthority) (now' : datetime) : G Response :=
  record ← on_disp (on_mesh (restore_node stamp node_id (da_commander_id a) reason)) refuse;
  respond_node record now'.
Definition api_revoke (node_id reason : string) (a : DispatchAuthority) (now now' : datetime) : G Response :=
  record ← on_disp (on_mesh (NodeRegistry.revoke_node stamp node_id (da_commander_id a) (or_default reason "operator request") now)) refuse;
  g ← read;
  match session_for (gw_disp g) node_id with
  | Some sid => on_disp (on_sess sid (shutdown stamp (reason_value NODE_REVOKED))) unhandled
  | None => mret ()
  end;;
  respond_node record now'.

(** the refusal of [start_job]: audited, then answered *)
Definition refuse_start (r : NodeJobRequest) (e : exn) : G Response :=
  match e with
  | NodeMeshError reason =>
      on_disp (on_mesh (record_audit stamp (draft (da_commander_id (rq_authority r)) AA_DISPATCH_REFUSED AD_DENY (reason_value reason) None
        (Some (rq_job_id r)) [("capability", JStr (rq_capability r))]))) unhandled;;
      raise (refuse e)
  | _ => raise (unhandled e)
  end.

Definition api_start_job (q : StartJobRequest) (a : DispatchAuthority) (uuid : string) : G Response :=
  request ← lift_h (make_request (mkRequest ("node-job-" +:+ uuid) (sq_capability q) a (sq_parameters q) (sq_node_id q) None 1 None None)) unhandled;
  match require_dispatchable_capability (sq_capability q) with
  | Err e => refuse_start request e
  | Ok _ =>
      control ← on_disp (on_mesh (dispatch_control stamp)) unhandled;
      if c_frozen control then refuse_start request (NodeMeshError DISPATCH_FROZEN)
      else
        started ← starter_call (JobStarted request) (λ l, js_start l request);
        match started with
        | Ok workflow_id => mret (RAccepted (mkAccepted (rq_job_id request) workflow_id (rq_capability request)))
        | Err e => refuse_start request e
        end
  end.

Definition api_list_jobs : G Response := g ← read; mret (RJobs (map job_response (jobs (gw_disp g)))).

Definition api_cancel_job (job_id reason : string) (a : DispatchAuthority) (srs : string → SendResult) : G Response :=
  signalled ← starter_call (JobCancelled job_id) (λ l, js_cancel l job_id);
  match signalled with
  | Err (NodeMeshError r) =>
      cancelled ← on_disp (NodeDispatch.cancel_job stamp job_id (or_default reason (reason_value JOB_CANCELLED)) (da_commander_id a) srs) unhandled;
      check cancelled (refuse (NodeMeshError r));;
      mret (RCancelling job_id)
  | Err e => raise (unhandled e)
  | Ok _ =>
      on_disp (NodeDispatch.cancel_job stamp job_id (or_default reason (reason_value JOB_CANCELLED)) (da_commander_id a) srs) unhandled;;
      mret (RCancelling job_id)
  end.

Definition api_read_control : G Response := c ← on_disp (on_mesh (dispatch_control stamp)) unhandled; mret (RControl c).
Definition api_freeze (reason : string) (a : DispatchAuthority) (now : datetime) (srs : string → SendResult) : G Response :=
  c ← on_disp (freeze stamp (da_commander_id a) reason now srs) unhandled; mret (RControl c).
Definition api_unfreeze (expected : Z) (reason : string) (a : DispatchAuthority) (now : datetime) : G Response :=
  c ← on_disp (unfreeze stamp (da_commander_id a) expected reason now) refuse; mret (RControl c).

(** [events[-max(min(limit, 500), 1):]] *)
Definition recent {A} (limit : Z) (events : list A) : list A :=
  drop (length events - Z.to_nat (Z.max (Z.min limit 500) 1)) events.

Definition api_read_audit (limit : Z) : G Response :=
  g ← read;
  let s := rg_store (d_reg (gw_disp g)) in
  mret (RAudit (verify_audit_chain s) (audit_head s) (map audit_response (recent limit (audit_events s)))).

(** ** Serving a request *)

Inductive OperatorRoute :=
  | IssueEnrollment (q : IssueEnrollmentRequest) (id_bytes secret_bytes : string)
  | RevokeEnrollment (token_id : string)
  | ListNodes | ListCapabilities
  | Quarantine (node_id reason : string) | Restore (node_id reason : string) | Revoke (node_id reason : string)
  | StartJob (q : StartJobRequest) (uuid : string)
  | ListJobs
  | CancelJob (job_id reason : string) (srs : string → SendResult)
  | ReadControl
  | FreezeMesh (reason : string) (srs : string → SendResult)
  | UnfreezeMesh (expected_freeze_epoch : Z) (reason : string)
  | ReadAudit (limit : Z).

Definition route (r : OperatorRoute) (a : DispatchAuthority) (now now' : datetime) : G Response :=
  match r with
  | IssueEnrollment q id_bytes secret_bytes => issue_enrollment q a now id_bytes secret_bytes
  | RevokeEnrollment token_id => revoke_enrollment token_id a now
  | ListNodes => api_list_nodes now now'
  | ListCapabilities => api_list_capabilities
  | Quarantine node_id reason => api_quarantine node_id reason a now now'
  | Restore node_id reason => api_restore node_id reason a now'
  | Revoke node_id reason => api_revoke node_id reason a now now'
  | StartJob q uuid => api_start_job q a uuid
  | ListJobs => api_list_jobs
  | CancelJob job_id reason srs => api_cancel_job job_id reason a srs
  | ReadControl => api_read_control
  | FreezeMesh reason srs => api_freeze reason a now srs
  | UnfreezeMesh expected reason => api_unfreeze expected reason a now
  | ReadAudit limit => api_read_audit limit
  end.

(** Every operator route asks the authorizer first. *)
Definition serve (h : Headers) (r : OperatorRoute) (now now' : datetime) : G Response := a ← operator h now; route r a now now'.

(** [enroll_node]: authenticated by the enrollment token alone *)
Definition enroll_node (q : EnrollRequest) (now : datetime) (uuid : string) : G EnrollResponse :=
  inner_token ← lift_h (verify_signed_enrollment_token ed_key_ok ed_verify control_plane_public_key (eq_enrollment_token q)) refuse;
  description ← lift_h (make_description (mkDescription (eq_node_name q) (eq_kind q) (eq_platform q) (eq_architecture q) (eq_agent_version q)
    (eq_declared_capabilities q) [])) refuse;
  record ← on_disp (on_mesh (redeem_enrollment_token stamp ed_key_ok inner_token description (eq_public_key q) now uuid)) refuse;
  mret (mkEnrollResponse (n_node_id record) (n_node_name record) (n_granted record) control_plane_public_key control_plane_key_id (cfg_interval cfg)).
End Routes.
