(* ===== verification/NodesApiFacts.v ===== *)
(** The gateway's mesh routes make only steps of the dispatch service, and only for operators under a live lease. *)

From S2P Require Import Prelude PyDict PyTime Sha256 Json NodeModels NodeScopes NodeAudit NodeStore NodeCrypto AuthorityRepository AuthorityFacts.
From S2P Require Import NodeApprovals NodeRegistry NodeRegistryFacts NodeSession NodeDispatch NodeDispatchFacts OperatorAuth NodesApi.

Open Scope Z_scope.

Section Facts.
Context {A : OperatorAuthorizer} {L : OperatorAuthorizerLaws A} `{NodeJobStarter}.
Context (stamp : nat → datetime * string) (cfg : Config) {V : Type} `{ApprovalVerifier V}.
Context (ed_key_ok : string → bool) (ed_sign : string → string → string) (ed_verify : string → string → string → bool).
Context (priv pub key_id : string) (ttl : Z) (allowed : option (list string)).

Notation Disp := (Disp (V := V)).
Notation Gateway := (Gateway (V := V)).
Notation G := (St Gateway http_exn).
Notation steps := (rtc (disp_step (V := V) stamp cfg ed_key_ok ed_sign ed_verify)).

(** What a route may do to the gateway: it leaves the authority alone, makes steps of the dispatch service, and adds these
    calls to the starter's log. *)
Record serves (P : list job_call → Prop) (g g' : Gateway) : Prop := mkServes {
  sv_repo : gw_repo g' = gw_repo g;
  sv_disp : steps (gw_disp g) (gw_disp g');
  sv_jobs : ∃ more, gw_jobs g' = gw_jobs g ++ more ∧ P more }.

Definition no_calls (l : list job_call) : Prop := l = [].

Lemma serves_refl g : serves no_calls g g.
Proof. split; [done|apply rtc_refl|]. exists []. by rewrite app_nil_r. Qed.

Lemma serves_trans P g g1 g2 : serves no_calls g g1 → serves P g1 g2 → serves P g g2.
Proof.
  intros [R1 D1 (? & J1 & ->)] [R2 D2 (more & J2 & HP)]. split; [congruence|by etrans|]. exists more. rewrite J2, J1, app_nil_r. done.
Qed.

Lemma serves_then P g g1 g2 : serves P g g1 → serves no_calls g1 g2 → serves P g g2.
Proof.
  intros [R1 D1 (more & J1 & HP)] [R2 D2 (? & J2 & ->)]. split; [congruence|by etrans|]. exists more. rewrite J2, J1, app_nil_r. done.
Qed.

Definition quiet {B} (m : G B) : Prop := ∀ g, serves no_calls g (final (m g)).

Lemma quiet_seq {B C} (m : G B) (k : B → G C) : quiet m → (∀ b, quiet (k b)) → quiet (m ≫= k).
Proof.
  intros Hm Hk g. pose proof (Hm g) as H1. unfold final in H1 |- *. unfold mbind, st_bind. destruct (m g) as [[b|e] g1]; cbn in H1 |- *; [|done].
  eapply serves_trans; [exact H1|apply Hk].
Qed.
Lemma quiet_ret {B} (b : B) : quiet (mret b). Proof. intros g. apply serves_refl. Qed.
Lemma quiet_lift {B} (r : result http_exn B) : quiet (liftR r). Proof. intros g. apply serves_refl. Qed.
Lemma quiet_check b e : quiet (check b e). Proof. intros g. apply serves_refl. Qed.
Lemma quiet_read : quiet read. Proof. intros g. apply serves_refl. Qed.
Lemma quiet_raise {B} e : quiet (raise (A := B) e). Proof. intros g. apply serves_refl. Qed.

Lemma quiet_disp {B} (m : St Disp exn B) h : (∀ d, steps d (final (m d))) → quiet (on_disp m h).
Proof.
  intros Hm g. unfold on_disp, final in *. specialize (Hm (gw_disp g)). destruct (m (gw_disp g)) as [x d]; cbn in *.
  split; [done|done|]. exists []. by rewrite app_nil_r.
Qed.

Lemma quiet_step {B} (m : St Disp exn B) h : (∀ d, disp_step stamp cfg ed_key_ok ed_sign ed_verify d (final (m d))) → quiet (on_disp m h).
Proof. intros Hm. apply quiet_disp. intros d. apply rtc_once, Hm. Qed.

Lemma quiet_mesh {B} (m : St MeshStore exn B) h : (∀ s, mesh_step stamp ed_key_ok cfg s (final (m s))) → quiet (on_disp (on_mesh m) h).
Proof. intros Hm. apply quiet_step. intros d. pose proof (ds_registry (V := V) stamp cfg ed_key_ok ed_sign ed_verify _ d (Hm _)) as Hd. exact Hd. Qed.

Lemma quiet_control h : quiet (on_disp (on_mesh (dispatch_control stamp)) h).
Proof. apply quiet_disp. intros d. rewrite control_run. apply rtc_refl. Qed.

Lemma list_views_run now (d : Disp) : final (on_mesh (list_views stamp cfg now) d) = d.
Proof.
  unfold on_mesh, on_reg, on_store, list_views, final, mbind, st_bind. rewrite transaction_atomic. unfold run_atomic. cbn. by destruct d as [[] ? ? ?].
Qed.

Create HintDb api.
#[local] Hint Resolve quiet_seq quiet_ret quiet_lift quiet_check quiet_read quiet_raise quiet_control quiet_mesh quiet_step : api.
#[local] Hint Constructors mesh_step disp_step : api.

Lemma quiet_respond n now : quiet (respond_node cfg n now).
Proof. unfold respond_node, lift_h. eauto with api. Qed.
#[local] Hint Resolve quiet_respond : api.

Lemma refuse_start_quiet r e : quiet (refuse_start stamp r e).
Proof. destruct e; unfold refuse_start; eauto with api. Qed.

(** The calls a request makes on the starter: none, a start under its authority while the mesh runs, or one cancellation. *)
Definition route_calls (a : DispatchAuthority) (d : Disp) (l : list job_call) : Prop :=
  l = [] ∨ (∃ j, l = [JobCancelled j]) ∨
  ∃ r, l = [JobStarted r] ∧ rq_authority r = a ∧ make_request r = Ok r ∧ is_dispatchable (rq_capability r) = true ∧
    c_frozen (s_control (rg_store (d_reg d))) = false.

Lemma serves_weaken P Q g g' : (∀ l, P l → Q l) → serves P g g' → serves Q g g'.
Proof. intros HPQ [R D (more & J & HP)]. split; [done|done|]. exists more. auto. Qed.

Lemma quiet_calls {B} (m : G B) a g : quiet m → serves (route_calls a (gw_disp g)) g (final (m g)).
Proof. intros Hm. eapply serves_weaken; [|apply Hm]. intros l ->. by left. Qed.

Lemma make_request_Ok r r' : make_request r = Ok r' → r' = r ∧ make_request r = Ok r.
Proof. intros Hr. assert (r' = r) as ->; [|done]. revert Hr. unfold make_request. by intros (? & _ & (? & _ & [= <-])%bind_Ok)%bind_Ok. Qed.

Lemma start_job_serves q a uuid g : serves (route_calls a (gw_disp g)) g (final (api_start_job stamp q a uuid g)).
Proof.
  unfold api_start_job. destruct (make_request _) as [r|e] eqn:Er; unfold lift_h.
  2: { erewrite bind_run_Err by done. apply (quiet_calls (raise (unhandled e))), quiet_raise. }
  erewrite bind_run_Ok by done. apply make_request_Ok in Er as [-> Er]. set (r := mkRequest _ _ _ _ _ _ _ _ _) in *.
  destruct (require_dispatchable_capability (sq_capability q)) as [desc|e] eqn:Ec; [|apply quiet_calls, refuse_start_quiet].
  assert (Hctl : on_disp (on_mesh (dispatch_control stamp)) unhandled g = (Ok (s_control (rg_store (d_reg (gw_disp g)))), g)).
  { unfold on_disp. rewrite control_run. by destruct g. }
  erewrite bind_run_Ok by exact Hctl. destruct (c_frozen _) eqn:Ef; [apply quiet_calls, refuse_start_quiet|].
  erewrite bind_run_Ok by reflexivity. set (g1 := mkGateway _ _ _).
  assert (H1 : serves (route_calls a (gw_disp g)) g g1).
  { split; [done|apply rtc_refl|]. exists [JobStarted r]. split; [done|]. right; right. exists r. split_and!; try done.
    unfold is_dispatchable. cbn. by rewrite Ec. }
  eapply serves_then; [exact H1|]. destruct (js_start _ _); [apply quiet_ret|apply refuse_start_quiet].
Qed.

Lemma cancel_job_serves j reason a srs g : serves (route_calls a (gw_disp g)) g (final (api_cancel_job stamp j reason a srs g)).
Proof.
  unfold api_cancel_job. erewrite bind_run_Ok by reflexivity. set (g1 := mkGateway _ _ _).
  assert (H1 : serves (route_calls a (gw_disp g)) g g1).
  { split; [done|apply rtc_refl|]. exists [JobCancelled j]. split; [done|]. right; left. by exists j. }
  eapply serves_then; [exact H1|]. assert (Hq : ∀ h, quiet (on_disp (NodeDispatch.cancel_job stamp j (or_default reason (reason_value JOB_CANCELLED)) (da_commander_id a) srs) h)).
  { intros h. apply quiet_step. intros d. apply ds_cancel. }
  destruct (js_cancel _ _) as [?|[]]; try apply quiet_raise; (apply quiet_seq; [apply Hq|intros ?]); eauto with api.
Qed.

(** The identifier of an issued token is fresh; it is eight random bytes. *)
Definition fresh_ids (r : OperatorRoute) (g : Gateway) : Prop :=
  match r with IssueEnrollment _ idb _ => dget (hex idb) (s_tokens (rg_store (d_reg (gw_disp g)))) = None | _ => True end.

Lemma issue_serves q a now idb secb g : dget (hex idb) (s_tokens (rg_store (d_reg (gw_disp g)))) = None →
  serves no_calls g (final (issue_enrollment stamp cfg ed_sign priv ttl allowed q a now idb secb g)).
Proof.
  intros Hf. unfold issue_enrollment. set (b := match allowed with Some l => _ | None => true end). destruct b.
  2: { erewrite bind_run_Err by done. apply serves_refl. }
  erewrite bind_run_Ok by done. set (m := issue_enrollment_token stamp cfg _ _ _ _ _ _ _ _ _ _).
  set (k := λ issued : IssuedEnrollment, _). assert (Hk : ∀ b, quiet (k b)) by (intros b; unfold k, lift_h; eauto with api). clearbody k.
  assert (Hd : serves no_calls g (final (on_disp (on_mesh m) refuse g))).
  { unfold on_disp, on_mesh, on_reg, on_store, final. cbn. split; [done| |exists []; by rewrite app_nil_r]. apply rtc_once.
    refine (ds_registry (V := V) stamp cfg ed_key_ok ed_sign ed_verify (final (m (rg_store (d_reg (gw_disp g))))) (gw_disp g) _).
    by apply ms_issue. }
  unfold mbind, st_bind, final in *. destruct (on_disp (on_mesh m) refuse g) as [[i|e] g1]; cbn in *; [|done]. eapply serves_trans; [exact Hd|apply Hk].
Qed.

Lemma route_serves r a now now' g : fresh_ids r g →
  serves (route_calls a (gw_disp g)) g (final (route stamp cfg ed_sign priv ttl allowed r a now now' g)).
Proof.
  intros Hf. destruct r; cbn [route].
  - eapply serves_weaken; [|by apply issue_serves]. intros l ->. by left.
  - apply quiet_calls; unfold revoke_enrollment. eauto with api.
  - apply quiet_calls; unfold api_list_nodes, respond_nodes, lift_h. apply quiet_seq; [eauto with api|intros _]. apply quiet_seq; [eauto with api|intros c].
    apply quiet_seq; [|eauto with api]. apply quiet_disp. intros d. rewrite list_views_run. apply rtc_refl.
  - apply quiet_calls, quiet_ret.
  - apply quiet_calls; unfold api_quarantine. eauto with api.
  - apply quiet_calls; unfold api_restore. eauto with api.
  - apply quiet_calls; unfold api_revoke. apply quiet_seq; [eauto with api|intros n]. apply quiet_seq; [eauto with api|intros g1]. apply quiet_seq; [|eauto with api].
    destruct (session_for _ _); eauto with api.
  - apply start_job_serves.
  - apply quiet_calls; unfold api_list_jobs. eauto with api.
  - apply cancel_job_serves.
  - apply quiet_calls; unfold api_read_control. eauto with api.
  - apply quiet_calls; unfold api_freeze. eauto with api.
  - apply quiet_calls; unfold api_unfreeze. eauto with api.
  - apply quiet_calls; unfold api_read_audit. eauto with api.
Qed.

Lemma operator_run h now (g : Gateway) : let '(x, g') := operator h now g in
  g' = g ∧ x = outcome (authorize (hd_authorization h) (hd_commander_ids h) (hd_authority_lease_ids h) now (gw_repo g)).
Proof.
  unfold operator, outcome. pose proof (au_readonly (hd_authorization h) (hd_commander_ids h) (hd_authority_lease_ids h) now (gw_repo g)) as Hr.
  unfold final in Hr. destruct (authorize _ _ _ _ (gw_repo g)) as [x r]. cbn in *. subst r. by destruct g.
Qed.

(** Serving a request: refused as the authorizer refuses, with nothing changed, or the route under the authority it gave. *)
Lemma request_cases h r now now' (g : Gateway) : fresh_ids r g →
  let p := serve stamp cfg ed_sign priv ttl allowed h r now now' g in
  let x := outcome (authorize (hd_authorization h) (hd_commander_ids h) (hd_authority_lease_ids h) now (gw_repo g)) in
  (∃ e, x = Err e ∧ p = (Err e, g)) ∨
  (∃ a, x = Ok a ∧ serves (route_calls a (gw_disp g)) g (final p)).
Proof.
  intros Hf p x. subst p x. unfold serve. pose proof (operator_run h now g) as Ho. destruct (operator h now g) as [x g'] eqn:E. destruct Ho as [-> Hx].
  rewrite <- Hx. destruct x as [a|e].
  - right. exists a. split; [done|]. erewrite bind_run_Ok by exact E. by apply route_serves.
  - left. exists e. split; [done|]. by erewrite bind_run_Err by exact E.
Qed.
End Facts.

(** ** The production gateway *)

Section Production.
Context `{NodeJobStarter} (stamp : nat → datetime * string) (cfg : Config) {V : Type} `{ApprovalVerifier V}.
Context (ed_key_ok : string → bool) (ed_sign : string → string → string) (ed_verify : string → string → string → bool).
Context (priv pub : string) (ttl : Z) (allowed : option (list string)) (commander : string).
#[local] Instance production : OperatorAuthorizer := production_authorizer ed_key_ok ed_verify commander pub.

(** C38. What an operator request can do: on the production gateway every request leaves the authority repository alone and takes
    the mesh through steps of the dispatch service only, so that all that holds of its histories holds of the routes. A request
    that changes anything, the calls on the job starter included, came under the one live lease of an authority that is not
    frozen, with a grant for that lease signed by the operator's key; a job it starts carries that lease and epoch, asks for a
    dispatchable capability, and is started while dispatch is not frozen. *)
Theorem operator_api_sound h r now now' (g : Gateway (V := V)) : reachable (gw_repo g) → fresh_ids r g →
  let g' := final (serve stamp cfg ed_sign priv ttl allowed h r now now' g) in
  gw_repo g' = gw_repo g ∧ rtc (disp_step stamp cfg ed_key_ok ed_sign ed_verify) (gw_disp g) (gw_disp g') ∧
  (g' = g ∨ ∃ l token more,
     live_operator ed_key_ok ed_verify commander pub (hd_authorization h) (hd_commander_ids h) (hd_authority_lease_ids h) now (gw_repo g) l token ∧
     gw_jobs g' = gw_jobs g ++ more ∧ route_calls (mkAuthority commander (l_id l) (Some (l_epoch l))) (gw_disp g) more).
Proof.
  intros Hr Hf g'. pose proof (request_cases stamp cfg ed_key_ok ed_sign ed_verify priv ttl allowed h r now now' g Hf) as [(e & _ & Hp)|(a & Ha & Hs)].
  - assert (g' = g) as -> by (unfold g'; by rewrite Hp). split_and!; [done|apply rtc_refl|by left].
  - fold g' in Hs. destruct Hs as [S1 S2 (more & S3 & S4)]. split_and!; [done|done|]. right.
    destruct (authorized_live ed_key_ok ed_verify commander pub _ _ _ now (gw_repo g) a Hr Ha) as (l & token & -> & Hl). by exists l, token, more.
Qed.
End Production.

(** * Enrollment over the gateway's routes, from the issued token to the registered node *)

From Stdlib Require Import Ascii.

Section Enrollment.
Context `{NodeJobStarter} (stamp : nat → datetime * string) (cfg : Config) {V : Type} `{ApprovalVerifier V}.
Context (ed_key_ok : string → bool) (ed_public : string → string).
Context (ed_sign : string → string → string) (ed_verify : string → string → string → bool).
(** What Ed25519 documents: public keys are 32 accepted bytes, signatures are
    non-empty and verify under the public key of the signing key. *)
Context (ed_public_ok : ∀ sk, String.length (ed_public sk) = 32%nat ∧ ed_key_ok (ed_public sk) = true).
Context (ed_sign_nonempty : ∀ sk m, is_empty (ed_sign sk m) = false).
Context (ed_sign_verify : ∀ sk m, ed_verify (ed_public sk) m (ed_sign sk m) = true).
Context (priv pub key_id : string) (ttl : Z) (allowed : option (list string)).

(** An issued token's record: unused, for this node and grant, with the hash of the secret presented. *)
Record issued_record (i : IssuedEnrollment) (secret : string) (t : EnrollmentTokenRecord) : Prop := mkIssuedRecord {
  id_presented : ie_presented i = ENROLLMENT_PREFIX +:+ "_" +:+ ie_token_id i +:+ "_" +:+ secret;
  id_secret : t_secret_hash t = hash_enrollment_secret (ie_token_id i) secret;
  id_fields : t_node_name t = ie_node_name i ∧ t_kind t = ie_kind i ∧ t_platform t = ie_platform i ∧ t_granted t = ie_granted i ∧
    t_expires_at t = ie_expires_at i ∧ t_scopes t = ie_scopes i;
  id_unused : t_consumed_at t = None ∧ t_revoked_at t = None }.

Lemma issue_run name kind platform granted by_ ttl' scopes now idb secb s i s' :
  issue_enrollment_token stamp cfg name kind platform granted by_ ttl' scopes now idb secb s = (Ok i, s') →
  ie_token_id i = hex idb ∧ ∃ t, dget (ie_token_id i) (s_tokens s') = Some t ∧ issued_record i (encode_bytes secb) t.
Proof.
  unfold issue_enrollment_token, liftR. intros (gs & s1 & [= Eg <-] & (t & s2 & [= Et <-] & (frozen & s3 & Htx & Hrest)%bind_run_inv)%bind_run_inv)%bind_run_inv.
  apply make_token_Ok in Et as ->. rewrite transaction_atomic in Htx. unfold run_atomic in Htx. cbn in Htx.
  destruct (c_frozen (s_control s)); cbn in Htx; injection Htx as <- <-; [done|].
  cbn in Hrest. injection Hrest as <- <-. cbn. split; [done|]. eexists. rewrite dget_dset_eq. split; [done|]. split; done.
Qed.

Lemma redeem_run presented d key raw now uuid s tid secret t : split_enrollment_token presented = Ok (tid, secret) →
  load_public_key ed_key_ok key = Ok raw → is_blank key = false → dget tid (s_tokens s) = Some t →
  t_secret_hash t = hash_enrollment_secret tid secret → enrollment_failure t d now = None →
  ∃ s', redeem_enrollment_token stamp ed_key_ok presented d key now uuid s = (Ok (enrolled_node ("node-" +:+ uuid) t d key now), s') ∧
    dget ("node-" +:+ uuid) (s_nodes s') = Some (enrolled_node ("node-" +:+ uuid) t d key now).
Proof.
  intros Hs Hk Hb Ht Hh Hf. unfold redeem_enrollment_token. rewrite Hs. cbn [mbind result_bind]. rewrite Hk. cbn [mbind result_bind].
  assert (Hn : make_node (enrolled_node ("node-" +:+ uuid) t d key now) = Ok (enrolled_node ("node-" +:+ uuid) t d key now)).
  { unfold make_node. cbn [enrolled_node n_node_id n_public_key]. rewrite Hb. change ("node-" +:+ uuid) with (String "n"%char ("ode-" +:+ uuid)). by rewrite not_blank_cons. }
  unfold mbind, st_bind. rewrite transaction_atomic. unfold run_atomic, redeem_body. cbn -[make_node enrolled_node String.append]. rewrite Ht. unfold enrollment_secret_matches.
  rewrite Hh, bool_decide_refl, Hf. cbn -[make_node enrolled_node String.append]. rewrite Hn. cbn -[enrolled_node String.append]. eexists. split; [done|].
  cbn -[enrolled_node String.append]. change (n_node_id (enrolled_node ?i _ _ _ _)) with i. by rewrite dget_dset_eq.
Qed.

(** Enrollment over the gateway: a token that the issue route answered with, presented to the enroll route before it expires, by
    a node of the name, kind and platform it was issued for and with a valid key, while its record is as issued, is accepted: the
    node is registered under exactly the granted capabilities and scopes and told the control plane's key, whatever else happened
    to the mesh in between. *)
Theorem api_enrollment_roundtrip q a now idb secb (g : Gateway (V := V)) resp (g1 : Gateway (V := V)) e raw now' uuid (g2 : Gateway (V := V)) :
  public_key_of ed_public priv = Ok pub → is_empty idb = false → is_empty secb = false →
  issue_enrollment stamp cfg ed_sign priv ttl allowed q a now idb secb g = (Ok (RIssued resp), g1) →
  dget (ir_token_id resp) (s_tokens (rg_store (d_reg (gw_disp g2)))) = dget (ir_token_id resp) (s_tokens (rg_store (d_reg (gw_disp g1)))) →
  eq_enrollment_token e = ir_enrollment_token resp → strip (eq_node_name e) = ir_node_name resp → eq_kind e = ir_kind resp →
  eq_platform e = ir_platform resp → now' < ir_expires_at resp →
  is_blank (eq_node_name e) = false → is_blank (eq_architecture e) = false → is_blank (eq_agent_version e) = false →
  load_public_key ed_key_ok (eq_public_key e) = Ok raw → is_blank (eq_public_key e) = false →
  ∃ g3 n, enroll_node stamp cfg ed_key_ok ed_verify pub key_id e now' uuid g2 =
      (Ok (mkEnrollResponse ("node-" +:+ uuid) (ir_node_name resp) (ir_granted_capabilities resp) pub key_id (cfg_interval cfg)), g3) ∧
    dget ("node-" +:+ uuid) (s_nodes (rg_store (d_reg (gw_disp g3)))) = Some n ∧
    n_granted n = ir_granted_capabilities resp ∧ n_public_key n = eq_public_key e ∧ decode_scopes (n_scopes n) [] = Ok (ir_capability_scopes resp).
Proof.
  intros Hpub Hi Hsec Hissue Hsame Htok Hname Hkind Hplat Hexp Hbn Hba Hbv Hkey Hbk.
  unfold issue_enrollment in Hissue. apply bind_run_inv in Hissue as (? & g0 & [= _ <-] & Hissue).
  apply bind_run_inv in Hissue as (i & g' & Hi' & Hissue). apply bind_run_inv in Hissue as (token & g'' & [= Ht <-] & Hissue).
  apply bind_run_inv in Hissue as (scopes & g3 & [= Hsc <-] & [= <- <-]). cbn [ir_token_id ir_enrollment_token ir_node_name ir_kind ir_platform ir_expires_at
    ir_granted_capabilities ir_capability_scopes] in *.
  assert (Hrun : issue_enrollment_token stamp cfg (iq_node_name q) (iq_kind q) (iq_platform q) (iq_capabilities q) (da_commander_id a)
    (Some (match iq_ttl_seconds q with Some t => if t =? 0 then ttl else t | None => ttl end)) (iq_capability_scopes q) now idb secb (rg_store (d_reg (gw_disp g))) =
    (Ok i, rg_store (d_reg (gw_disp g')))).
  { unfold on_disp, on_mesh, on_reg, on_store in Hi'. cbn in Hi'. destruct (issue_enrollment_token _ _ _ _ _ _ _ _ _ _ _ _ _) as [[i0|e0] s0] eqn:E; cbn in Hi'; [|done].
    injection Hi' as <- <-. by cbn. }
  apply issue_run in Hrun as (Hid & t & Htok' & [P1 P2 (F1 & F2 & F3 & F4 & F5 & F6) (U1 & U2)]). rewrite Htok' in Hsame.
  assert (Hsign : sign_enrollment_token ed_sign priv (ie_presented i) = Ok token) by (destruct (sign_enrollment_token ed_sign priv (ie_presented i)); congruence).
  assert (Hsplit : split_enrollment_token (ie_presented i) = Ok (ie_token_id i, encode_bytes secb)).
  { rewrite P1. unfold split_enrollment_token. rewrite split_presented by (done || (rewrite Hid; apply hex_has_not)).
    rewrite bool_decide_refl, encode_nonempty, Hid by done. by destruct idb. }
  assert (Hver := signed_enrollment_roundtrip ed_key_ok ed_public ed_sign ed_verify ed_public_ok ed_sign_nonempty ed_sign_verify priv pub _ token Hpub Hsign).
  set (d := mkDescription (eq_node_name e) (eq_kind e) (eq_platform e) (eq_architecture e) (eq_agent_version e) (eq_declared_capabilities e) []).
  assert (Hd : make_description d = Ok d) by (unfold make_description; cbn [d nd_node_name nd_architecture nd_agent_version nd_labels]; by rewrite Hbn, Hba, Hbv).
  assert (Hfail : enrollment_failure t d now' = None).
  { unfold enrollment_failure, revoked_token, consumed_token. rewrite U1, U2. cbn [is_some d nd_node_name nd_platform nd_kind].
    rewrite (proj2 (Z.leb_gt _ _)) by (rewrite F5; lia). rewrite !bool_decide_eq_true_2 by congruence. done. }
  destruct (redeem_run (ie_presented i) d (eq_public_key e) raw now' uuid (rg_store (d_reg (gw_disp g2))) (ie_token_id i) (encode_bytes secb) t
    Hsplit Hkey Hbk Hsame P2 Hfail) as (s' & Hr & Hn).
  unfold enroll_node. rewrite Htok, Hver. fold d. rewrite Hd. unfold lift_h, liftR, mbind, st_bind. unfold on_disp, on_mesh, on_reg, on_store.
  rewrite Hr. eexists _, _. split; [cbn; by rewrite F1, F4|]. cbn. split_and!; [exact Hn|done|done|]. cbn. rewrite F6.
  destruct (decode_scopes (ie_scopes i) []); congruence.
Qed.
End Enrollment.
