(* ===== verification/ProductionApp.v ===== *)
(** The production gateway (src/olympus/gateway/production.py): the request size limit, the origin check, the WebAuthn routes that
    hand out operator grants, and the Discord route.

    A request is its headers, with lower-case names in the order received, and its body; pydantic's parsing of the bodies is a
    library's, so a route takes the parsed fields. The state is the one the Discord service works on: the authority repository,
    the latch and the workflow gateway. *)

From stdpp Require Import pretty.
From S2P Require Import Prelude PyDict PyTime Sha256 Json JsonParse PyParse NodeModels NodeCrypto AuthorityRepository EmergencyLatch WebAuthn.
From S2P Require Import Commands Discord OperatorAuth.

Open Scope Z_scope.

Record HttpRequest := mkHttp { ht_headers : list (string * string); ht_body : string }.

(** [headers.get(name)], [headers.getlist(name)], [name in headers] *)
Definition header_values (r : HttpRequest) (name : string) : list string :=
  map snd (List.filter (λ kv, bool_decide (kv.1 = name)) (ht_headers r)).
Definition header (r : HttpRequest) (name : string) : option string := head (header_values r name).
Definition has_header (r : HttpRequest) (name : string) : bool := negb (bool_decide (header_values r name = [])).

(** What a response carries besides its status *)
Inductive Body :=
  | Detail (text : string)
  | RegistrationOptions (c : Ceremony RegistrationRequest)
  | Registered
  | LeaseOptions (c : Ceremony AuthenticationRequest)
  | Authorized (authority_epoch : Z) (expires_at : string) (grant : option OperatorGrant)
  | RecoveryOptions (r : RecoveryCeremony)
  | Recovered (authority_epoch freeze_epoch : Z) (expires_at : string) (grant : option OperatorGrant)
  | DiscordReply (r : DiscordCommandResponse).
Record HttpResponse := mkHttpResponse { hr_status : Z; hr_body : Body }.

(** ** Middleware and exception handlers *)

Definition MAX_REQUEST_BYTES : Z := 1024 * 1024.

(** [enforce_request_size]: the response that stops the request, if any *)
Definition enforce_request_size (r : HttpRequest) : option HttpResponse :=
  let too_large := Some (mkHttpResponse 413 (Detail "request too large")) in
  let body := if MAX_REQUEST_BYTES <? str_len (ht_body r) then too_large else None in
  match header r "content-length" with
  | None => body
  | Some text =>
      match int_of_str text with
      | Some n => if MAX_REQUEST_BYTES <? n then too_large else body
      | None => Some (mkHttpResponse 400 (Detail "invalid content length"))
      end
  end.

(** What a route raises *)
Inductive app_exn := AppHttp (e : http_exn) | AppWa (e : wa_exn) | AppDiscord (e : discord_exn) | AppPermissionError.

(** the exception handlers of the application; an exception without one is a server error *)
Definition respond (x : result app_exn Body) : HttpResponse :=
  match x with
  | Ok b => mkHttpResponse 200 b
  | Err (AppHttp (HTTPException status detail)) => mkHttpResponse status (Detail detail)
  | Err (AppWa (BootstrapDenied _)) => mkHttpResponse 403 (Detail "ceremony unavailable")
  | Err (AppWa (AuthenticationAnomaly _)) => mkHttpResponse 403 (Detail "request denied")
  | Err _ => mkHttpResponse 500 (Detail "Internal Server Error")
  end.

(** ** Routes *)

Record App := mkApp {
  ap_service : Service;
  ap_webauthn_origin : string;
  ap_webauthn_host : string;
  ap_bootstrap_enabled : bool;
  ap_operator_private_key : option string;
  ap_discord_public_key : string;
  (** [DiscordCommandService], or [DiscordAuthorityDisabled] *)
  ap_discord : option DiscordService }.

Notation AM := (St DiscordWorld app_exn).

Definition on_webauthn {A} (m : WA A) : AM A := λ w,
  let '(x, r) := m (dw_repo w) in
  (match x with Ok a => Ok a | Err e => Err (AppWa e) end, mkWorld r (dw_latch w) (dw_calls w)).
Definition lift_http {A} (r : result http_exn A) : AM A := λ w, (match r with Ok a => Ok a | Err e => Err (AppHttp e) end, w).

(** [require_private_origin] *)
Definition require_private_origin (a : App) (r : HttpRequest) : result http_exn () :=
  ensure (bool_decide (header r "origin" = Some (ap_webauthn_origin a)) && bool_decide (header r "host" = Some (ap_webauthn_host a))
    && negb (has_header r "x-forwarded-host") && negb (has_header r "x-forwarded-proto")) (HTTPException 403 "request denied").

(** [_base64url_decode] and [_credential_id] *)
Definition base64url_decode (value : string) : result http_exn string :=
  let padded := value +:+ padding value in
  ensure (is_ascii padded) (HTTPException 422 "invalid credential");;
  require_some (a2b padded 0 0 0) (HTTPException 422 "invalid credential").
Definition credential_id (credential : dict string json) : result http_exn string :=
  match dget "rawId" credential with
  | Some (JStr raw_id) => base64url_decode raw_id
  | _ => Err (HTTPException 422 "invalid credential")
  end.

Section Routes.
Context `{WebAuthnLib} `{WorkflowGateway} (ed_sign : string → string → string) (nacl_verify : string → string → string → bool).
Context (latch_sign : string → string) (latch_verify : string → string → bool) (a : App).
(** [json.loads] and [DiscordInteraction.model_validate]: pydantic's *)
Context (parse_interaction : string → option DiscordInteraction).

(** the operator grant of a response, when the gateway serves the node mesh *)
Definition grant_for (lease : AuthorityLease) : AM (option OperatorGrant) := λ w,
  match ap_operator_private_key a with
  | None => (Ok None, w)
  | Some key =>
      match issue_operator_grant ed_sign key lease with
      | Ok g => (Ok (Some g), w)
      | Err _ => (Err (AppHttp (Unhandled "NodeMeshError")), w)
      end
  end.

Definition registration_options (r : HttpRequest) (value uuid : string) (now : datetime) : AM Body :=
  lift_http (require_private_origin a r);;
  c ← on_webauthn (begin_registration (ap_service a) BOOTSTRAP_REGISTRATION (ap_bootstrap_enabled a) value uuid now);
  mret (RegistrationOptions c).

Definition registration_verify (r : HttpRequest) (challenge_id : string) (credential : dict string json) (now : datetime) : AM Body :=
  lift_http (require_private_origin a r);;
  on_webauthn (finish_registration (ap_service a) challenge_id (JObj credential) now);;
  mret Registered.

Definition lease_options (r : HttpRequest) (value uuid : string) (now : datetime) : AM Body :=
  lift_http (require_private_origin a r);;
  c ← on_webauthn (begin_authentication (ap_service a) value uuid now);
  mret (LeaseOptions c).

Definition lease_verify (r : HttpRequest) (challenge_id : string) (credential : dict string json) (uuid : string) (now : datetime) : AM Body :=
  lift_http (require_private_origin a r);;
  id ← lift_http (credential_id credential);
  lease ← on_webauthn (finish_authentication (ap_service a) challenge_id id (JObj credential) uuid now);
  grant ← grant_for lease;
  mret (Authorized (l_epoch lease) (isoformat (l_expires_at lease)) grant).

Definition recovery_options (r : HttpRequest) (request_id credential : string) (value uuid : string) (now : datetime) : AM Body :=
  lift_http (require_private_origin a r);;
  id ← lift_http (base64url_decode credential);
  c ← on_webauthn (begin_recovery (ap_service a) request_id id value uuid now);
  mret (RecoveryOptions c).

Definition recovery_verify (r : HttpRequest) (challenge_id : string) (credential : dict string json) (uuid : string) (now : datetime) : AM Body :=
  lift_http (require_private_origin a r);;
  id ← lift_http (credential_id credential);
  result ← on_webauthn (finish_recovery (ap_service a) challenge_id id (JObj credential) uuid now);
  grant ← grant_for (rx_lease result);
  mret (Recovered (l_epoch (rx_lease result)) (rp_freeze_epoch (rx_proof result)) (isoformat (l_expires_at (rx_lease result))) grant).

(** whether [except (DiscordVerificationError, ValueError, TypeError, json.JSONDecodeError)] catches it *)
Definition is_value_error (e : discord_exn) : bool :=
  match e with
  | DiscordVerificationError _ | DiscordValueError _ | DiscordEnvelope _ | DiscordRepo (RepoValueError _) | DiscordLatch (LatchValueError _) => true
  | _ => false
  end.

Definition denied : Body := Detail "request denied".

(** [discord_interaction]; the clock is read for the verification and for the command *)
Definition discord_interaction (r : HttpRequest) (now now' : datetime) (fault : option write_step) : St DiscordWorld app_exn HttpResponse := λ w,
  match verify_discord_request nacl_verify (ht_body r) (header_values r "x-signature-ed25519") (header_values r "x-signature-timestamp")
          (ap_discord_public_key a) now (minutes 5) with
  | Err _ => (Ok (mkHttpResponse 401 denied), w)
  | Ok _ =>
      match parse_interaction (ht_body r) with
      | None => (Ok (mkHttpResponse 401 denied), w)
      | Some i =>
          match ap_discord a with
          | None => (Err AppPermissionError, w)
          | Some s =>
              match handle latch_sign latch_verify s i (ht_body r) now' fault w with
              | (Ok reply, w') => (Ok (mkHttpResponse 200 (DiscordReply reply)), w')
              | (Err e, w') => ((if is_value_error e then Ok (mkHttpResponse 401 denied) else Err (AppDiscord e)), w')
              end
          end
      end
  end.
End Routes.
