(* ===== verification/ProductionAppFacts.v ===== *)
(** What reaches the services behind the production gateway, and that a completed ceremony opens the mesh to the operator. *)

From stdpp Require Import pretty.
From S2P Require Import Prelude PyDict PyTime Sha256 Json JsonParse PyParse NodeModels NodeCrypto AuthorityRepository AuthorityFacts EmergencyLatch.
From S2P Require Import WebAuthn WebAuthnFacts WebAuthnProps Commands Discord OperatorAuth ProductionApp.

Open Scope Z_scope.

(** ** Ingress *)

Lemma is_ascii_app p q : is_ascii p = true → is_ascii q = true → is_ascii (p +:+ q) = true.
Proof. unfold is_ascii. intros Hp Hq. by rewrite all_chars_app, Hp, Hq. Qed.

Section Ingress.
Context `{WebAuthnLib} `{WorkflowGateway} (ed_sign : string → string → string) (nacl_verify : string → string → string → bool).
Context (latch_sign : string → string) (latch_verify : string → string → bool) (a : App) (parse_interaction : string → option DiscordInteraction).

(** A route guarded by the origin check. *)
Definition guarded {A} (m : HttpRequest → AM A) : Prop := ∀ r w, final (m r w) ≠ w → require_private_origin a r = Ok ().

Lemma guarded_bind {A} (k : HttpRequest → AM A) : guarded (λ r, lift_http (require_private_origin a r);; k r).
Proof.
  intros r w. unfold lift_http, mbind, st_bind, final. destruct (require_private_origin a r) as [[]|e]; [done|]. cbn. done.
Qed.

(** The signature a Discord request must carry: one header of each kind, a recent timestamp, and a signature of timestamp and body. *)
Definition discord_signed (r : HttpRequest) (now : datetime) : Prop :=
  ∃ sig timestamp signed_at raw, header_values r "x-signature-ed25519" = [sig] ∧ header_values r "x-signature-timestamp" = [timestamp] ∧
    (n ← int_of_str timestamp; fromtimestamp n) = Some signed_at ∧ Z.abs (now - signed_at) ≤ minutes 5 ∧
    fromhex sig = Some raw ∧ nacl_verify (ap_discord_public_key a) (timestamp +:+ ht_body r) raw = true.

Lemma encode_ascii_Some t t' : encode_ascii t = Some t' → t' = t.
Proof. unfold encode_ascii. case_match; congruence. Qed.

Lemma verify_discord_Ok r now v :
  verify_discord_request nacl_verify (ht_body r) (header_values r "x-signature-ed25519") (header_values r "x-signature-timestamp")
    (ap_discord_public_key a) now (minutes 5) = Ok v → discord_signed r now.
Proof.
  unfold verify_discord_request, discord_signed. destruct (header_values r "x-signature-ed25519") as [|sig [|]]; try done.
  destruct (header_values r "x-signature-timestamp") as [|t [|]]; try done.
  intros (? & _ & (at_ & Hat%require_some_Ok & (? & Htol%ensure_Ok & (? & Hv%ensure_Ok & _)%bind_Ok)%bind_Ok)%bind_Ok)%bind_Ok.
  destruct (fromhex sig) as [raw|] eqn:Er; [|done]. destruct (encode_ascii t) as [t'|] eqn:Et; [|done]. apply encode_ascii_Some in Et. subst t'.
  exists sig, t, at_, raw. bool_to_prop. by split_and!.
Qed.

(** Nothing behind the gateway moves without its credential: a WebAuthn route changes the authority only for a request from
    the pinned origin and host that no proxy forwarded, and the Discord route changes anything only for a request with exactly one
    signature and timestamp header, at most five minutes off, whose signature over timestamp and body verifies under the
    application's key, and then does what the Discord service does with the parsed body. *)
Theorem ingress_guarded :
  (∀ value uuid now, guarded (λ r, registration_options a r value uuid now)) ∧
  (∀ ci credential now, guarded (λ r, registration_verify a r ci credential now)) ∧
  (∀ value uuid now, guarded (λ r, lease_options a r value uuid now)) ∧
  (∀ ci credential uuid now, guarded (λ r, lease_verify ed_sign a r ci credential uuid now)) ∧
  (∀ rid credential value uuid now, guarded (λ r, recovery_options a r rid credential value uuid now)) ∧
  (∀ ci credential uuid now, guarded (λ r, recovery_verify ed_sign a r ci credential uuid now)) ∧
  ∀ r now now' fault w, let w' := final (discord_interaction nacl_verify latch_sign latch_verify a parse_interaction r now now' fault w) in
    w' ≠ w → discord_signed r now ∧ ∃ s i, ap_discord a = Some s ∧ parse_interaction (ht_body r) = Some i ∧
      w' = final (handle latch_sign latch_verify s i (ht_body r) now' fault w).
Proof.
  split_and!; [intros; apply guarded_bind..|]. intros r now now' fault w w'. unfold w', discord_interaction, final.
  destruct (verify_discord_request _ _ _ _ _ _ _) as [v|e] eqn:Ev; [|done]. destruct (parse_interaction (ht_body r)) as [i|] eqn:Ep; [|done].
  destruct (ap_discord a) as [s|] eqn:Es; [|done]. intros _. split; [by eapply verify_discord_Ok|]. exists s, i. split_and!; [done|done|].
  destruct (handle _ _ _ _ _ _ _ w) as [[?|?] ?]; done.
Qed.
End Ingress.

(** ** From Face ID to the mesh *)

Section Opens.
Context `{WebAuthnLib} (ed_key_ok : string → bool) (ed_public : string → string).
Context (ed_sign : string → string → string) (ed_verify : string → string → string → bool).
(** What Ed25519 documents: public keys are 32 accepted bytes, signatures are
    non-empty and verify under the public key of the signing key. *)
Context (ed_public_ok : ∀ sk, String.length (ed_public sk) = 32%nat ∧ ed_key_ok (ed_public sk) = true).
Context (ed_sign_nonempty : ∀ sk m, is_empty (ed_sign sk m) = false).
Context (ed_sign_verify : ∀ sk m, ed_verify (ed_public sk) m (ed_sign sk m) = true).
Context (a : App) (priv pub : string).

Lemma on_repo_inv {A} (m : RM A) r x r' : on_repo m r = (Ok x, r') → m r = (Ok x, r').
Proof. unfold on_repo. destruct (m r) as [[y|] r1]; [by intros [= -> ->]|done]. Qed.

Lemma anomaly_raises {A} uuid reason msg now r (x : A) r' : anomaly uuid reason msg now r ≠ (Ok x, r').
Proof. unfold anomaly, mbind, st_bind. destruct (on_repo _ r) as [[]]; done. Qed.

Lemma authentication_lease s ci id response uuid now r l r' : repo_inv r →
  finish_authentication s ci id response uuid now r = (Ok l, r') →
  ∃ cid epoch, l = new_lease (mkLeaseRequest ("lease-" +:+ uuid) (ws_commander_id s) (ws_guild_id s) (channel_scope_digest s) cid now (now + ws_lease_ttl s)) epoch ∧
    1 ≤ epoch ∧ outcome (active_lease r') = Ok (Some l).
Proof.
  intros Hr. unfold finish_authentication, commit_authentication. intros (c & r1 & H1%on_repo_inv & Hf)%bind_run_inv.
  assert (r1 = r) as -> by (unfold get_challenge, some_or, read, mbind, st_bind in H1; congruence).
  apply bind_run_inv in Hf as (? & r1 & [= _ <-] & Hf). apply bind_run_inv in Hf as (cr & r1 & H2%on_repo_inv & Hf).
  assert (r1 = r) as ->.
  { unfold get_credential, some_or, check, read, mbind, st_bind, mret, st_ret in H2. destruct (require_some _ _); [|done]. destruct (ensure _ _); congruence. }
  apply bind_run_inv in Hf as (v & r1 & [= _ <-] & Hf). destruct (negb _); [by apply anomaly_raises in Hf|]. destruct (_ <? _); [by apply anomaly_raises in Hf|].
  apply bind_run_inv in Hf as (q & r1 & Hq & Hf%on_repo_inv). unfold lift_repo in Hq. destruct (lease_request s cr uuid now) as [q'|] eqn:Eq; [|done].
  injection Hq as <- <-. apply lease_request_Ok in Eq. pose proof (authentication_grants (ch_id c) (ch_digest c) (cr_id cr) (va_new_sign_count v) q' now r Hr) as Hg.
  rewrite Hf in Hg. destruct Hg as (Hl & _ & _ & Hg). exists (cr_id cr), (r_authority_epoch r + 1). rewrite Hl, Eq. split_and!; [done| |].
  - pose proof (ri_epochs r Hr). lia.
  - destruct (gr_active _ _ _ _ _ Hg) as (A1 & A2 & A3). rewrite Hl, Eq in A1, A2, A3. unfold outcome, active_lease, read, some_or, require_some, mbind, st_bind, mret, st_ret.
    rewrite A1, A2. cbn [fst]. by rewrite bool_decide_eq_true_2 by exact A3.
Qed.

Lemma active_lease_same r r2 : r_active r2 = r_active r → r_leases r2 = r_leases r → outcome (active_lease r2) = outcome (active_lease r).
Proof. intros Ha Hl. unfold outcome, active_lease. py_unfold. rewrite Ha, Hl. destruct (r_active r); [|done]. by destruct (dget _ _). Qed.

Lemma epoch_second_range x t y : 0 ≤ x → x ≤ t → t + seconds 1 ≤ y → epoch_second x ≤ epoch_second t < epoch_second y.
Proof. unfold epoch_second, seconds. intros. Z.to_euclidean_division_equations. lia. Qed.

(** C40. A completed ceremony opens the mesh: when the lease route answers with an operator grant, a request that presents that grant,
    its id and its commander is authorized, under the very lease the ceremony issued, from that moment to a second before the lease
    ends, as long as the repository keeps that lease active. *)
Theorem face_id_opens_mesh r ci credential uuid now w epoch expires grant w' r2 t :
  ap_operator_private_key a = Some priv → public_key_of ed_public priv = Ok pub →
  header_ok (ws_commander_id (ap_service a)) = true → is_ascii (ws_commander_id (ap_service a)) = true →
  is_blank (ws_commander_id (ap_service a)) = false → is_ascii uuid = true →
  reachable (dw_repo w) → 0 ≤ now →
  lease_verify ed_sign a r ci credential uuid now w = (Ok (Authorized epoch expires (Some grant)), w') →
  r_active r2 = r_active (dw_repo w') → r_leases r2 = r_leases (dw_repo w') →
  now ≤ t → t + seconds 1 ≤ now + ws_lease_ttl (ap_service a) →
  outcome (authorize_production ed_key_ok ed_verify (ws_commander_id (ap_service a)) pub (Some ["Bearer " +:+ og_token grant])
    [og_commander_id grant] [og_grant_id grant] t r2) =
  Ok (mkAuthority (ws_commander_id (ap_service a)) ("lease-" +:+ uuid) (Some epoch)).
Proof.
  intros Hkey Hpub Hh Hasc Hb Hua Hr%reachable_inv Hnow Hrun Hact Hleases Ht Hexp. set (s := ap_service a) in *.
  unfold lease_verify in Hrun. apply bind_run_inv in Hrun as (? & w0 & Ho & Hrun).
  unfold lift_http in Ho. injection Ho as _ <-. apply bind_run_inv in Hrun as (id & w0 & Hid & Hrun). injection Hid as _ <-.
  apply bind_run_inv in Hrun as (lease & w1 & Hl & Hrun). apply bind_run_inv in Hrun as (g & w2 & Hg & [= <- _ -> <-]).
  unfold grant_for in Hg. rewrite Hkey in Hg. destruct (issue_operator_grant ed_sign priv lease) as [g'|] eqn:Eg; [|done]. injection Hg as -> <-.
  unfold on_webauthn in Hl. fold s in Hl. destruct (finish_authentication s ci id (JObj credential) uuid now (dw_repo w)) as [[l|] r'] eqn:Ef; [|done].
  injection Hl as -> <-. cbn in Hact, Hleases. apply authentication_lease in Ef as (cid & epoch & El & Hep & Ha); [|done].
  rewrite <- (active_lease_same _ _ Hact Hleases) in Ha. assert (Hc : l_commander lease = ws_commander_id s) by by subst lease.
  assert (Hid : l_id lease = "lease-" +:+ uuid) by by subst lease. assert (Hrev : l_revoked_at lease = None) by by subst lease.
  assert (Hiss : l_issued_at lease = now) by by subst lease. assert (Hxp : l_expires_at lease = now + ws_lease_ttl s) by by subst lease.
  assert (Hepoch : 1 ≤ l_epoch lease) by by subst lease. clear El. rewrite <- Hc, <- Hid in *.
  apply (operator_grant_accepted ed_key_ok ed_public ed_sign ed_verify ed_public_ok ed_sign_nonempty ed_sign_verify priv pub lease grant r2 t); try done.
  - rewrite Hid. by apply (is_ascii_app "lease-" uuid).
  - rewrite Hid. by apply not_blank_cons.
  - rewrite Hiss, Hxp. by apply epoch_second_range.
  - rewrite Hiss, Hxp. unfold seconds in Hexp. lia.
Qed.
End Opens.

(** * The gateway on concrete requests: witnesses, and two answers that are not what the code around them says *)

From S2P Require Import NodeScopes NodeAudit NodeStore Authorization.
From S2P Require Import NodeApprovals NodeRegistry NodeRegistryFacts NodeRegistryExamples DiscordFacts.
From S2P Require Import NodeSession NodeDispatch NodeDispatchFacts NodesApi NodesApiFacts NodeDispatchProps.
From Stdlib Require Import Ascii.

(** A signature scheme that hashes key and message. *)
Definition toy_public (sk : string) : string := sha256 ("p" +:+ sk).
Definition toy_signature (sk m : string) : string := "s" +:+ sha256 (toy_public sk +:+ m).
Definition toy_verifies (pk m s : string) : bool := bool_decide (s = "s" +:+ sha256 (pk +:+ m)).

Lemma hash_public_ok sk : String.length (toy_public sk) = 32%nat ∧ any_key (toy_public sk) = true.
Proof. split; [apply sha256_length|reflexivity]. Qed.
Lemma toy_signature_nonempty sk m : is_empty (toy_signature sk m) = false.
Proof. reflexivity. Qed.
Lemma toy_signature_verifies sk m : toy_verifies (toy_public sk) m (toy_signature sk m) = true.
Proof. apply bool_decide_refl. Qed.

Definition gateway_private : string := encode_bytes "0123456789abcdef0123456789abcdef".
Definition gateway_public : string := encode_bytes (toy_public "0123456789abcdef0123456789abcdef").

Lemma gateway_keys : public_key_of toy_public gateway_private = Ok gateway_public.
Proof. apply public_key_ok. vm_compute. reflexivity. Qed.

Definition demo_starter : NodeJobStarter := {| js_start := λ _ r, Ok (rq_job_id r); js_cancel := λ _ _, Err (NodeMeshError JOB_UNKNOWN) |}.
#[local] Existing Instance demo_starter.
#[local] Instance gateway_verifier : ApprovalVerifier Verifier := node_verifier toy_verify.

(** ** An operator request *)

Definition jerry_lease : AuthorityLease := new_lease (sample_lease_request "lease-1") 2.
Definition jerry_grant : OperatorGrant :=
  Eval vm_compute in match issue_operator_grant toy_signature gateway_private jerry_lease with Ok g => g | Err _ => mkGrant "" "" "" end.
Definition jerry_headers : Headers := mkHeaders (Some ["Bearer " +:+ og_token jerry_grant]) ["jerry"] [og_grant_id jerry_grant].
Definition idle : Gateway (V := Verifier) := mkGateway repo3 (empty_disp demo_approvals) [].
#[local] Instance demo_authorizer : OperatorAuthorizer := production_authorizer any_key toy_verifies "jerry" gateway_public.
Definition serve_demo (r : OperatorRoute) (g : Gateway (V := Verifier)) : result http_exn Response * Gateway :=
  serve demo_stamp demo_cfg toy_signature gateway_private 900 (Some ["system.inspect@1"]) jerry_headers r (seconds 10) (seconds 10) g.

Definition inspect_job : OperatorRoute := StartJob (mkStartRequest "system.inspect@1" [] None) "u9".

Lemma operator_api_sound_witness :
  (∃ r, gw_jobs (final (serve_demo inspect_job idle)) = [JobStarted r]) ∧ gw_repo (final (serve_demo inspect_job idle)) = repo3 ∧
  ∃ l, r_active repo3 = Some (l_id l) ∧ l_commander l = "jerry".
Proof.
  assert (Hj : ∃ r, gw_jobs (final (serve_demo inspect_job idle)) = [JobStarted r]) by (eexists; vm_compute; reflexivity). split; [exact Hj|].
  destruct (operator_api_sound (H := demo_starter) demo_stamp demo_cfg any_key toy_signature toy_verifies gateway_private gateway_public 900 (Some ["system.inspect@1"]) "jerry"
    jerry_headers inspect_job (seconds 10) (seconds 10) idle repo3_reachable I) as (H1 & _ & H3). split; [exact H1|].
  destruct H3 as [H3|(l & token & more & Hl & _)].
  - exfalso. destruct Hj as [r Hj]. pose proof (f_equal gw_jobs H3 : gw_jobs (final (serve_demo inspect_job idle)) = []) as H4. rewrite H4 in Hj. discriminate Hj.
  - exists l. split; [apply (proj1 (proj2 (lo_active _ _ _ _ _ _ _ _ _ _ _ Hl)))|apply (lo_commander _ _ _ _ _ _ _ _ _ _ _ Hl)].
Defined.

(** ** Enrollment *)

Definition laptop_request : IssueEnrollmentRequest := mkIssueRequest "laptop" WORKSTATION LINUX ["system.inspect@1"] [] None.
Definition jerry : DispatchAuthority := mkAuthority "jerry" "lease-1" (Some 2).
Definition issue_laptop : result http_exn Response * Gateway (V := Verifier) :=
  issue_enrollment demo_stamp demo_cfg toy_signature gateway_private 900 (Some ["system.inspect@1"]) laptop_request jerry (seconds 10) "abcdefgh" "secret-secret" idle.
Definition laptop_response : IssuedEnrollmentResponse :=
  Eval vm_compute in match outcome issue_laptop with Ok (RIssued r) => r | _ => mkIssuedResponse "" "" "" WORKSTATION LINUX [] [] 0 end.
Definition laptop_enrolls : EnrollRequest :=
  mkEnrollRequest (ir_enrollment_token laptop_response) demo_key " laptop" WORKSTATION LINUX "x86_64" "1.0" ["system.inspect@1"].

Lemma api_enrollment_roundtrip_witness :
  ∃ g3 n, enroll_node demo_stamp demo_cfg any_key toy_verifies gateway_public "key-1" laptop_enrolls (seconds 60) "u7" (final issue_laptop) =
      (Ok (mkEnrollResponse "node-u7" "laptop" ["system.inspect@1"] gateway_public "key-1" 30), g3) ∧
    dget "node-u7" (s_nodes (rg_store (d_reg (gw_disp g3)))) = Some n ∧ n_granted n = ["system.inspect@1"].
Proof.
  assert (Hi : issue_laptop = (Ok (RIssued laptop_response), final issue_laptop)) by (vm_compute; reflexivity).
  destruct (api_enrollment_roundtrip demo_stamp demo_cfg any_key toy_public toy_signature toy_verifies hash_public_ok toy_signature_nonempty toy_signature_verifies
    gateway_private gateway_public "key-1" 900 (Some ["system.inspect@1"]) laptop_request jerry (seconds 10) "abcdefgh" "secret-secret" idle laptop_response
    (final issue_laptop) laptop_enrolls "0123456789abcdef0123456789abcdef" (seconds 60) "u7" (final issue_laptop) gateway_keys eq_refl eq_refl Hi eq_refl eq_refl)
    as (g3 & n & H1 & H2 & H3 & _); [vm_compute; reflexivity..|].
  exists g3, n. split; [exact H1|]. split; [exact H2|exact H3].
Defined.

(** ** From the ceremony to the mesh *)

(** A stand-in library for browser responses: a response repeats the challenge, the key and a counter. *)
Definition browser_answer (challenge key : string) (n : Z) : dict string json :=
  [("rawId", JStr (encode_bytes ("id-" +:+ key))); ("challenge", JStr challenge); ("key", JStr key); ("count", JInt n)].
Definition browser_authentication (response : json) (challenge _rp _origin key : string) (_ : Z) : option LibAuthentication :=
  match response with
  | JObj [_; (_, JStr c); (_, JStr k); (_, JInt n)] =>
      if bool_decide (c = challenge) && bool_decide (k = key) then Some (mkLibAuthentication ("id-" +:+ k) n true) else None
  | _ => None
  end.
Definition browser_lib : WebAuthnLib := {| lib_verify_registration := λ _ _ _ _, None; lib_verify_authentication := browser_authentication |}.
#[local] Existing Instance browser_lib.

Definition demo_app : App :=
  mkApp toy_service "https://olympus.example" "olympus.example" false (Some gateway_private) "discord-key" (Some demo_service).
Definition from_origin (body : string) : HttpRequest := mkHttp [("host", "olympus.example"); ("origin", "https://olympus.example")] body.

(** A repository with a credential and an open lease ceremony. *)
Definition app_challenge (id purpose : string) (value : string) : Challenge :=
  mkChallenge id value (sha256 value) purpose "jerry" b32 None 0 (minutes 5) None.
Definition app_repo1 : Repo := final (create_challenge (app_challenge "challenge-u1" "bootstrap-registration" (value_of "a")) empty_repo).
Definition app_repo2 : Repo :=
  final (complete_registration "challenge-u1" (sha256 (value_of "a")) (mkCredential "id-k1" "jerry" "k1" 0 1 None) 1 app_repo1).
Definition app_repo : Repo := final (create_challenge (app_challenge "challenge-u2" "lease" (value_of "b")) app_repo2).
Definition app_world : DiscordWorld := Discord.mkWorld app_repo (mkLatchDir Absent 0) [].

Lemma app_repo_reachable : reachable app_repo.
Proof.
  apply (reach_step app_repo2); [|exact (step_create_challenge (app_challenge "challenge-u2" "lease" (value_of "b")) app_repo2)].
  apply (reach_step app_repo1); [|exact (step_registration "challenge-u1" (sha256 (value_of "a")) (mkCredential "id-k1" "jerry" "k1" 0 1 None) 1 app_repo1)].
  apply (reach_step empty_repo); [|exact (step_create_challenge (app_challenge "challenge-u1" "bootstrap-registration" (value_of "a")) empty_repo)].
  apply rtc_refl.
Qed.

Definition ceremony_done : result app_exn Body * DiscordWorld :=
  lease_verify toy_signature demo_app (from_origin "") "challenge-u2" (browser_answer (value_of "b") "k1" 1) "u3" (seconds 3) app_world.
Definition ceremony_grant : OperatorGrant :=
  Eval vm_compute in match outcome ceremony_done with Ok (Authorized _ _ (Some g)) => g | _ => mkGrant "" "" "" end.
Definition ceremony_expiry : string := Eval vm_compute in match outcome ceremony_done with Ok (Authorized _ t _) => t | _ => "" end.

Lemma face_id_opens_mesh_witness :
  outcome (authorize_production any_key toy_verifies "jerry" gateway_public (Some ["Bearer " +:+ og_token ceremony_grant])
    [og_commander_id ceremony_grant] [og_grant_id ceremony_grant] (hours 1) (dw_repo (final ceremony_done))) =
  Ok (mkAuthority "jerry" "lease-u3" (Some 2)).
Proof.
  assert (Hd : ceremony_done = (Ok (Authorized 2 ceremony_expiry (Some ceremony_grant)), final ceremony_done)) by (vm_compute; reflexivity).
  apply (face_id_opens_mesh any_key toy_public toy_signature toy_verifies hash_public_ok toy_signature_nonempty toy_signature_verifies demo_app gateway_private gateway_public
    (from_origin "") "challenge-u2" (browser_answer (value_of "b") "k1" 1) "u3" (seconds 3) app_world 2 ceremony_expiry ceremony_grant (final ceremony_done)
    (dw_repo (final ceremony_done)) (hours 1)).
  - reflexivity.
  - exact gateway_keys.
  - reflexivity.
  - reflexivity.
  - reflexivity.
  - reflexivity.
  - exact app_repo_reachable.
  - unfold seconds. lia.
  - exact Hd.
  - reflexivity.
  - reflexivity.
  - vm_compute. discriminate.
  - vm_compute. discriminate.
Defined.

(** ** Ingress *)

(** A Discord request: the signature is a hash of key and message. *)
Definition hash_verify (key m s : string) : bool := bool_decide (s = sha256 (key +:+ m)).
Definition demo_parse (body : string) : option DiscordInteraction :=
  if bool_decide (body = "freeze") then Some freeze_command else if bool_decide (body = "stranger") then Some (mkInteraction "i9" "guild" "ops" "mallory" "2" []) else None.
Definition signed_request (body : string) : HttpRequest :=
  mkHttp [("x-signature-ed25519", hex (sha256 ("discord-key" +:+ "5" +:+ body))); ("x-signature-timestamp", "5")] body.
Definition discord_post (body : string) (w : DiscordWorld) : result app_exn HttpResponse * DiscordWorld :=
  @discord_interaction steady_gateway hash_verify demo_sign demo_verify demo_app demo_parse (signed_request body) (seconds 6) (seconds 6) None w.

Lemma ingress_guarded_witness :
  r_frozen (dw_repo (final (discord_post "freeze" ready))) = true ∧ discord_signed hash_verify demo_app (signed_request "freeze") (seconds 6).
Proof.
  assert (Hf : r_frozen (dw_repo (final (discord_post "freeze" ready))) = true) by (vm_compute; reflexivity). split; [exact Hf|].
  destruct (@ingress_guarded browser_lib steady_gateway toy_signature hash_verify demo_sign demo_verify demo_app demo_parse) as (_ & _ & _ & _ & _ & _ & H).
  refine (proj1 (H (signed_request "freeze") (seconds 6) (seconds 6) None ready _)).
  intros E. pose proof (f_equal (λ w, r_frozen (dw_repo w)) E : r_frozen (dw_repo (final (discord_post "freeze" ready))) = r_frozen (dw_repo ready)) as E2.
  rewrite Hf in E2. vm_compute in E2. discriminate E2.
Defined.

(** A signed interaction that the service refuses is not among the exceptions the route handles: it is answered as a server error. *)
Example refused_interaction_is_a_server_error :
  match outcome (discord_post "stranger" ready) with Err (AppDiscord (DiscordAdmissionDenied _)) => true | _ => false end = true.
Proof. vm_compute. reflexivity. Qed.

(** Quarantine over the gateway only marks the record: the session of the node stays open, its job keeps running and no cancel
    frame is sent, while the service's own quarantine closes the session. *)
Definition busy : Gateway (V := Verifier) := mkGateway repo3 running [].

Example quarantine_route_leaves_the_job_running :
  let g := final (api_quarantine demo_stamp demo_cfg "node-u1" "" jerry (seconds 50) (seconds 50) busy) in
  let d := final (quarantine_node demo_stamp "node-u1" "jerry" "" (seconds 50) (λ _, Sent) running) in
  is_ok (outcome (api_quarantine demo_stamp demo_cfg "node-u1" "" jerry (seconds 50) (seconds 50) busy)) = true ∧
  d_objs (gw_disp g) = d_objs running ∧ active_job_ids (gw_disp g) (Some "node-u1") = ["j1"] ∧
  session_for (gw_disp g) "node-u1" = Some "nsx-1" ∧ session_for d "node-u1" = None.
Proof. vm_compute. split_and!; reflexivity. Qed.
