(* ===== verification/AgentProcess.v ===== *)
(** The agent's process on a node: its configuration file (src/olympus/node_agent/config.py), its enrollment over HTTP
    (src/olympus/node_agent/enroll.py), and its commands (src/olympus/node_agent/__main__.py).

    The HTTP exchange is a parameter, given the request and answering with a status and a body, or failing. A dataclass does not check the types of
    its fields, so a configuration read from a file holds JSON values. An exception keeps its class only. *)

From stdpp Require Import pretty.
From S2P Require Import Prelude PyDict PyTime Sha256 Json JsonParse JsonIndent PyParse NodeModels NodeScopes AgentFiles NodeStore NodeAudit NodeCrypto NodeSession NodeAgent AuditSigning.
From Stdlib Require Import Ascii.

Open Scope Z_scope.

Inductive agent_exn :=
  | NodeAgentConfigError | EnrollmentError
  (** what no handler of the commands catches *)
  | TypeMismatch | AttributeMissing | UrlValueError | NotUtf8 | ExchangeRaised.

(** ** [urlsplit] *)

Fixpoint take_until (stop : ascii → bool) (s : string) : string :=
  match s with EmptyString => EmptyString | String c s' => if stop c then EmptyString else String c (take_until stop s') end.
Fixpoint drop_until (stop : ascii → bool) (s : string) : string :=
  match s with EmptyString => EmptyString | String c s' => if stop c then s else drop_until stop s' end.
Fixpoint keep_chars (P : ascii → bool) (s : string) : string :=
  match s with EmptyString => EmptyString | String c s' => if P c then String c (keep_chars P s') else keep_chars P s' end.
Definition is_char (c d : ascii) : bool := bool_decide (d = c).
Definition one_of (cs : string) (d : ascii) : bool := str_has d cs.
Definition tail_str (s : string) : string := match s with EmptyString => EmptyString | String _ s' => s' end.

Definition ascii_letter (c : ascii) : bool := let n := ord c in ((65 <=? n) && (n <=? 90) || (97 <=? n) && (n <=? 122))%nat.
Definition scheme_char (c : ascii) : bool := ascii_letter c || digit_char c || one_of "+-." c.

Record SplitResult := mkSplit { sp_scheme : string; sp_netloc : string }.

Section Urls.
(** Whether a network location with brackets, or with characters beyond ASCII, passes the checks of its own. *)
Context (netloc_ok : string → bool).

Definition check_netloc (netloc : string) : bool :=
  if str_has "[" netloc || str_has "]" netloc then str_has "[" netloc && str_has "]" netloc && netloc_ok netloc
  else all_chars (λ c, (ord c <? 128)%nat) netloc || netloc_ok netloc.

Definition urlsplit (url : string) : result agent_exn SplitResult :=
  let url := drop_until (λ c, (32 <? ord c)%nat) url in
  let url := keep_chars (λ c, negb ((ord c =? 9) || (ord c =? 13) || (ord c =? 10))%nat) url in
  let head := take_until (is_char ":") url in
  let '(scheme, url) :=
    match head with
    | String c _ => if str_has ":" url && ascii_letter c && all_chars scheme_char head
                    then (lower head, tail_str (drop_until (is_char ":") url)) else ("", url)
    | EmptyString => ("", url)
    end in
  let netloc := match url with
    | String a (String b rest) => if is_char "/" a && is_char "/" b then take_until (one_of "/?#") rest else ""
    | _ => ""
    end in
  ensure (check_netloc netloc) UrlValueError;;
  Ok (mkSplit scheme netloc).

Definition http_scheme (scheme : string) : bool := bool_decide (scheme = "http") || bool_decide (scheme = "https").

(** [hostname] and [port] of the result *)
Definition hostinfo (netloc : string) : string * string :=
  let host := default "" (last (split_char "@" netloc)) in
  if str_has "[" host then
    let bracketed := tail_str (drop_until (is_char "[") host) in
    (take_until (is_char "]") bracketed, tail_str (drop_until (is_char ":") (tail_str (drop_until (is_char "]") bracketed))))
  else (take_until (is_char ":") host, tail_str (drop_until (is_char ":") host)).

Definition split_hostname (r : SplitResult) : string := lower (hostinfo (sp_netloc r)).1.
Definition split_port (r : SplitResult) : result agent_exn (option Z) :=
  let port := (hostinfo (sp_netloc r)).2 in
  if is_empty port then Ok None
  else
    ensure (all_chars digit_char port) UrlValueError;;
    let n := Z.of_N (digits_val 0 port) in
    ensure (n <=? 65535) UrlValueError;;
    Ok (Some n).

(** ** The configuration *)

Record NodeAgentConfig := mkAgentConfig {
  ac_version : json;
  ac_control_plane_url : json;
  ac_node_id : json;
  ac_node_name : json;
  ac_private_key : json;
  ac_control_plane_public_key : json;
  ac_control_plane_key_id : json;
  ac_session_path : json;
  ac_capabilities : list string }.

(** [urlsplit] of a value: a false flat splits as the empty URL does, in bytes; another flat has no [decode]; a list or object is not hashable. *)
Definition urlsplit_value (v : json) : result agent_exn SplitResult :=
  match v with
  | JStr s => urlsplit s
  | JList _ | JObj _ => Err TypeMismatch
  | _ => if truthy v then Err AttributeMissing else Ok (mkSplit "" "")
  end.

(** [if not value.strip(): raise] *)
Definition require_text (v : json) : result agent_exn () :=
  match v with JStr s => ensure (negb (is_blank s)) NodeAgentConfigError | _ => Err AttributeMissing end.

(** [NodeAgentConfig.__post_init__] *)
Definition make_agent_config (c : NodeAgentConfig) : result agent_exn NodeAgentConfig :=
  ensure (equals_one (Some (ac_version c))) NodeAgentConfigError;;
  parts ← urlsplit_value (ac_control_plane_url c);
  ensure (http_scheme (sp_scheme parts) && negb (is_empty (sp_netloc parts))) NodeAgentConfigError;;
  require_text (ac_node_id c);;
  require_text (ac_private_key c);;
  require_text (ac_control_plane_public_key c);;
  Ok c.

(** [session_url] *)
Definition session_url (c : NodeAgentConfig) : result agent_exn string :=
  parts ← urlsplit_value (ac_control_plane_url c);
  Ok ((if bool_decide (sp_scheme parts = "https") then "wss" else "ws") +:+ "://" +:+ sp_netloc parts +:+ py_str (ac_session_path c)).

(** [asdict], with the capabilities as a list *)
Definition config_json (c : NodeAgentConfig) : dict string json :=
  [("version", ac_version c); ("control_plane_url", ac_control_plane_url c); ("node_id", ac_node_id c); ("node_name", ac_node_name c);
   ("private_key", ac_private_key c); ("control_plane_public_key", ac_control_plane_public_key c);
   ("control_plane_key_id", ac_control_plane_key_id c); ("session_path", ac_session_path c);
   ("capabilities", JList (map JStr (ac_capabilities c)))].

(** [redacted] *)
Definition redacted (c : NodeAgentConfig) : dict string json := dset "private_key" (JStr "[redacted]") (config_json c).

(** [tuple(str(name) for name in v)] *)
Definition str_items (v : json) : result agent_exn (list string) :=
  match v with
  | JList l => Ok (map py_str l)
  | JStr s => Ok (map (λ c, String c "") (String.list_ascii_of_string s))
  | JObj o => Ok (dkeys o)
  | _ => Err TypeMismatch
  end.

Definition config_fields : list string :=
  ["version"; "control_plane_url"; "node_id"; "node_name"; "private_key"; "control_plane_public_key"; "control_plane_key_id"; "session_path"; "capabilities"].

(** [NodeAgentConfig( **raw, capabilities=capabilities)] *)
Definition config_of (raw : dict string json) (capabilities : list string) : result agent_exn NodeAgentConfig :=
  let field k := require_some (dget k raw) TypeMismatch in
  version ← field "version"; url ← field "control_plane_url"; node_id ← field "node_id"; node_name ← field "node_name";
  private_key ← field "private_key"; public_key ← field "control_plane_public_key"; key_id ← field "control_plane_key_id";
  make_agent_config (mkAgentConfig version url node_id node_name private_key public_key key_id (default (JStr "/v1/nodes/session") (dget "session_path" raw)) capabilities).

(** A file's bytes and permissions, none when there is no such file *)
Record AgentFile := mkAgentFile { af_bytes : string; af_mode : Z }.

(** [load_config]; a file that cannot be read is one the process has no permission for *)
Definition load_config (file : option AgentFile) (readable : bool) : result agent_exn NodeAgentConfig :=
  f ← require_some file NodeAgentConfigError;
  ensure readable NodeAgentConfigError;;
  text ← require_some (utf8_decode (af_bytes f)) NotUtf8;
  raw ← require_some (loads text) NodeAgentConfigError;
  match raw with
  | JObj raw =>
      ensure (forallb (λ k, bool_decide (k ∈ config_fields)) (dkeys raw)) NodeAgentConfigError;;
      capabilities ← (match dget "capabilities" raw with Some v => str_items v | None => Ok [] end);
      config_of raw capabilities
  | _ => Err NodeAgentConfigError
  end.

(** The configuration file and the temporary file beside it *)
Record AgentDisk := mkAgentDisk { dk_config : option AgentFile; dk_temporary : option AgentFile }.

Definition SECRET_FILE_MODE : Z := 384 (* 0o600 *).

(** The steps of [save_config] after the directory is there; a new file has the mode [umask] leaves, an existing one keeps its own. *)
Definition write_temporary (umask_mode : Z) (text : string) (d : AgentDisk) : AgentDisk :=
  mkAgentDisk (dk_config d) (Some (mkAgentFile (utf8 text) (match dk_temporary d with Some f => af_mode f | None => umask_mode end))).
Definition chmod_temporary (d : AgentDisk) : AgentDisk :=
  mkAgentDisk (dk_config d) ((λ f, mkAgentFile (af_bytes f) SECRET_FILE_MODE) <$> dk_temporary d).
Definition replace_config (d : AgentDisk) : AgentDisk := mkAgentDisk (dk_temporary d) None.

Definition save_steps (umask_mode : Z) (c : NodeAgentConfig) : list (AgentDisk → AgentDisk) :=
  [write_temporary umask_mode (dumps_indent (JObj (config_json c))); chmod_temporary; replace_config].

(** [save_config] up to its [n]th step, where an error or a crash stops it *)
Definition save_upto (n : nat) (umask_mode : Z) (c : NodeAgentConfig) (d : AgentDisk) : AgentDisk := foldl (λ d f, f d) d (take n (save_steps umask_mode c)).
Definition save_config (umask_mode : Z) (c : NodeAgentConfig) (d : AgentDisk) : AgentDisk := save_upto 3 umask_mode c d.

(** ** Enrollment *)

Record EnrollmentOutcome := mkOutcome {
  eo_node_id : string;
  eo_node_name : string;
  eo_granted_capabilities : list string;
  eo_control_plane_public_key : string;
  eo_control_plane_key_id : string;
  eo_session_path : string;
  eo_protocol : string }.

Record HttpCall := mkCall { hc_scheme : string; hc_host : string; hc_port : option Z; hc_method : string; hc_path : string; hc_payload : json }.
(** A response; an error [request_json] catches; another one. *)
Inductive HttpAnswer := Answered (status : Z) (body : string) | ConnectionFailed | CallRaised.

Definition ENROLLMENT_PATH : string := "/v1/nodes/enroll".
Definition MAX_RESPONSE_BYTES : nat := 65536.

Section Enroll.
Context (exchange : HttpCall → HttpAnswer).

(** [request_json] *)
Definition request_json (base_url path : string) (payload : json) : result agent_exn (dict string json) :=
  parts ← urlsplit base_url;
  ensure (http_scheme (sp_scheme parts) && negb (is_empty (split_hostname parts))) EnrollmentError;;
  port ← split_port parts;
  match exchange (mkCall (sp_scheme parts) (split_hostname parts) port "POST" path payload) with
  | ConnectionFailed => Err EnrollmentError
  | CallRaised => Err ExchangeRaised
  | Answered status body =>
      let raw := String.substring 0 MAX_RESPONSE_BYTES body in
      ensure (status <? 400) EnrollmentError;;
      if (status =? 204) || is_empty raw then Ok []
      else
        text ← require_some (utf8_decode raw) NotUtf8;
        decoded ← require_some (loads text) EnrollmentError;
        match decoded with JObj o => Ok o | _ => Err EnrollmentError end
  end.

(** The payload of [enroll] *)
Definition enroll_payload (enrollment_token public_key node_name kind node_platform architecture agent_version : string) (declared_capabilities : list string) : json :=
  JObj [("enrollment_token", JStr enrollment_token); ("public_key", JStr public_key); ("node_name", JStr node_name); ("kind", JStr kind);
        ("platform", JStr node_platform); ("architecture", JStr architecture); ("agent_version", JStr agent_version);
        ("declared_capabilities", JList (map JStr declared_capabilities))].

(** What [enroll] makes of the response *)
Definition enrollment_outcome (response : dict string json) : result agent_exn EnrollmentOutcome :=
  let field k := require_some (dget k response) EnrollmentError in
  node_id ← field "node_id"; node_name ← field "node_name"; granted ← field "granted_capabilities";
  granted ← (match str_items granted with Ok l => Ok l | Err _ => Err EnrollmentError end);
  public_key ← field "control_plane_public_key"; key_id ← field "control_plane_key_id"; session_path ← field "session_path"; protocol ← field "protocol";
  Ok (mkOutcome (py_str node_id) (py_str node_name) granted (py_str public_key) (py_str key_id) (py_str session_path) (py_str protocol)).

(** [enroll] *)
Definition enroll (control_plane_url enrollment_token public_key node_name kind node_platform architecture agent_version : string)
    (declared_capabilities : list string) : result agent_exn EnrollmentOutcome :=
  response ← request_json control_plane_url ENROLLMENT_PATH
    (enroll_payload enrollment_token public_key node_name kind node_platform architecture agent_version declared_capabilities);
  enrollment_outcome response.

(** ** The commands *)

Definition AGENT_VERSION : string := "0.1.0".
Definition DEFAULT_CAPABILITIES : list string := [cap_name SYSTEM_INSPECT; FILE_READ; FILE_LIST; FILE_WRITE].

(** [_detect_platform] and [_normalized_platform], of what [platform.system()] gives *)
Definition detect_platform (system : string) : string :=
  let system := lower system in if bool_decide (system ∈ ["linux"; "windows"; "darwin"]) then system else "unknown".
Definition normalized_platform (system : string) : string :=
  let detected := detect_platform system in if bool_decide (detected = "darwin") then "macos" else detected.
Definition architecture_of (machine : string) : string := if is_empty machine then "unknown" else machine.

Record EnrollArguments := mkArguments {
  ea_control_plane_url : string;
  ea_enrollment_token : option string;
  ea_enrollment_token_stdin : bool;
  ea_node_name : string;
  ea_kind : string;
  ea_force : bool }.

(** [_read_enrollment_credential], of the first line of the standard input *)
Definition read_enrollment_credential (a : EnrollArguments) (line : string) : string :=
  if ea_enrollment_token_stdin a then strip line else default "" (ea_enrollment_token a).

(** What the process finds: its machine, its input and the key bytes it draws *)
Record Surroundings := mkSurroundings { su_system : string; su_machine : string; su_line : string; su_key : string; su_umask_mode : Z }.

Context (ed_public : string → string).

(** [command_enroll]: the exit code, or the exception that escapes, and the disk it leaves *)
Definition command_enroll (a : EnrollArguments) (su : Surroundings) : St AgentDisk agent_exn Z := λ d,
  if is_some (dk_config d) && negb (ea_force a) then (Ok 2, d)
  else
    let credential := read_enrollment_credential a (su_line su) in
    if is_empty credential then (Ok 2, d)
    else
      match enroll (ea_control_plane_url a) credential (encode_bytes (ed_public (su_key su))) (ea_node_name a) (ea_kind a)
              (normalized_platform (su_system su)) (architecture_of (su_machine su)) AGENT_VERSION DEFAULT_CAPABILITIES with
      | Err EnrollmentError => (Ok 1, d)
      | Err e => (Err e, d)
      | Ok o =>
          match make_agent_config (mkAgentConfig (JInt 1) (JStr (ea_control_plane_url a)) (JStr (eo_node_id o)) (JStr (eo_node_name o)) (JStr (encode_bytes (su_key su)))
                  (JStr (eo_control_plane_public_key o)) (JStr (eo_control_plane_key_id o)) (JStr (eo_session_path o)) (eo_granted_capabilities o)) with
          | Err e => (Err e, d)
          | Ok c => (Ok 0, save_config (su_umask_mode su) c d)
          end
      end.
End Enroll.

(** [command_status]: what it prints, or none and the exit code 1 *)
Definition command_status (d : AgentDisk) (readable : bool) : result agent_exn (option string) :=
  match load_config (dk_config d) readable with
  | Ok c => Ok (Some (dumps_indent (JObj (redacted c))))
  | Err NodeAgentConfigError => Ok None
  | Err e => Err e
  end.

(** The identity [_serve] takes from the configuration, when its fields are strings *)
Definition identity_of (c : NodeAgentConfig) : option AgentIdentity :=
  match ac_node_id c, ac_node_name c, ac_private_key c, ac_control_plane_public_key c, ac_control_plane_key_id c with
  | JStr node_id, JStr node_name, JStr private_key, JStr public_key, JStr key_id => Some (mkIdentity node_id node_name private_key public_key key_id AGENT_VERSION)
  | _, _, _, _, _ => None
  end.
End Urls.

(** ** Reconnecting *)

Definition MIN_BACKOFF_SECONDS : Z := 2.
Definition MAX_BACKOFF_SECONDS : Z := 60.

(** One attempt of [_serve]: the dial fails, or a session is opened and ends *)
Inductive DialAttempt := DialFailed | SessionEnded.

(** The delay in milliseconds after an attempt, with [jitter] the thousandths drawn, and the next backoff *)
Definition serve_step (backoff : Z) (attempt : DialAttempt) (jitter : Z) : Z * Z :=
  let backoff := match attempt with DialFailed => backoff | SessionEnded => MIN_BACKOFF_SECONDS end in
  (1000 * Z.min backoff MAX_BACKOFF_SECONDS + jitter, Z.min (backoff * 2) MAX_BACKOFF_SECONDS).

Fixpoint serve_delays (backoff : Z) (attempts : list (DialAttempt * Z)) : list Z :=
  match attempts with
  | [] => []
  | (a, jitter) :: attempts => let '(delay, backoff) := serve_step backoff a jitter in delay :: serve_delays backoff attempts
  end.

(** * What the agent's process keeps *)

(** The configurations the agent writes: no field is a list or an object. *)
Definition flat (v : json) : Prop := match v with JList _ | JObj _ => False | _ => True end.
Definition config_values (c : NodeAgentConfig) : list json :=
  [ac_version c; ac_control_plane_url c; ac_node_id c; ac_node_name c; ac_private_key c; ac_control_plane_public_key c; ac_control_plane_key_id c; ac_session_path c].

Lemma flat_norm v : flat v → jnorm v = v ∧ json_wf v.
Proof. by destruct v. Qed.

(** The keys in the order of the file *)
Definition ordered_config (c : NodeAgentConfig) : dict string json :=
  [("capabilities", JList (map JStr (ac_capabilities c))); ("control_plane_key_id", ac_control_plane_key_id c);
   ("control_plane_public_key", ac_control_plane_public_key c); ("control_plane_url", ac_control_plane_url c); ("node_id", ac_node_id c);
   ("node_name", ac_node_name c); ("private_key", ac_private_key c); ("session_path", ac_session_path c); ("version", ac_version c)].

Lemma map_norm_strings l : map jnorm (map JStr l) = map JStr l.
Proof. induction l as [|s l IH]; [done|]. cbn. by f_equal. Qed.

Lemma config_norm c : Forall flat (config_values c) → jnorm (JObj (config_json c)) = JObj (ordered_config c).
Proof.
  intros H. apply (Forall_impl _ (λ v, jnorm v = v)) in H; [|intros v Hv; by apply flat_norm]. unfold config_values in H. decompose_Forall_hyps.
  transitivity (JObj (map (λ kv, (kv.1, jnorm kv.2)) (ordered_config c))); [reflexivity|]. unfold ordered_config. cbn [map fst snd jnorm].
  rewrite map_norm_strings. congruence.
Qed.

Lemma strings_wf l : json_wf (JList (map JStr l)).
Proof. induction l as [|s l IH]; [done|]. cbn in *. by split. Qed.

Lemma config_wf c : Forall flat (config_values c) → json_wf (JObj (config_json c)).
Proof.
  intros H. apply (Forall_impl _ json_wf) in H; [|intros v Hv; by apply flat_norm]. unfold config_values in H. decompose_Forall_hyps.
  pose proof (strings_wf (ac_capabilities c)) as Hc. unfold config_json. cbn [json_wf foldr fst snd] in *.
  split; [repeat constructor; set_solver|]. split_and!; done.
Qed.

Lemma py_str_strings l : map py_str (map JStr l) = l.
Proof. rewrite map_map. apply map_id. Qed.

Section Configuration.
Context (netloc_ok : string → bool).

Lemma config_of_ordered c : config_of netloc_ok (ordered_config c) (ac_capabilities c) = make_agent_config netloc_ok c.
Proof. by destruct c. Qed.

Lemma load_object text mode raw : loads text = Some (JObj raw) →
  load_config netloc_ok (Some (mkAgentFile (utf8 text) mode)) true =
    (ensure (forallb (λ k, bool_decide (k ∈ config_fields)) (dkeys raw)) NodeAgentConfigError;;
     capabilities ← (match dget "capabilities" raw with Some v => str_items v | None => Ok [] end);
     config_of netloc_ok raw capabilities).
Proof. intros H. unfold load_config. cbn [require_some mbind result_bind ensure af_bytes]. rewrite utf8_decode_encode. cbn [require_some mbind result_bind]. by rewrite H. Qed.

Lemma dumps_config_loads c : Forall flat (config_values c) → loads (dumps_indent (JObj (config_json c))) = Some (JObj (ordered_config c)).
Proof. intros H. rewrite <- (config_norm c H), <- (append_nil_r (dumps_indent _)). apply loads_indent; [by apply config_wf|by left]. Qed.

(** A file [save_config] wrote is read as the configuration it was written from, and as strictly as that was made. *)
Lemma saved_config_loads c mode : Forall flat (config_values c) →
  load_config netloc_ok (Some (mkAgentFile (utf8 (dumps_indent (JObj (config_json c)))) mode)) true = make_agent_config netloc_ok c.
Proof.
  intros H. rewrite (load_object _ _ _ (dumps_config_loads c H)).
  assert (forallb (λ k, bool_decide (k ∈ config_fields)) (dkeys (ordered_config c)) = true) as -> by reflexivity.
  assert (dget "capabilities" (ordered_config c) = Some (JList (map JStr (ac_capabilities c)))) as -> by reflexivity. cbn [ensure str_items mbind result_bind].
  rewrite py_str_strings. apply config_of_ordered.
Qed.

(** However far [save_config] comes, the configuration file is the old one or the whole new one with owner-only permissions. *)
Lemma save_atomic n umask_mode c d :
  dk_config (save_upto n umask_mode c d) =
    if (n <? 3)%nat then dk_config d else Some (mkAgentFile (utf8 (dumps_indent (JObj (config_json c)))) SECRET_FILE_MODE).
Proof. destruct n as [|[|[|n]]]; [done..|]. unfold save_upto. by rewrite take_ge by (cbn; lia). Qed.

(** What [status] prints does not depend on the private key. *)
Lemma redacted_hides c key :
  redacted (mkAgentConfig (ac_version c) (ac_control_plane_url c) (ac_node_id c) (ac_node_name c) key (ac_control_plane_public_key c) (ac_control_plane_key_id c)
    (ac_session_path c) (ac_capabilities c)) = redacted c.
Proof. reflexivity. Qed.
End Configuration.

(** ** The delays *)

Lemma serve_delays_bounded backoff attempts : MIN_BACKOFF_SECONDS ≤ backoff ≤ MAX_BACKOFF_SECONDS → Forall (λ a, 0 ≤ a.2 < 1000) attempts →
  Forall (λ delay, 1000 * MIN_BACKOFF_SECONDS ≤ delay < 1000 * (MAX_BACKOFF_SECONDS + 1)) (serve_delays backoff attempts).
Proof.
  unfold MIN_BACKOFF_SECONDS, MAX_BACKOFF_SECONDS. intros Hb Ha. revert backoff Hb. induction Ha as [|[[] j] attempts Hj _ IH]; intros backoff Hb; cbn in *; [constructor|..];
    (constructor; [unfold MAX_BACKOFF_SECONDS, MIN_BACKOFF_SECONDS; lia|apply IH; unfold MAX_BACKOFF_SECONDS, MIN_BACKOFF_SECONDS; lia]).
Qed.

(** While the dial fails the delays double up to the bound. *)
Lemma serve_delays_double attempts i backoff jitter : MIN_BACKOFF_SECONDS ≤ backoff ≤ MAX_BACKOFF_SECONDS → Forall (λ a, a.1 = DialFailed) attempts →
  attempts !! i = Some (DialFailed, jitter) → serve_delays backoff attempts !! i = Some (1000 * Z.min (backoff * 2 ^ Z.of_nat i) MAX_BACKOFF_SECONDS + jitter).
Proof.
  unfold MIN_BACKOFF_SECONDS, MAX_BACKOFF_SECONDS. intros Hb Ha. revert i backoff Hb. induction Ha as [|[a j] attempts Hj _ IH]; intros [|i] backoff Hb; [done|done| |]; cbn in Hj; subst a.
  - intros [= ->]. cbn. f_equal. unfold MAX_BACKOFF_SECONDS. lia.
  - intros Hi. cbn [serve_delays serve_step lookup list_lookup]. rewrite (IH i) by (done || (unfold MAX_BACKOFF_SECONDS; lia)). do 2 f_equal. unfold MAX_BACKOFF_SECONDS.
    rewrite Nat2Z.inj_succ, Z.pow_succ_r by lia. assert (1 ≤ 2 ^ Z.of_nat i) by (pose proof (Z.pow_pos_nonneg 2 (Z.of_nat i)); lia). nia.
Qed.

(** * Enrollment from the operator's token to the node's identity

    The control plane's HTTP layer is FastAPI and pydantic: [parse] reads a request's JSON and [render] writes a response's. *)

From S2P Require Import AuthorityRepository NodeApprovals NodeRegistry NodeDispatch PgStore OperatorAuth NodesApi NodesApiFacts.

Lemma rstrip_idem s : rstrip (rstrip s) = rstrip s.
Proof.
  induction s as [|c s IH]; [done|]. cbn [rstrip]. destruct (rstrip s) as [|d r] eqn:E.
  - destruct (is_space c) eqn:Hc; [done|]. cbn. by rewrite Hc.
  - cbn [rstrip] in *. by rewrite IH.
Qed.

Lemma lstrip_rstrip s : lstrip (rstrip (lstrip s)) = rstrip (lstrip s).
Proof.
  induction s as [|c s IH]; [done|]. cbn [lstrip]. destruct (is_space c) eqn:Hc; [exact IH|]. cbn [rstrip]. rewrite Hc.
  destruct (rstrip s); cbn; by rewrite Hc.
Qed.

Lemma strip_idem s : strip (strip s) = strip s.
Proof. unfold strip. by rewrite lstrip_rstrip, rstrip_idem. Qed.

Lemma b64_char_not_space n : (n < 64)%N → is_space (b64_char n) = false.
Proof. intros Hn. apply negb_true_iff. by apply (below_64 (λ n, negb (is_space (b64_char n)))). Qed.

Lemma encode_not_blank raw : is_empty raw = false → is_blank (encode_bytes raw) = false.
Proof.
  unfold encode_bytes. destruct raw as [|a [|b [|c r]]]; [done|..]; intros _; cbn [b64encode];
    rewrite rstrip_pad_cons by (apply b64_char_not_pad; apply N.Div0.div_lt_upper_bound; pose proof (code_lt a); lia);
    apply not_blank_cons, b64_char_not_space, N.Div0.div_lt_upper_bound; pose proof (code_lt a); lia.
Qed.

Lemma keypair_loads ed_public raw : String.length raw = 32%nat → public_key_of ed_public (encode_bytes raw) = Ok (encode_bytes (ed_public raw)).
Proof. intros Hl. apply public_key_ok. unfold load_private_key. rewrite decode_encode by by destruct raw. cbn -[Nat.eqb]. by rewrite Hl. Qed.

(** The body of an [EnrollResponse] *)
Definition enroll_response_json (r : EnrollResponse) : dict string json :=
  [("node_id", JStr (er_node_id r)); ("node_name", JStr (er_node_name r)); ("granted_capabilities", JList (map JStr (er_granted_capabilities r)));
   ("control_plane_public_key", JStr (er_control_plane_public_key r)); ("control_plane_key_id", JStr (er_control_plane_key_id r));
   ("session_path", JStr "/v1/nodes/session"); ("protocol", JStr PROTOCOL_ID); ("heartbeat_interval_seconds", JInt (er_heartbeat_interval_seconds r))].

(** The bounds of [EnrollRequest]'s fields *)
Definition length_within (lo hi : nat) (s : string) : bool := ((lo <=? String.length s) && (String.length s <=? hi))%nat.
Definition fits_name (s : string) : bool := length_within 1 64 (strip s).
Definition request_fits (token key name architecture version : string) (declared : list string) : bool :=
  length_within 16 1024 token && length_within 16 128 key && fits_name name && fits_name architecture && fits_name version && (length declared <=? 32)%nat && forallb fits_name declared.

(** What pydantic documents: a payload within the bounds parses to its fields, names stripped; a rendered response reads back. *)
Record HttpLayer := mkLayer { hl_parse : json → option EnrollRequest; hl_render : EnrollResponse → string }.
Record layer_ok (l : HttpLayer) : Prop := {
  parse_ok : ∀ token key name kind platform architecture version declared, request_fits token key name architecture version declared = true →
    hl_parse l (enroll_payload token key name (kind_value kind) (platform_value platform) architecture version declared) =
      Some (mkEnrollRequest token key (strip name) kind platform (strip architecture) (strip version) (map strip declared));
  render_ok : ∀ r, ∃ text o, utf8_decode (hl_render l r) = Some text ∧ loads text = Some (JObj o) ∧ ∀ k, dget k o = dget k (enroll_response_json r) }.

(** [enroll] reads the response whatever the order of its fields. *)
Lemma enrollment_outcome_response r o : (∀ k, dget k o = dget k (enroll_response_json r)) →
  enrollment_outcome o = Ok (mkOutcome (er_node_id r) (er_node_name r) (er_granted_capabilities r) (er_control_plane_public_key r) (er_control_plane_key_id r)
    "/v1/nodes/session" PROTOCOL_ID).
Proof.
  intros H. unfold enrollment_outcome. rewrite !H.
  transitivity (Ok (E := agent_exn) (mkOutcome (er_node_id r) (er_node_name r) (map py_str (map JStr (er_granted_capabilities r))) (er_control_plane_public_key r)
    (er_control_plane_key_id r) "/v1/nodes/session" PROTOCOL_ID)); [reflexivity|by rewrite py_str_strings].
Qed.

Section EndToEnd.
Context `{NodeJobStarter} (stamp : nat → datetime * string) (cfg : Config) {V : Type} `{ApprovalVerifier V}.
Context (ed_key_ok : string → bool) (ed_public : string → string) (ed_sign : string → string → string) (ed_verify : string → string → string → bool).
Context (ed_public_ok : ∀ sk, String.length (ed_public sk) = 32%nat ∧ ed_key_ok (ed_public sk) = true).
Context (ed_sign_nonempty : ∀ sk m, is_empty (ed_sign sk m) = false).
Context (ed_sign_verify : ∀ sk m, ed_verify (ed_public sk) m (ed_sign sk m) = true).
Context (priv pub key_id : string) (ttl : Z) (allowed : option (list string)) (netloc_ok : string → bool) (layer : HttpLayer).

(** The gateway's answer to a call, of its enroll route; the other routes are not this one's *)
Definition ENROLL_PATH : string := "/v1/nodes/enroll".
Definition enroll_endpoint (now : datetime) (uuid : string) (g : Gateway (V := V)) (call : HttpCall) : HttpAnswer * Gateway (V := V) :=
  if negb (bool_decide (hc_path call = ENROLL_PATH)) then (Answered 404 "", g)
  else if negb (bool_decide (hc_method call = "POST")) then (Answered 405 "", g)
  else match hl_parse layer (hc_payload call) with
  | None => (Answered 422 "", g)
  | Some q =>
      match enroll_node stamp cfg ed_key_ok ed_verify pub key_id q now uuid g with
      | (Ok r, g') => (Answered 200 (hl_render layer r), g')
      | (Err (HTTPException status detail), g') => (Answered status detail, g')
      | (Err (Unhandled _), g') => (Answered 500 "", g')
      end
  end.

(** A control plane URL the agent can use *)
Definition usable_url (url : string) (parts : SplitResult) (port : option Z) : Prop :=
  urlsplit netloc_ok url = Ok parts ∧ http_scheme (sp_scheme parts) = true ∧ is_empty (split_hostname parts) = false ∧ split_port parts = Ok port.

Lemma usable_netloc url parts port : usable_url url parts port → is_empty (sp_netloc parts) = false.
Proof. intros (_ & _ & Hh & _). by destruct parts as [? []]. Qed.

Lemma substring_all n s : (String.length s ≤ n)%nat → String.substring 0 n s = s.
Proof. revert n. induction s as [|c s IH]; intros [|n] Hn; cbn in *; [done|done|lia|]. f_equal. apply IH. lia. Qed.

Lemma request_answered exchange url parts port path payload r :
  layer_ok layer → usable_url url parts port → (String.length (hl_render layer r) ≤ MAX_RESPONSE_BYTES)%nat →
  exchange (mkCall (sp_scheme parts) (split_hostname parts) port "POST" path payload) = Answered 200 (hl_render layer r) →
  ∃ o, request_json netloc_ok exchange url path payload = Ok o ∧ ∀ k, dget k o = dget k (enroll_response_json r).
Proof.
  intros Hl (Hu & Hs & Hh & Hp) Hb He. unfold request_json. rewrite Hu. cbn [mbind result_bind]. rewrite Hs, Hh. cbn [andb negb ensure mbind result_bind]. rewrite Hp. cbn [mbind result_bind]. rewrite He.
  destruct (render_ok layer Hl r) as (text & o & Ht & Hlo & Hk). rewrite substring_all by done. change (200 <? 400) with true. change (200 =? 204) with false. cbn [orb].
  assert (is_empty (hl_render layer r) = false) as ->.
  { destruct (hl_render layer r) eqn:E; [|done]. injection Ht as <-. by vm_compute in Hlo. }
  rewrite Ht. cbn [require_some mbind result_bind ensure]. rewrite Hlo. by exists o.
Qed.

Lemma fits_not_blank s : fits_name s = true → is_blank (strip s) = false.
Proof. unfold fits_name, length_within, is_blank. rewrite strip_idem. by destruct (strip s). Qed.

Lemma request_fits_fields token key name architecture version declared : request_fits token key name architecture version declared = true →
  is_empty token = false ∧ is_blank (strip name) = false ∧ is_blank (strip architecture) = false ∧ is_blank (strip version) = false.
Proof.
  unfold request_fits. rewrite !andb_true_iff. intros [[[[[[Ht _] Hn] Ha] Hv] _] _]. split_and!; [by destruct token|by apply fits_not_blank..].
Qed.

Lemma load_own_key sk : load_public_key ed_key_ok (encode_bytes (ed_public sk)) = Ok (ed_public sk).
Proof.
  destruct (ed_public_ok sk) as [Hl Hk]. unfold load_public_key. rewrite decode_encode by by destruct (ed_public sk). cbn -[Nat.eqb]. by rewrite Hl, Hk.
Qed.

(** The call [command_enroll] makes *)
Definition enroll_call (args : EnrollArguments) (su : Surroundings) (parts : SplitResult) (port : option Z) : HttpCall :=
  mkCall (sp_scheme parts) (split_hostname parts) port "POST" ENROLLMENT_PATH
    (enroll_payload (read_enrollment_credential args (su_line su)) (encode_bytes (ed_public (su_key su))) (ea_node_name args) (ea_kind args)
       (normalized_platform (su_system su)) (architecture_of (su_machine su)) AGENT_VERSION DEFAULT_CAPABILITIES).

(** An answer of the enroll route becomes a configuration file that loads as the identity the route answered with. *)
Lemma enroll_saves exchange args su d parts port r :
  layer_ok layer → usable_url (ea_control_plane_url args) parts port → dk_config d = None ∨ ea_force args = true →
  is_empty (read_enrollment_credential args (su_line su)) = false → String.length (su_key su) = 32%nat →
  is_blank (er_node_id r) = false → is_blank (er_control_plane_public_key r) = false → (String.length (hl_render layer r) ≤ MAX_RESPONSE_BYTES)%nat →
  exchange (enroll_call args su parts port) = Answered 200 (hl_render layer r) →
  ∃ file c, command_enroll netloc_ok exchange ed_public args su d = (Ok 0, mkAgentDisk (Some file) None) ∧ af_mode file = SECRET_FILE_MODE ∧
    load_config netloc_ok (Some file) true = Ok c ∧ ac_capabilities c = er_granted_capabilities r ∧
    identity_of c = Some (mkIdentity (er_node_id r) (er_node_name r) (encode_bytes (su_key su)) (er_control_plane_public_key r) (er_control_plane_key_id r) AGENT_VERSION).
Proof.
  intros Hl Hu Hd Hc Hk Hbn Hbp Hlen He. destruct (request_answered exchange _ _ _ _ _ r Hl Hu Hlen He) as (o & Hr & Ho).
  pose proof (enrollment_outcome_response r o Ho) as Hout. set (c := mkAgentConfig (JInt 1) (JStr (ea_control_plane_url args)) (JStr (er_node_id r)) (JStr (er_node_name r))
    (JStr (encode_bytes (su_key su))) (JStr (er_control_plane_public_key r)) (JStr (er_control_plane_key_id r)) (JStr "/v1/nodes/session") (er_granted_capabilities r)).
  assert (Hm : make_agent_config netloc_ok c = Ok c).
  { unfold make_agent_config. cbn [c ac_version ac_control_plane_url ac_node_id ac_private_key ac_control_plane_public_key equals_one ensure mbind result_bind urlsplit_value require_text].
    pose proof (usable_netloc _ _ _ Hu) as Hnet. destruct Hu as (-> & Hs & _). cbn [mbind result_bind]. rewrite Hs, Hnet, Hbn, Hbp, encode_not_blank by by destruct (su_key su). done. }
  exists (mkAgentFile (utf8 (dumps_indent (JObj (config_json c)))) SECRET_FILE_MODE), c. split_and!; [|done| |done|done].
  - unfold command_enroll. assert (is_some (dk_config d) && negb (ea_force args) = false) as -> by (destruct Hd as [-> | ->]; [done|apply andb_false_r]).
    rewrite Hc. unfold enroll. rewrite Hr. cbn [mbind result_bind]. rewrite Hout. cbn [eo_node_id eo_node_name eo_control_plane_public_key eo_control_plane_key_id eo_session_path eo_granted_capabilities].
    fold c. rewrite Hm. reflexivity.
  - rewrite saved_config_loads by (unfold c, config_values; cbn; repeat constructor). exact Hm.
Qed.

(** C39. Enrollment end to end: a token the issue route answered with, given to the agent's enroll command before it expires, on a
    machine of the name, kind and platform it was issued for and with a usable control plane URL, enrolls the node. The gateway
    registers it under exactly the granted capabilities and scopes; the command exits with 0 and leaves one configuration file,
    readable by its owner only, which loads as an identity whose private key belongs to the public key the registry holds, under
    the control plane's own key and key id: what both sides of the handshake need. *)
Theorem agent_enrolls q a now idb secb (g : Gateway (V := V)) resp (g1 : Gateway (V := V)) args su d parts port now' uuid (g2 : Gateway (V := V)) :
  layer_ok layer → public_key_of ed_public priv = Ok pub → is_empty idb = false → is_empty secb = false →
  issue_enrollment stamp cfg ed_sign priv ttl allowed q a now idb secb g = (Ok (RIssued resp), g1) →
  dget (ir_token_id resp) (s_tokens (rg_store (d_reg (gw_disp g2)))) = dget (ir_token_id resp) (s_tokens (rg_store (d_reg (gw_disp g1)))) →
  now' < ir_expires_at resp → usable_url (ea_control_plane_url args) parts port → dk_config d = None ∨ ea_force args = true →
  read_enrollment_credential args (su_line su) = ir_enrollment_token resp → strip (ea_node_name args) = ir_node_name resp →
  ea_kind args = kind_value (ir_kind resp) → normalized_platform (su_system su) = platform_value (ir_platform resp) → String.length (su_key su) = 32%nat →
  request_fits (ir_enrollment_token resp) (encode_bytes (ed_public (su_key su))) (ea_node_name args) (architecture_of (su_machine su)) AGENT_VERSION DEFAULT_CAPABILITIES = true →
  (String.length (hl_render layer (mkEnrollResponse ("node-" +:+ uuid) (ir_node_name resp) (ir_granted_capabilities resp) pub key_id (cfg_interval cfg))) ≤ MAX_RESPONSE_BYTES)%nat →
  let g3 := (enroll_endpoint now' uuid g2 (enroll_call args su parts port)).2 in
  ∃ file c n, command_enroll netloc_ok (λ call, (enroll_endpoint now' uuid g2 call).1) ed_public args su d = (Ok 0, mkAgentDisk (Some file) None) ∧
    af_mode file = SECRET_FILE_MODE ∧ load_config netloc_ok (Some file) true = Ok c ∧ ac_capabilities c = ir_granted_capabilities resp ∧
    dget ("node-" +:+ uuid) (s_nodes (rg_store (d_reg (gw_disp g3)))) = Some n ∧ n_granted n = ir_granted_capabilities resp ∧
    decode_scopes (n_scopes n) [] = Ok (ir_capability_scopes resp) ∧
    ∃ i, identity_of c = Some i ∧ ai_node_id i = "node-" +:+ uuid ∧ ai_node_name i = ir_node_name resp ∧
      public_key_of ed_public (ai_private_key i) = Ok (n_public_key n) ∧ ai_control_plane_public_key i = pub ∧ ai_control_plane_key_id i = key_id.
Proof.
  intros Hl Hpub Hidb Hsecb Hissue Hsame Hexp Hu Hd Hcred Hname Hkind Hplat Hkey Hfit Hlen g3.
  destruct (request_fits_fields _ _ _ _ _ _ Hfit) as (Ht & Hbn & Hba & Hbv).
  set (e := mkEnrollRequest (ir_enrollment_token resp) (encode_bytes (ed_public (su_key su))) (strip (ea_node_name args)) (ir_kind resp) (ir_platform resp)
    (strip (architecture_of (su_machine su))) (strip AGENT_VERSION) (map strip DEFAULT_CAPABILITIES)).
  destruct (api_enrollment_roundtrip stamp cfg ed_key_ok ed_public ed_sign ed_verify ed_public_ok ed_sign_nonempty ed_sign_verify priv pub key_id ttl allowed
    q a now idb secb g resp g1 e (ed_public (su_key su)) now' uuid g2) as (g3' & n & Hen & Hn & Hg & Hpk & Hsc); try done.
  { cbn [e eq_node_name]. by rewrite strip_idem. }
  { apply load_own_key. }
  { apply encode_not_blank. destruct (ed_public_ok (su_key su)) as [Hl32 _]. by destruct (ed_public (su_key su)). }
  set (r := mkEnrollResponse _ _ _ _ _ _) in Hen, Hlen.
  assert (Hend : enroll_endpoint now' uuid g2 (enroll_call args su parts port) = (Answered 200 (hl_render layer r), g3')).
  { unfold enroll_endpoint, enroll_call. cbn [hc_payload hc_path hc_method]. rewrite !bool_decide_true by done. cbn [negb]. rewrite Hcred, Hkind, Hplat, (parse_ok layer Hl) by done. fold e. by rewrite Hen. }
  destruct (enroll_saves (λ call, (enroll_endpoint now' uuid g2 call).1) args su d parts port r) as (file & c & Hcmd & Hmode & Hload & Hcaps & Hid); try done.
  { by rewrite Hcred. }
  { change (er_node_id r) with (String "n" ("ode-" +:+ uuid)). by apply not_blank_cons. }
  { unfold public_key_of in Hpub. apply bind_Ok in Hpub as (raw & _ & [= Hp]). cbn. rewrite <- Hp. apply encode_not_blank. destruct (ed_public_ok raw). by destruct (ed_public raw). }
  { by rewrite Hend. }
  assert (g3 = g3') as -> by (unfold g3; by rewrite Hend). exists file, c, n. split_and!; [done..|]. eexists. split; [exact Hid|]. cbn. split_and!; [done..| |done|done].
  rewrite Hpk. by apply keypair_loads.
Qed.
End EndToEnd.

(** ** A command that does not succeed leaves the disk as it was *)

Lemma enroll_failure_keeps netloc_ok exchange ed_public args su d :
  match command_enroll netloc_ok exchange ed_public args su d with (Ok 0, _) => True | (_, d') => d' = d end.
Proof.
  unfold command_enroll. destruct (is_some (dk_config d) && negb (ea_force args)); [done|]. destruct (is_empty _); [done|].
  destruct (enroll _ _ _ _ _ _ _ _ _ _ _) as [o|[]]; try done. by destruct (make_agent_config _ _).
Qed.

(** ** A concrete enrollment *)

From S2P Require Import NodeRegistryExamples ProductionAppFacts NodeDispatchProps.

#[local] Existing Instance demo_starter.

Definition toy_parse (payload : json) : option EnrollRequest :=
  match payload with
  | JObj [(_, JStr token); (_, JStr key); (_, JStr name); (_, JStr kind); (_, JStr platform); (_, JStr architecture); (_, JStr version); (_, JList declared)] =>
      match kind_of kind, platform_of platform with
      | Ok k, Ok p => Some (mkEnrollRequest token key (strip name) k p (strip architecture) (strip version) (map strip (map py_str declared)))
      | _, _ => None
      end
  | _ => None
  end.
Definition toy_layer : HttpLayer := mkLayer toy_parse (λ r, utf8 (dumps (JObj (enroll_response_json r)))).

Definition ordered_response (r : EnrollResponse) : dict string json :=
  [("control_plane_key_id", JStr (er_control_plane_key_id r)); ("control_plane_public_key", JStr (er_control_plane_public_key r));
   ("granted_capabilities", JList (map JStr (er_granted_capabilities r))); ("heartbeat_interval_seconds", JInt (er_heartbeat_interval_seconds r));
   ("node_id", JStr (er_node_id r)); ("node_name", JStr (er_node_name r)); ("protocol", JStr PROTOCOL_ID); ("session_path", JStr "/v1/nodes/session")].

Lemma response_norm r : jnorm (JObj (enroll_response_json r)) = JObj (ordered_response r).
Proof.
  transitivity (JObj (map (λ kv, (kv.1, jnorm kv.2)) (ordered_response r))); [reflexivity|]. unfold ordered_response. cbn [map fst snd jnorm]. by rewrite map_norm_strings.
Qed.

Lemma toy_layer_ok : layer_ok toy_layer.
Proof.
  split.
  - intros token key name kind platform architecture version declared _. cbn [hl_parse toy_layer toy_parse enroll_payload]. rewrite py_str_strings. by destruct kind, platform.
  - intros r. exists (dumps (JObj (enroll_response_json r))), (ordered_response r). split_and!.
    + apply utf8_decode_encode.
    + rewrite loads_dumps; [by rewrite response_norm|]. pose proof (strings_wf (er_granted_capabilities r)) as Hw. unfold enroll_response_json. cbn [json_wf foldr fst snd] in *.
      split; [repeat constructor; set_solver|]. by split_and!.
    + intros k. apply dget_perm; [|repeat constructor; set_solver]. unfold ordered_response, enroll_response_json. solve_Permutation.
Qed.

Definition ascii_only (_ : string) : bool := false.
Definition laptop_key : string := "fedcba9876543210fedcba9876543210".
Definition laptop_arguments : EnrollArguments := mkArguments "https://olympus.example:8443/console" None true "laptop" "workstation" false.
Definition laptop_surroundings : Surroundings := mkSurroundings "Linux" "x86_64" (" " +:+ ir_enrollment_token laptop_response +:+ line_feed) laptop_key 420.
Definition laptop_url : SplitResult := mkSplit "https" "olympus.example:8443".

Lemma agent_enrolls_witness :
  ∃ file c n, command_enroll ascii_only
      (λ call, (enroll_endpoint demo_stamp demo_cfg any_key toy_verifies gateway_public "key-1" toy_layer (seconds 60) "u7" (final issue_laptop) call).1)
      toy_public laptop_arguments laptop_surroundings (mkAgentDisk None None) = (Ok 0, mkAgentDisk (Some file) None) ∧
    load_config ascii_only (Some file) true = Ok c ∧
    ∃ i, identity_of c = Some i ∧ ai_node_id i = "node-u7" ∧ public_key_of toy_public (ai_private_key i) = Ok (n_public_key n) ∧
      ai_control_plane_public_key i = gateway_public.
Proof.
  assert (Hi : issue_laptop = (Ok (RIssued laptop_response), final issue_laptop)) by (vm_compute; reflexivity).
  assert (Hu : usable_url ascii_only (ea_control_plane_url laptop_arguments) laptop_url (Some 8443)) by (split_and!; vm_compute; reflexivity).
  destruct (agent_enrolls demo_stamp demo_cfg any_key toy_public toy_signature toy_verifies hash_public_ok toy_signature_nonempty toy_signature_verifies
    gateway_private gateway_public "key-1" 900 (Some ["system.inspect@1"]) ascii_only toy_layer laptop_request jerry (seconds 10) "abcdefgh" "secret-secret" idle laptop_response
    (final issue_laptop) laptop_arguments laptop_surroundings (mkAgentDisk None None) laptop_url (Some 8443) (seconds 60) "u7" (final issue_laptop)
    toy_layer_ok gateway_keys eq_refl eq_refl Hi eq_refl ltac:(vm_compute; reflexivity) Hu (or_introl eq_refl)) as (file & c & n & H1 & _ & H2 & _ & _ & _ & _ & i & H3 & H4 & _ & H5 & H6 & _);
    [vm_compute; reflexivity|vm_compute; reflexivity|reflexivity|vm_compute; reflexivity|reflexivity|vm_compute; reflexivity|apply Nat.leb_le; vm_compute; reflexivity|].
  exists file, c, n. split; [exact H1|]. split; [exact H2|]. exists i. split; [exact H3|]. split; [exact H4|]. split; [exact H5|exact H6].
Defined.

(** A configuration without a node id is refused with a TypeError, which no command handles; one that is not JSON is refused as unusable. *)
Example missing_key_escapes : command_status ascii_only (mkAgentDisk (Some (mkAgentFile "{}" 384)) None) true = Err TypeMismatch.
Proof. vm_compute. reflexivity. Qed.
Example garbage_is_refused : command_status ascii_only (mkAgentDisk (Some (mkAgentFile "{" 384)) None) true = Ok None.
Proof. vm_compute. reflexivity. Qed.

(** Until it is replaced the temporary file holds the private key with the permissions the umask leaves. *)
Example key_readable_before_chmod c : dk_temporary (save_upto 1 420 c (mkAgentDisk None None)) = Some (mkAgentFile (utf8 (dumps_indent (JObj (config_json c)))) 420).
Proof. reflexivity. Qed.

(** A control plane that answers with a blank node id has spent the token, and the command ends with an exception instead of an exit code. *)
Definition blank_answer (_ : HttpCall) : HttpAnswer := Answered 200 (hl_render toy_layer (mkEnrollResponse " " "laptop" [] gateway_public "key-1" 30)).
Example blank_node_id_escapes :
  command_enroll ascii_only blank_answer toy_public laptop_arguments laptop_surroundings (mkAgentDisk None None) = (Err NodeAgentConfigError, mkAgentDisk None None).
Proof. vm_compute. reflexivity. Qed.

(** A port that is not a number escapes too: [parts.port] is read outside the handler. *)
Example bad_port_escapes :
  command_enroll ascii_only blank_answer toy_public (mkArguments "https://olympus.example:https" (Some "token") false "laptop" "workstation" false) laptop_surroundings
    (mkAgentDisk None None) = (Err UrlValueError, mkAgentDisk None None).
Proof. vm_compute. reflexivity. Qed.

Example first_delays : serve_delays MIN_BACKOFF_SECONDS [(DialFailed, 5); (DialFailed, 0); (DialFailed, 0); (DialFailed, 0); (DialFailed, 0); (DialFailed, 999); (SessionEnded, 0)] =
  [2005; 4000; 8000; 16000; 32000; 60999; 2000].
Proof. reflexivity. Qed.
