(* ===== verification/Settings.v ===== *)
(** What the gateways accept as configuration (src/olympus/gateway/production_settings.py, settings.py, src/olympus/settings_compat.py)
    and what they build from it (src/olympus/runtime/production_gateway.py, node_edge.py).

    pydantic parses the fields and runs the validators: first those of the fields, then, when none failed, the one of the model.
    A URL is what pydantic gives for it, with the default port of its scheme filled in. *)

From stdpp Require Import pretty.
From S2P Require Import Prelude PyDict PyTime Sha256 Json JsonParse PyParse NodeModels NodeScopes NodeStore NodeCrypto NodeRegistry EmergencyLatch OperatorAuth WebAuthn Discord ProductionApp AuditSigning AuditExport S3Store AuditExportJob.
From Stdlib Require Import Ascii.

Open Scope Z_scope.

(** ** Environment aliases *)

Definition upper_char (c : ascii) : ascii := let n := ord c in if ((97 <=? n) && (n <=? 122))%nat then ascii_of_nat (n - 32) else c.
Fixpoint upper (s : string) : string := match s with EmptyString => EmptyString | String c s' => String (upper_char c) (upper s') end.

(** What the environment gives a field, or the ValueError on two values that differ *)
Definition environment_value (environ : dict string string) (canonical legacy field : string) : result string (option string) :=
  match dget (canonical +:+ upper field) environ, dget (legacy +:+ upper field) environ with
  | Some c, Some l => if bool_decide (c = l) then Ok (Some c) else Err ("conflicting Fire and legacy Olympus environment values for " +:+ upper field)
  | Some c, None => Ok (Some c)
  | None, l => Ok l
  end.

(** [apply_fire_environment_aliases] *)
Fixpoint apply_aliases (environ : dict string string) (canonical legacy : string) (fields : list string) (resolved : dict string json) : result string (dict string json) :=
  match fields with
  | [] => Ok resolved
  | field :: fields =>
      selected ← environment_value environ canonical legacy field;
      apply_aliases environ canonical legacy fields
        (match selected with Some v => if dmem field resolved then resolved else dset field (JStr v) resolved | None => resolved end)
  end.

(** ** [ipaddress.ip_address] *)

Definition decimal_octet (s : string) : bool :=
  negb (is_empty s) && all_chars digit_char s && (String.length s <=? 3)%nat && negb (starts_with "0" s && (1 <? String.length s)%nat) && (digits_val 0 s <=? 255)%N.
Definition is_ipv4 (s : string) : bool := let parts := split_char "." s in (length parts =? 4)%nat && forallb decimal_octet parts.

Definition hex_digit (c : ascii) : bool := let n := ord c in ((48 <=? n) && (n <=? 57) || (65 <=? n) && (n <=? 70) || (97 <=? n) && (n <=? 102))%nat.
Definition hextet (s : string) : bool := negb (is_empty s) && all_chars hex_digit s && (String.length s <=? 4)%nat.

(** The parts between colons, a dotted end counted as two *)
Definition ipv6_parts (s : string) : option (list string) :=
  let parts := split_char ":" s in
  if (length parts <? 3)%nat then None
  else match last parts with
       | Some l => if str_has "." l then (if is_ipv4 l then Some (take (length parts - 1) parts ++ ["0"; "0"]) else None) else Some parts
       | None => None
       end.

(** The positions of empty parts, the ends left out *)
Definition inner_gaps (parts : list string) : list nat := List.filter (λ i, is_empty (default "" (parts !! i))) (seq 1 (length parts - 2)).

Definition ipv6_ok (parts : list string) : bool :=
  let n := length parts in
  let first_empty := is_empty (default "" (head parts)) in
  let last_empty := is_empty (default "" (last parts)) in
  (n <=? 9)%nat &&
  match inner_gaps parts with
  | [] => (n =? 8)%nat && forallb hextet parts
  | [skip] =>
      let hi := if first_empty then (skip - 1)%nat else skip in
      let lo := if last_empty then (n - skip - 2)%nat else (n - skip - 1)%nat in
      (negb first_empty || (hi =? 0)%nat) && (negb last_empty || (lo =? 0)%nat) && (hi + lo <=? 7)%nat &&
      forallb hextet (take hi parts) && forallb hextet (drop (n - lo) parts)
  | _ => false
  end.

(** A scope id after a percent sign is not empty and has no percent sign. *)
Definition is_ipv6 (s : string) : bool :=
  negb (str_has "/" s) &&
  match split_char "%" s with
  | [a] | [a; String _ _] => match ipv6_parts a with Some parts => ipv6_ok parts | None => false end
  | _ => false
  end.

(** [_is_ip_address] *)
Definition is_ip_address (s : string) : bool := is_ipv4 s || is_ipv6 s.

Example ip_1 : map is_ip_address ["127.0.0.1"; "::1"; "fe80::1%eth0"; "1:2:3:4:5:6:7:8"; "::ffff:1.2.3.4"; "::"] = [true; true; true; true; true; true].
Proof. reflexivity. Qed.
Example ip_2 : map is_ip_address ["olympus.example"; "01.2.3.4"; "1.2.3"; "1::2::3"; "1:2:3:4:5:6:7"; ":1::2"; "[::1]"; "256.1.1.1"; "1:2:3:4::5:6:7:8"] =
  [false; false; false; false; false; false; false; false; false].
Proof. reflexivity. Qed.

(** ** Production settings *)

(** A URL as pydantic gives it; [url_userinfo] is the part up to and with the at sign. *)
Record Url := mkUrl {
  url_scheme : string; url_userinfo : string; url_host : option string; url_port : option Z;
  url_path : option string; url_query : option string; url_fragment : option string }.

Definition host_and_port (u : Url) : string :=
  default "None" (url_host u) +:+ match url_port u with Some p => if p =? 443 then "" else ":" +:+ pretty p | None => "" end.
(** [str(url)] of an https URL *)
Definition url_text (u : Url) : string :=
  url_scheme u +:+ "://" +:+ url_userinfo u +:+ host_and_port u +:+ default "" (url_path u)
  +:+ match url_query u with Some q => "?" +:+ q | None => "" end +:+ match url_fragment u with Some f => "#" +:+ f | None => "" end.

Record ProductionSettings := mkProduction {
  ps_discord_application_public_key : string;
  ps_discord_guild_id : string;
  ps_discord_channel_ids : list string;
  ps_webauthn_origin : Url;
  ps_webauthn_rp_id : string;
  ps_webauthn_rp_name : string;
  ps_lease_ttl : Z;
  ps_discord_timestamp_tolerance : Z;
  ps_database_dsn : string;
  ps_emergency_latch_path : string;
  ps_emergency_latch_verification_key : string;
  ps_node_mesh_enabled : bool;
  ps_node_heartbeat_interval_seconds : Z;
  ps_node_heartbeat_expiry_seconds : Z;
  ps_node_enrollment_ttl_seconds : Z;
  ps_node_control_plane_private_key : option string;
  ps_node_database_url : option string;
  ps_http_host : string;
  ps_http_port : Z;
  ps_tls_certificate_path : option string;
  ps_tls_private_key_path : option string;
  ps_bootstrap_enabled : bool;
  ps_audit : ExportSettings }.

Definition COMMANDER_ID : string := "628053765181800448".

(** [_SNOWFLAKE.fullmatch], [_HEX_32_BYTES.fullmatch] *)
Definition is_snowflake (s : string) : bool := all_chars digit_char s && (17 <=? String.length s)%nat && (String.length s <=? 20)%nat.
Definition is_hex_32 (s : string) : bool := all_chars hex_digit s && (String.length s =? 64)%nat.

(** [value.is_absolute() or PurePosixPath(str(value).replace("\\", "/")).is_absolute()] on a POSIX system *)
Definition passes_absolute (path : string) : bool := match path with String c _ => bool_decide (c = "/"%char) || bool_decide (c = "\"%char) | EmptyString => false end.
Definition optional (P : string → bool) (v : option string) : bool := match v with Some s => P s | None => true end.

(** [blank_node_secret_means_unset], before the field is validated *)
Definition blank_is_unset (v : option string) : option string := match v with Some s => if is_blank s then None else v | None => None end.

Definition failing (l : list (bool * string)) : list string := map snd (List.filter (λ c, negb c.1) l).
Definition between (lo hi v : Z) : bool := (lo <=? v) && (v <=? hi).

(** The validators of the fields *)
Definition field_errors (s : ProductionSettings) : list string := failing [
  (is_hex_32 (ps_discord_application_public_key s), "verification keys must be 32-byte hexadecimal values");
  (is_snowflake (ps_discord_guild_id s), "discord_guild_id must be a literal Discord snowflake");
  (negb (bool_decide (ps_discord_channel_ids s = [])), "discord_channel_ids must not be empty");
  (forallb is_snowflake (ps_discord_channel_ids s), "discord_channel_ids must contain literal Discord snowflakes");
  (starts_with "postgresql+asyncpg://" (ps_database_dsn s), "database_dsn must use postgresql+asyncpg");
  (passes_absolute (ps_emergency_latch_path s), "emergency_latch_path must be absolute");
  (is_hex_32 (ps_emergency_latch_verification_key s), "verification keys must be 32-byte hexadecimal values");
  (between 1 3600 (ps_node_heartbeat_interval_seconds s), "node_heartbeat_interval_seconds");
  (between 2 7200 (ps_node_heartbeat_expiry_seconds s), "node_heartbeat_expiry_seconds");
  (between 60 3600 (ps_node_enrollment_ttl_seconds s), "node_enrollment_ttl_seconds");
  (negb (bool_decide (ps_http_host s ∈ ["0.0.0.0"; "::"; ""])), "http_host must be a specific private address, never a wildcard");
  (between 1024 65535 (ps_http_port s), "http_port");
  (optional passes_absolute (ps_tls_certificate_path s), "TLS material paths must be absolute");
  (optional passes_absolute (ps_tls_private_key_path s), "TLS material paths must be absolute");
  (1 <=? xs_retention_days (ps_audit s), "audit_export_retention_days");
  (bool_decide (xs_retention_mode (ps_audit s) ∈ ["GOVERNANCE"; "COMPLIANCE"]), "audit_export_retention_mode") ].

(** [validate_authority_boundary]: the first error *)
Definition validate_authority_boundary (s : ProductionSettings) : result string () :=
  let origin := ps_webauthn_origin s in
  match url_host origin with
  | None => Err "webauthn_origin must use private HTTPS"
  | Some host =>
      ensure (bool_decide (url_scheme origin = "https")) "webauthn_origin must use private HTTPS";;
      ensure (bool_decide (url_path origin ∈ [Some ""; Some "/"]) && negb (is_some (url_query origin)) && negb (is_some (url_fragment origin)))
        "webauthn_origin must not include path, query, or fragment";;
      ensure (negb (bool_decide (lower host = "localhost") || is_ip_address host)) "webauthn_origin must use a stable private DNS name";;
      ensure (negb (str_has "*" (ps_webauthn_rp_id s) || negb (bool_decide (lower host = lower (ps_webauthn_rp_id s)))))
        "webauthn origin and relying-party ID must match exactly";;
      ensure (negb ((ps_lease_ttl s <=? 0) || (hours 24 <? ps_lease_ttl s))) "lease_ttl must be positive and at most 24 hours";;
      ensure (negb ((ps_discord_timestamp_tolerance s <=? 0) || (minutes 5 <? ps_discord_timestamp_tolerance s))) "discord_timestamp_tolerance must be at most five minutes";;
      ensure (ps_node_heartbeat_interval_seconds s <? ps_node_heartbeat_expiry_seconds s) "node heartbeat expiry must exceed the heartbeat interval";;
      ensure (negb (ps_node_mesh_enabled s && negb (is_some (ps_node_database_url s) && is_some (ps_node_control_plane_private_key s))))
        "production node mesh requires durable PostgreSQL state and a persistent control-plane signing key";;
      ensure (Bool.eqb (is_some (ps_tls_certificate_path s)) (is_some (ps_tls_private_key_path s))) "TLS requires both a certificate and a private key, or neither";;
      ensure (Bool.eqb (is_some (xs_bucket (ps_audit s))) (is_some (xs_kms_key_id (ps_audit s)))) "audit export requires both a bucket and a signing key, or neither";;
      ensure (negb (is_blank (xs_chain (ps_audit s)))) "audit_export_chain must not be empty";;
      ensure (match url_port origin with Some p => (p =? 443) || (p =? ps_http_port s) | None => true end) "webauthn_origin names another port than the gateway serves"
  end.

(** What [ProductionGatewaySettings(...)] gives, or the messages of the ValidationError *)
Definition make_production_settings (s : ProductionSettings) : result (list string) ProductionSettings :=
  let s := mkProduction (ps_discord_application_public_key s) (ps_discord_guild_id s) (ps_discord_channel_ids s) (ps_webauthn_origin s) (ps_webauthn_rp_id s)
    (ps_webauthn_rp_name s) (ps_lease_ttl s) (ps_discord_timestamp_tolerance s) (ps_database_dsn s) (ps_emergency_latch_path s)
    (ps_emergency_latch_verification_key s) (ps_node_mesh_enabled s) (ps_node_heartbeat_interval_seconds s) (ps_node_heartbeat_expiry_seconds s)
    (ps_node_enrollment_ttl_seconds s) (blank_is_unset (ps_node_control_plane_private_key s)) (blank_is_unset (ps_node_database_url s)) (ps_http_host s)
    (ps_http_port s) (ps_tls_certificate_path s) (ps_tls_private_key_path s) (ps_bootstrap_enabled s) (ps_audit s) in
  match field_errors s with
  | [] => match validate_authority_boundary s with Ok _ => Ok s | Err e => Err [e] end
  | errors => Err errors
  end.

(** [public_host_header] *)
Definition public_host_header (s : ProductionSettings) : string := host_and_port (ps_webauthn_origin s).

(** ** Development settings *)

Record GatewaySettings := mkGatewaySettings {
  gs_dev_command_token : string;
  gs_http_port : Z;
  gs_node_mesh_enabled : bool;
  gs_node_heartbeat_interval_seconds : Z;
  gs_node_heartbeat_expiry_seconds : Z;
  gs_node_enrollment_ttl_seconds : Z;
  gs_node_control_plane_private_key : option string;
  gs_node_allow_volatile_state : bool;
  gs_node_allow_ephemeral_control_plane_key : bool;
  gs_database_url : option string }.

Definition visible_ascii (c : ascii) : bool := ((33 <=? ord c) && (ord c <=? 126))%nat.

Definition make_gateway_settings (s : GatewaySettings) : result (list string) GatewaySettings :=
  let s := mkGatewaySettings (gs_dev_command_token s) (gs_http_port s) (gs_node_mesh_enabled s) (gs_node_heartbeat_interval_seconds s)
    (gs_node_heartbeat_expiry_seconds s) (gs_node_enrollment_ttl_seconds s) (blank_is_unset (gs_node_control_plane_private_key s))
    (gs_node_allow_volatile_state s) (gs_node_allow_ephemeral_control_plane_key s) (blank_is_unset (gs_database_url s)) in
  match failing [
    (((32 <=? String.length (gs_dev_command_token s)) && (String.length (gs_dev_command_token s) <=? 256))%nat, "dev_command_token");
    (all_chars visible_ascii (gs_dev_command_token s), "development command token must contain only visible ASCII characters");
    (between 1024 65535 (gs_http_port s), "http_port");
    (between 1 3600 (gs_node_heartbeat_interval_seconds s), "node_heartbeat_interval_seconds");
    (between 2 7200 (gs_node_heartbeat_expiry_seconds s), "node_heartbeat_expiry_seconds");
    (between 60 3600 (gs_node_enrollment_ttl_seconds s), "node_enrollment_ttl_seconds")] with
  | [] => if gs_node_heartbeat_interval_seconds s <? gs_node_heartbeat_expiry_seconds s then Ok s else Err ["node heartbeat expiry must exceed the heartbeat interval"]
  | errors => Err errors
  end.

(** ** What the processes build *)

Inductive start_exn := StartRuntimeError | StartValueError | StartMeshError (e : exn) | StartService (e : wa_exn).

(** [open_node_mesh_store]: the URL of the durable store, or none for the volatile one *)
Definition open_node_mesh_store (s : GatewaySettings) : result start_exn (option string) :=
  ensure (is_some (gs_database_url s) || gs_node_allow_volatile_state s) StartRuntimeError;; Ok (gs_database_url s).

Section Build.
Context (ed_public : string → string).

Definition lift_start {A} (r : result exn A) : result start_exn A := match r with Ok a => Ok a | Err e => Err (StartMeshError e) end.

(** [resolve_control_plane_keys], with the key bytes drawn when none is configured *)
Definition resolve_control_plane_keys (configured : option string) (allow_ephemeral : bool) (drawn : string) : result start_exn (string * string) :=
  match configured with
  | Some private_key => public_key ← lift_start (public_key_of ed_public private_key); Ok (private_key, public_key)
  | None => ensure allow_ephemeral StartRuntimeError;; Ok (encode_bytes drawn, encode_bytes (ed_public drawn))
  end.

Record MeshRuntime := mkRuntime { mr_private_key : string; mr_public_key : string; mr_config : Config }.

(** [build_node_mesh_runtime] *)
Definition build_node_mesh_runtime (configured : option string) (allow_ephemeral : bool) (drawn : string) (interval expiry ttl : Z) : result start_exn MeshRuntime :=
  keys ← resolve_control_plane_keys configured allow_ephemeral drawn;
  config ← lift_start (make_config interval expiry ttl);
  Ok (mkRuntime keys.1 keys.2 config).

(** [run] of the production gateway up to the runtime: nothing without the mesh, and no volatile store with it. The production
    settings have no switch for an ephemeral key. *)
Definition production_runtime (s : ProductionSettings) : result start_exn (option MeshRuntime) :=
  if ps_node_mesh_enabled s then
    ensure (is_some (ps_node_database_url s)) StartRuntimeError;;
    Some <$> build_node_mesh_runtime (ps_node_control_plane_private_key s) false "" (ps_node_heartbeat_interval_seconds s)
      (ps_node_heartbeat_expiry_seconds s) (ps_node_enrollment_ttl_seconds s)
  else Ok None.

(** [s.rstrip("/")] *)
Fixpoint rstrip_slash (s : string) : string :=
  match s with
  | EmptyString => EmptyString
  | String c s' => match rstrip_slash s' with EmptyString => if bool_decide (c = "/"%char) then EmptyString else String c EmptyString | r => String c r end
  end.

(** [build_app]; Discord is not wired on this gateway *)
Definition build_app (s : ProductionSettings) (mesh : option MeshRuntime) : result start_exn App :=
  let origin := rstrip_slash (url_text (ps_webauthn_origin s)) in
  service ← match make_service (mkService COMMANDER_ID (ps_discord_guild_id s) (ps_discord_channel_ids s) (ps_webauthn_rp_id s) (ps_webauthn_rp_name s) origin
                                  (minutes 5) (ps_lease_ttl s)) with Ok v => Ok v | Err e => Err (StartService e) end;
  key ← require_some (fromhex (ps_discord_application_public_key s)) StartValueError;
  Ok (mkApp service origin (public_host_header s) (ps_bootstrap_enabled s) (mr_private_key <$> mesh) key None).

(** [_tls_context] before the files are read *)
Definition tls_paths (s : ProductionSettings) : result start_exn (string * string) :=
  match ps_tls_certificate_path s, ps_tls_private_key_path s with
  | Some certificate, Some key => Ok (certificate, key)
  | _, _ => Err StartRuntimeError
  end.
End Build.

(** * What accepted settings guarantee *)

From S2P Require Import AuditExportFacts.

(** ** The aliases *)

Lemma apply_aliases_sound environ canonical legacy fields values r : apply_aliases environ canonical legacy fields values = Ok r →
  (∀ field, field ∈ fields → ∃ v, environment_value environ canonical legacy field = Ok v ∧
     (dget field values = None → dget field r = JStr <$> v)) ∧
  (∀ k v, dget k values = Some v → dget k r = Some v) ∧ (∀ k, k ∉ fields → dget k r = dget k values).
Proof.
  revert values. induction fields as [|field fields IH]; intros values; cbn [apply_aliases].
  { intros [= ->]. split_and!; [set_solver|done|done]. }
  intros (sel & Hsel & Hr)%bind_Ok. set (values' := match sel with Some v => _ | None => _ end) in Hr. destruct (IH _ Hr) as (H1 & H2 & H3).
  assert (Hkeep : ∀ k v, dget k values = Some v → dget k values' = Some v).
  { intros k v Hk. unfold values', dmem. destruct sel as [w|]; [|done]. destruct (dget field values) eqn:E; [done|]. rewrite dget_dset_ne; [done|congruence]. }
  assert (Hother : ∀ k, k ≠ field → dget k values' = dget k values).
  { intros k Hk. unfold values'. destruct sel; [|done]. destruct (dmem field values); [done|]. by rewrite dget_dset_ne. }
  split_and!; [|by auto|].
  - intros f Hf. destruct (decide (f = field)) as [->|Hne].
    + exists sel. split; [done|]. intros Hn. unfold values' in *. destruct sel as [w|]; cbn [fmap option_fmap option_map].
      * apply H2. unfold dmem. rewrite Hn. apply dget_dset_eq.
      * destruct (decide (field ∈ fields)) as [Hin|Hni]; [|by rewrite H3]. destruct (H1 _ Hin) as (v' & Hv' & Hd). rewrite Hsel in Hv'. injection Hv' as <-. by apply Hd.
    + apply list_elem_of_In in Hf. destruct Hf as [<-|Hf]; [done|]. apply list_elem_of_In in Hf. destruct (H1 _ Hf) as (v & Hv & Hd). exists v. split; [done|]. intros Hn. apply Hd. by rewrite Hother.
  - intros k Hk. rewrite H3 by set_solver. apply Hother. set_solver.
Qed.

(** ** Text *)

Lemma rstrip_slash_plain s : str_has "/" s = false → rstrip_slash s = s.
Proof.
  induction s as [|c s IH]; [done|]. cbn. intros [Hc Hs]%orb_false_iff. rewrite IH by done. destruct s; [|done]. by rewrite Hc.
Qed.

Lemma rstrip_slash_app p s : rstrip_slash s = s → s ≠ "" → rstrip_slash (p +:+ s) = p +:+ s.
Proof. intros Hs Hn. induction p as [|c p IH]; [done|]. cbn. rewrite IH. by destruct p, s. Qed.

Lemma rstrip_slash_snoc s : rstrip_slash (s +:+ "/") = rstrip_slash s.
Proof. induction s as [|c s IH]; [done|]. cbn. by rewrite IH. Qed.

Lemma hex_digit_value c : hex_digit c = true → is_Some (hex_value c) ∧ ascii_blank c = false.
Proof. destruct c as [[] [] [] [] [] [] [] []]; vm_compute; intros ?; try discriminate; split; eauto. Qed.

Lemma fromhex_even n s : String.length s = (2 * n)%nat → all_chars hex_digit s = true → is_Some (fromhex s).
Proof.
  revert s. induction n as [|n IH]; intros [|c [|d s]] Hl Ha; cbn in Hl; try lia; [by eexists|]. cbn [all_chars] in Ha.
  apply andb_true_iff in Ha as [Hc Ha]. apply andb_true_iff in Ha as [Hd Ha]. destruct (hex_digit_value c Hc) as [[x Hx] Hb], (hex_digit_value d Hd) as [[y Hy] _].
  destruct (IH s) as [r Hr]; [lia|done|]. cbn [fromhex]. rewrite Hb, Hx, Hy. cbn. rewrite Hr. cbn. by eexists.
Qed.

(** ** What a browser on the origin's page sends *)

Definition browser_host (u : Url) : string := host_and_port u.
Definition browser_origin (u : Url) : string := "https://" +:+ host_and_port u.

Lemma failing_nil l : failing l = [] → Forall (λ c, c.1 = true) l.
Proof. induction l as [|[b m] l IH]; [done|]. unfold failing. cbn. destruct b; cbn; [|done]. constructor; auto. Qed.

Lemma port_text p : 0 ≤ p → str_has "/" (pretty p) = false.
Proof.
  intros Hp. apply digits_no_char; [|done]. pose proof (pad12_digits p Hp) as H. unfold pad12, digits_only in *. rewrite all_chars_app in H. by apply andb_true_iff in H as [_ ?].
Qed.

(** The settings, once accepted *)
Record accepted (s : ProductionSettings) (host : string) : Prop := {
  ac_host : url_host (ps_webauthn_origin s) = Some host;
  ac_scheme : url_scheme (ps_webauthn_origin s) = "https";
  ac_path : url_path (ps_webauthn_origin s) = Some "" ∨ url_path (ps_webauthn_origin s) = Some "/";
  ac_bare : url_query (ps_webauthn_origin s) = None ∧ url_fragment (ps_webauthn_origin s) = None;
  ac_rp : lower host = lower (ps_webauthn_rp_id s);
  ac_dns : is_ip_address host = false;
  ac_port : ∀ p, url_port (ps_webauthn_origin s) = Some p → p = 443 ∨ p = ps_http_port s;
  ac_lease : 0 < ps_lease_ttl s ≤ hours 24;
  ac_heartbeat : ps_node_heartbeat_interval_seconds s < ps_node_heartbeat_expiry_seconds s;
  ac_mesh : ps_node_mesh_enabled s = true → is_Some (ps_node_database_url s) ∧ is_Some (ps_node_control_plane_private_key s);
  ac_tls : is_Some (ps_tls_certificate_path s) ↔ is_Some (ps_tls_private_key_path s);
  ac_export : is_Some (xs_bucket (ps_audit s)) ↔ is_Some (xs_kms_key_id (ps_audit s));
  ac_chain : is_blank (xs_chain (ps_audit s)) = false;
  ac_channels : ps_discord_channel_ids s ≠ [];
  ac_served : 1024 ≤ ps_http_port s;
  ac_key : is_hex_32 (ps_discord_application_public_key s) = true;
  ac_retention : 1 ≤ xs_retention_days (ps_audit s) ∧ (xs_retention_mode (ps_audit s) = "GOVERNANCE" ∨ xs_retention_mode (ps_audit s) = "COMPLIANCE") }.

Lemma is_some_spec {A} (o : option A) : is_some o = true ↔ is_Some o.
Proof. destruct o; split; try done; by intros [? ?]. Qed.

Lemma is_some_false {A} (o : option A) : is_some o = false → o = None.
Proof. by destruct o. Qed.

Lemma settings_accepted s0 s : make_production_settings s0 = Ok s → ∃ host, accepted s host.
Proof.
  unfold make_production_settings. set (t := mkProduction _ _ _ _ _ _ _ _ _ _ _ _ _ _ _ _ _ _ _ _ _ _ _). clearbody t. destruct (field_errors t) eqn:Hf; [|done].
  destruct (validate_authority_boundary t) eqn:Hb; [|done]. intros [= ->]. apply failing_nil in Hf. unfold validate_authority_boundary in Hb.
  destruct (url_host (ps_webauthn_origin s)) as [host|] eqn:Hh; [|done].
  repeat (apply bind_Ok in Hb as (? & ?%ensure_Ok & Hb)). apply ensure_Ok in Hb. rewrite !Forall_cons in Hf. cbn [fst] in Hf. destruct_and! Hf.
  exists host. repeat match goal with
    | H : negb _ = true |- _ => apply negb_true_iff in H | H : negb _ = false |- _ => apply negb_false_iff in H
    | H : _ && _ = true |- _ => apply andb_true_iff in H as [? ?] | H : _ || _ = false |- _ => apply orb_false_iff in H as [? ?]
    | H : bool_decide _ = true |- _ => apply bool_decide_eq_true_1 in H | H : bool_decide _ = false |- _ => apply bool_decide_eq_false_1 in H
    | H : between _ _ _ = true |- _ => unfold between in H | H : Bool.eqb _ _ = true |- _ => apply eqb_prop in H
    | H : _ ∈ [_; _] |- _ => rewrite elem_of_cons, list_elem_of_singleton in H
    | H : is_some _ = false |- _ => apply is_some_false in H
    end. split; try done; try lia.
  - intros p Hp. rewrite Hp in Hb. apply orb_true_iff in Hb. lia.
  - intros Hm. rewrite Hm in *. destruct (ps_node_database_url s), (ps_node_control_plane_private_key s); done.
  - rewrite <- !is_some_spec. split; congruence.
  - rewrite <- !is_some_spec. split; congruence.
  - split; [lia|done].
Qed.

Lemma origin_text s host : accepted s host → url_userinfo (ps_webauthn_origin s) = "" → str_has "/" host = false → host ≠ "" →
  rstrip_slash (url_text (ps_webauthn_origin s)) = browser_origin (ps_webauthn_origin s).
Proof.
  intros [Hh Hs Hp [Hq Hf] _ _ Hport _ _ _ _ _ _ _ Hsrv _ _] Hu Hslash Hne. unfold url_text, browser_origin. rewrite Hs, Hu, Hq, Hf.
  set (hp := host_and_port _). assert (Hhp : rstrip_slash hp = hp ∧ hp ≠ "").
  { subst hp. unfold host_and_port. rewrite Hh. cbn [default]. destruct (url_port (ps_webauthn_origin s)) as [p|] eqn:Ep; [|rewrite append_nil_r; split; [by apply rstrip_slash_plain|done]].
    destruct (p =? 443) eqn:E443; [rewrite append_nil_r; split; [by apply rstrip_slash_plain|done]|]. destruct (Hport p eq_refl) as [->| ->]; [done|].
    split; [|by destruct host]. apply rstrip_slash_app; [|done]. apply rstrip_slash_plain. cbn. apply port_text. lia. }
  clearbody hp. destruct Hhp as [H1 H2].
  assert (Hpath : "https" +:+ "://" +:+ "" +:+ hp +:+ default "" (url_path (ps_webauthn_origin s)) +:+ "" +:+ "" = ("https://" +:+ hp) +:+ default "" (url_path (ps_webauthn_origin s))).
  { by rewrite !append_nil_r. }
  rewrite Hpath. destruct Hp as [-> | ->]; cbn [default from_option id].
  - rewrite append_nil_r. by apply (rstrip_slash_app "https://").
  - rewrite rstrip_slash_snoc. by apply (rstrip_slash_app "https://").
Qed.

(** The gateway starts and is reachable under any accepted settings, given a signing key that is one when the mesh is on and an
    origin without credentials: the mesh runtime and the application are built, with the mesh exactly when it is enabled; every
    request a browser sends from a page of the origin, and no other origin or host, passes the origin check; the relying party is
    the origin's host; and the export job, when a bucket is set, finds its key, its chain and a retention the store accepts. *)
Theorem accepted_settings_serve ed_public s0 s host : make_production_settings s0 = Ok s → url_host (ps_webauthn_origin s) = Some host →
  url_userinfo (ps_webauthn_origin s) = "" → str_has "/" host = false → host ≠ "" →
  (∀ k, ps_node_control_plane_private_key s = Some k → is_ok (load_private_key k) = true) →
  ∃ mesh app, production_runtime ed_public s = Ok mesh ∧ build_app s mesh = Ok app ∧ (is_some mesh = ps_node_mesh_enabled s) ∧
    (∀ r, has_header r "x-forwarded-host" = false → has_header r "x-forwarded-proto" = false →
       is_ok (require_private_origin app r) = true ↔
       header r "origin" = Some (browser_origin (ps_webauthn_origin s)) ∧ header r "host" = Some (browser_host (ps_webauthn_origin s))) ∧
    lower (ws_rp_id (ap_service app)) = lower host ∧
    (∀ bucket, xs_bucket (ps_audit s) = Some bucket → is_Some (xs_kms_key_id (ps_audit s)) ∧
       is_ok (make_lock_store (mkLockStore (Some (xs_retention_days (ps_audit s))) (Some (xs_retention_mode (ps_audit s))))) = true ∧
       ∀ signer, is_blank bucket = false → is_ok (make_exporter (xs_chain (ps_audit s)) 500 (Some signer) bucket) = true).
Proof.
  intros Hs Hh Hu Hslash Hne Hkey. destruct (settings_accepted _ _ Hs) as (host' & Ha). pose proof (ac_host _ _ Ha) as Hh'. assert (host' = host) as -> by congruence. clear Hh'.
  assert (Hm : ∃ mesh, production_runtime ed_public s = Ok mesh ∧ is_some mesh = ps_node_mesh_enabled s).
  { unfold production_runtime. destruct (ps_node_mesh_enabled s) eqn:Em; [|by exists None]. destruct (ac_mesh _ _ Ha Em) as [[db ->] [k Hk]]. specialize (Hkey k Hk).
    rewrite Hk. unfold build_node_mesh_runtime, resolve_control_plane_keys, public_key_of. destruct (load_private_key k) as [raw|]; [|done]. cbn.
    unfold make_config. rewrite (proj2 (Z.ltb_lt _ _) (ac_heartbeat _ _ Ha)). cbn. by eexists. }
  destruct Hm as (mesh & Hm & Hon). exists mesh.
  assert (Hv : ∀ o, make_service (mkService COMMANDER_ID (ps_discord_guild_id s) (ps_discord_channel_ids s) (ps_webauthn_rp_id s) (ps_webauthn_rp_name s) o (minutes 5) (ps_lease_ttl s)) =
    Ok (mkService COMMANDER_ID (ps_discord_guild_id s) (ps_discord_channel_ids s) (ps_webauthn_rp_id s) (ps_webauthn_rp_name s) o (minutes 5) (ps_lease_ttl s))).
  { intros o. unfold make_service. cbn [ws_channel_ids ws_challenge_ttl ws_lease_ttl]. rewrite bool_decide_eq_false_2 by apply (ac_channels _ _ Ha).
    change ((minutes 5 <=? 0) || (minutes 5 <? minutes 5)) with false. destruct (ac_lease _ _ Ha). rewrite (proj2 (Z.leb_gt _ _)), (proj2 (Z.ltb_ge _ _)) by done. done. }
  assert (Hx : is_Some (fromhex (ps_discord_application_public_key s))).
  { pose proof (ac_key _ _ Ha) as Hk. unfold is_hex_32 in Hk. apply andb_true_iff in Hk as [Hc Hl]. apply (fromhex_even 32); [by apply Nat.eqb_eq|done]. }
  destruct Hx as [key Hx]. eexists. split; [exact Hm|]. split; [unfold build_app; rewrite Hv; cbn; rewrite Hx; reflexivity|]. split; [exact Hon|]. split_and!.
  - intros r H1 H2. unfold require_private_origin. cbn [ap_webauthn_origin ap_webauthn_host]. rewrite (origin_text _ _ Ha) by done. rewrite H1, H2.
    unfold public_host_header, browser_host. destruct (decide (header r "origin" = Some (browser_origin (ps_webauthn_origin s)))), (decide (header r "host" = Some (host_and_port (ps_webauthn_origin s)))).
    all: rewrite ?bool_decide_eq_true_2, ?bool_decide_eq_false_2 by done; cbn; naive_solver.
  - symmetry. apply (ac_rp _ _ Ha).
  - intros bucket Hb. split; [apply (ac_export _ _ Ha); by eexists|]. destruct (ac_retention _ _ Ha) as [Hd Hmode]. split.
    + unfold make_lock_store. cbn [lk_expected_days lk_expected_mode]. rewrite (proj2 (Z.leb_le _ _)) by done. destruct Hmode as [-> | ->]; done.
    + intros signer Hbl. unfold make_exporter. rewrite (ac_chain _ _ Ha), Hbl. done.
Qed.

(** ** Concrete settings *)

From S2P Require Import ProductionAppFacts.

Definition sample_url (userinfo host : string) : Url := mkUrl "https" userinfo (Some host) (Some 8443) (Some "/") None None.
Definition settings_with (u : Url) (rp latch : string) (audit : ExportSettings) : ProductionSettings :=
  mkProduction "00112233445566778899aabbccddeeff00112233445566778899aabbccddeeff" "12345678901234567" ["12345678901234567"] u rp "Olympus" (hours 24) (minutes 5)
    "postgresql+asyncpg://olympus@localhost/olympus" latch "00112233445566778899aabbccddeeff00112233445566778899aabbccddeeff" true 15 45 900
    (Some gateway_private) (Some "postgresql://mesh") "100.64.0.1" 8443 (Some "/etc/olympus/tls.crt") (Some "/etc/olympus/tls.key") false audit.
Definition audit_with (bucket node_chain : string) : ExportSettings := mkExportSettings (Some bucket) (Some "key-1") "authority-production" node_chain true 30 "GOVERNANCE".
Definition sample_settings_production : ProductionSettings := settings_with (sample_url "" "olympus.example") "Olympus.example" "/var/lib/olympus/latch" (audit_with "bucket" "node-mesh-production").

Lemma accepted_settings_serve_witness : ∃ app, build_app sample_settings_production (Some (mkRuntime gateway_private gateway_public (mkConfig 15 45 900))) = Ok app ∧
  is_ok (require_private_origin app (mkHttp [("host", "olympus.example:8443"); ("origin", "https://olympus.example:8443")] "")) = true.
Proof.
  assert (Hs : make_production_settings sample_settings_production = Ok sample_settings_production) by (vm_compute; reflexivity).
  destruct (accepted_settings_serve toy_public _ _ "olympus.example" Hs eq_refl eq_refl eq_refl ltac:(done)) as (mesh & app & Hm & Hb & _ & Hr & _).
  { intros k [= <-]. vm_compute. reflexivity. }
  assert (He : production_runtime toy_public sample_settings_production = Ok (Some (mkRuntime gateway_private gateway_public (mkConfig 15 45 900)))) by (vm_compute; reflexivity).
  assert (mesh = Some (mkRuntime gateway_private gateway_public (mkConfig 15 45 900))) as -> by congruence. exists app. split; [exact Hb|].
  apply Hr; [reflexivity|reflexivity|]. split; reflexivity.
Defined.

Definition is_accepted (s : ProductionSettings) : bool := is_ok (make_production_settings s).

(** A backslash is taken for a leading slash: on Linux this latch path is relative to the directory the gateway is started in. *)
Example backslash_path_is_accepted : is_accepted (settings_with (sample_url "" "olympus.example") "olympus.example" "\latch" (audit_with "bucket" "nodes")) = true.
Proof. vm_compute. reflexivity. Qed.

(** An empty name of the node chain or of the bucket is accepted, and the export job raises on it. *)
Example blank_node_chain_is_accepted :
  is_accepted (settings_with (sample_url "" "olympus.example") "olympus.example" "/latch" (audit_with "bucket" "")) = true ∧
  is_ok (make_exporter "" 500 (Some (mkSigner "key-1" (λ _, Err SigningFailed))) "bucket") = false.
Proof. vm_compute. split; reflexivity. Qed.
Example blank_bucket_is_accepted :
  is_accepted (settings_with (sample_url "" "olympus.example") "olympus.example" "/latch" (audit_with "" "nodes")) = true ∧
  is_ok (make_exporter "authority-production" 500 (Some (mkSigner "key-1" (λ _, Err SigningFailed))) "") = false.
Proof. vm_compute. split; reflexivity. Qed.

(** Credentials in the origin are accepted, and then no request a browser sends passes the origin check. *)
Definition with_credentials : ProductionSettings := settings_with (sample_url "user:secret@" "olympus.example") "olympus.example" "/latch" (audit_with "bucket" "nodes").
Example credentials_in_origin_are_accepted :
  is_accepted with_credentials = true ∧
  match build_app with_credentials None with
  | Ok app => is_ok (require_private_origin app (mkHttp [("host", browser_host (ps_webauthn_origin with_credentials)); ("origin", browser_origin (ps_webauthn_origin with_credentials))] "")) = false
  | Err _ => False
  end.
Proof. vm_compute. split; reflexivity. Qed.

(** An address in brackets, as pydantic gives the host of an IPv6 URL, is not taken for an address. *)
Example bracketed_address_is_accepted : is_accepted (settings_with (sample_url "" "[::1]") "[::1]" "/latch" (audit_with "bucket" "nodes")) = true.
Proof. vm_compute. reflexivity. Qed.

Example aliases_conflict : apply_aliases [("FIRE_HTTP_PORT", "1"); ("OLYMPUS_HTTP_PORT", "2")] "FIRE_" "OLYMPUS_" ["http_port"] [("http_port", JInt 3)] =
  Err "conflicting Fire and legacy Olympus environment values for HTTP_PORT".
Proof. reflexivity. Qed.
